(* ===== verification/_CoqProject ===== *)
-Q . S2P
Prelude.v
World.v
Buf.v
BufBuild.v
Hex.v
Base64.v
Rfc3339.v
Float.v
Json.v
JsonParse.v
Utf8.v
JsonString.v
JsonNumber.v
JsonGrammar.v
JsonWrite.v
KeySort.v
JsonPrint.v
JsonDouble.v
Rounding.v
Digits17.v
JsonRoundtrip.v
JsonSmall.v
Sha2.v
Hkdf.v
Status.v
JsonBuild.v
Fingerprint.v
Pem.v
Cert.v
Gcm.v
GcmSpec.v
Suite.v
KeySet.v
KeySetSpec.v
LicenseFile.v
MachineFile.v
MachineFileSpec.v
MachineProof.v
Validation.v
Octets.v
Der.v
Bn.v
BnSpec.v
Rsa.v
RsaSpec.v
RsaPss.v
Primes.v
Fe25519.v
FeSpec.v
Edwards.v
Ed25519.v
Ed25519Spec.v
P256.v
P256Field.v
Weierstrass.v
P256Spec.v
Ecdsa.v
ErrorSlot.v
Api.v
EndToEnd.v
Transport.v
Backend.v
Curl.v
CurlSpec.v
WinHttp.v
WinHttpSpec.v
Response.v
Client.v
ClientText.v
ClientSpec.v
Backends.v
ClientLive.v
Endpoints.v
EndpointBody.v
EndpointSpec.v
Activation.v
