(* ===== verification/Prelude.v ===== *)
(** * A verification development for tamga-c

    tamga-c ([src/]) is a C client library for a software-licensing service. It
    has two halves that meet in the JSON tree and the error slot.

    - Offline: licence files and machine files are PEM envelopes around a
      base64 certificate, a JSON object with an (optionally AES-256-GCM
      encrypted) payload and a signature. The library opens the envelope,
      verifies the signature with one key or with a set of keys, decrypts,
      parses the claims and decides whether the file is current.
    - Online: a client turns calls of the application into HTTP requests of the
      service's JSON API, hands them to a transport, repeats what is rate
      limited and safe to repeat, and maps the answers to error codes.

    ** Files and sources

    [Prelude]        bytes, C strings, machine integers, tactics, shared lemmas
    [World]          [tamga_mem.c], [tamga_error.c]: allocation, the error slot,
                     the monad [M] of everything that allocates or sets errors
    [Buf], [BufBuild]    [util/buf.c] and the init/append/detach pattern
    [Hex]            [util/hex.c], [util/uuid.c]
    [Base64]         [util/base64.c]
    [Rfc3339]        [util/rfc3339.c]
    [Float]          binary64 conversions the JSON code uses ([strtod], "%e")
    [Json], [JsonParse], [JsonWrite]    [util/json.c], [util/json_parse.c],
                     [util/json_write.c]; [Utf8], [JsonString], [JsonNumber],
                     [JsonGrammar] give the grammar of the parser, [KeySort],
                     [JsonPrint], [JsonDouble], [JsonRoundtrip], [JsonSmall] the
                     text of the serializers, [Rounding] and [Digits17] that 17
                     digits name a double, [JsonBuild] documents built node by
                     node
    [Sha2], [Hkdf]   [crypto/sha256.c], [crypto/sha512.c], [crypto/ct.c],
                     [crypto/hmac_sha256.c], [crypto/hkdf.c]
    [Gcm], [GcmSpec] [crypto/aes.c], [crypto/gcm.c]
    [Octets], [Der], [Bn], [BnSpec], [Rsa], [RsaSpec], [RsaPss]
                     [crypto/der.c], [crypto/bn.c], [crypto/rsa.c]
    [Primes]         the primality of the two field primes and group orders
    [Fe25519], [FeSpec]    [crypto/fe25519.c]
    [Edwards]        twisted Edwards curves and their group law
    [Ed25519], [Ed25519Spec]    [crypto/ed25519.c]
    [P256], [P256Field], [P256Spec]    [crypto/p256.c]
    [Weierstrass]    the group law of short Weierstrass curves
    [Ecdsa]          [crypto/ecdsa.c]
    [Fingerprint]    [util/fingerprint.c]
    [Status]         functions that return a [TamgaErrorCode], as results
    [Pem], [Cert]    [checkout/pem.c], [checkout/cert.c], [checkout/claims.c]
    [Suite]          the interface to the signature verifiers
    [ErrorSlot]      which operations report into the error slot, and how
    [Api]            [tamga_api.c], the offline entry points of [tamga.h]
    [EndToEnd]       those entry points on the verifiers of the library
    [KeySet], [KeySetSpec]    [checkout/key_set.c]
    [LicenseFile]    [checkout/license_file.c]
    [MachineFile], [MachineFileSpec]    [checkout/machine_file.c]
    [MachineProof]   [proof.c]
    [Validation]     [models/validation.c]
    [Transport]      [http/transport.c]
    [Backend]        what the two built-in transports share
    [Curl], [CurlSpec]       [http/transport_curl.c]
    [WinHttp], [WinHttpSpec] [http/transport_winhttp.c]
    [Response]       the response accessors of [http/client.c]
    [Client]         the rest of [http/client.c]; [ClientText] the texts it
                     builds, [ClientSpec] what it sends and answers,
                     [ClientLive] that it outlasts a rate limit
    [Backends]       the choice of the built-in transport ([http/transport.c])
                     and the client on it
    [Endpoints]      [http/endpoints.c]; [EndpointBody] the documents, paths
                     and queries, [EndpointSpec] the table of the API,
                     [Activation] the flows of several requests

    A definition has the name of the C function it models; helpers for a loop or
    a part of a function are named after what they do, and their comment says
    which part.

    ** How the code is modelled

    Bytes are integers below 256 in lists, and a C string is the part of its
    buffer before the first NUL ([c_view]). A null pointer is [None]. An
    out-parameter is part of the result; in [Api], where the caller may pass a
    null one, it is also a flag, and what is written through it is [Kept] or a
    value. The internal functions are called with the address of a variable, and
    their guards against a null one are not modelled; nor is a null [out_response]
    of the client and its endpoints. Unsigned arithmetic wraps at its width ([u8], [u32],
    [u64]); [size_t] has 64 bits. Structures are passed by value, so a function
    that changes one returns it; where the code fills a JSON node after
    attaching it, the change is made from the root that owns it ([set_below]).

    Memory: the allocator is a parameter (class [Malloc]) that may refuse any
    request. Theorems hold for every allocator, or say what happens when it
    refuses; completeness is stated under [MallocUpTo], [enough], [ample] or
    [plenty], which say how much the allocator serves. Freeing and wiping have
    no effect that the model can see. The error slot of the thread is part of
    the state.

    Loops are structural recursions on the text or list they walk, or carry
    fuel: the length of the text plus one, the number of retries plus one, ten
    pages, and for the read loop of the WinHTTP transport one iteration more than
    the bytes it may read ([iterate], with a binary bound). A theorem about such
    a function covers every input, so the fuel is shown to be enough wherever it
    appears; the nesting limit of JSON (64) is the code's own.

    Outside the repository, and therefore parameters: the allocator, the clock,
    [qsort] (with the laws the C standard gives it), the process id, an
    application's transport (an arbitrary function of the request and the
    environment), libcurl ([LibCurl]; a transfer is the tree of its calls of the
    two callbacks) and the parts of Windows that the other backend uses
    ([WinHttp]). The client is proved against the interface [Platform], which
    [Backends] implements with either backend. The file code is
    proved against the class [Suite] of signature verifiers; all four verifiers
    are modelled, and [tamga_crypto] in [EndToEnd] is the instance of the library.

    ** What the theorems show

    - Files ([LicenseFile], [MachineFileSpec], [KeySetSpec]): a file is
      accepted exactly when it is authentic and current, each refusal has its
      code, importing keys is all or nothing.
    - End to end ([EndToEnd]): the public entry points, on the verifiers of the
      library, deliver a handle exactly for authentic and current files, where
      authentic is a statement about RSA, the Edwards curve or P-256.
    - Proofs ([MachineProof]): the answer is yes exactly when the signature covers
      the document that the arguments describe; every refusal has its code, null
      arguments and lengths included.
    - Error contract ([Api]): for the functions of [tamga_api.c], success leaves no
      message, failure leaves one.
    - JSON ([JsonGrammar], [JsonRoundtrip]): the parser accepts exactly a strict
      grammar, both serializers are inverted by it, every finite double included,
      and the canonical one does not depend on the order of members.
    - Cryptography ([Sha2], [Hkdf], [GcmSpec], [BnSpec], [RsaSpec], [RsaPss]): the
      streaming and Montgomery implementations compute the functions of the
      standards; GCM opens exactly what it seals; RSA signatures are accepted
      exactly when they open to the encoding of the message.
    - Curves ([FeSpec], [Edwards], [Ed25519Spec], [P256Field], [Weierstrass],
      [P256Spec], [Ecdsa]): the limb arithmetic computes in the prime fields, the
      projective formulas compute the affine group laws, whose associativity is
      proved, and a signature is accepted exactly when it satisfies the equation
      of RFC 8032 or of ECDSA.
    - Encodings ([Base64], [Hex], [Rfc3339], [Der], [Pem], [Fingerprint],
      [ClientText], [Validation]): exact acceptance, canonical forms, round trips;
      timestamps against a calendar of their own, fingerprints on every input.
    - Buffers ([Buf]): a string comes out complete or not at all.
    - Client ([ClientSpec]): the invariant of a client under any configuration,
      sending as a run of a terminating retry machine, a request repeated only
      after a 429 and only when it is safe to repeat, no header injection, and the
      error model against the names and statuses of the service.
    - Transports ([CurlSpec], [WinHttpSpec], [Backends], [ClientLive]): each backend
      sends the request and nothing else, never with verification or the ban on
      redirects switched off, and answers with exactly what it was given or with
      the reason why not; both read headers alike, blanks at the end of a line
      apart, which only one of them drops; a client on libcurl stays
      within these bounds on every call, and a call that may be repeated outlasts
      a rate limit that ends within its budget.
    - Endpoints ([EndpointSpec], [Activation]): each endpoint against a table of
      the API; an activation deletes only the machine it created; the lookup is
      bounded and exact.

    ** Not modelled

    The functions that only release memory, the sleep and the process id of the
    platform, and the checks of the compiler's configuration in headers. Timing
    and the wiping of memory have no counterpart in a model of values: that the
    comparison and scalar code takes the same time for all secrets is not stated.
    Tests, examples and tools are not part of the library. *)

From Stdlib Require Export ZArith Lia List Bool ZifyBool.
From Stdlib Require Import Ascii String.
From stdpp Require Export base list numbers option.

#[global] Open Scope Z_scope.
#[export] Set Warnings "-clear-no-such-hyp".
#[global] Open Scope list_scope.

(** ** Bytes, C strings and machine integers *)

Abbreviation byte := Z (only parsing).
Abbreviation bytes := (list Z).

Definition is_byte (b : Z) : Prop := 0 <= b < 256.
Abbreviation bytes_ok := (Forall is_byte).

(** Wrap-around of the unsigned integer types. *)
Definition u8 (x : Z) : Z := x mod 2 ^ 8.
Definition u32 (x : Z) : Z := x mod 2 ^ 32.
Definition u64 (x : Z) : Z := x mod 2 ^ 64.

(** [size_t] is 64 bits wide on every platform the project releases for. *)
Definition SIZE_MAX : Z := 2 ^ 64 - 1.
Definition INT64_MIN : Z := - 2 ^ 63.
Definition INT64_MAX : Z := 2 ^ 63 - 1.

(** Length of a byte sequence as a [size_t] value. *)
Abbreviation zlen l := (Z.of_nat (length l)).

(** [at l i] is the array read [l[i]]. *)
Definition at_ (l : list Z) (i : Z) : Z := nth (Z.to_nat i) l 0.

(** Byte sequences written as string literals. *)
Definition byte_of_ascii (c : ascii) : Z := Z.of_N (N_of_ascii c).
Fixpoint bstr (s : string) : bytes :=
  match s with
  | EmptyString => []
  | String c s' => byte_of_ascii c :: bstr s'
  end.

(** The C string a NUL-terminated buffer denotes: everything before the
    first zero byte ([strlen], [strcmp] and [strdup] see only this). *)
Fixpoint c_view (s : bytes) : bytes :=
  match s with
  | [] => []
  | c :: s' => if c =? 0 then [] else c :: c_view s'
  end.

(** [memchr(l, c, len)] as an index. *)
Fixpoint memchr (c : Z) (l : bytes) : option nat :=
  match l with
  | [] => None
  | x :: l' => if x =? c then Some O else S <$> memchr c l'
  end.

(** [memcmp(a, b, n) == 0] for two spans of the same length. *)
Fixpoint beq (a b : bytes) : bool :=
  match a, b with
  | [], [] => true
  | x :: a', y :: b' => (x =? y) && beq a' b'
  | _, _ => false
  end.

(** ASCII lower case, written out as the code does it. *)
Definition ascii_lower (c : Z) : Z :=
  if (65 <=? c) && (c <=? 90) then c + (97 - 65) else c.

(** Decimal digits, as [printf]'s [%lld], [%lu] and [%zu] write them. The
    fuel is the number of binary digits, which bounds the decimal ones. *)
Fixpoint dec_digits (fuel : nat) (n : Z) (acc : bytes) : bytes :=
  match fuel with
  | O => acc
  | S f => let acc' := (48 + n mod 10) :: acc in
           if n <? 10 then acc' else dec_digits f (n / 10) acc'
  end.
Definition fmt_nat (n : Z) : bytes := dec_digits (S (Z.to_nat (Z.log2 n))) n [].
Definition fmt_dec (n : Z) : bytes :=
  if n <? 0 then 45 :: fmt_nat (- n) else fmt_nat n.

(** ** Tactics *)


(** Splits the innermost conditional of a goal or hypothesis. *)
Ltac dif :=
  match goal with
  | |- context [if ?b then _ else _] => let E := fresh "E" in destruct b eqn:E
  | H : context [if ?b then _ else _] |- _ => let E := fresh "E" in destruct b eqn:E
  end.

Ltac dmatch :=
  match goal with
  | |- context [match ?x with _ => _ end] => let E := fresh "E" in destruct x eqn:E
  end.

Ltac dmatch_in H :=
  match type of H with
  | context [match ?x with _ => _ end] => let E := fresh "E" in destruct x eqn:E
  end.

(** Linear arithmetic with division and modulo by constants. *)
Ltac zdm := Z.div_mod_to_equations; lia.

(** ** Generic lemmas *)

Section Bits.
Lemma lor_disjoint_add a b n :
  0 <= n -> 0 <= a < 2 ^ n -> Z.lor a (b * 2 ^ n) = a + b * 2 ^ n.
Proof.
  intros Hn Ha. rewrite <- Z.shiftl_mul_pow2 by lia.
  pose proof (Z.add_lor_land a (Z.shiftl b n)) as Hadd.
  replace (Z.land a (Z.shiftl b n)) with 0 in Hadd; [lia|].
  symmetry. apply Z.bits_inj'. intros i Hi.
  rewrite Z.land_spec, Z.bits_0, Z.shiftl_spec by lia.
  destruct (Z_lt_ge_dec i n).
  - rewrite (Z.testbit_neg_r b) by lia. apply andb_false_r.
  - destruct (Z.eq_dec a 0) as [->|]; [by rewrite Z.bits_0|].
    rewrite (Z.bits_above_log2 a i); [done|lia|].
    apply Z.log2_lt_pow2; [lia|].
    apply Z.lt_le_trans with (2 ^ n); [lia|]. apply Z.pow_le_mono_r; lia.
Qed.

Lemma land_mask a n : 0 <= n -> Z.land a (2 ^ n - 1) = a mod 2 ^ n.
Proof.
  intros. rewrite <- Z.land_ones by lia. by rewrite Z.ones_equiv, Z.sub_1_r.
Qed.

Lemma div_mod_pow2 x b n :
  0 <= b -> 0 <= n -> (x / 2 ^ b) mod 2 ^ n = (x mod 2 ^ (b + n)) / 2 ^ b.
Proof.
  intros. assert (0 < 2 ^ b) by (apply Z.pow_pos_nonneg; lia).
  assert (0 < 2 ^ n) by (apply Z.pow_pos_nonneg; lia).
  rewrite Z.pow_add_r, Z.rem_mul_r by lia.
  rewrite (Z.mul_comm (2 ^ b)), Z.div_add by lia.
  rewrite (Z.div_small (x mod 2 ^ b)); [lia|]. apply Z.mod_pos_bound. lia.
Qed.

Lemma mod_mod_pow2 x a b : 0 <= a <= b -> (x mod 2 ^ b) mod 2 ^ a = x mod 2 ^ a.
Proof.
  intros. apply Z.mod_mod_divide.
  exists (2 ^ (b - a)). rewrite <- Z.pow_add_r by lia. f_equal. lia.
Qed.
End Bits.

Section Lists.
Context {A : Type}.
Implicit Types l k : list A.

(** Induction two elements at a time. *)
Lemma list_pair_ind (P : list A -> Prop) :
  P [] -> (forall x, P [x]) -> (forall x y l, P l -> P (x :: y :: l)) -> forall l, P l.
Proof.
  intros H0 H1 H2 l. assert (P l /\ forall x, P (x :: l)) as [? _]; [|done].
  induction l as [|y l [IH1 IH2]]; auto.
Qed.

(** Induction on a triple or a quadruple of elements at a time. *)
Lemma list_triple_ind (P : list A -> Prop) :
  P [] -> (forall x, P [x]) -> (forall x y, P [x; y]) ->
  (forall x y z l, P l -> P (x :: y :: z :: l)) -> forall l, P l.
Proof.
  intros H0 H1 H2 H3 l.
  assert (P l /\ (forall x, P (x :: l)) /\ forall x y, P (x :: y :: l)) as [? _]; [|done].
  induction l as [|a l (IH1 & IH2 & IH3)]; auto.
Qed.

Lemma list_quad_ind (P : list A -> Prop) :
  P [] -> (forall x, P [x]) -> (forall x y, P [x; y]) -> (forall x y z, P [x; y; z]) ->
  (forall x y z w l, P l -> P (x :: y :: z :: w :: l)) -> forall l, P l.
Proof.
  intros H0 H1 H2 H3 H4 l.
  assert (P l /\ (forall x, P (x :: l)) /\ (forall x y, P (x :: y :: l)) /\
          forall x y z, P (x :: y :: z :: l)) as [? _]; [|done].
  induction l as [|a l (IH1 & IH2 & IH3 & IH4)]; auto.
Qed.

Lemma nth_take (i n : nat) l d : (i < n)%nat -> nth i (take n l) d = nth i l d.
Proof.
  revert i n; induction l as [|x l IH]; intros [|i] [|n] ?; simpl; try lia; auto.
  apply IH; lia.
Qed.

Lemma nth_drop (i n : nat) l d : nth i (drop n l) d = nth (n + i) l d.
Proof.
  revert n; induction l as [|x l IH]; intros [|n]; simpl; auto. by destruct i.
Qed.
End Lists.

Lemma is_byte_wrap x : is_byte (x mod 256).
Proof. unfold is_byte. zdm. Qed.

Lemma beq_eq a b : beq a b = true <-> a = b.
Proof.
  revert b; induction a as [|x a IH]; intros [|y b]; simpl; try (split; congruence).
  rewrite andb_true_iff, IH, Z.eqb_eq. split; [intros [-> ->]|intros [= -> ->]]; auto.
Qed.

Lemma beq_refl a : beq a a = true.
Proof. by apply beq_eq. Qed.

Lemma beq_neq a b : beq a b = false <-> a <> b.
Proof. rewrite <- not_true_iff_false, beq_eq. done. Qed.

Lemma memchr_None c l : memchr c l = None <-> ~ In c l.
Proof.
  induction l as [|x l IH]; simpl; [tauto|].
  destruct (Z.eqb_spec x c) as [->|Hne]; [split; [done|tauto]|].
  destruct (memchr c l) as [n|]; simpl.
  - split; [done|]. intros Hn. assert (~ In c l) as Hl by tauto.
    apply IH in Hl. done.
  - destruct IH as [IH _]. split; [|done]. intros _ [?|?]; [done|]. by apply IH.
Qed.

Lemma memchr_Some c l n :
  memchr c l = Some n <-> exists l1 l2, l = l1 ++ c :: l2 /\ length l1 = n /\ ~ In c l1.
Proof.
  revert n; induction l as [|x l IH]; intros n; simpl.
  - split; [done|]. intros (l1 & l2 & H & _). by destruct l1.
  - destruct (Z.eqb_spec x c) as [->|Hne].
    + split.
      * intros [= <-]. exists [], l. simpl. tauto.
      * intros ([|y l1] & l2 & Heq & Hl & Hni); simpl in *; [congruence|].
        destruct Hni. left. congruence.
    + rewrite fmap_Some. split.
      * intros (m & Hm & ->). apply IH in Hm as (l1 & l2 & -> & Hl & Hni).
        exists (x :: l1), l2. simpl. split; [done|]. split; [lia|]. tauto.
      * intros ([|y l1] & l2 & Heq & Hl & Hni); simpl in *; simplify_eq.
        exists (length l1). split; [|done].
        apply IH. exists l1, l2. tauto.
Qed.

Lemma c_view_id s : ~ In 0 s -> c_view s = s.
Proof.
  induction s as [|c s IH]; simpl; [done|]. intros H.
  destruct (Z.eqb_spec c 0) as [->|]; [tauto|]. f_equal. tauto.
Qed.

Lemma c_view_bytes s : bytes_ok s -> bytes_ok (c_view s).
Proof. induction 1; simpl; [constructor|]. destruct (_ =? 0); by constructor. Qed.

Lemma c_view_length s : (length (c_view s) <= length s)%nat.
Proof. induction s as [|c s IH]; simpl; [lia|]. destruct (c =? 0); simpl; lia. Qed.

Lemma c_view_no_nul s : ~ In 0 (c_view s).
Proof.
  induction s as [|c s IH]; simpl; [tauto|].
  destruct (Z.eqb_spec c 0); simpl; tauto.
Qed.

(** Every index below a bound, for properties of tables checked by
    evaluation. *)
Lemma below_forallb (n : nat) (f : Z -> bool) :
  forallb f (map Z.of_nat (seq 0 n)) = true -> forall v, 0 <= v < Z.of_nat n -> f v = true.
Proof.
  rewrite forallb_forall. intros H v Hv. apply H. apply in_map_iff.
  exists (Z.to_nat v). split; [lia|]. apply in_seq. lia.
Qed.

Create HintDb tamga.
#[export] Hint Resolve is_byte_wrap beq_refl c_view_no_nul : tamga.
