(* ===== verification/World.v ===== *)
(** * Memory and errors: [src/src/tamga_mem.c] and [src/src/tamga_error.c]

    The effects of the library, as a state monad. The state is what the code
    shares without passing it around: the C allocator and the per-thread
    last-error slot.

    The allocator is a parameter ([Malloc]): it decides, for the n-th request
    of a run and the number of bytes asked for, whether [malloc], [calloc] or
    [realloc] returns a block. Every theorem is over an arbitrary allocator
    unless it says that requests up to a bound succeed ([MallocUpTo]). The
    contents of a live block are part of the value that owns it, and releasing
    a block has no effect on a value. *)

From Stdlib Require Import String.
From S2P Require Import Prelude.

(** ** Error codes ([TamgaErrorCode], [src/include/tamga.h]) *)

Inductive TamgaErrorCode :=
| TAMGA_OK | TAMGA_ERR_INVALID_PEM | TAMGA_ERR_INVALID_BASE64 | TAMGA_ERR_INVALID_JSON
| TAMGA_ERR_SIGNATURE_INVALID | TAMGA_ERR_DECRYPTION_FAILED | TAMGA_ERR_UNSUPPORTED_SCHEME
| TAMGA_ERR_NULL_ARGUMENT | TAMGA_ERR_PANIC | TAMGA_ERR_UNKNOWN | TAMGA_ERR_LENGTH_INVALID
| TAMGA_ERR_EXPIRED | TAMGA_ERR_OUT_OF_MEMORY | TAMGA_ERR_TRANSPORT | TAMGA_ERR_NO_TRANSPORT
| TAMGA_ERR_API | TAMGA_ERR_RATE_LIMITED | TAMGA_ERR_UNAUTHORIZED | TAMGA_ERR_FORBIDDEN
| TAMGA_ERR_NOT_FOUND | TAMGA_ERR_SERVER | TAMGA_ERR_CHECK_IN_NOT_REQUIRED
| TAMGA_ERR_LICENSE_NOT_ENCRYPTED | TAMGA_ERR_LICENSE_KEY_MISSING | TAMGA_ERR_TTL_INVALID
| TAMGA_ERR_SCHEME_NOT_SUPPORTED | TAMGA_ERR_FINGERPRINT_TAKEN | TAMGA_ERR_DATASET_INVALID
| TAMGA_ERR_PID_TAKEN | TAMGA_ERR_MACHINE_LIMIT_EXCEEDED | TAMGA_ERR_CORE_LIMIT_EXCEEDED
| TAMGA_ERR_MEMORY_LIMIT_EXCEEDED | TAMGA_ERR_DISK_LIMIT_EXCEEDED
| TAMGA_ERR_TOO_MANY_PROCESSES | TAMGA_ERR_LICENSE_SUSPENDED | TAMGA_ERR_LICENSE_EXPIRED
| TAMGA_ERR_LICENSE_NOT_ALLOWED | TAMGA_ERR_UNKNOWN_SIGNING_KEY
| TAMGA_ERR_SIGNING_KEY_NOT_PUBLISHED | TAMGA_ERR_KEY_ID_NOT_APPLICABLE
| TAMGA_ERR_INVALID_FINGERPRINT_COMPONENT | TAMGA_ERR_SIGNING_KEY_MISSING
| TAMGA_ERR_SECRET_KEY_MISSING | TAMGA_ERR_METER_LIMIT_EXCEEDED.

#[export] Instance error_code_eq_dec : EqDecision TamgaErrorCode.
Proof. solve_decision. Defined.

(** The name of the constant, as [tamga_error_name] returns it. *)
Definition tamga_error_name (code : TamgaErrorCode) : bytes :=
  bstr (match code with
  | TAMGA_OK => "TAMGA_OK"
  | TAMGA_ERR_INVALID_PEM => "TAMGA_ERR_INVALID_PEM"
  | TAMGA_ERR_INVALID_BASE64 => "TAMGA_ERR_INVALID_BASE64"
  | TAMGA_ERR_INVALID_JSON => "TAMGA_ERR_INVALID_JSON"
  | TAMGA_ERR_SIGNATURE_INVALID => "TAMGA_ERR_SIGNATURE_INVALID"
  | TAMGA_ERR_DECRYPTION_FAILED => "TAMGA_ERR_DECRYPTION_FAILED"
  | TAMGA_ERR_UNSUPPORTED_SCHEME => "TAMGA_ERR_UNSUPPORTED_SCHEME"
  | TAMGA_ERR_NULL_ARGUMENT => "TAMGA_ERR_NULL_ARGUMENT"
  | TAMGA_ERR_PANIC => "TAMGA_ERR_PANIC"
  | TAMGA_ERR_UNKNOWN => "TAMGA_ERR_UNKNOWN"
  | TAMGA_ERR_LENGTH_INVALID => "TAMGA_ERR_LENGTH_INVALID"
  | TAMGA_ERR_EXPIRED => "TAMGA_ERR_EXPIRED"
  | TAMGA_ERR_OUT_OF_MEMORY => "TAMGA_ERR_OUT_OF_MEMORY"
  | TAMGA_ERR_TRANSPORT => "TAMGA_ERR_TRANSPORT"
  | TAMGA_ERR_NO_TRANSPORT => "TAMGA_ERR_NO_TRANSPORT"
  | TAMGA_ERR_API => "TAMGA_ERR_API"
  | TAMGA_ERR_RATE_LIMITED => "TAMGA_ERR_RATE_LIMITED"
  | TAMGA_ERR_UNAUTHORIZED => "TAMGA_ERR_UNAUTHORIZED"
  | TAMGA_ERR_FORBIDDEN => "TAMGA_ERR_FORBIDDEN"
  | TAMGA_ERR_NOT_FOUND => "TAMGA_ERR_NOT_FOUND"
  | TAMGA_ERR_SERVER => "TAMGA_ERR_SERVER"
  | TAMGA_ERR_CHECK_IN_NOT_REQUIRED => "TAMGA_ERR_CHECK_IN_NOT_REQUIRED"
  | TAMGA_ERR_LICENSE_NOT_ENCRYPTED => "TAMGA_ERR_LICENSE_NOT_ENCRYPTED"
  | TAMGA_ERR_LICENSE_KEY_MISSING => "TAMGA_ERR_LICENSE_KEY_MISSING"
  | TAMGA_ERR_TTL_INVALID => "TAMGA_ERR_TTL_INVALID"
  | TAMGA_ERR_SCHEME_NOT_SUPPORTED => "TAMGA_ERR_SCHEME_NOT_SUPPORTED"
  | TAMGA_ERR_FINGERPRINT_TAKEN => "TAMGA_ERR_FINGERPRINT_TAKEN"
  | TAMGA_ERR_DATASET_INVALID => "TAMGA_ERR_DATASET_INVALID"
  | TAMGA_ERR_PID_TAKEN => "TAMGA_ERR_PID_TAKEN"
  | TAMGA_ERR_MACHINE_LIMIT_EXCEEDED => "TAMGA_ERR_MACHINE_LIMIT_EXCEEDED"
  | TAMGA_ERR_CORE_LIMIT_EXCEEDED => "TAMGA_ERR_CORE_LIMIT_EXCEEDED"
  | TAMGA_ERR_MEMORY_LIMIT_EXCEEDED => "TAMGA_ERR_MEMORY_LIMIT_EXCEEDED"
  | TAMGA_ERR_DISK_LIMIT_EXCEEDED => "TAMGA_ERR_DISK_LIMIT_EXCEEDED"
  | TAMGA_ERR_TOO_MANY_PROCESSES => "TAMGA_ERR_TOO_MANY_PROCESSES"
  | TAMGA_ERR_LICENSE_SUSPENDED => "TAMGA_ERR_LICENSE_SUSPENDED"
  | TAMGA_ERR_LICENSE_EXPIRED => "TAMGA_ERR_LICENSE_EXPIRED"
  | TAMGA_ERR_LICENSE_NOT_ALLOWED => "TAMGA_ERR_LICENSE_NOT_ALLOWED"
  | TAMGA_ERR_UNKNOWN_SIGNING_KEY => "TAMGA_ERR_UNKNOWN_SIGNING_KEY"
  | TAMGA_ERR_SIGNING_KEY_NOT_PUBLISHED => "TAMGA_ERR_SIGNING_KEY_NOT_PUBLISHED"
  | TAMGA_ERR_KEY_ID_NOT_APPLICABLE => "TAMGA_ERR_KEY_ID_NOT_APPLICABLE"
  | TAMGA_ERR_INVALID_FINGERPRINT_COMPONENT => "TAMGA_ERR_INVALID_FINGERPRINT_COMPONENT"
  | TAMGA_ERR_SIGNING_KEY_MISSING => "TAMGA_ERR_SIGNING_KEY_MISSING"
  | TAMGA_ERR_SECRET_KEY_MISSING => "TAMGA_ERR_SECRET_KEY_MISSING"
  | TAMGA_ERR_METER_LIMIT_EXCEEDED => "TAMGA_ERR_METER_LIMIT_EXCEEDED"
  end)%string.

(** ** The state monad *)

Class Malloc := malloc_ok : nat -> Z -> bool.

(** Requests of at most [limit] bytes are served. *)
Class MallocUpTo (limit : Z) `{Malloc} : Prop :=
  malloc_up_to : forall n size, size <= limit -> malloc_ok n size = true.

Record st := mk_st {
  st_allocs : nat;          (** requests made so far *)
  st_error : option bytes;  (** [tamga_error_present] and [tamga_error_buf] *)
}.

Definition M (A : Type) : Type := st -> A * st.
Definition ret {A} (a : A) : M A := fun s => (a, s).
Definition bind {A B} (m : M A) (f : A -> M B) : M B :=
  fun s => let '(a, s') := m s in f a s'.

Declare Scope tamga_scope.
Delimit Scope tamga_scope with tamga.
Notation "'let!' x ':=' m 'in' k" := (bind m (fun x => k))
  (at level 10, x pattern, m at level 100, k at level 200) : tamga_scope.
Notation "m ;;! k" := (bind m (fun _ => k))
  (at level 100, right associativity) : tamga_scope.
#[global] Open Scope tamga_scope.

Definition get_state : M st := fun s => (s, s).
Definition put_error (e : option bytes) : M unit :=
  fun s => (tt, mk_st (st_allocs s) e).

(** One request to the C allocator. *)
Definition c_malloc `{Malloc} (size : Z) : M bool :=
  fun s => (malloc_ok (st_allocs s) size, mk_st (S (st_allocs s)) (st_error s)).

(** ** Overflow-checked sizes and allocation ([tamga_mem.c]) *)

Definition TAMGA_MAX_REASONABLE_LEN : Z := 16 * 1024 * 1024.

Definition tamga_checked_add (a b : Z) : option Z :=
  if a >? SIZE_MAX - b then None else Some (a + b).

Definition tamga_checked_mul (a b : Z) : option Z :=
  if negb (a =? 0) && (b >? SIZE_MAX / a) then None else Some (a * b).

Section Mem.
Context {malloc : Malloc}.

Definition tamga_malloc (size : Z) : M bool :=
  c_malloc (if size =? 0 then 1 else size).

Definition tamga_calloc (count size : Z) : M bool :=
  match tamga_checked_mul count size with
  | None => ret false
  | Some total => c_malloc (if total =? 0 then 1 else total)
  end.

Definition tamga_realloc (size : Z) : M bool :=
  c_malloc (if size =? 0 then 1 else size).

(** [src] is the span of [len] bytes at the pointer; the copy is returned
    without its terminator. *)
Definition tamga_memdup_terminated (src : option bytes) : M (option bytes) :=
  match src with
  | None => ret None
  | Some l =>
      if zlen l >? TAMGA_MAX_REASONABLE_LEN then ret None
      else match tamga_checked_add (zlen l) 1 with
           | None => ret None
           | Some total =>
               let! ok := tamga_malloc total in
               ret (if ok : bool then Some l else None)
           end
  end.

Definition tamga_strndup (src : option bytes) : M (option bytes) :=
  match src with
  | None => ret None
  | Some l =>
      if zlen l >? TAMGA_MAX_REASONABLE_LEN then ret None
      else if memchr 0 l is Some _ then ret None
      else match tamga_checked_add (zlen l) 1 with
           | None => ret None
           | Some total =>
               let! ok := tamga_malloc total in
               ret (if ok : bool then Some l else None)
           end
  end.

Definition tamga_strdup (src : option bytes) : M (option bytes) :=
  match src with
  | None => ret None
  | Some l => tamga_strndup (Some (c_view l))
  end.
End Mem.

(** [tamga_secure_zero(ptr, len)] on a block that starts with [len] bytes. *)
Definition tamga_secure_zero (len : nat) (block : bytes) : bytes :=
  replicate (min len (length block)) 0 ++ drop len block.

(** ** The last-error slot ([tamga_error.c]) *)

Definition TAMGA_ERROR_MESSAGE_CAP : Z := 512.

(** What the variadic tail of [tamga_error_set] formats to. *)
Inductive fmt := FmtNull | FmtFailed | FmtText (text : bytes).

Definition tamga_error_clear : M unit := put_error None.

Definition tamga_error_set (code : TamgaErrorCode) (f : fmt) : M TamgaErrorCode :=
  if decide (code = TAMGA_OK) then
    tamga_error_clear ;;! ret TAMGA_OK
  else
    let text :=
      match f with
      | FmtNull | FmtFailed => tamga_error_name code
      | FmtText t =>
          if zlen t >=? TAMGA_ERROR_MESSAGE_CAP
          then take (Z.to_nat (TAMGA_ERROR_MESSAGE_CAP - 4)) t ++ bstr "..."
          else t
      end in
    put_error (Some text) ;;! ret code.

Definition tamga_last_error_message : M (option bytes) :=
  fun s => (st_error s, s).

(** A failing path with a literal message. *)
Abbreviation fail code msg := (tamga_error_set code (FmtText (bstr msg))).

(** ** Lemmas *)

Lemma checked_add_Some a b c :
  tamga_checked_add a b = Some c <-> c = a + b /\ a + b <= SIZE_MAX.
Proof.
  unfold tamga_checked_add. dif; split; intros H.
  - done.
  - lia.
  - simplify_eq. lia.
  - f_equal. lia.
Qed.

Lemma checked_mul_Some a b c :
  0 <= a -> 0 <= b ->
  tamga_checked_mul a b = Some c <-> c = a * b /\ a * b <= SIZE_MAX.
Proof.
  intros Ha Hb. unfold tamga_checked_mul.
  destruct (Z.eqb_spec a 0) as [->|Hz]; simpl.
  - unfold SIZE_MAX. split; [intros [= <-]; lia | intros [-> _]; done].
  - pose proof (Z.mul_div_le SIZE_MAX a ltac:(lia)).
    pose proof (Z.mod_pos_bound SIZE_MAX a ltac:(lia)).
    pose proof (Z.div_mod SIZE_MAX a ltac:(lia)).
    destruct (Z.gtb_spec b (SIZE_MAX / a)) as [Hgt|Hle].
    + split; [done|]. intros [_ ?]. nia.
    + split; [intros [= <-]; nia | intros [-> _]; done].
Qed.

Lemma checked_add_None a b : tamga_checked_add a b = None <-> SIZE_MAX < a + b.
Proof. unfold tamga_checked_add. dif; split; intros; try done; lia. Qed.

(** [Quiet m]: the computation does not touch the last-error slot. *)
Class Quiet {A} (m : M A) : Prop := quiet : forall s, st_error (m s).2 = st_error s.

#[export] Instance quiet_ret A (a : A) : Quiet (ret a).
Proof. done. Qed.

#[export] Instance quiet_bind A B (m : M A) (f : A -> M B) :
  Quiet m -> (forall a, Quiet (f a)) -> Quiet (bind m f).
Proof.
  intros Hm Hf s. unfold bind. specialize (Hm s). destruct (m s) as [a s'].
  simpl in *. by rewrite Hf.
Qed.

#[export] Instance quiet_malloc `{Malloc} n : Quiet (c_malloc n).
Proof. done. Qed.

#[export] Instance quiet_if A (b : bool) (m1 m2 : M A) :
  Quiet m1 -> Quiet m2 -> Quiet (if b then m1 else m2).
Proof. by destruct b. Qed.

(** Closes [Quiet] goals of straight-line code: case splits, then instances. *)
Ltac quiet_tac :=
  repeat first
    [ progress intros
    | apply quiet_ret
    | apply quiet_malloc
    | apply quiet_bind
    | match goal with |- Quiet (match ?x with _ => _ end) => destruct x end
    | solve [eauto with typeclass_instances] ].

#[export] Instance quiet_strndup `{Malloc} l : Quiet (tamga_strndup l).
Proof. unfold tamga_strndup, tamga_malloc. quiet_tac. Qed.

#[export] Instance quiet_strdup `{Malloc} l : Quiet (tamga_strdup l).
Proof. unfold tamga_strdup. quiet_tac. Qed.

#[export] Instance quiet_memdup `{Malloc} l : Quiet (tamga_memdup_terminated l).
Proof. unfold tamga_memdup_terminated, tamga_malloc. quiet_tac. Qed.

(** An error set with a real code comes back as that code, with a message in
    the slot that fits the fixed buffer. *)
Lemma error_set_spec code f s :
  code <> TAMGA_OK ->
  exists msg, tamga_error_set code f s = (code, mk_st (st_allocs s) (Some msg)).
Proof.
  intros H. unfold tamga_error_set. rewrite decide_False by done. eexists. reflexivity.
Qed.

Lemma error_set_code code f s : (tamga_error_set code f s).1 = code.
Proof. unfold tamga_error_set. by case_decide; subst. Qed.

Lemma error_name_short code : zlen (tamga_error_name code) < 64.
Proof. by destruct code; vm_compute. Qed.

Lemma error_name_inj c1 c2 : tamga_error_name c1 = tamga_error_name c2 -> c1 = c2.
Proof. destruct c1; (destruct c2; intros H; (reflexivity || discriminate H)). Qed.

Lemma error_set_message_fits code f s msg :
  st_error (tamga_error_set code f s).2 = Some msg ->
  zlen msg < TAMGA_ERROR_MESSAGE_CAP.
Proof.
  unfold tamga_error_set, TAMGA_ERROR_MESSAGE_CAP. case_decide; simpl; [done|].
  intros [= <-]. pose proof (error_name_short code). destruct f; try lia.
  destruct (Z.geb_spec (zlen text) 512); [|lia].
  rewrite length_app, length_take. cbn [length]. lia.
Qed.

(** [tamga_strndup] copies exactly the span, or refuses. *)
Lemma strndup_Some `{Malloc} src s r s' :
  tamga_strndup src s = (Some r, s') ->
  src = Some r /\ ~ In 0 r /\ zlen r <= TAMGA_MAX_REASONABLE_LEN.
Proof.
  unfold tamga_strndup, ret, bind, tamga_malloc, c_malloc. intros Hr.
  destruct src as [l|]; [|done]. destruct (Z.gtb_spec (zlen l) TAMGA_MAX_REASONABLE_LEN); [done|].
  destruct (memchr 0 l) eqn:Hm; [done|]. apply memchr_None in Hm.
  destruct (tamga_checked_add (zlen l) 1); [|done].
  destruct (malloc_ok _ _); simplify_eq. auto.
Qed.

Lemma strndup_ok `{Malloc, !MallocUpTo limit} l s :
  TAMGA_MAX_REASONABLE_LEN < limit ->
  ~ In 0 l -> zlen l <= TAMGA_MAX_REASONABLE_LEN ->
  tamga_strndup (Some l) s = (Some l, mk_st (S (st_allocs s)) (st_error s)).
Proof.
  intros Hlim Hz Hl. unfold tamga_strndup.
  destruct (Z.gtb_spec (zlen l) TAMGA_MAX_REASONABLE_LEN); [lia|].
  apply memchr_None in Hz. rewrite Hz.
  replace (tamga_checked_add (zlen l) 1) with (Some (zlen l + 1)).
  2:{ symmetry. apply checked_add_Some. split; [done|].
      unfold TAMGA_MAX_REASONABLE_LEN, SIZE_MAX in *. lia. }
  unfold bind, tamga_malloc, c_malloc, ret.
  rewrite (malloc_up_to (limit := limit)); [done|]. dif; lia.
Qed.

(** ** Postconditions

    [post m Q]: whatever the state, the result of [m] satisfies [Q]. Results
    that depend on the allocator satisfy [Q] on every branch. *)
Definition post {A} (m : M A) (Q : A -> Prop) : Prop := forall s, Q (m s).1.

Section Post.
Context {A B : Type}.

Lemma post_ret (a : A) (Q : A -> Prop) : Q a -> post (ret a) Q.
Proof. by intros ? s. Qed.

Lemma post_bind (m : M A) (f : A -> M B) (P : A -> Prop) (Q : B -> Prop) :
  post m P -> (forall a, P a -> post (f a) Q) -> post (bind m f) Q.
Proof.
  intros Hm Hf s. unfold bind. specialize (Hm s). destruct (m s) as [a s']. by apply Hf.
Qed.

Lemma post_mono (m : M A) (P Q : A -> Prop) :
  post m P -> (forall a, P a -> Q a) -> post m Q.
Proof. intros Hm HPQ s. by apply HPQ. Qed.

Lemma post_and (m : M A) (P Q : A -> Prop) :
  post m P -> post m Q -> post m (fun a => P a /\ Q a).
Proof. intros HP HQ s. split; auto. Qed.

Lemma post_run (m : M A) (Q : A -> Prop) s a s' : post m Q -> m s = (a, s') -> Q a.
Proof. intros Hm Hr. specialize (Hm s). by rewrite Hr in Hm. Qed.

Lemma post_intro (m : M A) (Q : A -> Prop) : (forall s a s', m s = (a, s') -> Q a) -> post m Q.
Proof. intros H s. destruct (m s) as [a s'] eqn:E. simpl. eauto. Qed.
End Post.

Lemma post_c_malloc `{Malloc} n (Q : bool -> Prop) :
  (forall b, Q b) -> post (c_malloc n) Q.
Proof. by intros ? s. Qed.

Lemma post_c_malloc_ok `{Malloc, !MallocUpTo limit} n (Q : bool -> Prop) :
  n <= limit -> Q true -> post (c_malloc n) Q.
Proof. intros Hn HQ s. simpl. by rewrite (malloc_up_to (limit := limit)). Qed.

(** An allocator that never refuses, for evaluation. *)
Definition full_memory : Malloc := fun _ _ => true.
#[export] Instance full_memory_up_to limit : MallocUpTo limit (H := full_memory).
Proof. done. Qed.
