(* ===== verification/Buf.v ===== *)
(** * The growable byte buffer: [src/src/util/buf.c]

    [TamgaBuf] is passed by value, so the [buf == NULL] guards have no
    counterpart; every other guard, size check and allocation is here.
    [buf_data] holds the initialised prefix of the block (its first [buf_len]
    bytes), [None] for the null pointer. *)

From S2P Require Import Prelude World.

Record TamgaBuf := mk_buf {
  buf_data : option bytes;
  buf_len : Z;
  buf_cap : Z;
  buf_failed : bool;
}.

Definition TAMGA_BUF_MIN_CAP : Z := 64.

Definition tamga_buf_init : TamgaBuf := mk_buf None 0 0 false.

(** Erases and releases: the buffer is back in its initial state. *)
Definition tamga_buf_free (b : TamgaBuf) : TamgaBuf := tamga_buf_init.

Definition tamga_buf_mark_failed (b : TamgaBuf) : TamgaBuf :=
  mk_buf (buf_data b) (buf_len b) (buf_cap b) true.

Definition tamga_buf_ok (b : TamgaBuf) : bool := negb (buf_failed b).

Definition buf_bytes (b : TamgaBuf) : bytes := default [] (buf_data b).

(** The doubling loop of [tamga_buf_reserve]; [None] is the overflow exit.
    64 iterations are enough because each one doubles a positive 64-bit
    capacity ([grow_cap_fuel]). *)
Fixpoint grow_cap (fuel : nat) (new_cap needed : Z) : option Z :=
  if new_cap <? needed then
    match fuel with
    | O => None
    | S f => match tamga_checked_mul new_cap 2 with
             | None => None
             | Some doubled => grow_cap f doubled needed
             end
    end
  else Some new_cap.

Section Ops.
Context {malloc : Malloc}.

Definition tamga_buf_reserve (b : TamgaBuf) (extra : Z) : M (bool * TamgaBuf) :=
  if buf_failed b then ret (false, b)
  else match tamga_checked_add (buf_len b) extra with
  | None => ret (false, tamga_buf_mark_failed b)
  | Some needed =>
      if needed <=? buf_cap b then ret (true, b)
      else
        let start := if buf_cap b <? TAMGA_BUF_MIN_CAP
                     then TAMGA_BUF_MIN_CAP else buf_cap b in
        match grow_cap 64 start needed with
        | None => ret (false, tamga_buf_mark_failed b)
        | Some new_cap =>
            let! grown := tamga_malloc new_cap in
            if grown : bool
            then ret (true, mk_buf (Some (buf_bytes b)) (buf_len b) new_cap false)
            else ret (false, tamga_buf_mark_failed b)
        end
  end.

(** [data] is the span of bytes to append, [None] a null pointer together
    with a non-zero length. *)
Definition tamga_buf_append (b : TamgaBuf) (data : option bytes) : M TamgaBuf :=
  if buf_failed b then ret b
  else match data with
  | Some [] => ret b
  | None => ret (tamga_buf_mark_failed b)
  | Some l =>
      let! (ok, b') := tamga_buf_reserve b (zlen l) in
      if ok : bool
      then ret (mk_buf (Some (buf_bytes b' ++ l)) (buf_len b' + zlen l)
                       (buf_cap b') (buf_failed b'))
      else ret b'
  end.

Definition tamga_buf_append_byte (b : TamgaBuf) (c : Z) : M TamgaBuf :=
  tamga_buf_append b (Some [c]).

Definition tamga_buf_append_str (b : TamgaBuf) (str : option bytes) : M TamgaBuf :=
  match str with
  | None => ret (tamga_buf_mark_failed b)
  | Some s => tamga_buf_append b (Some (c_view s))
  end.

(** [text] is what [vsnprintf] would write ([None]: it reports an encoding
    error). One byte more than the text is reserved for its terminator. *)
Definition tamga_buf_append_fmt (b : TamgaBuf) (text : option bytes) : M TamgaBuf :=
  if buf_failed b then ret b
  else match text with
  | None => ret (tamga_buf_mark_failed b)
  | Some l =>
      let! (ok, b') := tamga_buf_reserve b (zlen l + 1) in
      if ok : bool
      then ret (mk_buf (Some (buf_bytes b' ++ l)) (buf_len b' + zlen l)
                       (buf_cap b') (buf_failed b'))
      else ret b'
  end.

(** The detach helpers return the bytes (without the terminator) and the
    buffer they leave behind. *)
Definition tamga_buf_detach_impl (b : TamgaBuf) (allow_interior_nul : bool)
  : M (option bytes * TamgaBuf) :=
  if buf_failed b then ret (None, b)
  else if negb allow_interior_nul && bool_decide (is_Some (memchr 0 (buf_bytes b)))
  then ret (None, b)
  else
    let! (ok, b') := tamga_buf_reserve b 1 in
    if ok : bool then ret (Some (buf_bytes b'), tamga_buf_init) else ret (None, b').

Definition tamga_buf_detach_terminated (b : TamgaBuf) : M (option bytes * TamgaBuf) :=
  tamga_buf_detach_impl b true.

Definition tamga_buf_detach_string (b : TamgaBuf) : M (option bytes * TamgaBuf) :=
  tamga_buf_detach_impl b false.

Definition tamga_buf_detach (b : TamgaBuf) : M (option bytes * TamgaBuf) :=
  if buf_failed b then ret (None, b)
  else match buf_data b with
  | Some l => ret (Some l, tamga_buf_init)
  | None =>
      let! (ok, b') := tamga_buf_reserve b 1 in
      if ok : bool then ret (Some (buf_bytes b'), tamga_buf_init) else ret (None, b')
  end.
End Ops.

Lemma buf_bytes_mk l n c f : buf_bytes (mk_buf (Some l) n c f) = l.
Proof. done. Qed.

(** ** The representation invariant *)

Record buf_wf (b : TamgaBuf) : Prop := {
  wf_len : buf_len b = zlen (buf_bytes b);
  wf_cap : buf_len b <= buf_cap b <= SIZE_MAX;
  wf_null : buf_data b = None -> buf_cap b = 0;
}.

Lemma buf_init_wf : buf_wf tamga_buf_init.
Proof. split; simpl; unfold SIZE_MAX; (lia || done). Qed.

Lemma mark_failed_wf b : buf_wf b -> buf_wf (tamga_buf_mark_failed b).
Proof. intros []. split; auto. Qed.

Lemma grow_cap_Some fuel c needed c' :
  0 < c <= SIZE_MAX -> grow_cap fuel c needed = Some c' ->
  needed <= c' <= SIZE_MAX /\ c <= c'.
Proof.
  revert c; induction fuel as [|f IH]; intros c Hc; simpl;
    destruct (Z.ltb_spec c needed); intros Hg; simplify_eq; try lia.
  destruct (tamga_checked_mul c 2) eqn:Hm; [|done].
  apply checked_mul_Some in Hm as [-> ?]; [|lia..].
  apply IH in Hg; lia.
Qed.

(** Enough fuel: a run that has not stopped after [k] doublings is past
    [2 ^ k] times its start. *)
Lemma grow_cap_fuel k fuel c needed :
  0 < c -> SIZE_MAX < c * 2 ^ Z.of_nat fuel ->
  grow_cap (fuel + k) c needed = grow_cap fuel c needed.
Proof.
  revert c; induction fuel as [|f IH]; intros c Hc Hbig; simpl.
  - rewrite Z.mul_1_r in Hbig. destruct k; simpl; [done|].
    destruct (c <? needed); [|done].
    destruct (tamga_checked_mul c 2) eqn:Hm; [|done].
    apply checked_mul_Some in Hm; lia.
  - destruct (c <? needed); [|done].
    destruct (tamga_checked_mul c 2) eqn:Hm; [|done].
    apply checked_mul_Some in Hm as [-> _]; [|lia..].
    apply IH; [lia|]. rewrite Nat2Z.inj_succ, Z.pow_succ_r in Hbig by lia. lia.
Qed.

(** The loop finds a capacity below twice the need whenever doubling cannot
    overflow first. *)
Lemma grow_cap_ok fuel c needed :
  0 < c -> needed <= c * 2 ^ Z.of_nat fuel -> 2 * needed <= SIZE_MAX ->
  c <= 2 * needed ->
  exists c', grow_cap fuel c needed = Some c' /\ c' <= 2 * needed.
Proof.
  revert c; induction fuel as [|f IH]; intros c Hc Hn Hmax Hcn; simpl;
    destruct (Z.ltb_spec c needed) as [Hlt|Hge]; try (exists c; split; [done|lia]).
  - rewrite Z.mul_1_r in Hn. lia.
  - destruct (tamga_checked_mul c 2) eqn:Hm.
    + apply checked_mul_Some in Hm as [-> _]; [|lia..].
      apply IH; [lia| |lia..]. rewrite Nat2Z.inj_succ, Z.pow_succ_r in Hn by lia. lia.
    + exfalso. assert (tamga_checked_mul c 2 = Some (c * 2)) as E; [|congruence].
      apply checked_mul_Some; lia.
Qed.

Section Facts.
Context {malloc : Malloc}.

(** What a reservation may do: nothing to the contents, and the failure
    flag is raised exactly when it reports failure. *)
Lemma reserve_spec b extra s ok b' s' :
  buf_wf b -> 0 <= extra ->
  tamga_buf_reserve b extra s = ((ok, b'), s') ->
  buf_wf b' /\ buf_bytes b' = buf_bytes b /\ buf_len b' = buf_len b /\
  buf_failed b' = negb ok /\
  (ok = true -> buf_len b + extra <= buf_cap b' /\ buf_failed b = false /\
                (0 < extra -> buf_data b' <> None)).
Proof.
  intros Hwf He. pose proof Hwf as [Hl Hc Hn]. unfold tamga_buf_reserve, bind, ret.
  pose proof (mark_failed_wf b Hwf) as Hm.
  destruct (buf_failed b) eqn:Hf; [intros; simplify_eq; by split_and!|].
  destruct (tamga_checked_add _ _) as [needed|] eqn:Ha;
    [|intros; simplify_eq; by split_and!].
  apply checked_add_Some in Ha as [-> Ha].
  destruct (Z.leb_spec (buf_len b + extra) (buf_cap b)) as [Hle|Hgt].
  - intros; simplify_eq. split_and!; try done; try lia. intros _.
    split_and!; try done; try lia. intros Hpos Hnone. rewrite (Hn Hnone) in *. lia.
  - destruct (grow_cap 64 _ _) as [new_cap|] eqn:Hg;
      [|intros; simplify_eq; by split_and!].
    apply grow_cap_Some in Hg.
    2:{ unfold TAMGA_BUF_MIN_CAP in *. dif; unfold SIZE_MAX in *; lia. }
    unfold tamga_malloc, c_malloc. destruct (malloc_ok _ _); intros; simplify_eq;
      split_and!; try done; simpl.
    + split; simpl; [done|lia|done].
    + intros _. split_and!; [lia|done|done].
Qed.

(** Both kinds of append add exactly the given bytes or fail the buffer. *)
Definition appended (b : TamgaBuf) (l : option bytes) (b' : TamgaBuf) : Prop :=
  buf_wf b' /\
  (buf_failed b' = false ->
   buf_failed b = false /\ exists p, l = Some p /\ buf_bytes b' = buf_bytes b ++ p).

Lemma append_spec b data s b' s' :
  buf_wf b -> tamga_buf_append b data s = (b', s') -> appended b data b'.
Proof.
  intros Hwf. unfold tamga_buf_append, appended, bind, ret.
  destruct (buf_failed b) eqn:Hf; [intros; simplify_eq; split; [done|congruence]|].
  destruct data as [[|c l]|].
  - intros; simplify_eq. split; [done|]. intros _. split; [done|].
    exists []. by rewrite app_nil_r.
  - destruct (tamga_buf_reserve b _ s) as [[ok b1] s1] eqn:Hr.
    apply reserve_spec in Hr as (Hwf1 & Hb & Hlen & Hf1 & Hok); [|done|lia].
    destruct ok; simpl in Hf1; intros; simplify_eq; [|split; [done|congruence]].
    destruct (Hok eq_refl) as (Hcap & _ & _). destruct Hwf1 as [H1 H2 H3].
    split; [split; simpl; try done|].
    + rewrite buf_bytes_mk, length_app, H1, Hb. simpl. lia.
    + simpl in Hcap. lia.
    + intros _. split; [done|]. exists (c :: l). by rewrite buf_bytes_mk, Hb.
  - intros; simplify_eq. split; [by apply mark_failed_wf|done].
Qed.

Lemma append_fmt_spec b text s b' s' :
  buf_wf b -> tamga_buf_append_fmt b text s = (b', s') -> appended b text b'.
Proof.
  intros Hwf. unfold tamga_buf_append_fmt, appended, bind, ret.
  destruct (buf_failed b) eqn:Hf; [intros; simplify_eq; split; [done|congruence]|].
  destruct text as [l|]; [|intros; simplify_eq; split; [by apply mark_failed_wf|done]].
  destruct (tamga_buf_reserve b _ s) as [[ok b1] s1] eqn:Hr.
  apply reserve_spec in Hr as (Hwf1 & Hb & Hlen & Hf1 & Hok); [|done|lia].
  destruct ok; simpl in Hf1; intros; simplify_eq; [|split; [done|congruence]].
  destruct (Hok eq_refl) as (Hcap & _ & _). destruct Hwf1 as [H1 H2 H3].
  split; [split; simpl; try done|].
  - rewrite buf_bytes_mk, length_app, H1, Hb. simpl. lia.
  - lia.
  - intros _. split; [done|]. exists l. by rewrite buf_bytes_mk, Hb.
Qed.

Lemma detach_impl_Some b allow s r b' s' :
  buf_wf b -> tamga_buf_detach_impl b allow s = ((Some r, b'), s') ->
  buf_failed b = false /\ r = buf_bytes b /\ b' = tamga_buf_init /\
  (allow = false -> ~ In 0 r).
Proof.
  intros Hwf. unfold tamga_buf_detach_impl, bind, ret.
  destruct (buf_failed b) eqn:Hf; [done|].
  destruct (negb allow && _) eqn:Hnul; [done|].
  destruct (tamga_buf_reserve b 1 s) as [[ok b1] s1] eqn:Hr.
  apply reserve_spec in Hr as (_ & Hb & _ & _ & _); [|done|lia].
  destruct ok; intros; simplify_eq. rewrite Hb. repeat split.
  intros ->. simpl in Hnul. apply bool_decide_eq_false in Hnul.
  apply memchr_None. destruct (memchr _ _); [|done]. by destruct Hnul.
Qed.

Lemma detach_Some b s r b' s' :
  buf_wf b -> tamga_buf_detach b s = ((Some r, b'), s') ->
  buf_failed b = false /\ r = buf_bytes b /\ b' = tamga_buf_init.
Proof.
  intros Hwf. unfold tamga_buf_detach, bind, ret.
  destruct (buf_failed b) eqn:Hf; [done|]. destruct (buf_data b) eqn:Hd.
  - intros; simplify_eq. unfold buf_bytes. by rewrite Hd.
  - destruct (tamga_buf_reserve b 1 s) as [[ok b1] s1] eqn:Hr.
    apply reserve_spec in Hr as (_ & Hb & _ & _ & _); [|done|lia].
    destruct ok; intros; simplify_eq. by rewrite Hb.
Qed.

(** *** With a working allocator nothing fails *)

Context {limit : Z} `{!MallocUpTo limit} (Hlimit : 64 <= limit <= SIZE_MAX).

(** Room for [n] more bytes and a terminator within the allocator's limit. *)
Definition buf_room (b : TamgaBuf) (n : Z) : Prop :=
  buf_wf b /\ buf_failed b = false /\ 2 * (buf_len b + n + 1) <= limit.

Lemma buf_init_room n : 2 * (n + 1) <= limit -> buf_room tamga_buf_init n.
Proof. intros. split_and!; [apply buf_init_wf|done|simpl; lia]. Qed.

Lemma reserve_ok b extra n s :
  buf_room b n -> 0 <= extra <= n + 1 ->
  exists b' s', tamga_buf_reserve b extra s = ((true, b'), s') /\
    buf_room b' n /\ buf_bytes b' = buf_bytes b /\ buf_len b' = buf_len b.
Proof.
  intros (Hwf & Hf & Hroom) He. pose proof Hwf as [Hl Hc Hn].
  destruct (tamga_buf_reserve b extra s) as [[ok b'] s'] eqn:Hr.
  enough (ok = true) as ->.
  { apply reserve_spec in Hr as (Hwf' & Hb & Hlen & Hf' & _); [|done|lia].
    exists b', s'. split_and!; try done. split_and!; [done|done|lia]. }
  revert Hr. unfold tamga_buf_reserve, bind, ret. rewrite Hf.
  replace (tamga_checked_add _ _) with (Some (buf_len b + extra)).
  2:{ symmetry. apply checked_add_Some. split; [done|lia]. }
  destruct (Z.leb_spec (buf_len b + extra) (buf_cap b)); [congruence|].
  set (start := if buf_cap b <? TAMGA_BUF_MIN_CAP then TAMGA_BUF_MIN_CAP else buf_cap b).
  assert (exists c, grow_cap 64 start (buf_len b + extra) = Some c /\ 0 < c <= limit)
    as (c & -> & Hcl).
  { subst start. unfold TAMGA_BUF_MIN_CAP.
    destruct (Z.leb_spec (buf_len b + extra) 64) as [Hsmall|Hbig].
    - rewrite (proj2 (Z.ltb_lt (buf_cap b) 64)) by lia. exists 64. split; [|lia].
      cbn [grow_cap]. by rewrite (proj2 (Z.ltb_ge 64 _)) by lia.
    - destruct (grow_cap_ok 64 (if buf_cap b <? 64 then 64 else buf_cap b)
                  (buf_len b + extra)) as (c & Hg & Hle).
      + dif; lia.
      + unfold SIZE_MAX in *. dif; lia.
      + lia.
      + dif; lia.
      + exists c. split; [done|]. apply grow_cap_Some in Hg; [lia|].
        unfold SIZE_MAX in *. dif; lia. }
  unfold tamga_malloc, c_malloc. rewrite (malloc_up_to (limit := limit)).
  - congruence.
  - dif; lia.
Qed.

Lemma append_ok b l n s :
  buf_room b (zlen l + n) -> 0 <= n ->
  exists b' s', tamga_buf_append b (Some l) s = (b', s') /\
    buf_room b' n /\ buf_bytes b' = buf_bytes b ++ l.
Proof.
  intros Hroom Hpos. pose proof Hroom as (Hwf & Hf & Hlim).
  destruct (tamga_buf_append b (Some l) s) as [b' s'] eqn:Ha. exists b', s'.
  split; [done|]. pose proof (append_spec _ _ _ _ _ Hwf Ha) as [Hwf' Happ].
  enough (buf_failed b' = false) as Hf'.
  { destruct (Happ Hf') as [_ (p & [= <-] & Hb)]. split; [|done].
    split_and!; [done..|]. destruct Hwf, Hwf'. rewrite wf_len1, Hb, length_app. lia. }
  revert Ha. unfold tamga_buf_append, bind, ret. rewrite Hf. destruct l as [|c l]; [congruence|].
  destruct (reserve_ok b (zlen (c :: l)) (zlen (c :: l) + n) s) as (b1 & s1 & -> & H1 & _);
    [done|lia|].
  intros; simplify_eq. simpl. apply H1.
Qed.

Lemma append_fmt_ok b l n s :
  buf_room b (zlen l + n) -> 0 <= n ->
  exists b' s', tamga_buf_append_fmt b (Some l) s = (b', s') /\
    buf_room b' n /\ buf_bytes b' = buf_bytes b ++ l.
Proof.
  intros Hroom Hpos. pose proof Hroom as (Hwf & Hf & Hlim).
  destruct (tamga_buf_append_fmt b (Some l) s) as [b' s'] eqn:Ha. exists b', s'.
  split; [done|]. pose proof (append_fmt_spec _ _ _ _ _ Hwf Ha) as [Hwf' Happ].
  enough (buf_failed b' = false) as Hf'.
  { destruct (Happ Hf') as [_ (p & [= <-] & Hb)]. split; [|done].
    split_and!; [done..|]. destruct Hwf, Hwf'. rewrite wf_len1, Hb, length_app. lia. }
  revert Ha. unfold tamga_buf_append_fmt, bind, ret. rewrite Hf.
  destruct (reserve_ok b (zlen l + 1) (zlen l + n) s) as (b1 & s1 & -> & H1 & _);
    [done|lia|].
  intros; simplify_eq. simpl. apply H1.
Qed.

Lemma detach_impl_ok b allow s :
  buf_room b 0 -> (allow = false -> ~ In 0 (buf_bytes b)) ->
  exists s', tamga_buf_detach_impl b allow s = ((Some (buf_bytes b), tamga_buf_init), s').
Proof.
  intros Hroom Hnul. pose proof Hroom as (Hwf & Hf & Hlim).
  unfold tamga_buf_detach_impl, bind, ret. rewrite Hf.
  replace (negb allow && _) with false.
  2:{ destruct allow; [done|]. simpl. symmetry. apply bool_decide_eq_false.
      intros [x Hx]. specialize (Hnul eq_refl). apply memchr_None in Hnul. congruence. }
  destruct (reserve_ok b 1 0 s) as (b1 & s1 & -> & _ & -> & _); [done|lia|]. by eexists.
Qed.

Lemma detach_ok b s :
  buf_room b 0 ->
  exists s', tamga_buf_detach b s = ((Some (buf_bytes b), tamga_buf_init), s').
Proof.
  intros Hroom. pose proof Hroom as (Hwf & Hf & Hlim).
  unfold tamga_buf_detach, bind, ret. rewrite Hf.
  destruct (buf_data b) eqn:Hd; [unfold buf_bytes; rewrite Hd; by eexists|].
  destruct (reserve_ok b 1 0 s) as (b1 & s1 & -> & _ & -> & _); [done|lia|]. by eexists.
Qed.
End Facts.

Section QuietBuf.
Context {malloc : Malloc}.
#[export] Instance quiet_reserve b n : Quiet (tamga_buf_reserve b n).
Proof. unfold tamga_buf_reserve, tamga_malloc. quiet_tac. Qed.
#[export] Instance quiet_append b l : Quiet (tamga_buf_append b l).
Proof. unfold tamga_buf_append. quiet_tac. Qed.
#[export] Instance quiet_append_fmt b l : Quiet (tamga_buf_append_fmt b l).
Proof. unfold tamga_buf_append_fmt. quiet_tac. Qed.
#[export] Instance quiet_append_str b l : Quiet (tamga_buf_append_str b l).
Proof. unfold tamga_buf_append_str. quiet_tac. Qed.
#[export] Instance quiet_detach_impl b c : Quiet (tamga_buf_detach_impl b c).
Proof. unfold tamga_buf_detach_impl. quiet_tac. Qed.
#[export] Instance quiet_detach b : Quiet (tamga_buf_detach b).
Proof. unfold tamga_buf_detach. quiet_tac. Qed.
End QuietBuf.

(** ** Sequences of operations and their abstract meaning *)

Inductive buf_op :=
| OpAppend (data : option bytes)
| OpAppendByte (c : Z)
| OpAppendStr (str : option bytes)
| OpAppendFmt (text : option bytes)
| OpMarkFailed.

(** What the operation contributes to the output; [None] when it asks for
    failure. *)
Definition op_payload (op : buf_op) : option bytes :=
  match op with
  | OpAppend data => data
  | OpAppendByte c => Some [c]
  | OpAppendStr str => c_view <$> str
  | OpAppendFmt text => text
  | OpMarkFailed => None
  end.

Fixpoint payloads (ops : list buf_op) : option bytes :=
  match ops with
  | [] => Some []
  | op :: ops' => p ← op_payload op; q ← payloads ops'; Some (p ++ q)
  end.

Section Runs.
Context {malloc : Malloc}.

Definition run_op (b : TamgaBuf) (op : buf_op) : M TamgaBuf :=
  match op with
  | OpAppend data => tamga_buf_append b data
  | OpAppendByte c => tamga_buf_append_byte b c
  | OpAppendStr str => tamga_buf_append_str b str
  | OpAppendFmt text => tamga_buf_append_fmt b text
  | OpMarkFailed => ret (tamga_buf_mark_failed b)
  end.

Fixpoint run_ops (b : TamgaBuf) (ops : list buf_op) : M TamgaBuf :=
  match ops with
  | [] => ret b
  | op :: ops' => let! b' := run_op b op in run_ops b' ops'
  end.

Lemma run_op_spec b op s b' s' :
  buf_wf b -> run_op b op s = (b', s') -> appended b (op_payload op) b'.
Proof.
  intros Hwf. destruct op as [d|c|[d|]|d|]; simpl; unfold ret.
  - by apply append_spec.
  - by apply append_spec.
  - by apply append_spec.
  - intros; simplify_eq. split; [by apply mark_failed_wf|done].
  - by apply append_fmt_spec.
  - intros; simplify_eq. split; [by apply mark_failed_wf|done].
Qed.

Lemma run_ops_spec ops b s b' s' :
  buf_wf b -> run_ops b ops s = (b', s') -> appended b (payloads ops) b'.
Proof.
  revert b s; induction ops as [|op ops IH]; intros b s Hwf; simpl.
  - unfold ret. intros; simplify_eq. split; [done|]. intros ?. split; [done|].
    exists []. by rewrite app_nil_r.
  - unfold bind. destruct (run_op b op s) as [b1 s1] eqn:H1.
    apply run_op_spec in H1 as [Hwf1 Hf1]; [|done].
    intros H2. apply IH in H2 as [Hwf2 Hf2]; [|done]. split; [done|].
    intros Hb'. destruct (Hf2 Hb') as [Hb1 (q & Hq & Hbytes)].
    destruct (Hf1 Hb1) as [Hb (p & Hp & Hbytes1)]. split; [done|].
    exists (p ++ q). rewrite Hp, Hq. simpl. split; [done|].
    by rewrite Hbytes, Hbytes1, app_assoc.
Qed.

(** Whatever the allocator does, a string that comes out of a buffer
    is the concatenation of everything appended to it since
    initialisation, with no request to fail among the operations, no
    truncation and no interior NUL. *)
Theorem detach_string_complete ops s b s1 r b2 s2 :
  run_ops tamga_buf_init ops s = (b, s1) ->
  tamga_buf_detach_string b s1 = ((Some r, b2), s2) ->
  payloads ops = Some r /\ ~ In 0 r /\ b2 = tamga_buf_init.
Proof.
  intros H1 H2. apply run_ops_spec in H1 as [Hwf Hf]; [|apply buf_init_wf].
  apply detach_impl_Some in H2 as (Hb & -> & -> & Hnul); [|done].
  destruct (Hf Hb) as [_ (p & Hp & Hbytes)]. rewrite Hbytes in *. auto.
Qed.
End Runs.

(** ** The same facts as postconditions *)

Section PostBuf.
Context {malloc : Malloc}.

Lemma append_post b d : buf_wf b -> post (tamga_buf_append b d) (appended b d).
Proof. intros. apply post_intro. eauto using append_spec. Qed.

Lemma append_fmt_post b d : buf_wf b -> post (tamga_buf_append_fmt b d) (appended b d).
Proof. intros. apply post_intro. eauto using append_fmt_spec. Qed.

Lemma appended_trans b p b1 q b2 :
  appended b (Some p) b1 -> appended b1 (Some q) b2 -> appended b (Some (p ++ q)) b2.
Proof.
  intros [Hw1 H1] [Hw2 H2]. split; [done|]. intros Hf.
  destruct (H2 Hf) as [Hf1 (? & [= <-] & ->)]. destruct (H1 Hf1) as [Hb (? & [= <-] & ->)].
  split; [done|]. eexists. split; [done|]. by rewrite app_assoc.
Qed.

Lemma appended_nil b : buf_wf b -> appended b (Some []) b.
Proof. intros. split; [done|]. intros. split; [done|]. exists []. by rewrite app_nil_r. Qed.

Lemma detach_string_post b :
  buf_wf b ->
  post (tamga_buf_detach_string b) (fun '(r, _) =>
    match r with None => True | Some r => buf_failed b = false /\ r = buf_bytes b /\ ~ In 0 r end).
Proof.
  intros Hwf. apply post_intro. intros s [[r|] b'] s' H; [|done].
  apply detach_impl_Some in H as (? & ? & _ & ?); auto.
Qed.

Lemma detach_post b :
  buf_wf b ->
  post (tamga_buf_detach b) (fun '(r, _) =>
    match r with None => True | Some r => buf_failed b = false /\ r = buf_bytes b end).
Proof.
  intros Hwf. apply post_intro. intros s [[r|] b'] s' H; [|done].
  apply detach_Some in H as (? & ? & _); auto.
Qed.

Context {limit : Z} `{!MallocUpTo limit} (Hlimit : 64 <= limit <= SIZE_MAX).

Lemma append_room b l n :
  buf_room (limit := limit) b (zlen l + n) -> 0 <= n ->
  post (tamga_buf_append b (Some l)) (fun b' => buf_room (limit := limit) b' n /\ buf_bytes b' = buf_bytes b ++ l).
Proof.
  intros Hr Hn. apply post_intro. intros s b' s' E.
  destruct (append_ok Hlimit b l n s Hr Hn) as (b1 & s1 & E1 & ? & ?). rewrite E in E1. by simplify_eq.
Qed.

Lemma append_fmt_room b l n :
  buf_room (limit := limit) b (zlen l + n) -> 0 <= n ->
  post (tamga_buf_append_fmt b (Some l)) (fun b' => buf_room (limit := limit) b' n /\ buf_bytes b' = buf_bytes b ++ l).
Proof.
  intros Hr Hn. apply post_intro. intros s b' s' E.
  destruct (append_fmt_ok Hlimit b l n s Hr Hn) as (b1 & s1 & E1 & ? & ?). rewrite E in E1. by simplify_eq.
Qed.

Lemma detach_string_room b :
  buf_room (limit := limit) b 0 -> ~ In 0 (buf_bytes b) ->
  post (tamga_buf_detach_string b) (fun r => r = (Some (buf_bytes b), tamga_buf_init)).
Proof.
  intros Hr Hn. apply post_intro. intros s r s' E.
  destruct (detach_impl_ok Hlimit b false s Hr (fun _ => Hn)) as (s1 & E1).
  unfold tamga_buf_detach_string in E. rewrite E in E1. by simplify_eq.
Qed.

Lemma detach_room b :
  buf_room (limit := limit) b 0 ->
  post (tamga_buf_detach b) (fun r => r = (Some (buf_bytes b), tamga_buf_init)).
Proof.
  intros Hr. apply post_intro. intros s r s' E.
  destruct (detach_ok Hlimit b s Hr) as (s1 & E1). rewrite E in E1. by simplify_eq.
Qed.
End PostBuf.

Lemma detach_string_complete_witness :
  let b := run_ops (malloc := full_memory) tamga_buf_init [OpAppend (Some [72; 105]); OpAppendByte 33] (mk_st 0 None) in
  let d := tamga_buf_detach_string (malloc := full_memory) b.1 b.2 in
  payloads [OpAppend (Some [72; 105]); OpAppendByte 33] = Some [72; 105; 33] /\
  ~ In 0 [72; 105; 33] /\ d.1.2 = tamga_buf_init.
Proof.
  intros b d.
  apply (detach_string_complete (malloc := full_memory) _ (mk_st 0 None) b.1 b.2 [72; 105; 33] d.1.2 d.2).
  - vm_compute. reflexivity.
  - vm_compute. reflexivity.
Defined.
