(* ===== verification/BufBuild.v ===== *)
(** * Building texts in a buffer

    The pattern most of the library's constructors follow: initialise a
    [TamgaBuf], append pieces, detach. The lemmas here say in one statement what
    an arbitrary allocator may do (the text comes out exactly, or nothing does)
    and that nothing but a refused allocation makes it fail. *)

From S2P Require Import Prelude World Buf.
From stdpp Require Import list.
#[local] Open Scope Z_scope.

Section Build.
Context {malloc : Malloc}.

(** The allocator serves every request a text of [n] bytes leads to. *)
Definition enough (n : Z) : Prop :=
  exists limit, MallocUpTo limit /\ 64 <= limit <= SIZE_MAX /\ 2 * (n + 1) <= limit.

Lemma enough_mono n m : enough n -> m <= n -> enough m.
Proof. intros (limit & ? & ? & ?) ?. exists limit. split_and!; [done|lia|lia|lia]. Qed.

Lemma enough_malloc n size s : enough n -> size <= 2 * (n + 1) -> (c_malloc size s).1 = true.
Proof. intros (limit & Hm & ? & ?) ?. simpl. apply (malloc_up_to (limit := limit)). lia. Qed.

(** [b] holds [l]; with memory for [total] bytes it has not failed. *)
Definition buf_has (total : Z) (b : TamgaBuf) (l : bytes) : Prop :=
  buf_wf b /\ (buf_failed b = false -> buf_bytes b = l) /\
  (enough total -> zlen l <= total -> buf_failed b = false).

Lemma buf_has_init total : buf_has total tamga_buf_init [].
Proof. split_and!; [apply buf_init_wf|done|done]. Qed.

(** An append, from what it does with any allocator and with room. *)
Lemma buf_has_step total b l p (m : M TamgaBuf) :
  (buf_wf b -> post m (appended b (Some p))) ->
  (forall limit n, MallocUpTo limit -> 64 <= limit <= SIZE_MAX -> buf_room (limit := limit) b (zlen p + n) -> 0 <= n ->
    post m (fun b' => buf_room (limit := limit) b' n /\ buf_bytes b' = buf_bytes b ++ p)) ->
  buf_has total b l -> post m (fun b' => buf_has total b' (l ++ p)).
Proof.
  intros Hspec Hroom (Hwf & Hl & Hok). apply post_intro. intros s b' s' E.
  destruct (post_run _ _ _ _ _ (Hspec Hwf) E) as [Hwf' Happ]. split_and!; [done| |].
  - intros Hf. destruct (Happ Hf) as [Hf0 (? & [= <-] & ->)]. by rewrite Hl.
  - intros He Hlen. rewrite length_app in Hlen. specialize (Hok He ltac:(lia)). specialize (Hl Hok).
    destruct He as (limit & Hm & Hlim & Hfree).
    assert (buf_room (limit := limit) b (zlen p + (total - zlen l - zlen p))) as Hr.
    { split_and!; [done|done|]. rewrite (wf_len _ Hwf), Hl. lia. }
    by destruct (post_run _ _ _ _ _ (Hroom limit _ Hm Hlim Hr ltac:(lia)) E) as [(_ & ? & _) _].
Qed.

Lemma buf_has_append total b l p :
  buf_has total b l -> post (tamga_buf_append b (Some p)) (fun b' => buf_has total b' (l ++ p)).
Proof. apply buf_has_step; [by apply append_post|]. intros limit n Hm Hl. by apply append_room. Qed.

Lemma buf_has_append_fmt total b l p :
  buf_has total b l -> post (tamga_buf_append_fmt b (Some p)) (fun b' => buf_has total b' (l ++ p)).
Proof. apply buf_has_step; [by apply append_fmt_post|]. intros limit n Hm Hl. by apply append_fmt_room. Qed.

Lemma buf_has_detach total b l :
  buf_has total b l -> ~ In 0 l ->
  post (tamga_buf_detach_string b) (fun '(r, _) => r = Some l \/ (r = None /\ ~ (enough total /\ zlen l <= total))).
Proof.
  intros (Hwf & Hl & Hok) Hz. apply post_intro. intros s [[r|] b'] s' E.
  - left. pose proof (detach_string_post b Hwf s) as Hp. rewrite E in Hp. simpl in Hp.
    destruct Hp as (Hf & -> & _). by rewrite Hl.
  - right. split; [done|]. intros [He Hlen]. specialize (Hok He Hlen). specialize (Hl Hok).
    destruct He as (limit & Hm & Hlim & Hroom).
    assert (buf_room (limit := limit) b 0) as Hr.
    { split_and!; [done|done|]. rewrite (wf_len _ Hwf), Hl. lia. }
    pose proof (detach_string_room Hlim b Hr ltac:(by rewrite Hl) s) as Hp. rewrite E in Hp. done.
Qed.

(** Detaching the whole contents, zero bytes allowed. *)
Lemma buf_has_detach_bytes total b l :
  buf_has total b l ->
  post (tamga_buf_detach b) (fun '(r, _) => r = Some l \/ (r = None /\ ~ (enough total /\ zlen l <= total))).
Proof.
  intros (Hwf & Hl & Hok). apply post_intro. intros s [[r|] b'] s' E.
  - left. pose proof (detach_post b Hwf s) as Hp. rewrite E in Hp. simpl in Hp.
    destruct Hp as (Hf & ->). by rewrite Hl.
  - right. split; [done|]. intros [He Hlen]. specialize (Hok He Hlen). specialize (Hl Hok).
    destruct He as (limit & Hm & Hlim & Hroom).
    assert (buf_room (limit := limit) b 0) as Hr.
    { split_and!; [done|done|]. rewrite (wf_len _ Hwf), Hl. lia. }
    pose proof (detach_room Hlim b Hr s) as Hp. rewrite E in Hp. done.
Qed.
End Build.

(** A full memory is enough for anything that fits the address space. *)
Lemma enough_full n : n <= 2 ^ 62 -> enough (malloc := full_memory) n.
Proof. intros H. exists SIZE_MAX. split_and!; [apply full_memory_up_to|done|done|unfold SIZE_MAX; lia]. Qed.

(** [tamga_strndup] in the same form. *)
Lemma strndup_post `{Malloc} l :
  post (tamga_strndup (Some l)) (fun r => match r with
    | Some t => t = l /\ ~ In 0 l
    | None => ~ (enough (zlen l) /\ ~ In 0 l /\ zlen l <= TAMGA_MAX_REASONABLE_LEN)
    end).
Proof.
  apply post_intro. intros s [t|] s' E.
  - apply strndup_Some in E as ([= ->] & ? & ?). done.
  - intros (He & Hz & Hl). unfold tamga_strndup in E.
    destruct (Z.gtb_spec (zlen l) TAMGA_MAX_REASONABLE_LEN); [lia|].
    rewrite (proj2 (memchr_None _ _) Hz) in E.
    assert (tamga_checked_add (zlen l) 1 = Some (zlen l + 1)) as Ha.
    { apply checked_add_Some. split; [done|]. unfold TAMGA_MAX_REASONABLE_LEN, SIZE_MAX in *. lia. }
    rewrite Ha in E. unfold bind, tamga_malloc in E.
    pose proof (enough_malloc _ (if zlen l + 1 =? 0 then 1 else zlen l + 1) s He ltac:(destruct (Z.eqb_spec (zlen l + 1) 0); lia)) as Hm.
    destruct (c_malloc _ s) as [ok s1]. simpl in Hm. subst ok. done.
Qed.
