(* ===== verification/Hex.v ===== *)
(** * Hexadecimal and UUIDs: [src/src/util/hex.c], [src/src/util/uuid.c]

    Strings are the bytes before the terminator. A UUID is its 16 bytes. *)

From Stdlib Require Import String.
From S2P Require Import Prelude.

(** ** hex.c *)

Definition TAMGA_HEX_DIGITS : bytes := bstr "0123456789abcdef".

Definition tamga_hex_value (c : Z) : Z :=
  if (c >=? 48) && (c <=? 57) then c - 48
  else if (c >=? 97) && (c <=? 102) then (c - 97) + 10
  else if (c >=? 65) && (c <=? 70) then (c - 65) + 10
  else -1.

Fixpoint hex_decode_loop (l : bytes) : option bytes :=
  match l with
  | a :: b :: l' =>
      let hi := tamga_hex_value a in
      let lo := tamga_hex_value b in
      if (hi <? 0) || (lo <? 0) then None
      else rest ← hex_decode_loop l'; Some (u8 (Z.lor (Z.shiftl hi 4) lo) :: rest)
  | _ => Some []
  end.

Definition tamga_hex_decode (input : option bytes) : option bytes :=
  match input with
  | None => None
  | Some l => if zlen l mod 2 =? 0 then hex_decode_loop l else None
  end.

Definition hex_encode_byte (b : Z) : bytes :=
  [ at_ TAMGA_HEX_DIGITS (Z.land (Z.shiftr b 4) 15); at_ TAMGA_HEX_DIGITS (Z.land b 15) ].

Definition tamga_hex_encode (input : option bytes) : bytes :=
  match input with
  | None => []
  | Some l => flat_map hex_encode_byte l
  end.

(** ** uuid.c *)

Definition TAMGA_UUID_GROUP_BYTES : list nat := [4; 2; 2; 2; 6]%nat.

(** One pass of the group loop; [first] is [group == 0]. *)
Fixpoint uuid_groups (first : bool) (groups : list nat) (str : bytes) : option bytes :=
  match groups with
  | [] => Some []
  | n :: groups' =>
      let after_hyphen :=
        if first then Some str
        else match str with
             | c :: str' => if c =? 45 then Some str' else None
             | [] => None
             end in
      str' ← after_hyphen;
      g ← tamga_hex_decode (Some (take (n * 2) str'));
      rest ← uuid_groups false groups' (drop (n * 2) str');
      Some (g ++ rest)
  end.

Definition tamga_uuid_parse_hyphenated (str : bytes) : option bytes :=
  uuid_groups true TAMGA_UUID_GROUP_BYTES str.

Definition tamga_uuid_parse (str : option bytes) : option bytes :=
  match str with
  | None => None
  | Some s =>
      if zlen s =? 45 then
        if beq (map ascii_lower (take 9 s)) (bstr "urn:uuid:")
        then tamga_uuid_parse_hyphenated (drop 9 s) else None
      else if zlen s =? 38 then
        if negb (at_ s 0 =? 123) || negb (at_ s 37 =? 125) then None
        else tamga_uuid_parse_hyphenated (take 36 (drop 1 s))
      else if zlen s =? 36 then tamga_uuid_parse_hyphenated s
      else if zlen s =? 32 then tamga_hex_decode (Some s)
      else None
  end.

Definition tamga_uuid_format (uuid : option bytes) : bytes :=
  match uuid with
  | None => []
  | Some u =>
      let hex := tamga_hex_encode (Some u) in
      take 8 hex ++ [45] ++ take 4 (drop 8 hex) ++ [45] ++ take 4 (drop 12 hex) ++ [45]
      ++ take 4 (drop 16 hex) ++ [45] ++ take 12 (drop 20 hex)
  end.

Definition tamga_uuid_normalize (str : option bytes) : option bytes :=
  u ← tamga_uuid_parse str; Some (tamga_uuid_format (Some u)).

(** ** Hexadecimal: the decoder inverts the encoder up to letter case *)

Lemma hex_digit_at v :
  0 <= v < 16 -> at_ TAMGA_HEX_DIGITS v = if v <? 10 then 48 + v else 87 + v.
Proof.
  intros Hv. assert (In v (map Z.of_nat (seq 0 16))) as H.
  { apply in_map_iff. exists (Z.to_nat v). split; [lia|]. apply in_seq. lia. }
  simpl in H. repeat (destruct H as [<-|H]; [reflexivity|]). done.
Qed.

Lemma hex_value_spec c v :
  0 <= v -> tamga_hex_value c = v <-> v < 16 /\ ascii_lower c = at_ TAMGA_HEX_DIGITS v.
Proof.
  intros Hv. unfold tamga_hex_value, ascii_lower. split.
  - intros <-. repeat dif; try lia; rewrite hex_digit_at by lia;
      (split; [lia|]); repeat dif; lia.
  - intros [Hlt Heq]. rewrite hex_digit_at in Heq by lia. repeat dif; lia.
Qed.

Lemma nibbles_byte b : is_byte b -> 0 <= Z.shiftr b 4 < 16 /\ 0 <= Z.land b 15 < 16 /\
  Z.land (Z.shiftr b 4) 15 = Z.shiftr b 4 /\
  u8 (Z.lor (Z.shiftl (Z.shiftr b 4) 4) (Z.land b 15)) = b.
Proof.
  unfold is_byte, u8. intros Hb.
  change 15 with (2 ^ 4 - 1). rewrite !land_mask, Z.shiftl_mul_pow2 by lia.
  rewrite Z.shiftr_div_pow2 by lia. rewrite Z.lor_comm, lor_disjoint_add by zdm.
  change (2 ^ 4) with 16. change (2 ^ 8) with 256. zdm.
Qed.

Lemma nibbles_join hi lo :
  0 <= hi < 16 -> 0 <= lo < 16 ->
  let b := u8 (Z.lor (Z.shiftl hi 4) lo) in
  is_byte b /\ Z.land (Z.shiftr b 4) 15 = hi /\ Z.land b 15 = lo.
Proof.
  intros Hh Hl. unfold is_byte, u8. rewrite Z.shiftl_mul_pow2 by lia.
  rewrite Z.lor_comm, lor_disjoint_add by zdm.
  change 15 with (2 ^ 4 - 1). rewrite !land_mask, Z.shiftr_div_pow2 by lia.
  change (2 ^ 4) with 16. change (2 ^ 8) with 256. zdm.
Qed.

Lemma hex_decode_loop_iff l s :
  zlen s mod 2 = 0 ->
  hex_decode_loop s = Some l <->
  bytes_ok l /\ map ascii_lower s = flat_map hex_encode_byte l.
Proof.
  revert l. induction s as [|a|a b s IH] using list_pair_ind; intros l Hev.
  - simpl. split; [intros [= <-]; auto|].
    intros [_ H]. destruct l; [done|]. done.
  - done.
  - assert (zlen s mod 2 = 0) as Hs by (simpl length in Hev; zdm).
    specialize (fun l => IH l Hs). cbn [hex_decode_loop map].
    destruct ((tamga_hex_value a <? 0) || (tamga_hex_value b <? 0)) eqn:E.
    + split; [done|]. intros [Hl Heq]. destruct l as [|x l]; [done|].
      apply Forall_cons_1 in Hl as [Hx Hl]. simpl in Heq. injection Heq as H1 H2 _.
      pose proof (nibbles_byte x Hx) as (Hn1 & Hn2 & Hn3 & _). rewrite Hn3 in H1.
      pose proof (proj2 (hex_value_spec a (Z.shiftr x 4) ltac:(lia)) ltac:(split; [lia|done])).
      pose proof (proj2 (hex_value_spec b (Z.land x 15) ltac:(lia)) ltac:(split; [lia|done])).
      lia.
    + pose proof (proj1 (hex_value_spec a (tamga_hex_value a) ltac:(lia)) eq_refl) as [Ha1 Ha2].
      pose proof (proj1 (hex_value_spec b (tamga_hex_value b) ltac:(lia)) eq_refl) as [Hb1 Hb2].
      pose proof (nibbles_join (tamga_hex_value a) (tamga_hex_value b) ltac:(lia) ltac:(lia))
        as (Hj1 & Hj2 & Hj3).
      split.
      * destruct (hex_decode_loop s) as [r|] eqn:Hr; [|done]. simpl. intros [= <-].
        destruct (proj1 (IH r) eq_refl) as [Hr1 Hr2]. split; [by constructor|]. cbn [flat_map].
        unfold hex_encode_byte at 1. rewrite Hj2, Hj3, Ha2, Hb2, Hr2. done.
      * intros [Hl Heq]. destruct l as [|x l]; [done|].
        apply Forall_cons_1 in Hl as [Hx Hl]. cbn [flat_map hex_encode_byte app] in Heq.
        injection Heq as H1 H2 H3.
        pose proof (nibbles_byte x Hx) as (Hn1 & Hn2 & Hn3 & Hn4). rewrite Hn3 in H1.
        rewrite (proj2 (hex_value_spec a (Z.shiftr x 4) ltac:(lia))) by (split; [lia|done]).
        rewrite (proj2 (hex_value_spec b (Z.land x 15) ltac:(lia))) by (split; [lia|done]).
        rewrite Hn4. rewrite (proj2 (IH l)) by done. done.
Qed.

(** The decoder accepts exactly the case variants of the encoder's output. *)
Lemma hex_decode_iff s l :
  tamga_hex_decode (Some s) = Some l <->
  bytes_ok l /\ map ascii_lower s = tamga_hex_encode (Some l).
Proof.
  unfold tamga_hex_decode, tamga_hex_encode.
  destruct (Z.eqb_spec (zlen s mod 2) 0); [by apply hex_decode_loop_iff|].
  split; [done|]. intros [_ H]. apply (f_equal length) in H.
  rewrite length_map in H.
  assert (length (flat_map hex_encode_byte l) = 2 * length l)%nat as Hl.
  { clear. induction l; simpl in *; lia. }
  zdm.
Qed.

Lemma hex_encode_length l : length (tamga_hex_encode (Some l)) = (2 * length l)%nat.
Proof. induction l; simpl in *; lia. Qed.

Lemma hex_encode_app l1 l2 :
  tamga_hex_encode (Some (l1 ++ l2)) = tamga_hex_encode (Some l1) ++ tamga_hex_encode (Some l2).
Proof. apply flat_map_app. Qed.

Lemma hex_encode_lower l : bytes_ok l ->
  map ascii_lower (tamga_hex_encode (Some l)) = tamga_hex_encode (Some l).
Proof.
  induction 1 as [|b l Hb _ IH]; [done|].
  cbn [tamga_hex_encode flat_map hex_encode_byte app map] in *.
  pose proof (nibbles_byte b Hb) as (H1 & H2 & H3 & _). rewrite IH, H3.
  rewrite !hex_digit_at by lia. unfold ascii_lower. f_equal; [|f_equal]; repeat dif; lia.
Qed.

(** ** UUIDs: the four accepted spellings *)

#[local] Arguments tamga_hex_encode : simpl never.
#[local] Arguments tamga_hex_decode : simpl never.
#[local] Arguments tamga_uuid_format : simpl never.

Definition uuid_ok (u : bytes) : Prop := bytes_ok u /\ length u = 16%nat.

Lemma lower_hyphen c : ascii_lower c = 45 <-> c = 45.
Proof. unfold ascii_lower. dif; lia. Qed.

(** The hyphenated text of a byte string cut into the given groups. *)
Fixpoint group_text (first : bool) (groups : list nat) (u : bytes) : bytes :=
  match groups with
  | [] => []
  | n :: groups' =>
      (if first then [] else [45]) ++ tamga_hex_encode (Some (take n u))
      ++ group_text false groups' (drop n u)
  end.

Lemma group_text_length first groups u :
  length u = sum_list groups ->
  length (group_text first groups u) =
  (2 * sum_list groups + length groups - (if first then (if groups is [] then 0 else 1) else 0))%nat.
Proof.
  revert first u. induction groups as [|n groups IH]; intros first u Hu; [by destruct first|].
  simpl in *. rewrite !length_app, hex_encode_length, length_take, IH
    by (rewrite length_drop; lia).
  destruct first; simpl; lia.
Qed.

Lemma uuid_groups_iff first groups s u :
  length s = length (group_text first groups (replicate (sum_list groups) 0)) ->
  uuid_groups first groups s = Some u <->
  bytes_ok u /\ length u = sum_list groups /\
  map ascii_lower s = group_text first groups u.
Proof.
  revert first s u. induction groups as [|n groups IH]; intros first s u Hs.
  - simpl in *. split; [intros [= <-]|]; [destruct s; simpl in *; auto; lia|].
    intros (_ & Hu & _). destruct u; simpl in *; [done|lia].
  - rewrite group_text_length in Hs by (by rewrite length_replicate). cbn [uuid_groups group_text].
    set (ah := if first then _ else _).
    split.
    + destruct ah as [str|] eqn:Hah; [|done]. cbn.
      destruct (tamga_hex_decode _) as [g|] eqn:Hg; [|done]. cbn.
      destruct (uuid_groups false groups _) as [rest|] eqn:Hr; [|done]. intros [= <-].
      apply hex_decode_iff in Hg as [Hg1 Hg2].
      assert (map ascii_lower s = (if first then [] else [45]) ++ map ascii_lower str
              /\ length s = (length str + if first then 0 else 1)%nat) as [Hs1 Hs2].
      { subst ah. destruct first; simplify_eq; [split; [done|lia]|].
        destruct s as [|c s]; [done|]. destruct (Z.eqb_spec c 45); simplify_eq.
        simpl. split; [done|lia]. }
      assert (length g = n) as Hgn.
      { apply (f_equal length) in Hg2. rewrite length_map, length_take, hex_encode_length in Hg2.
        simpl in Hs. destruct first; lia. }
      apply IH in Hr as (Hr1 & Hr2 & Hr3).
      2:{ rewrite group_text_length, length_drop by (by rewrite length_replicate).
          simpl in Hs. destruct first; lia. }
      split_and!; [by apply Forall_app|rewrite length_app; simpl; lia|].
      rewrite Hs1. rewrite take_app_length', drop_app_length' by done.
      rewrite <- Hg2, <- Hr3, <- map_app, take_drop. done.
    + intros (Hu1 & Hu2 & Hu3). simpl in Hu2.
      assert (exists str, ah = Some str /\
        map ascii_lower str = tamga_hex_encode (Some (take n u)) ++ group_text false groups (drop n u))
        as (str & -> & Hstr).
      { subst ah. destruct first; [by exists s|]. destruct s as [|c s]; [done|].
        simpl in Hu3. injection Hu3 as Hc Hu3. apply (proj1 (lower_hyphen c)) in Hc as ->. by exists s. }
      cbn.
      assert (length (tamga_hex_encode (Some (take n u))) = n * 2)%nat as Hlen.
      { rewrite hex_encode_length, length_take. lia. }
      rewrite (proj2 (hex_decode_iff _ (take n u))).
      2:{ split; [by apply Forall_take|].
          rewrite <- firstn_map, Hstr, take_app_length' by lia. done. }
      assert (length (drop (n * 2) str) =
              length (group_text false groups (replicate (sum_list groups) 0))) as Hd.
      { rewrite length_drop, group_text_length by (by rewrite length_replicate).
        apply (f_equal length) in Hstr.
        rewrite length_map, length_app, Hlen, group_text_length in Hstr
          by (rewrite length_drop; lia). lia. }
      cbn. rewrite (proj2 (IH false _ (drop n u) Hd)); [cbn; by rewrite take_drop|].
      split_and!; [by apply Forall_drop|rewrite length_drop; lia|].
      rewrite <- skipn_map, Hstr, drop_app_length' by lia. done.
Qed.

(** The two texts of a UUID, from which the four spellings are made. *)
Definition uuid_hyphenated (u : bytes) : bytes := group_text true TAMGA_UUID_GROUP_BYTES u.
Definition uuid_simple (u : bytes) : bytes := tamga_hex_encode (Some u).

Lemma uuid_format_hyphenated u :
  length u = 16%nat -> tamga_uuid_format (Some u) = uuid_hyphenated u.
Proof.
  intros Hu. do 16 (destruct u as [|? u]; [done|]). destruct u; [|done]. reflexivity.
Qed.

Lemma parse_hyphenated_iff s u :
  length s = 36%nat ->
  tamga_uuid_parse_hyphenated s = Some u <->
  uuid_ok u /\ map ascii_lower s = uuid_hyphenated u.
Proof.
  intros Hs. unfold tamga_uuid_parse_hyphenated. rewrite uuid_groups_iff.
  - unfold uuid_ok, uuid_hyphenated. change (sum_list TAMGA_UUID_GROUP_BYTES) with 16%nat. tauto.
  - rewrite group_text_length by (by rewrite length_replicate). by rewrite Hs.
Qed.

Lemma uuid_hyphenated_length u : length u = 16%nat -> length (uuid_hyphenated u) = 36%nat.
Proof. intros. unfold uuid_hyphenated. by rewrite group_text_length. Qed.

(** The accepted spellings of [u], in lower case. *)
Definition uuid_spellings (u : bytes) : list bytes :=
  [ uuid_hyphenated u; uuid_simple u; [123] ++ uuid_hyphenated u ++ [125];
    bstr "urn:uuid:" ++ uuid_hyphenated u ].

Lemma lower_brace_open c : ascii_lower c = 123 <-> c = 123.
Proof. unfold ascii_lower. dif; lia. Qed.
Lemma lower_brace_close c : ascii_lower c = 125 <-> c = 125.
Proof. unfold ascii_lower. dif; lia. Qed.

Lemma braced_parts (s : bytes) :
  length s = 38%nat -> exists a m z, s = [a] ++ m ++ [z] /\ length m = 36%nat /\
    at_ s 0 = a /\ at_ s 37 = z /\ take 36 (drop 1 s) = m.
Proof.
  intros Hs. destruct s as [|a s]; [done|]. simpl in Hs.
  exists a, (take 36 s), (nth 36 s 0). simpl. rewrite length_take.
  split_and!; [|lia|done|done|by rewrite drop_0].
  f_equal. rewrite <- (take_drop 36 s) at 1. f_equal.
  pose proof (nth_drop 0 36 s 0) as Hn. simpl plus in Hn.
  assert (length (drop 36 s) = 1%nat) as Hd by (rewrite length_drop; lia).
  destruct (drop 36 s) as [|z [|]]; try done. simpl in Hn. by rewrite <- Hn.
Qed.

Lemma uuid_spelling_lengths u t :
  length u = 16%nat -> In t (uuid_spellings u) ->
  (length t = 36%nat /\ t = uuid_hyphenated u) \/ (length t = 32%nat /\ t = uuid_simple u) \/
  (length t = 38%nat /\ t = [123] ++ uuid_hyphenated u ++ [125]) \/
  (length t = 45%nat /\ t = bstr "urn:uuid:" ++ uuid_hyphenated u).
Proof.
  intros Hu Hin. pose proof (uuid_hyphenated_length u Hu) as Hh.
  assert (length (uuid_simple u) = 32%nat) as Hs.
  { unfold uuid_simple. rewrite hex_encode_length. lia. }
  destruct Hin as [<-|[<-|[<-|[<-|[]]]]]; [left|right; left|do 2 right; left|do 3 right];
    (split; [|done]); rewrite ?length_app, ?Hh, ?Hs; done.
Qed.

(** The parser accepts exactly the four documented spellings, in any letter
    case, and yields the UUID they spell. *)
Lemma uuid_parse_iff s u :
  tamga_uuid_parse (Some s) = Some u <->
  uuid_ok u /\ In (map ascii_lower s) (uuid_spellings u).
Proof.
  unfold tamga_uuid_parse.
  assert (forall n : nat, length s <> n -> length (map ascii_lower s) <> n) as Hmap.
  { intros n. by rewrite length_map. }
  destruct (Z.eqb_spec (zlen s) 45) as [H45|H45];
  [|destruct (Z.eqb_spec (zlen s) 38) as [H38|H38];
  [|destruct (Z.eqb_spec (zlen s) 36) as [H36|H36];
  [|destruct (Z.eqb_spec (zlen s) 32) as [H32|H32]]]].
  - destruct (beq _ _) eqn:Hb.
    + apply beq_eq in Hb. rewrite parse_hyphenated_iff by (rewrite length_drop; lia).
      assert (map ascii_lower s = bstr "urn:uuid:" ++ map ascii_lower (drop 9 s)) as Hsplit.
      { rewrite <- Hb, <- map_app, take_drop. done. }
      split.
      * intros [Hu He]. split; [done|]. do 3 right. left. by rewrite Hsplit, He.
      * intros [Hu Hin]. split; [done|]. apply uuid_spelling_lengths in Hin; [|apply Hu].
        rewrite length_map in Hin. destruct Hin as [?|[?|[?|[_ He]]]]; try lia.
        rewrite Hsplit in He. by apply app_inv_head in He.
    + split; [done|]. intros [Hu Hin]. apply uuid_spelling_lengths in Hin; [|apply Hu].
      rewrite length_map in Hin. destruct Hin as [?|[?|[?|[_ He]]]]; try lia.
      apply beq_neq in Hb. destruct Hb. rewrite <- firstn_map, He. reflexivity.
  - destruct (braced_parts s) as (a & m & z & -> & Hm & -> & -> & ->); [lia|].
    destruct (negb (a =? 123) || negb (z =? 125)) eqn:Hbr.
    + split; [done|]. intros [Hu Hin]. apply uuid_spelling_lengths in Hin; [|apply Hu].
      rewrite length_map, !length_app, Hm in Hin.
      destruct Hin as [?|[?|[[_ He]|?]]]; cbn [length] in *; try lia.
      rewrite !map_app in He. simpl in He. injection He as Ha He.
      apply app_inj_2 in He as [_ He]; [|done]. injection He as Hz.
      apply (proj1 (lower_brace_open a)) in Ha. apply (proj1 (lower_brace_close z)) in Hz. lia.
    + apply orb_false_iff in Hbr as [Ha Hz].
      apply negb_false_iff, Z.eqb_eq in Ha as ->. apply negb_false_iff, Z.eqb_eq in Hz as ->.
      rewrite parse_hyphenated_iff by done. rewrite !map_app. split.
      * intros [Hu He]. split; [done|]. do 2 right. left. by rewrite He.
      * intros [Hu Hin]. split; [done|]. apply uuid_spelling_lengths in Hin; [|apply Hu].
        rewrite !length_app, !length_map, Hm in Hin.
        destruct Hin as [?|[?|[[_ He]|?]]]; simpl in *; try lia.
        injection He as He. by apply app_inj_2 in He as [-> _].
  - rewrite parse_hyphenated_iff by lia. split.
    + intros [Hu He]. split; [done|]. left. done.
    + intros [Hu Hin]. split; [done|]. apply uuid_spelling_lengths in Hin; [|apply Hu].
      rewrite length_map in Hin. destruct Hin as [[_ ?]|[?|[?|?]]]; [done|lia..].
  - rewrite hex_decode_iff. split.
    + intros [Hu He]. split; [split; [done|]|].
      * apply (f_equal length) in He. rewrite length_map, hex_encode_length in He. lia.
      * right. left. done.
    + intros [Hu Hin]. split; [apply Hu|]. apply uuid_spelling_lengths in Hin; [|apply Hu].
      rewrite length_map in Hin. destruct Hin as [?|[[_ ?]|[?|?]]]; [lia|done|lia..].
  - split; [done|]. intros [Hu Hin]. apply uuid_spelling_lengths in Hin; [|apply Hu].
    rewrite length_map in Hin. lia.
Qed.

Lemma uuid_hyphenated_lower u :
  uuid_ok u -> map ascii_lower (uuid_hyphenated u) = uuid_hyphenated u.
Proof.
  intros [Hb Hl]. assert (forall first g v, bytes_ok v ->
    map ascii_lower (group_text first g v) = group_text first g v) as H; [|by apply H].
  intros first g. revert first. induction g as [|n g IH]; intros first v Hv; [done|].
  cbn [group_text]. rewrite !map_app, IH, hex_encode_lower by auto using Forall_take, Forall_drop.
  by destruct first.
Qed.

(** [tamga_uuid_normalize] maps every accepted spelling of a UUID (the
    hyphenated, simple, braced and [urn:uuid:] forms in any letter case) to
    one text, the lower-case hyphenated one; it accepts nothing else, and its
    own output is a fixed point. *)
Theorem uuid_normalize_canonical s t :
  tamga_uuid_normalize (Some s) = Some t <->
  exists u, uuid_ok u /\ In (map ascii_lower s) (uuid_spellings u) /\
            t = uuid_hyphenated u /\ tamga_uuid_normalize (Some t) = Some t.
Proof.
  unfold tamga_uuid_normalize. split.
  - intros H. apply bind_Some in H as (u & Hp & [= <-]). apply uuid_parse_iff in Hp as [Hu Hin].
    exists u. rewrite uuid_format_hyphenated by apply Hu. split_and!; try done.
    rewrite (proj2 (uuid_parse_iff _ u)); simpl.
    + by rewrite uuid_format_hyphenated by apply Hu.
    + split; [done|]. left. by rewrite uuid_hyphenated_lower.
  - intros (u & Hu & Hin & -> & _). rewrite (proj2 (uuid_parse_iff s u)) by done. simpl.
    by rewrite uuid_format_hyphenated by apply Hu.
Qed.
