(* ===== verification/Base64.v ===== *)
(** * Base64: [src/src/util/base64.c]

    The decoder keeps its bits in a [uint_fast32_t], whose width [W] the
    platform chooses; the loop is modelled for any width of at least 32 bits
    and shown not to depend on it. *)

From Stdlib Require Import String.
From S2P Require Import Prelude World.

Definition TAMGA_B64_ALPHABET : bytes :=
  bstr "ABCDEFGHIJKLMNOPQRSTUVWXYZabcdefghijklmnopqrstuvwxyz0123456789+/".

Definition TAMGA_B64_REVERSE : list Z :=
  [255; 255; 255; 255; 255; 255; 255; 255; 255; 255; 255; 255; 255; 255; 255; 255;
   255; 255; 255; 255; 255; 255; 255; 255; 255; 255; 255; 255; 255; 255; 255; 255;
   255; 255; 255; 255; 255; 255; 255; 255; 255; 255; 255; 62; 255; 255; 255; 63;
   52; 53; 54; 55; 56; 57; 58; 59; 60; 61; 255; 255; 255; 255; 255; 255;
   255; 0; 1; 2; 3; 4; 5; 6; 7; 8; 9; 10; 11; 12; 13; 14;
   15; 16; 17; 18; 19; 20; 21; 22; 23; 24; 25; 255; 255; 255; 255; 255;
   255; 26; 27; 28; 29; 30; 31; 32; 33; 34; 35; 36; 37; 38; 39; 40;
   41; 42; 43; 44; 45; 46; 47; 48; 49; 50; 51; 255; 255; 255; 255; 255;
   255; 255; 255; 255; 255; 255; 255; 255; 255; 255; 255; 255; 255; 255; 255; 255;
   255; 255; 255; 255; 255; 255; 255; 255; 255; 255; 255; 255; 255; 255; 255; 255;
   255; 255; 255; 255; 255; 255; 255; 255; 255; 255; 255; 255; 255; 255; 255; 255;
   255; 255; 255; 255; 255; 255; 255; 255; 255; 255; 255; 255; 255; 255; 255; 255;
   255; 255; 255; 255; 255; 255; 255; 255; 255; 255; 255; 255; 255; 255; 255; 255;
   255; 255; 255; 255; 255; 255; 255; 255; 255; 255; 255; 255; 255; 255; 255; 255;
   255; 255; 255; 255; 255; 255; 255; 255; 255; 255; 255; 255; 255; 255; 255; 255;
   255; 255; 255; 255; 255; 255; 255; 255; 255; 255; 255; 255; 255; 255; 255; 255].

Definition b64_reverse (c : Z) : Z := nth (Z.to_nat c) TAMGA_B64_REVERSE 255.

(** Width of [uint_fast32_t] with glibc on the 64-bit targets. *)
Definition UINT_FAST32_BITS : Z := 64.

Definition tamga_base64_decoded_cap (encoded_len : Z) : option Z :=
  groups ← tamga_checked_add encoded_len 3; tamga_checked_mul (groups / 4) 3.

(** The padding loop: at most two trailing '=' are taken off [body]. *)
Fixpoint b64_strip_pad (fuel : nat) (pad : Z) (body : bytes) : Z * bytes :=
  match fuel with
  | O => (pad, body)
  | S f => if List.last body 0 =? 61 then b64_strip_pad f (pad + 1) (removelast body)
           else (pad, body)
  end.

(** The main loop: output, final accumulator and number of pending bits. *)
Fixpoint b64_loop (W : Z) (l : bytes) (accum accum_bits : Z) : option (bytes * Z * Z) :=
  match l with
  | [] => Some ([], accum, accum_bits)
  | c :: l' =>
      let sextet := b64_reverse c in
      if sextet =? 255 then None
      else
        let accum := Z.lor (Z.shiftl accum 6 mod 2 ^ W) sextet in
        let accum_bits := accum_bits + 6 in
        if accum_bits >=? 8 then
          let accum_bits := accum_bits - 8 in
          match b64_loop W l' accum accum_bits with
          | None => None
          | Some (out, a, n) => Some (Z.land (Z.shiftr accum accum_bits) 255 :: out, a, n)
          end
        else b64_loop W l' accum accum_bits
  end.

Definition tamga_base64_decode_w (W : Z) (input : option bytes) : option bytes :=
  match input with
  | None => None
  | Some [] => Some []
  | Some l =>
      let '(pad, body) := b64_strip_pad 2 0 l in
      if List.last body 0 =? 61 then None
      else if (pad >? 0) && negb ((zlen body + pad) mod 4 =? 0) then None
      else if zlen body mod 4 =? 1 then None
      else if (pad =? 1) && negb (zlen body mod 4 =? 3) then None
      else if (pad =? 2) && negb (zlen body mod 4 =? 2) then None
      else match b64_loop W body 0 0 with
      | None => None
      | Some (out, accum, accum_bits) =>
          if (accum_bits >? 0) &&
             negb (Z.land accum (Z.shiftl 1 accum_bits mod 2 ^ W - 1) =? 0)
          then None else Some out
      end
  end.

Definition tamga_base64_decode : option bytes -> option bytes :=
  tamga_base64_decode_w UINT_FAST32_BITS.

Inductive TamgaBase64Failure :=
| TAMGA_BASE64_FAILURE_MALFORMED
| TAMGA_BASE64_FAILURE_OUT_OF_MEMORY.

Definition tamga_base64_encoded_len (decoded_len : Z) : option Z :=
  groups ← tamga_checked_add decoded_len 2; tamga_checked_mul (groups / 3) 4.

(** [TAMGA_B64_ALPHABET[(triple >> shift) & 0x3F]] *)
Definition b64_char (triple shift : Z) : Z :=
  at_ TAMGA_B64_ALPHABET (Z.land (Z.shiftr triple shift) 63).

Fixpoint b64_encode_loop (l : bytes) : bytes :=
  match l with
  | a :: b :: c :: l' =>
      let triple := Z.lor (Z.lor (Z.shiftl a 16) (Z.shiftl b 8)) c in
      b64_char triple 18 :: b64_char triple 12 :: b64_char triple 6 :: b64_char triple 0
      :: b64_encode_loop l'
  | [a] =>
      let triple := Z.shiftl a 16 in
      [b64_char triple 18; b64_char triple 12; 61; 61]
  | [a; b] =>
      let triple := Z.lor (Z.shiftl a 16) (Z.shiftl b 8) in
      [b64_char triple 18; b64_char triple 12; b64_char triple 6; 61]
  | [] => []
  end.

Definition tamga_base64_encode (input : option bytes) : bytes :=
  match input with
  | None | Some [] => []
  | Some l => b64_encode_loop l
  end.

Section Alloc.
Context {malloc : Malloc}.

(** The bytes of the block past the decoded length are erased before it is
    returned; the result is the decoded prefix. *)
Definition tamga_base64_decode_alloc_why (input : option bytes)
  : M (TamgaBase64Failure + bytes) :=
  match input with
  | None => ret (inl TAMGA_BASE64_FAILURE_MALFORMED)
  | Some l =>
      match tamga_base64_decoded_cap (zlen l) with
      | None => ret (inl TAMGA_BASE64_FAILURE_MALFORMED)
      | Some cap =>
          let! ok := tamga_malloc cap in
          if ok : bool then
            match tamga_base64_decode (Some l) with
            | None => ret (inl TAMGA_BASE64_FAILURE_MALFORMED)
            | Some decoded => ret (inr decoded)
            end
          else ret (inl TAMGA_BASE64_FAILURE_OUT_OF_MEMORY)
      end
  end.

Definition tamga_base64_decode_alloc (input : option bytes) : M (option bytes) :=
  let! r := tamga_base64_decode_alloc_why input in
  ret (match r with inl _ => None | inr d => Some d end).

Definition tamga_base64_encode_alloc (input : option bytes) : M (option bytes) :=
  let in_len := match input with None => 0 | Some l => zlen l end in
  match (enc_len ← tamga_base64_encoded_len in_len; tamga_checked_add enc_len 1) with
  | None => ret None
  | Some total =>
      let! ok := tamga_malloc total in
      ret (if ok : bool then Some (tamga_base64_encode input) else None)
  end.

#[export] Instance quiet_decode_alloc l : Quiet (tamga_base64_decode_alloc_why l).
Proof. unfold tamga_base64_decode_alloc_why, tamga_malloc. quiet_tac. Qed.
End Alloc.

(** ** The decoder as a machine on its pending bits only *)

Fixpoint b64_abs (l : bytes) (r bits : Z) : option (bytes * Z * Z) :=
  match l with
  | [] => Some ([], r, bits)
  | c :: l' =>
      let v := b64_reverse c in
      if v =? 255 then None
      else
        let t := r * 64 + v in
        if bits + 6 >=? 8 then
          match b64_abs l' (t mod 2 ^ (bits - 2)) (bits - 2) with
          | None => None
          | Some (out, a, n) => Some (t / 2 ^ (bits - 2) :: out, a, n)
          end
        else b64_abs l' t (bits + 6)
  end.

Lemma reverse_range c : b64_reverse c <> 255 -> 0 <= b64_reverse c < 64.
Proof.
  intros H. unfold b64_reverse in *.
  destruct (nth_in_or_default (Z.to_nat c) TAMGA_B64_REVERSE 255) as [Hin|?]; [|done].
  revert H Hin. generalize (nth (Z.to_nat c) TAMGA_B64_REVERSE 255). intros v H Hin.
  assert (forallb (fun v => (v =? 255) || ((0 <=? v) && (v <? 64))) TAMGA_B64_REVERSE = true)
    as Hall by reflexivity.
  rewrite forallb_forall in Hall. specialize (Hall v Hin). lia.
Qed.

Lemma reverse_alphabet v : 0 <= v < 64 -> b64_reverse (at_ TAMGA_B64_ALPHABET v) = v.
Proof.
  intros Hv. apply Z.eqb_eq.
  revert v Hv. apply (below_forallb 64 (fun v => b64_reverse (at_ TAMGA_B64_ALPHABET v) =? v)).
  reflexivity.
Qed.

Lemma alphabet_reverse c : b64_reverse c <> 255 -> at_ TAMGA_B64_ALPHABET (b64_reverse c) = c.
Proof.
  intros H.
  assert (0 <= c < 256) as Hc.
  { destruct (Z_lt_ge_dec c 0).
    - destruct H. unfold b64_reverse. by destruct c.
    - split; [lia|]. destruct (Z_lt_ge_dec c 256); [done|]. destruct H. unfold b64_reverse.
      apply nth_overflow. change (length TAMGA_B64_REVERSE) with 256%nat. lia. }
  pose proof (below_forallb 256 (fun c => (b64_reverse c =? 255) ||
    (at_ TAMGA_B64_ALPHABET (b64_reverse c) =? c)) eq_refl c Hc). lia.
Qed.

Lemma alphabet_not_pad v : 0 <= v < 64 -> at_ TAMGA_B64_ALPHABET v <> 61.
Proof.
  intros Hv E. pose proof (reverse_alphabet v Hv) as H. rewrite E in H.
  change (b64_reverse 61) with 255 in H. lia.
Qed.

Section Width.
Context (W : Z) (HW : 32 <= W).

Lemma accum_step accum bits s :
  0 <= bits <= 6 -> 0 <= s < 64 ->
  let a := Z.lor (Z.shiftl accum 6 mod 2 ^ W) s in
  a mod 2 ^ (bits + 6) = accum mod 2 ^ bits * 64 + s.
Proof.
  intros Hb Hs a. subst a. rewrite Z.shiftl_mul_pow2 by lia.
  replace (2 ^ W) with (2 ^ (W - 6) * 2 ^ 6) by (rewrite <- Z.pow_add_r by lia; f_equal; lia).
  rewrite Z.mul_mod_distr_r by (try apply Z.pow_nonzero; lia).
  rewrite Z.lor_comm, lor_disjoint_add by lia.
  rewrite Z.pow_add_r, (Z.mul_comm (2 ^ bits)) by lia.
  assert (0 < 2 ^ bits) by (apply Z.pow_pos_nonneg; lia).
  rewrite Z.rem_mul_r by lia. change (2 ^ 6) with 64.
  rewrite Z.mod_add, Z.div_add, (Z.mod_small s), (Z.div_small s) by lia.
  rewrite Z.add_0_l, mod_mod_pow2 by lia. lia.
Qed.

Lemma b64_loop_abs l accum bits :
  0 <= bits <= 6 -> bits mod 2 = 0 ->
  match b64_loop W l accum bits, b64_abs l (accum mod 2 ^ bits) bits with
  | Some (o, a, n), Some (o', r, n') => o = o' /\ n = n' /\ (0 <= n <= 6 /\ n mod 2 = 0) /\ a mod 2 ^ n = r
  | None, None => True
  | _, _ => False
  end.
Proof.
  revert accum bits. induction l as [|c l IH]; intros accum bits Hb Heven; [done|].
  cbn [b64_loop b64_abs]. destruct (Z.eqb_spec (b64_reverse c) 255) as [|Hv]; [done|].
  pose proof (reverse_range c Hv) as Hr.
  pose proof (accum_step accum bits (b64_reverse c) Hb Hr) as Hstep. cbv zeta in Hstep.
  set (a := Z.lor _ _) in *.
  destruct (Z.geb_spec (bits + 6) 8) as [Hge|Hlt].
  - specialize (IH a (bits + 6 - 8) ltac:(lia) ltac:(zdm)).
    replace (bits + 6 - 8) with (bits - 2) in * by lia.
    rewrite <- Hstep. rewrite mod_mod_pow2 by lia.
    replace (a mod 2 ^ (bits + 6) / 2 ^ (bits - 2))
      with (Z.land (Z.shiftr a (bits - 2)) 255).
    2:{ change 255 with (2 ^ 8 - 1). rewrite land_mask, Z.shiftr_div_pow2 by lia.
        rewrite div_mod_pow2 by lia. f_equal. f_equal. f_equal. lia. }
    destruct (b64_loop W l a _) as [[[o a'] n]|], (b64_abs l _ _) as [[[o' r] n']|]; try done.
    by destruct IH as (-> & -> & ?).
  - specialize (IH a (bits + 6) ltac:(zdm) ltac:(zdm)). by rewrite Hstep in IH.
Qed.
End Width.

(** ** The encoder's sextets *)

Fixpoint b64_sextets (l : bytes) : list Z :=
  match l with
  | a :: b :: c :: l' =>
      a / 4 :: (a mod 4) * 16 + b / 16 :: (b mod 16) * 4 + c / 64 :: c mod 64 :: b64_sextets l'
  | [a; b] => [a / 4; (a mod 4) * 16 + b / 16; (b mod 16) * 4]
  | [a] => [a / 4; (a mod 4) * 16]
  | [] => []
  end.

Definition b64_unpadded (l : bytes) : bytes := map (at_ TAMGA_B64_ALPHABET) (b64_sextets l).
Definition b64_pad (l : bytes) : nat := Z.to_nat ((- zlen l) mod 3).

Lemma b64_char_div t n :
  0 <= n -> b64_char t n = at_ TAMGA_B64_ALPHABET (t / 2 ^ n mod 64).
Proof.
  intros. unfold b64_char. change 63 with (2 ^ 6 - 1).
  by rewrite land_mask, Z.shiftr_div_pow2 by lia.
Qed.

Lemma triple_value a b c :
  is_byte a -> is_byte b -> is_byte c ->
  Z.lor (Z.lor (Z.shiftl a 16) (Z.shiftl b 8)) c = a * 65536 + b * 256 + c.
Proof.
  unfold is_byte. intros. rewrite !Z.shiftl_mul_pow2 by lia.
  rewrite (Z.lor_comm (a * 2 ^ 16)). rewrite lor_disjoint_add by lia.
  replace (b * 2 ^ 8 + a * 2 ^ 16) with ((b + a * 256) * 2 ^ 8) by lia.
  rewrite Z.lor_comm, lor_disjoint_add by lia. lia.
Qed.

Lemma triple_value2 a b :
  is_byte a -> is_byte b -> Z.lor (Z.shiftl a 16) (Z.shiftl b 8) = a * 65536 + b * 256.
Proof.
  unfold is_byte. intros. rewrite !Z.shiftl_mul_pow2 by lia.
  rewrite (Z.lor_comm (a * 2 ^ 16)), lor_disjoint_add by lia. lia.
Qed.

(** Splits an equation of explicit list prefixes into arithmetic goals. *)
Ltac conses := repeat (apply (f_equal2 cons); [first [done | f_equal; zdm | zdm]|]); try done.

Lemma encode_sextets l :
  bytes_ok l -> b64_encode_loop l = b64_unpadded l ++ replicate (b64_pad l) 61.
Proof.
  unfold b64_unpadded. induction l as [|a|a b|a b c l IH] using list_triple_ind; intros Hl.
  - done.
  - inv Hl. unfold is_byte in *. change (b64_pad [a]) with 2%nat.
    cbn [b64_encode_loop b64_sextets map app replicate].
    rewrite !b64_char_div, Z.shiftl_mul_pow2 by lia. conses.
  - inv Hl. inv H2. change (b64_pad [a; b]) with 1%nat.
    cbn [b64_encode_loop b64_sextets map app replicate].
    rewrite !b64_char_div, triple_value2 by done. unfold is_byte in *. conses.
  - apply Forall_cons_1 in Hl as [Ha Hl]. apply Forall_cons_1 in Hl as [Hb Hl].
    apply Forall_cons_1 in Hl as [Hc Hl]. cbn [b64_encode_loop b64_sextets map app].
    rewrite IH by done. rewrite !b64_char_div, triple_value by done.
    replace (b64_pad (a :: b :: c :: l)) with (b64_pad l)
      by (unfold b64_pad; f_equal; simpl length; zdm).
    unfold is_byte in *. conses.
Qed.

Lemma sextets_range l : bytes_ok l -> Forall (fun v => 0 <= v < 64) (b64_sextets l).
Proof.
  unfold is_byte. induction l as [|a|a b|a b c l IH] using list_triple_ind; intros Hl.
  - constructor.
  - inv Hl. repeat constructor; zdm.
  - inv Hl. inv H2. repeat constructor; zdm.
  - inv Hl. inv H2. inv H4. cbn [b64_sextets]. repeat constructor; try zdm. auto.
Qed.

Lemma unpadded_length l : zlen (b64_unpadded l) = (4 * zlen l + 2) / 3.
Proof.
  unfold b64_unpadded. rewrite length_map.
  induction l as [|a|a b|a b c l IH] using list_triple_ind; try done.
  cbn [b64_sextets length]. zdm.
Qed.

(** ** What the decoder accepts *)

(** The body (without padding) decodes to [o] with nothing left over. *)
Definition abs_accept (body o : bytes) : Prop :=
  exists r n, b64_abs body 0 0 = Some (o, r, n) /\ (0 < n -> r = 0).

Lemma abs_quad c1 c2 c3 c4 l :
  b64_abs (c1 :: c2 :: c3 :: c4 :: l) 0 0 =
  if existsb (fun c => b64_reverse c =? 255) [c1; c2; c3; c4] then None
  else
    let v := b64_reverse in
    match b64_abs l 0 0 with
    | None => None
    | Some (o, a, n) =>
        Some (v c1 * 4 + v c2 / 16 :: (v c2 mod 16) * 16 + v c3 / 4 ::
              (v c3 mod 4) * 64 + v c4 :: o, a, n)
    end.
Proof.
  cbn [b64_abs existsb].
  destruct (Z.eqb_spec (b64_reverse c1) 255) as [|H1]; [done|].
  destruct (Z.eqb_spec (b64_reverse c2) 255) as [|H2]; [done|].
  destruct (Z.eqb_spec (b64_reverse c3) 255) as [|H3]; [done|].
  destruct (Z.eqb_spec (b64_reverse c4) 255) as [|H4]; [done|].
  apply reverse_range in H1, H2, H3, H4.
  change (0 + 6 >=? 8) with false. change (0 + 6 + 6 >=? 8) with true. cbv iota beta zeta.
  change (0 + 6 - 2) with 4. change (4 + 6 >=? 8) with true. change (4 - 2) with 2. cbv iota.
  change (2 + 6 >=? 8) with true. change (2 - 2) with 0. change (2 ^ 4) with 16.
  change (2 ^ 2) with 4. change (2 ^ 0) with 1. cbv iota. rewrite !Z.mod_1_r, !Z.div_1_r.
  destruct (b64_abs l 0 0) as [[[o a] n]|]; [|done]. simpl orb. cbv iota.
  do 2 f_equal. f_equal. conses.
Qed.

Lemma abs_pair c1 c2 o :
  abs_accept [c1; c2] o <->
  b64_reverse c1 <> 255 /\ b64_reverse c2 <> 255 /\ b64_reverse c2 mod 16 = 0 /\
  o = [b64_reverse c1 * 4 + b64_reverse c2 / 16].
Proof.
  unfold abs_accept. cbn [b64_abs].
  destruct (Z.eqb_spec (b64_reverse c1) 255) as [|H1]; [split; [by intros (? & ? & ? & _)|tauto]|].
  destruct (Z.eqb_spec (b64_reverse c2) 255) as [|H2]; [split; [by intros (? & ? & ? & _)|tauto]|].
  apply reverse_range in H1 as R1. apply reverse_range in H2 as R2.
  change (0 + 6 >=? 8) with false. change (0 + 6 + 6 >=? 8) with true. cbv iota beta zeta.
  change (0 + 6 - 2) with 4. change (2 ^ 4) with 16. split.
  - intros (r & n & [= <- <- <-] & Hr). specialize (Hr ltac:(lia)).
    split_and!; try done; [zdm|]. f_equal. zdm.
  - intros (_ & _ & Hz & ->). do 2 eexists. split; [|intros _].
    + do 2 f_equal. f_equal. conses.
    + zdm.
Qed.

Lemma abs_triple c1 c2 c3 o :
  abs_accept [c1; c2; c3] o <->
  b64_reverse c1 <> 255 /\ b64_reverse c2 <> 255 /\ b64_reverse c3 <> 255 /\
  b64_reverse c3 mod 4 = 0 /\
  o = [b64_reverse c1 * 4 + b64_reverse c2 / 16; (b64_reverse c2 mod 16) * 16 + b64_reverse c3 / 4].
Proof.
  unfold abs_accept. cbn [b64_abs].
  destruct (Z.eqb_spec (b64_reverse c1) 255) as [|H1]; [split; [by intros (? & ? & ? & _)|tauto]|].
  destruct (Z.eqb_spec (b64_reverse c2) 255) as [|H2]; [split; [by intros (? & ? & ? & _)|tauto]|].
  destruct (Z.eqb_spec (b64_reverse c3) 255) as [|H3]; [split; [by intros (? & ? & ? & _)|tauto]|].
  apply reverse_range in H1 as R1. apply reverse_range in H2 as R2. apply reverse_range in H3 as R3.
  change (0 + 6 >=? 8) with false. change (0 + 6 + 6 >=? 8) with true. cbv iota beta zeta.
  change (0 + 6 - 2) with 4. change (4 + 6 >=? 8) with true. change (4 - 2) with 2. cbv iota.
  change (2 ^ 4) with 16. change (2 ^ 2) with 4. split.
  - intros (r & n & [= <- <- <-] & Hr). specialize (Hr ltac:(lia)).
    split_and!; try done; [zdm|]. conses.
  - intros (_ & _ & _ & Hz & ->). do 2 eexists. split; [|intros _].
    + do 2 f_equal. f_equal. conses.
    + zdm.
Qed.

Lemma abs_accept_sound body o :
  zlen body mod 4 <> 1 -> abs_accept body o -> bytes_ok o /\ body = b64_unpadded o.
Proof.
  unfold b64_unpadded, is_byte. revert o.
  induction body as [|c1|c1 c2|c1 c2 c3|c1 c2 c3 c4 l IH] using list_quad_ind; intros o Hlen Hacc.
  - destruct Hacc as (r & n & [= <- _ _] & _). done.
  - done.
  - apply abs_pair in Hacc as (H1 & H2 & Hz & ->).
    pose proof (alphabet_reverse c1 H1) as E1. pose proof (alphabet_reverse c2 H2) as E2.
    apply reverse_range in H1, H2. split; [repeat constructor; zdm|].
    cbn [b64_sextets map]. rewrite <- E1, <- E2 at 1. conses.
  - apply abs_triple in Hacc as (H1 & H2 & H3 & Hz & ->).
    pose proof (alphabet_reverse c1 H1) as E1. pose proof (alphabet_reverse c2 H2) as E2.
    pose proof (alphabet_reverse c3 H3) as E3.
    apply reverse_range in H1, H2, H3. split; [repeat constructor; zdm|].
    cbn [b64_sextets map]. rewrite <- E1, <- E2, <- E3 at 1. conses.
  - destruct Hacc as (r & n & Habs & Hr). rewrite abs_quad in Habs.
    destruct (existsb _ _) eqn:Hex; [done|]. cbv zeta in Habs.
    destruct (b64_abs l 0 0) as [[[o' a] m]|] eqn:Hl; [|done]. injection Habs as <- <- <-.
    cbn [existsb] in Hex. rewrite !orb_false_iff, !Z.eqb_neq in Hex.
    destruct Hex as (H1 & H2 & H3 & H4 & _).
    pose proof (alphabet_reverse c1 H1) as E1. pose proof (alphabet_reverse c2 H2) as E2.
    pose proof (alphabet_reverse c3 H3) as E3. pose proof (alphabet_reverse c4 H4) as E4.
    apply reverse_range in H1, H2, H3, H4.
    destruct (IH o') as [Hok ->]; [simpl length in Hlen; zdm|by exists a, m|].
    split; [repeat constructor; try zdm; done|]. cbn [b64_sextets map].
    rewrite <- E1, <- E2, <- E3, <- E4 at 1. conses.
Qed.

Lemma abs_accept_complete o : bytes_ok o -> abs_accept (b64_unpadded o) o.
Proof.
  unfold b64_unpadded. induction o as [|a|a b|a b c o IH] using list_triple_ind; intros Ho.
  - by exists 0, 0.
  - inv Ho. unfold is_byte in *. apply abs_pair. rewrite !reverse_alphabet by zdm.
    split_and!; try zdm. f_equal. zdm.
  - inv Ho. inv H2. unfold is_byte in *. apply abs_triple. rewrite !reverse_alphabet by zdm.
    split_and!; try zdm. conses.
  - inv Ho. inv H2. inv H4. unfold is_byte in *. destruct (IH H5) as (r & n & Habs & Hr).
    exists r, n. split; [|done]. cbn [b64_sextets map]. rewrite abs_quad, Habs.
    cbn [existsb]. rewrite !reverse_alphabet by zdm. cbv zeta.
    replace (_ || _) with false by (symmetry; rewrite !orb_false_iff, !Z.eqb_neq; zdm).
    do 2 f_equal. f_equal. conses.
Qed.

(** ** Padding *)

Lemma last_snoc (l : bytes) x : List.last (l ++ [x]) 0 = x.
Proof. apply last_last. Qed.

Lemma strip_pad_spec fuel pad l p b :
  b64_strip_pad fuel pad l = (p, b) ->
  exists k, (k <= fuel)%nat /\ p = pad + Z.of_nat k /\ l = b ++ replicate k 61 /\
            ((k < fuel)%nat -> List.last b 0 <> 61).
Proof.
  revert pad l. induction fuel as [|f IH]; intros pad l; simpl.
  - intros [= <- <-]. exists O. rewrite app_nil_r. split_and!; [lia..|done|lia].
  - destruct (Z.eqb_spec (List.last l 0) 61) as [Hl|Hl].
    + intros H. apply IH in H as (k & Hk & -> & Hr & Hlast). exists (S k).
      split_and!; [lia|lia| |intros; apply Hlast; lia].
      rewrite (app_removelast_last 0 (l := l)), Hr, Hl by (by intros ->).
      by rewrite replicate_S_end, app_assoc.
    + intros [= <- <-]. exists O. rewrite app_nil_r. split_and!; [lia..|done|done].
Qed.

Lemma strip_pad_app k b :
  (k <= 2)%nat -> List.last b 0 <> 61 -> b64_strip_pad 2 0 (b ++ replicate k 61) = (Z.of_nat k, b).
Proof.
  intros Hk Hb%Z.eqb_neq. destruct k as [|[|[|]]]; [| | |lia]; simpl replicate.
  - rewrite app_nil_r. cbn [b64_strip_pad]. by rewrite Hb.
  - cbn [b64_strip_pad]. by rewrite last_snoc, removelast_last, Z.eqb_refl, Hb.
  - change [61; 61] with ([61] ++ [61]). rewrite app_assoc. cbn [b64_strip_pad].
    by rewrite last_snoc, removelast_last, Z.eqb_refl, last_snoc, removelast_last.
Qed.

Lemma unpadded_last o : bytes_ok o -> List.last (b64_unpadded o) 0 <> 61.
Proof.
  intros Ho. apply sextets_range in Ho. unfold b64_unpadded.
  destruct (b64_sextets o) as [|v l] eqn:E using rev_ind; [done|].
  rewrite map_app. simpl. rewrite last_snoc.
  apply Forall_app in Ho as [_ Hv]. inv Hv. by apply alphabet_not_pad.
Qed.

Lemma pad_length o :
  (zlen (b64_unpadded o) mod 4 = 0 /\ b64_pad o = 0%nat) \/
  (zlen (b64_unpadded o) mod 4 = 3 /\ b64_pad o = 1%nat) \/
  (zlen (b64_unpadded o) mod 4 = 2 /\ b64_pad o = 2%nat).
Proof. rewrite unpadded_length. unfold b64_pad. zdm. Qed.

Lemma encode_unpadded o :
  bytes_ok o -> tamga_base64_encode (Some o) = b64_unpadded o ++ replicate (b64_pad o) 61.
Proof. intros Ho. rewrite <- encode_sextets by done. by destruct o. Qed.

Section WidthIndependence.
Context (W : Z) (HW : 32 <= W).

(** The loop and the remainder check accept exactly the unpadded
    encodings. *)
Lemma body_check body :
  match b64_loop W body 0 0 with
  | None => None
  | Some (out, accum, accum_bits) =>
      if (accum_bits >? 0) && negb (Z.land accum (Z.shiftl 1 accum_bits mod 2 ^ W - 1) =? 0)
      then None else Some out
  end =
  match b64_abs body 0 0 with
  | None => None
  | Some (o, r, n) => if (0 <? n) && negb (r =? 0) then None else Some o
  end.
Proof.
  pose proof (b64_loop_abs W HW body 0 0 ltac:(lia) eq_refl) as H.
  change (0 mod 2 ^ 0) with 0 in H.
  destruct (b64_loop W body 0 0) as [[[o a] n]|], (b64_abs body 0 0) as [[[o' r] n']|]; try done.
  destruct H as (<- & <- & [Hn _] & <-).
  rewrite Z.shiftl_mul_pow2, Z.mul_1_l by lia.
  rewrite (Z.mod_small (2 ^ n)).
  2:{ split; [apply Z.pow_nonneg; lia|apply Z.pow_lt_mono_r; lia]. }
  rewrite land_mask by lia. by rewrite Z.gtb_ltb.
Qed.

Lemma abs_accept_iff body o :
  match b64_abs body 0 0 with
  | None => None
  | Some (o, r, n) => if (0 <? n) && negb (r =? 0) then None else Some o
  end = Some o <-> abs_accept body o.
Proof.
  unfold abs_accept. destruct (b64_abs body 0 0) as [[[o' r] n]|]; [|split; [done|by intros (? & ? & ? & _)]].
  destruct ((0 <? n) && negb (r =? 0)) eqn:E; split.
  - done.
  - intros (r' & n' & [= -> -> ->] & Hr). lia.
  - intros [= <-]. exists r, n. split; [done|]. lia.
  - intros (r' & n' & [= -> -> ->] & Hr). done.
Qed.

Lemma decode_w_sound l o :
  tamga_base64_decode_w W (Some l) = Some o ->
  bytes_ok o /\ (l = tamga_base64_encode (Some o) \/ l = b64_unpadded o).
Proof.
  destruct l as [|c l']; [intros [= <-]; split; [constructor|by left]|].
  unfold tamga_base64_decode_w. set (l := c :: l').
  destruct (b64_strip_pad 2 0 l) as [pad body] eqn:Hs.
  apply strip_pad_spec in Hs as (k & Hk & -> & Hl & Hlast). rewrite body_check.
  repeat (case_match; [done|]). intros Hacc. apply abs_accept_iff in Hacc.
  apply abs_accept_sound in Hacc as [Ho Hbody]; [|lia]. split; [done|].
  rewrite encode_unpadded by done. rewrite Hl. rewrite Hbody in *.
  destruct (pad_length o) as [[Hp ->]|[[Hp ->]|[Hp ->]]];
    destruct k as [|[|[|]]]; simpl replicate; rewrite ?app_nil_r; auto; lia.
Qed.

Lemma decode_w_complete o k :
  bytes_ok o -> k = O \/ k = b64_pad o ->
  tamga_base64_decode_w W (Some (b64_unpadded o ++ replicate k 61)) = Some o.
Proof.
  intros Ho Hk. unfold tamga_base64_decode_w.
  destruct (b64_unpadded o ++ replicate k 61) as [|c l] eqn:E.
  { apply app_eq_nil in E as [E _]. pose proof (unpadded_length o) as Hlen. rewrite E in Hlen.
    destruct o; [done|]. simpl length in Hlen. zdm. }
  rewrite <- E. clear c l E. pose proof (pad_length o) as Hpad.
  rewrite strip_pad_app by (try apply unpadded_last; try done; lia).
  rewrite body_check. rewrite (proj2 (Z.eqb_neq _ _) (unpadded_last o Ho)).
  assert (zlen (b64_unpadded o) mod 4 =? 1 = false) as -> by lia.
  replace ((Z.of_nat k >? 0) && _) with false by zdm.
  replace ((Z.of_nat k =? 1) && _) with false by lia.
  replace ((Z.of_nat k =? 2) && _) with false by lia.
  apply abs_accept_iff. by apply abs_accept_complete.
Qed.
End WidthIndependence.

(** (C33) Strict decoding. Whatever the width of the accumulator, the decoder
    accepts a text exactly when it is the canonical encoding of some bytes,
    or that encoding without its padding, and returns those bytes. In
    particular decoding inverts encoding, and no two different byte strings
    share an encoding. *)
Theorem base64_decode_iff W l o :
  32 <= W ->
  tamga_base64_decode_w W (Some l) = Some o <->
  bytes_ok o /\ (l = tamga_base64_encode (Some o) \/
                 l ++ replicate (b64_pad o) 61 = tamga_base64_encode (Some o)).
Proof.
  intros HW. split.
  - intros H. apply decode_w_sound in H as [Ho [->| ->]]; [auto| |done].
    split; [done|]. right. by rewrite encode_unpadded.
  - intros [Ho Hl]. rewrite encode_unpadded in Hl by done. destruct Hl as [->|Hl].
    + apply decode_w_complete; auto.
    + apply app_inv_tail in Hl as ->.
      rewrite <- (app_nil_r (b64_unpadded o)). apply (decode_w_complete W HW o 0); auto.
Qed.

Lemma base64_decode_iff_witness :
  tamga_base64_decode_w 32 (Some (bstr "SGVsbG8=")) = Some (bstr "Hello").
Proof.
  apply (proj2 (base64_decode_iff 32 (bstr "SGVsbG8=") (bstr "Hello") ltac:(lia))).
  split; [repeat constructor; vm_compute; congruence|]. left. reflexivity.
Defined.

Lemma decode_encode o : bytes_ok o -> tamga_base64_decode (Some (tamga_base64_encode (Some o))) = Some o.
Proof.
  intros Ho. rewrite encode_unpadded by done. apply decode_w_complete; auto.
  unfold UINT_FAST32_BITS. lia.
Qed.

(** The output buffer is large enough. [tamga_base64_decode_alloc_why]
    allocates [tamga_base64_decoded_cap] bytes; whenever the capacity is
    computed without overflow, what the decoder writes fits in it. *)
Theorem base64_decode_fits l o cap :
  tamga_base64_decode (Some l) = Some o ->
  tamga_base64_decoded_cap (zlen l) = Some cap ->
  zlen o <= cap <= SIZE_MAX.
Proof.
  intros Hd Hc. apply bind_Some in Hc as (g & Hg & Hc).
  apply checked_add_Some in Hg as [-> Hg]. apply checked_mul_Some in Hc as [-> Hc]; [|zdm..].
  split; [|done]. apply decode_w_sound in Hd as [Ho Hl]; [|unfold UINT_FAST32_BITS; lia].
  pose proof (unpadded_length o) as Hlen.
  assert (zlen (b64_unpadded o) <= zlen l); [|zdm].
  rewrite encode_unpadded in Hl by done. destruct Hl as [->| ->]; [|lia].
  rewrite length_app. lia.
Qed.

Lemma base64_decode_fits_witness :
  zlen (bstr "Hello") <= 6 <= SIZE_MAX.
Proof.
  apply (base64_decode_fits (bstr "SGVsbG8=") (bstr "Hello") 6); vm_compute; reflexivity.
Defined.
