(* ===== verification/Rfc3339.v ===== *)
(** * RFC 3339 timestamps: [src/src/util/rfc3339.c]

    Strings are C strings: reading at the length yields the terminator, which
    [at_] gives as 0. [unsigned int] arithmetic is wrapped at 32 bits and
    [int64_t] division truncates ([Z.quot], [Z.rem]). *)

From Stdlib Require Import String.
From S2P Require Import Prelude.

(** [tamga_read_uint(s, digits, &out)] on the span of [digits] characters. *)
Fixpoint read_uint_loop (l : bytes) (value : Z) : option Z :=
  match l with
  | [] => Some value
  | c :: l' =>
      if (c <? 48) || (c >? 57) then None
      else read_uint_loop l' (u32 (u32 (value * 10) + (c - 48)))
  end.
Definition tamga_read_uint (s : bytes) (digits : nat) : option Z :=
  read_uint_loop (take digits s) 0.

Definition tamga_is_leap_year (year : Z) : bool :=
  ((Z.rem year 4 =? 0) && negb (Z.rem year 100 =? 0)) || (Z.rem year 400 =? 0).

Definition month_lengths : list Z := [31; 28; 31; 30; 31; 30; 31; 31; 30; 31; 30; 31].

Definition tamga_days_in_month (year month : Z) : Z :=
  if (month <? 1) || (month >? 12) then 0
  else if (month =? 2) && tamga_is_leap_year year then 29
  else at_ month_lengths (month - 1).

Definition tamga_days_from_civil (year month day : Z) : Z :=
  let y := year - (if month <=? 2 then 1 else 0) in
  let era := Z.quot (if y >=? 0 then y else y - 399) 400 in
  let yoe := y - era * 400 in
  let doy := u32 (u32 (153 * (if month >? 2 then month - 3 else month + 9)) + 2) / 5 + day - 1 in
  let doe := yoe * 365 + Z.quot yoe 4 - Z.quot yoe 100 + doy in
  era * 146097 + doe - 719468.

(** The digits after a '.': [pos] after them, [None] when there is none. *)
Fixpoint skip_digits (fuel : nat) (str : bytes) (pos : Z) : Z :=
  match fuel with
  | O => pos
  | S f => if (pos <? zlen str) && (at_ str pos >=? 48) && (at_ str pos <=? 57)
           then skip_digits f str (pos + 1) else pos
  end.

Definition skip_fraction (str : bytes) (pos : Z) : option Z :=
  if at_ str pos =? 46 then
    let start := pos + 1 in
    let pos := skip_digits (length str) str start in
    if pos =? start then None else Some pos
  else Some pos.

(** The offset in seconds that the suffix at [pos] states. *)
Definition parse_zone (str : bytes) (pos : Z) : option Z :=
  if pos >=? zlen str then None
  else if (at_ str pos =? 90) || (at_ str pos =? 122) then
    if pos + 1 =? zlen str then Some 0 else None
  else if (at_ str pos =? 43) || (at_ str pos =? 45) then
    let sign := if at_ str pos =? 45 then -1 else 1 in
    if negb (pos + 6 =? zlen str) then None
    else
      off_hour ← tamga_read_uint (drop (Z.to_nat (pos + 1)) str) 2;
      if negb (at_ str (pos + 3) =? 58) then None
      else
        off_minute ← tamga_read_uint (drop (Z.to_nat (pos + 4)) str) 2;
        if (off_hour >? 23) || (off_minute >? 59) then None
        else Some (sign * (off_hour * 3600 + off_minute * 60))
  else None.

Definition tamga_rfc3339_parse (s : option bytes) : option Z :=
  match s with
  | None => None
  | Some str =>
      if zlen str <? 20 then None else
      year ← tamga_read_uint str 4;
      if negb (at_ str 4 =? 45) then None else
      month ← tamga_read_uint (drop 5 str) 2;
      if negb (at_ str 7 =? 45) then None else
      day ← tamga_read_uint (drop 8 str) 2;
      if negb (at_ str 10 =? 84) && negb (at_ str 10 =? 116) then None else
      hour ← tamga_read_uint (drop 11 str) 2;
      if negb (at_ str 13 =? 58) then None else
      minute ← tamga_read_uint (drop 14 str) 2;
      if negb (at_ str 16 =? 58) then None else
      second ← tamga_read_uint (drop 17 str) 2;
      pos ← skip_fraction str 19;
      offset_seconds ← parse_zone str pos;
      if (month <? 1) || (month >? 12) then None
      else if (day <? 1) || (day >? tamga_days_in_month year month) then None
      else if (hour >? 23) || (minute >? 59) then None
      else if second >? 60 then None
      else
        let second := if second =? 60 then 59 else second in
        let days := tamga_days_from_civil year month day in
        let seconds := days * 86400 + hour * 3600 + minute * 60 + second in
        Some (seconds - offset_seconds)
  end.

(** [now] is what [time(NULL)] returned, [None] for [(time_t)-1]. *)
Definition tamga_time_now_unix (now : option Z) : option Z :=
  match now with
  | None => None
  | Some t => if t <? 0 then None else Some t
  end.

(** ** The civil calendar *)

(** The proleptic Gregorian calendar, written apart from the code: which years
    are leap years, how long a month and a year are, and the number of a day by
    counting the days of the years and months before it. *)
Definition cal_leap (y : Z) : bool := (y mod 4 =? 0) && (negb (y mod 100 =? 0) || (y mod 400 =? 0)).

Definition cal_month (y m : Z) : Z :=
  match m with
  | 2 => if cal_leap y then 29 else 28
  | 4 | 6 | 9 | 11 => 30
  | _ => 31
  end.

Definition cal_year (y : Z) : Z := if cal_leap y then 366 else 365.

(** Days of the years 0 to [n - 1], and of the first [n] months of year [y]. *)
Fixpoint days_of_years (n : nat) : Z :=
  match n with O => 0 | S k => days_of_years k + cal_year (Z.of_nat k) end.
Fixpoint days_of_months (y : Z) (n : nat) : Z :=
  match n with O => 0 | S k => days_of_months y k + cal_month y (Z.of_nat k + 1) end.

(** Days from 0000-01-01, and days from 1970-01-01. *)
Definition day_number (y m d : Z) : Z :=
  days_of_years (Z.to_nat y) + days_of_months y (Z.to_nat (m - 1)) + (d - 1).
Definition unix_day (y m d : Z) : Z := day_number y m d - day_number 1970 1 1.

Definition valid_date (y m d : Z) : Prop :=
  1 <= m <= 12 /\ 1 <= d <= cal_month y m.

(** The date after [(y, m, d)]. *)
Definition next_date (y m d : Z) : Z * Z * Z :=
  if d <? cal_month y m then (y, m, d + 1)
  else if m <? 12 then (y, m + 1, 1)
  else (y + 1, 1, 1).

Lemma leap_year_mod y :
  tamga_is_leap_year y = ((y mod 4 =? 0) && negb (y mod 100 =? 0)) || (y mod 400 =? 0).
Proof.
  unfold tamga_is_leap_year.
  assert (forall n, 0 < n -> (Z.rem y n =? 0) = (y mod n =? 0)) as H.
  { intros n Hn. destruct (Z.eqb_spec (Z.rem y n) 0) as [E|E], (Z.eqb_spec (y mod n) 0) as [F|F]; try done.
    - destruct F. apply Z.rem_divide in E; [|lia]. by apply Z.mod_divide; [lia|].
    - destruct E. apply Z.rem_divide; [lia|]. by apply Z.mod_divide in F; [|lia]. }
  by rewrite !H by lia.
Qed.

Lemma era_floor y : Z.quot (if y >=? 0 then y else y - 399) 400 = y / 400.
Proof. destruct (Z.geb_spec y 0); Z.to_euclidean_division_equations; lia. Qed.

(** Days from the start of the era to 1 March of year-of-era [n]. *)
Definition era_days (y : Z) : Z :=
  (y / 400) * 146097 + (y mod 400) * 365 + (y mod 400) / 4 - (y mod 400) / 100.

Lemma days_from_civil_era y m d :
  tamga_days_from_civil y m d =
  era_days (if m <=? 2 then y - 1 else y)
  + (u32 (u32 (153 * (if m >? 2 then m - 3 else m + 9)) + 2) / 5 + d - 1) - 719468.
Proof.
  unfold tamga_days_from_civil, era_days. rewrite era_floor.
  set (y' := y - _). replace (if m <=? 2 then y - 1 else y) with y' by (subst y'; dif; lia).
  replace (y' - y' / 400 * 400) with (y' mod 400) by zdm.
  rewrite !Z.quot_div_nonneg by zdm. lia.
Qed.

Lemma era_days_step y :
  era_days (y + 1) = era_days y + if tamga_is_leap_year (y + 1) then 366 else 365.
Proof.
  rewrite leap_year_mod. unfold era_days.
  destruct (_ || _) eqn:E; zdm.
Qed.

(** Day of the March-based year on which month [m] starts, and the length of
    month [m]. *)
Definition month_start (m : Z) : Z :=
  u32 (u32 (153 * (if m >? 2 then m - 3 else m + 9)) + 2) / 5.
Definition month_days (leap : bool) (m : Z) : Z :=
  if (m =? 2) && leap then 29 else at_ month_lengths (m - 1).

Lemma days_in_month_eq y m :
  1 <= m <= 12 -> tamga_days_in_month y m = month_days (tamga_is_leap_year y) m.
Proof. intros. unfold tamga_days_in_month. by replace ((m <? 1) || (m >? 12)) with false by lia. Qed.

Lemma leap_year_cal y : tamga_is_leap_year y = cal_leap y.
Proof.
  rewrite leap_year_mod. unfold cal_leap.
  destruct (Z.eqb_spec (y mod 4) 0), (Z.eqb_spec (y mod 100) 0), (Z.eqb_spec (y mod 400) 0); try done; zdm.
Qed.

(** A month between 1 and 12 is one of the twelve numbers. *)
Ltac each_month m H :=
  assert (m = 1 \/ m = 2 \/ m = 3 \/ m = 4 \/ m = 5 \/ m = 6 \/ m = 7 \/ m = 8 \/ m = 9 \/ m = 10 \/ m = 11 \/ m = 12)
    as H by lia; destruct H as [->|[->|[->|[->|[->|[->|[->|[->|[->|[->|[->| ->]]]]]]]]]]].

Lemma month_days_cal y m : 1 <= m <= 12 -> month_days (tamga_is_leap_year y) m = cal_month y m.
Proof. intros Hm. rewrite leap_year_cal. unfold cal_month. each_month m H; by destruct (cal_leap y). Qed.

Lemma days_in_month_cal y m : 1 <= m <= 12 -> tamga_days_in_month y m = cal_month y m.
Proof. intros Hm. by rewrite days_in_month_eq, month_days_cal. Qed.

(** The twelve months, checked by evaluation: every month but February runs up
    to the start of the next, and February to the end of the March-based
    year. *)
Definition month_check (m : Z) : bool :=
  forallb (fun leap =>
    (1 <=? month_days leap m) &&
    (month_start m + month_days leap m =?
     if m =? 2 then (if leap then 366 else 365) else if m =? 12 then month_start 1 else month_start (m + 1)))
    [true; false].

Lemma months_ok m leap :
  1 <= m <= 12 ->
  1 <= month_days leap m /\
  month_start m + month_days leap m =
  if m =? 2 then (if leap then 366 else 365)
  else if m =? 12 then month_start 1 else month_start (m + 1).
Proof.
  intros Hm. pose proof (below_forallb 13 (fun m => (m =? 0) || month_check m) eq_refl m ltac:(lia)) as H.
  apply orb_true_iff in H as [H|H]; [lia|]. unfold month_check in H. rewrite forallb_forall in H.
  specialize (H leap ltac:(destruct leap; simpl; auto)). lia.
Qed.

Lemma days_from_civil_months y m d :
  tamga_days_from_civil y m d =
  era_days (if m <=? 2 then y - 1 else y) + month_start m + d - 719469.
Proof. rewrite days_from_civil_era. unfold month_start. lia. Qed.

Lemma era_days_years n : era_days (Z.of_nat n - 1) = days_of_years n + era_days (-1).
Proof.
  induction n as [|n IH]; [done|]. cbn [days_of_years]. unfold cal_year. rewrite <- leap_year_cal.
  pose proof (era_days_step (Z.of_nat n - 1)) as H. rewrite Z.sub_add in H. rewrite IH in H.
  replace (Z.of_nat (S n) - 1) with (Z.of_nat n) by lia. lia.
Qed.

Lemma month_start_cal y m :
  1 <= m <= 12 ->
  month_start m =
  days_of_months y (Z.to_nat (m - 1)) + if m <=? 2 then 306 else if cal_leap y then -60 else -59.
Proof.
  intros Hm. each_month m H; cbn [Z.sub Z.opp Z.add Z.pos_sub Pos.pred_double Z.to_nat];
    (cbv [days_of_months cal_month]; simpl Z.of_nat; simpl Z.add; destruct (cal_leap y); vm_compute; reflexivity).
Qed.

Lemma day_number_epoch : day_number 1970 1 1 = 719528.
Proof. vm_compute. reflexivity. Qed.

(** The closed formula of [tamga_days_from_civil] is the count of days. *)
Lemma days_from_civil_unix y m d :
  0 <= y -> 1 <= m <= 12 -> tamga_days_from_civil y m d = unix_day y m d.
Proof.
  intros Hy Hm. rewrite days_from_civil_months. unfold unix_day. rewrite day_number_epoch. unfold day_number.
  pose proof (era_days_years (Z.to_nat y)) as E. rewrite Z2Nat.id in E by done.
  pose proof (era_days_step (y - 1)) as H. rewrite Z.sub_add, leap_year_cal in H.
  change (era_days (-1)) with (-366) in E. rewrite (month_start_cal y m Hm).
  destruct (Z.leb_spec m 2), (cal_leap y); lia.
Qed.

(** [tamga_days_from_civil] counts days: 1970-01-01 is day 0 and the
    calendar successor of any valid date, over month ends, leap days and
    year ends of every year, is one day later. *)
Theorem days_from_civil_counts y m d :
  valid_date y m d ->
  tamga_days_from_civil 1970 1 1 = 0 /\
  let '(y', m', d') := next_date y m d in
  valid_date y' m' d' /\
  tamga_days_from_civil y' m' d' = tamga_days_from_civil y m d + 1.
Proof.
  intros [Hm Hd]. split; [reflexivity|]. unfold next_date, valid_date.
  rewrite <- (month_days_cal y m) in * by lia.
  pose proof (months_ok m (tamga_is_leap_year y) Hm) as [_ Hnext].
  destruct (Z.ltb_spec d (month_days (tamga_is_leap_year y) m)) as [Hlt|Hge].
  { split; [rewrite <- month_days_cal by lia; lia|]. rewrite !days_from_civil_months. lia. }
  pose proof (era_days_step (y - 1)) as Hstep. replace (y - 1 + 1) with y in Hstep by lia.
  destruct (Z.ltb_spec m 12) as [H12|H12].
  - rewrite <- month_days_cal by lia.
    pose proof (months_ok (m + 1) (tamga_is_leap_year y) ltac:(lia)) as [Hpos _].
    split; [lia|]. rewrite !days_from_civil_months.
    destruct (Z.eqb_spec m 2) as [->|H2].
    + change (month_start (2 + 1)) with 0. change (2 + 1 <=? 2) with false.
      change (2 <=? 2) with true. cbv iota. lia.
    + rewrite (proj2 (Z.eqb_neq m 12)) in Hnext by lia.
      replace (m + 1 <=? 2) with (m <=? 2) by lia. lia.
  - assert (m = 12) as -> by lia. rewrite <- month_days_cal by lia.
    pose proof (months_ok 1 (tamga_is_leap_year (y + 1)) ltac:(lia)) as [Hpos _].
    split; [lia|]. rewrite !days_from_civil_months.
    change (1 <=? 2) with true. change (12 <=? 2) with false. cbv iota.
    change (12 =? 2) with false in Hnext. change (12 =? 12) with true in Hnext. cbv iota in Hnext.
    replace (y + 1 - 1) with y by lia. lia.
Qed.

Lemma days_from_civil_counts_witness :
  tamga_days_from_civil 2000 3 1 = tamga_days_from_civil 2000 2 29 + 1.
Proof.
  refine (proj2 (proj2 (days_from_civil_counts 2000 2 29 _))).
  split; vm_compute; (split; congruence).
Defined.

(** ** The grammar the parser accepts *)

Definition is_digit (c : Z) : bool := (48 <=? c) && (c <=? 57).
Definition d2 (v : Z) : bytes := [48 + v / 10; 48 + v mod 10].
Definition d4 (v : Z) : bytes := d2 (v / 100) ++ d2 (v mod 100).

Inductive zone := Utc (c : Z) | Offset (minus : bool) (h m : Z).
Definition zone_text (z : zone) : bytes :=
  match z with
  | Utc c => [c]
  | Offset minus h m => [if minus then 45 else 43] ++ d2 h ++ [58] ++ d2 m
  end.
Definition zone_ok (z : zone) : Prop :=
  match z with
  | Utc c => c = 90 \/ c = 122
  | Offset _ h m => 0 <= h <= 23 /\ 0 <= m <= 59
  end.
Definition zone_seconds (z : zone) : Z :=
  match z with
  | Utc _ => 0
  | Offset minus h m => (if minus then -1 else 1) * (h * 3600 + m * 60)
  end.

Definition frac_text (f : option bytes) : bytes := match f with None => [] | Some ds => 46 :: ds end.
Definition frac_ok (f : option bytes) : Prop :=
  match f with None => True | Some ds => ds <> [] /\ forallb is_digit ds = true end.

Record stamp := mk_stamp {
  s_year : Z; s_month : Z; s_day : Z; s_sep : Z;
  s_hour : Z; s_minute : Z; s_second : Z; s_frac : option bytes; s_zone : zone;
}.
Definition stamp_ok (t : stamp) : Prop :=
  0 <= s_year t <= 9999 /\ valid_date (s_year t) (s_month t) (s_day t) /\
  (s_sep t = 84 \/ s_sep t = 116) /\ 0 <= s_hour t <= 23 /\ 0 <= s_minute t <= 59 /\
  0 <= s_second t <= 60 /\ frac_ok (s_frac t) /\ zone_ok (s_zone t).
Definition stamp_text (t : stamp) : bytes :=
  d4 (s_year t) ++ [45] ++ d2 (s_month t) ++ [45] ++ d2 (s_day t) ++ [s_sep t] ++
  d2 (s_hour t) ++ [58] ++ d2 (s_minute t) ++ [58] ++ d2 (s_second t) ++
  frac_text (s_frac t) ++ zone_text (s_zone t).
(** Seconds since 1970-01-01T00:00:00Z; a leap second counts as the second
    before it. *)
Definition stamp_epoch (t : stamp) : Z :=
  unix_day (s_year t) (s_month t) (s_day t) * 86400
  + s_hour t * 3600 + s_minute t * 60 + Z.min (s_second t) 59 - zone_seconds (s_zone t).

(** No wrap-around while the value stays below 10^5. *)
Lemma read_uint_cons c l v :
  0 <= v < 100000 ->
  read_uint_loop (c :: l) v = if is_digit c then read_uint_loop l (v * 10 + (c - 48)) else None.
Proof.
  intros Hv. cbn [read_uint_loop]. unfold is_digit, u32.
  destruct (_ || _) eqn:E; destruct (_ && _) eqn:F; try done; try lia.
  f_equal. rewrite (Z.mod_small (v * 10)), Z.mod_small by lia. done.
Qed.

Lemma read_uint_2 a b l v :
  tamga_read_uint (a :: b :: l) 2 = Some v <-> 0 <= v <= 99 /\ [a; b] = d2 v.
Proof.
  unfold tamga_read_uint, d2. cbn [take]. rewrite read_uint_cons by lia.
  destruct (is_digit a) eqn:Ea; unfold is_digit in Ea;
    [|split; [done|]; intros [? [= -> ->]]; zdm].
  rewrite read_uint_cons by lia. destruct (is_digit b) eqn:Eb; unfold is_digit in Eb;
    [|split; [done|]; intros [? [= -> ->]]; zdm].
  split.
  - intros [= <-]. split; [lia|]. f_equal; [zdm|]. f_equal. zdm.
  - intros [? [= -> ->]]. cbn [read_uint_loop]. f_equal. zdm.
Qed.

Lemma read_uint_4 a b c d l v :
  tamga_read_uint (a :: b :: c :: d :: l) 4 = Some v <-> 0 <= v <= 9999 /\ [a; b; c; d] = d4 v.
Proof.
  assert (tamga_read_uint (a :: b :: c :: d :: l) 4 = Some v <->
    exists h w, tamga_read_uint [a; b] 2 = Some h /\ tamga_read_uint [c; d] 2 = Some w /\
                v = h * 100 + w) as ->.
  { unfold tamga_read_uint. cbn [take]. rewrite !(read_uint_cons a), !(read_uint_cons c _ 0) by lia.
    destruct (is_digit a) eqn:Ea; unfold is_digit in Ea; [|split; [done|by intros (? & ? & ? & ? & ?)]].
    rewrite !(read_uint_cons b) by lia. destruct (is_digit b) eqn:Eb; unfold is_digit in Eb; [|split; [done|by intros (? & ? & ? & ? & ?)]].
    rewrite !(read_uint_cons c) by lia. destruct (is_digit c) eqn:Ec; unfold is_digit in Ec; [|split; [done|by intros (? & ? & ? & ? & ?)]].
    rewrite !(read_uint_cons d) by lia. destruct (is_digit d) eqn:Ed; [|split; [done|by intros (? & ? & ? & ? & ?)]].
    cbn [read_uint_loop]. split.
    - intros [= <-]. do 2 eexists. split_and!; [done|done|lia].
    - intros (h & w & [= <-] & [= <-] & ->). f_equal. lia. }
  unfold d4. split.
  - intros (h & w & Hh & Hw & ->). apply read_uint_2 in Hh as [Hh1 Hh2], Hw as [Hw1 Hw2].
    split; [lia|]. replace ((h * 100 + w) / 100) with h by zdm.
    replace ((h * 100 + w) mod 100) with w by zdm. by rewrite <- Hh2, <- Hw2.
  - intros [Hv Heq]. exists (v / 100), (v mod 100). unfold d2 in Heq. injection Heq as -> -> -> ->.
    split_and!; [apply read_uint_2; split; [zdm|done]..|zdm].
Qed.

Lemma at_drop (l : bytes) (n : nat) i :
  0 <= i -> at_ l (Z.of_nat n + i) = at_ (drop n l) i.
Proof. intros. unfold at_. rewrite nth_drop. f_equal. lia. Qed.

Fixpoint digit_run (l : bytes) : nat :=
  match l with
  | c :: l' => if is_digit c then S (digit_run l') else O
  | [] => O
  end.

Lemma skip_digits_run fuel str (n : nat) :
  (length str <= fuel + n)%nat ->
  skip_digits fuel str (Z.of_nat n) = Z.of_nat n + Z.of_nat (digit_run (drop n str)).
Proof.
  revert n. induction fuel as [|f IH]; intros n Hf.
  - rewrite drop_ge by lia. simpl. lia.
  - cbn [skip_digits]. pose proof (at_drop str n 0 ltac:(lia)) as Hat. rewrite Z.add_0_r in Hat.
    destruct (drop n str) as [|c l] eqn:Hd.
    + apply (f_equal length) in Hd. rewrite length_drop in Hd. simpl in Hd.
      replace (Z.of_nat n <? zlen str) with false by lia. simpl. lia.
    + assert (n < length str)%nat as Hn.
      { apply (f_equal length) in Hd. rewrite length_drop in Hd. simpl in Hd. lia. }
      rewrite Hat. change (at_ (c :: l) 0) with c. cbn [digit_run]. unfold is_digit.
      replace (Z.of_nat n <? zlen str) with true by lia. simpl andb.
      replace (c >=? 48) with (48 <=? c) by lia. dif; [|lia].
      replace (Z.of_nat n + 1) with (Z.of_nat (S n)) by lia. rewrite IH by lia.
      replace (drop (S n) str) with l; [lia|].
      replace (S n) with (n + 1)%nat by lia. by rewrite <- drop_drop, Hd.
Qed.

Lemma digit_run_app ds l :
  forallb is_digit ds = true -> (match l with [] => True | c :: _ => is_digit c = false end) ->
  digit_run (ds ++ l) = length ds.
Proof.
  intros Hds Hl. induction ds as [|c ds IH]; simpl in *.
  - destruct l; simpl; [done|]. by rewrite Hl.
  - apply andb_true_iff in Hds as [-> Hds]. by rewrite IH.
Qed.

Lemma digit_run_take l : forallb is_digit (take (digit_run l) l) = true.
Proof. induction l as [|c l IH]; simpl; [done|]. destruct (is_digit c) eqn:E; simpl; by rewrite ?E. Qed.

#[local] Arguments tamga_read_uint : simpl never.

Lemma parse_zone_iff str (n : nat) off :
  parse_zone str (Z.of_nat n) = Some off <->
  exists z, zone_ok z /\ drop n str = zone_text z /\ off = zone_seconds z.
Proof.
  unfold parse_zone.
  assert (forall i, 0 <= i -> at_ str (Z.of_nat n + i) = at_ (drop n str) i) as Hat
    by (intros; by apply at_drop).
  pose proof (Hat 0 ltac:(lia)) as Hat0. rewrite Z.add_0_r in Hat0. rewrite Hat0, Hat by lia.
  replace (Z.to_nat (Z.of_nat n + 1)) with (n + 1)%nat by lia.
  replace (Z.to_nat (Z.of_nat n + 4)) with (n + 4)%nat by lia.
  rewrite <- !drop_drop.
  pose proof (length_drop str n) as Hlen. revert Hlen. generalize (drop n str) as r.
  intros r Hlen. clear Hat Hat0. destruct r as [|c r].
  { replace (Z.of_nat n >=? zlen str) with true by (simpl in Hlen; lia).
    split; [done|]. intros ([?|? ? ?] & _ & ? & _); done. }
  simpl length in Hlen. replace (Z.of_nat n >=? zlen str) with false by lia.
  change (at_ (c :: r) 0) with c.
  destruct ((c =? 90) || (c =? 122)) eqn:Ez.
  { replace (Z.of_nat n + 1 =? zlen str) with (zlen r =? 0) by lia. split.
    - destruct r; [|done]. intros [= <-]. exists (Utc c). simpl. split_and!; [lia|done|done].
    - intros ([c'|mi h m] & Hz & [= -> ->] & ->); [done|]. destruct mi; lia. }
  destruct ((c =? 43) || (c =? 45)) eqn:Es.
  2:{ split; [done|]. intros ([c'|mi h m] & Hz & [= -> ->] & ->); simpl in Hz; [lia|destruct mi; lia]. }
  destruct (negb (Z.of_nat n + 6 =? zlen str)) eqn:El.
  { split; [done|]. intros ([c'|mi h m] & Hz & [= -> ->] & ->); [simpl in Hz; lia|].
    simpl in Hlen. lia. }
  do 5 (destruct r as [|? r]; [simpl in Hlen; lia|]). destruct r; [|simpl in Hlen; lia].
  change (at_ (c :: z :: z0 :: z1 :: z2 :: z3 :: []) 3) with z1. cbn [drop].
  split.
  - destruct (tamga_read_uint [z; z0; z1; z2; z3] 2) as [h|] eqn:Hh; [|done]. cbn.
    destruct (Z.eqb_spec z1 58) as [->|]; [|done]. cbn.
    destruct (tamga_read_uint [z2; z3] 2) as [m|] eqn:Hm; [|done]. cbn.
    apply read_uint_2 in Hh as [Hh1 Hh2]. apply read_uint_2 in Hm as [Hm1 Hm2].
    destruct ((h >? 23) || (m >? 59)) eqn:Er; [done|]. intros [= <-].
    exists (Offset (c =? 45) h m). simpl zone_ok. simpl zone_text. split_and!; [lia..| |done].
    rewrite <- Hm2. unfold d2 in Hh2. injection Hh2 as -> ->. unfold d2. simpl. f_equal. dif; lia.
  - intros ([c'|mi h m] & Hz & Ht & ->); [discriminate Ht|]. simpl in Hz. unfold zone_text in Ht.
    cbn [d2 app] in Ht. injection Ht as -> -> -> -> -> ->.
    rewrite (proj2 (read_uint_2 (48 + h / 10) (48 + h mod 10) _ h)) by (split; [lia|done]). cbn.
    rewrite (proj2 (read_uint_2 _ _ _ m)) by (split; [lia|done]). cbn.
    replace ((h >? 23) || (m >? 59)) with false by lia. f_equal. by destruct mi.
Qed.

(** The optional fraction: where the zone starts, and the text skipped. *)
Lemma skip_fraction_iff str (n : nat) p :
  (n <= length str)%nat ->
  skip_fraction str (Z.of_nat n) = Some p <->
  exists (k : nat) f, p = Z.of_nat (n + k) /\ (n + k <= length str)%nat /\ frac_ok f /\
    take k (drop n str) = frac_text f /\
    (if f is Some _ then if drop (n + k) str is c :: _ then is_digit c = false else True
     else at_ str (Z.of_nat n) <> 46) /\ k = length (frac_text f).
Proof.
  intros Hn. unfold skip_fraction.
  pose proof (at_drop str n 0 ltac:(lia)) as Hat. rewrite Z.add_0_r in Hat.
  destruct (Z.eqb_spec (at_ str (Z.of_nat n)) 46) as [Hdot|Hdot].
  - replace (Z.of_nat n + 1) with (Z.of_nat (S n)) by lia.
    rewrite skip_digits_run by lia.
    assert (exists l, drop n str = 46 :: l /\ drop (S n) str = l) as (l & Hd & Hd').
    { rewrite Hat in Hdot. destruct (drop n str) as [|c l] eqn:E; [done|].
      change (at_ (c :: l) 0) with c in Hdot. subst. exists l. split; [done|].
      replace (S n) with (n + 1)%nat by lia. by rewrite <- drop_drop, E. }
    pose proof (length_drop str n) as Hlen. rewrite Hd in Hlen. simpl in Hlen.
    rewrite Hd'. pose proof (digit_run_take l) as Hall. set (r := digit_run l) in *.
    assert (r <= length l)%nat as Hr.
    { subst r. clear. induction l; simpl; [lia|]. destruct (is_digit _); lia. }
    split.
    + destruct (Z.eqb_spec (Z.of_nat (S n) + Z.of_nat r) (Z.of_nat (S n))); [done|]. intros [= <-].
      exists (S r), (Some (take r l)). rewrite Hd. simpl take. simpl frac_text.
      split_and!; [lia|lia|split; [|done]|done| |simpl; rewrite length_take; lia].
      * intros E. apply (f_equal length) in E. rewrite length_take in E. simpl in E. lia.
      * replace (n + S r)%nat with (S n + r)%nat by lia. rewrite <- drop_drop, Hd'.
        subst r. clear. induction l as [|c l IH]; simpl; [done|].
        destruct (is_digit c) eqn:E; simpl; [done|by rewrite E].
    + intros (k & f & -> & Hk & Hf & Ht & Hend & ->).
      rewrite Hd in Ht. destruct f as [ds|]; [|by rewrite Hdot in Hend].
      simpl in Ht, Hk. injection Ht as Ht.
      assert (r = length ds) as Hrl.
      { subst r. rewrite <- (take_drop (length ds) l), Ht. apply digit_run_app; [apply Hf|].
        replace (drop (length ds) l) with (drop (n + S (length ds)) str)
          by (rewrite <- Hd', drop_drop; f_equal; lia).
        by destruct (drop _ str). }
      destruct Hf as [Hne _]. destruct ds; [done|]. simpl in Hrl.
      destruct (Z.eqb_spec (Z.of_nat (S n) + Z.of_nat r) (Z.of_nat (S n))); [lia|]. f_equal. simpl. lia.
  - split.
    + intros [= <-]. exists O, None. rewrite Nat.add_0_r. by split_and!.
    + intros (k & f & -> & Hk & Hf & Ht & Hend & Hkl). destruct f as [ds|]; simpl in Hkl; subst k.
      * destruct Hdot. rewrite Hat. destruct (drop n str); [done|]. simpl in Ht. by injection Ht as -> _.
      * f_equal. lia.
Qed.

(** Peels one step off the parser: a read that succeeds or a guard that holds. *)
Ltac parse_step :=
  match goal with
  | |- context [mbind _ (tamga_read_uint ?l ?n)] =>
      let v := fresh "v" in let H := fresh "Hread" in
      destruct (tamga_read_uint l n) as [v|] eqn:H; [|done]; cbn [mbind option_bind];
      first [apply read_uint_4 in H | apply read_uint_2 in H]
  | |- (if ?b then None else _) = _ -> _ =>
      let H := fresh "Hguard" in destruct b eqn:H; [done|]
  end.

Lemma stamp_sound s t :
  tamga_rfc3339_parse (Some s) = Some t ->
  exists st, stamp_ok st /\ s = stamp_text st /\ t = stamp_epoch st.
Proof.
  unfold tamga_rfc3339_parse. destruct (Z.ltb_spec (zlen s) 20) as [|Hlen]; [done|].
  destruct s as [|y1 [|y2 [|y3 [|y4 [|h1 [|m1 [|m2 [|h2 [|d1 [|dd2 [|sep [|o1 [|o2 [|c1
    [|i1 [|i2 [|c2 [|s1 [|s2 rest]]]]]]]]]]]]]]]]]]]; try (simpl in Hlen; lia).
  set (str := y1 :: _). intros Hp.
  assert (exists p off, skip_fraction str 19 = Some p /\ parse_zone str p = Some off) as (p & off & Hf & Hz).
  { revert Hp. repeat parse_step. destruct (skip_fraction str 19) as [p|]; [|done]. cbn.
    destruct (parse_zone str p) as [off|] eqn:E; [|done]. eauto. }
  revert Hp. rewrite Hf. cbn [mbind option_bind]. rewrite Hz. cbn [mbind option_bind]. subst str.
  cbv [at_ nth Z.to_nat Pos.to_nat Pos.iter_op Init.Nat.add] in *. cbn [drop] in *.
  repeat parse_step. intros [= <-].
  change 19 with (Z.of_nat 19) in Hf. apply skip_fraction_iff in Hf; [|simpl; lia].
  destruct Hf as (k & f & -> & Hk & Hfok & Ht & _ & Hkl).
  apply parse_zone_iff in Hz as (z & Hzok & Hdz & ->).
  exists (mk_stamp v v0 v1 sep v2 v3 v4 f z).
  assert (0 <= v /\ 1 <= v0 <= 12) as [Hv Hv0] by lia. rewrite days_from_civil_unix by done.
  rewrite days_in_month_cal in * by done.
  unfold stamp_ok, stamp_text, stamp_epoch, valid_date.
  cbn [s_year s_month s_day s_sep s_hour s_minute s_second s_frac s_zone].
  split; [split_and!; try lia; done|]. split; [|f_equal; f_equal; f_equal; dif; lia].
  destruct Hread as [_ <-], Hread0 as [_ <-], Hread1 as [_ <-], Hread2 as [_ <-],
    Hread3 as [_ <-], Hread4 as [_ <-]. rewrite <- Ht, <- Hdz, <- drop_drop. cbn [drop app].
  rewrite take_drop. repeat f_equal; lia.
Qed.

Lemma days_in_month_max y m : 1 <= m <= 12 -> tamga_days_in_month y m <= 31.
Proof.
  intros Hm. rewrite days_in_month_eq by done. unfold month_days. dif; [lia|].
  pose proof (below_forallb 13 (fun m => at_ month_lengths (m - 1) <=? 31) eq_refl m ltac:(lia)). lia.
Qed.

Lemma zone_text_head z : zone_ok z -> exists c l, zone_text z = c :: l /\ is_digit c = false /\ c <> 46.
Proof.
  destruct z as [c|mi h m]; simpl; intros H; do 2 eexists; (split; [done|]); unfold is_digit.
  - lia.
  - destruct mi; lia.
Qed.

Lemma stamp_complete st :
  stamp_ok st -> tamga_rfc3339_parse (Some (stamp_text st)) = Some (stamp_epoch st).
Proof.
  destruct st as [y m d sep h mi s f z]. unfold stamp_ok, stamp_epoch, valid_date.
  cbn [s_year s_month s_day s_sep s_hour s_minute s_second s_frac s_zone].
  intros (Hy & (Hm & Hd) & Hsep & Hh & Hmi & Hs & Hf & Hz).
  pose proof (zone_text_head z Hz) as (zc & zl & Hzt & Hzd & Hz46).
  set (str := stamp_text _).
  assert (drop 19 str = frac_text f ++ zone_text z) as Hrest by done.
  assert (length str = 19 + length (frac_text f) + length (zone_text z))%nat as Hlen.
  { rewrite <- (take_drop 19 str), Hrest, !length_app. change (length (take 19 str)) with 19%nat. lia. }
  assert (drop (19 + length (frac_text f)) str = zone_text z) as Hzone.
  { by rewrite <- drop_drop, Hrest, drop_app_length. }
  assert (skip_fraction str 19 = Some (Z.of_nat (19 + length (frac_text f)))) as Hskip.
  { change 19 with (Z.of_nat 19). apply skip_fraction_iff; [lia|].
    exists (length (frac_text f)), f. rewrite Hrest, Hzone, take_app_length, Hzt.
    split_and!; try done; [lia|]. destruct f; [done|].
    pose proof (at_drop str 19 0 ltac:(lia)) as Hat. rewrite Z.add_0_r in Hat.
    rewrite Hat, Hrest, Hzt. done. }
  assert (parse_zone str (Z.of_nat (19 + length (frac_text f))) = Some (zone_seconds z)) as Hpz
    by (apply parse_zone_iff; eauto).
  unfold tamga_rfc3339_parse. rewrite Hskip. cbn [mbind option_bind]. rewrite Hpz.
  assert (1 <= length (zone_text z))%nat by (rewrite Hzt; simpl; lia). replace (zlen str <? 20) with false by lia.
  subst str. unfold stamp_text. clear Hrest Hzone Hskip Hpz Hlen.
  cbn [s_year s_month s_day s_sep s_hour s_minute s_second s_frac s_zone d4 d2 app drop].
  cbv [at_ nth Z.to_nat Pos.to_nat Pos.iter_op Init.Nat.add].
  pose proof (days_in_month_max y m Hm). rewrite <- days_in_month_cal in * by done.
  assert (forall v l, 0 <= v <= 99 -> tamga_read_uint (48 + v / 10 :: 48 + v mod 10 :: l) 2 = Some v) as H2
    by (intros; apply read_uint_2; done).
  rewrite (proj2 (read_uint_4 _ _ _ _ _ y)) by (split; [lia|done]).
  rewrite !H2 by lia. cbn [mbind option_bind].
  replace (negb (sep =? 84) && negb (sep =? 116)) with false by lia.
  cbn [Z.eqb Pos.eqb negb mbind option_bind].
  replace ((m <? 1) || (m >? 12)) with false by lia.
  replace ((d <? 1) || (d >? tamga_days_in_month y m)) with false by lia.
  replace ((h >? 23) || (mi >? 59)) with false by lia. replace (s >? 60) with false by lia.
  f_equal. replace (if s =? 60 then 59 else s) with (Z.min s 59) by (dif; lia).
  by rewrite days_from_civil_unix by lia.
Qed.

(** (C34) [tamga_rfc3339_parse] accepts exactly the timestamps of the grammar
    (four-digit year, real calendar date, [T]/[t], [hh:mm:ss] with a leap
    second, an optional non-empty fraction, [Z]/[z] or a numeric offset, and
    nothing after it) and returns the instant they denote, its date counted in
    days of the Gregorian calendar since 1970-01-01; NULL is refused. *)
Theorem rfc3339_parse_iff s t :
  tamga_rfc3339_parse s = Some t <->
  exists st, stamp_ok st /\ s = Some (stamp_text st) /\ t = stamp_epoch st.
Proof.
  split.
  - destruct s as [s|]; [|done]. intros (st & ? & -> & ->)%stamp_sound. eauto.
  - intros (st & Hok & -> & ->). by apply stamp_complete.
Qed.

Lemma days_from_civil_bound y m d :
  0 <= y <= 9999 -> 1 <= m <= 12 -> 1 <= d <= 31 ->
  -720000 <= tamga_days_from_civil y m d <= 2933000.
Proof.
  intros Hy Hm Hd. rewrite days_from_civil_months.
  pose proof (below_forallb 13 (fun m => (m =? 0) || (0 <=? month_start m) && (month_start m <=? 340)) eq_refl m ltac:(lia)).
  unfold era_days. dif; zdm.
Qed.

(** Every instant the parser returns is far inside [int64_t], so none of the
    sums of the code overflows. *)
Lemma rfc3339_parse_range s t :
  tamga_rfc3339_parse s = Some t -> -62209000000 <= t <= 253412000000.
Proof.
  destruct s as [s|]; [|done].
  intros ([y m d sep h mi sec f z] & Hok & -> & ->)%stamp_sound.
  unfold stamp_ok, stamp_epoch, valid_date in *. cbn [s_year s_month s_day s_sep s_hour s_minute s_second s_frac s_zone] in *.
  destruct Hok as (Hy & (Hm & Hd) & _ & Hh & Hmi & Hs & _ & Hz).
  pose proof (days_in_month_max y m Hm). rewrite <- days_in_month_cal, <- days_from_civil_unix in * by lia.
  pose proof (days_from_civil_bound y m d ltac:(lia) ltac:(lia) ltac:(lia)).
  destruct z as [c|[] zh zm]; simpl in *; lia.
Qed.
