(* ===== verification/Float.v ===== *)
(** * binary64: the part of the C library the JSON code uses

    A [double] is a [spec_float] of precision 53 and maximal exponent 1024.
    [strtod] and the [%e] conversion of [snprintf] are modelled as the IEEE 754
    conversions between decimal text and binary64: the exact value, rounded to
    nearest with ties to even. Decimal text is first brought to the form
    [m * 10 ^ e] with [m] not divisible by ten, since the rounded value
    depends on the number alone. *)

From Stdlib Require Import SpecFloat.
From Stdlib Require Import String.
From S2P Require Import Prelude.

Definition b64_prec : Z := 53.
Definition b64_emax : Z := 1024.

Definition sf_zero : spec_float := S754_zero false.

(** [(double)z] *)
Definition sf_of_Z (z : Z) : spec_float := binary_normalize b64_prec b64_emax z 0 false.

(** [(int64_t)r] for a finite [r] whose integral part is representable. *)
Definition sf_trunc (r : spec_float) : Z :=
  match r with
  | S754_finite sign m e =>
      let v := if e >=? 0 then Zpos m * 2 ^ e else Zpos m / 2 ^ (- e) in
      if sign then - v else v
  | _ => 0
  end.

Definition sf_isfinite (r : spec_float) : bool :=
  match r with S754_zero _ | S754_finite _ _ _ => true | _ => false end.

(** ** Decimal to binary *)

(** [m * 10 ^ e] without trailing zeros in [m]; a zero has exponent 0. *)
Fixpoint strip10 (fuel : nat) (m e : Z) : Z * Z :=
  match fuel with
  | O => (m, e)
  | S f => if m =? 0 then (0, 0)
           else if m mod 10 =? 0 then strip10 f (m / 10) (e + 1)
           else (m, e)
  end.
Definition dec_normal (m e : Z) : Z * Z := strip10 (S (Z.to_nat (Z.log2 m + 1))) m e.

(** The binary64 nearest to [(-1)^sign * m * 10^e]. Magnitudes of at least
    10^400 overflow and those below 10^-400 vanish, whatever [m] is; past
    these bounds the powers are not computed. *)
Definition sf_of_decimal (sign : bool) (m e : Z) : spec_float :=
  let '(m, e) := dec_normal m e in
  match m with
  | Zpos p =>
      if e + Z.log2 m / 4 >? 400 then S754_infinity sign
      else if e + Z.log2 m <? -400 then S754_zero sign
      else if e >=? 0
      then binary_normalize b64_prec b64_emax (if sign then - (m * 10 ^ e) else m * 10 ^ e) 0 sign
      else match 10 ^ (- e) with
           | Zpos q => SFdiv b64_prec b64_emax (S754_finite sign p 0) (S754_finite false q 0)
           | _ => S754_nan
           end
  | _ => S754_zero sign
  end.

Definition is_dec (c : Z) : bool := (48 <=? c) && (c <=? 57).

(** A run of digits: its value appended to [acc], its length, what follows. *)
Fixpoint read_digits (l : bytes) (acc : Z) (n : nat) : Z * nat * bytes :=
  match l with
  | c :: l' => if is_dec c then read_digits l' (acc * 10 + (c - 48)) (S n) else (acc, n, l)
  | [] => (acc, n, [])
  end.

(** The exponent part: 'e', an optional sign and at least one digit. *)
Definition read_exponent (l : bytes) : Z * bytes :=
  match l with
  | c :: l' =>
      if (c =? 101) || (c =? 69) then
        let '(neg, l'') := match l' with
                           | s :: r => if s =? 45 then (true, r) else if s =? 43 then (false, r) else (false, l')
                           | [] => (false, l')
                           end in
        let '(v, n, rest) := read_digits l'' 0 0 in
        if (n =? 0)%nat then (0, l) else (if neg : bool then - v else v, rest)
      else (0, l)
  | [] => (0, l)
  end.

(** [strtod(token, &end)] on text that starts with a decimal floating literal
    (an optional '-', digits, an optional fraction, an optional exponent): the
    value and the text at [end]. Without digits nothing is converted. *)
Definition strtod (token : bytes) : spec_float * bytes :=
  let '(neg, l) := match token with
                   | c :: r => if c =? 45 then (true, r) else (false, token)
                   | [] => (false, token)
                   end in
  let '(i, ni, l1) := read_digits l 0 0 in
  let '(m, nf, l2) := match l1 with
                      | c :: r => if c =? 46 then read_digits r i 0 else (i, O, l1)
                      | [] => (i, O, l1)
                      end in
  if (ni + nf =? 0)%nat then (sf_zero, token)
  else let '(x, l3) := read_exponent l2 in
       (sf_of_decimal neg m (x - Z.of_nat nf), l3).

(** [strtoll(token, &end, 10)] on an optional '-' and digits: the value, the
    text at [end], and whether [errno] stays 0. *)
Definition strtoll (token : bytes) : Z * bytes * bool :=
  let '(neg, l) := match token with
                   | c :: r => if c =? 45 then (true, r) else (false, token)
                   | [] => (false, token)
                   end in
  let '(v, n, rest) := read_digits l 0 0 in
  if (n =? 0)%nat then (0, token, true)
  else let z := if neg : bool then - v else v in
       if z <? INT64_MIN then (INT64_MIN, rest, false)
       else if z >? INT64_MAX then (INT64_MAX, rest, false)
       else (z, rest, true).

(** ** Binary to decimal: [snprintf("%.*e", precision, value)] *)

(** [n / d] rounded to nearest, ties to even. *)
Definition div_half_even (n d : Z) : Z :=
  let q := n / d in
  let r := n mod d in
  if 2 * r <? d then q else if 2 * r >? d then q + 1 else if Z.even q then q else q + 1.

Definition num_digits (n : Z) : Z := zlen (fmt_nat n).

(** The exponent of the leading digit of [n / d], and the digit string of
    [precision + 1] digits as a number, with the carry of the rounding. *)
Definition sci_digits (precision n d : Z) : Z * Z :=
  let k := num_digits n - num_digits d in
  let ge_pow := if k >=? 0 then n >=? d * 10 ^ k else n * 10 ^ (- k) >=? d in
  let x := if ge_pow then k else k - 1 in
  let shift := precision - x in
  let ds := if shift >=? 0 then div_half_even (n * 10 ^ shift) d
            else div_half_even n (d * 10 ^ (- shift)) in
  if ds >=? 10 ^ (precision + 1) then (ds / 10, x + 1) else (ds, x).

(** The text: sign, one digit, '.' and [precision] digits when there are any,
    'e', the sign of the exponent and at least two digits. *)
Definition fmt_e_text (negative : bool) (precision ds x : Z) : bytes :=
  let digits := if ds =? 0 then replicate (Z.to_nat precision + 1) 48 else fmt_nat ds in
  let ex := fmt_nat (Z.abs x) in
  (if negative then [45] else []) ++
  take 1 digits ++ (if precision >? 0 then 46 :: drop 1 digits else []) ++
  [101; if x <? 0 then 45 else 43] ++ (if zlen ex <? 2 then 48 :: ex else ex).

Definition fmt_e (precision : Z) (value : spec_float) : bytes :=
  match value with
  | S754_zero sign => fmt_e_text sign precision 0 0
  | S754_finite sign m e =>
      let '(n, d) := if e >=? 0 then (Zpos m * 2 ^ e, 1) else (Zpos m, 2 ^ (- e)) in
      let '(ds, x) := sci_digits precision n d in
      fmt_e_text sign precision ds x
  | S754_infinity true => bstr "-inf"
  | S754_infinity false => bstr "inf"
  | S754_nan => bstr "nan"
  end.

(** ** Checks on known values *)

Example strtod_tenth : strtod (bstr "0.1") = (S754_finite false 7205759403792794 (-56), []).
Proof. vm_compute. reflexivity. Qed.
Example strtod_max : (strtod (bstr "1.7976931348623157e308")).1 = S754_finite false 9007199254740991 971.
Proof. vm_compute. reflexivity. Qed.
Example strtod_min_subnormal : (strtod (bstr "4.9e-324")).1 = S754_finite false 1 (-1074).
Proof. vm_compute. reflexivity. Qed.
Example strtod_overflow : (strtod (bstr "-1e309")).1 = S754_infinity true.
Proof. vm_compute. reflexivity. Qed.
Example fmt_e_third : fmt_e 3 (strtod (bstr "-1234.5")).1 = bstr "-1.234e+03".
Proof. vm_compute. reflexivity. Qed.
Example fmt_e_carry : fmt_e 1 (strtod (bstr "9.99")).1 = bstr "1.0e+01".
Proof. vm_compute. reflexivity. Qed.
