(* ===== verification/Json.v ===== *)
(** * The JSON tree: [src/src/util/json.c]

    A node is a value of [json]: the union of the source, with a number split
    by its [is_int] flag and an object's members in insertion order. A pointer
    that may be NULL is an [option]. The capacity of an array or object is the
    one its growth reaches for its element count ([json_cap]): 0 when empty,
    else 16 doubled until it holds the elements. *)

From Stdlib Require Import SpecFloat.
From S2P Require Import Prelude World Buf Float.
From stdpp Require Import sets list.
#[local] Open Scope Z_scope.

Inductive TamgaJsonType :=
| TAMGA_JSON_NULL | TAMGA_JSON_BOOL | TAMGA_JSON_NUMBER
| TAMGA_JSON_STRING | TAMGA_JSON_ARRAY | TAMGA_JSON_OBJECT.

#[export] Instance json_type_eq_dec : EqDecision TamgaJsonType.
Proof. solve_decision. Defined.

#[warnings="-register-all"]
Inductive json :=
| JNull
| JBool (boolean : bool)
| JInt (integer : Z)
| JReal (real : spec_float)
| JString (s : bytes)
| JArray (items : list json)
| JObject (members : list (bytes * json)).

(** Sizes of the C structures on a 64-bit target. *)
Definition sizeof_TamgaJson : Z := 32.
Definition sizeof_TamgaJsonPtr : Z := 8.
Definition sizeof_TamgaJsonMember : Z := 24.

Fixpoint double_until (fuel : nat) (cap count : Z) : Z :=
  match fuel with
  | O => cap
  | S f => if cap <? count then double_until f (cap * 2) count else cap
  end.
Definition json_cap (count : Z) : Z :=
  if count =? 0 then 0 else double_until 64 16 count.

Section Construction.
Context {malloc : Malloc}.

Definition tamga_json_new (node : json) : M (option json) :=
  let! ok := tamga_calloc 1 sizeof_TamgaJson in
  ret (if ok : bool then Some node else None).

Definition tamga_json_new_null : M (option json) := tamga_json_new JNull.
Definition tamga_json_new_bool (value : bool) : M (option json) := tamga_json_new (JBool value).
Definition tamga_json_new_int (value : Z) : M (option json) := tamga_json_new (JInt value).
Definition tamga_json_new_double (value : spec_float) : M (option json) :=
  tamga_json_new (JReal value).

Definition tamga_json_new_string (utf8 : option bytes) : M (option json) :=
  match utf8 with
  | None => ret None
  | Some l =>
      let! copy := tamga_malloc (zlen l + 1) in
      if copy : bool then tamga_json_new (JString l) else ret None
  end.

Definition tamga_json_new_array : M (option json) := tamga_json_new (JArray []).
Definition tamga_json_new_object : M (option json) := tamga_json_new (JObject []).

Definition tamga_json_grow (cap count elem_size : Z) : M bool :=
  if count <? cap then ret true
  else
    let new_cap := if cap =? 0 then 8 else cap in
    match tamga_checked_mul new_cap 2 with
    | None => ret false
    | Some new_cap =>
        match tamga_checked_mul new_cap elem_size with
        | None => ret false
        | Some bytes => tamga_realloc bytes
        end
    end.

(** The array after the call, [None] when the call returns false. *)
Definition tamga_json_array_append (array item : option json) : M (option json) :=
  match array, item with
  | Some (JArray items), Some item =>
      let! grown := tamga_json_grow (json_cap (zlen items)) (zlen items) sizeof_TamgaJsonPtr in
      ret (if grown : bool then Some (JArray (items ++ [item])) else None)
  | _, _ => ret None
  end.

(** The member loop: the members with the value of the first matching key
    replaced, [None] when no key matches. *)
Fixpoint replace_member (members : list (bytes * json)) (key : bytes) (item : json)
  : option (list (bytes * json)) :=
  match members with
  | [] => None
  | (k, v) :: ms =>
      if (zlen k =? zlen key) && beq k key then Some ((k, item) :: ms)
      else cons (k, v) <$> replace_member ms key item
  end.

(** The object after the call, [None] when the call returns false. *)
Definition tamga_json_object_set (object : option json) (key : option bytes) (item : option json)
  : M (option json) :=
  match object, key, item with
  | Some (JObject members), Some key, Some item =>
      let key := c_view key in
      match replace_member members key item with
      | Some members' => ret (Some (JObject members'))
      | None =>
          let! grown := tamga_json_grow (json_cap (zlen members)) (zlen members)
                                        sizeof_TamgaJsonMember in
          if grown : bool then
            let! key_copy := tamga_strndup (Some key) in
            ret (match key_copy with
                 | None => None
                 | Some k => Some (JObject (members ++ [(k, item)]))
                 end)
          else ret None
      end
  | _, _, _ => ret None
  end.

(** The loops of [tamga_json_clone] over the children, given the recursive
    call. [copy] is the container built so far, [None] after a failure. *)
Section CloneLoops.
Variable clone : json -> M (option json).

Fixpoint clone_items (items : list json) (copy : option json) : M (option json) :=
  match items, copy with
  | _, None => ret None
  | [], Some _ => ret copy
  | x :: items', Some _ =>
      let! child := clone x in
      let! copy' := match child with
                    | None => ret None
                    | Some _ => tamga_json_array_append copy child
                    end in
      clone_items items' copy'
  end.

Fixpoint clone_members (members : list (bytes * json)) (copy : option json) : M (option json) :=
  match members, copy with
  | _, None => ret None
  | [], Some _ => ret copy
  | (k, x) :: members', Some _ =>
      let! child := clone x in
      let! copy' := match child with
                    | None => ret None
                    | Some _ => tamga_json_object_set copy (Some k) child
                    end in
      clone_members members' copy'
  end.
End CloneLoops.

Fixpoint tamga_json_clone (value : json) : M (option json) :=
  match value with
  | JNull => tamga_json_new_null
  | JBool b => tamga_json_new_bool b
  | JInt z => tamga_json_new_int z
  | JReal r => tamga_json_new_double r
  | JString s => tamga_json_new_string (Some s)
  | JArray items =>
      let! copy := tamga_json_new_array in clone_items tamga_json_clone items copy
  | JObject members =>
      let! copy := tamga_json_new_object in clone_members tamga_json_clone members copy
  end.
End Construction.

(** ** Inspection *)

Definition tamga_json_type (value : option json) : TamgaJsonType :=
  match value with
  | None | Some JNull => TAMGA_JSON_NULL
  | Some (JBool _) => TAMGA_JSON_BOOL
  | Some (JInt _) | Some (JReal _) => TAMGA_JSON_NUMBER
  | Some (JString _) => TAMGA_JSON_STRING
  | Some (JArray _) => TAMGA_JSON_ARRAY
  | Some (JObject _) => TAMGA_JSON_OBJECT
  end.

Definition tamga_json_is_null (value : option json) : bool :=
  match value with None | Some JNull => true | _ => false end.

Definition tamga_json_bool_or (value : option json) (fallback : bool) : bool :=
  match value with Some (JBool b) => b | _ => fallback end.

Definition sf_2p53 : spec_float := sf_of_Z 9007199254740992.

Definition tamga_json_as_int (value : option json) : option Z :=
  match value with
  | Some (JInt z) => Some z
  | Some (JReal r) =>
      if SFleb (SFopp sf_2p53) r && SFleb r sf_2p53 then
        let truncated := if SFltb r sf_zero then SFopp (sf_of_Z (sf_trunc (SFopp r)))
                         else sf_of_Z (sf_trunc r) in
        if SFeqb truncated r then Some (sf_trunc r) else None
      else None
  | _ => None
  end.

Definition tamga_json_int_literal (value : option json) : option Z :=
  match value with Some (JInt z) => Some z | _ => None end.

Definition tamga_json_as_double (value : option json) : option spec_float :=
  match value with
  | Some (JInt z) => Some (sf_of_Z z)
  | Some (JReal r) => Some r
  | _ => None
  end.

Definition tamga_json_as_string (value : option json) : option bytes :=
  match value with Some (JString s) => Some s | _ => None end.

Definition tamga_json_array_len (value : option json) : Z :=
  match value with Some (JArray items) => zlen items | _ => 0 end.

Definition tamga_json_array_at (value : option json) (index : Z) : option json :=
  match value with
  | Some (JArray items) => if index >=? zlen items then None else items !! Z.to_nat index
  | _ => None
  end.

Definition tamga_json_object_len (value : option json) : Z :=
  match value with Some (JObject members) => zlen members | _ => 0 end.

Definition tamga_json_object_key_at (value : option json) (index : Z) : option bytes :=
  match value with
  | Some (JObject members) =>
      if index >=? zlen members then None else fst <$> members !! Z.to_nat index
  | _ => None
  end.

Definition tamga_json_object_value_at (value : option json) (index : Z) : option json :=
  match value with
  | Some (JObject members) =>
      if index >=? zlen members then None else snd <$> members !! Z.to_nat index
  | _ => None
  end.

Fixpoint find_member (members : list (bytes * json)) (key : bytes) : option json :=
  match members with
  | [] => None
  | (k, v) :: ms => if (zlen k =? zlen key) && beq k key then Some v else find_member ms key
  end.

Definition tamga_json_object_get (value : option json) (key : option bytes) : option json :=
  match value, key with
  | Some (JObject members), Some key => find_member members (c_view key)
  | _, _ => None
  end.

(** ** Induction, well-formedness *)

Section JsonInd.
Variable P : json -> Prop.
Hypothesis Hnull : P JNull.
Hypothesis Hbool : forall b, P (JBool b).
Hypothesis Hint : forall z, P (JInt z).
Hypothesis Hreal : forall r, P (JReal r).
Hypothesis Hstring : forall s, P (JString s).
Hypothesis Harray : forall items, Forall P items -> P (JArray items).
Hypothesis Hobject : forall ms, Forall (fun m => P m.2) ms -> P (JObject ms).

Fixpoint json_induction (j : json) : P j :=
  match j with
  | JNull => Hnull
  | JBool b => Hbool b
  | JInt z => Hint z
  | JReal r => Hreal r
  | JString s => Hstring s
  | JArray items =>
      Harray items ((fix go l := match l return Forall P l with
                                 | [] => Forall_nil_2 _
                                 | x :: l' => Forall_cons_2 _ _ _ (json_induction x) (go l')
                                 end) items)
  | JObject ms =>
      Hobject ms ((fix go l := match l return Forall (fun m => P m.2) l with
                               | [] => Forall_nil_2 _
                               | x :: l' => Forall_cons_2 _ _ _ (json_induction x.2) (go l')
                               end) ms)
  end.
End JsonInd.

(** The representation invariant of a tree: integers fit [int64_t], keys are C
    strings short enough to copy, and no object has the same key twice. *)
#[warnings="-register-all"]
Inductive json_wf : json -> Prop :=
| wf_JNull : json_wf JNull
| wf_JBool b : json_wf (JBool b)
| wf_JInt z : INT64_MIN <= z <= INT64_MAX -> json_wf (JInt z)
| wf_JReal r : json_wf (JReal r)
| wf_JString s : json_wf (JString s)
| wf_JArray items : Forall json_wf items -> json_wf (JArray items)
| wf_JObject ms :
    NoDup ms.*1 ->
    Forall (fun k => ~ In 0 k /\ zlen k <= TAMGA_MAX_REASONABLE_LEN) ms.*1 ->
    Forall json_wf ms.*2 -> json_wf (JObject ms).

(** ** Objects as finite maps *)

(** What a successful [tamga_json_object_set] does to the members. *)
Definition obj_set (ms : list (bytes * json)) (key : bytes) (item : json) : list (bytes * json) :=
  default (ms ++ [(key, item)]) (replace_member ms key item).

Lemma key_match k key : (zlen k =? zlen key) && beq k key = bool_decide (k = key).
Proof.
  destruct (bool_decide (k = key)) eqn:E.
  - apply bool_decide_eq_true in E as ->. by rewrite Z.eqb_refl, beq_refl.
  - apply bool_decide_eq_false in E. apply beq_neq in E. rewrite E. apply andb_false_r.
Qed.

Lemma replace_member_None ms key item : replace_member ms key item = None <-> key ∉ ms.*1.
Proof.
  induction ms as [|[k v] ms IH]; simpl; [set_solver|]. rewrite key_match.
  case_bool_decide as Hk; [subst; split; [done|set_solver]|].
  destruct (replace_member ms key item); simpl; set_solver.
Qed.

Lemma replace_member_Some ms key item ms' :
  replace_member ms key item = Some ms' ->
  ms'.*1 = ms.*1 /\ (forall k, find_member ms' k = if bool_decide (k = key) then Some item else find_member ms k) /\
  Forall (fun v => v = item \/ v ∈ ms.*2) ms'.*2.
Proof.
  revert ms'. induction ms as [|[k v] ms IH]; simpl; [done|]. intros ms'. rewrite key_match.
  case_bool_decide as Hk.
  - intros [= <-]. subst k. simpl. split_and!; [done| |].
    + intros k. rewrite !key_match. repeat case_bool_decide; congruence.
    + constructor; [by left|]. apply Forall_forall. intros x Hx. right.
      by apply list_elem_of_further.
  - intros Hr. destruct (replace_member ms key item) as [ms1|]; [|done].
    injection Hr as <-. destruct (IH _ eq_refl) as (H1 & H2 & H3). csimpl. split_and!.
    + by rewrite H1.
    + intros k'. rewrite !key_match. case_bool_decide; [|apply H2].
      rewrite bool_decide_eq_false_2; congruence.
    + constructor; [right; apply list_elem_of_here|]. eapply Forall_impl; [exact H3|].
      intros x [?|?]; [by left|right; by apply list_elem_of_further].
Qed.

Lemma find_member_app ms1 ms2 k :
  find_member (ms1 ++ ms2) k =
  match find_member ms1 k with Some v => Some v | None => find_member ms2 k end.
Proof.
  induction ms1 as [|[k1 v1] ms1 IH]; simpl; [done|]. rewrite key_match. by case_bool_decide.
Qed.

Lemma find_member_None ms k : find_member ms k = None <-> k ∉ ms.*1.
Proof.
  induction ms as [|[k1 v1] ms IH]; simpl; [set_solver|]. rewrite key_match.
  case_bool_decide; [subst|]; set_solver.
Qed.

(** Lookup after insertion, the finite-map law of an object. *)
Lemma find_obj_set ms key item k :
  find_member (obj_set ms key item) k = if bool_decide (k = key) then Some item else find_member ms k.
Proof.
  unfold obj_set. destruct (replace_member ms key item) as [ms'|] eqn:E; simpl.
  - by apply replace_member_Some in E as (_ & -> & _).
  - apply replace_member_None in E. rewrite find_member_app. simpl. rewrite key_match.
    case_bool_decide as H1; case_bool_decide as H2; try congruence.
    + subst. by rewrite (proj2 (find_member_None ms k)).
    + by destruct (find_member ms k).
Qed.

Lemma obj_set_keys ms key item :
  (obj_set ms key item).*1 = if bool_decide (key ∈ ms.*1) then ms.*1 else ms.*1 ++ [key].
Proof.
  unfold obj_set. destruct (replace_member ms key item) as [ms'|] eqn:E; simpl.
  - pose proof E as (-> & _)%replace_member_Some. rewrite bool_decide_eq_true_2; [done|].
    destruct (decide (key ∈ ms.*1)) as [|Hn]; [done|].
    apply (replace_member_None ms key item) in Hn. congruence.
  - apply replace_member_None in E. rewrite bool_decide_eq_false_2 by done. by rewrite fmap_app.
Qed.

Lemma obj_set_wf ms key item :
  json_wf (JObject ms) -> json_wf item -> ~ In 0 key -> zlen key <= TAMGA_MAX_REASONABLE_LEN ->
  json_wf (JObject (obj_set ms key item)).
Proof.
  intros Hms Hi Hk Hl. inversion_clear Hms as [| | | | | |? Hnd Hks Hvs]. constructor.
  - rewrite obj_set_keys. case_bool_decide as Hin; [done|]. apply NoDup_app.
    split_and!; [done|set_solver|apply NoDup_singleton].
  - rewrite obj_set_keys. case_bool_decide; [done|]. apply Forall_app. split; [done|]. by repeat constructor.
  - unfold obj_set. destruct (replace_member ms key item) as [ms'|] eqn:E; simpl.
    + apply replace_member_Some in E as (_ & _ & Hv). eapply Forall_impl; [exact Hv|].
      intros v [->|Hin]; [done|]. rewrite Forall_forall in Hvs. auto.
    + rewrite fmap_app. apply Forall_app. split; [done|]. by repeat constructor.
Qed.

(** ** Constructors and updates as postconditions *)

(** [failing_or r v]: the call failed, or it returned [v]. *)
Definition failing_or {A} (v : A) (r : option A) : Prop := r = None \/ r = Some v.

Section Specs.
Context {malloc : Malloc}.

Lemma new_post node : post (tamga_json_new node) (failing_or node).
Proof.
  unfold tamga_json_new. eapply post_bind with (P := fun _ => True); [by intros ?|].
  intros [] _; apply post_ret; [by right|by left].
Qed.

Lemma new_string_post l : post (tamga_json_new_string (Some l)) (failing_or (JString l)).
Proof.
  eapply post_bind with (P := fun _ => True); [by intros ?|].
  intros [] _; [apply new_post|apply post_ret; by left].
Qed.

Lemma array_append_post items item :
  post (tamga_json_array_append (Some (JArray items)) (Some item))
       (failing_or (JArray (items ++ [item]))).
Proof.
  eapply post_bind with (P := fun _ => True); [by intros ?|].
  intros [] _; apply post_ret; [by right|by left].
Qed.

Lemma object_set_post ms key item :
  post (tamga_json_object_set (Some (JObject ms)) (Some key) (Some item)) (fun r =>
    r = None \/ r = Some (JObject (obj_set ms (c_view key) item)) /\
                (c_view key ∉ ms.*1 -> zlen (c_view key) <= TAMGA_MAX_REASONABLE_LEN)).
Proof.
  unfold tamga_json_object_set, obj_set.
  destruct (replace_member ms (c_view key) item) as [ms'|] eqn:E; cbn [default].
  { apply post_ret. right. split; [done|]. intros Hn.
    apply (replace_member_None ms (c_view key) item) in Hn. congruence. }
  eapply post_bind with (P := fun _ => True); [by intros ?|].
  intros [] _; [|apply post_ret; by left]. apply post_intro. unfold bind, ret. intros s a s'.
  destruct (tamga_strndup _ s) as [[k|] s1] eqn:Hk; intros [= <- <-]; [|by left].
  apply strndup_Some in Hk as ([= <-] & _ & Hl). right. auto.
Qed.

Context {limit : Z} `{!MallocUpTo limit}.

Lemma new_ok node : 64 <= limit -> post (tamga_json_new node) (fun r => r = Some node).
Proof.
  intros Hl. unfold tamga_json_new, tamga_calloc.
  change (tamga_checked_mul 1 sizeof_TamgaJson) with (Some 32). cbn [Z.eqb Pos.eqb].
  eapply post_bind with (P := fun b => b = true).
  - apply (post_c_malloc_ok (limit := limit)); [lia|done].
  - intros ? ->. by apply post_ret.
Qed.

Lemma new_string_ok l :
  64 <= limit -> zlen l + 1 <= limit ->
  post (tamga_json_new_string (Some l)) (fun r => r = Some (JString l)).
Proof.
  intros H1 H2. eapply post_bind with (P := fun b => b = true).
  - unfold tamga_malloc. dif; apply (post_c_malloc_ok (limit := limit)); (lia || done).
  - intros ? ->. by apply new_ok.
Qed.

(** Capacities stay below twice the count, and at least 16. *)
Lemma double_until_bound fuel cap count :
  0 < cap -> double_until fuel cap count <= Z.max cap (2 * count).
Proof.
  revert cap. induction fuel as [|f IH]; intros cap Hc; simpl; [lia|].
  destruct (Z.ltb_spec cap count); [|lia]. specialize (IH (cap * 2) ltac:(lia)). lia.
Qed.

Lemma grow_ok count elem_size :
  0 <= count -> 0 < elem_size -> 16 * elem_size <= limit -> 4 * (count + 1) * elem_size <= limit ->
  limit <= SIZE_MAX ->
  post (tamga_json_grow (json_cap count) count elem_size) (fun b => b = true).
Proof.
  intros Hc He H16 Hl Hmax. unfold tamga_json_grow.
  destruct (Z.ltb_spec count (json_cap count)) as [|Hfull]; [by apply post_ret|].
  assert (json_cap count = 0 /\ count = 0 \/ 0 < json_cap count <= count) as Hcap.
  { unfold json_cap in *. destruct (Z.eqb_spec count 0); [lia|].
    assert (forall f c, 0 < c -> 0 < double_until f c count) as Hpos.
    { induction f as [|f IH]; intros c Hcp; simpl; [done|]. dif; [|done]. apply IH. lia. }
    specialize (Hpos 64%nat 16). lia. }
  set (start := if json_cap count =? 0 then 8 else json_cap count).
  assert (0 < start /\ (start = 8 \/ start <= count)) as [Hs1 Hs2] by (subst start; dif; lia).
  assert (2 * start * elem_size <= limit) by (destruct Hs2; nia).
  replace (tamga_checked_mul start 2) with (Some (start * 2))
    by (symmetry; apply checked_mul_Some; [lia..|]; split; [done|]; nia).
  replace (tamga_checked_mul (start * 2) elem_size) with (Some (start * 2 * elem_size))
    by (symmetry; apply checked_mul_Some; [lia..|]; split; [done|]; nia).
  unfold tamga_realloc. dif; apply (post_c_malloc_ok (limit := limit)); (lia || done).
Qed.

Lemma array_append_ok items item :
  128 <= limit <= SIZE_MAX -> 32 * (zlen items + 1) <= limit ->
  post (tamga_json_array_append (Some (JArray items)) (Some item))
       (fun r => r = Some (JArray (items ++ [item]))).
Proof.
  intros H1 H2. eapply post_bind; [apply grow_ok; unfold sizeof_TamgaJsonPtr; lia|].
  intros ? ->. by apply post_ret.
Qed.

Lemma object_set_ok ms key item :
  TAMGA_MAX_REASONABLE_LEN < limit <= SIZE_MAX -> 96 * (zlen ms + 1) <= limit ->
  zlen (c_view key) <= TAMGA_MAX_REASONABLE_LEN ->
  post (tamga_json_object_set (Some (JObject ms)) (Some key) (Some item))
       (fun r => r = Some (JObject (obj_set ms (c_view key) item))).
Proof.
  intros H1 H2 Hk. unfold tamga_json_object_set, obj_set.
  destruct (replace_member ms (c_view key) item) as [ms'|] eqn:E; cbn [default]; [by apply post_ret|].
  eapply post_bind.
  { apply grow_ok; unfold sizeof_TamgaJsonMember, TAMGA_MAX_REASONABLE_LEN in *; lia. }
  intros ? ->. intros s. unfold bind, ret.
  rewrite (strndup_ok (limit := limit)); [done|lia|apply c_view_no_nul|done].
Qed.
End Specs.

(** ** Cloning *)

Section Clone.
Context {malloc : Malloc}.

Lemma clone_items_post items acc :
  Forall (fun x => post (tamga_json_clone x) (failing_or x)) items ->
  post (clone_items tamga_json_clone items (Some (JArray acc))) (failing_or (JArray (acc ++ items))).
Proof.
  revert acc. induction items as [|x items IH]; intros acc Hall; simpl.
  { apply post_ret. right. by rewrite app_nil_r. }
  apply Forall_cons_1 in Hall as [Hx Hall]. eapply post_bind; [exact Hx|].
  intros ? [->| ->].
  { eapply post_bind with (P := fun r => r = None); [by apply post_ret|]. intros ? ->. destruct items; apply post_ret; by left. }
  eapply post_bind; [apply array_append_post|]. intros ? [->| ->]; [destruct items; apply post_ret; by left|].
  specialize (IH (acc ++ [x]) Hall). by rewrite <- app_assoc in IH.
Qed.

Lemma obj_set_fresh ms k v : k ∉ ms.*1 -> obj_set ms k v = ms ++ [(k, v)].
Proof. intros Hk. unfold obj_set. by rewrite (proj2 (replace_member_None ms k v)). Qed.

Lemma clone_members_post ms acc :
  Forall (fun x => post (tamga_json_clone x.2) (failing_or x.2)) ms ->
  NoDup (acc ++ ms).*1 -> Forall (fun k => ~ In 0 k) ms.*1 ->
  post (clone_members tamga_json_clone ms (Some (JObject acc))) (failing_or (JObject (acc ++ ms))).
Proof.
  revert acc. induction ms as [|[k x] ms IH]; intros acc Hall Hnd Hks; simpl.
  { apply post_ret. right. by rewrite app_nil_r. }
  apply Forall_cons_1 in Hall as [Hx Hall]. rewrite fmap_cons in Hks. apply Forall_cons_1 in Hks as [Hk Hks].
  eapply post_bind; [exact Hx|]. simpl in *. intros ? [->| ->].
  { eapply post_bind with (P := fun r => r = None); [by apply post_ret|]. intros ? ->. destruct ms as [|[] ?]; apply post_ret; by left. }
  eapply post_bind; [apply object_set_post|]. rewrite c_view_id by done.
  rewrite obj_set_fresh.
  2:{ rewrite fmap_app in Hnd. apply NoDup_app in Hnd as (_ & Hd & _). intros Hin.
      apply (Hd k Hin). rewrite fmap_cons. apply list_elem_of_here. }
  intros ? [->|[-> _]]; [destruct ms as [|[] ?]; apply post_ret; by left|].
  specialize (IH (acc ++ [(k, x)])). rewrite <- app_assoc in IH. by apply IH.
Qed.

(** A clone is the tree itself or nothing, whatever the allocator does. *)
Lemma clone_post j : json_wf j -> post (tamga_json_clone j) (failing_or j).
Proof.
  induction j as [| | | | |items IH|ms IH] using json_induction; intros Hwf;
    try apply new_post; try apply new_string_post; simpl.
  - inversion_clear Hwf as [| | | | |? Hall|]. eapply post_bind; [apply new_post|].
    intros ? [->| ->]; [destruct items; apply post_ret; by left|]. apply (clone_items_post items []).
    eapply Forall_impl; [apply Forall_and; exact (conj IH Hall)|].
    simpl. intros x [H1 H2]. auto.
  - inversion_clear Hwf as [| | | | | |? Hnd Hks Hall]. eapply post_bind; [apply new_post|].
    intros ? [->| ->]; [destruct ms as [|[] ?]; apply post_ret; by left|]. apply (clone_members_post ms []); [|done|].
    + rewrite Forall_fmap in Hall. eapply Forall_impl; [apply Forall_and; exact (conj IH Hall)|].
      simpl. intros x [H1 H2]. auto.
    + eapply Forall_impl; [exact Hks|]. by intros ? [? _].
Qed.
End Clone.
