(* ===== verification/JsonParse.v ===== *)
(** * The JSON parser: [src/src/util/json_parse.c]

    The parser state keeps the text from [p->pos] on ([p_rest]) and the first
    failure ([p_error]). [p->len - p->pos] is the length of [p_rest]. The
    nesting depth is the structural argument of [tamga_json_parse_value]:
    [levels] is [TAMGA_JSON_MAX_DEPTH - p->depth], so the depth guard is
    [levels = 0] and the decrement on return is the end of the call. *)

From Stdlib Require Import String SpecFloat.
From S2P Require Import Prelude World Buf Float Json.
#[local] Open Scope Z_scope.

Definition TAMGA_JSON_MAX_DEPTH : nat := 64.
Definition TAMGA_JSON_MAX_NUMBER_CHARS : Z := 340.

(** [const char *error]: the shared out-of-memory object, compared by identity,
    or a message. *)
Inductive json_error := TAMGA_JSON_ERROR_OUT_OF_MEMORY | json_message (m : bytes).

Definition tamga_json_error_is_out_of_memory (e : option json_error) : bool :=
  match e with Some TAMGA_JSON_ERROR_OUT_OF_MEMORY => true | _ => false end.

Record TamgaJsonParser := mk_parser {
  p_rest : bytes;
  p_error : option json_error;
}.

Definition tamga_json_fail (p : TamgaJsonParser) (e : json_error) : TamgaJsonParser :=
  mk_parser (p_rest p) (match p_error p with None => Some e | Some _ => p_error p end).
Abbreviation fail_msg p m := (tamga_json_fail p (json_message (bstr m))).

(** [p->pos += n] *)
Definition advance (n : nat) (p : TamgaJsonParser) : TamgaJsonParser :=
  mk_parser (drop n (p_rest p)) (p_error p).

Definition tamga_json_at_end (p : TamgaJsonParser) : bool :=
  match p_rest p with [] => true | _ => false end.

Definition peek_at (l : bytes) : Z := match l with [] => 0 | c :: _ => c end.
Definition tamga_json_peek (p : TamgaJsonParser) : Z := peek_at (p_rest p).

Definition is_ws (c : Z) : bool := (c =? 32) || (c =? 9) || (c =? 10) || (c =? 13).
Fixpoint skip_ws_bytes (l : bytes) : bytes :=
  match l with
  | c :: l' => if is_ws c then skip_ws_bytes l' else l
  | [] => []
  end.
Definition tamga_json_skip_ws (p : TamgaJsonParser) : TamgaJsonParser :=
  mk_parser (skip_ws_bytes (p_rest p)) (p_error p).

(** [None] when the literal is not there (the position is unchanged). *)
Definition tamga_json_match_literal (p : TamgaJsonParser) (literal : bytes) : option TamgaJsonParser :=
  if (length (p_rest p) <? length literal)%nat then None
  else if negb (beq (take (length literal) (p_rest p)) literal) then None
  else Some (advance (length literal) p).

(** ** UTF-8 *)

Definition is_cont (b : Z) : bool := Z.land b 192 =? 128.

Definition tamga_utf8_sequence_len (text : bytes) : nat :=
  let available := length text in
  let t i := at_ text i in
  if (available =? 0)%nat then 0
  else
    let b0 := t 0 in
    if b0 <? 128 then 1
    else if (194 <=? b0) && (b0 <=? 223) then
      if (available <? 2)%nat || negb (is_cont (t 1)) then 0 else 2
    else if (224 <=? b0) && (b0 <=? 239) then
      let lower := if b0 =? 224 then 160 else 128 in
      let upper := if b0 =? 237 then 159 else 191 in
      if (available <? 3)%nat then 0
      else if (t 1 <? lower) || (t 1 >? upper) then 0
      else if negb (is_cont (t 2)) then 0
      else 3
    else if (240 <=? b0) && (b0 <=? 244) then
      let lower := if b0 =? 240 then 144 else 128 in
      let upper := if b0 =? 244 then 143 else 191 in
      if (available <? 4)%nat then 0
      else if (t 1 <? lower) || (t 1 >? upper) then 0
      else if negb (is_cont (t 2)) || negb (is_cont (t 3)) then 0
      else 4
    else 0.

(** The bytes [tamga_utf8_encode] appends, one [tamga_buf_append_byte] each. *)
Definition utf8_bytes (codepoint : Z) : bytes :=
  if codepoint <? 128 then [u8 codepoint]
  else if codepoint <? 2048 then
    [u8 (Z.lor 192 (Z.shiftr codepoint 6)); u8 (Z.lor 128 (Z.land codepoint 63))]
  else if codepoint <? 65536 then
    [u8 (Z.lor 224 (Z.shiftr codepoint 12));
     u8 (Z.lor 128 (Z.land (Z.shiftr codepoint 6) 63));
     u8 (Z.lor 128 (Z.land codepoint 63))]
  else
    [u8 (Z.lor 240 (Z.shiftr codepoint 18));
     u8 (Z.lor 128 (Z.land (Z.shiftr codepoint 12) 63));
     u8 (Z.lor 128 (Z.land (Z.shiftr codepoint 6) 63));
     u8 (Z.lor 128 (Z.land codepoint 63))].

(** One digit of [tamga_json_read_hex4]. *)
Definition hex4_digit (c : Z) : option Z :=
  if (48 <=? c) && (c <=? 57) then Some (c - 48)
  else if (97 <=? c) && (c <=? 102) then Some ((c - 97) + 10)
  else if (65 <=? c) && (c <=? 70) then Some ((c - 65) + 10)
  else None.

Fixpoint hex4_loop (l : bytes) (value : Z) : option Z :=
  match l with
  | [] => Some value
  | c :: l' => match hex4_digit c with
               | None => None
               | Some digit => hex4_loop l' (Z.lor (u32 (Z.shiftl value 4)) digit)
               end
  end.

(** The value, [None] when false is returned; four characters are consumed. *)
Definition tamga_json_read_hex4 (p : TamgaJsonParser) : option (Z * TamgaJsonParser) :=
  if (length (p_rest p) <? 4)%nat then None
  else match hex4_loop (take 4 (p_rest p)) 0 with
       | None => None
       | Some value => Some (value, advance 4 p)
       end.

(** ** Strings *)

(** The single-character escapes of the [switch]. *)
Definition short_escape (esc : Z) : option Z :=
  if esc =? 34 then Some 34        (* quotation mark *)
  else if esc =? 92 then Some 92   (* reverse solidus *)
  else if esc =? 47 then Some 47   (* solidus *)
  else if esc =? 98 then Some 8    (* b *)
  else if esc =? 102 then Some 12  (* f *)
  else if esc =? 110 then Some 10  (* n *)
  else if esc =? 114 then Some 13  (* r *)
  else if esc =? 116 then Some 9   (* t *)
  else None.

(** The [case 'u'] of the [switch], after the 'u': the code point, [None] after
    a failure has been recorded. *)
Definition read_unicode_escape (p : TamgaJsonParser) : option Z * TamgaJsonParser :=
  match tamga_json_read_hex4 p with
  | None => (None, fail_msg p "malformed unicode escape")
  | Some (unit, p) =>
      if (55296 <=? unit) && (unit <=? 56319) then
        if (length (p_rest p) <? 6)%nat || negb (at_ (p_rest p) 0 =? 92) || negb (at_ (p_rest p) 1 =? 117)
        then (None, fail_msg p "unpaired high surrogate")
        else
          let p := advance 2 p in
          match tamga_json_read_hex4 p with
          | None => (None, fail_msg p "malformed unicode escape")
          | Some (low, p) =>
              if (low <? 56320) || (low >? 57343)
              then (None, fail_msg p "unpaired high surrogate")
              else (Some (u32 (65536 + Z.shiftl (unit - 55296) 10 + (low - 56320))), p)
          end
      else if (56320 <=? unit) && (unit <=? 57343)
      then (None, fail_msg p "unpaired low surrogate")
      else (Some unit, p)
  end.

Section Parse.
Context {malloc : Malloc}.

Fixpoint append_each (out : TamgaBuf) (l : bytes) : M TamgaBuf :=
  match l with
  | [] => ret out
  | c :: l' => let! out := tamga_buf_append_byte out c in append_each out l'
  end.

Definition tamga_utf8_encode (codepoint : Z) (out : TamgaBuf) : M TamgaBuf :=
  append_each out (utf8_bytes codepoint).

(** The [for (;;)] loop after the opening quote. Every round consumes at
    least one character, so one round more than there are characters is
    enough ([string_loop_fuel]). *)
Fixpoint string_loop (fuel : nat) (p : TamgaJsonParser) (out : TamgaBuf)
  : M (bool * TamgaJsonParser * TamgaBuf) :=
  match fuel with
  | O => ret (false, p, out)
  | S f =>
      match p_rest p with
      | [] => ret (false, fail_msg p "unterminated string", out)
      | c :: _ =>
          if c =? 34 then ret (tamga_buf_ok out, advance 1 p, out)
          else if c =? 92 then
            let p := advance 1 p in
            match p_rest p with
            | [] => ret (false, fail_msg p "unterminated escape sequence", out)
            | esc :: _ =>
                let p := advance 1 p in
                match short_escape esc with
                | Some b => let! out := tamga_buf_append_byte out b in string_loop f p out
                | None =>
                    if esc =? 117 then
                      match read_unicode_escape p with
                      | (None, p) => ret (false, p, out)
                      | (Some unit, p) =>
                          let! out := tamga_utf8_encode unit out in string_loop f p out
                      end
                    else ret (false, fail_msg p "unknown escape sequence", out)
                end
            end
          else if c <? 32 then ret (false, fail_msg p "unescaped control character in string", out)
          else
            let seq := tamga_utf8_sequence_len (p_rest p) in
            if (seq =? 0)%nat then ret (false, fail_msg p "invalid UTF-8 in string", out)
            else
              let! out := tamga_buf_append out (Some (take seq (p_rest p))) in
              string_loop f (advance seq p) out
      end
  end.

Definition tamga_json_parse_string_into (p : TamgaJsonParser) (out : TamgaBuf)
  : M (bool * TamgaJsonParser * TamgaBuf) :=
  if negb (tamga_json_peek p =? 34) then ret (false, fail_msg p "expected a string", out)
  else let p := advance 1 p in string_loop (S (length (p_rest p))) p out.
End Parse.

(** ** Numbers *)

Fixpoint skip_digit_run (l : bytes) : bytes :=
  match l with
  | c :: l' => if is_dec c then skip_digit_run l' else l
  | [] => []
  end.

(** The scanner of [tamga_json_parse_number]: the text after the integer part,
    after the fraction and after the exponent, with the [is_integer] flag; on
    the left the message recorded and the position it is recorded at. *)
Definition scan_int (l : bytes) : (string * bytes) + bytes :=
  let l := if peek_at l =? 45 then drop 1 l else l in
  if peek_at l =? 48 then inr (drop 1 l)
  else if (49 <=? peek_at l) && (peek_at l <=? 57) then inr (skip_digit_run l)
  else inl ("malformed number"%string, l).

Definition scan_frac (l : bytes) : (string * bytes) + (bool * bytes) :=
  if peek_at l =? 46 then
    let l := drop 1 l in
    if negb (is_dec (peek_at l))
    then inl ("malformed number: no digits after the decimal point"%string, l)
    else inr (false, skip_digit_run l)
  else inr (true, l).

Definition scan_exp (l : bytes) : (string * bytes) + (bool * bytes) :=
  if (peek_at l =? 101) || (peek_at l =? 69) then
    let l := drop 1 l in
    let l := if (peek_at l =? 43) || (peek_at l =? 45) then drop 1 l else l in
    if negb (is_dec (peek_at l))
    then inl ("malformed number: no digits in exponent"%string, l)
    else inr (false, skip_digit_run l)
  else inr (true, l).

Section ParseNumber.
Context {malloc : Malloc}.

(** After the scan: [token] is what was scanned. *)
Definition number_value (p : TamgaJsonParser) (token : bytes) (is_integer : bool)
  : M (option json * TamgaJsonParser) :=
  if zlen token >? TAMGA_JSON_MAX_NUMBER_CHARS
  then ret (None, fail_msg p "number literal is unreasonably long")
  else
    let '(parsed, end_, errno_ok) := strtoll token in
    if is_integer && errno_ok && (length end_ =? 0)%nat then
      let! value := tamga_json_new_int parsed in ret (value, p)
    else
      let '(parsed, end_) := strtod token in
      if negb (length end_ =? 0)%nat then ret (None, fail_msg p "malformed number")
      else let! value := tamga_json_new_double parsed in ret (value, p).

Definition tamga_json_parse_number (p : TamgaJsonParser) : M (option json * TamgaJsonParser) :=
  let failed m l := ret (None, tamga_json_fail (mk_parser l (p_error p)) (json_message (bstr m))) in
  let start := p_rest p in
  match scan_int start with
  | inl (m, l) => failed m l
  | inr l =>
      match scan_frac l with
      | inl (m, l) => failed m l
      | inr (no_frac, l) =>
          match scan_exp l with
          | inl (m, l) => failed m l
          | inr (no_exp, l) =>
              number_value (mk_parser l (p_error p)) (take (length start - length l) start)
                           (no_frac && no_exp)
          end
      end
  end.
End ParseNumber.

(** ** Composites *)

Section ParseValue.
Context {malloc : Malloc}.

Section Composites.
(** [tamga_json_parse_value] one level down. *)
Variable parse_value : TamgaJsonParser -> M (option json * TamgaJsonParser).

(** The [for (;;)] loops. Every round that continues consumes at least the
    comma, so the length of the rest bounds the rounds. *)
Fixpoint array_loop (fuel : nat) (array : json) (p : TamgaJsonParser)
  : M (option json * TamgaJsonParser) :=
  match fuel with
  | O => ret (None, p)
  | S f =>
      let! (item, p) := parse_value p in
      match item with
      | None => ret (None, p)
      | Some _ =>
          let! array' := tamga_json_array_append (Some array) item in
          match array' with
          | None => ret (None, tamga_json_fail p TAMGA_JSON_ERROR_OUT_OF_MEMORY)
          | Some array =>
              let p := tamga_json_skip_ws p in
              if tamga_json_peek p =? 44 then
                array_loop f array (tamga_json_skip_ws (advance 1 p))
              else if tamga_json_peek p =? 93 then ret (Some array, advance 1 p)
              else ret (None, fail_msg p "expected a comma or a closing bracket in array")
          end
      end
  end.

Definition tamga_json_parse_array (p : TamgaJsonParser) : M (option json * TamgaJsonParser) :=
  let! array := tamga_json_new_array in
  match array with
  | None => ret (None, tamga_json_fail p TAMGA_JSON_ERROR_OUT_OF_MEMORY)
  | Some array =>
      let p := tamga_json_skip_ws (advance 1 p) in
      if tamga_json_peek p =? 93 then ret (Some array, advance 1 p)
      else array_loop (S (length (p_rest p))) array p
  end.

Fixpoint object_loop (fuel : nat) (object : json) (p : TamgaJsonParser)
  : M (option json * TamgaJsonParser) :=
  match fuel with
  | O => ret (None, p)
  | S f =>
      let! (ok, p, key_buf) := tamga_json_parse_string_into p tamga_buf_init in
      if negb ok then ret (None, p)
      else
        let! (key, _) := tamga_buf_detach_string key_buf in
        match key with
        | None => ret (None, fail_msg p "invalid object key")
        | Some key =>
            let p := tamga_json_skip_ws p in
            if negb (tamga_json_peek p =? 58)
            then ret (None, fail_msg p "expected a colon after the object key")
            else
              let! (item, p) := parse_value (advance 1 p) in
              match item with
              | None => ret (None, p)
              | Some _ =>
                  let! object' := tamga_json_object_set (Some object) (Some key) item in
                  match object' with
                  | None => ret (None, tamga_json_fail p TAMGA_JSON_ERROR_OUT_OF_MEMORY)
                  | Some object =>
                      let p := tamga_json_skip_ws p in
                      if tamga_json_peek p =? 44 then
                        object_loop f object (tamga_json_skip_ws (advance 1 p))
                      else if tamga_json_peek p =? 125 then ret (Some object, advance 1 p)
                      else ret (None, fail_msg p "expected a comma or a closing brace in object")
                  end
              end
        end
  end.

Definition tamga_json_parse_object (p : TamgaJsonParser) : M (option json * TamgaJsonParser) :=
  let! object := tamga_json_new_object in
  match object with
  | None => ret (None, tamga_json_fail p TAMGA_JSON_ERROR_OUT_OF_MEMORY)
  | Some object =>
      let p := tamga_json_skip_ws (advance 1 p) in
      if tamga_json_peek p =? 125 then ret (Some object, advance 1 p)
      else object_loop (S (length (p_rest p))) object p
  end.
End Composites.

(** The quotation-mark case of [tamga_json_parse_value]. *)
Definition parse_string_value (p : TamgaJsonParser) : M (option json * TamgaJsonParser) :=
  let! (ok, p, buf) := tamga_json_parse_string_into p tamga_buf_init in
  if negb ok then ret (None, p)
  else
    let! (raw, _) := tamga_buf_detach buf in
    match raw with
    | None => ret (None, p)
    | Some l => let! value := tamga_json_new_string (Some l) in ret (value, p)
    end.

Definition parse_literal (p : TamgaJsonParser) (literal : bytes) (new : M (option json))
  : M (option json * TamgaJsonParser) :=
  match tamga_json_match_literal p literal with
  | Some p => let! value := new in ret (value, p)
  | None => ret (None, fail_msg p "unexpected token")
  end.

Fixpoint tamga_json_parse_value (levels : nat) (p : TamgaJsonParser)
  : M (option json * TamgaJsonParser) :=
  match levels with
  | O => ret (None, fail_msg p "maximum nesting depth exceeded")
  | S levels' =>
      let p := tamga_json_skip_ws p in
      let c := tamga_json_peek p in
      let! (value, p) :=
        if c =? 123 then tamga_json_parse_object (tamga_json_parse_value levels') p
        else if c =? 91 then tamga_json_parse_array (tamga_json_parse_value levels') p
        else if c =? 34 then parse_string_value p
        else if c =? 116 then parse_literal p (bstr "true") (tamga_json_new_bool true)
        else if c =? 102 then parse_literal p (bstr "false") (tamga_json_new_bool false)
        else if c =? 110 then parse_literal p (bstr "null") tamga_json_new_null
        else if (c =? 45) || ((48 <=? c) && (c <=? 57)) then tamga_json_parse_number p
        else ret (None, fail_msg p "unexpected token") in
      ret (value, match value, p_error p with
                  | None, None => tamga_json_fail p TAMGA_JSON_ERROR_OUT_OF_MEMORY
                  | _, _ => p
                  end)
  end.

(** The tree, or the reason stored in [*error_out]. *)
Definition tamga_json_parse (text : option bytes) : M (json + json_error) :=
  match text with
  | None => ret (inr (json_message (bstr "input is null")))
  | Some text =>
      if zlen text >? TAMGA_MAX_REASONABLE_LEN
      then ret (inr (json_message (bstr "input exceeds the maximum accepted size")))
      else
        let! (value, p) := tamga_json_parse_value TAMGA_JSON_MAX_DEPTH (mk_parser text None) in
        match value with
        | None => ret (inr (default (json_message (bstr "malformed JSON")) (p_error p)))
        | Some value =>
            let p := tamga_json_skip_ws p in
            if negb (tamga_json_at_end p)
            then ret (inr (json_message (bstr "trailing content after the top-level value")))
            else ret (inl value)
        end
  end.
End ParseValue.
