(* ===== verification/Utf8.v ===== *)
(** * UTF-8 as the JSON parser reads and writes it

    The definitions are in [JsonParse] ([tamga_utf8_sequence_len] and
    [tamga_utf8_encode] of [src/src/util/json_parse.c]); here is the encoding
    form of RFC 3629 and the proof that the parser accepts exactly it. *)

From S2P Require Import Prelude World Buf Float Json JsonParse.
#[local] Open Scope Z_scope.

(** Unicode scalar values: code points that are not surrogates. *)
Definition scalar (cp : Z) : Prop := 0 <= cp < 55296 \/ 57344 <= cp < 1114112.

(** RFC 3629, section 3. *)
Definition utf8 (cp : Z) : bytes :=
  if cp <? 128 then [cp]
  else if cp <? 2048 then [192 + cp / 64; 128 + cp mod 64]
  else if cp <? 65536 then [224 + cp / 4096; 128 + (cp / 64) mod 64; 128 + cp mod 64]
  else [240 + cp / 262144; 128 + (cp / 4096) mod 64; 128 + (cp / 64) mod 64; 128 + cp mod 64].

(** A byte sequence that is a concatenation of encoded scalar values. *)
Inductive utf8_text : bytes -> Prop :=
| utf8_nil : utf8_text []
| utf8_cons cp l : scalar cp -> utf8_text l -> utf8_text (utf8 cp ++ l).

Lemma is_cont_range b : is_byte b -> is_cont b = (128 <=? b) && (b <? 192).
Proof.
  intros Hb. pose proof (below_forallb 256 (fun b => eqb (is_cont b) ((128 <=? b) && (b <? 192))) eq_refl b Hb) as H.
  by apply eqb_prop.
Qed.

Lemma lead_byte a b n : 0 <= n -> 0 <= a < 2 ^ n -> Z.lor (b * 2 ^ n) a = b * 2 ^ n + a.
Proof. intros. rewrite Z.lor_comm, lor_disjoint_add by lia. lia. Qed.

(** The bit operations of [tamga_utf8_encode] compute the RFC's encoding. *)
Lemma utf8_bytes_eq cp : scalar cp -> utf8_bytes cp = utf8 cp.
Proof.
  intros Hs. assert (0 <= cp < 1114112) as Hr by (unfold scalar in Hs; lia). clear Hs.
  assert (forall x, 0 <= x < 64 -> u8 (Z.lor 128 x) = 128 + x) as Hcont.
  { intros x Hx. change 128 with (2 * 2 ^ 6). rewrite lead_byte by lia. unfold u8. apply Z.mod_small. lia. }
  assert (forall x, Z.land x 63 = x mod 64) as Hland by (intros; apply (land_mask x 6); lia).
  assert (forall x, 0 <= x mod 64 < 64) as Hmod by (intros; zdm).
  unfold utf8_bytes, utf8. rewrite !Hland, !Z.shiftr_div_pow2, !Hcont by (apply Hmod || lia).
  change (2 ^ 6) with 64. change (2 ^ 12) with 4096. change (2 ^ 18) with 262144.
  destruct (Z.ltb_spec cp 128); [by unfold u8; rewrite Z.mod_small by lia|].
  destruct (Z.ltb_spec cp 2048).
  { change 192 with (3 * 2 ^ 6). rewrite lead_byte by zdm. unfold u8. rewrite Z.mod_small by zdm. done. }
  destruct (Z.ltb_spec cp 65536).
  { change 224 with (14 * 2 ^ 4). rewrite lead_byte by zdm. unfold u8. rewrite Z.mod_small by zdm. done. }
  change 240 with (30 * 2 ^ 3). rewrite lead_byte by zdm. unfold u8. rewrite Z.mod_small by zdm. done.
Qed.

Lemma utf8_length cp : (1 <= length (utf8 cp) <= 4)%nat.
Proof. unfold utf8. repeat dif; simpl; lia. Qed.

Lemma utf8_bytes_ok cp : scalar cp -> bytes_ok (utf8 cp).
Proof.
  intros Hs. unfold utf8, scalar, is_byte in *. repeat dif; repeat constructor; zdm.
Qed.

(** Evaluates array reads at literal indices. *)
Ltac at_eval := cbv [at_ nth Z.to_nat Pos.to_nat Pos.iter_op Init.Nat.add].

(** An encoded scalar value is measured exactly. *)
Lemma sequence_len_utf8 cp l : scalar cp -> tamga_utf8_sequence_len (utf8 cp ++ l) = length (utf8 cp).
Proof.
  intros Hs. pose proof (utf8_bytes_ok cp Hs) as Hb. unfold utf8, scalar in *.
  destruct (Z.ltb_spec cp 128); [|destruct (Z.ltb_spec cp 2048); [|destruct (Z.ltb_spec cp 65536)]];
    repeat (apply Forall_cons_1 in Hb as [? Hb]);
    unfold tamga_utf8_sequence_len; cbn [app length Nat.eqb]; at_eval; rewrite ?is_cont_range by done;
    unfold is_byte in *.
  - by replace (cp <? 128) with true by lia.
  - replace (192 + cp / 64 <? 128) with false by zdm. replace (_ && _) with true at 1 by zdm.
    cbn [Nat.ltb Nat.leb orb]. by replace (_ && _) with true by zdm.
  - replace (224 + cp / 4096 <? 128) with false by zdm.
    replace ((194 <=? 224 + cp / 4096) && (224 + cp / 4096 <=? 223)) with false by zdm.
    replace ((224 <=? 224 + cp / 4096) && (224 + cp / 4096 <=? 239)) with true by zdm.
    cbn [Nat.ltb Nat.leb orb].
    replace (_ || _) with false by (repeat dif; zdm). by replace (_ && _) with true by zdm.
  - replace (240 + cp / 262144 <? 128) with false by zdm.
    replace ((194 <=? 240 + cp / 262144) && (240 + cp / 262144 <=? 223)) with false by zdm.
    replace ((224 <=? 240 + cp / 262144) && (240 + cp / 262144 <=? 239)) with false by zdm.
    replace ((240 <=? 240 + cp / 262144) && (240 + cp / 262144 <=? 244)) with true by zdm.
    cbn [Nat.ltb Nat.leb orb].
    replace (_ || _) with false at 1 by (repeat dif; zdm).
    replace (negb _ || negb _) with false by zdm. done.
Qed.

(** Whatever is measured is an encoded scalar value. *)
Lemma sequence_len_sound text n :
  bytes_ok text -> tamga_utf8_sequence_len text = S n ->
  exists cp l, scalar cp /\ text = utf8 cp ++ l /\ length (utf8 cp) = S n.
Proof.
  intros Hok. destruct text as [|b0 text]; [done|].
  pose proof Hok as [H0 Hok1]%Forall_cons_1. unfold tamga_utf8_sequence_len.
  cbn [length Nat.eqb]. at_eval. unfold scalar, utf8.
  destruct (Z.ltb_spec b0 128) as [|Hb0].
  { intros [= <-]. exists b0, text. unfold is_byte in *. replace (b0 <? 128) with true by lia. split; [lia|done]. }
  destruct (_ && _) eqn:E2.
  { destruct text as [|b1 text]; [done|]. apply Forall_cons_1 in Hok1 as [H1 _].
    cbn [length Nat.ltb Nat.leb orb]. rewrite is_cont_range by done.
    destruct (_ && _) eqn:E1 in |- *; [|done]. intros [= <-].
    exists ((b0 - 192) * 64 + (b1 - 128)), text.
    replace (_ <? 128) with false by lia. replace (_ <? 2048) with true by lia.
    split; [lia|]. split; [|done]. simpl. repeat f_equal; zdm. }
  destruct ((224 <=? b0) && _) eqn:E3.
  { destruct text as [|b1 [|b2 text]]; [done..|]. apply Forall_cons_1 in Hok1 as [H1 Hok1].
    apply Forall_cons_1 in Hok1 as [H2 _].
    cbn [length Nat.ltb Nat.leb orb]. rewrite is_cont_range by done.
    destruct (_ || _) eqn:E1; [done|]. destruct (negb _) eqn:Ec; [done|]. intros [= <-].
    assert (128 <= b1 <= 191) by (repeat dif; lia).
    exists ((b0 - 224) * 4096 + (b1 - 128) * 64 + (b2 - 128)), text.
    replace (_ <? 128) with false by (repeat dif; lia). replace (_ <? 2048) with false by (repeat dif; lia).
    replace (_ <? 65536) with true by lia.
    split; [repeat dif; lia|]. split; [|done]. simpl. repeat f_equal; zdm. }
  destruct ((240 <=? b0) && _) eqn:E4; [|done].
  destruct text as [|b1 [|b2 [|b3 text]]]; [done..|].
  apply Forall_cons_1 in Hok1 as [H1 Hok1]. apply Forall_cons_1 in Hok1 as [H2 Hok1].
  apply Forall_cons_1 in Hok1 as [H3 _].
  cbn [length Nat.ltb Nat.leb orb]. rewrite !is_cont_range by done.
  destruct (_ || _) eqn:E1; [done|]. destruct (negb _ || _) eqn:Ec; [done|]. intros [= <-].
  assert (128 <= b1 <= 191) by (repeat dif; lia).
  exists ((b0 - 240) * 262144 + (b1 - 128) * 4096 + (b2 - 128) * 64 + (b3 - 128)), text.
  replace (_ <? 128) with false by (repeat dif; lia). replace (_ <? 2048) with false by (repeat dif; lia).
  replace (_ <? 65536) with false by (repeat dif; lia).
  split; [repeat dif; lia|]. split; [|done]. simpl. repeat f_equal; zdm.
Qed.
