(* ===== verification/JsonString.v ===== *)
(** * JSON strings: the grammar and the string scanner

    [jstr d t]: the text [t] between two quotation marks denotes the bytes
    [d]. The loop of [tamga_json_parse_string_into] accepts exactly these
    texts and builds exactly these bytes. *)

From Stdlib Require Import String.
From S2P Require Import Prelude World Buf Float Json JsonParse Utf8.
#[local] Open Scope Z_scope.

(** Four hexadecimal digits, in either case. *)
Definition hex4 (h : bytes) (v : Z) : Prop :=
  exists a b c d va vb vc vd, h = [a; b; c; d] /\ hex4_digit a = Some va /\ hex4_digit b = Some vb /\
    hex4_digit c = Some vc /\ hex4_digit d = Some vd /\ v = 4096 * va + 256 * vb + 16 * vc + vd.

Inductive jstr : bytes -> bytes -> Prop :=
| jstr_end : jstr [] []
| jstr_raw cp d t :
    scalar cp -> 32 <= cp -> cp <> 34 -> cp <> 92 ->
    jstr d t -> jstr (utf8 cp ++ d) (utf8 cp ++ t)
| jstr_short e b d t :
    short_escape e = Some b -> jstr d t -> jstr (b :: d) (92 :: e :: t)
| jstr_unit h cp d t :
    hex4 h cp -> scalar cp -> jstr d t -> jstr (utf8 cp ++ d) (92 :: 117 :: h ++ t)
| jstr_pair h1 hi h2 lo d t :
    hex4 h1 hi -> 55296 <= hi <= 56319 -> hex4 h2 lo -> 56320 <= lo <= 57343 ->
    jstr d t ->
    jstr (utf8 (65536 + (hi - 55296) * 1024 + (lo - 56320)) ++ d)
         (92 :: 117 :: h1 ++ 92 :: 117 :: h2 ++ t).

Lemma hex4_digit_range c v : hex4_digit c = Some v -> 0 <= v < 16.
Proof. unfold hex4_digit. repeat (dif; [intros; simplify_eq; lia|]). done. Qed.

Lemma hex4_step v d : 0 <= v < 2 ^ 28 -> 0 <= d < 16 -> Z.lor (u32 (Z.shiftl v 4)) d = 16 * v + d.
Proof.
  intros Hv Hd. unfold u32. rewrite Z.shiftl_mul_pow2 by lia. rewrite Z.mod_small by lia.
  rewrite lead_byte by lia. lia.
Qed.

Lemma read_hex4_Some p v p' :
  tamga_json_read_hex4 p = Some (v, p') <->
  exists h, hex4 h v /\ p_rest p = h ++ p_rest p' /\ p_error p' = p_error p.
Proof.
  unfold tamga_json_read_hex4, hex4. destruct p as [l e], p' as [l' e']. cbn [p_rest p_error].
  destruct l as [|a [|b [|c [|d l]]]].
  1-4: split; [done|]; intros (h & (? & ? & ? & ? & ? & ? & ? & ? & -> & _) & Heq & _);
    apply (f_equal length) in Heq; simpl in Heq; lia.
  cbn [length Nat.ltb Nat.leb take hex4_loop]. unfold advance. cbn [p_rest p_error drop].
  split.
  - destruct (hex4_digit a) as [va|] eqn:Ha; [|done]. destruct (hex4_digit b) as [vb|] eqn:Hb; [|done].
    destruct (hex4_digit c) as [vc|] eqn:Hc; [|done]. destruct (hex4_digit d) as [vd|] eqn:Hd; [|done].
    intros [= <- <- <-]. exists [a; b; c; d]. split; [|done].
    exists a, b, c, d, va, vb, vc, vd. split_and!; try done.
    pose proof (hex4_digit_range _ _ Ha). pose proof (hex4_digit_range _ _ Hb).
    pose proof (hex4_digit_range _ _ Hc). pose proof (hex4_digit_range _ _ Hd).
    rewrite (hex4_step 0 va), (hex4_step _ vb), (hex4_step _ vc), (hex4_step _ vd) by lia. lia.
  - intros (h & (a' & b' & c' & d' & va & vb & vc & vd & -> & Ha & Hb & Hc & Hd & ->) & Heq & ->).
    cbn [app] in Heq. injection Heq as <- <- <- <- <-. rewrite Ha, Hb, Hc, Hd.
    pose proof (hex4_digit_range _ _ Ha). pose proof (hex4_digit_range _ _ Hb).
    pose proof (hex4_digit_range _ _ Hc). pose proof (hex4_digit_range _ _ Hd).
    rewrite (hex4_step 0 va), (hex4_step _ vb), (hex4_step _ vc), (hex4_step _ vd) by lia.
    do 2 f_equal. lia.
Qed.

Lemma hex4_range h v : hex4 h v -> 0 <= v < 65536.
Proof.
  intros (a & b & c & d & va & vb & vc & vd & _ & Ha & Hb & Hc & Hd & ->).
  apply hex4_digit_range in Ha, Hb, Hc, Hd. lia.
Qed.

Lemma hex4_length h v : hex4 h v -> length h = 4%nat.
Proof. by intros (a & b & c & d & va & vb & vc & vd & -> & _). Qed.

(** The text of an escape after the backslash and the 'u', and its meaning. *)
Definition uescape (t : bytes) (cp : Z) : Prop :=
  hex4 t cp /\ scalar cp \/
  exists h1 hi h2 lo, t = h1 ++ 92 :: 117 :: h2 /\ hex4 h1 hi /\ hex4 h2 lo /\
    55296 <= hi <= 56319 /\ 56320 <= lo <= 57343 /\
    cp = 65536 + (hi - 55296) * 1024 + (lo - 56320).

Lemma jstr_u u cp d t : uescape u cp -> jstr d t -> jstr (utf8 cp ++ d) (92 :: 117 :: u ++ t).
Proof.
  intros [[Hh Hs]|(h1 & hi & h2 & lo & -> & H1 & H2 & Hhi & Hlo & ->)] Hd; [by apply jstr_unit|].
  rewrite <- app_assoc. cbn [app]. by apply jstr_pair.
Qed.

Lemma uescape_scalar t cp : uescape t cp -> scalar cp.
Proof. intros [[_ ?]|(? & ? & ? & ? & _ & _ & _ & ? & ? & ->)]; [done|]. unfold scalar. lia. Qed.

Lemma surrogate_value hi lo :
  55296 <= hi <= 56319 -> 56320 <= lo <= 57343 ->
  u32 (65536 + Z.shiftl (hi - 55296) 10 + (lo - 56320)) = 65536 + (hi - 55296) * 1024 + (lo - 56320).
Proof. intros. rewrite Z.shiftl_mul_pow2 by lia. unfold u32. rewrite Z.mod_small by lia. done. Qed.

Lemma read_unicode_escape_sound p cp p' :
  read_unicode_escape p = (Some cp, p') ->
  exists u, uescape u cp /\ p_rest p = u ++ p_rest p' /\ p_error p' = p_error p.
Proof.
  unfold read_unicode_escape. destruct (tamga_json_read_hex4 p) as [[v p1]|] eqn:E1; [|done].
  apply read_hex4_Some in E1 as (h & Hh & Hrest & Herr). pose proof (hex4_range h v Hh).
  destruct (_ && _) eqn:Ehi.
  - destruct (_ || _) eqn:Esep; [done|].
    destruct p1 as [[|c0 [|c1 l]] e]; [done..|].
    cbn [p_rest p_error] in *.
    change (at_ (c0 :: c1 :: l) 0) with c0 in Esep. change (at_ (c0 :: c1 :: l) 1) with c1 in Esep.
    unfold advance. cbn [p_rest p_error drop].
    destruct (tamga_json_read_hex4 _) as [[low p2]|] eqn:E2; [|done].
    apply read_hex4_Some in E2 as (h2 & Hh2 & Hrest2 & Herr2). cbn [p_rest p_error] in *. rewrite ?drop_0 in Hrest2.
    destruct (_ || _) eqn:Elo in |- *; [done|]. rewrite surrogate_value by lia. intros [= <- <-].
    exists (h ++ 92 :: 117 :: h2). split_and!.
    + right. exists h, v, h2, low. split_and!; try done; lia.
    + rewrite Hrest, Hrest2, <- app_assoc. cbn [app]. replace c0 with 92 by lia.
      by replace c1 with 117 by lia.
    + congruence.
  - destruct (_ && _) eqn:Elo in |- *; [done|]. intros [= <- <-]. exists h. split_and!; [|done..].
    left. split; [done|]. unfold scalar. lia.
Qed.

Lemma read_unicode_escape_complete u cp l e :
  uescape u cp -> read_unicode_escape (mk_parser (u ++ l) e) = (Some cp, mk_parser l e).
Proof.
  unfold read_unicode_escape. intros [[Hh Hs]|(h1 & hi & h2 & lo & -> & H1 & H2 & Hhi & Hlo & ->)].
  - rewrite (proj2 (read_hex4_Some _ cp (mk_parser l e))) by eauto.
    unfold scalar in Hs. replace (_ && _) with false by lia. by replace (_ && _) with false by lia.
  - rewrite (proj2 (read_hex4_Some _ hi (mk_parser (92 :: 117 :: h2 ++ l) e)))
      by (exists h1; by rewrite <- app_assoc).
    replace (_ && _) with true by lia. cbn [p_rest p_error length].
    rewrite length_app, (hex4_length h2 lo) by done.
    change (at_ (92 :: ?l) 0) with 92. change (at_ (_ :: ?x :: _) 1) with x.
    replace (_ || _) with false by lia. unfold advance. cbn [p_rest p_error drop].
    rewrite drop_0, (proj2 (read_hex4_Some _ lo (mk_parser l e))) by eauto.
    replace (_ || _) with false by lia. by rewrite surrogate_value.
Qed.

Lemma read_unicode_escape_fail p p' :
  read_unicode_escape p = (None, p') ->
  exists m l, p' = tamga_json_fail (mk_parser l (p_error p)) (json_message m).
Proof.
  unfold read_unicode_escape. destruct (tamga_json_read_hex4 p) as [[v p1]|] eqn:E1.
  - apply read_hex4_Some in E1 as (h & _ & _ & <-).
    destruct (_ && _); [|destruct (_ && _); intros; simplify_eq; destruct p1; eauto].
    destruct (_ || _); [intros; simplify_eq; destruct p1; eauto|].
    change (p_error p1) with (p_error (advance 2 p1)). generalize (advance 2 p1). intros p2.
    destruct (tamga_json_read_hex4 p2) as [[low p3]|] eqn:E2.
    + apply read_hex4_Some in E2 as (h2 & _ & _ & <-).
      destruct (_ || _); intros; simplify_eq; destruct p3; eauto.
    + intros; simplify_eq; destruct p2; eauto.
  - intros; simplify_eq. destruct p; eauto.
Qed.

Lemma uescape_length u cp : uescape u cp -> (length (utf8 cp) <= length u)%nat.
Proof.
  pose proof (utf8_length cp).
  intros [[Hh _]|(h1 & hi & h2 & lo & -> & H1 & H2 & _)].
  - rewrite (hex4_length u cp) by done. lia.
  - rewrite length_app. simpl. rewrite (hex4_length h1 hi), (hex4_length h2 lo) by done. lia.
Qed.

Section Loop.
Context {malloc : Malloc}.

Lemma append_each_post out l :
  buf_wf out -> post (append_each out l) (appended out (Some l)).
Proof.
  revert out. induction l as [|c l IH]; intros out Hwf; simpl.
  { apply post_ret. by apply appended_nil. }
  eapply post_bind; [by apply append_post|]. intros b Hb.
  eapply post_mono; [apply IH; apply Hb|]. intros b' Hb'.
  exact (appended_trans _ [c] _ _ _ Hb Hb').
Qed.

(** What the string scanner promises when it returns true, for any
    allocator: the text it passed is in the grammar, and the buffer has
    grown by what that text denotes. *)
Definition scanned (l : bytes) (e : option json_error) (out : TamgaBuf)
  (r : bool * TamgaJsonParser * TamgaBuf) : Prop :=
  let '(ok, p', out') := r in
  ok = true -> exists d t, jstr d t /\ l = t ++ 34 :: p_rest p' /\ p_error p' = e /\
    appended out (Some d) out' /\ buf_failed out' = false.

Lemma scanned_step l e out d1 t1 b r :
  appended out (Some d1) b -> (forall d t, jstr d t -> jstr (d1 ++ d) (t1 ++ t)) ->
  scanned l e b r -> scanned (t1 ++ l) e out r.
Proof.
  destruct r as [[ok p'] out']. intros Hb Hstep Hr Hok.
  destruct (Hr Hok) as (d & t & Hdt & -> & He & Happ & Hf). exists (d1 ++ d), (t1 ++ t).
  split_and!; auto; [by rewrite <- app_assoc|]. by eapply appended_trans.
Qed.

Lemma string_loop_sound fuel p out :
  buf_wf out -> bytes_ok (p_rest p) ->
  post (string_loop fuel p out) (scanned (p_rest p) (p_error p) out).
Proof.
  revert p out. induction fuel as [|f IH]; intros [l e] out Hwf Hok; cbn [string_loop p_rest p_error] in *;
    [by apply post_ret|].
  destruct l as [|c l]; [by apply post_ret|].
  assert (forall b d1 t1 l', appended out (Some d1) b -> c :: l = t1 ++ l' ->
    (forall d t, jstr d t -> jstr (d1 ++ d) (t1 ++ t)) ->
    post (string_loop f (mk_parser l' e) b) (scanned (c :: l) e out)) as Hnext.
  { intros b d1 t1 l' Hb Hl Hstep. rewrite Hl in Hok |- *. eapply post_mono.
    - apply IH; [apply Hb|]. by apply Forall_app in Hok as [_ ?].
    - intros r Hr. by eapply scanned_step. }
  destruct (Z.eqb_spec c 34) as [->|Hq].
  { apply post_ret. unfold scanned, tamga_buf_ok, advance. cbn. rewrite drop_0. intros Hf. exists [], [].
    split_and!; try done; [constructor|by apply appended_nil|]. by destruct (buf_failed out). }
  destruct (Z.eqb_spec c 92) as [->|Hbs].
  { unfold advance. cbn [p_rest p_error drop]. rewrite drop_0. destruct l as [|esc l]; [by apply post_ret|].
    destruct (short_escape esc) as [b|] eqn:Hsh.
    { eapply post_bind; [by apply append_post|]. cbn. intros out' Hout'. rewrite drop_0.
      eapply (Hnext out' [b] [92; esc]); [done..|]. intros d t Hd. by apply jstr_short. }
    destruct (Z.eqb_spec esc 117) as [->|]; [|by apply post_ret]. cbn [p_rest drop]. rewrite drop_0.
    destruct (read_unicode_escape _) as [[cp|] p'] eqn:Eu; [|by apply post_ret].
    apply read_unicode_escape_sound in Eu as (u & Hu & Hl & He). cbn [p_rest p_error] in Hl, He.
    pose proof (uescape_scalar _ _ Hu).
    eapply post_bind; [by apply append_each_post|]. rewrite utf8_bytes_eq by done. intros out' Hout'.
    destruct p' as [l' e']. cbn [p_rest p_error] in *. subst e' l.
    eapply (Hnext out' (utf8 cp) (92 :: 117 :: u)); [done..|]. intros d t Hd. by apply jstr_u. }
  destruct (Z.ltb_spec c 32); [by apply post_ret|].
  destruct (tamga_utf8_sequence_len (c :: l)) as [|n] eqn:Hn; [by apply post_ret|].
  apply sequence_len_sound in Hn as (cp & l' & Hs & Hl & Hlen); [|done].
  cbn [Nat.eqb]. eapply post_bind; [by apply append_post|]. rewrite Hl, <- Hlen, take_app_length.
  intros out' Hout'. unfold advance. cbn [p_rest p_error]. rewrite drop_app_length, <- Hl.
  eapply (Hnext out' (utf8 cp) (utf8 cp)); [done..|]. intros d t Hd.
  assert (cp < 128 -> c = cp) as Hc.
  { intros Hlt. unfold utf8 in Hl. rewrite (proj2 (Z.ltb_lt _ _)) in Hl by done. by injection Hl. }
  assert (0 <= cp) by (unfold scalar in Hs; lia).
  apply jstr_raw; try done; lia.
Qed.

(** More rounds than characters change nothing. *)
Lemma string_loop_fuel f1 f2 p out s :
  (length (p_rest p) < f1)%nat -> (length (p_rest p) < f2)%nat ->
  string_loop f1 p out s = string_loop f2 p out s.
Proof.
  revert f2 p out s. induction f1 as [|f1 IH]; intros [|f2] [l e] out s H1 H2; cbn [p_rest] in *; try lia.
  cbn [string_loop p_rest]. destruct l as [|c l]; [done|]. cbn [length] in *.
  destruct (c =? 34); [done|]. destruct (c =? 92).
  { unfold advance. cbn [p_rest p_error drop]. rewrite drop_0. destruct l as [|esc l]; [done|].
    cbn [length drop] in *. rewrite drop_0. destruct (short_escape esc) as [b|].
    { unfold bind. destruct (tamga_buf_append_byte out b s). apply IH; cbn; lia. }
    destruct (esc =? 117); [|done].
    destruct (read_unicode_escape _) as [[cp|] p'] eqn:Eu; [|done].
    apply read_unicode_escape_sound in Eu as (u & _ & Hl & _). cbn [p_rest] in Hl. subst l.
    rewrite length_app in *. unfold bind. destruct (tamga_utf8_encode cp out s). apply IH; lia. }
  destruct (c <? 32); [done|]. destruct (tamga_utf8_sequence_len (c :: l)) as [|n]; [done|].
  cbn [Nat.eqb]. unfold bind. destruct (tamga_buf_append out _ s). apply IH; cbn; rewrite length_drop; lia.
Qed.
End Loop.

Lemma jstr_bytes d t : jstr d t -> (length d <= length t)%nat.
Proof.
  induction 1 as [|cp d t _ _ _ _ _ IH|e b d t _ _ IH|h cp d t Hh _ _ IH|h1 hi h2 lo d t H1 _ H2 _ _ IH];
    rewrite ?length_app; simpl; try lia.
  - rewrite length_app, (hex4_length h cp) by done. pose proof (utf8_length cp). lia.
  - repeat (rewrite length_app; simpl). rewrite (hex4_length h1 hi), (hex4_length h2 lo) by done.
    match goal with |- context [utf8 ?cp] => pose proof (utf8_length cp) end. lia.
Qed.

Section Memory.
Context {malloc : Malloc} {limit : Z} `{!MallocUpTo limit} (Hlimit : 64 <= limit <= SIZE_MAX).

Abbreviation room := (buf_room (limit := limit)).

Lemma append_each_room out l n :
  room out (zlen l + n) -> 0 <= n ->
  post (append_each out l) (fun b => room b n /\ buf_bytes b = buf_bytes out ++ l).
Proof.
  intros Hr Hn. revert out Hr. induction l as [|c l IH]; intros out Hr; simpl.
  { apply post_ret. by rewrite app_nil_r. }
  eapply post_bind.
  { apply (append_room Hlimit out [c] (zlen l + n)); [|lia].
    by replace (zlen [c] + (zlen l + n)) with (zlen (c :: l) + n) by (simpl; lia). }
  intros b [Hb Hbytes]. eapply post_mono; [by apply IH|]. simpl. intros b' [? ->].
  split; [done|]. by rewrite Hbytes, <- app_assoc.
Qed.

(** The scanner completes on the text [t], which denotes [d]. *)
Definition completes (d t : bytes) : Prop :=
  forall fuel out rest e n,
  (length t < fuel)%nat -> room out (zlen d + n) -> 0 <= n ->
  post (string_loop fuel (mk_parser (t ++ 34 :: rest) e) out) (fun r =>
    exists out', r = (true, mk_parser rest e, out') /\ room out' n /\ buf_bytes out' = buf_bytes out ++ d).

Lemma completes_after d1 d t fuel out b rest e n :
  completes d t -> (length t < fuel)%nat -> 0 <= n ->
  room b (zlen d + n) /\ buf_bytes b = buf_bytes out ++ d1 ->
  post (string_loop fuel (mk_parser (t ++ 34 :: rest) e) b) (fun r =>
    exists out', r = (true, mk_parser rest e, out') /\ room out' n /\
      buf_bytes out' = buf_bytes out ++ d1 ++ d).
Proof.
  intros Hc Hf Hn [Hb Hbytes]. eapply post_mono; [by apply Hc|].
  intros r (out' & -> & ? & Ho). exists out'. by rewrite Ho, Hbytes, <- app_assoc.
Qed.

Lemma room_split out (l d : bytes) n : room out (zlen (l ++ d) + n) -> room out (zlen l + (zlen d + n)).
Proof. by rewrite length_app, Nat2Z.inj_add, Z.add_assoc. Qed.

Lemma completes_u u cp d t :
  uescape u cp -> completes d t -> completes (utf8 cp ++ d) (92 :: 117 :: u ++ t).
Proof.
  intros Hu Hc [|fuel] out rest e n Hfuel Hr Hn; [lia|]. cbn [string_loop p_rest app].
  cbn [Z.eqb Pos.eqb]. unfold advance. cbn [p_rest p_error drop]. cbn [short_escape Z.eqb Pos.eqb].
  rewrite drop_0, <- app_assoc, (read_unicode_escape_complete u cp) by done.
  eapply post_bind.
  { unfold tamga_utf8_encode. rewrite utf8_bytes_eq by by eapply uescape_scalar.
    eapply append_each_room; [by apply room_split|lia]. }
  intros b Hb. apply completes_after; [done| |done..]. simpl in Hfuel. rewrite length_app in Hfuel. lia.
Qed.

Lemma string_loop_complete d t : jstr d t -> completes d t.
Proof.
  induction 1 as [|cp d t Hs H32 H34 H92 _ IH|esc b d t Hsh _ IH|h cp d t Hh Hs _ IH|h1 hi h2 lo d t H1 Hhi H2 Hlo _ IH].
  - intros [|fuel] out rest e n Hfuel Hr Hn; [lia|]. apply post_ret. exists out. rewrite app_nil_r.
    split_and!; try done. unfold tamga_buf_ok, advance. cbn. rewrite drop_0. by destruct Hr as (_ & -> & _).
  - intros [|fuel] out rest e n Hfuel Hr Hn; [lia|]. cbn [string_loop p_rest].
    rewrite <- app_assoc. pose proof (sequence_len_utf8 cp (t ++ 34 :: rest) Hs) as Hlen.
    pose proof (utf8_length cp).
    assert (exists c l, utf8 cp = c :: l /\ c <> 34 /\ c <> 92 /\ 32 <= c) as (c & l & Hu & Hc1 & Hc2 & Hc3).
    { unfold utf8, scalar in *. repeat dif; do 2 eexists; (split; [done|]); zdm. }
    rewrite Hlen. apply room_split in Hr. rewrite length_app in Hfuel. rewrite Hu in *. cbn [app].
    rewrite (proj2 (Z.eqb_neq c 34)), (proj2 (Z.eqb_neq c 92)), (proj2 (Z.ltb_ge c 32)) by done.
    cbn [length Nat.eqb]. rewrite app_comm_cons. change (S (length l)) with (length (c :: l)).
    rewrite take_app_length. eapply post_bind; [apply (append_room Hlimit); [exact Hr|lia]|].
    intros b' Hb. unfold advance. cbn [p_rest p_error]. rewrite drop_app_length.
    apply (completes_after (c :: l)); [done| |done..]. simpl in Hfuel. lia.
  - intros [|fuel] out rest e n Hfuel Hr Hn; [lia|]. cbn [string_loop p_rest app Z.eqb Pos.eqb].
    unfold advance. cbn [p_rest p_error drop]. rewrite Hsh.
    eapply post_bind; [apply (append_room Hlimit); [exact (room_split out [b] d n Hr)|lia]|].
    intros b' Hb. rewrite drop_0. apply (completes_after [b]); [done| |done..]. simpl in Hfuel. lia.
  - apply completes_u; [by left|done].
  - replace (h1 ++ 92 :: 117 :: h2 ++ t) with ((h1 ++ 92 :: 117 :: h2) ++ t) by (by rewrite <- app_assoc).
    apply completes_u; [|done]. right. eauto 12.
Qed.

(** With memory, a refusal always carries a message about the text. *)
Lemma string_loop_honest fuel l e out n :
  (length l < fuel)%nat -> room out (zlen l + n) -> 0 <= n ->
  post (string_loop fuel (mk_parser l e) out) (fun '(ok, p', out') =>
    if ok : bool then room out' n
    else exists m l', p' = tamga_json_fail (mk_parser l' e) (json_message m)).
Proof.
  revert l out. induction fuel as [|f IH]; intros l out Hf Hr Hn; [lia|]. cbn [string_loop p_rest].
  destruct l as [|c l]; [apply post_ret; eauto|]. cbn [length] in *.
  destruct (c =? 34).
  { apply post_ret. unfold tamga_buf_ok. pose proof Hr as (Hw & Hfl & Hlen). rewrite Hfl. simpl.
    split_and!; [done..|]. lia. }
  assert (forall l1 l', (length l' < length (c :: l))%nat -> zlen l1 + zlen l' <= zlen (c :: l) ->
    forall b, room b (zlen (c :: l) - zlen l1 + n) /\ buf_bytes b = buf_bytes out ++ l1 ->
    post (string_loop f (mk_parser l' e) b) (fun '(ok, p', out') =>
    if ok : bool then room out' n
    else exists m l', p' = tamga_json_fail (mk_parser l' e) (json_message m))) as Hnext.
  { intros l1 l' Hl1 Hl2 b [(Hw & Hfl & Hlen) _]. apply IH; [simpl in *; lia| |done].
    split_and!; [done..|]. simpl in *. lia. }
  assert (forall l1 : bytes, zlen l1 <= zlen (c :: l) -> room out (zlen l1 + (zlen (c :: l) - zlen l1 + n))) as Hroom.
  { intros l1 Hl1. destruct Hr as (Hw & Hfl & Hlen). split_and!; [done..|]. simpl in *. lia. }
  destruct (c =? 92).
  { unfold advance. cbn [p_rest p_error drop]. rewrite drop_0. destruct l as [|esc l]; [apply post_ret; eauto|].
    cbn [drop]. rewrite drop_0. destruct (short_escape esc) as [b|].
    { eapply post_bind; [apply (append_room Hlimit); [apply Hroom|]; simpl; lia|].
      apply Hnext; simpl; lia. }
    destruct (esc =? 117); [|apply post_ret; eauto].
    destruct (read_unicode_escape _) as [[cp|] p'] eqn:Eu.
    - apply read_unicode_escape_sound in Eu as (u & Hu & Hl & He). cbn [p_rest p_error] in Hl, He.
      pose proof (uescape_length u cp Hu). pose proof (utf8_length cp).
      destruct p' as [l' e']. cbn [p_rest p_error] in *. subst l e'. simpl length in *. rewrite length_app in *.
      eapply post_bind.
      { unfold tamga_utf8_encode. rewrite utf8_bytes_eq by by eapply uescape_scalar.
        apply append_each_room; [apply Hroom; simpl; rewrite ?length_app; lia|simpl; rewrite ?length_app; lia]. }
      apply Hnext; simpl; rewrite ?length_app; lia.
    - apply read_unicode_escape_fail in Eu as (m & l' & ->). apply post_ret. eauto. }
  destruct (c <? 32); [apply post_ret; eauto|].
  destruct (tamga_utf8_sequence_len (c :: l)) as [|k] eqn:Hk; cbn [Nat.eqb]; [apply post_ret; eauto|].
  eapply post_bind.
  { apply (append_room Hlimit); [apply Hroom|]; rewrite length_take; simpl; lia. }
  unfold advance. cbn [p_rest p_error]. apply Hnext; rewrite ?length_take, length_drop; simpl; lia.
Qed.
End Memory.
