(* ===== verification/JsonNumber.v ===== *)
(** * JSON numbers: the grammar and the number scanner

    [num] is a number literal of RFC 8259 with its parts named; [num_json] is
    the node it denotes: an exact [int64_t] when the literal has neither
    fraction nor exponent and fits, the nearest binary64 otherwise. *)

From Stdlib Require Import String SpecFloat.
From S2P Require Import Prelude World Buf Float Json JsonParse.
#[local] Open Scope Z_scope.

Record num := mk_num {
  n_neg : bool;
  n_int : bytes;
  n_frac : option bytes;
  n_exp : option (Z * option Z * bytes);  (** the letter, the sign, the digits *)
}.

Definition digits (l : bytes) : Prop := l <> [] /\ forallb is_dec l = true.

Definition num_ok (n : num) : Prop :=
  digits (n_int n) /\ (n_int n = [48] \/ peek_at (n_int n) <> 48) /\
  (match n_frac n with None => True | Some ds => digits ds end) /\
  (match n_exp n with
   | None => True
   | Some (c, sign, ds) =>
       (c = 101 \/ c = 69) /\ (match sign with None => True | Some s => s = 43 \/ s = 45 end) /\ digits ds
   end).

Definition frac_text (f : option bytes) : bytes := match f with None => [] | Some ds => 46 :: ds end.
Definition exp_text (x : option (Z * option Z * bytes)) : bytes :=
  match x with
  | None => []
  | Some (c, sign, ds) => c :: (match sign with None => [] | Some s => [s] end) ++ ds
  end.
Definition sign_text (neg : bool) : bytes := if neg then [45] else [].
Definition num_text (n : num) : bytes :=
  sign_text (n_neg n) ++ n_int n ++ frac_text (n_frac n) ++ exp_text (n_exp n).

(** The value of a digit string, continuing from [acc]. *)
Definition digits_val (acc : Z) (l : bytes) : Z := fold_left (fun a c => a * 10 + (c - 48)) l acc.

Definition exp_val (x : option (Z * option Z * bytes)) : Z :=
  match x with
  | None => 0
  | Some (_, sign, ds) =>
      match sign with Some 45 => - digits_val 0 ds | _ => digits_val 0 ds end
  end.

Definition num_is_integer (n : num) : bool :=
  match n_frac n, n_exp n with None, None => true | _, _ => false end.
Definition num_int (n : num) : Z :=
  if n_neg n then - digits_val 0 (n_int n) else digits_val 0 (n_int n).
Definition num_real (n : num) : spec_float :=
  sf_of_decimal (n_neg n) (digits_val 0 (n_int n ++ default [] (n_frac n)))
                (exp_val (n_exp n) - zlen (default [] (n_frac n))).
Definition num_json (n : num) : json :=
  if num_is_integer n && (INT64_MIN <=? num_int n) && (num_int n <=? INT64_MAX)
  then JInt (num_int n) else JReal (num_real n).

(** ** Digit runs *)

Lemma read_digits_run ds l acc n :
  forallb is_dec ds = true -> is_dec (peek_at l) = false ->
  read_digits (ds ++ l) acc n = (digits_val acc ds, (n + length ds)%nat, l).
Proof.
  intros Hds Hl. revert acc n. induction ds as [|c ds IH]; intros acc n; simpl in *.
  - destruct l as [|c l]; simpl in *; [|rewrite Hl]; by rewrite Nat.add_0_r.
  - apply andb_true_iff in Hds as [-> Hds]. rewrite IH by done. by rewrite <- Nat.add_succ_comm.
Qed.

Lemma skip_digit_run_app ds l :
  forallb is_dec ds = true -> is_dec (peek_at l) = false -> skip_digit_run (ds ++ l) = l.
Proof.
  intros Hds Hl. induction ds as [|c ds IH]; simpl in *.
  - destruct l as [|c l]; simpl in *; [done|]. by rewrite Hl.
  - apply andb_true_iff in Hds as [-> Hds]. auto.
Qed.

Lemma skip_digit_run_split l :
  exists ds, l = ds ++ skip_digit_run l /\ forallb is_dec ds = true /\
             is_dec (peek_at (skip_digit_run l)) = false.
Proof.
  induction l as [|c l (ds & Hl & Hds & Hp)]; simpl; [by exists []|].
  destruct (is_dec c) eqn:Hc; [|by exists []].
  exists (c :: ds). simpl. rewrite Hc. split_and!; [by f_equal|done|done].
Qed.

Lemma digit_run_digits l :
  is_dec (peek_at l) = true ->
  exists ds, l = ds ++ skip_digit_run l /\ digits ds /\ is_dec (peek_at (skip_digit_run l)) = false /\
             peek_at ds = peek_at l.
Proof.
  destruct (skip_digit_run_split l) as (ds & Hl & Hds & Hp). intros Hd. exists ds.
  destruct ds as [|c ds]; [simpl in Hl; rewrite <- Hl in Hp; congruence|].
  split_and!; try done. rewrite Hl. done.
Qed.

(** ** [strtod] and [strtoll] on a literal *)

Lemma is_dec_range c : is_dec c = true <-> 48 <= c <= 57.
Proof. unfold is_dec. lia. Qed.

Lemma digits_head ds : digits ds -> is_dec (peek_at ds) = true.
Proof. intros [Hne Hd]. destruct ds; [done|]. simpl in *. by apply andb_true_iff in Hd as [-> _]. Qed.

Lemma peek_app_ne (a b : bytes) : a <> [] -> peek_at (a ++ b) = peek_at a.
Proof. by destruct a. Qed.

(** The sign is split off by both conversions in the same way. *)
Lemma split_sign neg ds l :
  digits ds ->
  (match sign_text neg ++ ds ++ l with
   | c :: r => if c =? 45 then (true, r) else (false, sign_text neg ++ ds ++ l)
   | [] => (false, sign_text neg ++ ds ++ l)
   end) = (neg, ds ++ l).
Proof.
  intros Hd. pose proof (digits_head ds Hd) as Hh. destruct neg; [done|]. simpl.
  destruct Hd as [Hne _]. destruct ds as [|c ds]; [done|]. simpl in *. apply is_dec_range in Hh.
  by replace (c =? 45) with false by lia.
Qed.

Lemma read_exponent_text x :
  (match x with
   | None => True
   | Some (c, sign, ds) =>
       (c = 101 \/ c = 69) /\ (match sign with None => True | Some s => s = 43 \/ s = 45 end) /\ digits ds
   end) -> read_exponent (exp_text x) = (exp_val x, []).
Proof.
  destruct x as [[[c sign] ds]|]; [|done]. intros (Hc & Hs & Hd). unfold read_exponent, exp_text.
  replace ((c =? 101) || (c =? 69)) with true by lia.
  pose proof (digits_head ds Hd) as Hh. apply is_dec_range in Hh. destruct Hd as [Hne Hd].
  assert (read_digits ds 0 0 = (digits_val 0 ds, length ds, [])) as Hr.
  { pose proof (read_digits_run ds [] 0 0 Hd eq_refl) as H. by rewrite app_nil_r in H. }
  destruct sign as [s|]; cbn [app].
  - destruct Hs as [-> | ->]; cbn [Z.eqb Pos.eqb]; rewrite Hr; by destruct ds.
  - destruct ds as [|d ds]; [done|]. simpl in Hh.
    replace (d =? 45) with false by lia. replace (d =? 43) with false by lia. by rewrite Hr.
Qed.

Lemma digits_val_app acc a b : digits_val acc (a ++ b) = digits_val (digits_val acc a) b.
Proof. apply fold_left_app. Qed.

Lemma exp_text_head n : num_ok n -> is_dec (peek_at (exp_text (n_exp n))) = false /\ peek_at (exp_text (n_exp n)) <> 46.
Proof.
  intros (_ & _ & _ & Hx). destruct (n_exp n) as [[[c sign] ds]|]; [|done].
  destruct Hx as [[->| ->] _]; done.
Qed.

Lemma strtod_num n : num_ok n -> strtod (num_text n) = (num_real n, []).
Proof.
  intros Hok. pose proof (exp_text_head n Hok) as [Hx1 Hx2]. destruct Hok as (Hi & _ & Hf & Hx).
  unfold strtod, num_text. rewrite split_sign by done.
  rewrite read_digits_run; [|apply Hi|].
  2:{ destruct (n_frac n); [done|]. exact Hx1. }
  unfold num_real. destruct (n_frac n) as [ds|]; cbn [frac_text app default].
  - cbn [Z.eqb Pos.eqb]. rewrite read_digits_run; [|apply Hf|done].
    destruct Hi as [Hne _]. destruct (n_int n) eqn:E; [done|]. rewrite <- E.
    replace (_ =? 0)%nat with false by (rewrite E; simpl; lia).
    rewrite read_exponent_text by done. by rewrite digits_val_app.
  - rewrite app_nil_r.
    replace (match exp_text (n_exp n) with [] => _ | c :: r => _ end)
      with (digits_val 0 (n_int n), 0%nat, exp_text (n_exp n)).
    2:{ destruct (exp_text (n_exp n)); [done|]. simpl in Hx2. by rewrite (proj2 (Z.eqb_neq _ 46)). }
    destruct Hi as [Hne _]. destruct (n_int n) eqn:E; [done|]. rewrite <- E.
    replace (_ =? 0)%nat with false by (rewrite E; simpl; lia).
    by rewrite read_exponent_text by done.
Qed.

Lemma strtoll_num n :
  num_ok n -> num_is_integer n = true ->
  strtoll (num_text n) =
  if num_int n <? INT64_MIN then (INT64_MIN, [], false)
  else if num_int n >? INT64_MAX then (INT64_MAX, [], false)
  else (num_int n, [], true).
Proof.
  intros (Hi & _) Hint. unfold strtoll, num_text, num_is_integer, num_int in *.
  destruct (n_frac n); [done|]. destruct (n_exp n); [done|]. cbn [frac_text exp_text app].
  rewrite split_sign, read_digits_run by (done || apply Hi).
  destruct Hi as [Hne _]. destruct (n_int n) eqn:E; [done|]. rewrite <- E.
  by replace (_ =? 0)%nat with false by (rewrite E; simpl; lia).
Qed.

(** ** The scanner *)

(** What may follow a number: nothing that would continue it. *)
Definition num_stop (l : bytes) : Prop :=
  is_dec (peek_at l) = false /\ peek_at l <> 46 /\ peek_at l <> 101 /\ peek_at l <> 69.

Lemma peek_cons l c : peek_at l = c -> c <> 0 -> l = c :: drop 1 l.
Proof. destruct l; simpl; [congruence|]. intros -> _. by rewrite drop_0. Qed.

Lemma scan_int_sound l l1 :
  scan_int l = inr l1 ->
  exists neg ds, l = sign_text neg ++ ds ++ l1 /\ digits ds /\ (ds = [48] \/ peek_at ds <> 48).
Proof.
  unfold scan_int. intros H.
  assert (exists neg l', l = sign_text neg ++ l' /\ (if peek_at l =? 45 then drop 1 l else l) = l')
    as (neg & l' & -> & Hl').
  { destruct (Z.eqb_spec (peek_at l) 45) as [E|E].
    - exists true, (drop 1 l). split; [|done]. by apply peek_cons.
    - by exists false, l. }
  rewrite Hl' in H. exists neg. destruct (Z.eqb_spec (peek_at l') 48) as [E|E].
  - injection H as <-. exists [48]. split_and!; [|done|by left]. f_equal. by apply peek_cons.
  - destruct (_ && _) eqn:Hd; [|done]. injection H as <-.
    destruct (digit_run_digits l') as (ds & Hds & Hok & _ & Hh); [unfold is_dec; lia|].
    exists ds. split_and!; [by rewrite <- Hds|done|]. right. by rewrite Hh.
Qed.

Lemma scan_frac_sound l b l1 :
  scan_frac l = inr (b, l1) ->
  exists f, l = frac_text f ++ l1 /\ match f with None => b = true | Some ds => b = false /\ digits ds end.
Proof.
  unfold scan_frac. destruct (Z.eqb_spec (peek_at l) 46) as [E|E].
  - destruct (is_dec _) eqn:Hd; [|done]. simpl. intros [= <- <-].
    destruct (digit_run_digits _ Hd) as (ds & Hds & Hok & _). exists (Some ds). split; [|done].
    cbn [frac_text app]. rewrite <- Hds. by apply peek_cons.
  - intros [= <- <-]. by exists None.
Qed.

Lemma scan_exp_sound l b l1 :
  scan_exp l = inr (b, l1) ->
  exists x, l = exp_text x ++ l1 /\
    match x with
    | None => b = true
    | Some (c, sign, ds) => b = false /\ (c = 101 \/ c = 69) /\
        (match sign with None => True | Some s => s = 43 \/ s = 45 end) /\ digits ds
    end.
Proof.
  unfold scan_exp. destruct (_ || _) eqn:E; [|intros [= <- <-]; by exists None].
  assert (peek_at l = 101 \/ peek_at l = 69) as Hc by lia. clear E.
  assert (l = peek_at l :: drop 1 l) as Hl by (apply peek_cons; lia).
  set (r := drop 1 l) in *. clearbody r. destruct (_ || _) eqn:E.
  - assert (peek_at r = 43 \/ peek_at r = 45) as Hs by lia.
    assert (r = peek_at r :: drop 1 r) as Hr by (apply peek_cons; lia).
    destruct (is_dec _) eqn:Hd; [|done]. simpl. intros [= <- <-].
    destruct (digit_run_digits _ Hd) as (ds & Hds & Hok & _).
    exists (Some (peek_at l, Some (peek_at r), ds)). split; [|by split_and!].
    cbn [exp_text app]. rewrite <- Hds, <- Hr. done.
  - destruct (is_dec _) eqn:Hd; [|done]. simpl. intros [= <- <-].
    destruct (digit_run_digits _ Hd) as (ds & Hds & Hok & _).
    exists (Some (peek_at l, None, ds)). split; [|by split_and!].
    cbn [exp_text app]. rewrite <- Hds. done.
Qed.

Lemma scan_int_complete neg ds l :
  digits ds -> ds = [48] \/ peek_at ds <> 48 -> is_dec (peek_at l) = false ->
  scan_int (sign_text neg ++ ds ++ l) = inr l.
Proof.
  intros Hd Hz Hl. pose proof (digits_head ds Hd) as Hh. pose proof Hh as Hr. apply is_dec_range in Hr.
  pose proof Hd as [Hne Hds]. unfold scan_int.
  replace (if peek_at (sign_text neg ++ ds ++ l) =? 45 then _ else _) with (ds ++ l).
  2:{ destruct neg; cbn [sign_text app]; [done|]. rewrite peek_app_ne by done.
      by replace (peek_at ds =? 45) with false by lia. }
  rewrite peek_app_ne by done. destruct Hz as [->|Hz]; [done|].
  replace (peek_at ds =? 48) with false by lia. replace (_ && _) with true by lia.
  by rewrite skip_digit_run_app.
Qed.

Lemma scan_frac_complete f l :
  (match f with None => peek_at l <> 46 | Some ds => digits ds /\ is_dec (peek_at l) = false end) ->
  scan_frac (frac_text f ++ l) = inr (match f with None => true | Some _ => false end, l).
Proof.
  unfold scan_frac. destruct f as [ds|]; cbn [frac_text app peek_at].
  - intros [Hd Hl]. pose proof Hd as [Hne Hds]. cbn [Z.eqb Pos.eqb drop]. rewrite drop_0.
    rewrite peek_app_ne, digits_head by done. simpl. by rewrite skip_digit_run_app.
  - intros Hl. by rewrite (proj2 (Z.eqb_neq _ 46)).
Qed.

Lemma scan_exp_complete x l :
  (match x with
   | None => peek_at l <> 101 /\ peek_at l <> 69
   | Some (c, sign, ds) => (c = 101 \/ c = 69) /\
        (match sign with None => True | Some s => s = 43 \/ s = 45 end) /\ digits ds /\
        is_dec (peek_at l) = false
   end) ->
  scan_exp (exp_text x ++ l) = inr (match x with None => true | Some _ => false end, l).
Proof.
  unfold scan_exp. destruct x as [[[c sign] ds]|]; cbn [exp_text app peek_at].
  - intros (Hc & Hs & Hd & Hl). replace (_ || _) with true by lia. cbn [drop]. rewrite drop_0, <- app_assoc.
    pose proof (digits_head ds Hd) as Hh. pose proof Hh as Hr. apply is_dec_range in Hr.
    pose proof Hd as [Hne Hds].
    match goal with |- context [if ?b then drop 1 ?r else ?r] =>
      replace (if b then drop 1 r else r) with (ds ++ l) end.
    2:{ destruct sign as [s|]; cbn [app peek_at].
        - replace (_ || _) with true by lia. by cbn [drop]; rewrite drop_0.
        - rewrite peek_app_ne by done. by replace (_ || _) with false by lia. }
    rewrite peek_app_ne, Hh by done. simpl. by rewrite skip_digit_run_app.
  - intros [H1 H2]. by replace (_ || _) with false by lia.
Qed.

Lemma num_text_nonempty n : num_ok n -> (1 <= length (num_text n))%nat.
Proof.
  intros [[Hne _] _]. unfold num_text. rewrite !length_app. destruct (n_int n); [done|]. simpl. lia.
Qed.

Section Number.
Context {malloc : Malloc}.

Lemma number_value_eq n p :
  num_ok n -> zlen (num_text n) <= TAMGA_JSON_MAX_NUMBER_CHARS ->
  number_value p (num_text n) (num_is_integer n) =
  (let! value := tamga_json_new (num_json n) in ret (value, p)).
Proof.
  intros Hok Hlen. unfold number_value, num_json. rewrite strtod_num by done.
  destruct (Z.gtb_spec (zlen (num_text n)) TAMGA_JSON_MAX_NUMBER_CHARS); [lia|].
  destruct (num_is_integer n) eqn:Hi.
  - rewrite strtoll_num by done. cbn [andb].
    destruct (Z.ltb_spec (num_int n) INT64_MIN).
    { by replace (INT64_MIN <=? num_int n) with false by lia. }
    destruct (Z.gtb_spec (num_int n) INT64_MAX).
    { replace (INT64_MIN <=? num_int n) with true by lia. by replace (num_int n <=? INT64_MAX) with false by lia. }
    replace (INT64_MIN <=? num_int n) with true by lia. by replace (num_int n <=? INT64_MAX) with true by lia.
  - destruct (strtoll (num_text n)) as [[? ?] ?]. done.
Qed.

Lemma parse_number_scan p :
  (exists m l, tamga_json_parse_number p =
     ret (None, tamga_json_fail (mk_parser l (p_error p)) (json_message m))) \/
  (exists n l, num_ok n /\ p_rest p = num_text n ++ l /\
     tamga_json_parse_number p = number_value (mk_parser l (p_error p)) (num_text n) (num_is_integer n)).
Proof.
  unfold tamga_json_parse_number. destruct (scan_int (p_rest p)) as [[m l]|l1] eqn:E1; [left; eauto|].
  destruct (scan_frac l1) as [[m l]|[b1 l2]] eqn:E2; [left; eauto|].
  destruct (scan_exp l2) as [[m l]|[b2 l3]] eqn:E3; [left; eauto|]. right.
  apply scan_int_sound in E1 as (neg & ds & Hl & Hd & Hz). apply scan_frac_sound in E2 as (f & -> & Hf).
  apply scan_exp_sound in E3 as (x & -> & Hx). exists (mk_num neg ds f x), l3.
  assert (p_rest p = num_text (mk_num neg ds f x) ++ l3) as Hp.
  { rewrite Hl. unfold num_text. cbn. by rewrite <- !app_assoc. }
  split_and!; [|done|].
  - split_and!; try done; cbn.
    + destruct f as [fs|]; [|done]. by destruct Hf.
    + destruct x as [[[c sg] xs]|]; [|done]. by destruct Hx.
  - f_equal.
    + rewrite Hp at 1 2. rewrite length_app. replace (_ - _)%nat with (length (num_text (mk_num neg ds f x))) by lia.
      by rewrite take_app_length.
    + unfold num_is_integer. cbn. destruct f; [by destruct Hf as [-> _]|].
      destruct x as [[[? ?] ?]|]; [destruct Hx as [-> _]|]; subst; done.
Qed.

Lemma parse_number_sound p :
  post (tamga_json_parse_number p) (fun '(r, p') => forall j, r = Some j ->
    exists n, num_ok n /\ zlen (num_text n) <= TAMGA_JSON_MAX_NUMBER_CHARS /\
      p_rest p = num_text n ++ p_rest p' /\ p_error p' = p_error p /\ j = num_json n).
Proof.
  destruct (parse_number_scan p) as [(m & l & ->)|(n & l & Hok & Hp & ->)]; [by apply post_ret|].
  destruct (Z.leb_spec (zlen (num_text n)) TAMGA_JSON_MAX_NUMBER_CHARS) as [Hlen|Hlen].
  - rewrite number_value_eq by done. eapply post_bind; [apply new_post|].
    intros r Hr. apply post_ret. intros j ->. destruct Hr as [?|[= ->]]; [done|]. by exists n.
  - unfold number_value. destruct (Z.gtb_spec (zlen (num_text n)) TAMGA_JSON_MAX_NUMBER_CHARS); [|lia].
    by apply post_ret.
Qed.

Lemma parse_number_complete n l e :
  num_ok n -> num_stop l ->
  tamga_json_parse_number (mk_parser (num_text n ++ l) e) =
  number_value (mk_parser l e) (num_text n) (num_is_integer n).
Proof.
  intros Hok (Hs1 & Hs2 & Hs3 & Hs4). pose proof (exp_text_head n Hok) as [Hx1 Hx2].
  destruct Hok as (Hi & Hz & Hf & Hx). unfold tamga_json_parse_number. cbn [p_rest p_error].
  assert (forall l', peek_at (exp_text (n_exp n) ++ l) = l' -> is_dec l' = false /\ l' <> 46) as Hxl.
  { intros l' <-. destruct (n_exp n) as [[[c sg] xs]|]; [|done]. cbn [exp_text app peek_at] in *. done. }
  specialize (Hxl _ eq_refl) as [Hxl1 Hxl2].
  unfold num_text at 1. rewrite <- !app_assoc, scan_int_complete by
    (done || destruct (n_frac n); done).
  rewrite scan_frac_complete by (destruct (n_frac n); done).
  rewrite scan_exp_complete.
  2:{ destruct (n_exp n) as [[[c sg] xs]|]; [|done]. destruct Hx as (? & ? & ?). done. }
  f_equal.
  - rewrite length_app. replace (_ - _)%nat with (length (num_text n)) by lia. by rewrite take_app_length.
  - unfold num_is_integer. destruct (n_frac n), (n_exp n) as [[[? ?] ?]|]; done.
Qed.

Context {limit : Z} `{!MallocUpTo limit} (Hlimit : 64 <= limit).

Lemma parse_number_ok n l e :
  num_ok n -> num_stop l -> zlen (num_text n) <= TAMGA_JSON_MAX_NUMBER_CHARS ->
  post (tamga_json_parse_number (mk_parser (num_text n ++ l) e)) (fun r => r = (Some (num_json n), mk_parser l e)).
Proof.
  intros Hok Hs Hlen. rewrite parse_number_complete, number_value_eq by done.
  eapply post_bind; [by apply (new_ok (limit := limit))|]. intros ? ->. by apply post_ret.
Qed.

Lemma parse_number_honest p :
  post (tamga_json_parse_number p) (fun '(r, p') =>
    r = None -> exists m l, p' = tamga_json_fail (mk_parser l (p_error p)) (json_message m)).
Proof.
  destruct (parse_number_scan p) as [(m & l & ->)|(n & l & Hok & Hp & ->)]; [apply post_ret; eauto|].
  destruct (Z.leb_spec (zlen (num_text n)) TAMGA_JSON_MAX_NUMBER_CHARS) as [Hlen|Hlen].
  - rewrite number_value_eq by done. eapply post_bind; [by apply (new_ok (limit := limit))|].
    intros ? ->. by apply post_ret.
  - unfold number_value. destruct (Z.gtb_spec (zlen (num_text n)) TAMGA_JSON_MAX_NUMBER_CHARS); [|lia].
    apply post_ret. eauto.
Qed.
End Number.
