(* ===== verification/JsonGrammar.v ===== *)
(** * JSON documents: the parser accepts exactly the grammar

    [jval n j t]: the text [t] is a JSON value of nesting at most [n] that
    denotes the tree [j]. [tamga_json_parse] is sound for it with any
    allocator, complete for it when the allocator serves what a document of
    the accepted size can ask for, and then blames memory for nothing. *)

From Stdlib Require Import String SpecFloat.
From S2P Require Import Prelude World Buf Float Json JsonParse Utf8 JsonString JsonNumber.
#[local] Open Scope Z_scope.

Definition ws (l : bytes) : Prop := forallb is_ws l = true.

(** An object literal inserts its members in order; a repeated key replaces
    the value and keeps the place of its first occurrence. *)
Definition build_members (ms : list (bytes * json)) : list (bytes * json) :=
  fold_left (fun acc m => obj_set acc m.1 m.2) ms [].

Inductive jval : nat -> json -> bytes -> Prop :=
| jv_null n : jval (S n) JNull (bstr "null")
| jv_true n : jval (S n) (JBool true) (bstr "true")
| jv_false n : jval (S n) (JBool false) (bstr "false")
| jv_num n k :
    num_ok k -> zlen (num_text k) <= TAMGA_JSON_MAX_NUMBER_CHARS -> jval (S n) (num_json k) (num_text k)
| jv_str n d t : jstr d t -> jval (S n) (JString d) (34 :: t ++ [34])
| jv_arr_empty n w : ws w -> jval (S n) (JArray []) (91 :: w ++ [93])
| jv_arr n w items t : ws w -> jitems n items t -> jval (S n) (JArray items) (91 :: w ++ t ++ [93])
| jv_obj_empty n w : ws w -> jval (S n) (JObject []) (123 :: w ++ [125])
| jv_obj n w ms t :
    ws w -> jmembers n ms t -> jval (S n) (JObject (build_members ms)) (123 :: w ++ t ++ [125])
with jitems : nat -> list json -> bytes -> Prop :=
| ji_one n j t w : jval n j t -> ws w -> jitems n [j] (t ++ w)
| ji_cons n j t w w' items ts :
    jval n j t -> ws w -> ws w' -> jitems n items ts ->
    jitems n (j :: items) (t ++ w ++ 44 :: w' ++ ts)
with jmembers : nat -> list (bytes * json) -> bytes -> Prop :=
| jm_one n k kt w1 w2 j t w3 :
    jstr k kt -> ~ In 0 k -> ws w1 -> ws w2 -> jval n j t -> ws w3 ->
    jmembers n [(k, j)] (34 :: kt ++ 34 :: w1 ++ 58 :: w2 ++ t ++ w3)
| jm_cons n k kt w1 w2 j t w3 w4 ms ts :
    jstr k kt -> ~ In 0 k -> ws w1 -> ws w2 -> jval n j t -> ws w3 -> ws w4 -> jmembers n ms ts ->
    jmembers n ((k, j) :: ms) (34 :: kt ++ 34 :: w1 ++ 58 :: w2 ++ t ++ w3 ++ 44 :: w4 ++ ts).

Scheme jval_mut := Minimality for jval Sort Prop
with jitems_mut := Minimality for jitems Sort Prop
with jmembers_mut := Minimality for jmembers Sort Prop.
Combined Scheme jval_mutind from jval_mut, jitems_mut, jmembers_mut.

(** A document: a value with white space around it, not larger than the
    library reads, not nested deeper than it follows. *)
Definition jtext (j : json) (text : bytes) : Prop :=
  zlen text <= TAMGA_MAX_REASONABLE_LEN /\
  exists w1 t w2, text = w1 ++ t ++ w2 /\ ws w1 /\ ws w2 /\ jval TAMGA_JSON_MAX_DEPTH j t.

(** ** White space *)

Lemma skip_ws_split l : exists w, l = w ++ skip_ws_bytes l /\ ws w.
Proof.
  induction l as [|c l (w & Hl & Hw)]; simpl; [by exists []|].
  destruct (is_ws c) eqn:Hc; [|by exists []]. exists (c :: w). simpl. split; [by f_equal|].
  unfold ws. simpl. by rewrite Hc.
Qed.

Lemma skip_ws_app w l : ws w -> is_ws (peek_at l) = false -> skip_ws_bytes (w ++ l) = l.
Proof.
  intros Hw Hl. induction w as [|c w IH]; simpl.
  - destruct l; simpl in *; [done|]. by rewrite Hl.
  - unfold ws in *. simpl in Hw. apply andb_true_iff in Hw as [-> Hw]. auto.
Qed.

Lemma ws_app a b : ws a -> ws b -> ws (a ++ b).
Proof. unfold ws. rewrite forallb_app. by intros -> ->. Qed.

Lemma skip_ws_length l : (length (skip_ws_bytes l) <= length l)%nat.
Proof. destruct (skip_ws_split l) as (w & Hl & _). rewrite Hl at 2. rewrite length_app. lia. Qed.

(** Every value starts with a character that is neither white space nor a
    closing bracket. *)
Lemma jval_head n j t :
  jval n j t -> exists c r, t = c :: r /\ is_ws c = false /\ c <> 93 /\ c <> 125.
Proof.
  destruct 1 as [| | |n k Hok _|n d t|n w|n w items t|n w|n w ms t];
    try (do 2 eexists; split; [done|by vm_compute]).
  pose proof Hok as (Hi & _). pose proof (digits_head _ Hi) as Hh. apply is_dec_range in Hh.
  destruct Hi as [Hne _]. unfold num_text. destruct (n_neg k); cbn [sign_text app].
  - do 2 eexists. by split.
  - destruct (n_int k) as [|c ds]; [done|]. exists c. eexists. simpl in Hh. split; [done|].
    unfold is_ws. split_and!; lia.
Qed.

(** ** Soundness *)

Lemma build_members_app ms k v :
  build_members (ms ++ [(k, v)]) = obj_set (build_members ms) k v.
Proof. unfold build_members. by rewrite fold_left_app. Qed.

Lemma ok_skip l : bytes_ok l -> bytes_ok (skip_ws_bytes l).
Proof. destruct (skip_ws_split l) as (w & Hl & _). rewrite Hl at 1. by intros [_ ?]%Forall_app. Qed.

(** Lengths of concatenations, and concatenations to the right. *)
Ltac len_norm := cbn [length] in *; repeat progress (rewrite ?length_app in *; cbn [length] in * ).
Ltac app_norm := cbn [app]; repeat progress (rewrite <- ?app_assoc; cbn [app]).

(** Splits what is known of a concatenation into its parts. *)
Ltac ok_tac :=
  repeat match goal with
  | H : Forall _ (_ ++ _) |- _ => apply Forall_app in H as [? ?]
  | H : Forall _ (_ :: _) |- _ => apply Forall_cons_1 in H as [? ?]
  end; assumption.

Section Sound.
Context {malloc : Malloc}.

(** What a parser of values of nesting [n] promises at [p]. *)
Definition vpost (n : nat) (p : TamgaJsonParser) (r : option json * TamgaJsonParser) : Prop :=
  forall j, r.1 = Some j -> exists w t, ws w /\ jval n j t /\
    p_rest p = w ++ t ++ p_rest r.2 /\ p_error r.2 = p_error p.

Definition vsound (n : nat) (pv : TamgaJsonParser -> M (option json * TamgaJsonParser)) : Prop :=
  forall p, bytes_ok (p_rest p) -> post (pv p) (vpost n p).

Section Levels.
Variables (n : nat) (pv : TamgaJsonParser -> M (option json * TamgaJsonParser)).
Hypothesis Hpv : vsound n pv.

Lemma array_loop_sound fuel acc p :
  bytes_ok (p_rest p) ->
  post (array_loop pv fuel (JArray acc) p) (fun r => forall j, r.1 = Some j ->
    exists items w t, ws w /\ jitems n items t /\ j = JArray (acc ++ items) /\
      p_rest p = w ++ t ++ 93 :: p_rest r.2 /\ p_error r.2 = p_error p).
Proof.
  revert acc p. induction fuel as [|f IH]; intros acc p Hok; cbn [array_loop]; [by apply post_ret|].
  eapply post_bind; [by apply Hpv|]. intros [[x|] p1] Hx; [|by apply post_ret].
  destruct (Hx x eq_refl) as (w & t & Hw & Ht & Hp & He). cbn [fst snd] in *.
  eapply post_bind; [apply array_append_post|]. intros ? [->| ->]; [by apply post_ret|].
  destruct (skip_ws_split (p_rest p1)) as (w1 & Hp1 & Hw1).
  unfold tamga_json_skip_ws, tamga_json_peek, advance. cbn [p_rest p_error].
  generalize dependent (skip_ws_bytes (p_rest p1)). intros l1 Hp1.
  destruct (Z.eqb_spec (peek_at l1) 44) as [Hc|Hc].
  - apply peek_cons in Hc; [|done]. set (l := drop 1 _) in *.
    destruct (skip_ws_split l) as (w2 & Hl & Hw2).
    eapply post_mono; [apply IH|].
    + cbn. apply ok_skip. rewrite Hp, Hp1, Hc in Hok.
      ok_tac.
    + cbn. intros r Hr j Hj. destruct (Hr j Hj) as (items & w3 & ts & Hw3 & Hts & -> & Hrest & Herr).
      exists (x :: items), w, (t ++ w1 ++ 44 :: (w2 ++ w3) ++ ts). split_and!; [done| |by rewrite <- app_assoc| |congruence].
      * apply ji_cons; auto using ws_app.
      * rewrite Hp, Hp1, Hc, Hl, Hrest. by repeat (rewrite <- ?app_assoc; cbn [app]).
  - destruct (Z.eqb_spec (peek_at l1) 93) as [Hc2|Hc2]; [|by apply post_ret].
    apply peek_cons in Hc2; [|done]. apply post_ret. cbn. intros j [= <-].
    exists [x], w, (t ++ w1). split_and!; [done|by apply ji_one|done| |done].
    rewrite Hp, Hp1. rewrite Hc2 at 1. by rewrite <- !app_assoc.
Qed.

Lemma parse_array_sound p :
  bytes_ok (p_rest p) -> peek_at (p_rest p) = 91 ->
  post (tamga_json_parse_array pv p) (fun r => forall j, r.1 = Some j ->
    exists t, jval (S n) j t /\ p_rest p = t ++ p_rest r.2 /\ p_error r.2 = p_error p).
Proof.
  intros Hok Hh. apply peek_cons in Hh; [|done]. eapply post_bind; [apply new_post|].
  intros ? [->| ->]; [by apply post_ret|].
  unfold tamga_json_skip_ws, tamga_json_peek, advance. cbn [p_rest p_error]. set (l := drop 1 _) in *.
  destruct (skip_ws_split l) as (w & Hl & Hw).
  generalize dependent (skip_ws_bytes l). intros l1 Hl.
  destruct (Z.eqb_spec (peek_at l1) 93) as [Hc|Hc].
  - apply peek_cons in Hc; [|done]. apply post_ret. cbn. intros j [= <-]. exists (91 :: w ++ [93]).
    split_and!; [by apply jv_arr_empty| |done]. rewrite Hh, Hl. rewrite Hc at 1. by rewrite <- !app_comm_cons, <- app_assoc.
  - eapply post_mono; [apply (array_loop_sound _ [])|].
    + cbn. rewrite Hh, Hl in Hok. ok_tac.
    + cbn. intros r Hr j Hj. destruct (Hr j Hj) as (items & w1 & t & Hw1 & Ht & -> & Hrest & Herr).
      exists (91 :: (w ++ w1) ++ t ++ [93]). split_and!; [by apply jv_arr; [apply ws_app|]| |done].
      rewrite Hh, Hl, Hrest. by repeat (rewrite <- ?app_assoc; cbn [app]).
Qed.

Lemma string_into_sound p :
  bytes_ok (p_rest p) ->
  post (tamga_json_parse_string_into p tamga_buf_init) (fun '(ok, p', b) => ok = true ->
    exists d t, jstr d t /\ p_rest p = 34 :: t ++ 34 :: p_rest p' /\ p_error p' = p_error p /\
      buf_wf b /\ buf_bytes b = d).
Proof.
  intros Hok. unfold tamga_json_parse_string_into, tamga_json_peek.
  destruct (Z.eqb_spec (peek_at (p_rest p)) 34) as [Hq|]; cbn [negb]; [|by apply post_ret].
  apply peek_cons in Hq; [|done]. unfold advance. cbn [p_rest p_error]. set (l := drop 1 _) in *.
  eapply post_mono; [apply string_loop_sound; [apply buf_init_wf|rewrite Hq in Hok; cbn; ok_tac]|].
  intros [[ok p'] b] Hs Hokt. destruct (Hs Hokt) as (d & t & Hd & Hl & He & [Hwf Hap] & Hf).
  cbn in Hl, He. exists d, t. rewrite Hq, Hl. split_and!; try done.
  by destruct (Hap Hf) as [_ (? & [= <-] & ->)].
Qed.

Lemma object_loop_sound fuel ms0 p :
  bytes_ok (p_rest p) ->
  post (object_loop pv fuel (JObject (build_members ms0)) p) (fun r => forall j, r.1 = Some j ->
    exists ms t, jmembers n ms t /\ j = JObject (build_members (ms0 ++ ms)) /\
      p_rest p = t ++ 125 :: p_rest r.2 /\ p_error r.2 = p_error p).
Proof.
  revert ms0 p. induction fuel as [|f IH]; intros ms0 p Hok; cbn [object_loop]; [by apply post_ret|].
  eapply post_bind; [by apply string_into_sound|]. intros [[[] p1] b] Hstr; cbn [negb]; [|by apply post_ret].
  destruct (Hstr eq_refl) as (k & kt & Hk & Hp & He & Hwf & Hb).
  eapply post_bind; [by apply detach_string_post|]. intros [[key|] b1] Hkey; [|by apply post_ret].
  destruct Hkey as (_ & -> & Hnul). rewrite Hb in *.
  destruct (skip_ws_split (p_rest p1)) as (w1 & Hp1 & Hw1).
  unfold tamga_json_skip_ws, tamga_json_peek, advance. cbn [p_rest p_error].
  generalize dependent (skip_ws_bytes (p_rest p1)). intros l1 Hp1.
  destruct (Z.eqb_spec (peek_at l1) 58) as [Hc|Hc]; cbn [negb]; [|by apply post_ret].
  apply peek_cons in Hc; [|done]. generalize dependent (drop 1 l1). intros l2 ->.
  eapply post_bind; [apply Hpv; cbn; rewrite Hp, Hp1 in Hok; ok_tac|].
  intros [[x|] p2] Hx; [|by apply post_ret].
  destruct (Hx x eq_refl) as (w2 & t & Hw2 & Ht & Hp2 & He2). cbn [fst snd p_rest p_error] in *.
  eapply post_bind; [apply object_set_post|]. rewrite c_view_id by done. rewrite <- build_members_app.
  intros ? [->|[-> _]]; [by apply post_ret|].
  destruct (skip_ws_split (p_rest p2)) as (w3 & Hp3 & Hw3).
  generalize dependent (skip_ws_bytes (p_rest p2)). intros l3 Hp3.
  destruct (Z.eqb_spec (peek_at l3) 44) as [Hc3|Hc3].
  - apply peek_cons in Hc3; [|done]. generalize dependent (drop 1 l3). intros l4 ->.
    destruct (skip_ws_split l4) as (w4 & Hl4 & Hw4). eapply post_mono; [apply IH|].
    + cbn. apply ok_skip. rewrite Hp, Hp1, Hp2, Hp3 in Hok. ok_tac.
    + cbn. intros r Hr j Hj. destruct (Hr j Hj) as (ms & ts & Hts & -> & Hrest & Herr).
      exists ((k, x) :: ms). eexists. split_and!; [by apply (jm_cons n k kt w1 w2 x t w3 w4)|by rewrite <- app_assoc| |congruence].
      rewrite Hp, Hp1, Hp2, Hp3, Hl4, Hrest. by repeat (rewrite <- ?app_assoc; cbn [app]).
  - destruct (Z.eqb_spec (peek_at l3) 125) as [Hc4|Hc4]; [|by apply post_ret].
    apply peek_cons in Hc4; [|done]. generalize dependent (drop 1 l3). intros l4 ->.
    apply post_ret. cbn. intros j [= <-]. exists [(k, x)]. eexists.
    split_and!; [by apply (jm_one n k kt w1 w2 x t w3)|done| |congruence].
    rewrite Hp, Hp1, Hp2, Hp3. by repeat (rewrite <- ?app_assoc; cbn [app]).
Qed.

Lemma parse_object_sound p :
  bytes_ok (p_rest p) -> peek_at (p_rest p) = 123 ->
  post (tamga_json_parse_object pv p) (fun r => forall j, r.1 = Some j ->
    exists t, jval (S n) j t /\ p_rest p = t ++ p_rest r.2 /\ p_error r.2 = p_error p).
Proof.
  intros Hok Hh. apply peek_cons in Hh; [|done]. eapply post_bind; [apply new_post|].
  intros ? [->| ->]; [by apply post_ret|].
  unfold tamga_json_skip_ws, tamga_json_peek, advance. cbn [p_rest p_error]. set (l := drop 1 _) in *.
  destruct (skip_ws_split l) as (w & Hl & Hw). generalize dependent (skip_ws_bytes l). intros l1 Hl.
  destruct (Z.eqb_spec (peek_at l1) 125) as [Hc|Hc].
  - apply peek_cons in Hc; [|done]. apply post_ret. cbn. intros j [= <-]. exists (123 :: w ++ [125]).
    split_and!; [by apply jv_obj_empty| |done]. rewrite Hh, Hl. rewrite Hc at 1. by rewrite <- !app_comm_cons, <- app_assoc.
  - eapply post_mono; [apply (object_loop_sound _ [])|].
    + cbn. rewrite Hh, Hl in Hok. ok_tac.
    + cbn. intros r Hr j Hj. destruct (Hr j Hj) as (ms & t & Ht & -> & Hrest & Herr).
      exists (123 :: w ++ t ++ [125]). split_and!; [by apply jv_obj| |done].
      rewrite Hh, Hl, Hrest. by repeat (rewrite <- ?app_assoc; cbn [app]).
Qed.
End Levels.

Lemma match_literal_Some p lit p' :
  tamga_json_match_literal p lit = Some p' -> p_rest p = lit ++ p_rest p' /\ p_error p' = p_error p.
Proof.
  unfold tamga_json_match_literal. destruct (_ <? _)%nat; [done|].
  destruct (beq _ _) eqn:E; [|done]. apply beq_eq in E. cbn. intros [= <-]. cbn.
  split; [|done]. rewrite <- E at 1. by rewrite take_drop.
Qed.

Lemma parse_literal_sound p lit node n :
  jval (S n) node lit ->
  post (parse_literal p lit (tamga_json_new node)) (fun r => forall j, r.1 = Some j ->
    exists t, jval (S n) j t /\ p_rest p = t ++ p_rest r.2 /\ p_error r.2 = p_error p).
Proof.
  intros Hj. unfold parse_literal. destruct (tamga_json_match_literal p lit) as [p'|] eqn:E; [|by apply post_ret].
  apply match_literal_Some in E as [Hp He]. eapply post_bind; [apply new_post|]. intros v Hv.
  apply post_ret. cbn. intros j ->. destruct Hv as [?|[= ->]]; [done|]. eauto.
Qed.

Lemma parse_string_sound p n :
  bytes_ok (p_rest p) ->
  post (parse_string_value p) (fun r => forall j, r.1 = Some j ->
    exists t, jval (S n) j t /\ p_rest p = t ++ p_rest r.2 /\ p_error r.2 = p_error p).
Proof.
  intros Hok. eapply post_bind; [by apply string_into_sound|]. intros [[[] p1] b] Hstr; [|by apply post_ret].
  destruct (Hstr eq_refl) as (d & t & Hd & Hp & He & Hwf & Hb). cbn [negb].
  eapply post_bind; [by apply detach_post|]. intros [[raw|] b1] Hraw; [|by apply post_ret].
  destruct Hraw as (_ & ->). rewrite Hb. eapply post_bind; [apply new_string_post|]. intros v Hv.
  apply post_ret. cbn. intros j ->. destruct Hv as [?|[= ->]]; [done|].
  exists (34 :: t ++ [34]). split_and!; [by apply jv_str| |done]. rewrite Hp. by rewrite <- app_comm_cons, <- app_assoc.
Qed.

Lemma parse_value_sound levels : vsound levels (tamga_json_parse_value levels).
Proof.
  induction levels as [|n IH]; intros p Hok; cbn [tamga_json_parse_value]; [by apply post_ret|].
  destruct (skip_ws_split (p_rest p)) as (w & Hp & Hw). pose proof (ok_skip _ Hok) as Hok1.
  set (p1 := tamga_json_skip_ws p). unfold tamga_json_peek.
  change (skip_ws_bytes (p_rest p)) with (p_rest p1) in *.
  eapply post_bind with (P := fun r => forall j, r.1 = Some j ->
    exists t, jval (S n) j t /\ p_rest p1 = t ++ p_rest r.2 /\ p_error r.2 = p_error p1).
  - destruct (Z.eqb_spec (peek_at (p_rest p1)) 123); [by apply parse_object_sound|].
    destruct (Z.eqb_spec (peek_at (p_rest p1)) 91); [by apply parse_array_sound|].
    destruct (Z.eqb_spec (peek_at (p_rest p1)) 34); [by apply parse_string_sound|].
    destruct (_ =? 116); [apply parse_literal_sound, jv_true|].
    destruct (_ =? 102); [apply parse_literal_sound, jv_false|].
    destruct (_ =? 110); [apply parse_literal_sound, jv_null|].
    destruct (_ || _); [|by apply post_ret].
    eapply post_mono; [apply parse_number_sound|]. intros [r p'] Hr j Hj. cbn in *.
    destruct (Hr j Hj) as (k & Hk & Hlen & Hrest & Herr & ->). exists (num_text k). split_and!; try done. by apply jv_num.
  - intros [r p2] Hr. apply post_ret. intros j Hj. cbn in Hj. subst r.
    destruct (Hr j eq_refl) as (t & Ht & Hrest & Herr). cbn in *. exists w, t.
    rewrite <- Hrest. done.
Qed.

Lemma document_sound text :
  bytes_ok text ->
  post (tamga_json_parse (Some text)) (fun r => match r with inl j => jtext j text | inr _ => True end).
Proof.
  intros Hok. unfold tamga_json_parse. destruct (Z.gtb_spec (zlen text) TAMGA_MAX_REASONABLE_LEN); [by apply post_ret|].
  eapply post_bind; [by apply parse_value_sound|]. intros [[j|] p] Hj; [|by apply post_ret].
  destruct (Hj j eq_refl) as (w & t & Hw & Ht & Hp & He). cbn in Hp, He.
  destruct (skip_ws_split (p_rest p)) as (w2 & Hp2 & Hw2).
  unfold tamga_json_at_end, tamga_json_skip_ws. cbn [p_rest].
  destruct (skip_ws_bytes (p_rest p)) eqn:E; [|by apply post_ret]. rewrite app_nil_r in Hp2.
  apply post_ret. split; [lia|]. exists w, t, w2. by rewrite Hp, Hp2.
Qed.
End Sound.

(** ** Completeness *)

(** Enough for every request a document of the accepted size can cause. *)
Definition json_memory : Z := 2 ^ 31.

Lemma obj_set_length ms k v : (length (obj_set ms k v) <= S (length ms))%nat.
Proof.
  rewrite <- (length_fmap fst (obj_set ms k v)), <- (length_fmap fst ms), obj_set_keys.
  case_bool_decide; [lia|]. rewrite length_app. simpl. lia.
Qed.

Lemma build_members_length ms : (length (build_members ms) <= length ms)%nat.
Proof.
  induction ms as [|[k v] ms IH] using rev_ind; [done|].
  rewrite build_members_app, length_app. pose proof (obj_set_length (build_members ms) k v). simpl. lia.
Qed.

Section Complete.
Context {malloc : Malloc} {limit : Z} `{!MallocUpTo limit} (Hlimit : json_memory <= limit <= SIZE_MAX).

Lemma limit64 : 64 <= limit <= SIZE_MAX.
Proof. unfold json_memory in *. lia. Qed.

Definition value_complete (n : nat) (j : json) (t : bytes) : Prop :=
  forall w rest e, ws w -> num_stop rest -> zlen t <= TAMGA_MAX_REASONABLE_LEN ->
  post (tamga_json_parse_value n (mk_parser (w ++ t ++ rest) e)) (fun r => r = (Some j, mk_parser rest e)).

Definition items_complete (n : nat) (items : list json) (t : bytes) : Prop :=
  forall fuel acc rest e, (length t < fuel)%nat -> zlen acc + zlen t <= TAMGA_MAX_REASONABLE_LEN ->
  post (array_loop (tamga_json_parse_value n) fuel (JArray acc) (mk_parser (t ++ 93 :: rest) e))
       (fun r => r = (Some (JArray (acc ++ items)), mk_parser rest e)).

Definition members_complete (n : nat) (ms : list (bytes * json)) (t : bytes) : Prop :=
  forall fuel ms0 rest e, (length t < fuel)%nat -> zlen ms0 + zlen t <= TAMGA_MAX_REASONABLE_LEN ->
  post (object_loop (tamga_json_parse_value n) fuel (JObject (build_members ms0)) (mk_parser (t ++ 125 :: rest) e))
       (fun r => r = (Some (JObject (build_members (ms0 ++ ms))), mk_parser rest e)).

Lemma ws_stop w c rest : ws w -> num_stop (c :: rest) -> num_stop (w ++ c :: rest).
Proof.
  destruct w as [|x w]; [done|]. unfold ws, is_ws, num_stop, is_dec. simpl. intros [Hx _]%andb_true_iff _. lia.
Qed.

Lemma jitems_head n items t : jitems n items t -> exists c r, t = c :: r /\ is_ws c = false /\ c <> 93.
Proof.
  destruct 1 as [n j t w Hj _|n j t w w' items ts Hj _ _ _]; apply jval_head in Hj as (c & r & -> & H1 & H2 & _);
    exists c; eexists; by split_and!.
Qed.

Lemma jmembers_head n ms t : jmembers n ms t -> exists r, t = 34 :: r.
Proof. destruct 1; eauto. Qed.

Lemma string_into_complete d t rest e :
  jstr d t -> zlen t <= TAMGA_MAX_REASONABLE_LEN ->
  post (tamga_json_parse_string_into (mk_parser (34 :: t ++ 34 :: rest) e) tamga_buf_init) (fun r =>
    exists b, r = (true, mk_parser rest e, b) /\ buf_room (limit := limit) b 0 /\ buf_bytes b = d).
Proof.
  intros Hd Hlen. unfold tamga_json_parse_string_into, tamga_json_peek, advance. cbn [p_rest p_error peek_at].
  cbn [Z.eqb Pos.eqb negb drop]. rewrite drop_0. pose proof (jstr_bytes d t Hd).
  apply (string_loop_complete limit64 d t Hd); [rewrite length_app; lia| |lia].
  apply buf_init_room. unfold json_memory, TAMGA_MAX_REASONABLE_LEN in *. lia.
Qed.

(** One value, then what the loops look at: white space and a separator. *)
Lemma skip_to w c rest e :
  ws w -> is_ws c = false -> tamga_json_skip_ws (mk_parser (w ++ c :: rest) e) = mk_parser (c :: rest) e.
Proof. intros Hw Hc. unfold tamga_json_skip_ws. cbn [p_rest p_error]. by rewrite skip_ws_app. Qed.

Lemma advance_1 c rest e : advance 1 (mk_parser (c :: rest) e) = mk_parser rest e.
Proof. unfold advance. cbn. by rewrite drop_0. Qed.

(** One round of each loop, up to the separator [c]. *)
Lemma array_round n j t w c rest e f acc Q :
  value_complete n j t -> ws w -> is_ws c = false -> num_stop (c :: rest) ->
  zlen acc + zlen t <= TAMGA_MAX_REASONABLE_LEN ->
  post (if c =? 44 then array_loop (tamga_json_parse_value n) f (JArray (acc ++ [j]))
                          (tamga_json_skip_ws (mk_parser rest e))
        else if c =? 93 then ret (Some (JArray (acc ++ [j])), mk_parser rest e)
        else ret (None, fail_msg (mk_parser (c :: rest) e) "expected a comma or a closing bracket in array")) Q ->
  post (array_loop (tamga_json_parse_value n) (S f) (JArray acc) (mk_parser (t ++ w ++ c :: rest) e)) Q.
Proof.
  intros IH Hw Hc Hstop Hlen HQ. cbn [array_loop].
  eapply post_bind; [apply (IH [] (w ++ c :: rest)); [done|by apply ws_stop|lia]|]. intros ? ->.
  eapply post_bind.
  { apply (array_append_ok (limit := limit)); unfold json_memory, TAMGA_MAX_REASONABLE_LEN in *; lia. }
  intros ? ->. rewrite skip_to, advance_1 by done. exact HQ.
Qed.

Lemma object_round n k kt w1 w2 j t w3 c rest e f ms0 Q :
  jstr k kt -> ~ In 0 k -> ws w1 -> ws w2 -> value_complete n j t -> ws w3 ->
  is_ws c = false -> num_stop (c :: rest) ->
  zlen ms0 + zlen kt + zlen t <= TAMGA_MAX_REASONABLE_LEN ->
  post (if c =? 44 then object_loop (tamga_json_parse_value n) f (JObject (build_members (ms0 ++ [(k, j)])))
                          (tamga_json_skip_ws (mk_parser rest e))
        else if c =? 125 then ret (Some (JObject (build_members (ms0 ++ [(k, j)]))), mk_parser rest e)
        else ret (None, fail_msg (mk_parser (c :: rest) e) "expected a comma or a closing brace in object")) Q ->
  post (object_loop (tamga_json_parse_value n) (S f) (JObject (build_members ms0))
          (mk_parser (34 :: kt ++ 34 :: w1 ++ 58 :: w2 ++ t ++ w3 ++ c :: rest) e)) Q.
Proof.
  intros Hk Hnul Hw1 Hw2 IH Hw3 Hc Hstop Hlen HQ. cbn [object_loop].
  eapply post_bind; [apply string_into_complete; [done|lia]|]. intros ? (b & -> & Hb & Hbytes). cbn [negb].
  eapply post_bind; [apply (detach_string_room limit64); [done|by rewrite Hbytes]|]. intros ? ->. rewrite Hbytes.
  rewrite skip_to by done. cbn [tamga_json_peek peek_at p_rest Z.eqb Pos.eqb negb]. rewrite advance_1.
  eapply post_bind; [apply (IH w2 (w3 ++ c :: rest)); [done|by apply ws_stop|lia]|]. intros ? ->.
  eapply post_bind.
  { pose proof (build_members_length ms0). pose proof (jstr_bytes k kt Hk).
    apply (object_set_ok (limit := limit)); rewrite ?c_view_id by done;
      unfold json_memory, TAMGA_MAX_REASONABLE_LEN in *; lia. }
  rewrite c_view_id by done. rewrite <- build_members_app. intros ? ->.
  rewrite skip_to, advance_1 by done. exact HQ.
Qed.

Lemma stop_sep c rest : c = 44 \/ c = 93 \/ c = 125 -> is_ws c = false /\ num_stop (c :: rest).
Proof. unfold is_ws, num_stop, is_dec. simpl. lia. Qed.

Lemma items_complete_one n j t w :
  value_complete n j t -> ws w -> items_complete n [j] (t ++ w).
Proof.
  intros IH Hw [|fuel] acc rest e Hf Hlen; [lia|]. destruct (stop_sep 93 rest); [tauto|].
  rewrite length_app in *. rewrite <- app_assoc. apply (array_round n j t w 93 rest); try done. lia.
Qed.

Lemma items_complete_cons n j t w w' items ts :
  value_complete n j t -> ws w -> ws w' -> jitems n items ts -> items_complete n items ts ->
  items_complete n (j :: items) (t ++ w ++ 44 :: w' ++ ts).
Proof.
  intros IH Hw Hw' Hts IHs [|fuel] acc rest e Hf Hlen; [lia|].
  apply jitems_head in Hts as (c & r & -> & Hc & _).
  len_norm. app_norm.
  destruct (stop_sep 44 (w' ++ c :: r ++ 93 :: rest)); [tauto|].
  apply (array_round n j t w 44); try done; [lia|]. cbn [Z.eqb Pos.eqb]. rewrite skip_to by done.
  eapply post_mono; [apply (IHs fuel (acc ++ [j]) rest e)|].
  - simpl in *. lia.
  - rewrite length_app. simpl in *. lia.
  - simpl. intros ? ->. by rewrite <- app_assoc.
Qed.

Lemma members_complete_one n k kt w1 w2 j t w3 :
  jstr k kt -> ~ In 0 k -> ws w1 -> ws w2 -> value_complete n j t -> ws w3 ->
  members_complete n [(k, j)] (34 :: kt ++ 34 :: w1 ++ 58 :: w2 ++ t ++ w3).
Proof.
  intros Hk Hn Hw1 Hw2 IH Hw3 [|fuel] ms0 rest e Hf Hlen; [lia|]. destruct (stop_sep 125 rest); [tauto|].
  len_norm. app_norm.
  apply (object_round n k kt w1 w2 j t w3 125 rest); try done. lia.
Qed.

Lemma members_complete_cons n k kt w1 w2 j t w3 w4 ms ts :
  jstr k kt -> ~ In 0 k -> ws w1 -> ws w2 -> value_complete n j t -> ws w3 -> ws w4 ->
  jmembers n ms ts -> members_complete n ms ts ->
  members_complete n ((k, j) :: ms) (34 :: kt ++ 34 :: w1 ++ 58 :: w2 ++ t ++ w3 ++ 44 :: w4 ++ ts).
Proof.
  intros Hk Hn Hw1 Hw2 IH Hw3 Hw4 Hts IHs [|fuel] ms0 rest e Hf Hlen; [lia|].
  apply jmembers_head in Hts as (r & ->).
  len_norm. app_norm.
  destruct (stop_sep 44 (w4 ++ 34 :: r ++ 125 :: rest)); [tauto|].
  apply (object_round n k kt w1 w2 j t w3 44); try done; [lia|]. cbn [Z.eqb Pos.eqb]. rewrite skip_to by done.
  eapply post_mono; [apply (IHs fuel (ms0 ++ [(k, j)]) rest e)|].
  - simpl in *. lia.
  - rewrite length_app. simpl in *. lia.
  - simpl. intros ? ->. by rewrite <- app_assoc.
Qed.

(** Once the leading white space is gone, the value that the case analysis
    returns is the value returned. *)
Lemma value_return m (v : json) p :
  post m (fun r => r = (Some v, p)) ->
  post (let! (value, p) := m in
        ret (value, match value, p_error p with
                    | None, None => tamga_json_fail p TAMGA_JSON_ERROR_OUT_OF_MEMORY
                    | _, _ => p
                    end)) (fun r => r = (Some v, p)).
Proof. intros Hm. eapply post_bind; [exact Hm|]. intros ? ->. by apply post_ret. Qed.

Lemma parse_literal_complete lit node rest e :
  post (parse_literal (mk_parser (lit ++ rest) e) lit (tamga_json_new node))
       (fun r => r = (Some node, mk_parser rest e)).
Proof.
  unfold parse_literal, tamga_json_match_literal. cbn [p_rest p_error].
  rewrite length_app, (proj2 (Nat.ltb_ge _ _)), take_app_length, beq_refl by lia. cbn [negb].
  unfold advance. cbn [p_rest p_error]. rewrite drop_app_length.
  eapply post_bind; [apply (new_ok (limit := limit)); apply limit64|]. intros ? ->. by apply post_ret.
Qed.

Lemma parse_string_complete d t rest e :
  jstr d t -> zlen t <= TAMGA_MAX_REASONABLE_LEN ->
  post (parse_string_value (mk_parser (34 :: t ++ 34 :: rest) e))
       (fun r => r = (Some (JString d), mk_parser rest e)).
Proof.
  intros Hd Hlen. eapply post_bind; [by apply string_into_complete|]. intros ? (b & -> & Hb & Hbytes).
  cbn [negb]. eapply post_bind; [by apply (detach_room limit64)|]. intros ? ->. rewrite Hbytes.
  pose proof (jstr_bytes d t Hd).
  eapply post_bind; [apply (new_string_ok (limit := limit))|].
  1-2: unfold json_memory, TAMGA_MAX_REASONABLE_LEN in *; lia.
  intros ? ->. by apply post_ret.
Qed.

Lemma value_complete_num n k :
  num_ok k -> zlen (num_text k) <= TAMGA_JSON_MAX_NUMBER_CHARS -> value_complete (S n) (num_json k) (num_text k).
Proof.
  intros Hk Hlen w rest e Hw Hstop _. cbn [tamga_json_parse_value].
  assert (exists c r, num_text k = c :: r /\ (c = 45 \/ 48 <= c <= 57)) as (c & r & Ht & Hc).
  { pose proof Hk as (Hi & _). pose proof (digits_head _ Hi) as Hh. apply is_dec_range in Hh.
    destruct Hi as [Hne _]. unfold num_text. destruct (n_neg k); cbn [sign_text app]; [eauto|].
    destruct (n_int k) as [|c ds]; [done|]. exists c. eauto. }
  rewrite Ht. cbn [app]. rewrite skip_to by (done || unfold is_ws; lia).
  unfold tamga_json_peek. cbn [p_rest peek_at].
  replace (c =? 123) with false by lia. replace (c =? 91) with false by lia. replace (c =? 34) with false by lia.
  replace (c =? 116) with false by lia. replace (c =? 102) with false by lia. replace (c =? 110) with false by lia.
  replace (_ || _) with true by lia. apply value_return. rewrite app_comm_cons, <- Ht.
  apply (parse_number_ok (limit := limit)); [apply limit64|done..].
Qed.

Lemma grammar_complete :
  (forall n j t, jval n j t -> value_complete n j t) /\
  (forall n items t, jitems n items t -> jitems n items t /\ items_complete n items t) /\
  (forall n ms t, jmembers n ms t -> jmembers n ms t /\ members_complete n ms t).
Proof.
  apply jval_mutind.
  - intros n w rest e Hw _ _. cbn [tamga_json_parse_value]. change (bstr "null") with (110 :: bstr "ull"). cbn [app].
    rewrite skip_to by done. apply value_return. apply (parse_literal_complete (bstr "null")).
  - intros n w rest e Hw _ _. cbn [tamga_json_parse_value]. change (bstr "true") with (116 :: bstr "rue"). cbn [app].
    rewrite skip_to by done. apply value_return. apply (parse_literal_complete (bstr "true")).
  - intros n w rest e Hw _ _. cbn [tamga_json_parse_value]. change (bstr "false") with (102 :: bstr "alse"). cbn [app].
    rewrite skip_to by done. apply value_return. apply (parse_literal_complete (bstr "false")).
  - intros. by apply value_complete_num.
  - intros n d t Hd w rest e Hw _ Hlen. cbn [tamga_json_parse_value app].
    rewrite <- app_assoc, skip_to by done. apply value_return. apply parse_string_complete; [done|].
    simpl in Hlen. rewrite length_app in Hlen. lia.
  - intros n w0 Hw0 w rest e Hw _ Hlen. cbn [tamga_json_parse_value app].
    rewrite <- app_assoc, skip_to by done. apply value_return. unfold tamga_json_parse_array.
    eapply post_bind; [apply (new_ok (limit := limit)); apply limit64|]. intros ? ->. cbn [app].
    rewrite advance_1, skip_to by done. cbn. rewrite advance_1. by apply post_ret.
  - intros n w0 items t Hw0 _ [Hit IH] w rest e Hw _ Hlen. cbn [tamga_json_parse_value app].
    pose proof (jitems_head _ _ _ Hit) as (c & r & Ht & Hc & Hc93).
    rewrite <- !app_assoc, skip_to by done. apply value_return. unfold tamga_json_parse_array.
    eapply post_bind; [apply (new_ok (limit := limit)); apply limit64|]. intros ? ->. cbn [app].
    rewrite advance_1, Ht. cbn [app]. rewrite skip_to by done. unfold tamga_json_peek. cbn [p_rest peek_at].
    rewrite (proj2 (Z.eqb_neq c 93)), app_comm_cons, <- Ht by done.
    simpl in Hlen. rewrite !length_app in Hlen. apply (IH _ []); [rewrite length_app; lia|simpl; lia].
  - intros n w0 Hw0 w rest e Hw _ Hlen. cbn [tamga_json_parse_value app].
    rewrite <- app_assoc, skip_to by done. apply value_return. unfold tamga_json_parse_object.
    eapply post_bind; [apply (new_ok (limit := limit)); apply limit64|]. intros ? ->. cbn [app].
    rewrite advance_1, skip_to by done. cbn. rewrite advance_1. by apply post_ret.
  - intros n w0 ms t Hw0 _ [Hit IH] w rest e Hw _ Hlen. cbn [tamga_json_parse_value app].
    pose proof (jmembers_head _ _ _ Hit) as (r & Ht).
    rewrite <- !app_assoc, skip_to by done. apply value_return. unfold tamga_json_parse_object.
    eapply post_bind; [apply (new_ok (limit := limit)); apply limit64|]. intros ? ->. cbn [app].
    rewrite advance_1, Ht. cbn [app]. rewrite skip_to by done. unfold tamga_json_peek. cbn [p_rest peek_at Z.eqb Pos.eqb].
    rewrite app_comm_cons, <- Ht.
    simpl in Hlen. rewrite !length_app in Hlen. apply (IH _ []); [rewrite length_app; lia|simpl; lia].
  - intros n j t w Hj IH Hw. split; [by apply ji_one|]. by apply items_complete_one.
  - intros n j t w w' items ts Hj IH Hw Hw' _ [Hit IHs]. split; [by apply ji_cons|]. by apply items_complete_cons.
  - intros. split; [by apply jm_one|]. by apply members_complete_one.
  - intros n k kt w1 w2 j t w3 w4 ms ts ? ? ? ? ? ? ? ? _ [? ?].
    split; [by apply jm_cons|]. by apply members_complete_cons.
Qed.

Lemma document_complete text j :
  jtext j text -> post (tamga_json_parse (Some text)) (fun r => r = inl j).
Proof.
  intros (Hlen & w1 & t & w2 & -> & Hw1 & Hw2 & Hj). unfold tamga_json_parse.
  destruct (Z.gtb_spec (zlen (w1 ++ t ++ w2)) TAMGA_MAX_REASONABLE_LEN); [lia|].
  rewrite !length_app in Hlen.
  eapply post_bind; [apply (proj1 grammar_complete _ _ _ Hj); [done| |lia]|].
  - destruct w2 as [|x w2]; [done|]. unfold ws, is_ws, num_stop, is_dec in *. simpl in *.
    apply andb_true_iff in Hw2 as [Hx _]. lia.
  - intros ? ->. unfold tamga_json_skip_ws, tamga_json_at_end. cbn [p_rest].
    rewrite <- (app_nil_r w2), skip_ws_app by done. by apply post_ret.
Qed.
End Complete.

(** ** Out of memory is blamed only on memory *)

Section Honest.
Context {malloc : Malloc} {limit : Z} `{!MallocUpTo limit} (Hlimit : json_memory <= limit <= SIZE_MAX).

(** A refusal carries a message about the document. *)
Definition explained (r : option json * TamgaJsonParser) : Prop :=
  r.1 = None -> exists m, p_error r.2 = Some (json_message m).

Lemma explained_fail p m : p_error p = None -> explained (None, tamga_json_fail p (json_message m)).
Proof. intros He _. exists m. cbn. by rewrite He. Qed.

Section HonestLevels.
Variables (n : nat) (pv : TamgaJsonParser -> M (option json * TamgaJsonParser)).
Hypothesis Hpv : vsound n pv.
Hypothesis Hexp : forall p, bytes_ok (p_rest p) -> p_error p = None ->
  zlen (p_rest p) <= TAMGA_MAX_REASONABLE_LEN -> post (pv p) explained.

(** A value takes at least one character. *)
Lemma vpost_shorter p r j : vpost n p r -> r.1 = Some j ->
  p_error r.2 = p_error p /\ (length (p_rest r.2) < length (p_rest p))%nat /\
  (bytes_ok (p_rest p) -> bytes_ok (p_rest r.2)).
Proof.
  intros Hv Hj. destruct (Hv j Hj) as (w & t & _ & Ht & -> & ->).
  apply jval_head in Ht as (c & r' & -> & _). split; [done|]. split; [len_norm; lia|]. intros. ok_tac.
Qed.

Lemma array_loop_honest fuel acc p :
  bytes_ok (p_rest p) -> p_error p = None -> (length (p_rest p) < fuel)%nat ->
  zlen acc + zlen (p_rest p) <= TAMGA_MAX_REASONABLE_LEN ->
  post (array_loop pv fuel (JArray acc) p) explained.
Proof.
  revert acc p. induction fuel as [|f IH]; intros acc p Hok He Hf Hlen; [lia|]. cbn [array_loop].
  eapply post_bind; [apply post_and; [by apply Hpv|by apply Hexp; [..|lia]]|].
  intros [[x|] p1] [Hx Hxe]; [|by apply post_ret].
  destruct (vpost_shorter p (Some x, p1) x Hx eq_refl) as (Her & Hsh & Hok1). cbn [snd] in *.
  specialize (Hok1 Hok).
  eapply post_bind.
  { apply (array_append_ok (limit := limit)); unfold json_memory, TAMGA_MAX_REASONABLE_LEN in *; lia. }
  intros ? ->. pose proof (skip_ws_length (p_rest p1)) as Hs1. pose proof (ok_skip _ Hok1) as Hok2.
  unfold tamga_json_skip_ws, tamga_json_peek, advance. cbn [p_rest p_error].
  generalize dependent (skip_ws_bytes (p_rest p1)). intros l1 Hs1 Hok2.
  destruct (Z.eqb_spec (peek_at l1) 44) as [Hc|Hc].
  - apply peek_cons in Hc; [|done]. generalize dependent (drop 1 l1). intros l2 ->.
    pose proof (skip_ws_length l2). cbn [length] in *.
    apply IH; cbn [p_rest p_error]; [apply ok_skip; ok_tac|congruence|lia|rewrite length_app; simpl; lia].
  - destruct (_ =? 93); apply post_ret; [done|]. apply explained_fail. cbn. congruence.
Qed.

Lemma parse_array_honest p :
  bytes_ok (p_rest p) -> p_error p = None -> zlen (p_rest p) <= TAMGA_MAX_REASONABLE_LEN ->
  post (tamga_json_parse_array pv p) explained.
Proof.
  intros Hok He Hlen. eapply post_bind; [apply (new_ok (limit := limit)); unfold json_memory in *; lia|].
  intros ? ->. unfold tamga_json_skip_ws, tamga_json_peek, advance. cbn [p_rest p_error].
  assert (bytes_ok (drop 1 (p_rest p))) as Hok1 by (rewrite <- (take_drop 1 (p_rest p)) in Hok; ok_tac).
  pose proof (length_drop (p_rest p) 1). pose proof (skip_ws_length (drop 1 (p_rest p))).
  destruct (_ =? 93); [by apply post_ret|].
  apply array_loop_honest; cbn [p_rest p_error]; [by apply ok_skip|done|lia|simpl; lia].
Qed.

Lemma string_into_honest p :
  p_error p = None -> zlen (p_rest p) <= TAMGA_MAX_REASONABLE_LEN ->
  post (tamga_json_parse_string_into p tamga_buf_init) (fun '(ok, p', b) =>
    if ok : bool then buf_room (limit := limit) b 0 else exists m, p_error p' = Some (json_message m)).
Proof.
  intros He Hlen. unfold tamga_json_parse_string_into.
  destruct (negb _). { apply post_ret. eexists. cbn. by rewrite He. }
  pose proof (length_drop (p_rest p) 1).
  eapply post_mono; [apply (string_loop_honest (limit64 Hlimit) _ _ _ _ 0)|].
  - cbn. lia.
  - apply buf_init_room. unfold json_memory, TAMGA_MAX_REASONABLE_LEN in *. lia.
  - lia.
  - intros [[[] p'] b]; [done|]. intros (m & l & ->). exists m. cbn. by rewrite He.
Qed.

Lemma object_loop_honest fuel ms p :
  bytes_ok (p_rest p) -> p_error p = None -> (length (p_rest p) < fuel)%nat ->
  zlen ms + zlen (p_rest p) <= TAMGA_MAX_REASONABLE_LEN ->
  post (object_loop pv fuel (JObject ms) p) explained.
Proof.
  revert ms p. induction fuel as [|f IH]; intros ms p Hok He Hf Hlen; [lia|]. cbn [object_loop].
  eapply post_bind; [apply post_and; [by apply string_into_sound|by apply string_into_honest; [|lia]]|].
  intros [[[] p1] b] [Hstr Hb]; cbn [negb]; [|apply post_ret; by intros _].
  destruct (Hstr eq_refl) as (k & kt & Hk & Hp & He1 & Hwf & Hbytes). rewrite He in He1.
  pose proof (jstr_bytes k kt Hk) as Hkl. rewrite Hp in Hok, Hf, Hlen. len_norm.
  destruct (in_dec Z.eq_dec 0 (buf_bytes b)) as [Hnul|Hnul].
  { eapply post_bind; [by apply detach_string_post|]. intros [[key|] b1] Hkey.
    - by destruct Hkey as (_ & -> & ?).
    - apply post_ret. by apply explained_fail. }
  eapply post_bind; [by apply (detach_string_room (limit64 Hlimit))|]. intros ? ->. rewrite Hbytes in *.
  assert (bytes_ok (p_rest p1)) as Hok1 by ok_tac. clear Hok.
  pose proof (skip_ws_length (p_rest p1)) as Hs1. pose proof (ok_skip _ Hok1) as Hok2.
  unfold tamga_json_skip_ws, tamga_json_peek, advance. cbn [p_rest p_error].
  generalize dependent (skip_ws_bytes (p_rest p1)). intros l1 Hs1 Hok2.
  destruct (Z.eqb_spec (peek_at l1) 58) as [Hc|Hc]; cbn [negb]; [|apply post_ret; by apply explained_fail].
  apply peek_cons in Hc; [|done]. generalize dependent (drop 1 l1). intros l2 ->. cbn [length] in *.
  assert (bytes_ok l2) as Hok3 by ok_tac.
  eapply post_bind; [apply post_and; [by apply Hpv|apply Hexp; cbn; [done|done|lia]]|].
  intros [[x|] p2] [Hx Hxe]; [|by apply post_ret].
  destruct (vpost_shorter (mk_parser l2 (p_error p1)) (Some x, p2) x Hx eq_refl) as (Her & Hsh & Hok4).
  cbn [snd p_rest p_error] in *. specialize (Hok4 Hok3). rewrite He1 in Her.
  eapply post_bind.
  { apply (object_set_ok (limit := limit)); rewrite ?c_view_id by done;
      unfold json_memory, TAMGA_MAX_REASONABLE_LEN in *; lia. }
  intros ? ->. pose proof (skip_ws_length (p_rest p2)) as Hs3. pose proof (ok_skip _ Hok4) as Hok5.
  generalize dependent (skip_ws_bytes (p_rest p2)). intros l3 Hs3 Hok5.
  destruct (Z.eqb_spec (peek_at l3) 44) as [Hc3|Hc3].
  - apply peek_cons in Hc3; [|done]. generalize dependent (drop 1 l3). intros l4 ->.
    pose proof (skip_ws_length l4). cbn [length] in *. pose proof (obj_set_length ms (c_view k) x).
    apply IH; cbn [p_rest p_error]; [apply ok_skip; ok_tac|done|lia|lia].
  - destruct (_ =? 125); apply post_ret; [done|]. by apply explained_fail.
Qed.

Lemma parse_object_honest p :
  bytes_ok (p_rest p) -> p_error p = None -> zlen (p_rest p) <= TAMGA_MAX_REASONABLE_LEN ->
  post (tamga_json_parse_object pv p) explained.
Proof.
  intros Hok He Hlen. eapply post_bind; [apply (new_ok (limit := limit)); unfold json_memory in *; lia|].
  intros ? ->. unfold tamga_json_skip_ws, tamga_json_peek, advance. cbn [p_rest p_error].
  assert (bytes_ok (drop 1 (p_rest p))) as Hok1 by (rewrite <- (take_drop 1 (p_rest p)) in Hok; ok_tac).
  pose proof (length_drop (p_rest p) 1). pose proof (skip_ws_length (drop 1 (p_rest p))).
  destruct (_ =? 125); [by apply post_ret|].
  apply object_loop_honest; cbn [p_rest p_error]; [by apply ok_skip|done|lia|simpl; lia].
Qed.
End HonestLevels.

Lemma parse_literal_honest p lit node :
  p_error p = None -> post (parse_literal p lit (tamga_json_new node)) explained.
Proof.
  intros He. unfold parse_literal. destruct (tamga_json_match_literal p lit); [|apply post_ret; by apply explained_fail].
  eapply post_bind; [apply (new_ok (limit := limit)); unfold json_memory in *; lia|]. intros ? ->. by apply post_ret.
Qed.

Lemma parse_string_honest p :
  bytes_ok (p_rest p) -> p_error p = None -> zlen (p_rest p) <= TAMGA_MAX_REASONABLE_LEN ->
  post (parse_string_value p) explained.
Proof.
  intros Hok He Hlen.
  eapply post_bind; [apply post_and; [by apply string_into_sound|by apply string_into_honest]|].
  intros [[[] p1] b] [Hstr Hb]; cbn [negb]; [|apply post_ret; by intros _].
  destruct (Hstr eq_refl) as (d & t & Hd & Hp & He1 & Hwf & Hbytes).
  eapply post_bind; [by apply (detach_room (limit64 Hlimit))|]. intros ? ->.
  eapply post_bind; [apply (new_string_ok (limit := limit)); [unfold json_memory in *; lia|]|].
  - rewrite Hbytes. pose proof (jstr_bytes d t Hd). rewrite Hp in Hlen. len_norm.
    unfold json_memory, TAMGA_MAX_REASONABLE_LEN in *. lia.
  - intros ? ->. by apply post_ret.
Qed.

Lemma parse_value_honest levels p :
  bytes_ok (p_rest p) -> p_error p = None -> zlen (p_rest p) <= TAMGA_MAX_REASONABLE_LEN ->
  post (tamga_json_parse_value levels p) explained.
Proof.
  revert p. induction levels as [|n IH]; intros p Hok He Hlen; cbn [tamga_json_parse_value].
  { apply post_ret. by apply explained_fail. }
  pose proof (ok_skip _ Hok) as Hok1. pose proof (skip_ws_length (p_rest p)).
  set (p1 := tamga_json_skip_ws p). change (skip_ws_bytes (p_rest p)) with (p_rest p1) in *.
  change (p_error p) with (p_error p1) in He.
  eapply post_bind with (P := explained).
  - pose proof (parse_value_sound n) as Hs.
    destruct (_ =? 123); [apply (parse_object_honest n); auto; lia|].
    destruct (_ =? 91); [apply (parse_array_honest n); auto; lia|].
    destruct (_ =? 34); [apply parse_string_honest; auto; lia|].
    destruct (_ =? 116); [by apply parse_literal_honest|].
    destruct (_ =? 102); [by apply parse_literal_honest|].
    destruct (_ =? 110); [by apply parse_literal_honest|].
    destruct (_ || _); [|apply post_ret; by apply explained_fail].
    eapply post_mono; [apply (parse_number_honest (limit := limit)); unfold json_memory in *; lia|].
    intros [r p'] Hr Hn. destruct (Hr Hn) as (m & l & ->). exists m. cbn in He |- *. by rewrite He.
  - intros [[j|] p2] Hr; apply post_ret; [done|]. intros _. cbn. destruct (Hr eq_refl) as [m Hm]. cbn in Hm.
    rewrite Hm. cbn. eauto.
Qed.

Lemma parse_honest text :
  bytes_ok text -> post (tamga_json_parse (Some text)) (fun r => r <> inr TAMGA_JSON_ERROR_OUT_OF_MEMORY).
Proof.
  intros Hok. unfold tamga_json_parse.
  destruct (Z.gtb_spec (zlen text) TAMGA_MAX_REASONABLE_LEN); [by apply post_ret|].
  eapply post_bind; [by apply parse_value_honest|]. intros [[j|] p] Hr.
  - destruct (tamga_json_at_end _); by apply post_ret.
  - destruct (Hr eq_refl) as [m Hm]. cbn in Hm. apply post_ret. by rewrite Hm.
Qed.
End Honest.

(** ** The trees that documents denote are well formed *)

Lemma num_json_wf k : json_wf (num_json k).
Proof. unfold num_json. destruct (_ && _) eqn:E; constructor. lia. Qed.

Lemma build_members_wf ms :
  Forall (fun m => (~ In 0 m.1 /\ zlen m.1 <= TAMGA_MAX_REASONABLE_LEN) /\ json_wf m.2) ms ->
  json_wf (JObject (build_members ms)).
Proof.
  induction ms as [|[k v] ms IH] using rev_ind; intros H.
  - constructor; constructor.
  - apply Forall_app in H as [H1 H2]. apply Forall_cons_1 in H2 as [[[? ?] ?] _].
    rewrite build_members_app. apply obj_set_wf; auto.
Qed.

Lemma grammar_wf :
  (forall n j t, jval n j t -> zlen t <= TAMGA_MAX_REASONABLE_LEN -> json_wf j) /\
  (forall n items t, jitems n items t -> zlen t <= TAMGA_MAX_REASONABLE_LEN -> Forall json_wf items) /\
  (forall n ms t, jmembers n ms t -> zlen t <= TAMGA_MAX_REASONABLE_LEN ->
     Forall (fun m => (~ In 0 m.1 /\ zlen m.1 <= TAMGA_MAX_REASONABLE_LEN) /\ json_wf m.2) ms).
Proof.
  apply jval_mutind; intros; len_norm; try (by constructor); try apply num_json_wf.
  - constructor. match goal with H : _ -> _ |- _ => apply H end. lia.
  - constructor; constructor.
  - apply build_members_wf. match goal with H : _ -> _ |- _ => apply H end. lia.
  - constructor; [|constructor]. match goal with H : _ -> _ |- _ => apply H end. lia.
  - constructor; match goal with H : _ -> _ |- _ => apply H end; lia.
  - constructor; [|constructor]. pose proof (jstr_bytes k kt ltac:(done)). cbn [fst snd].
    split_and!; [done|lia|]. match goal with H : _ -> json_wf _ |- _ => apply H end. lia.
  - pose proof (jstr_bytes k kt ltac:(done)). constructor.
    + cbn [fst snd]. split_and!; [done|lia|]. match goal with H : _ -> json_wf _ |- _ => apply H end. lia.
    + match goal with H : _ -> Forall _ _ |- _ => apply H end. lia.
Qed.

Lemma jtext_wf j text : jtext j text -> json_wf j.
Proof.
  intros (Hlen & w1 & t & w2 & -> & _ & _ & Hj). len_norm. apply (proj1 grammar_wf _ _ _ Hj). lia.
Qed.

(** ** The theorems *)

Section Theorems.
Context {malloc : Malloc}.

(** Whatever the allocator does, a tree that comes out of the parser is
    denoted by the document, under the whole strict grammar, and satisfies
    the invariant of trees. *)
Theorem json_parse_sound text s j s' :
  bytes_ok text -> tamga_json_parse (Some text) s = (inl j, s') -> jtext j text /\ json_wf j.
Proof.
  intros Hok Hp. pose proof (post_run _ _ _ _ _ (document_sound text Hok) Hp) as H. simpl in H. split; [done|by eapply jtext_wf].
Qed.

(** (C9) With memory, the parser returns exactly the tree of the grammar:
    every document of the grammar is accepted and nothing else is, and a
    refusal is never reported as out of memory. *)
Theorem json_parse_iff limit `{!MallocUpTo limit} text s j :
  json_memory <= limit <= SIZE_MAX -> bytes_ok text ->
  ((tamga_json_parse (Some text) s).1 = inl j <-> jtext j text) /\
  (tamga_json_parse (Some text) s).1 <> inr TAMGA_JSON_ERROR_OUT_OF_MEMORY.
Proof.
  intros Hl Hok. split; [split|].
  - intros H. pose proof (document_sound text Hok s) as Hs. by rewrite H in Hs.
  - intros Hj. by apply (document_complete (limit := limit)).
  - by apply (parse_honest (limit := limit)).
Qed.
End Theorems.

Lemma json_parse_sound_witness : jtext (JArray [JNull]) (bstr "[ null]") /\ json_wf (JArray [JNull]).
Proof.
  eapply (json_parse_sound (malloc := full_memory) _ (mk_st 0 None)); [|vm_compute; reflexivity].
  repeat constructor; vm_compute; congruence.
Defined.

Lemma json_parse_iff_witness : jtext (JObject [(bstr "a", JInt (-7))]) [123; 34; 97; 34; 58; 45; 55; 125].
Proof.
  apply (json_parse_iff (malloc := full_memory) json_memory [123; 34; 97; 34; 58; 45; 55; 125] (mk_st 0 None)).
  - vm_compute. split; congruence.
  - repeat constructor; vm_compute; congruence.
  - vm_compute. reflexivity.
Defined.

(** A text denotes at most one tree. *)
Lemma jtext_unique text j1 j2 : jtext j1 text -> jtext j2 text -> j1 = j2.
Proof.
  intros H1 H2. assert (json_memory <= json_memory <= SIZE_MAX) as Hl by (vm_compute; split; congruence).
  pose proof (document_complete (malloc := full_memory) Hl text j1 H1 (mk_st 0 None)) as E1.
  pose proof (document_complete (malloc := full_memory) Hl text j2 H2 (mk_st 0 None)) as E2. congruence.
Qed.
