(* ===== verification/JsonWrite.v ===== *)
(** * The JSON serializers: [src/src/util/json_write.c]

    The writer appends to a [TamgaBuf]; the members of an object are passed to
    [tamga_json_write_object] as keys paired with the writers of their values,
    since the sorted order visits them by index. *)

From Stdlib Require Import String SpecFloat.
From S2P Require Import Prelude World Buf Float Json.
#[local] Open Scope Z_scope.

(** ** Strings *)

Definition hex_lower : bytes := bstr "0123456789abcdef".

(** What the [switch] appends for one byte. *)
Definition escape_char (c : Z) : bytes :=
  if c =? 34 then [92; 34]
  else if c =? 92 then [92; 92]
  else if c =? 8 then [92; 98]
  else if c =? 12 then [92; 102]
  else if c =? 10 then [92; 110]
  else if c =? 13 then [92; 114]
  else if c =? 9 then [92; 116]
  else if c <? 32 then
    [92; 117; 48; 48; at_ hex_lower (Z.land (Z.shiftr c 4) 15); at_ hex_lower (Z.land c 15)]
  else [c].

Section Escaped.
Context {malloc : Malloc}.

Fixpoint escape_loop (l : bytes) (out : TamgaBuf) : M TamgaBuf :=
  match l with
  | [] => ret out
  | c :: l' => let! out := tamga_buf_append out (Some (escape_char c)) in escape_loop l' out
  end.

Definition tamga_json_write_escaped (l : bytes) (out : TamgaBuf) : M TamgaBuf :=
  let! out := tamga_buf_append_byte out 34 in
  let! out := escape_loop l out in
  tamga_buf_append_byte out 34.
End Escaped.

(** ** Doubles *)

(** The precision loop: the first of the remaining precisions whose text reads
    back as the value; [None] when the buffer is too small or none does. *)
Fixpoint find_precision (tries : nat) (precision : Z) (value : spec_float) : option bytes :=
  match tries with
  | O => None
  | S k =>
      let scratch := fmt_e precision value in
      if zlen scratch >=? 64 then None
      else if SFeqb (strtod scratch).1 value then Some scratch
      else find_precision k (precision + 1) value
  end.

(** The cursor loop: the characters before the exponent without the point, and
    the text at the cursor; [None] when [digits] is full. *)
Fixpoint collect_digits (cursor : bytes) (acc : bytes) : option (bytes * bytes) :=
  match cursor with
  | [] => Some (acc, [])
  | c :: r =>
      if (c =? 101) || (c =? 69) then Some (acc, cursor)
      else if c =? 46 then collect_digits r acc
      else if zlen acc >=? 32 then None
      else collect_digits r (acc ++ [c])
  end.

(** [strtol(cursor, NULL, 10)] on an optional sign and digits. *)
Definition strtol (l : bytes) : Z :=
  let '(neg, l) := match l with
                   | c :: r => if c =? 45 then (true, r) else if c =? 43 then (false, r) else (false, l)
                   | [] => (false, l)
                   end in
  let '(v, _, _) := read_digits l 0 0 in if neg : bool then - v else v.

(** Drops trailing zeros while more than one digit is left. *)
Fixpoint strip_zeros (fuel : nat) (digits : bytes) : bytes :=
  match fuel with
  | O => digits
  | S f => if (1 <? length digits)%nat && (List.last digits 0 =? 48)
           then strip_zeros f (removelast digits) else digits
  end.

(** [%+d] *)
Definition fmt_plus_d (n : Z) : bytes := (if n <? 0 then 45 else 43) :: fmt_nat (Z.abs n).

(** The chunks appended for the digits and the position of the point. *)
Definition double_chunks (digits : bytes) (kk : Z) : list bytes :=
  let digit_count := zlen digits in
  if (kk >? 0) && (kk <=? 16) then
    if kk >=? digit_count then
      digits :: replicate (Z.to_nat (kk - digit_count)) [48] ++ [[46; 48]]
    else [take (Z.to_nat kk) digits; [46]; drop (Z.to_nat kk) digits]
  else if (kk >? -5) && (kk <=? 0) then
    [48; 46] :: replicate (Z.to_nat (- kk)) [48] ++ [digits]
  else
    take 1 digits :: (if digit_count >? 1 then [[46]; drop 1 digits] else []) ++
    [101 :: fmt_plus_d (kk - 1)].

Section Doubles.
Context {malloc : Malloc}.

Fixpoint append_chunks (chunks : list bytes) (out : TamgaBuf) : M TamgaBuf :=
  match chunks with
  | [] => ret out
  | c :: r => let! out := tamga_buf_append out (Some c) in append_chunks r out
  end.

(** The last chunk of the exponential form is appended with
    [tamga_buf_append_fmt], which reserves its terminator too. *)
Definition append_double (digits : bytes) (kk : Z) (out : TamgaBuf) : M TamgaBuf :=
  let chunks := double_chunks digits kk in
  if ((kk >? 0) && (kk <=? 16)) || ((kk >? -5) && (kk <=? 0)) then append_chunks chunks out
  else
    let! out := append_chunks (removelast chunks) out in
    tamga_buf_append_fmt out (Some (101 :: fmt_plus_d (kk - 1))).

Definition tamga_json_write_double (value : spec_float) (out : TamgaBuf) : M TamgaBuf :=
  let null := tamga_buf_append out (Some (bstr "null")) in
  if negb (sf_isfinite value) then null
  else match find_precision 18 0 value with
  | None => null
  | Some scratch =>
      let '(negative, cursor) := match scratch with
                                 | c :: r => if c =? 45 then (true, r) else (false, scratch)
                                 | [] => (false, scratch)
                                 end in
      match collect_digits cursor [] with
      | None => null
      | Some (digits, cursor) =>
          let exponent10 := match cursor with
                            | c :: r => if (c =? 101) || (c =? 69) then strtol r else 0
                            | [] => 0
                            end in
          if (length digits =? 0)%nat then null
          else
            let digits := strip_zeros (length digits) digits in
            let kk := exponent10 + 1 in
            let! out := if negative : bool then tamga_buf_append_byte out 45 else ret out in
            append_double digits kk out
      end
  end.
End Doubles.

(** ** Key order *)

(** -1, 0 or 1, comparing two C strings by unsigned bytes. *)
Fixpoint tamga_json_key_cmp (a b : bytes) : Z :=
  match a, b with
  | x :: a', y :: b' =>
      if (x =? 0) || (y =? 0) then if x =? y then 0 else if x =? 0 then -1 else 1
      else if negb (x =? y) then if x <? y then -1 else 1
      else tamga_json_key_cmp a' b'
  | [], [] => 0
  | [], y :: _ => if y =? 0 then 0 else -1
  | x :: _, [] => if x =? 0 then 0 else 1
  end.

Section Sort.
(** [tamga_json_object_key_at(object, i)]; the comparison never sees an
    index out of range. *)
Variable keys : list bytes.
Definition key_at (i : nat) : bytes := nth i keys [].

(** The inner [while]: what is stored to [scratch[at]], [scratch[at + 1]], ... *)
Fixpoint merge_run (fuel : nat) (order : list nat) (left mid right end_ : nat) : list nat :=
  match fuel with
  | O => []
  | S f =>
      if (left <? mid)%nat || (right <? end_)%nat then
        let take_left :=
          if (mid <=? left)%nat then false
          else if (end_ <=? right)%nat then true
          else tamga_json_key_cmp (key_at (nth left order O)) (key_at (nth right order O)) <=? 0 in
        if take_left then nth left order O :: merge_run f order (S left) mid right end_
        else nth right order O :: merge_run f order left mid (S right) end_
      else []
  end.

(** The [start] loop: the scratch array after it. *)
Fixpoint merge_pass (fuel : nat) (order : list nat) (width start : nat) : list nat :=
  match fuel with
  | O => []
  | S f =>
      let count := length order in
      if (start <? count)%nat then
        let mid := Nat.min (start + width) count in
        let end_ := Nat.min (start + 2 * width) count in
        merge_run count order start mid mid end_ ++ merge_pass f order width (start + 2 * width)
      else []
  end.

(** The [width] loop. *)
Fixpoint sort_widths (fuel : nat) (order : list nat) (width : nat) : list nat :=
  match fuel with
  | O => order
  | S f =>
      if (width <? length order)%nat
      then sort_widths f (merge_pass (length order) order width 0) (2 * width)
      else order
  end.
End Sort.

Definition sizeof_size_t : Z := 8.

Section Write.
Context {malloc : Malloc}.

(** The order array, [None] when an allocation failed. *)
Definition tamga_json_sort_keys (keys : list bytes) : M (option (list nat)) :=
  let count := length keys in
  let! order := tamga_calloc (Z.of_nat count) sizeof_size_t in
  if negb order then ret None
  else
    let! scratch := tamga_calloc (Z.of_nat count) sizeof_size_t in
    if negb scratch then ret None
    else ret (Some (sort_widths keys count (seq 0 count) 1)).

(** The member loop over the order array from position [i] on. *)
Fixpoint write_members (members : list (bytes * (TamgaBuf -> M TamgaBuf))) (order : list nat)
  (i : nat) (out : TamgaBuf) : M TamgaBuf :=
  match order with
  | [] => ret out
  | index :: order' =>
      let! out := if (0 <? i)%nat then tamga_buf_append_byte out 44 else ret out in
      match members !! index with
      | None => ret (tamga_buf_mark_failed out)
      | Some (key, write_member) =>
          let! out := tamga_json_write_escaped (c_view key) out in
          let! out := tamga_buf_append_byte out 58 in
          let! out := write_member out in
          write_members members order' (S i) out
      end
  end.

Definition tamga_json_write_object (members : list (bytes * (TamgaBuf -> M TamgaBuf)))
  (out : TamgaBuf) (canonical : bool) : M TamgaBuf :=
  let count := length members in
  let! out := tamga_buf_append_byte out 123 in
  let! order := if canonical && (1 <? count)%nat then tamga_json_sort_keys (fst <$> members)
                else ret (Some (seq 0 count)) in
  match order with
  | None => ret (tamga_buf_mark_failed out)
  | Some order =>
      let! out := write_members members order 0 out in
      tamga_buf_append_byte out 125
  end.

(** The item loop of the array case. *)
Fixpoint write_items (items : list (TamgaBuf -> M TamgaBuf)) (i : nat) (out : TamgaBuf) : M TamgaBuf :=
  match items with
  | [] => ret out
  | write_item :: items' =>
      let! out := if (0 <? i)%nat then tamga_buf_append_byte out 44 else ret out in
      let! out := write_item out in
      write_items items' (S i) out
  end.

Fixpoint tamga_json_write_value (value : json) (canonical : bool) (out : TamgaBuf) : M TamgaBuf :=
  match value with
  | JNull => tamga_buf_append out (Some (bstr "null"))
  | JBool b => tamga_buf_append out (Some (bstr (if b then "true" else "false")%string))
  | JInt z => tamga_buf_append_fmt out (Some (fmt_dec z))
  | JReal r => tamga_json_write_double r out
  | JString s => tamga_json_write_escaped s out
  | JArray items =>
      let! out := tamga_buf_append_byte out 91 in
      let! out := write_items (map (fun x => tamga_json_write_value x canonical) items) 0 out in
      tamga_buf_append_byte out 93
  | JObject members =>
      tamga_json_write_object (map (fun m => (m.1, tamga_json_write_value m.2 canonical)) members)
                              out canonical
  end.

Definition tamga_json_write_impl (value : option json) (canonical : bool) : M (option bytes) :=
  let! buf := match value with
              | None => tamga_buf_append tamga_buf_init (Some (bstr "null"))
              | Some value => tamga_json_write_value value canonical tamga_buf_init
              end in
  let! (text, _) := tamga_buf_detach_string buf in
  ret text.

Definition tamga_json_write_canonical (value : option json) : M (option bytes) :=
  tamga_json_write_impl value true.

Definition tamga_json_write (value : option json) : M (option bytes) :=
  tamga_json_write_impl value false.
End Write.
