(* ===== verification/KeySort.v ===== *)
(** * The key order of the canonical serializer

    [tamga_json_key_cmp] is a total order on C strings and the bottom-up merge
    sort of [tamga_json_sort_keys] ([src/src/util/json_write.c]) arranges the
    members of an object by it. *)

From Stdlib Require Import SpecFloat.
From S2P Require Import Prelude World Buf Float Json JsonWrite.
From stdpp Require Import sorting list.
#[local] Open Scope Z_scope.

(** ** The comparison *)

Lemma key_cmp_opp a b : tamga_json_key_cmp b a = - tamga_json_key_cmp a b.
Proof.
  revert b. induction a as [|x a IH]; intros [|y b]; simpl; try (repeat dif; lia).
  rewrite IH. repeat dif; lia.
Qed.

Lemma key_cmp_zero a b : tamga_json_key_cmp a b = 0 -> c_view a = c_view b.
Proof.
  revert b. induction a as [|x a IH]; intros [|y b]; simpl; try (repeat dif; try done; lia).
  destruct (Z.eqb_spec x 0), (Z.eqb_spec y 0); simpl; try (repeat dif; try done; lia).
  destruct (Z.eqb_spec x y) as [->|]; simpl; [intros; f_equal; auto|dif; done].
Qed.

Lemma key_cmp_trans a b c :
  tamga_json_key_cmp a b <= 0 -> tamga_json_key_cmp b c <= 0 -> tamga_json_key_cmp a c <= 0.
Proof.
  revert b c. induction a as [|x a IH]; intros [|y b] [|z c]; simpl; try (repeat dif; lia).
  specialize (IH b c). repeat dif; lia.
Qed.

Definition key_le (a b : bytes) : Prop := tamga_json_key_cmp a b <= 0.

#[export] Instance key_le_dec a b : Decision (key_le a b).
Proof. unfold key_le. apply _. Defined.

#[export] Instance key_le_total : Total key_le.
Proof. intros a b. unfold key_le. rewrite (key_cmp_opp a b). lia. Qed.

#[export] Instance key_le_trans : Transitive key_le.
Proof. intros a b c. apply key_cmp_trans. Qed.

(** On C strings the order is antisymmetric. *)
Lemma key_le_antisym a b : ~ In 0 a -> ~ In 0 b -> key_le a b -> key_le b a -> a = b.
Proof.
  unfold key_le. intros Ha Hb H1 H2. rewrite <- (c_view_id a), <- (c_view_id b) by done.
  apply key_cmp_zero. rewrite key_cmp_opp in H2. lia.
Qed.

(** ** One pass of the sort *)

Section Merge.
Variable keys : list bytes.

Definition idx_le (i j : nat) : Prop := key_le (key_at keys i) (key_at keys j).

#[local] Instance idx_le_dec i j : Decision (idx_le i j).
Proof. unfold idx_le. apply _. Defined.
#[local] Instance idx_le_total : Total idx_le.
Proof. intros i j. apply key_le_total. Qed.
#[local] Instance idx_le_trans : Transitive idx_le.
Proof. intros i j k. apply key_le_trans. Qed.

(** The indices of [order] from [i] up to [j]. *)
Definition slice (order : list nat) (i j : nat) : list nat := take (j - i) (drop i order).

Lemma slice_nil order i j : (j <= i)%nat -> slice order i j = [].
Proof. intros. unfold slice. by replace (j - i)%nat with 0%nat by lia. Qed.

Lemma slice_cons order i j :
  (i < j <= length order)%nat -> slice order i j = nth i order 0%nat :: slice order (S i) j.
Proof.
  intros H. unfold slice. replace (j - i)%nat with (S (j - S i)) by lia.
  destruct (drop i order) as [|x l] eqn:E.
  { apply (f_equal length) in E. rewrite length_drop in E. simpl in E. lia. }
  cbn [take]. replace (nth i order 0%nat) with x.
  - f_equal. f_equal. replace (S i) with (i + 1)%nat by lia. by rewrite <- drop_drop, E.
  - rewrite <- (Nat.add_0_r i), <- nth_drop, E. done.
Qed.

Lemma merge_run_spec fuel order left mid right end_ :
  (mid - left + (end_ - right) <= fuel)%nat -> (mid <= length order)%nat -> (end_ <= length order)%nat ->
  merge_run keys fuel order left mid right end_ =
  list_merge idx_le (slice order left mid) (slice order right end_).
Proof.
  revert left right. induction fuel as [|f IH]; intros left right Hf Hm He.
  - by rewrite !slice_nil by lia.
  - cbn [merge_run]. destruct (Nat.leb_spec mid left) as [Hl|Hl].
    + rewrite (slice_nil order left mid) by lia. replace (left <? mid)%nat with false by lia. cbn [orb].
      destruct (Nat.ltb_spec right end_) as [Hr|Hr]; [|by rewrite slice_nil by lia].
      rewrite (slice_cons order right end_) by lia. cbn [list_merge]. rewrite IH by lia.
      rewrite slice_nil by lia. by destruct (slice order (S right) end_).
    + replace (left <? mid)%nat with true by lia. cbn [orb]. rewrite (slice_cons order left mid) by lia.
      destruct (Nat.leb_spec end_ right) as [Hr|Hr].
      * rewrite IH by lia. rewrite (slice_nil order right end_) by lia. cbn [list_merge].
        by destruct (slice order (S left) mid).
      * rewrite (slice_cons order right end_) by lia. cbn [list_merge].
        unfold decide_rel. destruct (decide (idx_le _ _)) as [Hle|Hle]; unfold idx_le, key_le in Hle.
        -- replace (_ <=? 0) with true by lia. f_equal. rewrite IH by lia.
           by rewrite (slice_cons order right end_) by lia.
        -- replace (_ <=? 0) with false by lia. f_equal. rewrite IH by lia.
           by rewrite (slice_cons order left mid) by lia.
Qed.

(** Sorted runs of [width] elements from the start of the list. *)
Definition runs (width : nat) (l : list nat) : Prop :=
  forall k : nat, Sorted idx_le (take width (drop (k * width) l)).

Lemma merge_pass_spec fuel order width start :
  (1 <= width)%nat -> (length order - start <= fuel)%nat -> runs width (drop start order) ->
  merge_pass keys fuel order width start ≡ₚ drop start order /\
  runs (2 * width) (merge_pass keys fuel order width start).
Proof.
  intros Hw. revert start. induction fuel as [|f IH]; intros start Hf Hruns.
  { rewrite drop_ge by lia. split; [done|]. intros k. simpl. rewrite drop_nil, take_nil. constructor. }
  cbn [merge_pass]. destruct (Nat.ltb_spec start (length order)) as [Hs|Hs].
  2:{ rewrite drop_ge by lia. split; [done|]. intros k. rewrite drop_nil, take_nil. constructor. }
  set (mid := Nat.min _ _). set (end_ := Nat.min _ _).
  rewrite merge_run_spec by lia.
  assert (slice order start mid = take width (drop start order)) as Ha.
  { unfold slice. destruct (Nat.le_ge_cases (start + width) (length order)).
    - f_equal. lia.
    - rewrite !take_ge; rewrite ?length_drop; [done|lia..]. }
  assert (slice order mid end_ = take width (drop width (drop start order))) as Hb.
  { unfold slice. rewrite drop_drop. destruct (Nat.le_ge_cases (start + width) (length order)).
    - replace mid with (start + width)%nat by lia.
      destruct (Nat.le_ge_cases (start + 2 * width) (length order)); [f_equal; lia|].
      rewrite !take_ge; rewrite ?length_drop; [done|lia..].
    - rewrite !drop_ge by lia. by rewrite !take_nil. }
  rewrite Ha, Hb. set (A := take width _). set (B := take width _).
  destruct (IH (start + 2 * width)%nat) as [Hperm Hr]; [lia| |].
  { intros k. specialize (Hruns (S (S k))). rewrite drop_drop in Hruns |- *.
    replace (start + 2 * width + k * width)%nat with (start + S (S k) * width)%nat by lia. done. }
  assert (A ++ B ++ drop (start + 2 * width) order = drop start order) as Hsplit.
  { subst A B. replace (start + 2 * width)%nat with (start + width + width)%nat by lia.
    rewrite <- (drop_drop order width (start + width)), <- (drop_drop order width start), take_drop.
    apply take_drop. }
  pose proof (merge_Permutation idx_le A B) as Hmp.
  split. { rewrite Hmp, Hperm, <- Hsplit. by rewrite app_assoc. }
  assert (Sorted idx_le (list_merge idx_le A B)) as Hsorted.
  { apply Sorted_list_merge; [apply _| |].
    - specialize (Hruns 0%nat). by rewrite drop_0 in Hruns.
    - specialize (Hruns 1%nat). by rewrite Nat.mul_1_l in Hruns. }
  pose proof (Permutation_length Hmp) as Hlen. rewrite length_app in Hlen.
  pose proof (Permutation_length Hperm) as Hlen2. rewrite length_drop in Hlen2.
  assert (length A + length B <= 2 * width)%nat by (subst A B; rewrite !length_take; lia).
  assert (length A + length B = 2 * width \/ length (merge_pass keys f order width (start + 2 * width)) = 0)%nat.
  { subst A B. rewrite !length_take, !length_drop. lia. }
  intros [|k].
  - rewrite Nat.mul_0_l, drop_0, take_app. rewrite (take_ge (list_merge _ _ _)) by lia.
    destruct H0 as [H0|H0].
    + replace (_ - _)%nat with 0%nat by lia. by rewrite take_0, app_nil_r.
    + apply nil_length_inv in H0. rewrite H0, take_nil, app_nil_r. done.
  - rewrite drop_app. rewrite drop_ge by lia. cbn [app]. destruct H0 as [H0|H0].
    + replace (S k * (2 * width) - _)%nat with (k * (2 * width))%nat by lia. apply Hr.
    + apply nil_length_inv in H0. rewrite H0, drop_nil, take_nil. constructor.
Qed.

Lemma sort_widths_spec fuel order width :
  (1 <= width)%nat -> (length order <= width * 2 ^ fuel)%nat -> runs width order ->
  sort_widths keys fuel order width ≡ₚ order /\ Sorted idx_le (sort_widths keys fuel order width).
Proof.
  revert order width. induction fuel as [|f IH]; intros order width Hw Hf Hr.
  - simpl in *. split; [done|]. specialize (Hr 0%nat). rewrite drop_0, take_ge in Hr by lia. done.
  - cbn [sort_widths]. destruct (Nat.ltb_spec width (length order)).
    + destruct (merge_pass_spec (length order) order width 0) as [Hp Hr']; [done|lia|by rewrite drop_0|].
      rewrite drop_0 in Hp. destruct (IH (merge_pass keys (length order) order width 0) (2 * width)%nat) as [Hp' Hs'].
      * lia.
      * rewrite Hp. simpl in Hf. lia.
      * done.
      * split; [by rewrite Hp', Hp|done].
    + split; [done|]. specialize (Hr 0%nat). rewrite drop_0, take_ge in Hr by lia. done.
Qed.

Lemma runs_one l : runs 1 l.
Proof. intros k. destruct (drop _ l) as [|x l']; simpl; [constructor|]. rewrite take_0. repeat constructor. Qed.

Lemma pow2_ge n : (n <= 2 ^ n)%nat.
Proof. induction n as [|n IH]; simpl; [lia|]. assert (1 <= 2 ^ n)%nat by (apply Nat.neq_0_lt_0, Nat.pow_nonzero; lia). lia. Qed.

Lemma sort_order_spec :
  sort_widths keys (length keys) (seq 0 (length keys)) 1 ≡ₚ seq 0 (length keys) /\
  Sorted idx_le (sort_widths keys (length keys) (seq 0 (length keys)) 1).
Proof.
  apply sort_widths_spec; [lia| |apply runs_one]. rewrite length_seq. pose proof (pow2_ge (length keys)). lia.
Qed.
End Merge.
