(* ===== verification/JsonPrint.v ===== *)
(** * What the serializers write

    [print canonical j] is the text of a tree as a function;
    [tamga_json_write_value] refines it ([src/src/util/json_write.c]): it
    appends exactly this text or fails the buffer. *)

From Stdlib Require Import String SpecFloat.
From S2P Require Import Prelude World Buf Float Json JsonWrite KeySort.
From stdpp Require Import sorting list.
#[local] Open Scope Z_scope.

(** ** The text of a tree *)

Definition escape (s : bytes) : bytes := concat (map escape_char s).
Definition quoted (s : bytes) : bytes := 34 :: escape s ++ [34].

(** The text of a finite double that reads back, [None] for the fallback. *)
Definition double_text (value : spec_float) : option bytes :=
  if negb (sf_isfinite value) then None
  else
    scratch ← find_precision 18 0 value;
    let '(negative, cursor) := match scratch with
                               | c :: r => if c =? 45 then (true, r) else (false, scratch)
                               | [] => (false, scratch)
                               end in
    '(digits, cursor) ← collect_digits cursor [];
    let exponent10 := match cursor with
                      | c :: r => if (c =? 101) || (c =? 69) then strtol r else 0
                      | [] => 0
                      end in
    if (length digits =? 0)%nat then None
    else Some ((if negative : bool then [45] else []) ++
               concat (double_chunks (strip_zeros (length digits) digits) (exponent10 + 1))).

Fixpoint comma_join (l : list bytes) : bytes :=
  match l with
  | [] => []
  | x :: l' => match l' with [] => x | _ => x ++ 44 :: comma_join l' end
  end.

(** The members in the order the serializer visits them. *)
Definition arrange {A} (canonical : bool) (ms : list (bytes * A)) : list (bytes * A) :=
  if canonical && (1 <? length ms)%nat
  then omap (fun i => ms !! i) (sort_widths ms.*1 (length ms.*1) (seq 0 (length ms.*1)) 1)
  else ms.

Definition member_text (m : bytes * bytes) : bytes := quoted (c_view m.1) ++ 58 :: m.2.

Fixpoint print (canonical : bool) (j : json) : bytes :=
  match j with
  | JNull => bstr "null"
  | JBool b => bstr (if b then "true" else "false")%string
  | JInt z => fmt_dec z
  | JReal r => default (bstr "null") (double_text r)
  | JString s => quoted s
  | JArray items => 91 :: comma_join (map (print canonical) items) ++ [93]
  | JObject ms =>
      123 :: comma_join (map member_text (arrange canonical (map (fun m => (m.1, print canonical m.2)) ms))) ++ [125]
  end.

(** ** The canonical arrangement *)

Section Arrange.
Context {A : Type}.
Implicit Types ms : list (bytes * A).

Lemma omap_lookup_seq ms : omap (fun i => ms !! i) (seq 0 (length ms)) = ms.
Proof.
  induction ms as [|m ms IH]; [done|]. cbn [length seq]. cbn [omap list_omap lookup list_lookup].
  f_equal. rewrite <- fmap_S_seq. rewrite <- IH at 2. clear IH.
  induction (seq 0 (length ms)) as [|i l IHl]; [done|]. cbn. destruct (ms !! i); by rewrite IHl.
Qed.

Lemma arrange_perm canonical ms : arrange canonical ms ≡ₚ ms.
Proof.
  unfold arrange. destruct (_ && _); [|done].
  rewrite (proj1 (sort_order_spec ms.*1)), length_fmap. by rewrite omap_lookup_seq.
Qed.

Definition member_le (a b : bytes * A) : Prop := key_le a.1 b.1.

Lemma omap_lookup_sorted ms order :
  Forall (fun i => i < length ms)%nat order -> Sorted (idx_le ms.*1) order ->
  Sorted member_le (omap (fun i => ms !! i) order).
Proof.
  intros Hall Hs. apply Sorted_StronglySorted in Hs; [|intros i j k; apply key_le_trans].
  apply StronglySorted_Sorted. induction Hs as [|i order Hs IH Hhd]; [constructor|].
  apply Forall_cons_1 in Hall as [Hi Hall]. cbn.
  assert (forall i : nat, (i < length ms)%nat -> exists m, ms !! i = Some m /\ key_at ms.*1 i = m.1) as Hat.
  { intros k Hk. destruct (lookup_lt_is_Some_2 ms k Hk) as [m Hm]. exists m. split; [done|].
    unfold key_at. apply nth_lookup_Some. by rewrite list_lookup_fmap, Hm. }
  destruct (Hat i Hi) as (m & Hm & Hk). rewrite Hm. constructor; [by apply IH|].
  apply Forall_forall. intros m' Hm'. apply list_elem_of_omap in Hm' as (j & Hj & Hlk).
  rewrite Forall_forall in Hhd, Hall. destruct (Hat j (Hall j Hj)) as (m2 & Hm2 & Hk2).
  specialize (Hhd j Hj). unfold idx_le in Hhd. unfold member_le. congruence.
Qed.

Lemma arrange_sorted ms : Sorted member_le (arrange true ms).
Proof.
  unfold arrange. cbn [andb]. destruct (Nat.ltb_spec 1 (length ms)) as [H|H].
  - destruct (sort_order_spec ms.*1) as [Hp Hs]. apply omap_lookup_sorted; [|done].
    rewrite Hp. apply Forall_forall. intros i. rewrite elem_of_seq, length_fmap. lia.
  - destruct ms as [|m [|m' ms]]; simpl in H; [constructor|repeat constructor|lia].
Qed.

(** Members with distinct C-string keys have one canonical arrangement. *)
Lemma arrange_unique ms1 ms2 :
  NoDup ms1.*1 -> Forall (fun k => ~ In 0 k) ms1.*1 -> ms1 ≡ₚ ms2 -> arrange true ms1 = arrange true ms2.
Proof.
  intros Hnd Hnul Hp.
  assert (Transitive member_le) by (intros a b c; apply key_le_trans).
  apply (StronglySorted_unique_strong member_le).
  - intros m1 m2 H1 H2 Hle1 Hle2. rewrite arrange_perm in H1, H2. rewrite <- Hp in H2.
    assert (m1.1 = m2.1) as Hk.
    { rewrite Forall_fmap, Forall_forall in Hnul. apply key_le_antisym; auto; by apply Hnul. }
    apply list_elem_of_lookup in H1 as [i Hi], H2 as [j Hj].
    assert (i = j) as ->; [|congruence].
    eapply NoDup_lookup; [exact Hnd| |]; rewrite list_lookup_fmap; [by rewrite Hi|by rewrite Hj, Hk].
  - apply Sorted_StronglySorted; [done|apply arrange_sorted].
  - apply Sorted_StronglySorted; [done|apply arrange_sorted].
  - by rewrite !arrange_perm.
Qed.
End Arrange.

Lemma sort_keys_map {A B} (f : A -> B) canonical (ms : list (bytes * A)) :
  arrange canonical (map (fun m => (m.1, f m.2)) ms) = map (fun m => (m.1, f m.2)) (arrange canonical ms).
Proof.
  unfold arrange. rewrite length_map.
  replace ((map (λ m : bytes * A, (m.1, f m.2)) ms).*1) with ms.*1.
  2:{ induction ms as [|m ms IH]; csimpl; [done|]. by f_equal. }
  destruct (_ && _); [|done].
  induction (sort_widths _ _ _ _) as [|i l IH]; [done|]. cbn.
  change (map ?g ms !! i) with ((g <$> ms) !! i). rewrite list_lookup_fmap.
  destruct (ms !! i); cbn; [f_equal; apply IH|apply IH].
Qed.

(** ** Refinement: the writer appends the text *)

Lemma comma_join_cons x l : comma_join (x :: l) = x ++ concat (map (cons 44) l).
Proof.
  revert x. induction l as [|y l IH]; intros x; [by rewrite app_nil_r|].
  change (comma_join (x :: y :: l)) with (x ++ 44 :: comma_join (y :: l)). by rewrite IH.
Qed.

(** The text of the entries from position [i] on. *)
Definition join_from (i : nat) (l : list bytes) : bytes :=
  match i with O => comma_join l | S _ => concat (map (cons 44) l) end.

Lemma join_from_cons i x l :
  join_from i (x :: l) = (if (0 <? i)%nat then [44] else []) ++ x ++ join_from (S i) l.
Proof. destruct i; [apply comma_join_cons|done]. Qed.

Lemma mark_failed_appended b0 l b : buf_wf b -> appended b0 l (tamga_buf_mark_failed b).
Proof. intros. split; [by apply mark_failed_wf|done]. Qed.

Section Refine.
Context {malloc : Malloc}.

(** [writes w t]: the writer [w] appends [t] or fails the buffer. *)
Definition writes (w : TamgaBuf -> M TamgaBuf) (t : bytes) : Prop :=
  forall b, buf_wf b -> post (w b) (appended b (Some t)).

Lemma writes_append l : writes (fun b => tamga_buf_append b (Some l)) l.
Proof. intros b. apply append_post. Qed.

Lemma writes_byte c : writes (fun b => tamga_buf_append_byte b c) [c].
Proof. intros b. apply append_post. Qed.

Lemma writes_fmt l : writes (fun b => tamga_buf_append_fmt b (Some l)) l.
Proof. intros b. apply append_fmt_post. Qed.

Lemma writes_ret : writes ret [].
Proof. intros b Hb. apply post_ret. by apply appended_nil. Qed.

Lemma writes_bind w1 w2 t1 t2 :
  writes w1 t1 -> writes w2 t2 -> writes (fun b => bind (w1 b) w2) (t1 ++ t2).
Proof.
  intros H1 H2 b Hb. eapply post_bind; [by apply H1|]. intros b1 Hb1.
  eapply post_mono; [apply H2, Hb1|]. intros b2. by apply appended_trans.
Qed.

Lemma writes_comma (c : bool) :
  writes (fun b => if c then tamga_buf_append_byte b 44 else ret b) (if c then [44] else []).
Proof. destruct c; [apply writes_byte|apply writes_ret]. Qed.

Lemma writes_escape l : writes (escape_loop l) (escape l).
Proof.
  induction l as [|c l IH]; [apply writes_ret|].
  exact (writes_bind _ _ _ _ (writes_append (escape_char c)) IH).
Qed.

Lemma writes_quoted l : writes (tamga_json_write_escaped l) (quoted l).
Proof.
  exact (writes_bind _ _ _ _ (writes_byte 34) (writes_bind _ _ _ _ (writes_escape l) (writes_byte 34))).
Qed.

Lemma writes_chunks l : writes (append_chunks l) (concat l).
Proof.
  induction l as [|c l IH]; [apply writes_ret|]. exact (writes_bind _ _ _ _ (writes_append c) IH).
Qed.

Lemma writes_double_form digits kk : writes (append_double digits kk) (concat (double_chunks digits kk)).
Proof.
  unfold append_double. destruct (_ || _) eqn:E; [apply writes_chunks|].
  apply orb_false_iff in E as [E1 E2]. unfold double_chunks. rewrite E1, E2.
  rewrite app_comm_cons, removelast_last, concat_app. cbn [concat]. rewrite app_nil_r.
  apply writes_bind; [apply writes_chunks|apply writes_fmt].
Qed.

Lemma writes_double r : writes (tamga_json_write_double r) (default (bstr "null") (double_text r)).
Proof.
  unfold tamga_json_write_double, double_text.
  destruct (negb _); [apply writes_append|].
  destruct (find_precision 18 0 r) as [scratch|]; cbn [mbind option_bind]; [|apply writes_append].
  destruct (match scratch with [] => _ | _ => _ end) as [negative cursor].
  destruct (collect_digits cursor []) as [[digits cursor']|]; cbn [mbind option_bind]; [|apply writes_append].
  destruct (_ =? 0)%nat; [apply writes_append|]. cbn [default].
  apply writes_bind; [|apply writes_double_form]. destruct negative; [apply writes_byte|apply writes_ret].
Qed.

Lemma writes_items ws ts i :
  Forall2 writes ws ts -> writes (write_items ws i) (join_from i ts).
Proof.
  intros H. revert i. induction H as [|w t ws ts Hw _ IH]; intros i; [destruct i; apply writes_ret|].
  rewrite join_from_cons. apply writes_bind; [apply writes_comma|]. by apply writes_bind.
Qed.

Lemma writes_members (ms : list (bytes * (TamgaBuf -> M TamgaBuf))) (ts : list (bytes * bytes)) order i :
  Forall2 (fun m t => m.1 = t.1 /\ writes m.2 t.2) ms ts ->
  writes (fun b => write_members ms order i b)
         (join_from i (map member_text (omap (fun k => ts !! k) order))).
Proof.
  intros Hms. revert i. induction order as [|k order IH]; intros i; [destruct i; apply writes_ret|].
  cbn [write_members omap list_omap]. destruct (ms !! k) as [[key w]|] eqn:Hk.
  - destruct (Forall2_lookup_l _ _ _ _ _ Hms Hk) as ([key' t] & Ht & [Heq Hw]). cbn in Heq, Hw. subst key'.
    rewrite Ht. cbn [map]. rewrite join_from_cons. apply writes_bind; [apply writes_comma|].
    unfold member_text. cbn [fst snd]. rewrite <- app_assoc. apply writes_bind; [apply writes_quoted|].
    exact (writes_bind _ _ [58] _ (writes_byte 58) (writes_bind _ _ _ _ Hw (IH (S i)))).
  - intros b Hb. eapply post_bind; [by apply writes_comma|]. intros b1 [Hb1 _].
    apply post_ret. by apply mark_failed_appended.
Qed.

Lemma arrange_order (ms : list (bytes * bytes)) canonical :
  omap (fun k => ms !! k)
    (if canonical && (1 <? length ms)%nat
     then sort_widths ms.*1 (length ms.*1) (seq 0 (length ms.*1)) 1 else seq 0 (length ms)) =
  arrange canonical ms.
Proof. unfold arrange. destruct (_ && _); [done|]. apply omap_lookup_seq. Qed.

Lemma writes_object ms ts canonical :
  Forall2 (fun m t => m.1 = t.1 /\ writes m.2 t.2) ms ts ->
  writes (fun b => tamga_json_write_object ms b canonical)
         (123 :: comma_join (map member_text (arrange canonical ts)) ++ [125]).
Proof.
  intros Hms. unfold tamga_json_write_object. apply (writes_bind _ _ [123]); [apply writes_byte|].
  assert (ms.*1 = ts.*1) as Hkeys.
  { induction Hms as [|[k w] [k' t] ms ts [? _] _ IH]; [done|]. csimpl. by f_equal. }
  pose proof (Forall2_length _ _ _ Hms) as Hlen.
  intros b Hb. eapply post_bind with (P := fun o => match o with
    | None => True
    | Some order => omap (fun k => ts !! k) order = arrange canonical ts
    end).
  { rewrite <- arrange_order, Hkeys, Hlen. destruct (_ && _); [|by apply post_ret].
    unfold tamga_json_sort_keys.
    eapply post_bind with (P := fun _ => True); [by intros ?|]. intros [] _; [|by apply post_ret].
    eapply post_bind with (P := fun _ => True); [by intros ?|]. intros [] _; by apply post_ret. }
  intros [order|] Ho; [|apply post_ret; by apply mark_failed_appended].
  rewrite <- Ho. revert b Hb. apply (writes_bind _ _ _ [125]); [by apply (writes_members _ _ _ 0)|apply writes_byte].
Qed.

Lemma write_value_refines canonical j :
  writes (tamga_json_write_value j canonical) (print canonical j).
Proof.
  induction j as [|b|z|r|s|items IH|ms IH] using json_induction; cbn [tamga_json_write_value print].
  - apply writes_append.
  - apply writes_append.
  - apply writes_fmt.
  - apply writes_double.
  - apply writes_quoted.
  - apply (writes_bind _ _ [91]); [apply writes_byte|]. apply writes_bind; [|apply writes_byte].
    apply (writes_items _ _ 0). by apply Forall2_fmap, Forall_Forall2_diag.
  - apply writes_object. apply Forall2_fmap, Forall_Forall2_diag.
    eapply Forall_impl; [exact IH|]. by intros m Hm.
Qed.
End Refine.

(** ** With memory the writer does not fail *)

Section Fits.
Context {malloc : Malloc} {limit : Z} `{!MallocUpTo limit} (Hlimit : 64 <= limit <= SIZE_MAX).

(** [fits w t]: where there is room for [t], the writer [w] of [t] leaves the
    room that [t] does not take. *)
Definition fits (w : TamgaBuf -> M TamgaBuf) (t : bytes) : Prop :=
  forall b n, buf_room (limit := limit) b (zlen t + n) -> 0 <= n ->
  post (w b) (fun b' => buf_room (limit := limit) b' n).

Lemma fits_append l : fits (fun b => tamga_buf_append b (Some l)) l.
Proof. intros b n Hr Hn. eapply post_mono; [by apply (append_room Hlimit)|]. by intros ? [? _]. Qed.

Lemma fits_byte c : fits (fun b => tamga_buf_append_byte b c) [c].
Proof. apply fits_append. Qed.

Lemma fits_fmt l : fits (fun b => tamga_buf_append_fmt b (Some l)) l.
Proof. intros b n Hr Hn. eapply post_mono; [by apply (append_fmt_room Hlimit)|]. by intros ? [? _]. Qed.

Lemma fits_ret : fits ret [].
Proof. intros b n Hr Hn. by apply post_ret. Qed.

Lemma fits_bind w1 w2 t1 t2 :
  fits w1 t1 -> fits w2 t2 -> fits (fun b => bind (w1 b) w2) (t1 ++ t2).
Proof.
  intros H1 H2 b n Hb Hn. rewrite length_app, Nat2Z.inj_add, <- Z.add_assoc in Hb.
  eapply post_bind; [apply H1; [exact Hb|lia]|]. intros b1 Hb1. by apply H2.
Qed.

Lemma fits_comma (c : bool) :
  fits (fun b => if c then tamga_buf_append_byte b 44 else ret b) (if c then [44] else []).
Proof. destruct c; [apply fits_byte|apply fits_ret]. Qed.

Lemma fits_escape l : fits (escape_loop l) (escape l).
Proof.
  induction l as [|c l IH]; [apply fits_ret|]. exact (fits_bind _ _ _ _ (fits_append (escape_char c)) IH).
Qed.

Lemma fits_quoted l : fits (tamga_json_write_escaped l) (quoted l).
Proof. exact (fits_bind _ _ _ _ (fits_byte 34) (fits_bind _ _ _ _ (fits_escape l) (fits_byte 34))). Qed.

Lemma fits_chunks l : fits (append_chunks l) (concat l).
Proof. induction l as [|c l IH]; [apply fits_ret|]. exact (fits_bind _ _ _ _ (fits_append c) IH). Qed.

Lemma fits_double_form digits kk : fits (append_double digits kk) (concat (double_chunks digits kk)).
Proof.
  unfold append_double. destruct (_ || _) eqn:E; [apply fits_chunks|].
  apply orb_false_iff in E as [E1 E2]. unfold double_chunks. rewrite E1, E2.
  rewrite app_comm_cons, removelast_last, concat_app. cbn [concat]. rewrite app_nil_r.
  apply fits_bind; [apply fits_chunks|apply fits_fmt].
Qed.

Lemma fits_double r : fits (tamga_json_write_double r) (default (bstr "null") (double_text r)).
Proof.
  unfold tamga_json_write_double, double_text.
  destruct (negb _); [apply fits_append|].
  destruct (find_precision 18 0 r) as [scratch|]; cbn [mbind option_bind]; [|apply fits_append].
  destruct (match scratch with [] => _ | _ => _ end) as [negative cursor].
  destruct (collect_digits cursor []) as [[digits cursor']|]; cbn [mbind option_bind]; [|apply fits_append].
  destruct (_ =? 0)%nat; [apply fits_append|]. cbn [default].
  apply fits_bind; [|apply fits_double_form]. destruct negative; [apply fits_byte|apply fits_ret].
Qed.

Lemma fits_items ws ts i : Forall2 fits ws ts -> fits (write_items ws i) (join_from i ts).
Proof.
  intros H. revert i. induction H as [|w t ws ts Hw _ IH]; intros i; [destruct i; apply fits_ret|].
  rewrite join_from_cons. apply fits_bind; [apply fits_comma|]. by apply fits_bind.
Qed.

Lemma fits_members (ms : list (bytes * (TamgaBuf -> M TamgaBuf))) (ts : list (bytes * bytes)) order i :
  Forall2 (fun m t => m.1 = t.1 /\ fits m.2 t.2) ms ts ->
  Forall (fun k => k < length ms)%nat order ->
  fits (fun b => write_members ms order i b)
       (join_from i (map member_text (omap (fun k => ts !! k) order))).
Proof.
  intros Hms Hall. revert i. induction Hall as [|k order Hlt _ IH]; intros i; [destruct i; apply fits_ret|].
  cbn [write_members omap list_omap]. destruct (lookup_lt_is_Some_2 ms k Hlt) as [[key w] Hk]. rewrite Hk.
  destruct (Forall2_lookup_l _ _ _ _ _ Hms Hk) as ([key' t] & Ht & [Heq Hw]). cbn in Heq, Hw. subst key'.
  rewrite Ht. cbn [map]. rewrite join_from_cons. apply fits_bind; [apply fits_comma|].
  unfold member_text. cbn [fst snd]. rewrite <- app_assoc. apply fits_bind; [apply fits_quoted|].
  exact (fits_bind _ _ [58] _ (fits_byte 58) (fits_bind _ _ _ _ Hw (IH (S i)))).
Qed.

Lemma calloc_ok count :
  8 <= limit -> 0 <= count -> 8 * count <= limit ->
  post (tamga_calloc count sizeof_size_t) (fun ok => ok = true).
Proof.
  intros H8 Hc Hl. unfold tamga_calloc, sizeof_size_t.
  rewrite (proj2 (checked_mul_Some count 8 (count * 8) ltac:(lia) ltac:(lia))) by lia.
  dif; apply (post_c_malloc_ok (limit := limit)); (lia || done).
Qed.

Lemma fits_object ms ts canonical :
  Forall2 (fun m t => m.1 = t.1 /\ fits m.2 t.2) ms ts -> 8 * zlen ms <= limit ->
  fits (fun b => tamga_json_write_object ms b canonical)
       (123 :: comma_join (map member_text (arrange canonical ts)) ++ [125]).
Proof.
  intros Hms Hsize. unfold tamga_json_write_object. apply (fits_bind _ _ [123]); [apply fits_byte|].
  assert (ms.*1 = ts.*1) as Hkeys.
  { clear Hsize. induction Hms as [|[k w] [k' t] ms ts [? _] _ IH]; [done|]. csimpl. by f_equal. }
  pose proof (Forall2_length _ _ _ Hms) as Hlen.
  intros b n Hb Hn. eapply post_bind with (P := fun o => exists order, o = Some order /\
    omap (fun k => ts !! k) order = arrange canonical ts /\ Forall (fun k => k < length ms)%nat order).
  { destruct (canonical && (1 <? length ms)%nat) eqn:E.
    - unfold tamga_json_sort_keys. rewrite length_fmap.
      eapply post_bind; [apply calloc_ok; lia|]. intros ? ->.
      eapply post_bind; [apply calloc_ok; lia|]. intros ? ->. apply post_ret. eexists. split; [done|].
      rewrite <- (length_fmap fst ms), Hkeys. split.
      + unfold arrange. by rewrite <- Hlen, E.
      + rewrite (proj1 (sort_order_spec ts.*1)). apply Forall_forall. intros k. rewrite elem_of_seq. lia.
    - apply post_ret. eexists. split; [done|]. split.
      + unfold arrange. rewrite <- Hlen, E, Hlen. apply omap_lookup_seq.
      + apply Forall_forall. intros k. rewrite elem_of_seq. lia. }
  intros ? (order & -> & Ho & Hrange). rewrite <- Ho in Hb. revert b n Hb Hn.
  apply (fits_bind _ _ _ [125]); [by apply (fits_members _ _ _ 0)|apply fits_byte].
Qed.

(** Every object of the tree has few enough members for its order arrays. *)
#[warnings="-register-all"]
Inductive json_small : json -> Prop :=
| small_leaf j : match j with JArray _ | JObject _ => False | _ => True end -> json_small j
| small_array items : Forall json_small items -> json_small (JArray items)
| small_object ms : 8 * zlen ms <= limit -> Forall (fun m => json_small m.2) ms -> json_small (JObject ms).

Lemma write_value_fits canonical j :
  json_small j -> fits (tamga_json_write_value j canonical) (print canonical j).
Proof.
  induction j as [|b|z|r|s|items IH|ms IH] using json_induction; intros Hsm;
    cbn [tamga_json_write_value print].
  - apply fits_append.
  - apply fits_append.
  - apply fits_fmt.
  - apply fits_double.
  - apply fits_quoted.
  - inversion Hsm as [? Hf|? Hall|]; subst; [done|]. apply (fits_bind _ _ [91]); [apply fits_byte|].
    apply fits_bind; [|apply fits_byte].
    apply (fits_items _ _ 0). apply Forall2_fmap, Forall_Forall2_diag.
    eapply Forall_impl; [apply Forall_and; exact (conj IH Hall)|]. intros x [H1 H2]. auto.
  - inversion Hsm as [? Hf| |? Hsize Hall]; subst; [done|]. apply fits_object; [|by rewrite length_map].
    apply Forall2_fmap, Forall_Forall2_diag.
    eapply Forall_impl; [apply Forall_and; exact (conj IH Hall)|]. intros m [H1 H2]. cbn. auto.
Qed.
End Fits.
