(* ===== verification/JsonDouble.v ===== *)
(** * Numbers survive the serializer

    The decimal text of an integer or of a double denotes, as a JSON number
    literal, the same node: [tamga_json_write_double] of
    [src/src/util/json_write.c] against the number grammar. *)

From Stdlib Require Import String SpecFloat.
From S2P Require Import Prelude World Buf Float Json JsonParse JsonNumber JsonWrite KeySort JsonPrint.
#[local] Open Scope Z_scope.

(** ** Decimal digits *)

Lemma dec_digits_app fuel n acc : dec_digits fuel n acc = dec_digits fuel n [] ++ acc.
Proof.
  revert n acc. induction fuel as [|f IH]; intros n acc; [done|]. cbn [dec_digits].
  destruct (n <? 10); [done|]. rewrite IH, (IH _ [_]), <- app_assoc. done.
Qed.

Lemma is_dec_digit n : is_dec (48 + n mod 10) = true.
Proof. unfold is_dec. zdm. Qed.

Lemma dec_digits_spec fuel n :
  0 <= n < 10 ^ Z.of_nat fuel -> (1 <= fuel)%nat ->
  digits (dec_digits fuel n []) /\ digits_val 0 (dec_digits fuel n []) = n /\
  (0 < n -> peek_at (dec_digits fuel n []) <> 48) /\ (n = 0 -> dec_digits fuel n [] = [48]).
Proof.
  revert n. induction fuel as [|f IH]; intros n Hn Hf; [lia|].
  cbn [dec_digits]. destruct (Z.ltb_spec n 10).
  - split_and!.
    + split; [done|]. simpl. by rewrite is_dec_digit.
    + cbn. rewrite Z.mod_small by lia. lia.
    + cbn. rewrite Z.mod_small by lia. lia.
    + by intros ->.
  - rewrite Nat2Z.inj_succ, Z.pow_succ_r in Hn by lia.
    assert (1 <= f)%nat as Hf1. { destruct f; [simpl in Hn; lia|lia]. }
    rewrite dec_digits_app. destruct (IH (n / 10)) as ([Hne Hall] & Hval & Hhead & _); [zdm|done|].
    split_and!.
    + split; [intros E; by apply app_eq_nil in E as [? _]|]. rewrite forallb_app, Hall. simpl. by rewrite is_dec_digit.
    + rewrite digits_val_app, Hval. cbn. zdm.
    + intros _. rewrite peek_app_ne by done. apply Hhead. zdm.
    + lia.
Qed.

Lemma fmt_nat_spec n :
  0 <= n ->
  digits (fmt_nat n) /\ digits_val 0 (fmt_nat n) = n /\ (0 < n -> peek_at (fmt_nat n) <> 48) /\
  (n = 0 -> fmt_nat n = [48]).
Proof.
  intros Hn. apply dec_digits_spec; [|lia]. split; [done|].
  pose proof (Z.log2_nonneg n). rewrite Nat2Z.inj_succ, Z2Nat.id by done.
  destruct (Z.eq_dec n 0) as [->|]; [done|].
  apply Z.lt_le_trans with (2 ^ Z.succ (Z.log2 n)); [apply Z.log2_spec; lia|].
  apply Z.pow_le_mono_l. lia.
Qed.

Lemma digits_val_bound l : forallb is_dec l = true -> 0 <= digits_val 0 l < 10 ^ zlen l.
Proof.
  induction l as [|c l IH] using rev_ind; [done|]. rewrite forallb_app, andb_true_iff. intros [Hl Hc].
  simpl in Hc. apply andb_true_iff in Hc as [Hc _]. apply is_dec_range in Hc. specialize (IH Hl).
  rewrite digits_val_app, length_app, Nat2Z.inj_add, Z.pow_add_r by lia. cbn. lia.
Qed.

Lemma dec_digits_length fuel n k :
  0 <= n < 10 ^ Z.of_nat k -> (1 <= k)%nat -> (length (dec_digits fuel n []) <= k)%nat.
Proof.
  revert n k. induction fuel as [|f IH]; intros n k Hn Hk; [simpl; lia|]. cbn [dec_digits].
  destruct (Z.ltb_spec n 10); [simpl; lia|]. rewrite dec_digits_app, length_app. cbn [length].
  destruct k as [|k]; [lia|]. rewrite Nat2Z.inj_succ, Z.pow_succ_r in Hn by lia.
  assert (1 <= k)%nat by (destruct k; [simpl in Hn; lia|lia]).
  specialize (IH (n / 10) k ltac:(zdm) ltac:(done)). lia.
Qed.

(** ** Integers *)

Definition int_num (z : Z) : num := mk_num (z <? 0) (fmt_nat (Z.abs z)) None None.

Lemma fmt_dec_num z : fmt_dec z = num_text (int_num z).
Proof.
  unfold fmt_dec, int_num, num_text. cbn. rewrite !app_nil_r.
  destruct (Z.ltb_spec z 0); cbn; [by replace (Z.abs z) with (- z) by lia|by replace (Z.abs z) with z by lia].
Qed.

Lemma int_num_ok z : num_ok (int_num z).
Proof.
  destruct (fmt_nat_spec (Z.abs z)) as (Hd & _ & Hpos & Hz); [lia|].
  split_and!; try done. cbn. destruct (Z.eq_dec z 0) as [->|]; [by left|right; apply Hpos; lia].
Qed.

Lemma int_num_json z : INT64_MIN <= z <= INT64_MAX -> num_json (int_num z) = JInt z.
Proof.
  intros Hz. unfold num_json. destruct (fmt_nat_spec (Z.abs z)) as (_ & Hv & _ & _); [lia|].
  assert (num_int (int_num z) = z) as ->.
  { unfold num_int, int_num. cbn [n_neg n_int]. rewrite Hv. destruct (Z.ltb_spec z 0); lia. }
  by replace (_ && _ && _) with true by (cbn; lia).
Qed.

Lemma fmt_dec_length z : INT64_MIN <= z <= INT64_MAX -> zlen (fmt_dec z) <= 20.
Proof.
  intros Hz. assert (length (fmt_nat (Z.abs z)) <= 19)%nat.
  { apply dec_digits_length; [|lia]. unfold INT64_MIN, INT64_MAX in Hz. split; [lia|].
    change (10 ^ Z.of_nat 19) with 10000000000000000000. lia. }
  rewrite fmt_dec_num. unfold num_text, int_num. cbn [n_neg n_int n_frac n_exp frac_text exp_text].
  rewrite !app_nil_r, length_app. destruct (z <? 0); cbn [sign_text length]; lia.
Qed.

(** ** Scaling a decimal does not change the double *)

Lemma strip10_spec fuel m e :
  0 < m < 10 ^ Z.of_nat fuel ->
  exists m' j, strip10 fuel m e = (m', e + j) /\ 0 <= j /\ m = m' * 10 ^ j /\ m' mod 10 <> 0.
Proof.
  revert m e. induction fuel as [|f IH]; intros m e Hm; [simpl in Hm; lia|]. cbn [strip10].
  rewrite (proj2 (Z.eqb_neq m 0)) by lia. destruct (Z.eqb_spec (m mod 10) 0) as [E|E].
  - rewrite Nat2Z.inj_succ, Z.pow_succ_r in Hm by lia.
    destruct (IH (m / 10) (e + 1)) as (m' & j & -> & Hj & Hm' & Hne); [zdm|].
    exists m', (1 + j). split_and!; [f_equal; lia|lia| |done].
    rewrite Z.pow_add_r by lia. assert (m = 10 * (m / 10)) by zdm. rewrite Hm' in H. lia.
  - exists m, 0. split_and!; [f_equal; lia|lia|lia|done].
Qed.

Lemma decimal_form_unique m1 j1 m2 j2 :
  m1 mod 10 <> 0 -> m2 mod 10 <> 0 -> 0 <= j1 -> 0 <= j2 -> m1 * 10 ^ j1 = m2 * 10 ^ j2 -> m1 = m2 /\ j1 = j2.
Proof.
  intros H1 H2 Hj1 Hj2. revert j2 Hj2. pattern j1. apply natlike_ind; [| |exact Hj1].
  - intros j2 Hj2 E. rewrite Z.mul_1_r in E. destruct (Z.eq_dec j2 0) as [->|]; [lia|].
    destruct H1. rewrite E. replace j2 with (1 + (j2 - 1)) by lia. rewrite Z.pow_add_r by lia.
    apply Z.mod_divide; [lia|]. exists (m2 * 10 ^ (j2 - 1)). lia.
  - intros j Hj IH j2 Hj2 E. destruct (Z.eq_dec j2 0) as [->|].
    + destruct H2. rewrite Z.mul_1_r in E. rewrite <- E, Z.pow_succ_r by lia.
      apply Z.mod_divide; [lia|]. exists (m1 * 10 ^ j). lia.
    + destruct (IH (j2 - 1)) as [-> Heq]; [lia| |lia].
      replace j2 with (Z.succ (j2 - 1)) in E by lia. rewrite !Z.pow_succ_r in E by lia. lia.
Qed.

Lemma dec_normal_spec m e :
  0 < m -> exists m' j, dec_normal m e = (m', e + j) /\ 0 <= j /\ m = m' * 10 ^ j /\ m' mod 10 <> 0.
Proof.
  intros Hm. apply strip10_spec. split; [done|].
  pose proof (Z.log2_nonneg m). rewrite Nat2Z.inj_succ, Z2Nat.id by lia.
  apply Z.lt_le_trans with (2 ^ Z.succ (Z.log2 m)); [apply Z.log2_spec; lia|].
  transitivity (10 ^ Z.succ (Z.log2 m)); [apply Z.pow_le_mono_l; lia|apply Z.pow_le_mono_r; lia].
Qed.

Lemma dec_normal_scale m e k : 0 <= m -> 0 <= k -> dec_normal (m * 10 ^ k) e = dec_normal m (e + k).
Proof.
  intros Hm Hk. destruct (Z.eq_dec m 0) as [->|].
  { rewrite Z.mul_0_l. unfold dec_normal. done. }
  assert (0 < 10 ^ k) by (apply Z.pow_pos_nonneg; lia).
  destruct (dec_normal_spec (m * 10 ^ k) e) as (m1 & j1 & -> & Hj1 & E1 & Hn1); [nia|].
  destruct (dec_normal_spec m (e + k)) as (m2 & j2 & -> & Hj2 & E2 & Hn2); [lia|].
  rewrite E2 in E1. rewrite <- Z.mul_assoc, <- Z.pow_add_r in E1 by lia.
  apply decimal_form_unique in E1 as [-> <-]; [|done|done|lia|lia]. f_equal. lia.
Qed.

Lemma sf_of_decimal_scale s m e k :
  0 <= m -> 0 <= k -> sf_of_decimal s (m * 10 ^ k) e = sf_of_decimal s m (e + k).
Proof. intros. unfold sf_of_decimal. by rewrite dec_normal_scale. Qed.

(** ** The text [%e] writes and what is read back from it *)

(** The shape of [fmt_e_text]: a sign, a digit, maybe a point and digits, and
    an exponent. *)
Record sci := mk_sci { sc_neg : bool; sc_lead : Z; sc_point : bool; sc_frac : bytes; sc_exp : Z }.

Definition sci_exp_text (x : Z) : bytes :=
  (if x <? 0 then 45 else 43) ::
  (if zlen (fmt_nat (Z.abs x)) <? 2 then 48 :: fmt_nat (Z.abs x) else fmt_nat (Z.abs x)).

Definition sci_text (t : sci) : bytes :=
  sign_text (sc_neg t) ++ [sc_lead t] ++ (if sc_point t then 46 :: sc_frac t else []) ++
  101 :: sci_exp_text (sc_exp t).

Definition sci_digits_of (t : sci) : bytes := sc_lead t :: sc_frac t.

Definition sci_ok (t : sci) : Prop :=
  digits (sci_digits_of t) /\ (sc_point t = false -> sc_frac t = []).

Lemma sci_exp_digits x :
  exists s ds, sci_exp_text x = s :: ds /\ digits ds /\ (s = 45 \/ s = 43) /\
    (if s =? 45 then - digits_val 0 ds else digits_val 0 ds) = x.
Proof.
  destruct (fmt_nat_spec (Z.abs x)) as ([Hne Hall] & Hv & _ & _); [lia|]. unfold sci_exp_text.
  exists (if x <? 0 then 45 else 43). eexists. split; [done|]. split_and!.
  - dif; split; (done || simpl; by rewrite Hall).
  - dif; lia.
  - assert (digits_val 0 (if zlen (fmt_nat (Z.abs x)) <? 2 then 48 :: fmt_nat (Z.abs x) else fmt_nat (Z.abs x)) = Z.abs x) as ->.
    { dif; [|done]. unfold digits_val in *. simpl. exact Hv. }
    destruct (Z.ltb_spec x 0); cbn; lia.
Qed.

Lemma read_exponent_sci x : read_exponent (101 :: sci_exp_text x) = (x, []).
Proof.
  destruct (sci_exp_digits x) as (s & ds & -> & [Hne Hall] & Hs & Hv).
  pose proof (read_digits_run ds [] 0 0 Hall eq_refl) as Hr. rewrite app_nil_r in Hr. cbn [Nat.add] in Hr.
  unfold read_exponent. cbn [Z.eqb Pos.eqb orb].
  destruct Hs as [-> | ->]; cbn [Z.eqb Pos.eqb] in Hv |- *; rewrite Hr; (destruct ds; [done|]); cbn [length Nat.eqb]; by rewrite Hv.
Qed.

Lemma strtol_sci x : strtol (sci_exp_text x) = x.
Proof.
  destruct (sci_exp_digits x) as (s & ds & -> & [Hne Hall] & Hs & Hv).
  pose proof (read_digits_run ds [] 0 0 Hall eq_refl) as Hr. rewrite app_nil_r in Hr.
  unfold strtol. destruct Hs as [-> | ->]; cbn [Z.eqb Pos.eqb] in Hv |- *; by rewrite Hr.
Qed.

Lemma strtod_sci t :
  sci_ok t ->
  (strtod (sci_text t)).1 =
  sf_of_decimal (sc_neg t) (digits_val 0 (sci_digits_of t)) (sc_exp t - zlen (sc_frac t)).
Proof.
  intros [[_ Hall] Hpt]. unfold sci_digits_of in *. simpl in Hall. apply andb_true_iff in Hall as [Hd Hfr].
  unfold strtod, sci_text.
  assert (digits [sc_lead t]) as Hlead by (split; [done|simpl; by rewrite Hd]).
  rewrite (split_sign (sc_neg t) [sc_lead t]) by done.
  rewrite (read_digits_run [sc_lead t]); [|apply Hlead|by destruct (sc_point t)].
  destruct (sc_point t).
  - cbn [app]. cbn [Z.eqb Pos.eqb]. rewrite (read_digits_run (sc_frac t)) by done.
    rewrite read_exponent_sci. cbn [length Nat.add Nat.eqb fst]. f_equal.
  - rewrite Hpt by done. cbn [app Z.eqb Pos.eqb length Nat.add Nat.eqb]. by rewrite read_exponent_sci.
Qed.

Lemma collect_digits_sci ds acc l :
  forallb is_dec ds = true -> (match l with [] => False | c :: _ => c = 101 end) ->
  forall A r, collect_digits (ds ++ l) acc = Some (A, r) -> A = acc ++ ds /\ r = l /\ zlen acc + zlen ds <= Z.max 32 (zlen acc).
Proof.
  intros Hds Hl. revert acc. induction ds as [|c ds IH]; intros acc A r; simpl in Hds |- *.
  - destruct l as [|c l]; [done|]. subst c. simpl. intros [= <- <-]. rewrite app_nil_r. split_and!; [done..|lia].
  - apply andb_true_iff in Hds as [Hc Hds]. apply is_dec_range in Hc.
    replace (_ || _) with false by lia. replace (c =? 46) with false by lia.
    destruct (Z.geb_spec (zlen acc) 32); [done|]. intros E. apply IH in E as (-> & -> & Hlen); [|done].
    rewrite <- app_assoc. split_and!; [done..|]. rewrite length_app in Hlen. simpl in Hlen |- *. lia.
Qed.

Lemma collect_sci t A r :
  sci_ok t -> collect_digits (drop (length (sign_text (sc_neg t))) (sci_text t)) [] = Some (A, r) ->
  A = sci_digits_of t /\ r = 101 :: sci_exp_text (sc_exp t) /\ zlen A <= 32.
Proof.
  intros [[_ Hall] Hpt]. unfold sci_digits_of in *. simpl in Hall. apply andb_true_iff in Hall as [Hd Hfr].
  unfold sci_text. rewrite drop_app_length. cbn [app collect_digits].
  apply is_dec_range in Hd. replace (_ || _) with false by lia. replace (sc_lead t =? 46) with false by lia.
  cbn [length Z.of_nat Z.geb Z.compare app].
  destruct (sc_point t).
  - cbn [app collect_digits Z.eqb Pos.eqb orb]. intros E.
    apply collect_digits_sci in E as (-> & -> & Hlen); [|done|done]. split_and!; [done..|]. simpl in Hlen |- *. lia.
  - rewrite Hpt by done. cbn. intros [= <- <-]. split_and!; [done..|]. simpl. lia.
Qed.

(** ** From the digits to a literal *)

Lemma strip_zeros_spec fuel ds :
  digits ds -> (length ds <= fuel)%nat ->
  exists z, ds = strip_zeros fuel ds ++ replicate z 48 /\ digits (strip_zeros fuel ds) /\
            (forallb (Z.eqb 48) ds = true -> strip_zeros fuel ds = [48]).
Proof.
  revert ds. induction fuel as [|f IH]; intros ds Hd Hf.
  { destruct Hd as [Hne _]. destruct ds; [done|]. simpl in Hf. lia. }
  cbn [strip_zeros]. destruct (_ && _) eqn:E.
  - apply andb_true_iff in E as [E1 E2]. apply Nat.ltb_lt in E1. apply Z.eqb_eq in E2.
    destruct Hd as [Hne Hall]. pose proof (app_removelast_last 0 Hne) as Hsplit. rewrite E2 in Hsplit.
    set (r := removelast ds) in *.
    assert (length ds = S (length r)) as Hlen by (rewrite Hsplit, length_app; simpl; lia).
    assert (digits r) as Hr.
    { split; [intros ->; simpl in Hlen; lia|]. rewrite Hsplit, forallb_app in Hall. by apply andb_true_iff in Hall as [? _]. }
    destruct (IH r Hr) as (z & Hz & Hok & Hzero); [lia|]. exists (S z). split_and!.
    + rewrite replicate_S_end, app_assoc, <- Hz. done.
    + done.
    + intros Hall0. apply Hzero. rewrite Hsplit, forallb_app in Hall0. by apply andb_true_iff in Hall0 as [? _].
  - exists O. rewrite app_nil_r. split_and!; [done..|]. intros Hall0.
    destruct Hd as [Hne _]. destruct ds as [|c [|c' ds]]; [done| |].
    + cbn [forallb] in Hall0. f_equal. lia.
    + exfalso. apply andb_false_iff in E as [E|E]; [done|].
      destruct (exists_last (l := c :: c' :: ds)) as (r & x & Hrx); [done|]. rewrite Hrx in *.
      rewrite last_last in E. rewrite forallb_app in Hall0.
      apply andb_true_iff in Hall0 as [_ Hall0]. cbn [forallb] in Hall0. lia.
Qed.

Lemma digits_val_zeros a z : digits_val a (replicate z 48) = a * 10 ^ Z.of_nat z.
Proof.
  revert a. induction z as [|z IH]; intros a; [simpl; lia|]. cbn [replicate]. unfold digits_val in *. simpl.
  rewrite IH. rewrite Nat2Z.inj_succ, Z.pow_succ_r by lia. lia.
Qed.

Lemma digits_app_l a b : digits a -> forallb is_dec b = true -> digits (a ++ b).
Proof.
  intros [Hne Ha] Hb. split; [destruct a; done|]. by rewrite forallb_app, Ha.
Qed.

Lemma forallb_replicate z : forallb is_dec (replicate z 48) = true.
Proof. by induction z. Qed.

Lemma concat_replicate z : concat (replicate z [48]) = replicate z 48.
Proof. induction z as [|z IH]; [done|]. simpl. by rewrite IH. Qed.

Lemma fmt_plus_d_parts n :
  exists s, fmt_plus_d n = s :: fmt_nat (Z.abs n) /\ (s = 43 \/ s = 45) /\
    (match s with 45 => - digits_val 0 (fmt_nat (Z.abs n)) | _ => digits_val 0 (fmt_nat (Z.abs n)) end) = n.
Proof.
  destruct (fmt_nat_spec (Z.abs n)) as (_ & Hv & _ & _); [lia|]. unfold fmt_plus_d. eexists. split; [done|].
  rewrite Hv. destruct (Z.ltb_spec n 0); split; lia.
Qed.

Lemma double_chunks_num neg ds kk :
  digits ds -> (ds = [48] -> kk = 1) -> (ds <> [48] -> peek_at ds <> 48) ->
  zlen ds <= 32 -> zlen (fmt_nat (Z.abs (kk - 1))) < 64 ->
  exists k, num_ok k /\ num_text k = sign_text neg ++ concat (double_chunks ds kk) /\
    num_is_integer k = false /\ zlen (num_text k) <= TAMGA_JSON_MAX_NUMBER_CHARS /\
    num_real k = sf_of_decimal neg (digits_val 0 ds) (kk - zlen ds).
Proof.
  intros Hd H48 Hhead Hlen Hxlen. pose proof Hd as [Hne Hall].
  pose proof (digits_val_bound ds Hall) as [Hv _].
  assert (length (sign_text neg) <= 1)%nat as Hsign by (destruct neg; simpl; lia).
  unfold TAMGA_JSON_MAX_NUMBER_CHARS. unfold double_chunks. destruct (_ && _) eqn:E1; [|destruct (_ && _) eqn:E2 in |- *].
  - destruct (Z.geb_spec kk (zlen ds)) as [Hk|Hk].
    + set (z := Z.to_nat (kk - zlen ds)).
      exists (mk_num neg (ds ++ replicate z 48) (Some [48]) None). unfold num_ok; split_and!; try done; cbn [n_int n_frac n_exp n_neg].
      * apply digits_app_l; [done|apply forallb_replicate].
      * destruct (decide (ds = [48])) as [->|Hnz].
        { pose proof (H48 eq_refl). subst kk. by left. }
        right. rewrite peek_app_ne by done. auto.
      * unfold num_text. cbn [n_neg n_int n_frac n_exp frac_text exp_text concat app]. rewrite concat_app, concat_replicate, <- !app_assoc. done.
      * unfold num_text. cbn [n_neg n_int n_frac n_exp frac_text exp_text]. rewrite !length_app, length_replicate. cbn [length]. lia.
      * unfold num_real. cbn [n_neg n_int n_frac n_exp exp_val from_option id]. rewrite <- app_assoc, digits_val_app.
        change [48] with (replicate 1 48). rewrite <- replicate_add, digits_val_zeros, sf_of_decimal_scale by lia.
        f_equal. rewrite length_replicate. lia.
    + destruct (decide (ds = [48])) as [->|Hnz]; [simpl in *; lia|].
      assert (1 <= Z.to_nat kk < length ds)%nat as Hkr by lia.
      rewrite <- (take_drop (Z.to_nat kk) ds), forallb_app in Hall. apply andb_true_iff in Hall as [Ht Hdr].
      exists (mk_num neg (take (Z.to_nat kk) ds) (Some (drop (Z.to_nat kk) ds)) None).
      unfold num_ok; split_and!; try done; cbn [n_int n_frac n_exp n_neg].
      * split; [|done]. intros E. apply (f_equal length) in E. rewrite length_take in E. simpl in E. lia.
      * right. destruct ds as [|c ds]; [done|]. destruct (Z.to_nat kk); [lia|]. by apply Hhead.
      * split; [|done]. intros E. apply (f_equal length) in E. rewrite length_drop in E. simpl in E. lia.
      * unfold num_text. cbn [n_neg n_int n_frac n_exp frac_text exp_text]. rewrite !length_app. cbn [length].
        rewrite length_take, length_drop. lia.
      * unfold num_real. cbn [n_neg n_int n_frac n_exp exp_val from_option id]. rewrite take_drop, length_drop. f_equal. lia.
  - exists (mk_num neg [48] (Some (replicate (Z.to_nat (- kk)) 48 ++ ds)) None).
    unfold num_ok; split_and!; try done; cbn [n_int n_frac n_exp n_neg].
    + by left.
    + split; [|by rewrite forallb_app, forallb_replicate]. intros E. apply app_eq_nil in E as [_ ?]. done.
    + unfold num_text. cbn [n_neg n_int n_frac n_exp frac_text exp_text concat app]. rewrite concat_app, concat_replicate. cbn [concat]. by rewrite !app_nil_r.
    + unfold num_text. cbn [n_neg n_int n_frac n_exp frac_text exp_text]. rewrite !length_app. cbn [length].
      rewrite length_app, length_replicate. lia.
    + unfold num_real. cbn [n_neg n_int n_frac n_exp exp_val from_option id].
      rewrite digits_val_app. change (digits_val 0 [48]) with 0. rewrite digits_val_app, digits_val_zeros, Z.mul_0_l.
      f_equal. rewrite length_app, length_replicate. lia.
  - destruct ds as [|c ds]; [done|]. destruct (fmt_plus_d_parts (kk - 1)) as (s & Hs & Hs2 & Hsv).
    destruct (fmt_nat_spec (Z.abs (kk - 1))) as (Hxd & _ & _ & _); [lia|].
    simpl in Hall. apply andb_true_iff in Hall as [Hc Hds].
    exists (mk_num neg [c] (if zlen (c :: ds) >? 1 then Some ds else None) (Some (101, Some s, fmt_nat (Z.abs (kk - 1))))).
    assert ((zlen (c :: ds) >? 1) = false -> ds = []) as Hnil by (destruct ds; [done|simpl; lia]).
    unfold num_ok; split_and!; cbn [n_int n_frac n_exp n_neg].
    + split; [done|]. simpl. by rewrite Hc.
    + destruct (Z.eq_dec c 48) as [->|]; [by left|by right].
    + destruct (_ >? 1) eqn:E; [|done]. split; [|done]. intros ->. done.
    + split_and!; [by left|done|apply Hxd..].
    + unfold num_text. cbn [n_neg n_int n_frac n_exp exp_text take drop]. rewrite drop_0, Hs. f_equal.
      destruct (_ >? 1) eqn:E; cbn [frac_text concat app]; rewrite ?app_nil_r, ?concat_app; cbn [concat app]; by rewrite ?app_nil_r.
    + unfold num_is_integer. by destruct (_ >? 1).
    + unfold num_text. cbn [n_neg n_int n_frac n_exp exp_text]. rewrite !length_app. cbn [length app].
      destruct (_ >? 1); cbn [frac_text length] in *; lia.
    + unfold num_real. cbn [n_neg n_int n_frac n_exp exp_val from_option id].
      replace (match s with 45 => _ | _ => _ end) with (kk - 1).
      destruct (_ >? 1) eqn:E; cbn [from_option id length]; [f_equal; lia|]. rewrite Hnil by done. simpl. f_equal. lia.
Qed.

(** ** The whole conversion *)

Definition sf_sign (r : spec_float) : bool :=
  match r with S754_zero s | S754_infinity s | S754_finite s _ _ => s | S754_nan => false end.

Lemma fmt_e_text_sci neg p ds x :
  0 <= ds -> exists t, sci_ok t /\ fmt_e_text neg p ds x = sci_text t /\ sc_neg t = neg /\ sc_exp t = x /\
    (ds = 0 -> forallb (Z.eqb 48) (sci_digits_of t) = true) /\ (ds <> 0 -> sc_lead t <> 48).
Proof.
  intros Hds. unfold fmt_e_text.
  set (dg := if ds =? 0 then replicate (Z.to_nat p + 1) 48 else fmt_nat ds).
  assert (digits dg /\ (ds = 0 -> forallb (Z.eqb 48) dg = true) /\ (ds <> 0 -> peek_at dg <> 48)) as ([Hne Hall] & Hz & Hnz).
  { subst dg. destruct (Z.eqb_spec ds 0) as [->|E].
    - rewrite Nat.add_comm. cbn [Nat.add replicate]. split_and!; try done.
      + split; [done|]. simpl. apply forallb_replicate.
      + intros _. simpl. by induction (Z.to_nat p).
    - destruct (fmt_nat_spec ds Hds) as (? & _ & Hh & _). split_and!; [done|done|]. intros _. apply Hh. lia. }
  clearbody dg. destruct dg as [|c dg]; [done|]. cbn [take drop]. rewrite drop_0.
  simpl in Hall. apply andb_true_iff in Hall as [Hc Hall].
  exists (mk_sci neg c (p >? 0) (if p >? 0 then dg else []) x). split_and!; try done; unfold sci_digits_of;
    cbn [sc_neg sc_lead sc_point sc_frac sc_exp].
  - split; [split; [done|]|intros Hp; cbn in *; by rewrite Hp].
    unfold sci_digits_of. cbn. rewrite Hc. by destruct (p >? 0).
  - unfold sci_text, sci_exp_text. cbn [sc_neg sc_lead sc_point sc_frac sc_exp]. by destruct (p >? 0).
  - intros H0. specialize (Hz H0). cbn [forallb] in *. apply andb_true_iff in Hz as [-> Hz]. by destruct (p >? 0).
Qed.

Lemma sci_digits_nonneg p n d : 0 < n -> 0 < d -> 0 <= (sci_digits p n d).1.
Proof.
  intros Hn Hd. assert (forall a b, 0 <= a -> 0 <= b -> 0 <= div_half_even a b) as Hdiv.
  { intros a b Ha Hb. unfold div_half_even.
    assert (0 <= a / b) by (destruct (Z.eq_dec b 0) as [->|]; [by rewrite Z.div_0_r|apply Z.div_pos; lia]).
    repeat dif; lia. }
  assert (forall k, 0 <= 10 ^ k) as Hpow by (intros; apply Z.pow_nonneg; lia).
  assert (forall sh, 0 <= (if sh >=? 0 then div_half_even (n * 10 ^ sh) d
                           else div_half_even n (d * 10 ^ (- sh)))) as Hs.
  { intros sh. dif; apply Hdiv; try (apply Z.mul_nonneg_nonneg; auto with lia); lia. }
  unfold sci_digits. cbv zeta. destruct (_ >=? 10 ^ (p + 1)); cbn [fst]; [apply Z.div_pos; [apply Hs|lia]|apply Hs].
Qed.

Lemma fmt_e_sci p r :
  sf_isfinite r = true -> exists t, sci_ok t /\ fmt_e p r = sci_text t /\ sc_neg t = sf_sign r /\
    ((forallb (Z.eqb 48) (sci_digits_of t) = true /\ (sf_zero = SFabs r -> sc_exp t = 0)) \/
     (sc_lead t <> 48 /\ sf_zero <> SFabs r)).
Proof.
  destruct r as [s|s| |s m e]; try done; intros _; cbn [fmt_e sf_sign].
  - destruct (fmt_e_text_sci s p 0 0) as (t & Hok & Ht & Hn & Hx & Hz & _); [lia|]. exists t.
    split_and!; try done. left. split; [by apply Hz|done].
  - set (nd := if e >=? 0 then _ else _). destruct nd as [n d] eqn:End.
    assert (0 < n /\ 0 < d) as [Hn Hd].
    { subst nd. destruct (Z.geb_spec e 0); simplify_eq; split; lia. }
    pose proof (sci_digits_nonneg p n d Hn Hd) as Hds. destruct (sci_digits p n d) as [ds x]. cbn in Hds.
    destruct (fmt_e_text_sci s p ds x Hds) as (t & Hok & Ht & Hn' & Hx & Hz & Hnz). exists t.
    split_and!; try done. destruct (Z.eq_dec ds 0); [left; split; [auto|done]|right; split; [auto|done]].
Qed.

Lemma find_precision_Some tries p r scratch :
  find_precision tries p r = Some scratch ->
  exists p', scratch = fmt_e p' r /\ zlen scratch < 64 /\ SFeqb (strtod scratch).1 r = true.
Proof.
  revert p. induction tries as [|k IH]; intros p; cbn [find_precision]; [done|].
  destruct (Z.geb_spec (zlen (fmt_e p r)) 64); [done|]. destruct (SFeqb (strtod (fmt_e p r)).1 r) eqn:E; [|apply IH].
  intros [= <-]. eauto.
Qed.

(** Equality of doubles is equality of data, zeros of either sign apart. *)
Lemma SFeqb_finite a r : SFeqb a r = true -> sf_zero <> SFabs r -> sf_isfinite r = true -> a = r.
Proof.
  unfold SFeqb, SFcompare.
  destruct r as [s|s| |s m e]; intros E Hz Hf; try done.
  destruct a as [s'|s'| |s' m' e']; try (destruct s; done); try (destruct s'; done).
  destruct s', s; try done; destruct (Z.compare_spec e' e); try done; subst;
    destruct (Pos.compare_cont Eq m' m) eqn:Hm; try done; apply Pos.compare_eq in Hm; by subst.
Qed.

Lemma digits_val_all_zero l : forallb (Z.eqb 48) l = true -> digits_val 0 l = 0.
Proof.
  induction l as [|c l IH]; [done|]. cbn [forallb]. intros [Hc Hl]%andb_true_iff. apply Z.eqb_eq in Hc. subst c.
  unfold digits_val in *. simpl. auto.
Qed.

Lemma scratch_split t :
  sci_ok t ->
  (match sci_text t with
   | c :: r => if c =? 45 then (true, r) else (false, sci_text t)
   | [] => (false, sci_text t)
   end) = (sc_neg t, drop (length (sign_text (sc_neg t))) (sci_text t)).
Proof.
  intros [[_ Hall] _]. unfold sci_digits_of in Hall. simpl in Hall. apply andb_true_iff in Hall as [Hc _].
  unfold sci_text. destruct (sc_neg t); cbn [sign_text app length drop]; [done|].
  apply is_dec_range in Hc. by replace (sc_lead t =? 45) with false by lia.
Qed.

Lemma digits_val_app_zeros l z : digits_val 0 (l ++ replicate z 48) = digits_val 0 l * 10 ^ Z.of_nat z.
Proof. by rewrite digits_val_app, digits_val_zeros. Qed.

(** The text written for a double denotes that double. *)
Lemma double_text_num r t :
  double_text r = Some t ->
  exists k, num_ok k /\ num_text k = t /\ num_json k = JReal r /\
            zlen (num_text k) <= TAMGA_JSON_MAX_NUMBER_CHARS.
Proof.
  unfold double_text. destruct (sf_isfinite r) eqn:Hfin; cbn [negb]; [|done].
  destruct (find_precision 18 0 r) as [scratch|] eqn:Hp; cbn [mbind option_bind]; [|done].
  apply find_precision_Some in Hp as (p & -> & Hlen & Heq).
  destruct (fmt_e_sci p r Hfin) as (c & Hok & Ht & Hneg & Hcase). rewrite Ht in *.
  rewrite scratch_split by done. destruct (collect_digits _ []) as [[A cur]|] eqn:Hc; cbn [mbind option_bind]; [|done].
  apply collect_sci in Hc as (-> & -> & HA); [|done]. cbn [Z.eqb Pos.eqb orb].
  rewrite strtol_sci. rewrite strtod_sci in Heq by done.
  destruct (_ =? 0)%nat; [done|]. intros Hs. apply (inj Some) in Hs. subst t.
  pose proof Hok as [Hd _]. destruct (strip_zeros_spec (length (sci_digits_of c)) (sci_digits_of c) Hd ltac:(done))
    as (z & Hz & Hsd & Hall).
  set (ds := strip_zeros _ _) in *. clearbody ds.
  assert (peek_at ds = sc_lead c) as Hpk.
  { destruct Hsd as [Hne _]. destruct ds; [done|]. by injection Hz. }
  assert (sf_of_decimal (sc_neg c) (digits_val 0 ds) (sc_exp c + 1 - zlen ds) = r) as Hval.
  { replace (sf_of_decimal (sc_neg c) (digits_val 0 ds) (sc_exp c + 1 - zlen ds))
      with (sf_of_decimal (sc_neg c) (digits_val 0 (sci_digits_of c)) (sc_exp c - zlen (sc_frac c))).
    - assert (sf_zero = SFabs r \/ sf_zero <> SFabs r) as [Hzr|Hzr] by (destruct r; auto; by right).
      2: by apply SFeqb_finite.
      destruct Hcase as [[H0 _]|[_ ?]]; [|done]. rewrite digits_val_all_zero by done. rewrite Hneg.
      destruct r as [s|s| |s m e]; try done.
    - rewrite Hz, digits_val_app_zeros, sf_of_decimal_scale by (try lia; apply digits_val_bound; apply Hsd).
      f_equal. apply (f_equal length) in Hz. rewrite length_app, length_replicate in Hz. simpl in Hz. lia. }
  destruct (double_chunks_num (sc_neg c) ds (sc_exp c + 1)) as (k & Hk & Hkt & Hki & Hkl & Hkr).
  - done.
  - intros ->. destruct Hcase as [[_ Hx]|[Hl _]]; [|by simpl in Hpk].
    rewrite Hx; [done|]. rewrite <- Hval. change (digits_val 0 [48]) with 0. by destruct (sc_neg c).
  - intros Hne. destruct Hcase as [[H0 _]|[Hl _]]; [|by rewrite Hpk]. by destruct Hne; apply Hall.
  - apply (f_equal length) in Hz. rewrite length_app in Hz. lia.
  - replace (sc_exp c + 1 - 1) with (sc_exp c) by lia. revert Hlen. unfold sci_text, sci_exp_text.
    rewrite !length_app. cbn [length]. destruct (_ <? 2); cbn [length]; lia.
  - exists k. split_and!; [done|exact Hkt| |done].
    unfold num_json. rewrite Hki. cbn [andb]. by rewrite Hkr, Hval.
Qed.
