(* ===== verification/Rounding.v ===== *)
(** * Rounding to binary64

    The conversions of [Float] round an exact quotient of two integers. A
    quotient that is closer to a double than one part in [2 * 10^16] of its
    size is rounded to that double: the fact behind "17 digits are enough" in
    [src/src/util/json_write.c]. *)

From Stdlib Require Import SpecFloat.
From S2P Require Import Prelude Float.
#[local] Open Scope Z_scope.

(** ** Bit lengths *)

Lemma digits2_log2 p : Zpos (digits2_pos p) = Z.log2 (Zpos p) + 1.
Proof.
  induction p as [p IH|p IH|]; [| |done]; cbn [digits2_pos]; rewrite Pos2Z.inj_succ, IH.
  - rewrite (Pos2Z.inj_xI p), Z.log2_succ_double by lia. lia.
  - rewrite (Pos2Z.inj_xO p), Z.log2_double by lia. lia.
Qed.

Lemma digits2_bounds z : 0 < z -> 2 ^ (Zdigits2 z - 1) <= z < 2 ^ Zdigits2 z.
Proof.
  intros Hz. destruct z as [|p|p]; try lia. cbn [Zdigits2]. rewrite digits2_log2.
  replace (Z.log2 (Zpos p) + 1 - 1) with (Z.log2 (Zpos p)) by lia. apply Z.log2_spec. lia.
Qed.

Lemma digits2_unique z k : 2 ^ (k - 1) <= z < 2 ^ k -> 1 <= k -> Zdigits2 z = k.
Proof.
  intros Hz Hk. assert (0 < 2 ^ (k - 1)) by (apply Z.pow_pos_nonneg; lia). pose proof (digits2_bounds z ltac:(lia)) as Hb.
  assert (0 <= Zdigits2 z) by (destruct z; cbn; lia).
  assert (k - 1 < Zdigits2 z) by (apply (Z.pow_lt_mono_r_iff 2); lia).
  assert (Zdigits2 z - 1 < k); [|lia]. apply (Z.pow_lt_mono_r_iff 2); lia.
Qed.

(** ** Records of shifted mantissas *)

(** [rep rec N D]: the record holds [N / D] down to half a unit, with a mark for
    what is below. *)
Definition rep (rec : shr_record) (N D : Z) : Prop :=
  exists q rem, 2 * N = D * q + rem /\ 0 <= rem < D /\ 0 <= q /\
    shr_m rec = q / 2 /\ shr_r rec = Z.odd q /\ shr_s rec = negb (rem =? 0).

Lemma shr_1_rep rec N D : rep rec N D -> rep (shr_1 rec) N (2 * D).
Proof.
  intros (q & rem & HN & Hrem & Hq & Hm & Hr & Hs). destruct rec as [m r s]. cbn [shr_m shr_r shr_s] in *. subst m r s.
  exists (q / 2), (Z.b2z (Z.odd q) * D + rem). pose proof (Z.div_mod q 2 ltac:(lia)) as Hdm. rewrite Zmod_odd in Hdm.
  assert (0 <= q / 2) as Hq2 by (apply Z.div_pos; lia).
  assert (Z.odd q || negb (rem =? 0) = negb (Z.b2z (Z.odd q) * D + rem =? 0)) as Hmark.
  { destruct (Z.odd q); cbn [Z.b2z orb]; destruct (Z.eqb_spec rem 0); symmetry; (apply negb_true_iff, Z.eqb_neq || apply negb_false_iff, Z.eqb_eq); lia. }
  assert (shr_m (shr_1 (Build_shr_record (q / 2) (Z.odd q) (negb (rem =? 0)))) = q / 2 / 2 /\
          shr_r (shr_1 (Build_shr_record (q / 2) (Z.odd q) (negb (rem =? 0)))) = Z.odd (q / 2) /\
          shr_s (shr_1 (Build_shr_record (q / 2) (Z.odd q) (negb (rem =? 0)))) = Z.odd q || negb (rem =? 0)) as (-> & -> & ->).
  { destruct (q / 2) as [|[p|p|]|p]; [done| | |done|lia]; cbn [shr_1 shr_m shr_r shr_s].
    - split_and!; [|done|done]. rewrite Pos2Z.inj_xI. zdm.
    - split_and!; [|done|done]. rewrite Pos2Z.inj_xO. zdm. }
  split_and!; try done; destruct (Z.odd q); cbn [Z.b2z] in *; lia.
Qed.

Lemma iter_rep p rec N D : rep rec N D -> rep (SpecFloat.iter_pos shr_1 p rec) N (2 ^ Zpos p * D).
Proof.
  revert rec D. induction p as [p IH|p IH|]; intros rec D H; cbn [SpecFloat.iter_pos].
  - apply shr_1_rep, IH, IH in H. replace (2 ^ Zpos p~1) with (2 ^ Zpos p * 2 ^ Zpos p * 2); [by rewrite <- !Z.mul_assoc|].
    replace (Zpos p~1) with (Zpos p + Zpos p + 1) by lia. rewrite !Z.pow_add_r by lia. lia.
  - apply IH, IH in H. replace (2 ^ Zpos p~0) with (2 ^ Zpos p * 2 ^ Zpos p); [by rewrite <- !Z.mul_assoc|].
    replace (Zpos p~0) with (Zpos p + Zpos p) by lia. rewrite Z.pow_add_r by lia. lia.
  - by apply shr_1_rep.
Qed.

Lemma shr_rep rec N D e n : 0 <= n -> rep rec N D -> rep (shr rec e n).1 N (2 ^ n * D) /\ (shr rec e n).2 = e + n.
Proof.
  intros Hn H. destruct n as [|p|p]; [|split; [by apply iter_rep|done]|lia].
  cbn [shr fst snd]. rewrite Z.mul_1_l. split; [done|lia].
Qed.

(** A record of [N / D] that is closer to [M] than half rounds to [M]. *)
Lemma round_rep rec N D M :
  0 < D -> rep rec N D -> 2 * Z.abs (N - D * M) < D -> round_nearest_even (shr_m rec) (loc_of_shr_record rec) = M.
Proof.
  intros HD (q & rem & HN & Hrem & Hq & Hm & Hr & Hs) HM. destruct rec as [m r s]. cbn [shr_m shr_r shr_s] in *. subst m r s.
  pose proof (Z.div_mod q 2 ltac:(lia)) as Hdm. rewrite Zmod_odd in Hdm.
  assert (q - 2 * M = 0 \/ q - 2 * M = -1) as Ht.
  { assert (D * (q - 2 * M) < D * 1) by lia. assert (D * (-2) < D * (q - 2 * M)) by lia.
    assert (q - 2 * M < 1) by (by apply (Z.mul_lt_mono_pos_l D)). assert (-2 < q - 2 * M) by (by apply (Z.mul_lt_mono_pos_l D)). lia. }
  destruct (Z.odd q) eqn:Eo; cbn [loc_of_shr_record round_nearest_even].
  - assert (q = 2 * M - 1) by lia. subst q. destruct (Z.eqb_spec rem 0); cbn [negb round_nearest_even]; lia.
  - destruct (negb _); cbn [round_nearest_even]; lia.
Qed.

(** The record of a quotient with its remainder. *)
Lemma new_location_rep D q r : 0 < D -> 0 <= r < D -> 0 <= q -> rep (shr_record_of_loc q (new_location D r)) (D * q + r) D.
Proof.
  intros HD Hr Hq. assert (rep (shr_record_of_loc q (if r =? 0 then loc_Exact else loc_Inexact (2 * r ?= D))) (D * q + r) D) as H.
  { destruct (Z.eqb_spec r 0) as [->|H0].
    - exists (2 * q), 0. cbn [shr_record_of_loc shr_m shr_r shr_s]. split_and!; [lia|lia|lia|lia|zdm|by rewrite Z.odd_mul|done].
    - unfold rep. destruct (Z.compare_spec (2 * r) D) as [E|E|E]; cbn [shr_record_of_loc shr_m shr_r shr_s].
      + exists (2 * q + 1), 0. split_and!; [lia|lia|lia|lia|zdm|by rewrite Z.odd_add, Z.odd_mul|done].
      + exists (2 * q), (2 * r). split_and!; [lia|lia|lia|lia|zdm|by rewrite Z.odd_mul|]. destruct (Z.eqb_spec (2 * r) 0); [lia|done].
      + exists (2 * q + 1), (2 * r - D). split_and!; [lia|lia|lia|lia|zdm|by rewrite Z.odd_add, Z.odd_mul|]. destruct (Z.eqb_spec (2 * r - D) 0); [lia|done]. }
  unfold new_location, new_location_even, new_location_odd. destruct (Z.even D) eqn:Ev; [exact H|].
  destruct (r =? 0); [exact H|]. assert (D mod 2 = 1) as Hodd by (rewrite Zmod_even, Ev; done).
  replace (match 2 * r + 1 ?= D with Eq => Lt | Lt => Lt | Gt => Gt end) with (2 * r ?= D); [exact H|].
  destruct (Z.compare_spec (2 * r) D), (Z.compare_spec (2 * r + 1) D); try done; zdm.
Qed.

(** ** Doubles *)

Lemma fexp64 x : fexp b64_prec b64_emax x = Z.max (x - 53) (-1074).
Proof. unfold fexp, emin, b64_prec, b64_emax. lia. Qed.

(** The mantissas and exponents of the finite doubles other than zero. *)
Definition double_parts (m e : Z) : Prop :=
  1 <= m < 2 ^ 53 /\ -1074 <= e <= 971 /\ (2 ^ 52 <= m \/ e = -1074).

Lemma valid_parts s m e : valid_binary b64_prec b64_emax (S754_finite s m e) = true -> double_parts (Zpos m) e.
Proof.
  cbn [valid_binary]. unfold bounded, canonical_mantissa. rewrite fexp64, andb_true_iff. intros [H1%Z.eqb_eq H2%Z.leb_le].
  change (b64_emax - b64_prec) with 971 in H2. change (Zpos (digits2_pos m)) with (Zdigits2 (Zpos m)) in H1.
  pose proof (digits2_bounds (Zpos m) ltac:(lia)) as [Hl Hu]. unfold double_parts. split_and!; [lia| |lia|lia|].
  - eapply Z.lt_le_trans; [exact Hu|]. apply Z.pow_le_mono_r; lia.
  - destruct (Z.eq_dec e (-1074)) as [|He]; [by right|left]. etransitivity; [|exact Hl]. apply Z.pow_le_mono_r; lia.
Qed.

Lemma parts_canonical m e : double_parts m e -> fexp b64_prec b64_emax (Zdigits2 m + e) = e.
Proof.
  intros ([Hm1 Hm2] & He & Hn). rewrite fexp64. pose proof (digits2_bounds m ltac:(lia)) as [Hl Hu].
  assert (1 <= Zdigits2 m) by (destruct m; cbn; lia). assert (Zdigits2 m - 1 < 53) by (apply (Z.pow_lt_mono_r_iff 2); lia).
  destruct Hn as [Hn| ->]; [|lia]. assert (52 < Zdigits2 m) by (apply (Z.pow_lt_mono_r_iff 2); lia). lia.
Qed.

(** [A / B] is nearer to [m * 2^e] than one part in [2 * 10^16] of it. The
    numbers are scaled by [2^1100], which makes integers of all of them. *)
Definition close (A B m e : Z) : Prop :=
  2 * 10 ^ 16 * Z.abs (m * (B * 2 ^ (1100 + e)) - A * 2 ^ 1100) <= m * (B * 2 ^ (1100 + e)).

Lemma pow2_cancel B a b : 0 < B -> 0 <= a -> 0 <= b -> B * 2 ^ a < B * 2 ^ b -> a < b.
Proof. intros HB Ha Hb H. apply (Z.pow_lt_mono_r_iff 2); [lia|lia|]. by apply (Z.mul_lt_mono_pos_l B). Qed.

(** The exponent the rounding settles on, and the integer it rounds to there. *)
Definition lands (Y B m e e1 M : Z) : Prop :=
  2 * Z.abs (Y - B * 2 ^ (1100 + e1) * M) < B * 2 ^ (1100 + e1) /\
  ((e1 = e /\ M = m) \/ (e1 = e - 1 /\ M = 2 ^ 53 /\ m = 2 ^ 52 /\ -1074 < e)).

Lemma close_lands A B m e mz ez r :
  0 < B -> double_parts m e -> close A B m e -> -1074 <= ez <= 0 -> 0 <= mz -> 0 <= r < B ->
  A * 2 ^ 1100 = (B * mz + r) * 2 ^ (1100 + ez) -> ez <= fexp b64_prec b64_emax (Zdigits2 mz + ez) ->
  exists M, lands (A * 2 ^ 1100) B m e (fexp b64_prec b64_emax (Zdigits2 mz + ez)) M.
Proof.
  intros HB ([Hm1 Hm2] & He & Hn) Hclose Hez Hmz Hr HY. rewrite fexp64. set (G := Zdigits2 mz + ez). intros HG.
  unfold close in Hclose. set (Y := A * 2 ^ 1100) in *. set (Z0 := B * 2 ^ (1100 + e)) in *.
  assert (0 < Z0) as HZ0 by (subst Z0; apply Z.mul_pos_pos; [lia|apply Z.pow_pos_nonneg; lia]).
  assert (m * Z0 <= (2 ^ 53 - 1) * Z0) by (apply Z.mul_le_mono_nonneg_r; lia).
  assert (2 * Z.abs (Y - Z0 * m) < Z0) as Hnear by (change (10 ^ 16) with 10000000000000000 in Hclose; change (2 ^ 53) with 9007199254740992 in *; lia).
  assert (Y < 2 ^ 53 * Z0) as Hup by (change (2 ^ 53) with 9007199254740992 in *; lia).
  assert (0 < mz -> B * 2 ^ (1100 + (G - 1)) <= Y < B * 2 ^ (1100 + G)) as Hmag.
  { intros Hpos. destruct (digits2_bounds mz Hpos) as [Hl Hu].
    assert (1 <= Zdigits2 mz) by (destruct mz; cbn; lia). assert (0 < 2 ^ (1100 + ez)) by (apply Z.pow_pos_nonneg; lia).
    replace (1100 + (G - 1)) with ((Zdigits2 mz - 1) + (1100 + ez)) by (subst G; lia).
    replace (1100 + G) with (Zdigits2 mz + (1100 + ez)) by (subst G; lia).
    rewrite HY, (Z.pow_add_r 2 (Zdigits2 mz - 1)), (Z.pow_add_r 2 (Zdigits2 mz)) by lia.
    set (d1 := 2 ^ (Zdigits2 mz - 1)) in *. set (d2 := 2 ^ Zdigits2 mz) in *. set (p := 2 ^ (1100 + ez)) in *. rewrite !Z.mul_assoc. split.
    - apply Z.mul_le_mono_nonneg_r; [lia|]. assert (B * d1 <= B * mz) by (apply Z.mul_le_mono_nonneg_l; lia). lia.
    - apply Z.mul_lt_mono_pos_r; [lia|]. assert (B * (mz + 1) <= B * d2) by (apply Z.mul_le_mono_nonneg_l; lia). lia. }
  assert (forall k, 0 <= k -> B * 2 ^ (1100 + (e + k)) = 2 ^ k * Z0) as Hpow.
  { intros k Hk. subst Z0. rewrite Z.add_assoc, (Z.pow_add_r 2 (1100 + e) k) by lia. lia. }
  destruct (Z.eq_dec mz 0) as [->|Hmz0].
  { assert (ez = -1074) as -> by (subst G; cbn in HG; lia). change (1100 + -1074) with 26 in HY.
    assert (e = -1074) as ->.
    { assert (e < -1073); [|lia]. assert (1100 + e < 27); [|lia]. apply (pow2_cancel B); [lia..|]. fold Z0. assert (1 * Z0 <= m * Z0) by (apply Z.mul_le_mono_nonneg_r; lia).
      change (2 ^ 27) with 134217728. change (2 ^ 26) with 67108864 in HY. lia. }
    exists m. subst G. cbn [Zdigits2]. change (Z.max (0 + -1074 - 53) (-1074)) with (-1074). split; [exact Hnear|]. by left. }
  specialize (Hmag ltac:(lia)). destruct Hmag as [Hl Hu].
  assert (-1074 <= G) as HG0 by (subst G; destruct mz; cbn in *; lia).
  assert (G <= e + 53) as HGe.
  { assert (1100 + (G - 1) < 1100 + (e + 53)); [|lia]. apply (pow2_cancel B); [lia..|]. rewrite Hpow by lia. lia. }
  destruct (Z.eq_dec e (-1074)) as [->|Hne].
  { exists m. replace (Z.max (G - 53) (-1074)) with (-1074) by lia. split; [exact Hnear|]. by left. }
  destruct Hn as [Hn|]; [|done]. destruct (Z.le_gt_cases (2 ^ 52 * Z0) Y) as [Hge|Hlt].
  { assert (e + 52 < G).
    { assert (1100 + (e + 52) < 1100 + G); [|lia]. apply (pow2_cancel B); [lia..|]. rewrite Hpow by lia. lia. }
    exists m. replace (Z.max (G - 53) (-1074)) with e by lia. split; [exact Hnear|]. by left. }
  assert (m = 2 ^ 52) as Hm52.
  { assert ((2 * m - 1) * Z0 < 2 ^ 53 * Z0) as H1 by (change (2 ^ 53) with (2 * 2 ^ 52); lia).
    apply Z.mul_lt_mono_pos_r in H1; [|lia]. change (2 ^ 53) with (2 * 2 ^ 52) in H1. lia. }
  assert (2 ^ 51 * Z0 < Y) as Hlow by (subst m; change (2 ^ 52) with 4503599627370496 in *; change (2 ^ 51) with 2251799813685248; lia).
  assert (e + 51 < G).
  { assert (1100 + (e + 51) < 1100 + G); [|lia]. apply (pow2_cancel B); [lia..|]. rewrite Hpow by lia. lia. }
  assert (G <= e + 52).
  { assert (1100 + (G - 1) < 1100 + (e + 52)); [|lia]. apply (pow2_cancel B); [lia..|]. rewrite Hpow by lia. lia. }
  exists (2 ^ 53). replace (Z.max (G - 53) (-1074)) with (e - 1) by lia. split; [|right; split_and!; [done..|lia]].
  assert (Z0 = 2 * (B * 2 ^ (1100 + (e - 1)))) as Hhalf.
  { subst Z0. replace (1100 + e) with ((1100 + (e - 1)) + 1) by lia. rewrite Z.pow_add_r by lia. lia. }
  rewrite Hm52, Hhalf in Hclose. set (Z1 := B * 2 ^ (1100 + (e - 1))) in *.
  change (10 ^ 16) with 10000000000000000 in Hclose. change (2 ^ 52) with 4503599627370496 in Hclose. change (2 ^ 53) with 9007199254740992. lia.
Qed.

(** A near enough quotient is rounded to the double. *)
Lemma round_close s m e A B mz ez lz r :
  0 < B -> double_parts (Zpos m) e -> close A B (Zpos m) e -> -1074 <= ez <= 0 -> 0 <= mz -> 0 <= r < B ->
  A * 2 ^ (- ez) = B * mz + r -> rep (shr_record_of_loc mz lz) (B * mz + r) B ->
  ez <= fexp b64_prec b64_emax (Zdigits2 mz + ez) ->
  binary_round_aux b64_prec b64_emax s mz ez lz = S754_finite s m e.
Proof.
  intros HB Hparts Hclose Hez Hmz Hr HN Hrep HG.
  assert (A * 2 ^ 1100 = (B * mz + r) * 2 ^ (1100 + ez)) as HY.
  { rewrite <- HN, <- Z.mul_assoc, <- Z.pow_add_r by lia. do 2 f_equal. lia. }
  destruct (close_lands A B (Zpos m) e mz ez r HB Hparts Hclose Hez Hmz Hr HY HG) as (M & Hland & Hcase).
  unfold binary_round_aux, shr_fexp at 1. set (e1 := fexp b64_prec b64_emax (Zdigits2 mz + ez)) in *.
  destruct (shr_rep _ _ _ ez (e1 - ez) ltac:(lia) Hrep) as [Hrep1 He1].
  destruct (shr (shr_record_of_loc mz lz) ez (e1 - ez)) as [rec e']. cbn [fst snd] in *. replace (ez + (e1 - ez)) with e1 in He1 by lia. subst e'.
  assert (0 < 2 ^ (1100 + ez)) as Hp by (apply Z.pow_pos_nonneg; lia). assert (0 < 2 ^ (e1 - ez)) as Hp1 by (apply Z.pow_pos_nonneg; lia).
  rewrite (round_rep rec (B * mz + r) (2 ^ (e1 - ez) * B) M); [|nia|done|].
  2:{ rewrite HY in Hland. replace (1100 + e1) with ((e1 - ez) + (1100 + ez)) in Hland by lia. rewrite (Z.pow_add_r 2 (e1 - ez) (1100 + ez)) in Hland by lia.
      set (p := 2 ^ (1100 + ez)) in *. set (q := 2 ^ (e1 - ez)) in *. apply (Z.mul_lt_mono_pos_r p); [done|].
      replace ((B * mz + r) * p - B * (q * p) * M) with ((B * mz + r - q * B * M) * p) in Hland by ring.
      rewrite Z.abs_mul, (Z.abs_eq p) in Hland by lia. lia. }
  pose proof Hparts as (_ & He & _). destruct Hcase as [[-> ->]|(-> & -> & Hm & Hlow)].
  - unfold shr_fexp. assert (fexp b64_prec b64_emax (Zdigits2 (Zpos m) + e) - e = 0) as ->.
    { rewrite parts_canonical by done. lia. }
    cbn [shr shr_record_of_loc shr_m]. change (b64_emax - b64_prec) with 971. by rewrite (proj2 (Z.leb_le e 971)) by lia.
  - unfold shr_fexp. change (Zdigits2 (2 ^ 53)) with 54. rewrite fexp64. replace (Z.max (54 + (e - 1) - 53) (-1074) - (e - 1)) with 1 by lia.
    cbn [shr]. change (shr_m (SpecFloat.iter_pos shr_1 1 (shr_record_of_loc (2 ^ 53) loc_Exact))) with (2 ^ 52). rewrite <- Hm.
    change (b64_emax - b64_prec) with 971. replace (e - 1 + 1) with e by lia. by rewrite (proj2 (Z.leb_le e 971)) by lia.
Qed.

(** ** The two roundings of [sf_of_decimal] *)

Lemma iter_xO a d : Zpos (Pos.iter xO a d) = Zpos a * 2 ^ Zpos d.
Proof.
  induction d as [|d IH] using Pos.peano_ind; [cbn; lia|].
  rewrite Pos.iter_succ, (Pos2Z.inj_xO (Pos.iter xO a d)), IH, Pos2Z.inj_succ, Z.pow_succ_r by lia. lia.
Qed.

Lemma exact_rep A : 0 <= A -> rep (shr_record_of_loc A loc_Exact) (1 * A + 0) 1.
Proof. intros HA. apply (new_location_rep 1 A 0); lia. Qed.

Lemma normalize_close (s : bool) m e A :
  0 < A -> double_parts (Zpos m) e -> close A 1 (Zpos m) e ->
  binary_normalize b64_prec b64_emax (if s then - A else A) 0 s = S754_finite s m e.
Proof.
  intros HA Hparts Hclose. destruct A as [|a|a]; try lia.
  assert (binary_normalize b64_prec b64_emax (if s then - Zpos a else Zpos a) 0 s = binary_round b64_prec b64_emax s a 0) as -> by (by destruct s).
  unfold binary_round, shl_align. rewrite Z.add_0_r, Z.sub_0_r. change (Zpos (digits2_pos a)) with (Zdigits2 (Zpos a)).
  set (x := fexp b64_prec b64_emax (Zdigits2 (Zpos a))). assert (x = Z.max (Zdigits2 (Zpos a) - 53) (-1074)) as Hx by apply fexp64.
  assert (1 <= Zdigits2 (Zpos a)) by (cbn; lia). pose proof (digits2_bounds (Zpos a) HA) as [Hl Hu].
  assert (0 <= x -> binary_round_aux b64_prec b64_emax s (Zpos a) 0 loc_Exact = S754_finite s m e) as Hpos.
  { intros Hsign. apply (round_close s m e (Zpos a) 1 (Zpos a) 0 loc_Exact 0); try done; try lia. by apply exact_rep. }
  destruct x as [|p|d] eqn:Ed; [by apply Hpos|by apply Hpos|].
  set (z := Zpos (Pos.iter xO a d)). assert (z = Zpos a * 2 ^ (- Zneg d)) as Hz by apply iter_xO.
  assert (Zdigits2 z = Zdigits2 (Zpos a) + Zpos d) as Hdg.
  { apply digits2_unique; [|lia]. rewrite Hz. change (- Zneg d) with (Zpos d). assert (0 < 2 ^ Zpos d) by (apply Z.pow_pos_nonneg; lia).
    replace (Zdigits2 (Zpos a) + Zpos d - 1) with ((Zdigits2 (Zpos a) - 1) + Zpos d) by lia. rewrite !Z.pow_add_r by lia.
    split; [apply Z.mul_le_mono_nonneg_r; lia|apply Z.mul_lt_mono_pos_r; lia]. }
  apply (round_close s m e (Zpos a) 1 z (Zneg d) loc_Exact 0); try done; try lia; [by apply exact_rep|].
  rewrite Hdg, fexp64. lia.
Qed.

Lemma div_close s m e a b :
  double_parts (Zpos m) e -> close (Zpos a) (Zpos b) (Zpos m) e ->
  SFdiv b64_prec b64_emax (S754_finite s a 0) (S754_finite false b 0) = S754_finite s m e.
Proof.
  intros Hparts Hclose. unfold SFdiv, SFdiv_core_binary. rewrite !Z.add_0_r, Z.sub_0_r, xorb_false_r.
  set (x := Z.min (fexp b64_prec b64_emax (Zdigits2 (Zpos a) - Zdigits2 (Zpos b))) 0).
  assert (x = Z.min (Z.max (Zdigits2 (Zpos a) - Zdigits2 (Zpos b) - 53) (-1074)) 0) as Hx by (unfold x; by rewrite fexp64).
  replace (match 0 - x with 0 => Zpos a | Zpos _ => Z.shiftl (Zpos a) (0 - x) | Zneg _ => 0 end) with (Zpos a * 2 ^ (- x)).
  2:{ replace (0 - x) with (- x) by lia. destruct (- x) eqn:E; [lia|by rewrite Z.shiftl_mul_pow2 by lia|lia]. }
  pose proof (Z_div_mod (Zpos a * 2 ^ (- x)) (Zpos b) ltac:(lia)) as Hdm. destruct (Z.div_eucl (Zpos a * 2 ^ (- x)) (Zpos b)) as [q r]. destruct Hdm as [Hq Hr].
  assert (0 < 2 ^ (- x)) as Hp by (apply Z.pow_pos_nonneg; lia).
  assert (0 <= q) as Hq0. { assert (0 < Zpos b * (q + 1)) as H by lia. assert (0 < q + 1); [|lia]. by apply (Z.mul_pos_cancel_l (Zpos b)). }
  apply (round_close s m e (Zpos a) (Zpos b) q x _ r); try done; try lia; [by apply new_location_rep|].
  rewrite fexp64. destruct (Z.eq_dec x (-1074)) as [|Hne]; [lia|].
  assert (x <= Zdigits2 (Zpos a) - Zdigits2 (Zpos b) - 53) as Hx' by lia.
  pose proof (digits2_bounds (Zpos a) ltac:(lia)) as [Ha _]. pose proof (digits2_bounds (Zpos b) ltac:(lia)) as [_ Hb].
  assert (1 <= Zdigits2 (Zpos a) /\ 1 <= Zdigits2 (Zpos b)) as [Hda Hdb] by (cbn; lia).
  assert (2 ^ 52 <= q) as Hbig.
  { assert (Zpos b * 2 ^ 52 < Zpos b * (q + 1)) as H.
    { apply Z.lt_trans with (2 ^ Zdigits2 (Zpos b) * 2 ^ 52); [apply Z.mul_lt_mono_pos_r; [done|lia]|].
      apply Z.le_lt_trans with (Zpos a * 2 ^ (- x)); [|lia].
      apply Z.le_trans with (2 ^ (Zdigits2 (Zpos a) - 1) * 2 ^ (- x)); [|apply Z.mul_le_mono_nonneg_r; lia].
      rewrite <- !Z.pow_add_r by lia. apply Z.pow_le_mono_r; lia. }
    apply Z.mul_lt_mono_pos_l in H; [|lia]. lia. }
  destruct (digits2_bounds q ltac:(lia)) as [_ Hdq]. assert (52 < Zdigits2 q); [|lia].
  apply (Z.pow_lt_mono_r_iff 2); [lia|destruct q; cbn; lia|lia].
Qed.
