(* ===== verification/Digits17.v ===== *)
(** * Seventeen digits are enough

    [tamga_json_write_double] of [src/src/util/json_write.c] looks for a
    precision at which the text of a double reads back as that double. It finds
    one for every finite double: the text with 17 significant digits always
    reads back. *)

From Stdlib Require Import String SpecFloat.
From S2P Require Import Prelude World Buf Float Rounding Json JsonParse JsonNumber JsonWrite KeySort JsonPrint JsonDouble.
#[local] Open Scope Z_scope.

Lemma pow10_pos k : 0 <= k -> 0 < 10 ^ k.
Proof. intros. by apply Z.pow_pos_nonneg. Qed.

Lemma pow10_cancel c a b : 0 < c -> 0 <= a -> 0 <= b -> c * 10 ^ a < c * 10 ^ b -> a < b.
Proof. intros Hc Ha Hb H. apply (Z.pow_lt_mono_r_iff 10); [lia|lia|]. by apply (Z.mul_lt_mono_pos_l c). Qed.

(** ** Decimal exponents *)

Lemma num_digits_bounds n : 0 < n -> 1 <= num_digits n /\ 10 ^ (num_digits n - 1) <= n < 10 ^ num_digits n.
Proof.
  intros Hn. unfold num_digits. destruct (fmt_nat_spec n ltac:(lia)) as ([Hne Hall] & Hv & _ & _).
  pose proof (digits_val_bound _ Hall) as [_ Hu]. rewrite Hv in Hu.
  assert (1 <= zlen (fmt_nat n)) as H1 by (destruct (fmt_nat n); [done|cbn [length]; lia]). split_and!; [done| |done].
  destruct (Z.le_gt_cases (10 ^ (zlen (fmt_nat n) - 1)) n) as [|Hgt]; [done|exfalso].
  destruct (Z.eq_dec (zlen (fmt_nat n)) 1) as [E|E]; [rewrite E in Hgt; cbn in Hgt; lia|].
  pose proof (dec_digits_length (S (Z.to_nat (Z.log2 n))) n (length (fmt_nat n) - 1)) as Hl.
  fold (fmt_nat n) in Hl. assert (length (fmt_nat n) <= length (fmt_nat n) - 1)%nat; [|lia]. apply Hl; [|lia].
  replace (Z.of_nat (length (fmt_nat n) - 1)) with (zlen (fmt_nat n) - 1) by lia. lia.
Qed.

Lemma num_digits_below n k : 0 < n < 10 ^ k -> 1 <= k -> num_digits n <= k.
Proof.
  intros Hn Hk. pose proof (num_digits_bounds n ltac:(lia)) as (H1 & Hl & _).
  assert (num_digits n - 1 < k); [|lia]. apply (Z.pow_lt_mono_r_iff 10); lia.
Qed.

Lemma num_digits_unique n k : 10 ^ (k - 1) <= n < 10 ^ k -> 1 <= k -> num_digits n = k.
Proof.
  intros Hn Hk. pose proof (pow10_pos (k - 1) ltac:(lia)). pose proof (num_digits_bounds n ltac:(lia)) as (H1 & Hl & Hu).
  pose proof (num_digits_below n k ltac:(lia) Hk). assert (k - 1 < num_digits n); [|lia]. apply (Z.pow_lt_mono_r_iff 10); lia.
Qed.

(** Fractions are compared with powers of ten after scaling by [10^400]. *)
Definition sci_exponent (n d : Z) : Z :=
  let k := num_digits n - num_digits d in
  if (if k >=? 0 then n >=? d * 10 ^ k else n * 10 ^ (- k) >=? d) then k else k - 1.

Lemma sci_exponent_spec n d :
  0 < n -> 0 < d -> num_digits d <= 350 ->
  -350 <= sci_exponent n d /\
  d * 10 ^ (400 + sci_exponent n d) <= n * 10 ^ 400 < d * 10 ^ (400 + sci_exponent n d + 1).
Proof.
  intros Hn Hd Hb. destruct (num_digits_bounds n Hn) as (Ha1 & Hal & Hau). destruct (num_digits_bounds d Hd) as (Hb1 & Hbl & Hbu).
  unfold sci_exponent. set (a := num_digits n) in *. set (b := num_digits d) in *. set (k := a - b).
  assert ((if k >=? 0 then n >=? d * 10 ^ k else n * 10 ^ (- k) >=? d) = (d * 10 ^ (400 + k) <=? n * 10 ^ 400)) as ->.
  { destruct (Z.geb_spec k 0).
    - rewrite Z.add_comm, Z.pow_add_r, Z.mul_assoc by lia. pose proof (pow10_pos 400 ltac:(lia)).
      destruct (Z.geb_spec n (d * 10 ^ k)), (Z.leb_spec (d * 10 ^ k * 10 ^ 400) (n * 10 ^ 400)); try done; nia.
    - replace (10 ^ 400) with (10 ^ (- k) * 10 ^ (400 + k)) by (rewrite <- Z.pow_add_r by lia; f_equal; lia). pose proof (pow10_pos (400 + k) ltac:(lia)).
      rewrite Z.mul_assoc. destruct (Z.geb_spec (n * 10 ^ (- k)) d), (Z.leb_spec (d * 10 ^ (400 + k)) (n * 10 ^ (- k) * 10 ^ (400 + k))); try done; nia. }
  pose proof (pow10_pos 400 ltac:(lia)) as HS. destruct (Z.leb_spec (d * 10 ^ (400 + k)) (n * 10 ^ 400)) as [Hge|Hlt].
  - split_and!; [lia|done|]. pose proof (pow10_pos (400 + k + 1) ltac:(lia)).
    apply Z.lt_le_trans with (10 ^ a * 10 ^ 400); [by apply Z.mul_lt_mono_pos_r|].
    apply Z.le_trans with (10 ^ (b - 1) * 10 ^ (400 + k + 1)); [|by apply Z.mul_le_mono_nonneg_r; lia].
    rewrite <- !Z.pow_add_r by lia. apply Z.pow_le_mono_r; lia.
  - replace (400 + (k - 1) + 1) with (400 + k) by lia. split_and!; [lia| |done]. pose proof (pow10_pos (400 + (k - 1)) ltac:(lia)).
    apply Z.le_trans with (10 ^ b * 10 ^ (400 + (k - 1))); [apply Z.mul_le_mono_nonneg_r; lia|].
    apply Z.le_trans with (10 ^ (a - 1) * 10 ^ 400); [|apply Z.mul_le_mono_nonneg_r; lia].
    rewrite <- !Z.pow_add_r by lia. apply Z.pow_le_mono_r; lia.
Qed.

(** ** The digits *)

Lemma div_half_even_near a b : 0 < b -> 2 * Z.abs (a - b * div_half_even a b) <= b.
Proof.
  intros Hb. unfold div_half_even. pose proof (Z.div_mod a b ltac:(lia)) as H. pose proof (Z.mod_pos_bound a b Hb) as Hr.
  set (q := a / b) in *. set (r := a mod b) in *. destruct (Z.ltb_spec (2 * r) b); [lia|].
  destruct (Z.gtb_spec (2 * r) b); [lia|]. destruct (Z.even q); lia.
Qed.

(** [ds] and [X] are the digits and the exponent of [n / d] at [p + 1] digits. *)
Definition digits_of (p n d ds X : Z) : Prop :=
  10 ^ p <= ds < 10 ^ (p + 1) /\ 0 <= 400 + X - p /\
  2 * 10 ^ p * Z.abs (n * 10 ^ 400 - d * (ds * 10 ^ (400 + X - p))) <= n * 10 ^ 400 /\
  d * 10 ^ (400 + X - 1) <= n * 10 ^ 400 < d * 10 ^ (400 + X + 1).

Lemma sci_digits_eq p n d :
  sci_digits p n d =
  let x := sci_exponent n d in
  let ds := if p - x >=? 0 then div_half_even (n * 10 ^ (p - x)) d else div_half_even n (d * 10 ^ (- (p - x))) in
  if ds >=? 10 ^ (p + 1) then (ds / 10, x + 1) else (ds, x).
Proof. done. Qed.

Lemma sci_digits_spec p n d :
  0 < n -> 0 < d -> num_digits d <= 350 -> 0 <= p <= 16 ->
  let '(ds, X) := sci_digits p n d in digits_of p n d ds X.
Proof.
  intros Hn Hd Hb Hp. destruct (sci_exponent_spec n d Hn Hd Hb) as (Hx & Hl & Hu). rewrite sci_digits_eq. cbv zeta. set (x := sci_exponent n d) in *.
  set (ds := if p - x >=? 0 then _ else _). set (E := 400 + x - p). assert (0 <= E) by (subst E; lia). pose proof (pow10_pos E ltac:(lia)) as HE.
  assert (2 * Z.abs (n * 10 ^ 400 - d * (ds * 10 ^ E)) <= d * 10 ^ E) as Hnear.
  { subst ds. destruct (Z.geb_spec (p - x) 0).
    - pose proof (div_half_even_near (n * 10 ^ (p - x)) d Hd) as Hdiv. set (q := div_half_even _ _) in *.
      replace (10 ^ 400) with (10 ^ (p - x) * 10 ^ E) by (rewrite <- Z.pow_add_r by lia; f_equal; subst E; lia).
      replace (n * (10 ^ (p - x) * 10 ^ E) - d * (q * 10 ^ E)) with ((n * 10 ^ (p - x) - d * q) * 10 ^ E) by ring.
      rewrite Z.abs_mul, (Z.abs_eq (10 ^ E)), Z.mul_assoc by lia. apply Z.mul_le_mono_nonneg_r; lia.
    - pose proof (pow10_pos (- (p - x)) ltac:(lia)). pose proof (div_half_even_near n (d * 10 ^ (- (p - x))) ltac:(nia)) as Hdiv. set (q := div_half_even _ _) in *.
      replace (10 ^ E) with (10 ^ (- (p - x)) * 10 ^ 400) by (rewrite <- Z.pow_add_r by lia; f_equal; subst E; lia). pose proof (pow10_pos 400 ltac:(lia)).
      replace (n * 10 ^ 400 - d * (q * (10 ^ (- (p - x)) * 10 ^ 400))) with ((n - d * 10 ^ (- (p - x)) * q) * 10 ^ 400) by ring.
      rewrite Z.abs_mul, (Z.abs_eq (10 ^ 400)), !Z.mul_assoc by lia. apply Z.mul_le_mono_nonneg_r; lia. }
  assert (10 ^ (400 + x) = 10 ^ p * 10 ^ E) as Hpow by (rewrite <- Z.pow_add_r by lia; f_equal; subst E; lia).
  assert (10 ^ (400 + x + 1) = 10 ^ (p + 1) * 10 ^ E) as Hpow1 by (rewrite <- Z.pow_add_r by lia; f_equal; subst E; lia).
  pose proof (pow10_pos p ltac:(lia)) as H10p. rewrite Hpow in Hl. rewrite Hpow1 in Hu. set (D := d * 10 ^ E) in *. assert (0 < D) as HD by (subst D; nia).
  replace (d * (ds * 10 ^ E)) with (D * ds) in Hnear by (subst D; ring).
  replace (d * (10 ^ p * 10 ^ E)) with (D * 10 ^ p) in Hl by (subst D; ring). replace (d * (10 ^ (p + 1) * 10 ^ E)) with (D * 10 ^ (p + 1)) in Hu by (subst D; ring).
  assert (10 ^ p <= ds) as Hlo.
  { assert (D * (2 * ds + 1) >= D * (2 * 10 ^ p)) by lia. assert (2 * 10 ^ p <= 2 * ds + 1); [|lia]. apply (Z.mul_le_mono_pos_l _ _ D); lia. }
  assert (ds <= 10 ^ (p + 1)) as Hhi.
  { assert (D * (2 * ds - 1) < D * (2 * 10 ^ (p + 1))) as H1 by lia. apply Z.mul_lt_mono_pos_l in H1; lia. }
  assert (2 * 10 ^ p * Z.abs (n * 10 ^ 400 - D * ds) <= n * 10 ^ 400) as Hrel by nia.
  assert (forall X, X = x \/ X = x + 1 -> d * 10 ^ (400 + X - 1) <= n * 10 ^ 400 < d * 10 ^ (400 + X + 1)) as Hrange.
  { intros X HX. split.
    - apply Z.le_trans with (D * 10 ^ p); [|done]. replace (D * 10 ^ p) with (d * 10 ^ (400 + x)) by (rewrite Hpow; subst D; ring).
      apply Z.mul_le_mono_nonneg_l; [lia|]. apply Z.pow_le_mono_r; lia.
    - apply Z.lt_le_trans with (D * 10 ^ (p + 1)); [done|]. replace (D * 10 ^ (p + 1)) with (d * 10 ^ (400 + x + 1)) by (rewrite Hpow1; subst D; ring).
      apply Z.mul_le_mono_nonneg_l; [lia|]. apply Z.pow_le_mono_r; lia. }
  rewrite Z.pow_add_r in Hhi by lia. change (10 ^ 1) with 10 in Hhi.
  destruct (Z.geb_spec ds (10 ^ (p + 1))) as [Hc|Hc]; (rewrite Z.pow_add_r in Hc by lia; change (10 ^ 1) with 10 in Hc); unfold digits_of;
    rewrite (Z.pow_add_r 10 p 1) by lia; change (10 ^ 1) with 10.
  - assert (ds = 10 * 10 ^ p) as -> by lia. rewrite Z.mul_comm, Z.div_mul by lia. split_and!; [lia|lia|lia| |apply Hrange; lia..].
    replace (400 + (x + 1) - p) with (E + 1) by (subst E; lia). rewrite (Z.pow_add_r 10 E 1) by lia. change (10 ^ 1) with 10.
    replace (d * (10 ^ p * (10 ^ E * 10))) with (D * (10 * 10 ^ p)) by (subst D; ring). exact Hrel.
  - split_and!; [done|done|lia| |apply Hrange; lia..]. fold E. by replace (d * (ds * 10 ^ E)) with (D * ds) by (subst D; ring).
Qed.

(** ** A double as a fraction *)

Definition fraction (m e : Z) : Z * Z := if e >=? 0 then (m * 2 ^ e, 1) else (m, 2 ^ (- e)).

Lemma fraction_spec m e :
  double_parts m e -> let '(n, d) := fraction m e in
  0 < n /\ 0 < d /\ num_digits d <= 350 /\ n <= 10 ^ 309 * d /\ d <= n * 10 ^ 324 /\
  n * 2 ^ 1100 = d * (m * 2 ^ (1100 + e)).
Proof.
  intros ([Hm1 Hm2] & He & _). unfold fraction. destruct (Z.geb_spec e 0) as [H|H].
  - assert (1 <= 2 ^ e <= 2 ^ 971) as Hp by (split; [change 1 with (2 ^ 0)|]; apply Z.pow_le_mono_r; lia).
    assert (m * 2 ^ e <= 2 ^ 53 * 2 ^ 971) by (apply Z.mul_le_mono_nonneg; lia).
    assert (2 ^ 53 * 2 ^ 971 <= 10 ^ 309) by (vm_compute; congruence). assert (1 <= 10 ^ 324) by (vm_compute; congruence).
    assert (1 * 1 <= m * 2 ^ e) by (apply Z.mul_le_mono_nonneg; lia).
    assert (1 * 1 <= m * 2 ^ e * 10 ^ 324) by (apply Z.mul_le_mono_nonneg; lia).
    split_and!; [lia|lia|vm_compute; congruence|lia|lia|]. rewrite (Z.pow_add_r 2 1100 e) by lia. ring.
  - assert (1 <= 2 ^ (- e) <= 2 ^ 1074) as Hp by (split; [change 1 with (2 ^ 0)|]; apply Z.pow_le_mono_r; lia).
    assert (2 ^ 1074 < 10 ^ 324) by (vm_compute; reflexivity). assert (2 ^ 53 <= 10 ^ 309) by (vm_compute; congruence).
    assert (2 ^ 53 * 1 <= 10 ^ 309 * 2 ^ (- e)) by (apply Z.mul_le_mono_nonneg; lia).
    assert (1 * 10 ^ 324 <= m * 10 ^ 324) by (apply Z.mul_le_mono_nonneg_r; lia).
    split_and!; [lia|lia| |lia|lia|].
    + pose proof (num_digits_below (2 ^ (- e)) 324 ltac:(lia) ltac:(lia)). lia.
    + replace (2 ^ 1100) with (2 ^ (- e) * 2 ^ (1100 + e)) by (rewrite <- Z.pow_add_r by lia; f_equal; lia). ring.
Qed.

Lemma exponent_range p n d ds X :
  0 <= p <= 16 -> 0 < n -> 0 < d -> n <= 10 ^ 309 * d -> d <= n * 10 ^ 324 -> digits_of p n d ds X -> -324 <= X <= 310.
Proof.
  intros Hp Hn Hd Hu Hl (_ & HX & _ & H1 & H2). pose proof (pow10_pos 400 ltac:(lia)) as HS. split.
  - assert (400 < 324 + (400 + X + 1)); [|lia]. apply (pow10_cancel n); [lia..|]. rewrite (Z.pow_add_r 10 324) by lia.
    eapply Z.lt_le_trans; [exact H2|]. rewrite Z.mul_assoc. apply Z.mul_le_mono_nonneg_r; [|done]. pose proof (pow10_pos (400 + X + 1) ltac:(lia)). lia.
  - destruct (Z.le_gt_cases (400 + X - 1) (309 + 400)) as [|Hgt]; [lia|exfalso].
    assert (d * 10 ^ (309 + 400 + 1) <= n * 10 ^ 400).
    { etransitivity; [|exact H1]. apply Z.mul_le_mono_nonneg_l; [lia|]. apply Z.pow_le_mono_r; lia. }
    assert (n * 10 ^ 400 <= 10 ^ 309 * d * 10 ^ 400) by (apply Z.mul_le_mono_nonneg_r; lia).
    rewrite !Z.pow_add_r in H by lia. pose proof (pow10_pos 309 ltac:(lia)). change (10 ^ 1) with 10 in H. set (a := 10 ^ 309) in *. set (b := 10 ^ 400) in *. nia.
Qed.

(** ** Reading 17 digits back *)

Lemma digits_close m e n d ds X A B :
  0 < n -> 0 < d -> n * 2 ^ 1100 = d * (m * 2 ^ (1100 + e)) -> digits_of 16 n d ds X ->
  0 < B -> A * 10 ^ 400 = B * (ds * 10 ^ (400 + X - 16)) -> close A B m e.
Proof.
  intros Hn Hd Hfrac (_ & _ & Hnear & _) HB HA. pose proof (pow10_pos 400 ltac:(lia)) as HS. unfold close.
  set (S := 10 ^ 400) in *. set (Q := ds * 10 ^ (400 + X - 16)) in *. set (K := 2 * 10 ^ 16) in *. assert (0 < K) by done.
  assert (K * Z.abs (n * B - d * A) <= n * B) as H1.
  { apply (Z.mul_le_mono_pos_r _ _ S); [done|]. apply (Z.mul_le_mono_nonneg_l _ _ B) in Hnear; [|lia].
    replace (K * Z.abs (n * B - d * A) * S) with (B * (K * Z.abs (n * S - d * Q))); [lia|].
    rewrite <- (Z.abs_eq B) at 1 by lia. rewrite <- (Z.abs_eq S) at 2 by lia.
    replace (Z.abs B * (K * Z.abs (n * S - d * Q))) with (K * Z.abs (B * (n * S - d * Q))) by (rewrite Z.abs_mul; ring).
    replace (K * Z.abs (n * B - d * A) * Z.abs S) with (K * Z.abs ((n * B - d * A) * S)) by (rewrite Z.abs_mul; ring).
    do 2 f_equal. replace (B * (n * S - d * Q)) with (n * B * S - d * (B * Q)) by ring. rewrite <- HA. ring. }
  set (P := 2 ^ 1100) in *. assert (0 < P) by done. set (R := 2 ^ (1100 + e)) in *.
  apply (Z.mul_le_mono_pos_l _ _ d); [done|]. apply (Z.mul_le_mono_nonneg_r _ _ P) in H1; [|lia].
  replace (d * (m * (B * R))) with (n * B * P) by (rewrite (Z.mul_comm n B), <- Z.mul_assoc, Hfrac; ring).
  replace (d * (K * Z.abs (m * (B * R) - A * P))) with (K * Z.abs (n * B - d * A) * P); [done|].
  replace (K * Z.abs (n * B - d * A) * P) with (K * Z.abs ((n * B - d * A) * P)) by (rewrite Z.abs_mul, (Z.abs_eq P) by lia; ring).
  replace (d * (K * Z.abs (m * (B * R) - A * P))) with (K * Z.abs (d * (m * (B * R) - A * P))) by (rewrite Z.abs_mul, (Z.abs_eq d) by lia; ring).
  do 2 f_equal. replace (d * (m * (B * R) - A * P)) with (B * (d * (m * R)) - d * A * P) by ring. rewrite <- Hfrac. ring.
Qed.

Lemma decimal_reads s m e ds X :
  double_parts (Zpos m) e -> (let '(n, d) := fraction (Zpos m) e in digits_of 16 n d ds X) ->
  sf_of_decimal s ds (X - 16) = S754_finite s m e.
Proof.
  intros Hparts. pose proof (fraction_spec _ _ Hparts) as Hf. destruct (fraction (Zpos m) e) as [n d]. destruct Hf as (Hn & Hd & Hb & Hu & Hl & Hfrac).
  intros Hds. pose proof (exponent_range 16 n d ds X ltac:(lia) Hn Hd Hu Hl Hds) as HX. pose proof Hds as (Hbound & _ & _).
  change (10 ^ 16) with 10000000000000000 in Hbound. change (10 ^ (16 + 1)) with 100000000000000000 in Hbound.
  unfold sf_of_decimal. destruct (dec_normal_spec ds (X - 16) ltac:(lia)) as (m' & j & -> & Hj & Hm' & _).
  assert (0 < m') as Hpos. { pose proof (pow10_pos j Hj). assert (0 < m' * 10 ^ j) by lia. by apply (Z.mul_pos_cancel_r _ (10 ^ j)). }
  assert (j <= 16) as Hj16.
  { assert (j < 17); [|lia]. apply (Z.pow_lt_mono_r_iff 10); [lia|lia|]. change (10 ^ 17) with 100000000000000000. pose proof (pow10_pos j Hj). nia. }
  assert (0 <= Z.log2 m' < 57) as Hlog.
  { split; [apply Z.log2_nonneg|]. apply Z.log2_lt_pow2; [done|]. change (2 ^ 57) with 144115188075855872. pose proof (pow10_pos j Hj). nia. }
  destruct m' as [|q|q]; try lia. set (L := Z.log2 (Zpos q)) in *.
  replace (X - 16 + j + L / 4 >? 400) with false by (symmetry; rewrite Z.gtb_ltb; apply Z.ltb_ge; zdm).
  replace (X - 16 + j + L <? -400) with false by (symmetry; apply Z.ltb_ge; lia).
  destruct (Z.geb_spec (X - 16 + j) 0) as [Hge|Hlt].
  - apply normalize_close; [pose proof (pow10_pos (X - 16 + j) Hge); lia|done|].
    apply (digits_close _ _ n d ds X); try done. rewrite Hm', Z.mul_1_l, <- !Z.mul_assoc, <- !Z.pow_add_r by lia. do 2 f_equal. lia.
  - pose proof (pow10_pos (- (X - 16 + j)) ltac:(lia)) as HB. destruct (10 ^ (- (X - 16 + j))) as [|b|b] eqn:Eb; try lia.
    apply div_close; [done|]. apply (digits_close _ _ n d ds X); try done. rewrite Hm', <- Eb.
    rewrite (Z.mul_comm (10 ^ _)), <- !Z.mul_assoc, <- !Z.pow_add_r by lia. do 2 f_equal. lia.
Qed.

(** ** The text *)

Lemma fmt_e_text_exact neg p ds X :
  0 <= p -> 10 ^ p <= ds < 10 ^ (p + 1) ->
  exists t, sci_ok t /\ fmt_e_text neg p ds X = sci_text t /\ sc_neg t = neg /\ sc_exp t = X /\
    digits_val 0 (sci_digits_of t) = ds /\ zlen (sc_frac t) = p.
Proof.
  intros Hp Hds. pose proof (pow10_pos p Hp). destruct (fmt_nat_spec ds ltac:(lia)) as ([Hne Hall] & Hv & _ & _).
  assert (zlen (fmt_nat ds) = p + 1) as Hlen by (apply num_digits_unique; [replace (p + 1 - 1) with p by lia; done|lia]).
  unfold fmt_e_text. rewrite (proj2 (Z.eqb_neq ds 0)) by lia. destruct (fmt_nat ds) as [|c dg]; [done|]. cbn [length] in Hlen.
  exists (mk_sci neg c (p >? 0) dg X). cbn [take drop]. rewrite drop_0. simpl in Hall. apply andb_true_iff in Hall as [Hc Hall].
  assert ((p >? 0) = false -> dg = []) as Hnil by (intros E; destruct dg; [done|]; cbn [length] in Hlen; lia).
  split_and!; try done; [|cbn; lia]. split; [split; [done|]|exact Hnil]. unfold sci_digits_of. cbn. by rewrite Hc.
Qed.

Lemma exponent_text_length X : -324 <= X <= 310 -> zlen (sci_exp_text X) <= 4.
Proof.
  intros HX. assert (zlen (fmt_nat (Z.abs X)) <= 3) as Hl.
  { destruct (Z.eq_dec X 0) as [->|]; [vm_compute; congruence|]. apply num_digits_below; [|lia]. change (10 ^ 3) with 1000. lia. }
  unfold sci_exp_text. cbn [length]. destruct (Z.ltb_spec (zlen (fmt_nat (Z.abs X))) 2); cbn [length]; lia.
Qed.

(** What [%e] writes for a finite double other than zero. *)
Lemma fmt_e_finite p s m e :
  double_parts (Zpos m) e -> 0 <= p <= 16 ->
  exists t ds X, sci_ok t /\ fmt_e p (S754_finite s m e) = sci_text t /\ sc_neg t = s /\ sc_exp t = X /\
    digits_val 0 (sci_digits_of t) = ds /\ zlen (sc_frac t) = p /\ zlen (sci_text t) < 64 /\
    (let '(n, d) := fraction (Zpos m) e in digits_of p n d ds X).
Proof.
  intros Hparts Hp. pose proof (fraction_spec _ _ Hparts) as Hf. cbn [fmt_e].
  change (if e >=? 0 then _ else _) with (fraction (Zpos m) e). destruct (fraction (Zpos m) e) as [n d]. destruct Hf as (Hn & Hd & Hb & Hu & Hl & Hfrac).
  pose proof (sci_digits_spec p n d Hn Hd Hb Hp) as Hds. destruct (sci_digits p n d) as [ds X].
  pose proof (exponent_range p n d ds X Hp Hn Hd Hu Hl Hds) as HX. pose proof Hds as (Hbound & _).
  destruct (fmt_e_text_exact s p ds X ltac:(lia) Hbound) as (t & Hok & Ht & Hneg & Hexp & Hv & Hfl). exists t, ds, X. split_and!; try done.
  pose proof (exponent_text_length X HX) as Hel. rewrite <- Hexp in Hel. unfold sci_text. rewrite !length_app. cbn [length].
  assert (length (sign_text (sc_neg t)) <= 1)%nat by (destruct (sc_neg t); cbn; lia).
  assert (zlen (if sc_point t then 46 :: sc_frac t else []) <= zlen (sc_frac t) + 1) by (destruct (sc_point t); cbn [length]; lia). lia.
Qed.

Lemma SFeqb_refl r : sf_isfinite r = true -> SFeqb r r = true.
Proof.
  destruct r as [s|s| |s m e]; try done. intros _. unfold SFeqb, SFcompare. rewrite Z.compare_refl. fold (Pos.compare m m). rewrite Pos.compare_refl. by destruct s.
Qed.

(** At 17 digits the text reads back. *)
Lemma reads_back s m e : double_parts (Zpos m) e -> SFeqb (strtod (fmt_e 16 (S754_finite s m e))).1 (S754_finite s m e) = true.
Proof.
  intros Hparts. destruct (fmt_e_finite 16 s m e Hparts ltac:(lia)) as (t & ds & X & Hok & -> & Hneg & Hexp & Hv & Hfl & _ & Hds).
  rewrite strtod_sci by done. rewrite Hneg, Hexp, Hv, Hfl, (decimal_reads s m e ds X Hparts Hds). by apply SFeqb_refl.
Qed.

(** ** The search *)

Lemma find_precision_finds tries p0 p r :
  p0 <= p < p0 + Z.of_nat tries -> (forall q, p0 <= q <= p -> zlen (fmt_e q r) < 64) -> SFeqb (strtod (fmt_e p r)).1 r = true ->
  exists q, p0 <= q <= p /\ find_precision tries p0 r = Some (fmt_e q r).
Proof.
  revert p0. induction tries as [|k IH]; intros p0 Hp Hlen Hback; [lia|]. cbn [find_precision].
  destruct (Z.geb_spec (zlen (fmt_e p0 r)) 64) as [H|_]; [specialize (Hlen p0 ltac:(lia)); lia|].
  destruct (SFeqb (strtod (fmt_e p0 r)).1 r) eqn:E; [exists p0; split; [lia|done]|].
  destruct (Z.eq_dec p0 p) as [->|Hne]; [congruence|]. destruct (IH (p0 + 1)) as (q & Hq & ->); [lia|intros q Hq; apply Hlen; lia|done|].
  exists q. split; [lia|done].
Qed.

Lemma collect_digits_short ds acc l :
  forallb is_dec ds = true -> (match l with [] => False | c :: _ => c = 101 end) -> zlen acc + zlen ds <= 32 ->
  collect_digits (ds ++ l) acc = Some (acc ++ ds, l).
Proof.
  intros Hds Hl. revert acc. induction ds as [|c ds IH]; intros acc Hlen; simpl in Hds |- *.
  - destruct l as [|c l]; [done|]. subst c. by rewrite app_nil_r.
  - apply andb_true_iff in Hds as [Hc Hds]. apply is_dec_range in Hc. cbn [length] in Hlen.
    replace (_ || _) with false by lia. replace (c =? 46) with false by lia. destruct (Z.geb_spec (zlen acc) 32); [lia|].
    rewrite IH; [by rewrite <- app_assoc|done|]. rewrite length_app. cbn [length]. lia.
Qed.

Lemma collect_short t :
  sci_ok t -> zlen (sc_frac t) <= 16 ->
  collect_digits (drop (length (sign_text (sc_neg t))) (sci_text t)) [] = Some (sci_digits_of t, 101 :: sci_exp_text (sc_exp t)).
Proof.
  intros [[_ Hall] Hpt] Hlen. unfold sci_digits_of in *. simpl in Hall. apply andb_true_iff in Hall as [Hd Hfr].
  unfold sci_text. rewrite drop_app_length. cbn [app collect_digits]. apply is_dec_range in Hd. replace (_ || _) with false by lia.
  replace (sc_lead t =? 46) with false by lia. cbn [length Z.of_nat Z.geb Z.compare app]. destruct (sc_point t).
  - cbn [app collect_digits Z.eqb Pos.eqb orb]. apply (collect_digits_short (sc_frac t) [sc_lead t]); [done|done|cbn [length]; lia].
  - rewrite Hpt by done. done.
Qed.

(** Every finite double has a text. *)
Lemma double_text_total r : valid_binary b64_prec b64_emax r = true -> sf_isfinite r = true -> is_Some (double_text r).
Proof.
  destruct r as [s|s| |s m e]; try done; intros Hvalid _; [destruct s; vm_compute; eauto|].
  pose proof (valid_parts _ _ _ Hvalid) as Hparts. unfold double_text. cbn [sf_isfinite negb].
  destruct (find_precision_finds 18 0 16 (S754_finite s m e)) as (q & Hq & ->); [lia| |by apply reads_back|].
  { intros q Hq. by destruct (fmt_e_finite q s m e Hparts Hq) as (t & ds & X & _ & -> & _ & _ & _ & _ & Hlen & _). }
  destruct (fmt_e_finite q s m e Hparts Hq) as (t & ds & X & Hok & -> & _ & _ & _ & Hfl & _). cbn [mbind option_bind].
  rewrite scratch_split by done. rewrite collect_short by (done || lia). cbn [mbind option_bind]. eauto.
Qed.
