(* ===== verification/JsonRoundtrip.v ===== *)
(** * Writing and reading back

    What the serializers of [src/src/util/json_write.c] write is in the grammar
    that the parser of [src/src/util/json_parse.c] accepts, and denotes the
    tree it was written from; the canonical text does not depend on the order
    of the members. *)

From Stdlib Require Import String SpecFloat.
From S2P Require Import Prelude World Buf Float Json JsonParse Utf8 JsonString JsonNumber JsonGrammar.
From S2P Require Import JsonWrite KeySort JsonPrint JsonDouble Rounding Digits17.
From stdpp Require Import sorting list.
#[local] Open Scope Z_scope.

(** ** Strings *)

Lemma escape_app a b : escape (a ++ b) = escape a ++ escape b.
Proof. unfold escape. by rewrite map_app, concat_app. Qed.

Lemma escape_plain l : Forall (fun c => 92 < c) l -> escape l = l.
Proof.
  induction 1 as [|c l Hc _ IH]; [done|]. change (escape (c :: l)) with (escape_char c ++ escape l).
  rewrite IH. unfold escape_char.
  replace (c =? 34) with false by lia. replace (c =? 92) with false by lia. replace (c =? 8) with false by lia.
  replace (c =? 12) with false by lia. replace (c =? 10) with false by lia. replace (c =? 13) with false by lia.
  replace (c =? 9) with false by lia. by replace (c <? 32) with false by lia.
Qed.

(** The characters below 128, checked one by one: either the character stands
    for itself or its escape is one of the grammar with that meaning. *)
Definition ascii_escape_check (c : Z) : bool :=
  match escape_char c with
  | [x] => (x =? c) && (32 <=? c) && negb (c =? 34) && negb (c =? 92)
  | [b; e] => (b =? 92) && match short_escape e with Some v => v =? c | None => false end
  | [b; u; h1; h2; h3; h4] =>
      (b =? 92) && (u =? 117) &&
      match hex4_digit h1, hex4_digit h2, hex4_digit h3, hex4_digit h4 with
      | Some v1, Some v2, Some v3, Some v4 => 4096 * v1 + 256 * v2 + 16 * v3 + v4 =? c
      | _, _, _, _ => false
      end
  | _ => false
  end.

Lemma ascii_escape c d t : 0 <= c < 128 -> jstr d t -> jstr (c :: d) (escape_char c ++ t).
Proof.
  intros Hc Hd. pose proof (below_forallb 128 ascii_escape_check eq_refl c ltac:(lia)) as H.
  unfold ascii_escape_check in H.
  assert (utf8 c = [c]) as Hu by (unfold utf8; by replace (c <? 128) with true by lia).
  assert (scalar c) as Hs by (unfold scalar; lia).
  destruct (escape_char c) as [|x [|e [|h1 [|h2 [|h3 [|h4 [|]]]]]]]; try done.
  - rewrite !andb_true_iff in H. destruct H as [[[H1 H2] H3] H4]. apply Z.eqb_eq in H1 as ->.
    pose proof (jstr_raw c d t Hs) as Hr. rewrite Hu in Hr. apply Hr; (lia || done).
  - apply andb_true_iff in H as [H1 H2]. apply Z.eqb_eq in H1 as ->.
    destruct (short_escape e) eqn:E; [|done]. apply Z.eqb_eq in H2 as ->. by apply jstr_short.
  - rewrite !andb_true_iff in H. destruct H as [[H1 H2] H3]. apply Z.eqb_eq in H1 as ->, H2 as ->.
    destruct (hex4_digit h1) eqn:E1; [|done]. destruct (hex4_digit h2) eqn:E2; [|done].
    destruct (hex4_digit h3) eqn:E3; [|done]. destruct (hex4_digit h4) eqn:E4; [|done].
    apply Z.eqb_eq in H3. pose proof (jstr_unit [h1; h2; h3; h4] c d t) as Hr. rewrite Hu in Hr.
    apply Hr; [|done..]. exists h1, h2, h3, h4. eauto 12.
Qed.

Lemma utf8_high cp : scalar cp -> 128 <= cp -> Forall (fun c => 128 <= c) (utf8 cp).
Proof. intros Hs Hc. unfold utf8, scalar in *. repeat dif; repeat constructor; zdm. Qed.

Lemma escape_jstr s : utf8_text s -> jstr s (escape s).
Proof.
  induction 1 as [|cp l Hs _ IH]; [constructor|]. rewrite escape_app.
  destruct (Z.ltb_spec cp 128) as [Hlt|Hge].
  - assert (utf8 cp = [cp]) as -> by (unfold utf8; by replace (cp <? 128) with true by lia).
    unfold escape at 1. cbn [map concat]. rewrite app_nil_r. apply ascii_escape; [unfold scalar in Hs; lia|done].
  - pose proof (utf8_high cp Hs Hge) as Hh. rewrite escape_plain.
    2:{ eapply Forall_impl; [exact Hh|]. simpl. lia. }
    apply jstr_raw; (done || lia).
Qed.

(** ** Trees with a faithful text *)

(** The doubles are all those a C program holds, infinities and NaN apart: the
    sign, mantissa and exponent are those of a binary64 number. *)
#[warnings="-register-all"]
Inductive printable : json -> Prop :=
| pr_null : printable JNull
| pr_bool b : printable (JBool b)
| pr_int z : INT64_MIN <= z <= INT64_MAX -> printable (JInt z)
| pr_real r : valid_binary b64_prec b64_emax r = true -> sf_isfinite r = true -> printable (JReal r)
| pr_string s : utf8_text s -> printable (JString s)
| pr_array items : Forall printable items -> printable (JArray items)
| pr_object ms :
    NoDup ms.*1 -> Forall (fun k => utf8_text k /\ ~ In 0 k) ms.*1 -> Forall printable ms.*2 ->
    printable (JObject ms).

Fixpoint json_depth (j : json) : nat :=
  match j with
  | JArray items => S (list_max (map json_depth items))
  | JObject ms => S (list_max (map (fun m => json_depth m.2) ms))
  | _ => 1
  end.

Lemma build_members_id ms : NoDup ms.*1 -> build_members ms = ms.
Proof.
  induction ms as [|[k v] ms IH] using rev_ind; [done|]. rewrite fmap_app. intros Hnd.
  apply NoDup_app in Hnd as (Hnd & Hnin & _). rewrite build_members_app, IH by done.
  apply obj_set_fresh. intros Hin. apply (Hnin k Hin). apply list_elem_of_here.
Qed.

Lemma print_items_jitems n items :
  items <> [] -> Forall (fun x => jval n x (print false x)) items ->
  jitems n items (comma_join (map (print false) items)).
Proof.
  intros Hne Hall. induction Hall as [|x items Hx Hall IH]; [done|].
  destruct items as [|y items].
  - cbn [map comma_join]. rewrite <- (app_nil_r (print false x)). by apply ji_one.
  - change (comma_join (map (print false) (x :: y :: items))) with
      (print false x ++ [] ++ 44 :: [] ++ comma_join (map (print false) (y :: items))).
    apply ji_cons; [done..|]. by apply IH.
Qed.

Lemma print_members_jmembers n (ms : list (bytes * json)) :
  ms <> [] -> Forall (fun m => jval n m.2 (print false m.2)) ms ->
  Forall (fun k => utf8_text k /\ ~ In 0 k) ms.*1 ->
  jmembers n ms (comma_join (map member_text (map (fun m => (m.1, print false m.2)) ms))).
Proof.
  intros Hne Hall Hkeys. induction Hall as [|[k x] ms Hx Hall IH]; [done|].
  rewrite fmap_cons in Hkeys. apply Forall_cons_1 in Hkeys as [[Hu Hn] Hkeys]. cbn [fst snd] in *.
  assert (forall t, member_text (k, print false x) ++ t = 34 :: escape k ++ 34 :: [] ++ 58 :: [] ++ print false x ++ t) as Hm.
  { intros t. unfold member_text, quoted. cbn [fst snd]. rewrite c_view_id by done.
    repeat (rewrite <- ?app_assoc; cbn [app]). done. }
  destruct ms as [|m ms].
  - cbn [map comma_join]. rewrite <- (app_nil_r (member_text _)), Hm. apply jm_one; (done || by apply escape_jstr).
  - cbn [map fst snd]. rewrite comma_join_cons.
    change (concat (map (cons 44) (member_text (m.1, print false m.2) :: ?r)))
      with (44 :: (member_text (m.1, print false m.2) ++ concat (map (cons 44) r))).
    rewrite <- comma_join_cons, Hm.
    apply (jm_cons n k (escape k) [] [] x (print false x) [] []); try done; [by apply escape_jstr|]. by apply IH.
Qed.

Lemma list_max_in x l : In x l -> (x <= list_max l)%nat.
Proof. induction l as [|y l IH]; simpl; [done|]. intros [->|H]; [lia|]. specialize (IH H). lia. Qed.

Lemma print_jval j : printable j -> forall n, (json_depth j <= n)%nat -> jval n j (print false j).
Proof.
  induction j as [|b|z|r|s|items IH|ms IH] using json_induction; intros Hp [|n] Hn;
    try (simpl in Hn; lia); cbn [print].
  - constructor.
  - destruct b; constructor.
  - inversion_clear Hp. rewrite fmt_dec_num, <- (int_num_json z) by done. apply jv_num; [apply int_num_ok|].
    rewrite <- fmt_dec_num. pose proof (fmt_dec_length z ltac:(done)). unfold TAMGA_JSON_MAX_NUMBER_CHARS. lia.
  - inversion_clear Hp as [| | |? Hvalid Hfin| | |]. destruct (double_text_total r Hvalid Hfin) as [t Ht]. rewrite Ht. cbn [from_option id].
    apply double_text_num in Ht as (k & Hk & <- & <- & Hl). by apply jv_num.
  - inversion_clear Hp. by apply jv_str, escape_jstr.
  - inversion_clear Hp as [| | | | |? Hall|]. destruct items as [|x items]; [by apply (jv_arr_empty n [])|].
    apply (jv_arr n []); [done|]. apply print_items_jitems; [done|]. apply Forall_forall. intros y Hy.
    rewrite Forall_forall in IH, Hall. apply IH; auto. simpl in Hn.
    assert (In (json_depth y) (map json_depth (x :: items))) as Hin by (apply in_map, list_elem_of_In, Hy).
    apply list_max_in in Hin. simpl in Hin. lia.
  - inversion_clear Hp as [| | | | | |? Hnd Hkeys Hall]. destruct ms as [|m ms]; [by apply (jv_obj_empty n [])|].
    change (arrange false ?l) with l.
    rewrite <- (build_members_id (m :: ms)) at 1 by done. apply (jv_obj n []); [done|].
    apply print_members_jmembers; [done| |done]. apply Forall_forall. intros y Hy.
    rewrite Forall_fmap, Forall_forall in Hall. rewrite Forall_forall in IH. apply (IH y Hy); [by apply Hall|]. simpl in Hn.
    assert (In (json_depth y.2) (map (fun m => json_depth m.2) (m :: ms))) as Hin
      by (apply (in_map (fun m => json_depth m.2)), list_elem_of_In, Hy).
    apply list_max_in in Hin. simpl in Hin. lia.
Qed.

(** ** The canonical form *)

(** The tree with the members of every object in key order. *)
Fixpoint canon (j : json) : json :=
  match j with
  | JArray items => JArray (map canon items)
  | JObject ms => JObject (arrange true (map (fun m => (m.1, canon m.2)) ms))
  | _ => j
  end.

Lemma print_canon j : print true j = print false (canon j).
Proof.
  induction j as [|b|z|r|s|items IH|ms IH] using json_induction; try done; cbn [canon print].
  - rewrite map_map. do 3 f_equal. apply map_ext_in. intros x Hx. rewrite Forall_forall in IH. apply IH.
    by apply list_elem_of_In.
  - change (arrange false ?l) with l. do 3 f_equal. rewrite <- (sort_keys_map (print false)), map_map. f_equal. f_equal.
    apply map_ext_in. intros x Hx. rewrite Forall_forall in IH. cbn [fst snd]. f_equal. apply IH.
    by apply list_elem_of_In.
Qed.

Lemma map_snd_fst {A B} (f : A -> B) (ms : list (bytes * A)) : (map (fun m => (m.1, f m.2)) ms).*1 = ms.*1.
Proof. induction ms as [|m ms IH]; csimpl; [done|]. by f_equal. Qed.

Lemma map_snd_snd {A B} (f : A -> B) (ms : list (bytes * A)) : (map (fun m => (m.1, f m.2)) ms).*2 = f <$> ms.*2.
Proof. induction ms as [|m ms IH]; csimpl; [done|]. by f_equal. Qed.

Lemma canon_printable j : printable j -> printable (canon j).
Proof.
  induction j as [|b|z|r|s|items IH|ms IH] using json_induction; intros Hp; try done; cbn [canon].
  - inversion_clear Hp as [| | | | |? Hall|]. constructor. apply Forall_fmap.
    eapply Forall_impl; [apply Forall_and; exact (conj IH Hall)|]. intros x [H1 H2]. by apply H1.
  - inversion_clear Hp as [| | | | | |? Hnd Hkeys Hall].
    constructor; rewrite arrange_perm, ?map_snd_fst, ?map_snd_snd; [done..|].
    apply Forall_fmap. rewrite Forall_fmap in Hall |- *.
    eapply Forall_impl; [apply Forall_and; exact (conj IH Hall)|]. intros x [H1 H2]. by apply H1.
Qed.

Lemma list_max_perm l1 l2 : l1 ≡ₚ l2 -> list_max l1 = list_max l2.
Proof. induction 1; simpl; lia. Qed.

Lemma canon_depth j : json_depth (canon j) = json_depth j.
Proof.
  induction j as [|b|z|r|s|items IH|ms IH] using json_induction; try done; cbn [canon json_depth]; f_equal.
  - f_equal. rewrite map_map. apply map_ext_in. intros x Hx. rewrite Forall_forall in IH. apply IH. by apply list_elem_of_In.
  - rewrite (list_max_perm _ (map (fun m => json_depth m.2) (map (fun m => (m.1, canon m.2)) ms))).
    2:{ apply Permutation_map, arrange_perm. }
    f_equal. rewrite map_map. apply map_ext_in. intros x Hx. rewrite Forall_forall in IH. apply IH. by apply list_elem_of_In.
Qed.

(** Every object of a canonical form lists its keys in strictly ascending
    unsigned byte order. *)
#[warnings="-register-all"]
Inductive key_sorted : json -> Prop :=
| ks_leaf j : match j with JArray _ | JObject _ => False | _ => True end -> key_sorted j
| ks_array items : Forall key_sorted items -> key_sorted (JArray items)
| ks_object ms :
    StronglySorted (fun a b => tamga_json_key_cmp a b < 0) ms.*1 -> Forall key_sorted ms.*2 ->
    key_sorted (JObject ms).

Lemma strict_sorted ks :
  NoDup ks -> Forall (fun k => ~ In 0 k) ks -> StronglySorted key_le ks ->
  StronglySorted (fun a b => tamga_json_key_cmp a b < 0) ks.
Proof.
  intros Hnd Hnul Hs. induction Hs as [|k ks Hs IH Hhd]; constructor.
  - apply IH; [by inversion Hnd|by inversion Hnul].
  - apply Forall_forall. intros k' Hk'. rewrite Forall_forall in Hhd. pose proof (Hhd k' Hk') as Hle.
    unfold key_le in Hle. destruct (Z.eq_dec (tamga_json_key_cmp k k') 0) as [E|]; [|lia].
    apply key_cmp_zero in E. rewrite Forall_forall in Hnul.
    rewrite !c_view_id in E by (apply Hnul; (apply list_elem_of_here || by apply list_elem_of_further)).
    subst k'. by inversion Hnd.
Qed.

Lemma canon_sorted j : printable j -> key_sorted (canon j).
Proof.
  induction j as [|b|z|r|s|items IH|ms IH] using json_induction; intros Hp; try (by constructor); cbn [canon].
  - inversion_clear Hp as [| | | | |? Hall|]. apply ks_array, Forall_fmap.
    eapply Forall_impl; [apply Forall_and; exact (conj IH Hall)|]. intros x [H1 H2]. by apply H1.
  - inversion_clear Hp as [| | | | | |? Hnd Hkeys Hall]. apply ks_object.
    + apply strict_sorted.
      * by rewrite arrange_perm, map_snd_fst.
      * rewrite arrange_perm, map_snd_fst. eapply Forall_impl; [exact Hkeys|]. by intros ? [_ ?].
      * pose proof (arrange_sorted (map (fun m => (m.1, canon m.2)) ms)) as Hs.
        apply Sorted_StronglySorted in Hs; [|intros a b c; apply key_le_trans].
        induction Hs as [|m l Hs IHs Hhd]; [constructor|]. rewrite fmap_cons. constructor; [done|].
        by apply Forall_fmap.
    + rewrite arrange_perm, map_snd_snd. apply Forall_fmap. rewrite Forall_fmap in Hall |- *.
      eapply Forall_impl; [apply Forall_and; exact (conj IH Hall)|]. intros x [H1 H2]. by apply H1.
Qed.

(** Trees that differ only in the order of members, at any level. *)
#[warnings="-register-all"]
Inductive jperm : json -> json -> Prop :=
| jp_refl j : jperm j j
| jp_array xs ys : Forall2 jperm xs ys -> jperm (JArray xs) (JArray ys)
| jp_object xs zs ys :
    Forall2 (fun x z => x.1 = z.1 /\ jperm x.2 z.2) xs zs -> zs ≡ₚ ys -> jperm (JObject xs) (JObject ys).

(** The canonical text does not see the order of members. *)
Lemma print_canonical_perm j1 j2 :
  json_wf j1 -> jperm j1 j2 -> print true j1 = print true j2.
Proof.
  revert j2. induction j1 as [|b|z|r|s|items IH|ms IH] using json_induction; intros j2 Hwf Hp;
    try (inversion Hp; by subst).
  - inversion Hp as [|? ys Hall|]; subst; [done|]. cbn [print]. do 3 f_equal.
    inversion_clear Hwf as [| | | | |? Hw|]. clear Hp. revert ys Hall.
    induction items as [|x items IHi]; intros ys Hall; inversion_clear Hall as [|? y ? ys' Hxy Hrest]; [done|].
    apply Forall_cons_1 in IH as [IHx IH]. apply Forall_cons_1 in Hw as [Hwx Hw]. cbn [map]. f_equal; auto.
  - inversion Hp as [| |? zs ys Hall Hperm]; subst; [done|]. cbn [print]. do 3 f_equal.
    inversion_clear Hwf as [| | | | | |? Hnd Hkeys Hw]. clear Hp. f_equal.
    assert (map (fun m => (m.1, print true m.2)) ms = map (fun m => (m.1, print true m.2)) zs) as Heq.
    { clear Hnd Hkeys Hperm. revert zs Hall. induction ms as [|x ms IHm]; intros zs Hall;
        inversion_clear Hall as [|? z ? zs' [Hk Hxz] Hrest]; [done|].
      apply Forall_cons_1 in IH as [IHx IH]. rewrite fmap_cons in Hw. apply Forall_cons_1 in Hw as [Hwx Hw].
      cbn [map]. rewrite Hk. f_equal; [f_equal; auto|auto]. }
    rewrite Heq. apply arrange_unique.
    + rewrite <- Heq, map_snd_fst. done.
    + rewrite <- Heq, map_snd_fst. eapply Forall_impl; [exact Hkeys|]. by intros ? [? _].
    + by apply Permutation_map.
Qed.

(** ** Sizes and bytes of the text *)

Lemma comma_join_length l x : In x l -> (length x <= length (comma_join l))%nat.
Proof.
  induction l as [|y l IH]; [done|]. intros Hin.
  assert (comma_join (y :: l) = y ++ match l with [] => [] | _ => 44 :: comma_join l end) as ->.
  { destruct l; simpl; [by rewrite app_nil_r|done]. }
  rewrite length_app. destruct Hin as [->|Hin]; [lia|]. specialize (IH Hin). destruct l; [done|]. simpl in *. lia.
Qed.

Lemma comma_join_count l : Forall (fun x => 1 <= length x)%nat l -> (length l <= length (comma_join l))%nat.
Proof.
  induction 1 as [|y l Hy Hl IH]; [done|]. destruct l as [|z l]; [simpl in *; lia|].
  change (comma_join (y :: z :: l)) with (y ++ 44 :: comma_join (z :: l)). rewrite length_app. simpl in *. lia.
Qed.

Lemma print_small limit canonical j :
  8 * zlen (print canonical j) <= limit -> json_small (limit := limit) j.
Proof.
  induction j as [|b|z|r|s|items IH|ms IH] using json_induction; intros Hs; try (by constructor); cbn [print] in Hs.
  - apply small_array. apply Forall_forall. intros x Hx. rewrite Forall_forall in IH. apply (IH x Hx).
    assert (In (print canonical x) (map (print canonical) items)) as Hin by (by apply in_map, list_elem_of_In).
    apply comma_join_length in Hin. len_norm. lia.
  - set (texts := map (fun m => (m.1, print canonical m.2)) ms) in *.
    assert (length (arrange canonical texts) = length ms) as Hlen.
    { rewrite (Permutation_length (arrange_perm canonical texts)). subst texts. by rewrite length_map. }
    apply small_object.
    + assert (length (map member_text (arrange canonical texts)) <=
              length (comma_join (map member_text (arrange canonical texts))))%nat as Hc.
      { apply comma_join_count. apply Forall_fmap, Forall_forall. intros x _. unfold member_text, quoted. simpl. lia. }
      rewrite length_map, Hlen in Hc. len_norm. lia.
    + apply Forall_forall. intros x Hx. rewrite Forall_forall in IH. apply (IH x Hx).
      assert (In (member_text (x.1, print canonical x.2)) (map member_text (arrange canonical texts))) as Hin.
      { apply in_map. apply list_elem_of_In. rewrite arrange_perm. subst texts.
        apply list_elem_of_In. apply (in_map (fun m => (m.1, print canonical m.2))). by apply list_elem_of_In. }
      apply comma_join_length in Hin. unfold member_text at 1 in Hin. cbn [fst snd] in Hin. len_norm. lia.
Qed.

Lemma escape_no_nul s : bytes_ok s -> ~ In 0 (escape s).
Proof.
  induction 1 as [|c s Hc _ IH]; [by intros []|]. change (escape (c :: s)) with (escape_char c ++ escape s).
  rewrite in_app_iff. intros [H|H]; [|done].
  pose proof (below_forallb 256 (fun c => negb (existsb (Z.eqb 0) (escape_char c))) eq_refl c Hc) as Hn.
  apply negb_true_iff in Hn. assert (existsb (Z.eqb 0) (escape_char c) = true) as He; [|congruence].
  apply existsb_exists. by exists 0.
Qed.

Lemma utf8_text_bytes s : utf8_text s -> bytes_ok s.
Proof. induction 1; [constructor|]. apply Forall_app. split; [by apply utf8_bytes_ok|done]. Qed.

Lemma quoted_no_nul s : bytes_ok s -> ~ In 0 (quoted s).
Proof.
  intros H. unfold quoted. intros [|Hin]; [done|]. rewrite in_app_iff in Hin.
  destruct Hin as [Hin|[|[]]]; [|done]. by apply (escape_no_nul s).
Qed.

Lemma forallb_dec_no_nul l : forallb is_dec l = true -> ~ In 0 l.
Proof. rewrite forallb_forall. intros H Hin. specialize (H 0 Hin). done. Qed.

Lemma num_text_no_nul k : num_ok k -> ~ In 0 (num_text k).
Proof.
  intros ([_ Hi] & _ & Hf & Hx). unfold num_text. rewrite !in_app_iff. intros [H|[H|[H|H]]].
  - destruct (n_neg k); simpl in H; [by destruct H|done].
  - by apply forallb_dec_no_nul in Hi.
  - destruct (n_frac k) as [ds|]; [|done]. destruct H as [|H]; [done|]. destruct Hf as [_ Hf].
    by apply forallb_dec_no_nul in Hf.
  - destruct (n_exp k) as [[[c sg] ds]|]; [|done]. destruct Hx as (Hc & Hs & _ & Hd). simpl in H.
    destruct H as [H|H]; [lia|]. apply in_app_iff in H as [H|H]; [|by apply forallb_dec_no_nul in Hd].
    destruct sg; [|done]. destruct H as [H|[]]. lia.
Qed.

Lemma comma_join_no_nul l : Forall (fun x => ~ In 0 x) l -> ~ In 0 (comma_join l).
Proof.
  induction 1 as [|x l Hx _ IH]; [by intros []|]. destruct l as [|y l]; [done|].
  change (comma_join (x :: y :: l)) with (x ++ 44 :: comma_join (y :: l)). rewrite in_app_iff.
  intros [?|[?|?]]; done.
Qed.

(** Trees whose strings and keys are byte strings. *)
#[warnings="-register-all"]
Inductive json_bytes : json -> Prop :=
| jb_leaf j : match j with JString s => bytes_ok s | JArray _ | JObject _ => False | _ => True end -> json_bytes j
| jb_array items : Forall json_bytes items -> json_bytes (JArray items)
| jb_object ms : Forall (fun m => bytes_ok m.1 /\ json_bytes m.2) ms -> json_bytes (JObject ms).

Lemma printable_bytes j : printable j -> json_bytes j.
Proof.
  induction j as [|b|z|r|s|items IH|ms IH] using json_induction; intros Hp; try (by constructor).
  - inversion_clear Hp. constructor. by apply utf8_text_bytes.
  - inversion_clear Hp as [| | | | |? Hall|]. apply jb_array. rewrite Forall_forall in *. auto.
  - inversion_clear Hp as [| | | | | |? Hnd Hkeys Hall]. apply jb_object. rewrite Forall_fmap in Hall. rewrite Forall_fmap in Hkeys.
    rewrite Forall_forall in *. intros m Hm. split; [apply utf8_text_bytes, (Hkeys m Hm)|by apply IH, Hall].
Qed.

Lemma comma_text_no_nul open close l :
  0 < open -> 0 < close -> Forall (fun x => ~ In 0 x) l -> ~ In 0 (open :: comma_join l ++ [close]).
Proof.
  intros Ho Hc Hl [|Hin]; [lia|]. apply in_app_iff in Hin as [Hin|[|[]]]; [|lia]. by apply comma_join_no_nul in Hin.
Qed.

Lemma print_no_nul canonical j : json_bytes j -> ~ In 0 (print canonical j).
Proof.
  induction j as [|b|z|r|s|items IH|ms IH] using json_induction; intros Hp; cbn [print].
  - by vm_compute; intuition.
  - destruct b; by vm_compute; intuition.
  - rewrite fmt_dec_num. apply num_text_no_nul, int_num_ok.
  - destruct (double_text r) as [t|] eqn:Ht; cbn [from_option id default]; [|by vm_compute; intuition].
    apply double_text_num in Ht as (k & Hk & <- & _). by apply num_text_no_nul.
  - inversion_clear Hp. by apply quoted_no_nul.
  - inversion_clear Hp as [? Hl|? Hall|]; [done|]. apply comma_text_no_nul; [lia..|]. apply Forall_fmap.
    rewrite Forall_forall in *. intros x Hx. by apply IH, Hall.
  - inversion_clear Hp as [? Hl| |? Hall]; [done|]. apply comma_text_no_nul; [lia..|]. apply Forall_fmap.
    rewrite arrange_perm. apply Forall_fmap. rewrite Forall_forall in *. intros m Hm. destruct (Hall m Hm) as [Hk Hv].
    unfold member_text. cbn [fst snd compose]. rewrite in_app_iff. intros [Hin|[Hin|Hin]]; [|lia|by eapply IH].
    apply quoted_no_nul in Hin; [done|]. by apply c_view_bytes.
Qed.

(** ** The theorems *)

Section WriteAny.
Context {malloc : Malloc}.

Lemma write_impl_post j canonical :
  post (tamga_json_write_impl (Some j) canonical) (fun r => match r with None => True | Some t => t = print canonical j end).
Proof.
  eapply post_bind; [apply write_value_refines, buf_init_wf|]. intros b [Hwf Hap].
  eapply post_bind; [by apply detach_string_post|]. intros [[t|] b'] Ht; apply post_ret; [|done].
  destruct Ht as (Hf & -> & _). by destruct (Hap Hf) as [_ (? & [= <-] & ->)].
Qed.
End WriteAny.

(** (C28) Whatever the allocators do, the canonical serializer returns the same
    bytes for two trees that differ only in the order of object members. *)
Theorem write_canonical_deterministic (m1 m2 : Malloc) j1 j2 s1 s2 t1 t2 s1' s2' :
  json_wf j1 -> jperm j1 j2 ->
  tamga_json_write_canonical (malloc := m1) (Some j1) s1 = (Some t1, s1') ->
  tamga_json_write_canonical (malloc := m2) (Some j2) s2 = (Some t2, s2') ->
  t1 = t2.
Proof.
  intros Hwf Hp H1 H2.
  pose proof (post_run _ _ _ _ _ (write_impl_post j1 true) H1) as E1. cbn in E1.
  pose proof (post_run _ _ _ _ _ (write_impl_post j2 true) H2) as E2. cbn in E2.
  subst. by apply print_canonical_perm.
Qed.

Lemma write_canonical_deterministic_witness :
  let w1 := tamga_json_write_canonical (malloc := fun _ _ => true)
     (Some (JObject [(bstr "b", JNull); (bstr "a", JInt 1)])) (mk_st 0 None) in
  let w2 := tamga_json_write_canonical (malloc := fun n _ => n <? 9)%nat
     (Some (JObject [(bstr "a", JInt 1); (bstr "b", JNull)])) (mk_st 0 None) in
  default [] w1.1 = default [] w2.1.
Proof.
  intros w1 w2.
  apply (write_canonical_deterministic (fun _ _ => true) (fun n _ => (n <? 9)%nat)
    (JObject [(bstr "b", JNull); (bstr "a", JInt 1)]) (JObject [(bstr "a", JInt 1); (bstr "b", JNull)])
    (mk_st 0 None) (mk_st 0 None) (default [] w1.1) (default [] w2.1) w1.2 w2.2).
  - constructor.
    + repeat constructor; rewrite ?list_elem_of_In; vm_compute; intuition congruence.
    + repeat constructor; vm_compute; intuition congruence.
    + repeat constructor; vm_compute; congruence.
  - eapply jp_object with (zs := [(bstr "b", JNull); (bstr "a", JInt 1)]).
    + repeat constructor.
    + apply Permutation_swap.
  - vm_compute. reflexivity.
  - vm_compute. reflexivity.
Defined.

Section RoundTrip.
Context {malloc : Malloc}.

Lemma write_ok limit `{!MallocUpTo limit} j canonical :
  json_memory <= limit <= SIZE_MAX -> json_bytes j -> zlen (print canonical j) <= TAMGA_MAX_REASONABLE_LEN ->
  post (tamga_json_write_impl (Some j) canonical) (fun r => r = Some (print canonical j)).
Proof.
  intros Hl Hp Hlen. pose proof (limit64 Hl) as Hl64. unfold json_memory, TAMGA_MAX_REASONABLE_LEN in *.
  eapply post_bind.
  { apply post_and; [apply write_value_refines, buf_init_wf|].
    apply (write_value_fits Hl64 canonical j); [eapply (print_small limit canonical); lia| |reflexivity].
    apply buf_init_room. lia. }
  intros b [[Hwf Hap] Hr]. destruct (Hap (proj1 (proj2 Hr))) as [_ (? & [= <-] & Hb)]. cbn in Hb.
  eapply post_bind; [apply (detach_string_room Hl64); [done|]|].
  - rewrite Hb. by apply print_no_nul.
  - intros ? ->. apply post_ret. by rewrite Hb.
Qed.

(** (C10) With memory, writing never fails and parsing the text gives the
    tree back: the same tree after [tamga_json_write], its canonical form
    (the same members, strictly sorted at every level) after
    [tamga_json_write_canonical]. Trees are those of valid UTF-8 strings,
    distinct C-string keys, [int64_t] integers and finite doubles (all of them:
    the search for a text that reads back always ends well), nested no deeper
    than 64 levels and printed in no more than the 16 MiB that the parser
    reads. *)
Theorem json_roundtrip limit `{!MallocUpTo limit} j canonical s s' :
  json_memory <= limit <= SIZE_MAX -> printable j ->
  (json_depth j <= TAMGA_JSON_MAX_DEPTH)%nat -> zlen (print canonical j) <= TAMGA_MAX_REASONABLE_LEN ->
  exists text,
    (tamga_json_write_impl (Some j) canonical s).1 = Some text /\
    (tamga_json_parse (Some text) s').1 = inl (if canonical then canon j else j) /\
    key_sorted (canon j).
Proof.
  intros Hl Hp Hd Hlen. exists (print canonical j). split_and!; [by apply (write_ok limit), Hlen; [|apply printable_bytes]| |by apply canon_sorted].
  apply (document_complete Hl). split; [done|]. exists [], (print canonical j), []. rewrite app_nil_r.
  split_and!; try done. destruct canonical; [|by apply print_jval].
  rewrite print_canon. apply print_jval; [by apply canon_printable|by rewrite canon_depth].
Qed.
End RoundTrip.

Lemma json_roundtrip_witness :
  exists text,
    (tamga_json_write_impl (malloc := full_memory)
       (Some (JObject [(bstr "b", JArray [JReal (S754_finite false 6755399441055744 (-52)); JNull]);
                       (bstr "a", JInt (-7))])) true (mk_st 0 None)).1 = Some text /\
    (tamga_json_parse (malloc := full_memory) (Some text) (mk_st 0 None)).1 =
      inl (canon (JObject [(bstr "b", JArray [JReal (S754_finite false 6755399441055744 (-52)); JNull]);
                           (bstr "a", JInt (-7))])) /\
    key_sorted (canon (JObject [(bstr "b", JArray [JReal (S754_finite false 6755399441055744 (-52)); JNull]);
                                (bstr "a", JInt (-7))])).
Proof.
  assert (forall c l, 0 <= c < 128 -> utf8_text l -> utf8_text (c :: l)) as Hascii.
  { intros c l Hc Hl. assert (utf8 c = [c]) as Hu by (unfold utf8; by replace (c <? 128) with true by lia).
    pose proof (utf8_cons c l ltac:(unfold scalar; lia) Hl) as H. by rewrite Hu in H. }
  apply (json_roundtrip (malloc := full_memory) json_memory _ true).
  - vm_compute. split; congruence.
  - constructor.
    + repeat constructor; rewrite ?list_elem_of_In; vm_compute; intuition congruence.
    + change (Forall (fun k => utf8_text k /\ ~ In 0 k) [[98]; [97]]).
      apply Forall_cons; split; [|apply Forall_cons; split; [|constructor]];
        (split; [apply Hascii; [lia|constructor]|vm_compute; intuition congruence]).
    + repeat constructor; vm_compute; congruence.
  - vm_compute. lia.
  - vm_compute. congruence.
Defined.
