(* ===== verification/JsonSmall.v ===== *)
(** * How large the tree of a document can be

    A tree denoted by a document is no larger, node by node, than the document;
    so a clone of any part of it ([tamga_json_clone]) succeeds as soon as the
    allocator serves what parsing the document asked for. *)

From Stdlib Require Import String.
From S2P Require Import Prelude World Buf Json JsonParse Utf8 JsonString JsonNumber JsonGrammar JsonRoundtrip.
From stdpp Require Import list.
#[local] Open Scope Z_scope.

#[warnings="-register-all"]
Inductive json_small (n : Z) : json -> Prop :=
| sm_JNull : json_small n JNull
| sm_JBool b : json_small n (JBool b)
| sm_JInt z : json_small n (JInt z)
| sm_JReal r : json_small n (JReal r)
| sm_JString s : zlen s <= n -> json_small n (JString s)
| sm_JArray items : zlen items <= n -> Forall (json_small n) items -> json_small n (JArray items)
| sm_JObject ms :
    zlen ms <= n -> Forall (fun m => zlen m.1 <= n /\ json_small n m.2) ms -> json_small n (JObject ms).

Lemma json_small_mono n m j : n <= m -> json_small n j -> json_small m j.
Proof.
  intros Hle. induction j as [| | | | |items IH|ms IH] using json_induction; intros H; try constructor;
    inversion_clear H; try lia.
  - rewrite Forall_forall in *. auto.
  - rewrite Forall_forall in *. intros x Hx. match goal with H : forall _, _ -> _ /\ _ |- _ => destruct (H x Hx) end.
    split; [lia|auto].
Qed.

Lemma obj_set_small (P : bytes * json -> Prop) ms k v :
  Forall P ms -> P (k, v) -> Forall P (obj_set ms k v).
Proof.
  intros Hms Hkv. unfold obj_set. destruct (replace_member ms k v) as [ms'|] eqn:E; cbn [default from_option id].
  2:{ apply Forall_app. by repeat constructor. }
  revert ms' E Hms. induction ms as [|[k1 v1] ms IH]; intros ms' E Hms; simpl in E; [done|]. rewrite key_match in E.
  apply Forall_cons in Hms as [H1 Hms]. case_bool_decide.
  - injection E as <-. subst. by constructor.
  - destruct (replace_member ms k v) as [ms1|]; [|done]. injection E as <-. constructor; [done|]. by apply IH.
Qed.

Lemma build_members_small (P : bytes * json -> Prop) ms : Forall P ms -> Forall P (build_members ms).
Proof.
  induction ms as [|[k v] ms IH] using rev_ind; intros H; [constructor|].
  apply Forall_app in H as [H1 H2]. apply Forall_cons in H2 as [H2 _].
  rewrite build_members_app. apply obj_set_small; auto.
Qed.

Lemma grammar_small :
  (forall n j t, jval n j t -> json_small (zlen t) j) /\
  (forall n items t, jitems n items t -> zlen items <= zlen t /\ Forall (json_small (zlen t)) items) /\
  (forall n ms t, jmembers n ms t -> zlen ms <= zlen t /\
     Forall (fun m => zlen m.1 <= zlen t /\ json_small (zlen t) m.2) ms).
Proof.
  assert (forall a b items, a <= b -> Forall (json_small a) items -> Forall (json_small b) items) as Hitems.
  { intros a b items Hab H. apply (Forall_impl _ _ _ H). intros x. by apply json_small_mono. }
  assert (forall a b ms, a <= b -> Forall (fun m : bytes * json => zlen m.1 <= a /\ json_small a m.2) ms ->
    Forall (fun m => zlen m.1 <= b /\ json_small b m.2) ms) as Hms.
  { intros a b ms Hab H. apply (Forall_impl _ _ _ H). intros x [? ?]. split; [lia|by eapply json_small_mono]. }
  apply jval_mutind; intros; try (by constructor).
  - unfold num_json. destruct (_ && _); constructor.
  - pose proof (jstr_bytes d t ltac:(done)). constructor. simpl. rewrite length_app. lia.
  - destruct H1 as [? ?]. constructor; cbn [length]; rewrite !length_app; [lia|]. eapply Hitems; [|done]. simpl; lia.
  - destruct H1 as [? ?]. pose proof (build_members_length ms).
    constructor; cbn [length]; rewrite !length_app; [lia|]. apply build_members_small. eapply Hms; [|done]. simpl; lia.
  - rewrite !length_app. split; [|constructor; [eapply json_small_mono; [|done]; lia|constructor]].
    apply jval_head in H as (c & r & -> & _). simpl. lia.
  - destruct H4 as [? ?]. rewrite !length_app. cbn [length]. rewrite !length_app. split; [lia|]. constructor.
    + eapply json_small_mono; [|done]. lia.
    + eapply Hitems; [|done]. lia.
  - pose proof (jstr_bytes k kt ltac:(done)). cbn [length]. rewrite !length_app. cbn [length]. rewrite !length_app.
    cbn [length]. rewrite !length_app. split; [lia|]. constructor; [|constructor]. cbn [fst snd].
    split; [lia|]. eapply json_small_mono; [|done]. lia.
  - pose proof (jstr_bytes k kt ltac:(done)). destruct H8 as [? ?]. cbn [length]. rewrite !length_app. cbn [length].
    rewrite !length_app. cbn [length]. rewrite !length_app. cbn [length]. rewrite !length_app. split; [lia|].
    constructor; [|eapply Hms; [|done]; lia]. cbn [fst snd]. split; [lia|]. eapply json_small_mono; [|done]. lia.
Qed.

Lemma jtext_small j text : jtext j text -> json_small TAMGA_MAX_REASONABLE_LEN j.
Proof.
  intros (Hlen & w1 & t & w2 & -> & _ & _ & Hj). rewrite !length_app in Hlen.
  eapply json_small_mono; [|by eapply (proj1 grammar_small)]. lia.
Qed.

(** The strings of a document are byte strings. *)
Lemma jstr_bytes_ok d t : jstr d t -> bytes_ok d.
Proof.
  induction 1 as [|cp d t Hs _ _ _ _ IH|e b d t He _ IH|h cp d t _ Hs _ IH|h1 hi h2 lo d t _ Hhi _ Hlo _ IH]; [constructor| | | |].
  - apply Forall_app. split; [by apply utf8_bytes_ok|done].
  - constructor; [|done]. unfold short_escape in He. repeat (case_match; [injection He as <-; unfold is_byte; lia|]). done.
  - apply Forall_app. split; [by apply utf8_bytes_ok|done].
  - apply Forall_app. split; [apply utf8_bytes_ok; unfold scalar; lia|done].
Qed.

Lemma grammar_bytes :
  (forall n j t, jval n j t -> json_bytes j) /\
  (forall n items t, jitems n items t -> Forall json_bytes items) /\
  (forall n ms t, jmembers n ms t -> Forall (fun m => bytes_ok m.1 /\ json_bytes m.2) ms).
Proof.
  apply jval_mutind; intros; try (by apply jb_leaf).
  - unfold num_json. by destruct (_ && _); constructor.
  - constructor. by eapply jstr_bytes_ok.
  - apply jb_array. constructor.
  - by apply jb_array.
  - apply jb_object. constructor.
  - by apply jb_object, build_members_small.
  - by constructor; [|constructor].
  - by constructor.
  - constructor; [split; [by eapply jstr_bytes_ok|done]|constructor].
  - constructor; [split; [by eapply jstr_bytes_ok|done]|done].
Qed.

Lemma jtext_bytes j text : jtext j text -> json_bytes j.
Proof. intros (_ & w1 & t & w2 & _ & _ & _ & Hj). by eapply (proj1 grammar_bytes). Qed.

(** ** Cloning with memory *)

Section CloneOk.
Context {malloc : Malloc} {limit : Z} `{!MallocUpTo limit}.
Context (Hlimit : json_memory <= limit <= SIZE_MAX).
Abbreviation small := (json_small TAMGA_MAX_REASONABLE_LEN).

Lemma clone_items_ok items acc :
  Forall (fun x => post (tamga_json_clone x) (fun r => r = Some x)) items ->
  zlen acc + zlen items <= TAMGA_MAX_REASONABLE_LEN ->
  post (clone_items tamga_json_clone items (Some (JArray acc))) (fun r => r = Some (JArray (acc ++ items))).
Proof.
  revert acc. induction items as [|x items IH]; intros acc Hall Hlen; simpl.
  { apply post_ret. by rewrite app_nil_r. }
  apply Forall_cons in Hall as [Hx Hall]. cbn [length] in Hlen. eapply post_bind; [exact Hx|]. intros ? ->.
  eapply post_bind.
  { apply (array_append_ok (limit := limit)); unfold json_memory, TAMGA_MAX_REASONABLE_LEN in *; lia. }
  intros ? ->. specialize (IH (acc ++ [x]) Hall). rewrite <- app_assoc in IH. apply IH. rewrite length_app. simpl. lia.
Qed.

Lemma clone_members_ok ms acc :
  Forall (fun x => post (tamga_json_clone x.2) (fun r => r = Some x.2)) ms ->
  NoDup (acc ++ ms).*1 -> Forall (fun k => ~ In 0 k /\ zlen k <= TAMGA_MAX_REASONABLE_LEN) ms.*1 ->
  zlen acc + zlen ms <= TAMGA_MAX_REASONABLE_LEN ->
  post (clone_members tamga_json_clone ms (Some (JObject acc))) (fun r => r = Some (JObject (acc ++ ms))).
Proof.
  revert acc. induction ms as [|[k x] ms IH]; intros acc Hall Hnd Hks Hlen; simpl.
  { apply post_ret. by rewrite app_nil_r. }
  apply Forall_cons in Hall as [Hx Hall]. rewrite fmap_cons in Hks. apply Forall_cons in Hks as [[Hk Hkl] Hks].
  cbn [length fst snd] in *. eapply post_bind; [exact Hx|]. simpl in Hk, Hkl. intros ? ->.
  eapply post_bind.
  { apply (object_set_ok (limit := limit)); rewrite ?c_view_id by done;
      unfold json_memory, TAMGA_MAX_REASONABLE_LEN in *; lia. }
  rewrite c_view_id by done. rewrite obj_set_fresh.
  2:{ rewrite fmap_app in Hnd. apply NoDup_app in Hnd as (_ & Hd & _). intros Hin.
      apply (Hd k Hin). rewrite fmap_cons. apply list_elem_of_here. }
  intros ? ->. specialize (IH (acc ++ [(k, x)])). rewrite <- app_assoc in IH. apply IH; try done.
  rewrite length_app. simpl. lia.
Qed.

Lemma clone_ok j : json_wf j -> small j -> post (tamga_json_clone j) (fun r => r = Some j).
Proof.
  assert (64 <= limit) as H64 by (unfold json_memory in Hlimit; lia).
  induction j as [| | | |s|items IH|ms IH] using json_induction; intros Hwf Hsm;
    try (by apply (new_ok (limit := limit))).
  - inversion_clear Hsm. apply (new_string_ok (limit := limit)); unfold json_memory, TAMGA_MAX_REASONABLE_LEN in *; lia.
  - inversion_clear Hwf as [| | | | |? Hw|]. inversion_clear Hsm as [| | | | |? Hl Hs|]. simpl.
    eapply post_bind; [by apply (new_ok (limit := limit))|]. intros ? ->. apply (clone_items_ok items []); [|simpl; lia].
    rewrite Forall_forall in *. intros x Hx. auto.
  - inversion_clear Hwf as [| | | | | |? Hnd Hk Hw]. inversion_clear Hsm as [| | | | | |? Hl Hs]. simpl.
    eapply post_bind; [by apply (new_ok (limit := limit))|]. intros ? ->.
    apply (clone_members_ok ms []); [|done|done|simpl; lia].
    rewrite Forall_forall in *. intros x Hx. apply IH; [done| |by apply Hs].
    rewrite Forall_fmap, Forall_forall in Hw. by apply Hw.
Qed.
End CloneOk.
