(* ===== verification/Sha2.v ===== *)
(** * SHA-256 and SHA-512: [src/src/crypto/sha256.c], [src/src/crypto/sha512.c]

    Both files are the same streaming engine around a compression function: the
    engine is [Section Stream], instantiated twice. The context is passed by
    value; [block] is the whole block array, of which the first [block_len]
    bytes are message. [w], the message schedule, is a list that grows. *)

From Stdlib Require Import String.
From S2P Require Import Prelude.
#[local] Open Scope Z_scope.

(** ** The compression functions *)

(** A table row written as one number: its [count] words of [bits] bits, most
    significant first. *)
Fixpoint row_words (bits : Z) (count : nat) (row : Z) : list Z :=
  match count with
  | O => []
  | S c => Z.shiftr row (bits * Z.of_nat c) mod 2 ^ bits :: row_words bits c row
  end.

Definition TAMGA_SHA256_K : list Z := Eval vm_compute in
  flat_map (row_words 32 8)
    [0x428a2f9871374491b5c0fbcfe9b5dba53956c25b59f111f1923f82a4ab1c5ed5;
     0xd807aa9812835b01243185be550c7dc372be5d7480deb1fe9bdc06a7c19bf174;
     0xe49b69c1efbe47860fc19dc6240ca1cc2de92c6f4a7484aa5cb0a9dc76f988da;
     0x983e5152a831c66db00327c8bf597fc7c6e00bf3d5a7914706ca635114292967;
     0x27b70a852e1b21384d2c6dfc53380d13650a7354766a0abb81c2c92e92722c85;
     0xa2bfe8a1a81a664bc24b8b70c76c51a3d192e819d6990624f40e3585106aa070;
     0x19a4c1161e376c082748774c34b0bcb5391c0cb34ed8aa4a5b9cca4f682e6ff3;
     0x748f82ee78a5636f84c878148cc7020890befffaa4506cebbef9a3f7c67178f2].

Definition TAMGA_SHA512_K : list Z :=
  [0x428a2f98d728ae22; 0x7137449123ef65cd; 0xb5c0fbcfec4d3b2f; 0xe9b5dba58189dbbc;
   0x3956c25bf348b538; 0x59f111f1b605d019; 0x923f82a4af194f9b; 0xab1c5ed5da6d8118;
   0xd807aa98a3030242; 0x12835b0145706fbe; 0x243185be4ee4b28c; 0x550c7dc3d5ffb4e2;
   0x72be5d74f27b896f; 0x80deb1fe3b1696b1; 0x9bdc06a725c71235; 0xc19bf174cf692694;
   0xe49b69c19ef14ad2; 0xefbe4786384f25e3; 0xfc19dc68b8cd5b5; 0x240ca1cc77ac9c65;
   0x2de92c6f592b0275; 0x4a7484aa6ea6e483; 0x5cb0a9dcbd41fbd4; 0x76f988da831153b5;
   0x983e5152ee66dfab; 0xa831c66d2db43210; 0xb00327c898fb213f; 0xbf597fc7beef0ee4;
   0xc6e00bf33da88fc2; 0xd5a79147930aa725; 0x6ca6351e003826f; 0x142929670a0e6e70;
   0x27b70a8546d22ffc; 0x2e1b21385c26c926; 0x4d2c6dfc5ac42aed; 0x53380d139d95b3df;
   0x650a73548baf63de; 0x766a0abb3c77b2a8; 0x81c2c92e47edaee6; 0x92722c851482353b;
   0xa2bfe8a14cf10364; 0xa81a664bbc423001; 0xc24b8b70d0f89791; 0xc76c51a30654be30;
   0xd192e819d6ef5218; 0xd69906245565a910; 0xf40e35855771202a; 0x106aa07032bbd1b8;
   0x19a4c116b8d2d0c8; 0x1e376c085141ab53; 0x2748774cdf8eeb99; 0x34b0bcb5e19b48a8;
   0x391c0cb3c5c95a63; 0x4ed8aa4ae3418acb; 0x5b9cca4f7763e373; 0x682e6ff3d6b2b8a3;
   0x748f82ee5defb2fc; 0x78a5636f43172f60; 0x84c87814a1f0ab72; 0x8cc702081a6439ec;
   0x90befffa23631e28; 0xa4506cebde82bde9; 0xbef9a3f7b2c67915; 0xc67178f2e372532b;
   0xca273eceea26619c; 0xd186b8c721c0c207; 0xeada7dd6cde0eb1e; 0xf57d4f7fee6ed178;
   0x6f067aa72176fba; 0xa637dc5a2c898a6; 0x113f9804bef90dae; 0x1b710b35131c471b;
   0x28db77f523047d84; 0x32caab7b40c72493; 0x3c9ebe0a15c9bebc; 0x431d67c49c100d4c;
   0x4cc5d4becb3e42b6; 0x597f299cfc657e2a; 0x5fcb6fab3ad6faec; 0x6c44198c4a475817].

Definition tamga_rotr32 (value bits : Z) : Z :=
  Z.lor (Z.shiftr value bits) (u32 (Z.shiftl value (32 - bits))).

Definition tamga_rotr64 (value bits : Z) : Z :=
  Z.lor (Z.shiftr value bits) (u64 (Z.shiftl value (64 - bits))).

(** [~x] on the unsigned types. *)
Definition not32 (x : Z) : Z := Z.lxor x (2 ^ 32 - 1).
Definition not64 (x : Z) : Z := Z.lxor x (2 ^ 64 - 1).

(** [n] bytes, most significant first. *)
Fixpoint be_word (l : bytes) (acc : Z) : Z :=
  match l with
  | [] => acc
  | b :: l' => be_word l' (Z.lor (Z.shiftl acc 8) b)
  end.

(** The first loop: [w[0] .. w[15]] from the block, [n] bytes to a word. *)
Fixpoint load_words (count n : nat) (block : bytes) : list Z :=
  match count with
  | O => []
  | S c => be_word (take n block) 0 :: load_words c n (drop n block)
  end.

(** The second loop, [count] more words. *)
Fixpoint sha256_schedule (count : nat) (w : list Z) : list Z :=
  match count with
  | O => w
  | S c =>
      let i := length w in
      let x := nth (i - 15) w 0 in
      let y := nth (i - 2) w 0 in
      let s0 := Z.lxor (Z.lxor (tamga_rotr32 x 7) (tamga_rotr32 x 18)) (Z.shiftr x 3) in
      let s1 := Z.lxor (Z.lxor (tamga_rotr32 y 17) (tamga_rotr32 y 19)) (Z.shiftr y 10) in
      sha256_schedule c (w ++ [u32 (nth (i - 16) w 0 + s0 + nth (i - 7) w 0 + s1)])
  end.

Fixpoint sha512_schedule (count : nat) (w : list Z) : list Z :=
  match count with
  | O => w
  | S c =>
      let i := length w in
      let x := nth (i - 15) w 0 in
      let y := nth (i - 2) w 0 in
      let s0 := Z.lxor (Z.lxor (tamga_rotr64 x 1) (tamga_rotr64 x 8)) (Z.shiftr x 7) in
      let s1 := Z.lxor (Z.lxor (tamga_rotr64 y 19) (tamga_rotr64 y 61)) (Z.shiftr y 6) in
      sha512_schedule c (w ++ [u64 (nth (i - 16) w 0 + s0 + nth (i - 7) w 0 + s1)])
  end.

(** The working variables. *)
Record vars := mk_vars { va : Z; vb : Z; vc : Z; vd : Z; ve : Z; vf : Z; vg : Z; vh : Z }.

Definition sha256_round (v : vars) (kw : Z * Z) : vars :=
  let '(mk_vars a b c d e f g h) := v in
  let s1 := Z.lxor (Z.lxor (tamga_rotr32 e 6) (tamga_rotr32 e 11)) (tamga_rotr32 e 25) in
  let ch := Z.lxor (Z.land e f) (Z.land (not32 e) g) in
  let temp1 := u32 (h + s1 + ch + kw.1 + kw.2) in
  let s0 := Z.lxor (Z.lxor (tamga_rotr32 a 2) (tamga_rotr32 a 13)) (tamga_rotr32 a 22) in
  let maj := Z.lxor (Z.lxor (Z.land a b) (Z.land a c)) (Z.land b c) in
  let temp2 := u32 (s0 + maj) in
  mk_vars (u32 (temp1 + temp2)) a b c (u32 (d + temp1)) e f g.

Definition sha512_round (v : vars) (kw : Z * Z) : vars :=
  let '(mk_vars a b c d e f g h) := v in
  let s1 := Z.lxor (Z.lxor (tamga_rotr64 e 14) (tamga_rotr64 e 18)) (tamga_rotr64 e 41) in
  let ch := Z.lxor (Z.land e f) (Z.land (not64 e) g) in
  let temp1 := u64 (h + s1 + ch + kw.1 + kw.2) in
  let s0 := Z.lxor (Z.lxor (tamga_rotr64 a 28) (tamga_rotr64 a 34)) (tamga_rotr64 a 39) in
  let maj := Z.lxor (Z.lxor (Z.land a b) (Z.land a c)) (Z.land b c) in
  let temp2 := u64 (s0 + maj) in
  mk_vars (u64 (temp1 + temp2)) a b c (u64 (d + temp1)) e f g.

Definition tamga_sha256_compress (state : vars) (block : bytes) : vars :=
  let w := sha256_schedule 48 (load_words 16 4 block) in
  let '(mk_vars a b c d e f g h) := fold_left sha256_round (zip TAMGA_SHA256_K w) state in
  mk_vars (u32 (va state + a)) (u32 (vb state + b)) (u32 (vc state + c)) (u32 (vd state + d))
          (u32 (ve state + e)) (u32 (vf state + f)) (u32 (vg state + g)) (u32 (vh state + h)).

Definition tamga_sha512_compress (state : vars) (block : bytes) : vars :=
  let w := sha512_schedule 64 (load_words 16 8 block) in
  let '(mk_vars a b c d e f g h) := fold_left sha512_round (zip TAMGA_SHA512_K w) state in
  mk_vars (u64 (va state + a)) (u64 (vb state + b)) (u64 (vc state + c)) (u64 (vd state + d))
          (u64 (ve state + e)) (u64 (vf state + f)) (u64 (vg state + g)) (u64 (vh state + h)).

(** ** The streaming engine *)

(** [memcpy(&block[off], data, len)] *)
Definition put (block : bytes) (off : nat) (data : bytes) : bytes :=
  take off block ++ data ++ drop (off + length data) block.

(** [n] big-endian bytes of [x]. *)
Fixpoint be_bytes (n : nat) (x : Z) : bytes :=
  match n with
  | O => []
  | S k => u8 (Z.shiftr x (8 * Z.of_nat k)) :: be_bytes k x
  end.

Record sha_ctx := mk_ctx {
  ctx_state : vars;
  ctx_total : Z;
  ctx_block : bytes;
  ctx_len : nat;
}.

Section Stream.
Variables (compress : vars -> bytes -> vars) (iv : vars).
(** The block length, the size of the length field, the size of a word. *)
Variables (blk lenfield word : nat).

Definition sha_init : sha_ctx := mk_ctx iv 0 (replicate blk 0) 0.

(** The [while] loop over whole blocks of the input, and what is left. *)
Fixpoint sha_blocks (fuel : nat) (state : vars) (data : bytes) : vars * bytes :=
  match fuel with
  | O => (state, data)
  | S f => if (blk <=? length data)%nat
           then sha_blocks f (compress state (take blk data)) (drop blk data)
           else (state, data)
  end.

(** [data] is [None] for a null pointer: with a non-zero length the update is
    refused, with length 0 it changes nothing. *)
Definition sha_update (ctx : sha_ctx) (data : option bytes) : sha_ctx :=
  match data with
  | None => ctx
  | Some data =>
      let total := u64 (ctx_total ctx + zlen data) in
      let rest state block data :=
        let '(state, data) := sha_blocks (length data) state data in
        match data with
        | [] => mk_ctx state total block 0
        | _ => mk_ctx state total (put block 0 data) (length data)
        end in
      if (0 <? ctx_len ctx)%nat then
        let needed := (blk - ctx_len ctx)%nat in
        let n := Nat.min (length data) needed in
        let block := put (ctx_block ctx) (ctx_len ctx) (take n data) in
        let block_len := (ctx_len ctx + n)%nat in
        if (block_len <? blk)%nat then mk_ctx (ctx_state ctx) total block block_len
        else rest (compress (ctx_state ctx) block) block (drop n data)
      else rest (ctx_state ctx) (ctx_block ctx) data
  end.

(** The digest; the context is wiped. *)
Definition sha_final (ctx : sha_ctx) : bytes :=
  let bit_len := u64 (ctx_total ctx * 8) in
  let block := put (ctx_block ctx) (ctx_len ctx) [128] in
  let block_len := S (ctx_len ctx) in
  let '(state, block, block_len) :=
    if (blk - lenfield <? block_len)%nat then
      (compress (ctx_state ctx) (put block block_len (replicate (blk - block_len) 0)), 
       put block block_len (replicate (blk - block_len) 0), 0%nat)
    else (ctx_state ctx, block, block_len) in
  let block := put block block_len (replicate (blk - 8 - block_len) 0) in
  let block := put block (blk - 8) (be_bytes 8 bit_len) in
  let '(mk_vars a b c d e f g h) := compress state block in
  concat (map (be_bytes word) [a; b; c; d; e; f; g; h]).
End Stream.

(** ** The two hash functions *)

Definition TAMGA_SHA256_DIGEST_LEN : nat := 32.
Definition TAMGA_SHA256_BLOCK_LEN : nat := 64.
Definition TAMGA_SHA512_DIGEST_LEN : nat := 64.
Definition TAMGA_SHA512_BLOCK_LEN : nat := 128.

Definition sha256_iv : vars :=
  mk_vars 0x6a09e667 0xbb67ae85 0x3c6ef372 0xa54ff53a 0x510e527f 0x9b05688c 0x1f83d9ab 0x5be0cd19.
Definition sha512_iv : vars :=
  mk_vars 0x6a09e667f3bcc908 0xbb67ae8584caa73b 0x3c6ef372fe94f82b 0xa54ff53a5f1d36f1
          0x510e527fade682d1 0x9b05688c2b3e6c1f 0x1f83d9abfb41bd6b 0x5be0cd19137e2179.

Definition tamga_sha256_init : sha_ctx := sha_init sha256_iv TAMGA_SHA256_BLOCK_LEN.
Definition tamga_sha256_update : sha_ctx -> option bytes -> sha_ctx :=
  sha_update tamga_sha256_compress TAMGA_SHA256_BLOCK_LEN.
Definition tamga_sha256_final : sha_ctx -> bytes :=
  sha_final tamga_sha256_compress TAMGA_SHA256_BLOCK_LEN 8 4.
Definition tamga_sha256 (data : option bytes) : bytes :=
  tamga_sha256_final (tamga_sha256_update tamga_sha256_init data).

Definition tamga_sha512_init : sha_ctx := sha_init sha512_iv TAMGA_SHA512_BLOCK_LEN.
Definition tamga_sha512_update : sha_ctx -> option bytes -> sha_ctx :=
  sha_update tamga_sha512_compress TAMGA_SHA512_BLOCK_LEN.
Definition tamga_sha512_final : sha_ctx -> bytes :=
  sha_final tamga_sha512_compress TAMGA_SHA512_BLOCK_LEN 16 8.
Definition tamga_sha512 (data : option bytes) : bytes :=
  tamga_sha512_final (tamga_sha512_update tamga_sha512_init data).

(** FIPS 180-4 examples. *)
Example sha256_abc :
  tamga_sha256 (Some (bstr "abc")) =
  be_bytes 32 0xba7816bf8f01cfea414140de5dae2223b00361a396177a9cb410ff61f20015ad.
Proof. vm_compute. reflexivity. Qed.

Example sha256_two_blocks :
  tamga_sha256 (Some (bstr "abcdbcdecdefdefgefghfghighijhijkijkljklmklmnlmnomnopnopq")) =
  be_bytes 32 0x248d6a61d20638b8e5c026930c3e6039a33ce45964ff2167f6ecedd419db06c1.
Proof. vm_compute. reflexivity. Qed.

Example sha512_abc :
  tamga_sha512 (Some (bstr "abc")) =
  be_bytes 64 0xddaf35a193617abacc417349ae20413112e6fa4e89a97ea20a9eeee64b55d39a2192992a274fc1a836ba3c23a3feebbd454d4423643ce80e2a9ac94fa54ca49f.
Proof. vm_compute. reflexivity. Qed.

(** ** Streaming equals hashing the padded message *)

Lemma be_bytes_length n x : length (be_bytes n x) = n.
Proof. induction n as [|n IH]; simpl; lia. Qed.

Section StreamSpec.
Variables (compress : vars -> bytes -> vars) (iv : vars) (blk lenfield word : nat).
Hypothesis Hblk : (8 <= lenfield < blk)%nat.

Abbreviation blocks := (sha_blocks compress blk).

(** The compression function over the whole blocks of a text. *)
Definition md_fold (state : vars) (l : bytes) : vars := (blocks (length l) state l).1.

(** The padding of FIPS 180-4: a one bit, zeros up to a length field of
    [lenfield] bytes at the end of a block, the length in bits. *)
Definition sha_pad (msg : bytes) : bytes :=
  msg ++ [128] ++
  replicate (Z.to_nat ((- (zlen msg + 1 + Z.of_nat lenfield)) mod Z.of_nat blk) + (lenfield - 8)) 0 ++
  be_bytes 8 (u64 (zlen msg * 8)).

Definition digest (v : vars) : bytes :=
  let '(mk_vars a b c d e f g h) := v in concat (map (be_bytes word) [a; b; c; d; e; f; g; h]).

Definition sha_spec (msg : bytes) : bytes := digest (md_fold iv (sha_pad msg)).

Lemma blocks_fuel f1 f2 s l :
  (length l <= f1)%nat -> (length l <= f2)%nat -> blocks f1 s l = blocks f2 s l.
Proof.
  revert f2 s l. induction f1 as [|f1 IH]; intros [|f2] s l H1 H2; simpl;
    try (destruct (Nat.leb_spec blk (length l)); [lia|done]); try done.
  destruct (Nat.leb_spec blk (length l)); [|done]. apply IH; rewrite length_drop; lia.
Qed.

Lemma blocks_step s l :
  (blk <= length l)%nat ->
  blocks (length l) s l = blocks (length (drop blk l)) (compress s (take blk l)) (drop blk l).
Proof.
  intros H. destruct (length l) as [|n] eqn:E; [lia|]. cbn [sha_blocks].
  rewrite E. rewrite (proj2 (Nat.leb_le _ _)) by lia. apply blocks_fuel; rewrite length_drop; lia.
Qed.

Lemma blocks_short s l : (length l < blk)%nat -> blocks (length l) s l = (s, l).
Proof.
  intros H. destruct l as [|x l]; [done|]. cbn [length sha_blocks] in *. rewrite (proj2 (Nat.leb_gt _ _)) by (simpl; lia). done.
Qed.

(** Whole blocks can be split off the front. *)
Lemma blocks_app k a b s :
  length a = (k * blk)%nat -> blocks (length (a ++ b)) s (a ++ b) = blocks (length b) (md_fold s a) b.
Proof.
  revert a s. induction k as [|k IH]; intros a s Ha.
  - destruct a; [|simpl in Ha; lia]. unfold md_fold. rewrite (blocks_short s []) by (simpl; lia). done.
  - simpl in Ha. unfold md_fold. rewrite (blocks_step s (a ++ b)) by (rewrite length_app; lia).
    rewrite (blocks_step s a) by lia. rewrite take_app_le, drop_app_le by lia.
    change ((blocks (length (drop blk a)) ?s (drop blk a)).1) with (md_fold s (drop blk a)).
    apply IH. rewrite length_drop. lia.
Qed.

Lemma md_fold_app k a b s :
  length a = (k * blk)%nat -> md_fold s (a ++ b) = md_fold (md_fold s a) b.
Proof. intros H. unfold md_fold at 1. rewrite (blocks_app k) by done. done. Qed.

Lemma md_fold_block s l : length l = blk -> md_fold s l = compress s l.
Proof.
  intros H. unfold md_fold. rewrite blocks_step by lia. rewrite take_ge, drop_ge by lia.
  rewrite blocks_short by (simpl; lia). done.
Qed.

(** What is left after the whole blocks is shorter than a block. *)
Lemma blocks_rest s l :
  exists k a, l = a ++ (blocks (length l) s l).2 /\ length a = (k * blk)%nat /\
    (blocks (length l) s l).1 = md_fold s a /\ (length (blocks (length l) s l).2 < blk)%nat.
Proof.
  remember (length l) as n eqn:Hn. revert s l Hn. induction (lt_wf n) as [n _ IH]; intros s l ->.
  destruct (Nat.leb_spec blk (length l)) as [Hb|Hb].
  - rewrite blocks_step by done. set (s1 := compress s (take blk l)).
    destruct (IH (length (drop blk l))) with (s := s1) (l := drop blk l) as (k & a & Hl & Ha & Hs & Hr);
      [rewrite length_drop; lia|done|].
    exists (S k), (take blk l ++ a). split_and!.
    + rewrite <- app_assoc, <- Hl. by rewrite take_drop.
    + rewrite length_app, length_take, Ha. lia.
    + assert (length (take blk l) = blk) as Htk by (rewrite length_take; lia).
      rewrite Hs, (md_fold_app 1) by lia. by rewrite (md_fold_block s (take blk l)).
    + done.
  - rewrite blocks_short by done. exists 0%nat, []. split_and!; try done.
Qed.

(** The context after absorbing [msg]. *)
Definition absorbed (ctx : sha_ctx) (msg : bytes) : Prop :=
  exists k full tail, msg = full ++ tail /\ length full = (k * blk)%nat /\ (length tail < blk)%nat /\
    ctx_state ctx = md_fold iv full /\ ctx_len ctx = length tail /\
    take (length tail) (ctx_block ctx) = tail /\ length (ctx_block ctx) = blk /\
    ctx_total ctx = u64 (zlen msg).

Lemma absorbed_init : absorbed (sha_init iv blk) [].
Proof.
  exists 0%nat, [], []. split_and!; try done; try (simpl; lia). simpl. by rewrite length_replicate.
Qed.

Lemma put_length b off d : (off + length d <= length b)%nat -> length (put b off d) = length b.
Proof. intros. unfold put. rewrite !length_app, length_take, length_drop. lia. Qed.

Lemma put_prefix b off d : (off <= length b)%nat -> take (off + length d) (put b off d) = take off b ++ d.
Proof.
  intros. unfold put. rewrite app_assoc. rewrite take_app_length'; [done|]. rewrite length_app, length_take. lia.
Qed.

Lemma absorbed_update ctx msg d :
  absorbed ctx msg -> absorbed (sha_update compress blk ctx (Some d)) (msg ++ d).
Proof.
  intros (k & full & tail & -> & Hfull & Htail & Hst & Hlen & Hblock & Hbl & Htot).
  assert (u64 (ctx_total ctx + zlen d) = u64 (zlen ((full ++ tail) ++ d))) as Htot'.
  { rewrite Htot. unfold u64. rewrite Zplus_mod_idemp_l. f_equal. rewrite !length_app. lia. }
  (* the common tail of the function, from a block boundary *)
  assert (forall k1 full1 st block data total, length full1 = (k1 * blk)%nat -> st = md_fold iv full1 ->
    length block = blk -> total = u64 (zlen (full1 ++ data)) ->
    absorbed (let '(state, data) := blocks (length data) st data in
              match data with
              | [] => mk_ctx state total block 0
              | _ => mk_ctx state total (put block 0 data) (length data)
              end) (full1 ++ data)) as Hrest.
  { intros k1 full1 st block data total Hf1 -> Hb1 ->.
    destruct (blocks_rest (md_fold iv full1) data) as (k2 & a & Hd & Ha & Hs & Hr).
    destruct (blocks (length data) (md_fold iv full1) data) as [st2 d2]. cbn [fst snd] in *. subst st2.
    assert (forall block2, take (length d2) block2 = d2 -> length block2 = blk ->
      absorbed (mk_ctx (md_fold (md_fold iv full1) a) (u64 (zlen (full1 ++ data))) block2 (length d2)) (full1 ++ data)) as Hfin.
    { intros block2 H1 H2. exists (k1 + k2)%nat, (full1 ++ a), d2. cbn. split_and!; try done.
      - rewrite Hd at 1. by rewrite app_assoc.
      - rewrite length_app. lia.
      - by rewrite (md_fold_app k1). }
    destruct d2 as [|x d2].
    - by apply (Hfin block).
    - apply Hfin; [|by rewrite put_length by (simpl in *; lia)].
      change (length (x :: d2)) with (0 + length (x :: d2))%nat. rewrite put_prefix by lia. done. }
  unfold sha_update. rewrite Htot', Hlen. destruct (Nat.ltb_spec 0 (length tail)) as [Hpos|Hzero].
  - remember (Nat.min (length d) (blk - length tail)) as n eqn:Hmin.
    assert (length (take n d) = n) as Hn by (rewrite length_take; lia).
    set (block := put (ctx_block ctx) (length tail) (take n d)).
    assert (take (length tail + n) block = tail ++ take n d) as Hpre.
    { rewrite <- Hn at 1. subst block. rewrite put_prefix by lia. by rewrite Hblock. }
    assert (length block = blk) as Hbl2 by (subst block; rewrite put_length; rewrite ?Hn; lia).
    destruct (Nat.ltb_spec (length tail + n) blk) as [Hlt|Hge].
    + assert (n = length d) as Hnd by lia. rewrite (take_ge d n) in Hpre by lia. rewrite Hnd in *.
      exists k, full, (tail ++ d). cbn. rewrite length_app. split_and!; try done.
      by rewrite app_assoc.
    + assert (block = tail ++ take n d) as Hblk2 by (rewrite <- Hpre, take_ge; [done|lia]).
      replace ((full ++ tail) ++ d) with ((full ++ block) ++ drop n d).
      2:{ rewrite Hblk2, <- !app_assoc. by rewrite take_drop. }
      apply (Hrest (k + 1)%nat).
      * rewrite length_app. lia.
      * by rewrite (md_fold_app k), md_fold_block, Hst by done.
      * done.
      * rewrite Hblk2, <- !app_assoc. by rewrite take_drop.
  - destruct tail; [|simpl in Hzero; lia]. rewrite app_nil_r in *. by apply (Hrest k).
Qed.

Lemma put_end b off d : (off + length d = length b)%nat -> put b off d = take off b ++ d.
Proof. intros H. unfold put. rewrite drop_ge by lia. by rewrite app_nil_r. Qed.

Lemma absorbed_final ctx msg :
  absorbed ctx msg -> sha_final compress blk lenfield word ctx = sha_spec msg.
Proof.
  intros (k & full & tail & -> & Hfull & Htail & Hst & Hlen & Hblock & Hbl & Htot).
  unfold sha_final, sha_spec, digest. rewrite Htot, Hlen.
  replace (u64 (u64 (zlen (full ++ tail)) * 8)) with (u64 (zlen (full ++ tail) * 8))
    by (unfold u64; by rewrite Zmult_mod_idemp_l).
  set (lenb := be_bytes 8 _). assert (length lenb = 8%nat) as Hlenb by apply be_bytes_length.
  set (b1 := put (ctx_block ctx) (length tail) [128]).
  assert (take (S (length tail)) b1 = tail ++ [128] /\ length b1 = blk) as [Hb1 Hb1l].
  { subst b1. split; [|rewrite put_length; simpl; lia].
    replace (S (length tail)) with (length tail + length [128%Z])%nat by (simpl; lia).
    rewrite put_prefix by lia. by rewrite Hblock. }
  (* the last block from a prefix that ends before the length field *)
  assert (forall b (n : nat), length b = blk -> (n <= blk - lenfield)%nat ->
    put (put b n (replicate (blk - 8 - n) 0)) (blk - 8) lenb = take n b ++ replicate (blk - 8 - n) 0 ++ lenb) as Hlast.
  { intros b n Hb Hn. rewrite put_end by (rewrite put_length; rewrite ?length_replicate; lia).
    replace (take (blk - 8) (put b n (replicate (blk - 8 - n) 0))) with
      (take (n + length (replicate (blk - 8 - n) 0)) (put b n (replicate (blk - 8 - n) 0)))
      by (f_equal; rewrite length_replicate; lia).
    rewrite put_prefix by lia. by rewrite app_assoc. }
  assert (sha_pad (full ++ tail) = full ++ tail ++ [128] ++
    replicate (Z.to_nat ((- (zlen tail + 1 + Z.of_nat lenfield)) mod Z.of_nat blk) + (lenfield - 8)) 0 ++ lenb) as Hpad.
  { unfold sha_pad. fold lenb. rewrite <- app_assoc. do 5 f_equal. rewrite length_app, Hfull.
    replace (- (Z.of_nat (k * blk + length tail) + 1 + Z.of_nat lenfield)) with
      (- (zlen tail + 1 + Z.of_nat lenfield) + (- Z.of_nat k) * Z.of_nat blk) by lia.
    by rewrite Z.mod_add by lia. }
  rewrite Hpad, (md_fold_app k), <- Hst by done.
  destruct (Nat.ltb_spec (blk - lenfield) (S (length tail))) as [Hlong|Hshort].
  - replace ((- (zlen tail + 1 + Z.of_nat lenfield)) mod Z.of_nat blk) with
      (2 * Z.of_nat blk - (zlen tail + 1 + Z.of_nat lenfield)).
    2:{ apply (Z.mod_unique_pos _ _ (-2)); lia. }
    set (b2 := put b1 (S (length tail)) (replicate (blk - S (length tail)) 0)).
    assert (b2 = tail ++ [128] ++ replicate (blk - S (length tail)) 0) as Hb2.
    { subst b2. rewrite put_end by (rewrite length_replicate; lia). by rewrite Hb1, <- app_assoc. }
    rewrite Hlast by (rewrite ?Hb2, ?length_app, ?length_replicate; simpl; lia).
    rewrite take_0. cbn [app].
    replace (tail ++ 128 :: replicate _ 0 ++ lenb) with (b2 ++ replicate (blk - 8 - 0) 0 ++ lenb).
    2:{ rewrite Hb2, <- app_assoc. cbn [app]. do 2 f_equal. rewrite app_assoc, <- replicate_add. do 2 f_equal. lia. }
    assert (length b2 = blk) by (rewrite Hb2, length_app; simpl; rewrite length_replicate; lia).
    rewrite (md_fold_app 1) by lia. rewrite (md_fold_block _ b2) by done.
    rewrite md_fold_block by (rewrite length_app, length_replicate; lia). done.
  - replace ((- (zlen tail + 1 + Z.of_nat lenfield)) mod Z.of_nat blk) with
      (Z.of_nat blk - (zlen tail + 1 + Z.of_nat lenfield)).
    2:{ apply (Z.mod_unique_pos _ _ (-1)); lia. }
    rewrite Hlast by (rewrite ?Hb1l; lia). rewrite Hb1.
    replace ((tail ++ [128]) ++ replicate (blk - 8 - S (length tail)) 0 ++ lenb) with
      (tail ++ [128] ++ replicate (Z.to_nat (Z.of_nat blk - (zlen tail + 1 + Z.of_nat lenfield)) + (lenfield - 8)) 0 ++ lenb).
    2:{ rewrite <- app_assoc. do 4 f_equal. lia. }
    rewrite md_fold_block; [done|]. rewrite !length_app, length_replicate. simpl. lia.
Qed.

(** *** The specification as FIPS 180-4 states it *)

(** The padded message and its blocks. *)
Definition fips_pad (msg : bytes) : bytes :=
  msg ++ [128] ++
  replicate (Z.to_nat ((- (zlen msg + 1 + Z.of_nat lenfield)) mod Z.of_nat blk)) 0 ++
  be_bytes lenfield (zlen msg * 8).

Definition message_blocks (l : bytes) : list bytes :=
  map (fun i => take blk (drop (i * blk) l)) (seq 0 (length l / blk)).

Definition fips_hash (msg : bytes) : bytes :=
  digest (fold_left compress (message_blocks (fips_pad msg)) iv).

Lemma message_blocks_cons l :
  (blk <= length l)%nat -> message_blocks l = take blk l :: message_blocks (drop blk l).
Proof.
  intros H. unfold message_blocks. rewrite length_drop.
  replace (length l / blk)%nat with (S ((length l - blk) / blk)).
  2:{ replace (length l) with (1 * blk + (length l - blk))%nat at 2 by lia.
      by rewrite Nat.div_add_l by lia. }
  cbn [seq map]. f_equal. rewrite <- seq_shift, map_map. apply map_ext. intros i.
  by rewrite drop_drop.
Qed.

Lemma md_fold_fold_left k s l :
  length l = (k * blk)%nat -> md_fold s l = fold_left compress (message_blocks l) s.
Proof.
  revert s l. induction k as [|k IH]; intros s l Hl.
  - destruct l; [|simpl in Hl; lia]. unfold message_blocks. simpl. rewrite Nat.Div0.div_0_l. done.
  - simpl in Hl. rewrite message_blocks_cons by lia. cbn [fold_left].
    rewrite <- IH by (rewrite length_drop; lia). unfold md_fold. rewrite blocks_step by lia. done.
Qed.

Lemma be_bytes_high n x : 0 <= x < 2 ^ 64 -> be_bytes (n + 8) x = replicate n 0 ++ be_bytes 8 x.
Proof.
  intros Hx. induction n as [|n IH]; [done|]. cbn [be_bytes replicate app Nat.add]. rewrite IH. f_equal.
  rewrite Z.shiftr_div_pow2 by lia. rewrite Z.div_small; [done|]. split; [lia|].
  apply Z.lt_le_trans with (2 ^ 64); [lia|]. apply Z.pow_le_mono_r; lia.
Qed.

Lemma sha_pad_fips msg : zlen msg < 2 ^ 61 -> sha_pad msg = fips_pad msg.
Proof.
  intros H. unfold sha_pad, fips_pad. replace lenfield with ((lenfield - 8) + 8)%nat at 4 by lia.
  rewrite be_bytes_high by lia. rewrite replicate_add, <- app_assoc. do 5 f_equal.
  unfold u64. rewrite Z.mod_small by lia. done.
Qed.

Lemma fips_pad_whole msg : exists k, length (fips_pad msg) = (k * blk)%nat.
Proof.
  unfold fips_pad. rewrite !length_app, length_replicate, be_bytes_length. simpl length.
  set (t := zlen msg + 1 + Z.of_nat lenfield). pose proof (Z.mod_pos_bound (- t) (Z.of_nat blk) ltac:(lia)).
  exists (Z.to_nat (- ((- t) / Z.of_nat blk))). pose proof (Z.div_mod (- t) (Z.of_nat blk) ltac:(lia)).
  assert (- t < Z.of_nat blk) by lia. assert ((- t) / Z.of_nat blk <= 0) by (apply Z.lt_succ_r, Z.div_lt_upper_bound; lia).
  apply Nat2Z.inj. rewrite Nat2Z.inj_mul. rewrite !Nat2Z.inj_add, !Z2Nat.id by lia. subst t. lia.
Qed.

Lemma fips_hash_spec msg : zlen msg < 2 ^ 61 -> sha_spec msg = fips_hash msg.
Proof.
  intros H. unfold sha_spec, fips_hash. rewrite sha_pad_fips by done.
  destruct (fips_pad_whole msg) as [k Hk]. by rewrite (md_fold_fold_left k).
Qed.

(** A null chunk adds nothing. *)
Definition chunk (c : option bytes) : bytes := default [] c.

Lemma absorbed_chunks chunks ctx msg :
  absorbed ctx msg ->
  absorbed (fold_left (sha_update compress blk) chunks ctx) (msg ++ concat (map chunk chunks)).
Proof.
  revert ctx msg. induction chunks as [|c chunks IH]; intros ctx msg H; simpl.
  - by rewrite app_nil_r.
  - rewrite app_assoc. apply IH. destruct c as [d|]; [by apply absorbed_update|]. simpl. by rewrite app_nil_r.
Qed.

Lemma stream_spec chunks :
  sha_final compress blk lenfield word (fold_left (sha_update compress blk) chunks (sha_init iv blk)) =
  sha_spec (concat (map chunk chunks)).
Proof. apply absorbed_final. apply (absorbed_chunks chunks _ []), absorbed_init. Qed.

Lemma fips_hash_length msg : length (fips_hash msg) = (8 * word)%nat.
Proof.
  unfold fips_hash, digest. destruct (fold_left _ _ _). simpl. rewrite !length_app, !be_bytes_length. simpl. lia.
Qed.
End StreamSpec.

(** ** What the two functions compute *)

Definition sha256_spec (msg : bytes) : bytes := fips_hash tamga_sha256_compress sha256_iv 64 8 4 msg.
Definition sha512_spec (msg : bytes) : bytes := fips_hash tamga_sha512_compress sha512_iv 128 16 8 msg.

Lemma sha256_final_spec chunks :
  zlen (concat (map chunk chunks)) < 2 ^ 61 ->
  tamga_sha256_final (fold_left tamga_sha256_update chunks tamga_sha256_init) =
  sha256_spec (concat (map chunk chunks)).
Proof.
  intros H. unfold tamga_sha256_final, tamga_sha256_update, tamga_sha256_init, sha256_spec.
  change TAMGA_SHA256_BLOCK_LEN with 64%nat. rewrite stream_spec by lia. apply fips_hash_spec; lia.
Qed.

Lemma sha512_final_spec chunks :
  zlen (concat (map chunk chunks)) < 2 ^ 61 ->
  tamga_sha512_final (fold_left tamga_sha512_update chunks tamga_sha512_init) =
  sha512_spec (concat (map chunk chunks)).
Proof.
  intros H. unfold tamga_sha512_final, tamga_sha512_update, tamga_sha512_init, sha512_spec.
  change TAMGA_SHA512_BLOCK_LEN with 128%nat. rewrite stream_spec by lia. apply fips_hash_spec; lia.
Qed.

Lemma tamga_sha256_spec d : zlen d < 2 ^ 61 -> tamga_sha256 (Some d) = sha256_spec d.
Proof.
  intros H. pose proof (sha256_final_spec [Some d]) as E. simpl in E. rewrite app_nil_r in E. by apply E.
Qed.

Lemma sha256_spec_length d : length (sha256_spec d) = 32%nat.
Proof. apply fips_hash_length; lia. Qed.

(** (C37) Incremental hashing is independent of how the message is cut: any
    sequence of updates, null and empty ones included, followed by the final
    call gives the FIPS 180-4 hash of the concatenation, that is the digest of
    the fold of the compression function over the blocks of the padded message,
    for messages the 64-bit length counter can hold; for both hash functions. *)
Theorem sha2_streaming chunks :
  zlen (concat (map chunk chunks)) < 2 ^ 61 ->
  tamga_sha256_final (fold_left tamga_sha256_update chunks tamga_sha256_init) =
    sha256_spec (concat (map chunk chunks)) /\
  tamga_sha512_final (fold_left tamga_sha512_update chunks tamga_sha512_init) =
    sha512_spec (concat (map chunk chunks)).
Proof. split; [by apply sha256_final_spec|by apply sha512_final_spec]. Qed.

Lemma sha2_streaming_witness :
  tamga_sha256_final (fold_left tamga_sha256_update [Some (bstr "a"); None; Some (bstr "bc")] tamga_sha256_init) =
    sha256_spec (bstr "abc").
Proof. apply (sha2_streaming [Some (bstr "a"); None; Some (bstr "bc")]). vm_compute. reflexivity. Defined.
