(* ===== verification/Hkdf.v ===== *)
(** * HMAC-SHA-256, HKDF and the constant-time comparison:
      [src/src/crypto/hmac_sha256.c], [src/src/crypto/hkdf.c], [src/src/crypto/ct.c]

    A pointer and a length are a [span]: either bytes, or a null pointer with
    the length that was passed along with it, which the code treats differently
    from an empty text. *)

From Stdlib Require Import String.
From S2P Require Import Prelude Sha2.
From stdpp Require Import list.
#[local] Open Scope Z_scope.

Inductive span := Null (len : Z) | At (b : bytes).

Definition span_len (p : span) : Z := match p with Null n => n | At b => zlen b end.
Definition span_ptr (p : span) : option bytes := match p with Null _ => None | At b => Some b end.
Definition span_bytes (p : span) : bytes := chunk (span_ptr p).

(** ** Constant-time comparison *)

(** [None] is a null pointer; both arguments have [len] bytes. *)
Definition tamga_ct_memeq (a b : option bytes) (len : nat) : bool :=
  match a, b with
  | Some a, Some b =>
      fold_left (fun diff i => Z.lor diff (u8 (Z.lxor (nth i a 0) (nth i b 0)))) (seq 0 len) 0 =? 0
  | _, _ => false
  end.

(** ** HMAC *)

Record hmac_ctx := mk_hmac { hmac_inner : sha_ctx; hmac_outer_pad : bytes }.

Definition hmac_block_key (key : span) : bytes :=
  let zero := replicate TAMGA_SHA256_BLOCK_LEN 0 in
  if Z.of_nat TAMGA_SHA256_BLOCK_LEN <? span_len key then put zero 0 (tamga_sha256 (span_ptr key))
  else match key with At b => put zero 0 b | Null _ => zero end.

Definition tamga_hmac_sha256_init (key : span) : hmac_ctx :=
  let block_key := hmac_block_key key in
  let inner_pad := map (fun k => Z.lxor k 0x36) block_key in
  let outer_pad := map (fun k => Z.lxor k 0x5c) block_key in
  mk_hmac (tamga_sha256_update tamga_sha256_init (Some inner_pad)) outer_pad.

Definition tamga_hmac_sha256_update (ctx : hmac_ctx) (data : option bytes) : hmac_ctx :=
  mk_hmac (tamga_sha256_update (hmac_inner ctx) data) (hmac_outer_pad ctx).

Definition tamga_hmac_sha256_final (ctx : hmac_ctx) : bytes :=
  let inner_digest := tamga_sha256_final (hmac_inner ctx) in
  let outer := tamga_sha256_update tamga_sha256_init (Some (hmac_outer_pad ctx)) in
  tamga_sha256_final (tamga_sha256_update outer (Some inner_digest)).

Definition tamga_hmac_sha256 (key : span) (data : option bytes) : bytes :=
  tamga_hmac_sha256_final (tamga_hmac_sha256_update (tamga_hmac_sha256_init key) data).

(** ** HKDF *)

Definition TAMGA_FILE_KEY_LEN : nat := 32.
Definition TAMGA_LICENSE_FILE_SALT : bytes := bstr "tamga:license-file-key-v1".
Definition TAMGA_LICENSE_FILE_INFO : bytes := bstr "license-file".
Definition TAMGA_MACHINE_FILE_SALT : bytes := bstr "tamga:machine-file-key-v1".

(** The expand loop: [out] is what has been written so far, [block] the last
    T(n). Every round writes at least a byte, so [out_len] rounds are enough. *)
Fixpoint hkdf_expand (fuel : nat) (prk : bytes) (info : span) (out_len : nat)
    (block : bytes) (counter : Z) (out : bytes) : bytes :=
  match fuel with
  | O => out
  | S f =>
      if (length out <? out_len)%nat then
        let counter_byte := u8 counter in
        let hmac := tamga_hmac_sha256_init (At prk) in
        let hmac := if 1 <? counter then tamga_hmac_sha256_update hmac (Some block) else hmac in
        let hmac := match info with
                    | At i => if 0 <? zlen i then tamga_hmac_sha256_update hmac (Some i) else hmac
                    | Null _ => hmac
                    end in
        let hmac := tamga_hmac_sha256_update hmac (Some [counter_byte]) in
        let block := tamga_hmac_sha256_final hmac in
        let n := Nat.min (out_len - length out) TAMGA_SHA256_DIGEST_LEN in
        hkdf_expand f prk info out_len block (u32 (counter + 1)) (out ++ take n block)
      else out
  end.

(** [None] is [false]: nothing is written. *)
Definition tamga_hkdf_sha256 (salt : span) (ikm : option bytes) (info : span) (out_len : nat) : option bytes :=
  if (out_len =? 0)%nat then None
  else if (match salt with Null n => 0 <? n | At _ => false end)
       || (match info with Null n => 0 <? n | At _ => false end) then None
  else if (255 * TAMGA_SHA256_DIGEST_LEN <? out_len)%nat then None
  else
    let prk :=
      match salt with
      | At ((_ :: _) as s) => tamga_hmac_sha256 (At s) ikm
      | _ => tamga_hmac_sha256 (At (replicate TAMGA_SHA256_DIGEST_LEN 0)) ikm
      end in
    Some (hkdf_expand out_len prk info out_len [] 1 []).

Definition tamga_derive_license_file_key (license_key : option bytes) : option bytes :=
  match license_key with
  | None => None
  | Some key =>
      tamga_hkdf_sha256 (At TAMGA_LICENSE_FILE_SALT) (Some key) (At TAMGA_LICENSE_FILE_INFO) TAMGA_FILE_KEY_LEN
  end.

Definition tamga_derive_machine_file_key (license_key fingerprint : option bytes) : option bytes :=
  match license_key, fingerprint with
  | Some key, Some fp =>
      tamga_hkdf_sha256 (At TAMGA_MACHINE_FILE_SALT) (Some key) (At fp) TAMGA_FILE_KEY_LEN
  | _, _ => None
  end.

(** RFC 5869, test case 1 and RFC 4231, test case 2. *)
Example hkdf_rfc5869_case1 :
  tamga_hkdf_sha256 (At (be_bytes 13 0x000102030405060708090a0b0c)) (Some (replicate 22 0x0b))
    (At (be_bytes 10 0xf0f1f2f3f4f5f6f7f8f9)) 42 =
  Some (be_bytes 42 0x3cb25f25faacd57a90434f64d0362f2a2d2d0a90cf1a5a4c5db02d56ecc4c5bf34007208d5b887185865).
Proof. vm_compute. reflexivity. Qed.

Example hmac_rfc4231_case2 :
  tamga_hmac_sha256 (At (bstr "Jefe")) (Some (bstr "what do ya want for nothing?")) =
  be_bytes 32 0x5bdcc146bf60754e6a042426089575c75a003f089d2739839dec58b964ec3843.
Proof. vm_compute. reflexivity. Qed.

(** ** The comparison is equality *)

Lemma lor_eq_0 a b : Z.lor a b = 0 <-> a = 0 /\ b = 0.
Proof. apply Z.lor_eq_0_iff. Qed.

Lemma ct_fold a b l d :
  fold_left (fun diff i => Z.lor diff (u8 (Z.lxor (nth i a 0) (nth i b 0)))) l d = 0 <->
  d = 0 /\ Forall (fun i => u8 (Z.lxor (nth i a 0) (nth i b 0)) = 0) l.
Proof.
  revert d. induction l as [|i l IH]; intros d; simpl.
  - rewrite Forall_nil. tauto.
  - rewrite IH, lor_eq_0, Forall_cons. tauto.
Qed.

Lemma byte_lxor_0 x y : is_byte x -> is_byte y -> u8 (Z.lxor x y) = 0 <-> x = y.
Proof.
  intros Hx Hy. split; [|intros ->; by rewrite Z.lxor_nilpotent].
  intros H. apply Z.lxor_eq. unfold is_byte, u8 in *. rewrite Z.mod_small in H; [done|].
  split; [apply Z.lxor_nonneg; lia|].
  destruct (Z.eq_dec (Z.lxor x y) 0) as [->|Hne]; [lia|].
  assert (0 <= Z.lxor x y) by (apply Z.lxor_nonneg; lia).
  change 256 with (2 ^ 8). apply Z.log2_lt_pow2; [lia|].
  pose proof (Z.log2_lxor x y ltac:(lia) ltac:(lia)).
  assert (forall z, 0 <= z < 256 -> Z.log2 z < 8) as Hlog.
  { intros z Hz. destruct (Z.eq_dec z 0) as [->|]; [done|]. apply Z.log2_lt_pow2; lia. }
  pose proof (Hlog x ltac:(lia)). pose proof (Hlog y ltac:(lia)). lia.
Qed.

Lemma ct_memeq_eq a b len :
  bytes_ok a -> bytes_ok b -> length a = len -> length b = len ->
  tamga_ct_memeq (Some a) (Some b) len = true <-> a = b.
Proof.
  intros Ha Hb Hla Hlb. unfold tamga_ct_memeq. rewrite Z.eqb_eq, ct_fold, Forall_forall. split.
  - intros [_ H]. apply (nth_ext _ _ 0 0); [lia|]. intros n Hn.
    apply byte_lxor_0.
    + apply (proj1 (Forall_forall _ _) Ha), list_elem_of_In, nth_In. lia.
    + apply (proj1 (Forall_forall _ _) Hb), list_elem_of_In, nth_In. lia.
    + apply H. apply elem_of_seq. lia.
  - intros ->. split; [done|]. intros. by rewrite Z.lxor_nilpotent.
Qed.

(** ** HMAC as RFC 2104 defines it *)

Definition hmac_key_block (key : bytes) : bytes :=
  let k := if (64 <? length key)%nat then sha256_spec key else key in
  k ++ replicate (64 - length k) 0.

Definition hmac_spec (key msg : bytes) : bytes :=
  let k := hmac_key_block key in
  sha256_spec (map (fun x => Z.lxor x 0x5c) k ++ sha256_spec (map (fun x => Z.lxor x 0x36) k ++ msg)).

Lemma hmac_key_block_length key : length (hmac_key_block key) = 64%nat.
Proof.
  unfold hmac_key_block. destruct (Nat.ltb_spec 64 (length key)); rewrite length_app, length_replicate.
  - rewrite sha256_spec_length. done.
  - lia.
Qed.

Lemma hmac_block_key_spec key :
  zlen key < 2 ^ 61 -> hmac_block_key (At key) = hmac_key_block key.
Proof.
  intros H. unfold hmac_block_key, hmac_key_block. cbn [span_len span_ptr].
  change (Z.of_nat TAMGA_SHA256_BLOCK_LEN) with 64. unfold TAMGA_SHA256_BLOCK_LEN.
  assert (forall d, (length d <= 64)%nat -> put (replicate 64 0) 0 d = d ++ replicate (64 - length d) 0) as Hput.
  { intros d Hd. unfold put. rewrite take_0, drop_replicate. done. }
  destruct (Z.ltb_spec 64 (zlen key)); destruct (Nat.ltb_spec 64 (length key)); try lia.
  - rewrite tamga_sha256_spec by done. apply Hput. rewrite sha256_spec_length. lia.
  - apply Hput. lia.
Qed.

Lemma hmac_update_inner chunks ctx :
  fold_left tamga_hmac_sha256_update chunks ctx =
  mk_hmac (fold_left tamga_sha256_update chunks (hmac_inner ctx)) (hmac_outer_pad ctx).
Proof. revert ctx. induction chunks as [|c l IH]; intros ctx; simpl; [by destruct ctx|by rewrite IH]. Qed.

Lemma hmac_stream key chunks :
  zlen key < 2 ^ 61 -> zlen (concat (map chunk chunks)) < 2 ^ 60 ->
  tamga_hmac_sha256_final (fold_left tamga_hmac_sha256_update chunks (tamga_hmac_sha256_init (At key))) =
  hmac_spec key (concat (map chunk chunks)).
Proof.
  intros Hk Hm. rewrite hmac_update_inner. unfold tamga_hmac_sha256_final, tamga_hmac_sha256_init, hmac_spec.
  cbn [hmac_inner hmac_outer_pad]. rewrite hmac_block_key_spec by done.
  set (k := hmac_key_block key). pose proof (hmac_key_block_length key) as Hl. fold k in Hl.
  set (ipad := map (fun x => Z.lxor x 0x36) k). set (opad := map (fun x => Z.lxor x 0x5c) k).
  assert (length ipad = 64%nat /\ length opad = 64%nat) as [Hi Ho] by (subst ipad opad; rewrite !length_map; done).
  pose proof (sha256_final_spec (Some ipad :: chunks)) as Hin. cbn [fold_left map concat chunk from_option id] in Hin.
  rewrite Hin by (rewrite length_app; lia).
  pose proof (sha256_final_spec [Some opad; Some (sha256_spec (ipad ++ concat (map chunk chunks)))]) as Hout.
  cbn [fold_left map concat chunk from_option id] in Hout. rewrite app_nil_r in Hout. apply Hout.
  rewrite length_app, sha256_spec_length. lia.
Qed.

Lemma hmac_one_shot key data :
  zlen key < 2 ^ 61 -> zlen (chunk data) < 2 ^ 60 ->
  tamga_hmac_sha256 (At key) data = hmac_spec key (chunk data).
Proof.
  intros Hk Hd. pose proof (hmac_stream key [data]) as E. cbn [fold_left map concat] in E.
  rewrite app_nil_r in E. by apply E.
Qed.

Lemma hmac_spec_length key msg : length (hmac_spec key msg) = 32%nat.
Proof. apply sha256_spec_length. Qed.

(** ** HKDF as RFC 5869 defines it *)

(** T(n), the output keying material, and the whole function. *)
Fixpoint hkdf_T (prk info : bytes) (n : nat) : bytes :=
  match n with
  | O => []
  | S k => hmac_spec prk (hkdf_T prk info k ++ info ++ [Z.of_nat n])
  end.

Definition hkdf_okm (prk info : bytes) (len : nat) : bytes :=
  take len (concat (map (hkdf_T prk info) (seq 1 ((len + 31) / 32)))).

Definition hkdf_spec (salt ikm info : bytes) (len : nat) : bytes :=
  hkdf_okm (hmac_spec (if decide (salt = []) then replicate 32 0 else salt) ikm) info len.

Lemma hkdf_T_length prk info n : length (hkdf_T prk info (S n)) = 32%nat.
Proof. apply hmac_spec_length. Qed.

Lemma hkdf_T_bound prk info n : (length (hkdf_T prk info n) <= 32)%nat.
Proof. destruct n; [simpl; lia|]. rewrite hkdf_T_length. lia. Qed.

(** The first [n] blocks and their length. *)
Abbreviation hkdf_blocks prk info n := (concat (map (hkdf_T prk info) (seq 1 n))).

Lemma hkdf_blocks_length prk info n : length (hkdf_blocks prk info n) = (32 * n)%nat.
Proof.
  induction n as [|n IH]; [done|]. rewrite seq_S, map_app, concat_app, length_app, IH. cbn [map concat].
  rewrite app_nil_r. change (1 + n)%nat with (S n). rewrite hkdf_T_length. lia.
Qed.

Lemma hkdf_blocks_S prk info n : hkdf_blocks prk info (S n) = hkdf_blocks prk info n ++ hkdf_T prk info (S n).
Proof. rewrite seq_S, map_app, concat_app. cbn [map concat]. by rewrite app_nil_r. Qed.

(** One round computes the next T. *)
Lemma hkdf_round prk info n :
  zlen prk < 2 ^ 61 -> zlen (span_bytes info) < 2 ^ 59 -> (n < 255)%nat ->
  (let hmac := tamga_hmac_sha256_init (At prk) in
   let hmac := if 1 <? Z.of_nat n + 1 then tamga_hmac_sha256_update hmac (Some (hkdf_T prk (span_bytes info) n)) else hmac in
   let hmac := match info with
               | At i => if 0 <? zlen i then tamga_hmac_sha256_update hmac (Some i) else hmac
               | Null _ => hmac
               end in
   tamga_hmac_sha256_final (tamga_hmac_sha256_update hmac (Some [u8 (Z.of_nat n + 1)]))) =
  hkdf_T prk (span_bytes info) (S n).
Proof.
  intros Hp Hi Hn. cbv zeta. set (T := hkdf_T prk (span_bytes info) n).
  pose proof (hkdf_T_bound prk (span_bytes info) n) as Hb. fold T in Hb.
  assert (u8 (Z.of_nat n + 1) = Z.of_nat (S n)) as -> by (unfold u8; rewrite Z.mod_small; lia).
  set (c1 := if 1 <? Z.of_nat n + 1 then [Some T] else []).
  set (c2 := match info with At i => if 0 <? zlen i then [Some i] else [] | Null _ => [] end).
  pose proof (hmac_stream prk (c1 ++ c2 ++ [Some [Z.of_nat (S n)]]) Hp) as E.
  assert (concat (map chunk c1) = T) as H1.
  { subst c1 T. destruct n as [|n]; [done|]. rewrite (proj2 (Z.ltb_lt _ _)) by lia.
    cbn [map concat chunk from_option id]. by rewrite app_nil_r. }
  assert (concat (map chunk c2) = span_bytes info) as H2.
  { subst c2. destruct info as [m|i]; [done|]. destruct (Z.ltb_spec 0 (zlen i)).
    - simpl. by rewrite app_nil_r.
    - destruct i; [done|simpl in *; lia]. }
  rewrite !map_app, !concat_app, H1, H2 in E. cbn [map concat chunk from_option id] in E. rewrite app_nil_r in E.
  cbn [hkdf_T]. fold T. rewrite <- E.
  - rewrite !fold_left_app. subst c1 c2. destruct (1 <? Z.of_nat n + 1), info as [m|i]; try destruct (0 <? zlen i); done.
  - rewrite !length_app. simpl length. lia.
Qed.

Lemma hkdf_expand_spec prk info out_len fuel n :
  zlen prk < 2 ^ 61 -> zlen (span_bytes info) < 2 ^ 59 -> (out_len <= 255 * 32)%nat -> (32 * (n - 1) <= out_len)%nat ->
  (out_len <= fuel + 32 * n)%nat ->
  hkdf_expand fuel prk info out_len (hkdf_T prk (span_bytes info) n) (Z.of_nat n + 1)
    (take out_len (hkdf_blocks prk (span_bytes info) n)) = hkdf_okm prk (span_bytes info) out_len.
Proof.
  intros Hp Hi Hlen. revert n. induction fuel as [|fuel IH]; intros n Hn Hf.
  all: pose proof (hkdf_blocks_length prk (span_bytes info) n) as Hbl.
  all: assert (forall m, (out_len <= 32 * m)%nat -> take out_len (hkdf_blocks prk (span_bytes info) m) =
         hkdf_okm prk (span_bytes info) out_len) as Hdone.
  1,3: intros m Hm; unfold hkdf_okm;
    assert ((out_len + 31) / 32 <= m)%nat as Hle
      by (apply Nat.lt_succ_r, Nat.Div0.div_lt_upper_bound; lia);
    replace m with ((out_len + 31) / 32 + (m - (out_len + 31) / 32))%nat at 1 by lia;
    rewrite seq_app, map_app, concat_app, take_app_le; [done|];
    rewrite hkdf_blocks_length; pose proof (Nat.div_mod_eq (out_len + 31) 32);
    pose proof (Nat.mod_upper_bound (out_len + 31) 32); lia.
  - cbn [hkdf_expand]. apply Hdone. lia.
  - cbn [hkdf_expand]. rewrite length_take, Hbl.
    destruct (Nat.ltb_spec (out_len `min` (32 * n)) out_len) as [Hlt|Hge]; [|apply Hdone; lia].
    assert (32 * n < out_len)%nat as Hmore by lia.
    pose proof (hkdf_round prk info n Hp Hi ltac:(lia)) as Hr. cbv zeta in Hr. rewrite Hr.
    replace (u32 (Z.of_nat n + 1 + 1)) with (Z.of_nat (S n) + 1) by (unfold u32; rewrite Z.mod_small; lia).
    rewrite <- (IH (S n)) by lia. f_equal. rewrite hkdf_blocks_S.
    rewrite (take_ge (hkdf_blocks prk (span_bytes info) n)) by lia.
    rewrite take_app_ge by lia. rewrite Hbl. f_equal.
    change TAMGA_SHA256_DIGEST_LEN with 32%nat. rewrite (Nat.min_r out_len (32 * n)) by lia.
    pose proof (hkdf_T_length prk (span_bytes info) n).
    destruct (Nat.le_gt_cases 32 (out_len - 32 * n)) as [Hc|Hc].
    + rewrite Nat.min_r by lia. by rewrite !take_ge by lia.
    + by rewrite Nat.min_l by lia.
Qed.

(** The span a call may pass: bytes, or nothing at all. *)
Definition span_ok (p : span) : Prop := match p with Null n => n = 0 | At _ => True end.

Lemma hkdf_accepts salt ikm info out_len :
  span_len salt < 2 ^ 61 -> zlen (chunk ikm) < 2 ^ 60 -> span_len info < 2 ^ 59 ->
  span_ok salt -> span_ok info -> (1 <= out_len <= 255 * 32)%nat ->
  tamga_hkdf_sha256 salt ikm info out_len =
    Some (hkdf_spec (span_bytes salt) (chunk ikm) (span_bytes info) out_len).
Proof.
  intros Hs Hk Hi Hso Hio Hl. unfold tamga_hkdf_sha256. change (255 * TAMGA_SHA256_DIGEST_LEN)%nat with (255 * 32)%nat.
  destruct (Nat.eqb_spec out_len 0); [lia|]. destruct (Nat.ltb_spec (255 * 32) out_len); [lia|].
  assert (forall p, span_ok p -> match p with Null n => 0 <? n | At _ => false end = false) as Hok
    by (intros [m|] Hp; simpl in *; subst; done).
  rewrite !Hok by done. cbn [orb]. f_equal. unfold hkdf_spec. set (prk := hmac_spec _ _).
  assert (zlen (span_bytes info) < 2 ^ 59) by (by destruct info).
  assert (zlen prk < 2 ^ 61) by (subst prk; rewrite hmac_spec_length; lia).
  pose proof (hkdf_expand_spec prk info out_len out_len 0) as E. cbn [seq map concat] in E.
  rewrite take_nil in E. rewrite <- E by lia.
  f_equal. subst prk. destruct salt as [m|[|x s]]; cbn [span_bytes span_ptr chunk from_option id];
    rewrite hmac_one_shot by (done || (rewrite length_replicate; lia)); done.
Qed.

(** (C38) HKDF: a request for 1 to 8160 bytes, in which no null pointer comes
    with a non-zero length, gets exactly the RFC 5869 output (extract with
    HMAC-SHA-256, 32 zero bytes standing for an empty salt, then the first
    bytes of T(1) || T(2) || ...); every other request is refused. *)
Theorem hkdf_rfc5869 salt ikm info out_len :
  0 <= span_len salt < 2 ^ 61 -> zlen (chunk ikm) < 2 ^ 60 -> 0 <= span_len info < 2 ^ 59 ->
  (span_ok salt /\ span_ok info /\ (1 <= out_len <= 255 * 32)%nat ->
   tamga_hkdf_sha256 salt ikm info out_len =
     Some (hkdf_spec (span_bytes salt) (chunk ikm) (span_bytes info) out_len)) /\
  (~ (span_ok salt /\ span_ok info /\ (1 <= out_len <= 255 * 32)%nat) ->
   tamga_hkdf_sha256 salt ikm info out_len = None).
Proof.
  intros Hs Hk Hi. split; [intros (? & ? & ?); apply hkdf_accepts; done || lia|].
  intros Hn. unfold tamga_hkdf_sha256. change (255 * TAMGA_SHA256_DIGEST_LEN)%nat with (255 * 32)%nat.
  destruct (Nat.eqb_spec out_len 0); [done|].
  destruct salt as [m|s]; destruct info as [m'|i]; cbn [span_ok span_len] in *;
    repeat match goal with |- context [0 <? ?x] => destruct (Z.ltb_spec 0 x); cbn [orb]; try done end;
    destruct (Nat.ltb_spec (255 * 32) out_len); try done; exfalso; apply Hn; split_and!; lia.
Qed.

Lemma hkdf_rfc5869_witness :
  tamga_hkdf_sha256 (At []) (Some [1]) (Null 0) 40 =
    Some (hkdf_spec [] [1] [] 40) /\
  tamga_hkdf_sha256 (At []) (Some [1]) (Null 1) 40 = None.
Proof.
  split.
  - apply (hkdf_rfc5869 (At []) (Some [1]) (Null 0) 40); simpl; try lia; done.
  - apply (hkdf_rfc5869 (At []) (Some [1]) (Null 1) 40); simpl; lia.
Defined.

(** The two file keys are 32 bytes of HKDF over the license key. *)
Lemma hkdf_expand_length prk info len : length (hkdf_okm prk info len) = len.
Proof.
  unfold hkdf_okm. rewrite length_take, hkdf_blocks_length.
  pose proof (Nat.div_mod_eq (len + 31) 32). pose proof (Nat.mod_upper_bound (len + 31) 32). lia.
Qed.

Lemma license_file_key_spec key :
  zlen key < 2 ^ 60 ->
  tamga_derive_license_file_key (Some key) =
    Some (hkdf_spec TAMGA_LICENSE_FILE_SALT key TAMGA_LICENSE_FILE_INFO 32).
Proof. intros. apply hkdf_accepts; done || (simpl; lia). Qed.

Lemma machine_file_key_spec key fp :
  zlen key < 2 ^ 60 -> zlen fp < 2 ^ 59 ->
  tamga_derive_machine_file_key (Some key) (Some fp) = Some (hkdf_spec TAMGA_MACHINE_FILE_SALT key fp 32).
Proof. intros. apply hkdf_accepts; done || (simpl; lia). Qed.

(** ** Derived keys are 32 bytes, whatever the inputs *)

Lemma be_bytes_ok n x : bytes_ok (be_bytes n x).
Proof. induction n as [|n IH]; [constructor|]. constructor; [apply is_byte_wrap|done]. Qed.

Lemma sha256_final_bytes ctx : length (tamga_sha256_final ctx) = 32%nat /\ bytes_ok (tamga_sha256_final ctx).
Proof.
  unfold tamga_sha256_final, sha_final. destruct (if (_ <? _)%nat then _ else _) as [[st b] n].
  destruct (tamga_sha256_compress _ _) as [a b1 c d e f g h].
  split; [cbn [concat map]; rewrite !length_app, !be_bytes_length; done|].
  cbn [concat map]. repeat (apply Forall_app; split; [apply be_bytes_ok|]). constructor.
Qed.

Lemma hkdf_expand_one f prk info n :
  n = 32%nat ->
  exists block, hkdf_expand (S (S f)) prk info n [] 1 [] = block /\ length block = 32%nat /\ bytes_ok block.
Proof.
  intros Hn. cbn [hkdf_expand]. destruct (Nat.ltb_spec (@length Z []) n) as [_|H]; [|simpl in H; lia].
  set (block := tamga_hmac_sha256_final _).
  assert (length block = 32%nat /\ bytes_ok block) as [Hl Ho] by apply sha256_final_bytes. clearbody block.
  rewrite take_ge by (unfold TAMGA_SHA256_DIGEST_LEN; simpl; lia). cbn [app].
  destruct (Nat.ltb_spec (length block) n); [lia|]. eauto.
Qed.

Lemma derived_key_ok salt ikm info :
  exists key, tamga_hkdf_sha256 (At salt) ikm (At info) TAMGA_FILE_KEY_LEN = Some key /\
    length key = 32%nat /\ bytes_ok key.
Proof.
  unfold tamga_hkdf_sha256. cbn [orb]. destruct salt as [|x salt];
    match goal with |- context [hkdf_expand _ ?prk _ _ _ _ _] =>
      destruct (hkdf_expand_one 30 prk (At info) TAMGA_FILE_KEY_LEN eq_refl) as (key & E & H) end;
    exists key; (split; [rewrite <- E; with_strategy opaque [hkdf_expand] reflexivity|done]).
Qed.

Lemma license_key_ok license_key :
  exists key, tamga_derive_license_file_key (Some license_key) = Some key /\ length key = 32%nat /\ bytes_ok key.
Proof. apply derived_key_ok. Qed.

Lemma machine_key_ok license_key fingerprint :
  exists key, tamga_derive_machine_file_key (Some license_key) (Some fingerprint) = Some key /\
    length key = 32%nat /\ bytes_ok key.
Proof. apply derived_key_ok. Qed.
