(* ===== verification/Status.v ===== *)
(** * Status codes as results

    A function that returns a [TamgaErrorCode] and writes its result through an
    out-parameter on [TAMGA_OK] only is a computation of [status A]: [inl] is the
    result, [inr] the error code. [err] is [return tamga_error_set(code, ...)],
    and [let?] continues on [TAMGA_OK] and returns every other code as it is. *)

From Stdlib Require Import String.
From S2P Require Import Prelude World Buf BufBuild Base64 Json JsonParse JsonGrammar JsonSmall.
From stdpp Require Import list.
#[local] Open Scope Z_scope.

Abbreviation status A := (A + TamgaErrorCode)%type.

Definition err {A} (code : TamgaErrorCode) (text : bytes) : M (status A) :=
  let! code := tamga_error_set code (FmtText text) in ret (inr code).

Definition try {A B} (m : M (status A)) (k : A -> M (status B)) : M (status B) :=
  let! r := m in match r with inl a => k a | inr code => ret (inr code) end.

Notation "'let?' x ':=' m 'in' k" := (try m (fun x => k))
  (at level 10, x pattern, m at level 100, k at level 200) : tamga_scope.

Lemma err_post A code text : post (err (A := A) code text) (fun r => r = inr code).
Proof.
  intros s. unfold err, bind. pose proof (error_set_code code (FmtText text) s).
  destruct (tamga_error_set _ _ s). simpl in *. by subst.
Qed.

Lemma post_err A code text (Q : status A -> Prop) : Q (inr code) -> post (err code text) Q.
Proof. intros H. apply (post_mono _ _ _ (err_post _ _ _)). by intros ? ->. Qed.

Lemma post_try A B (m : M (status A)) (k : A -> M (status B)) P (Q : status B -> Prop) :
  post m P -> (forall a, P (inl a) -> post (k a) Q) -> (forall code, P (inr code) -> Q (inr code)) ->
  post (try m k) Q.
Proof. intros Hm Hk He. eapply post_bind; [exact Hm|]. intros [a|code] H; [by apply Hk|]. apply post_ret. by apply He. Qed.

(** ** The tree of a document, as a function *)

(** The tree a parser with all the memory it wants returns. *)
Definition json_of (text : bytes) : option json :=
  match (tamga_json_parse (malloc := full_memory) (Some text) (mk_st 0 None)).1 with
  | inl j => Some j
  | inr _ => None
  end.

Lemma json_of_iff text j : bytes_ok text -> json_of text = Some j <-> jtext j text.
Proof.
  intros Hok. unfold json_of. split.
  - pose proof (document_sound (malloc := full_memory) text Hok (mk_st 0 None)) as Hs. cbv beta in Hs.
    destruct (tamga_json_parse _ _).1 as [j'|e]; [|done]. by intros [= <-].
  - intros Hj. assert (json_memory <= json_memory <= SIZE_MAX) as Hl by (vm_compute; split; congruence).
    pose proof (document_complete (malloc := full_memory) Hl text j Hj (mk_st 0 None)) as Hc. cbv beta in Hc. by rewrite Hc.
Qed.

(** ** Memory for anything the library reads *)

Section Ample.
Context {malloc : Malloc}.

Definition ample : Prop := exists limit, MallocUpTo limit /\ json_memory <= limit <= SIZE_MAX.

Lemma ample_enough n : ample -> 2 * (n + 1) <= json_memory -> enough n.
Proof. intros (limit & Hm & Hl) Hn. exists limit. split_and!; [done|unfold json_memory in *; lia..]. Qed.

Lemma ample_malloc size s : ample -> size <= json_memory -> (tamga_malloc size s).1 = true.
Proof.
  intros (limit & Hm & Hl) Hs. unfold tamga_malloc. simpl. apply (malloc_up_to (limit := limit)).
  unfold json_memory in *. destruct (Z.eqb_spec size 0); lia.
Qed.

(** [r] is what the specification says, or memory ran out. *)
Definition unless_oom {A} (spec r : status A) : Prop :=
  r = spec \/ (r = inr TAMGA_ERR_OUT_OF_MEMORY /\ ~ ample).

Lemma unless_oom_err {A} (spec : status A) text :
  ~ ample -> post (err TAMGA_ERR_OUT_OF_MEMORY text) (unless_oom spec).
Proof. intros H. apply post_err. by right. Qed.

(** [r] refines [spec]: with memory it is [spec]; whatever the allocator does,
    a result is the specified one. *)
Definition refines {A} (spec r : status A) : Prop :=
  (ample -> r = spec) /\ (forall a, r = inl a -> spec = inl a).

Lemma refines_ret {A} (spec : status A) r : r = spec -> refines spec r.
Proof. intros ->. by split. Qed.

Lemma refines_unless_oom {A} (spec r : status A) : unless_oom spec r -> refines spec r.
Proof. intros [->|[-> Hno]]; [by apply refines_ret|]. by split. Qed.

Lemma refines_oom {A} (spec : status A) code : ~ ample -> refines spec (inr code).
Proof. intros Hno. by split. Qed.

Lemma refines_err {A} (spec : status A) code text : spec = inr code -> post (err code text) (refines spec).
Proof. intros H. apply post_err. by apply refines_ret. Qed.

(** The specification of a sequence. *)
Definition then_spec {A B} (s : status A) (k : A -> status B) : status B :=
  match s with inl a => k a | inr code => inr code end.

Lemma refines_try {A B} (m : M (status A)) (k : A -> M (status B)) spec kspec :
  post m (refines spec) -> (forall a, spec = inl a -> post (k a) (refines (kspec a))) ->
  post (try m k) (refines (then_spec spec kspec)).
Proof.
  intros Hm Hk. apply (post_try _ _ _ _ _ _ Hm).
  - intros a [Ha Hs]. specialize (Hs a eq_refl). rewrite Hs. by apply Hk.
  - intros code [Ha _]. split; [|done]. intros H. specialize (Ha H). by rewrite <- Ha.
Qed.

(** Decoding base64 into fresh memory. *)
Lemma decode_alloc_post l :
  zlen l <= TAMGA_MAX_REASONABLE_LEN ->
  post (tamga_base64_decode_alloc_why (Some l)) (fun r =>
    match r with
    | inr d => tamga_base64_decode (Some l) = Some d
    | inl TAMGA_BASE64_FAILURE_OUT_OF_MEMORY => ~ ample
    | inl _ => tamga_base64_decode (Some l) = None
    end).
Proof.
  intros Hl. apply post_intro. intros s r s'. unfold tamga_base64_decode_alloc_why.
  destruct (tamga_base64_decoded_cap (zlen l)) as [cap|] eqn:Hc.
  2:{ exfalso. unfold tamga_base64_decoded_cap in Hc. unfold TAMGA_MAX_REASONABLE_LEN in Hl.
      rewrite (proj2 (checked_add_Some (zlen l) 3 _)) in Hc by (split; [done|unfold SIZE_MAX; lia]). cbn in Hc.
      rewrite (proj2 (checked_mul_Some ((zlen l + 3) / 4) 3 ((zlen l + 3) / 4 * 3) ltac:(zdm) ltac:(lia))) in Hc; [done|].
      split; [done|]. unfold SIZE_MAX. zdm. }
  assert (cap <= json_memory) as Hcap.
  { apply bind_Some in Hc as (g & Hg & Hc). apply checked_add_Some in Hg as [-> _].
    apply checked_mul_Some in Hc as [-> _]; [|zdm..]. unfold json_memory, TAMGA_MAX_REASONABLE_LEN in *. zdm. }
  unfold bind. pose proof (ample_malloc cap s) as Hm. destruct (tamga_malloc cap s) as [[] s1]; simpl in Hm.
  - destruct (tamga_base64_decode (Some l)) as [d|] eqn:E; intros [= <- <-]; done.
  - intros [= <- <-]. intros Ha. by specialize (Hm Ha Hcap).
Qed.

(** Parsing a document. *)
Lemma parse_post text :
  bytes_ok text ->
  post (tamga_json_parse (Some text)) (fun r =>
    match r with
    | inl j => json_of text = Some j
    | inr e => ample -> json_of text = None /\ tamga_json_error_is_out_of_memory (Some e) = false
    end).
Proof.
  intros Hok s. pose proof (document_sound text Hok s) as Hs.
  destruct (tamga_json_parse (Some text) s).1 as [j|e] eqn:E; [by apply json_of_iff|]. intros (limit & Hm & Hl). split.
  - destruct (json_of text) as [j|] eqn:Ej; [|done]. apply json_of_iff in Ej; [|done].
    pose proof (document_complete (limit := limit) Hl text j Ej s) as Hc. cbv beta in Hc. congruence.
  - pose proof (parse_honest (limit := limit) Hl text Hok s) as Hh. cbv beta in Hh. rewrite E in Hh. by destruct e.
Qed.

(** Copying a part of a document. *)
Lemma clone_ample_post j :
  json_wf j -> json_small TAMGA_MAX_REASONABLE_LEN j ->
  post (tamga_json_clone j) (fun r => r = Some j \/ (r = None /\ ~ ample)).
Proof.
  intros Hwf Hsm s. destruct (clone_post j Hwf s) as [E|E]; [|by left]. right. split; [done|].
  intros (limit & Hm & Hl). pose proof (clone_ok Hl j Hwf Hsm s) as Hc. cbv beta in Hc. congruence.
Qed.
End Ample.

Lemma ample_full : ample (malloc := full_memory).
Proof. exists SIZE_MAX. split; [apply full_memory_up_to|]. vm_compute. split; congruence. Qed.

(** What a base64 text decodes to is bytes. *)
Lemma decode_bytes l d : tamga_base64_decode (Some l) = Some d -> bytes_ok d /\ zlen d <= zlen l.
Proof.
  intros H. apply decode_w_sound in H as [Hd Hl]; [|unfold UINT_FAST32_BITS; lia]. split; [done|].
  pose proof (unpadded_length d). assert (zlen (b64_unpadded d) <= zlen l); [|zdm].
  rewrite encode_unpadded in Hl by done. destruct Hl as [->| ->]; [|lia]. rewrite length_app. lia.
Qed.

(** A base64 text has no zero byte. *)
Lemma decode_no_nul l d : tamga_base64_decode (Some l) = Some d -> ~ In 0 l.
Proof.
  intros H. apply decode_w_sound in H as [Hd Hl]; [|unfold UINT_FAST32_BITS; lia].
  assert (~ In 0 (b64_unpadded d)) as Hu.
  { unfold b64_unpadded. intros (v & E & Hv)%in_map_iff. pose proof (sextets_range d Hd) as Hr. rewrite Forall_forall in Hr.
    specialize (Hr v ltac:(by apply list_elem_of_In)). pose proof (reverse_alphabet v Hr) as Hrev. rewrite E in Hrev.
    change (b64_reverse 0) with 255 in Hrev. lia. }
  destruct Hl as [->| ->]; [|done]. rewrite encode_unpadded by done. intros [Hin|Hin]%in_app_or; [done|].
  apply list_elem_of_In, elem_of_replicate_inv in Hin. done.
Qed.

(** ** An error is never reported as [TAMGA_OK] *)

Definition proper {A} (m : M (status A)) : Prop := post m (fun r => r <> inr TAMGA_OK).

Lemma proper_ret {A} (a : A) : proper (ret (inl a)).
Proof. by apply post_ret. Qed.

Lemma proper_err {A} code text : code <> TAMGA_OK -> proper (err (A := A) code text).
Proof. intros H. apply post_err. congruence. Qed.

Lemma proper_bind {A B} (m : M A) (k : A -> M (status B)) : (forall a, proper (k a)) -> proper (bind m k).
Proof. intros H. apply (post_bind _ _ (fun _ => True)); [by intros s|]. intros a _. apply H. Qed.

Lemma proper_try {A B} (m : M (status A)) (k : A -> M (status B)) :
  proper m -> (forall a, proper (k a)) -> proper (try m k).
Proof. intros Hm Hk. apply (post_try _ _ _ _ _ _ Hm); [intros a _; apply Hk|]. intros code H. congruence. Qed.

(** Closes [proper] goals of straight-line code. *)
Ltac proper_tac :=
  repeat first
    [ progress intros
    | apply proper_ret
    | apply proper_err; discriminate
    | apply proper_try
    | apply proper_bind
    | match goal with |- proper (match ?x with _ => _ end) => destruct x end ].
