(* ===== verification/JsonBuild.v ===== *)
(** * Building JSON documents

    The constructors of [Json] in the form their callers use them: the node
    comes out, or memory was short. Also the bytes of the identifiers that go
    into documents and paths. *)

From Stdlib Require Import String.
From S2P Require Import Prelude World Buf Hex Json JsonParse JsonGrammar JsonWrite JsonPrint JsonRoundtrip JsonSmall Status.
From stdpp Require Import list.
#[local] Open Scope Z_scope.

Section Build.
Context {malloc : Malloc}.

(** [P] is what the caller's values must satisfy for memory to suffice. *)
Definition got {A} (P : Prop) (spec : A) (r : option A) : Prop := r = Some spec \/ (r = None /\ ~ (ample /\ P)).

(** A step that yields the specified node or stops for want of memory. *)
Lemma got_bind {A B} P (m : M (option A)) (a : A) (k : option A -> M B) (Q : B -> Prop) :
  post m (got P a) -> post (k (Some a)) Q -> (~ (ample /\ P) -> post (k None) Q) -> post (bind m k) Q.
Proof. intros Hm Hk Hn. eapply post_bind; [exact Hm|]. intros r [->|[-> H]]; [done|by apply Hn]. Qed.

Lemma got_intro {A} P (m : M (option A)) (a : A) :
  post m (fun r => r = None \/ r = Some a) ->
  (forall limit, MallocUpTo limit -> json_memory <= limit <= SIZE_MAX -> P -> post m (fun r => r = Some a)) ->
  post m (got P a).
Proof.
  intros H1 H2 s. destruct (H1 s) as [E|E]; [|by left]. right. split; [done|]. intros [(limit & Hm & Hl) HP].
  pose proof (H2 limit Hm Hl HP s) as H. cbv beta in H. congruence.
Qed.

Lemma new_object_got P : post tamga_json_new_object (got P (JObject [])).
Proof. apply got_intro; [apply new_post|]. intros limit Hm Hl _. apply new_ok. unfold json_memory in *. lia. Qed.

Lemma new_string_got (P : Prop) l : (P -> zlen l <= TAMGA_MAX_REASONABLE_LEN) -> post (tamga_json_new_string (Some l)) (got P (JString l)).
Proof.
  intros Hl. apply got_intro; [apply new_string_post|]. intros limit Hm Hlim HP. specialize (Hl HP).
  apply (new_string_ok (limit := limit)); unfold json_memory, TAMGA_MAX_REASONABLE_LEN in *; lia.
Qed.

Lemma object_set_got P ms key item :
  ~ In 0 key -> zlen key <= 64 -> zlen ms <= 64 -> key ∉ ms.*1 ->
  post (tamga_json_object_set (Some (JObject ms)) (Some key) (Some item)) (got P (JObject (ms ++ [(key, item)]))).
Proof.
  intros Hz Hk Hms Hfresh. rewrite <- (c_view_id key Hz) in Hfresh. apply got_intro.
  - eapply post_mono; [apply object_set_post|]. rewrite obj_set_fresh by done. rewrite c_view_id by done. tauto.
  - intros limit Hm Hl _. eapply post_mono; [apply (object_set_ok (limit := limit))|].
    + unfold json_memory, TAMGA_MAX_REASONABLE_LEN in *. lia.
    + unfold json_memory in *. lia.
    + rewrite c_view_id by done. unfold TAMGA_MAX_REASONABLE_LEN. lia.
    + intros r ->. rewrite obj_set_fresh by done. by rewrite c_view_id.
Qed.

Lemma write_got canonical j :
  json_bytes j -> post (tamga_json_write_impl (Some j) canonical) (got (zlen (print canonical j) <= TAMGA_MAX_REASONABLE_LEN) (print canonical j)).
Proof.
  intros Hj. apply got_intro.
  - eapply post_mono; [apply write_impl_post|]. intros [t|]; [intros ->; by right|by left].
  - intros limit Hm Hl HP. by apply (write_ok limit).
Qed.
End Build.

(** Adds a member whose key is new. *)
Ltac fresh_key := apply object_set_got; [by apply memchr_None|done..|rewrite list_elem_of_In; vm_compute; intuition done].

Lemma escape_long l : (length l <= length (escape l))%nat.
Proof.
  induction l as [|c l IH]; [done|]. change (escape (c :: l)) with (escape_char c ++ escape l). rewrite length_app.
  assert (1 <= length (escape_char c))%nat by (unfold escape_char; repeat case_match; simpl; lia). simpl. lia.
Qed.

Lemma hex_encode_chars l : bytes_ok l -> Forall (fun c => 45 <= c <= 102) (tamga_hex_encode (Some l)).
Proof.
  induction 1 as [|b l Hb _ IH]; [constructor|]. cbn [tamga_hex_encode flat_map hex_encode_byte app] in *.
  destruct (nibbles_byte b Hb) as (H1 & H2 & H3 & _).
  apply Forall_cons; split; [|apply Forall_cons; split; [|done]]; rewrite ?H3, hex_digit_at by lia; dif; lia.
Qed.

(** A canonical identifier: hexadecimal digits and hyphens. *)
Lemma uuid_normalize_chars s t : tamga_uuid_normalize (Some s) = Some t -> Forall (fun c => 45 <= c <= 102) t /\ length t = 36%nat.
Proof.
  unfold tamga_uuid_normalize. destruct (tamga_uuid_parse (Some s)) as [u|] eqn:Eu; [|done]. cbn [mbind option_bind].
  intros [= <-]. apply uuid_parse_iff in Eu as [[Hb%hex_encode_chars Hl] _]. split.
  - unfold tamga_uuid_format. repeat first [by apply Forall_take, Forall_drop | by apply Forall_take | apply Forall_app; split
      | apply Forall_cons; split; [lia|]].
  - change (length (tamga_uuid_format (Some u)) = 36%nat). rewrite uuid_format_hyphenated by done. by apply uuid_hyphenated_length.
Qed.

Lemma uuid_normalize_bytes s t : tamga_uuid_normalize (Some s) = Some t -> bytes_ok t.
Proof. intros [H _]%uuid_normalize_chars. eapply Forall_impl; [exact H|]. unfold is_byte. lia. Qed.

Lemma uuid_normalize_no_nul s t : tamga_uuid_normalize (Some s) = Some t -> ~ In 0 t.
Proof. intros [H _]%uuid_normalize_chars Hi%list_elem_of_In. rewrite Forall_forall in H. specialize (H 0 Hi). lia. Qed.
