(* ===== verification/Fingerprint.v ===== *)
(** * Canonical machine fingerprints: [src/src/util/fingerprint.c]

    Labels and values are C strings ([None]: a null pointer). [qsort] is the C
    library's: a parameter, of which only what the C standard promises is used
    ([QsortLaws]); [merge_qsort] is one implementation. *)

From Stdlib Require Import String.
From S2P Require Import Prelude World Buf BufBuild Status.
From stdpp Require Import list sorting.
#[local] Open Scope Z_scope.

(** ** The C library *)

Class Qsort := qsort : forall A : Type, (A -> A -> Z) -> list A -> list A.
#[global] Arguments qsort {_} {A} _ _.

(** A comparison function that orders its arguments consistently. *)
Record consistent {A} (cmp : A -> A -> Z) : Prop := {
  cmp_total : forall x y, cmp x y <= 0 \/ cmp y x <= 0;
  cmp_trans : forall x y z, cmp x y <= 0 -> cmp y z <= 0 -> cmp x z <= 0;
}.

Class QsortLaws `{Qsort} : Prop := {
  qsort_perm : forall A (cmp : A -> A -> Z) l, consistent cmp -> Permutation (qsort cmp l) l;
  qsort_sorted : forall A (cmp : A -> A -> Z) l, consistent cmp ->
    StronglySorted (fun x y => cmp x y <= 0) (qsort cmp l);
}.

Definition merge_qsort : Qsort := fun A cmp l => merge_sort (fun x y => cmp x y <= 0) (H := fun x y => Z_le_dec (cmp x y) 0) l.

#[export] Instance merge_qsort_laws : QsortLaws (H := merge_qsort).
Proof.
  split; intros A cmp l [Ht Htr].
  - apply merge_sort_Permutation.
  - apply StronglySorted_merge_sort.
    + intros x y z. apply Htr.
    + intros x y. apply Ht.
Qed.

(** [memcmp] over [n] bytes, which compares them as [unsigned char]. *)
Fixpoint memcmp (n : nat) (a b : bytes) : Z :=
  match n, a, b with
  | S k, x :: a', y :: b' => if x <? y then -1 else if y <? x then 1 else memcmp k a' b'
  | _, _, _ => 0
  end.

(** ** The components *)

Record TamgaFpComponent := mk_component { fp_text : bytes; fp_label_len : nat }.

Definition tamga_fp_is_space (c : Z) : bool :=
  (c =? 32) || (c =? 9) || (c =? 13) || (c =? 10) || (c =? 11) || (c =? 12).

Definition tamga_fp_is_control (c : Z) : bool := (c <=? 0x1F) || (c =? 0x7F).

(** The scan of a label, [i] characters in; [None] is [false]. *)
Fixpoint label_scan (label : bytes) (i : nat) : option nat :=
  match label with
  | [] => if (0 <? i)%nat then Some i else None
  | c :: rest => if (c <? 0x21) || (c >? 0x7E) || (c =? 61) then None else label_scan rest (S i)
  end.
Definition tamga_fp_label_is_valid (label : bytes) : option nat := label_scan label 0.

Definition tamga_fp_compare (x y : TamgaFpComponent) : Z :=
  let shortest := if (length (fp_text x) <? length (fp_text y))%nat
                  then length (fp_text x) else length (fp_text y) in
  let order := if (0 <? shortest)%nat then memcmp shortest (fp_text x) (fp_text y) else 0 in
  if negb (order =? 0) then order
  else if (length (fp_text x) =? length (fp_text y))%nat then 0
  else if (length (fp_text x) <? length (fp_text y))%nat then -1 else 1.

(** The two trimming loops: from the start, and from the end of what is left. *)
Fixpoint trim_start (v : bytes) : bytes :=
  match v with
  | c :: rest => if tamga_fp_is_space c then trim_start rest else v
  | [] => []
  end.
Fixpoint trim_end (v : bytes) : bytes :=
  match v with
  | [] => []
  | c :: rest => match trim_end rest with
                 | [] => if tamga_fp_is_space c then [] else [c]
                 | rest' => c :: rest'
                 end
  end.

Definition TAMGA_FINGERPRINT_DOMAIN : bytes := bstr "tamga-fingerprint-v1".
Definition TAMGA_FINGERPRINT_SEPARATOR : Z := 0x1F.

Section Ops.
Context {malloc : Malloc} {qs : Qsort}.

Definition tamga_fp_build_component (label value : option bytes) (index : nat)
  : M (TamgaFpComponent + TamgaErrorCode) :=
  match label, value with
  | Some label, Some value =>
      let label := c_view label in
      match tamga_fp_label_is_valid label with
      | None => err TAMGA_ERR_INVALID_FINGERPRINT_COMPONENT
          (bstr "component " ++ fmt_nat (Z.of_nat index) ++
           bstr ": a label must be non-empty ASCII printable (0x21-0x7E) and must not contain '='")
      | Some label_len =>
          let value := trim_end (trim_start (c_view value)) in
          if existsb tamga_fp_is_control value then
            err TAMGA_ERR_INVALID_FINGERPRINT_COMPONENT
              (bstr "component " ++ fmt_nat (Z.of_nat index) ++ bstr " (label " ++ [34] ++ label ++ [34] ++
               bstr "): a value may not contain an ASCII control character")
          else
            let! buf := tamga_buf_append tamga_buf_init (Some (take label_len label)) in
            let! buf := tamga_buf_append_byte buf 61 in
            let! buf := tamga_buf_append buf (Some value) in
            let! (text, _) := tamga_buf_detach_string buf in
            match text with
            | None => err TAMGA_ERR_OUT_OF_MEMORY (bstr "could not build the fingerprint")
            | Some text => ret (inl (mk_component text label_len))
            end
      end
  | _, _ => err TAMGA_ERR_NULL_ARGUMENT
      (bstr "component " ++ fmt_nat (Z.of_nat index) ++ bstr ": both a label and a value are required")
  end.

(** The adjacent pass over the sorted components. *)
Fixpoint tamga_fp_reject_duplicates (prev : TamgaFpComponent) (rest : list TamgaFpComponent) : M TamgaErrorCode :=
  match rest with
  | [] => ret TAMGA_OK
  | cur :: rest =>
      if (fp_label_len prev =? fp_label_len cur)%nat &&
         (memcmp (fp_label_len cur) (fp_text prev) (fp_text cur) =? 0)
      then tamga_error_set TAMGA_ERR_INVALID_FINGERPRINT_COMPONENT
             (FmtText (bstr "duplicate label " ++ [34] ++ take (fp_label_len cur) (fp_text cur) ++ [34] ++
                bstr ": two values for one label is a caller bug, not something to deduplicate"))
      else tamga_fp_reject_duplicates cur rest
  end.

(** The loop that builds component [i] and the [n] after it. *)
Fixpoint fp_build_all (labels values : list (option bytes)) (i n : nat)
  : M (list TamgaFpComponent + TamgaErrorCode) :=
  match n with
  | O => ret (inl [])
  | S n =>
      let! c := tamga_fp_build_component (nth i labels None) (nth i values None) i in
      match c with
      | inr status => ret (inr status)
      | inl c =>
          let! r := fp_build_all labels values (S i) n in
          match r with
          | inr status => ret (inr status)
          | inl cs => ret (inl (c :: cs))
          end
      end
  end.

(** The separator and the text of every component. *)
Fixpoint fp_append_all (buf : TamgaBuf) (cs : list TamgaFpComponent) : M TamgaBuf :=
  match cs with
  | [] => ret buf
  | c :: cs =>
      let! buf := tamga_buf_append_byte buf TAMGA_FINGERPRINT_SEPARATOR in
      let! buf := tamga_buf_append buf (Some (fp_text c)) in
      fp_append_all buf cs
  end.

(** [sizeof(TamgaFpComponent)] *)
Definition sizeof_component : Z := 24.

Definition tamga_fingerprint_build_canonical (labels values : option (list (option bytes))) (count : nat)
  : M (bytes + TamgaErrorCode) :=
  match labels, values with
  | Some labels, Some values =>
      if (count =? 0)%nat then
        err TAMGA_ERR_INVALID_FINGERPRINT_COMPONENT (bstr "at least one component is required")
      else
        let! ok := tamga_calloc (Z.of_nat count) sizeof_component in
        if negb ok then err TAMGA_ERR_OUT_OF_MEMORY (bstr "could not build the fingerprint")
        else
          let! built := fp_build_all labels values 0 count in
          match built with
          | inr status => ret (inr status)
          | inl components =>
              let components := qsort tamga_fp_compare components in
              let! status := match components with
                             | [] => ret TAMGA_OK
                             | c :: cs => tamga_fp_reject_duplicates c cs
                             end in
              if decide (status = TAMGA_OK) then
                let! buf := tamga_buf_append_str tamga_buf_init (Some TAMGA_FINGERPRINT_DOMAIN) in
                let! buf := fp_append_all buf components in
                let! (canonical, _) := tamga_buf_detach_string buf in
                match canonical with
                | None => err TAMGA_ERR_OUT_OF_MEMORY (bstr "could not build the fingerprint")
                | Some canonical => ret (inl canonical)
                end
              else ret (inr status)
          end
  | _, _ => err TAMGA_ERR_NULL_ARGUMENT (bstr "labels, values and out_canonical are required")
  end.
End Ops.

Example fp_example :
  (tamga_fingerprint_build_canonical (malloc := full_memory) (qs := merge_qsort)
    (Some [Some (bstr "mac"); Some (bstr "cpu")]) (Some [Some (bstr " a=b "); Some (bstr "x86")]) 2 (mk_st 0 None)).1 =
  inl (bstr "tamga-fingerprint-v1" ++ [31] ++ bstr "cpu=x86" ++ [31] ++ bstr "mac=a=b").
Proof. vm_compute. reflexivity. Qed.

(** ** The specification *)

(** Bytewise lexicographic order, a prefix first. *)
Fixpoint lex_cmp (a b : bytes) : Z :=
  match a, b with
  | [], [] => 0
  | [], _ => -1
  | _, [] => 1
  | x :: a', y :: b' => if x <? y then -1 else if y <? x then 1 else lex_cmp a' b'
  end.
Definition lex_le (a b : bytes) : Prop := lex_cmp a b <= 0.
#[export] Instance lex_le_dec : RelDecision lex_le := fun a b => Z_le_dec (lex_cmp a b) 0.

(** A label is non-empty printable ASCII without ['=']. *)
Definition label_char (c : Z) : Prop := 0x21 <= c <= 0x7E /\ c <> 61.
Definition label_ok (l : bytes) : Prop := l <> [] /\ Forall label_char l.
(** A value, once trimmed, holds no ASCII control character. *)
Definition value_ok (v : bytes) : Prop := Forall (fun c => ~ (c <= 31 \/ c = 127)) v.
#[export] Instance label_char_dec c : Decision (label_char c).
Proof. unfold label_char. apply _. Defined.
#[export] Instance label_ok_dec l : Decision (label_ok l).
Proof. unfold label_ok. apply _. Defined.
#[export] Instance value_ok_dec v : Decision (value_ok v).
Proof. unfold value_ok. apply _. Defined.

(** Trimming: the blanks are the space and the characters 9 to 13, dropped
    from the front of the text and of its reversal. *)
Definition fp_blank (c : Z) : Prop := c = 32 \/ 9 <= c <= 13.
#[export] Instance fp_blank_dec c : Decision (fp_blank c).
Proof. unfold fp_blank. apply _. Defined.

Fixpoint drop_blanks (v : bytes) : bytes :=
  match v with
  | c :: rest => if decide (fp_blank c) then drop_blanks rest else v
  | [] => []
  end.
Definition trim (v : bytes) : bytes := reverse (drop_blanks (reverse (drop_blanks v))).

(** What one (label, value) argument means, and a list of them: the first
    argument that is not acceptable decides the error. *)
Abbreviation argument := (option bytes * option bytes)%type.
Abbreviation part := (bytes * bytes)%type.

Definition fp_part (p : argument) : part + TamgaErrorCode :=
  match p with
  | (Some l, Some v) =>
      if decide (label_ok (c_view l) /\ value_ok (trim (c_view v)))
      then inl (c_view l, trim (c_view v)) else inr TAMGA_ERR_INVALID_FINGERPRINT_COMPONENT
  | _ => inr TAMGA_ERR_NULL_ARGUMENT
  end.

Fixpoint fp_parts (ps : list argument) : list part + TamgaErrorCode :=
  match ps with
  | [] => inl []
  | p :: ps => match fp_part p with
               | inr e => inr e
               | inl c => match fp_parts ps with inr e => inr e | inl cs => inl (c :: cs) end
               end
  end.

Definition part_text (p : part) : bytes := p.1 ++ 61 :: p.2.

Definition fp_join (texts : list bytes) : bytes := concat (map (cons 31) texts).

(** The canonical string of a set of parts. *)
Definition fp_canonical (cs : list part) : bytes :=
  bstr "tamga-fingerprint-v1" ++ fp_join (merge_sort lex_le (map part_text cs)).

(** What a list of (label, value) arguments yields. *)
Definition fp_spec (ps : list argument) : bytes + TamgaErrorCode :=
  if decide (ps = []) then inr TAMGA_ERR_INVALID_FINGERPRINT_COMPONENT
  else match fp_parts ps with
       | inr e => inr e
       | inl cs => if decide (NoDup (map fst cs)) then inl (fp_canonical cs)
                   else inr TAMGA_ERR_INVALID_FINGERPRINT_COMPONENT
       end.

(** A bound on the memory a call needs. *)
Definition part_size (p : argument) : Z := zlen (default [] p.1) + zlen (default [] p.2) + 26.
Definition fp_size (ps : list argument) : Z := 20 + foldr (fun p n => part_size p + n) 0 ps.

(** ** The order *)

Lemma lex_cmp_opp a b : lex_cmp b a = - lex_cmp a b.
Proof.
  revert b. induction a as [|x a IH]; intros [|y b]; simpl; try done.
  destruct (Z.ltb_spec x y), (Z.ltb_spec y x); try done; lia.
Qed.

Lemma lex_cmp_zero a b : lex_cmp a b = 0 -> a = b.
Proof.
  revert b. induction a as [|x a IH]; intros [|y b]; simpl; try done.
  destruct (Z.ltb_spec x y); [done|]. destruct (Z.ltb_spec y x); [done|]. intros E. f_equal; [lia|auto].
Qed.

Lemma lex_le_trans a b c : lex_le a b -> lex_le b c -> lex_le a c.
Proof.
  unfold lex_le. revert b c. induction a as [|x a IH]; intros [|y b] [|z c]; simpl; try lia.
  destruct (Z.ltb_spec x y), (Z.ltb_spec y x), (Z.ltb_spec y z), (Z.ltb_spec z y),
    (Z.ltb_spec x z), (Z.ltb_spec z x); try lia. apply IH.
Qed.

#[export] Instance lex_le_preorder : Transitive lex_le.
Proof. intros ???. apply lex_le_trans. Qed.
#[export] Instance lex_le_total : Total lex_le.
Proof. intros a b. unfold lex_le. rewrite (lex_cmp_opp a b). lia. Qed.
#[export] Instance lex_le_antisym : AntiSymm (=) lex_le.
Proof. intros a b. unfold lex_le. rewrite (lex_cmp_opp a b). intros. apply lex_cmp_zero. lia. Qed.

(** What lies between two extensions of [p] extends [p]. *)
Lemma lex_between p a b t : lex_le (p ++ a) t -> lex_le t (p ++ b) -> exists c, t = p ++ c.
Proof.
  unfold lex_le. revert t. induction p as [|x p IH]; intros t; [intros; by exists t|].
  destruct t as [|y t]; simpl; [lia|].
  destruct (Z.ltb_spec x y), (Z.ltb_spec y x); try lia. intros H1 H2.
  destruct (IH t H1 H2) as [c ->]. exists c. f_equal. lia.
Qed.

Lemma memcmp_lex a b :
  (let shortest := if (length a <? length b)%nat then length a else length b in
   let order := if (0 <? shortest)%nat then memcmp shortest a b else 0 in
   if negb (order =? 0) then order
   else if (length a =? length b)%nat then 0 else if (length a <? length b)%nat then -1 else 1) = lex_cmp a b.
Proof.
  cbv zeta. assert (forall n a b, (if (0 <? n)%nat then memcmp n a b else 0) = memcmp n a b) as ->
    by (intros [|n] ??; done).
  revert b. induction a as [|x a IH]; intros [|y b]; simpl; try done.
  specialize (IH b). change (S (length a) <? S (length b))%nat with (length a <? length b)%nat.
  destruct (length a <? length b)%nat; simpl;
    (destruct (x <? y); [done|]; destruct (y <? x); [done|]; exact IH).
Qed.

Lemma fp_compare_lex x y : tamga_fp_compare x y = lex_cmp (fp_text x) (fp_text y).
Proof. apply memcmp_lex. Qed.

Lemma fp_compare_consistent : consistent tamga_fp_compare.
Proof.
  split; intros.
  - rewrite !fp_compare_lex. apply lex_le_total.
  - rewrite fp_compare_lex in *. by eapply lex_le_trans.
Qed.

Lemma memcmp_eq n a b :
  (n <= length a)%nat -> (n <= length b)%nat -> (memcmp n a b =? 0) = bool_decide (take n a = take n b).
Proof.
  revert a b. induction n as [|n IH]; intros a b Ha Hb; [by rewrite bool_decide_true|].
  destruct a as [|x a]; [simpl in Ha; lia|]. destruct b as [|y b]; [simpl in Hb; lia|].
  cbn [memcmp take]. simpl in Ha, Hb.
  destruct (Z.ltb_spec x y); [rewrite bool_decide_false by (intros [=]; lia); done|].
  destruct (Z.ltb_spec y x); [rewrite bool_decide_false by (intros [=]; lia); done|].
  rewrite IH by lia. apply bool_decide_ext. split; [intros ->; f_equal; lia|by intros [=]].
Qed.

(** ** Texts of parts *)

Definition part_ok (p : part) : Prop := label_ok p.1 /\ value_ok p.2.

Lemma split_first x (l1 a l2 b : bytes) :
  ~ In x l1 -> ~ In x l2 -> l1 ++ x :: a = l2 ++ x :: b -> l1 = l2 /\ a = b.
Proof.
  revert l2. induction l1 as [|y l1 IH]; intros [|z l2] H1 H2 E; simpl in *; simplify_eq; try done.
  - exfalso; tauto.
  - exfalso; tauto.
  - destruct (IH l2) as [-> ->]; tauto.
Qed.

Lemma label_ok_eq l : label_ok l -> ~ In 61 l.
Proof. intros [_ H] Hin%list_elem_of_In. rewrite Forall_forall in H. by destruct (H _ Hin). Qed.

(** No separator, and no zero byte, inside a part. *)
Lemma part_text_no c p : part_ok p -> 0 <= c <= 0x1F -> ~ In c (part_text p).
Proof.
  intros [[_ Hl] Hv] Hc Hin%list_elem_of_In. unfold part_text in Hin. rewrite Forall_forall in Hl.
  unfold value_ok in Hv. rewrite Forall_forall in Hv.
  apply elem_of_app in Hin as [Hin|Hin]; [destruct (Hl _ Hin); lia|].
  apply elem_of_cons in Hin as [->|Hin]; [lia|]. specialize (Hv _ Hin). simpl in Hv. lia.
Qed.

Lemma part_text_inj p q : part_ok p -> part_ok q -> part_text p = part_text q -> p = q.
Proof.
  destruct p as [l v], q as [l' v']. intros [Hl _] [Hl' _] E. unfold part_text in E.
  apply split_first in E as [E1 E2]; [by simpl in *; subst|by apply label_ok_eq|by apply label_ok_eq].
Qed.

Lemma part_texts_inj cs1 cs2 :
  Forall part_ok cs1 -> Forall part_ok cs2 -> map part_text cs1 = map part_text cs2 -> cs1 = cs2.
Proof.
  intros H1. revert cs2. induction H1 as [|p cs1 Hp H1 IH]; intros [|q cs2] H2 E; csimpl in *; try done.
  apply Forall_cons in H2 as [Hq H2]. injection E as E1 E2. f_equal; [by apply part_text_inj|by apply IH].
Qed.

Lemma part_texts_perm cs1 cs2 :
  Forall part_ok cs1 -> Forall part_ok cs2 ->
  Permutation (map part_text cs1) (map part_text cs2) -> Permutation cs1 cs2.
Proof.
  intros H1 H2 Hp. apply Permutation_map_inv in Hp as (cs & E & Hp).
  rewrite Hp in H2. rewrite Hp. by rewrite (part_texts_inj cs1 cs).
Qed.

(** The joined texts determine the texts. *)
Lemma join_inj ts1 ts2 :
  Forall (fun t => ~ In 31 t) ts1 -> Forall (fun t => ~ In 31 t) ts2 ->
  fp_join ts1 = fp_join ts2 -> ts1 = ts2.
Proof.
  assert (forall t1 t2 r1 r2, ~ In 31 t1 -> ~ In 31 t2 -> t1 ++ fp_join r1 = t2 ++ fp_join r2 ->
    t1 = t2 /\ fp_join r1 = fp_join r2) as Hsplit.
  { intros t1 t2 r1 r2 H1 H2 E. destruct r1 as [|u1 r1], r2 as [|u2 r2]; unfold fp_join in E; simpl in E.
    - rewrite !app_nil_r in E. by subst.
    - rewrite app_nil_r in E. subst t1. exfalso. apply H1, in_or_app. right. by left.
    - rewrite app_nil_r in E. subst t2. exfalso. apply H2, in_or_app. right. by left.
    - apply split_first in E as [-> E]; [|done|done]. split; [done|]. unfold fp_join. simpl. by rewrite E. }
  intros H1. revert ts2. induction H1 as [|t1 ts1 Ht1 H1 IH]; intros [|t2 ts2] H2 E; try done.
  apply Forall_cons in H2 as [Ht2 H2]. injection E as E.
  apply Hsplit in E as [-> E]; [|done|done]. f_equal. by apply IH.
Qed.

Lemma canonical_inj cs1 cs2 :
  Forall part_ok cs1 -> Forall part_ok cs2 ->
  fp_canonical cs1 = fp_canonical cs2 <-> Permutation cs1 cs2.
Proof.
  intros H1 H2. unfold fp_canonical.
  assert (forall cs, Forall part_ok cs -> Forall (fun t => ~ In 31 t) (merge_sort lex_le (map part_text cs))) as Hno.
  { intros cs H. rewrite merge_sort_Permutation. apply Forall_map, (Forall_impl _ _ _ H).
    intros p Hp. by apply part_text_no. }
  split.
  - intros E%app_inv_head. apply join_inj in E; [|by apply Hno..]. apply part_texts_perm; [done|done|].
    rewrite <- (merge_sort_Permutation lex_le (map part_text cs1)), E. apply merge_sort_Permutation.
  - intros Hp. do 2 f_equal. apply (StronglySorted_unique lex_le).
    + apply StronglySorted_merge_sort; apply _.
    + apply StronglySorted_merge_sort; apply _.
    + by rewrite !merge_sort_Permutation, Hp.
Qed.

(** ** The adjacent pass finds every repeated label *)

Definition comp_of (p : part) : TamgaFpComponent := mk_component (part_text p) (length p.1).

Lemma comp_same_label p q :
  (fp_label_len (comp_of p) =? fp_label_len (comp_of q))%nat &&
  (memcmp (fp_label_len (comp_of q)) (fp_text (comp_of p)) (fp_text (comp_of q)) =? 0) = bool_decide (p.1 = q.1).
Proof.
  cbn [comp_of fp_label_len fp_text]. destruct (Nat.eqb_spec (length p.1) (length q.1)) as [E|E]; cbn [andb].
  - rewrite memcmp_eq by (unfold part_text; rewrite length_app; lia).
    apply bool_decide_ext. unfold part_text. rewrite take_app_length, <- E, take_app_length. done.
  - symmetry. apply bool_decide_eq_false. congruence.
Qed.

(** Adjacent labels differ. *)
Fixpoint adjacent_distinct (p : part) (ps : list part) : Prop :=
  match ps with
  | [] => True
  | q :: ps => p.1 <> q.1 /\ adjacent_distinct q ps
  end.

Lemma reject_duplicates_post p ps :
  post (tamga_fp_reject_duplicates (comp_of p) (map comp_of ps)) (fun r =>
    (r = TAMGA_OK /\ adjacent_distinct p ps) \/
    (r = TAMGA_ERR_INVALID_FINGERPRINT_COMPONENT /\ ~ adjacent_distinct p ps)).
Proof.
  revert p. induction ps as [|q ps IH]; intros p.
  - apply post_ret. by left.
  - cbn [map tamga_fp_reject_duplicates adjacent_distinct]. rewrite comp_same_label. case_bool_decide as E.
    + intros s. rewrite error_set_code. right. tauto.
    + apply (post_mono _ _ _ (IH q)). intros r [[-> H]|[-> H]]; tauto.
Qed.

Lemma sorted_adjacent p ps :
  Forall part_ok (p :: ps) -> StronglySorted lex_le (map part_text (p :: ps)) ->
  adjacent_distinct p ps <-> NoDup (map fst (p :: ps)).
Proof.
  revert p. induction ps as [|q ps IH]; intros p Hok Hs.
  - split; [intros _; cbn; apply NoDup_singleton|done].
  - apply Forall_cons in Hok as [Hp Hok]. apply StronglySorted_inv in Hs as [Hs Hle].
    cbn [adjacent_distinct map]. rewrite NoDup_cons. rewrite <- (IH q) by done. split.
    + intros [Hne Had]. split; [|done]. intros Hin. cbn [map] in Hin.
      apply elem_of_cons in Hin as [?|Hin]; [done|].
      apply list_elem_of_fmap in Hin as (r & Er & Hr).
      assert (lex_le (part_text p) (part_text q)) as Hpq by (by apply Forall_cons in Hle as [? _]).
      apply StronglySorted_inv in Hs as [_ Hle2]. rewrite Forall_forall in Hle2.
      assert (lex_le (part_text q) (part_text r)) as Hqr by (apply Hle2, list_elem_of_fmap; eauto).
      destruct (lex_between (p.1 ++ [61]) p.2 r.2 (part_text q)) as [c Ec].
      * by rewrite <- app_assoc.
      * rewrite <- app_assoc, Er. done.
      * rewrite <- app_assoc in Ec. apply Forall_cons in Hok as [Hq _].
        apply split_first in Ec as [? _]; [done|apply label_ok_eq, Hq|apply label_ok_eq, Hp].
    + intros [Hnin Had]. split; [|done]. intros E. apply Hnin. rewrite E. apply elem_of_cons. by left.
Qed.

(** ** One component *)

Lemma label_scan_spec l i :
  label_scan l i = if decide (Forall label_char l /\ (0 < i + length l)%nat) then Some (i + length l)%nat else None.
Proof.
  revert i. induction l as [|c l IH]; intros i; cbn [label_scan length].
  - rewrite Nat.add_0_r. destruct (Nat.ltb_spec 0 i).
    + rewrite decide_True; [done|]. split; [constructor|lia].
    + rewrite decide_False; [done|]. intros []. lia.
  - destruct ((c <? 0x21) || (c >? 0x7E) || (c =? 61)) eqn:E.
    + rewrite decide_False; [done|]. intros [[[Hc ?] _]%Forall_cons _].
      apply orb_true_iff in E as [E|E]; [apply orb_true_iff in E as [E|E]|]; lia.
    + apply orb_false_iff in E as [[? ?]%orb_false_iff ?]. rewrite IH.
      replace (S i + length l)%nat with (i + S (length l))%nat by lia.
      apply decide_ext. rewrite Forall_cons. unfold label_char. split; intros []; split; try done; [|tauto].
      split; [|done]. split; lia.
Qed.

Lemma label_is_valid_spec l :
  tamga_fp_label_is_valid l = if decide (label_ok l) then Some (length l) else None.
Proof.
  unfold tamga_fp_label_is_valid. rewrite label_scan_spec. apply decide_ext. unfold label_ok.
  destruct l; simpl; split; intros []; split; try done; lia.
Qed.

Lemma control_spec v : existsb tamga_fp_is_control v = negb (bool_decide (value_ok v)).
Proof.
  unfold value_ok. induction v as [|c v IH]; [done|]. cbn [existsb]. rewrite IH.
  unfold tamga_fp_is_control. destruct ((c <=? 0x1F) || (c =? 0x7F)) eqn:E.
  - rewrite (bool_decide_false (Forall _ (c :: v))); [done|]. intros [? _]%Forall_cons. lia.
  - cbn [orb]. f_equal. apply bool_decide_ext. rewrite Forall_cons. intuition lia.
Qed.

Lemma is_space_blank c : tamga_fp_is_space c = bool_decide (fp_blank c).
Proof. unfold tamga_fp_is_space, fp_blank. case_bool_decide; lia. Qed.

Lemma trim_start_drop v : trim_start v = drop_blanks v.
Proof.
  induction v as [|c v IH]; [done|]. cbn [trim_start drop_blanks]. rewrite is_space_blank, IH.
  by case_bool_decide; case_decide.
Qed.

Lemma drop_blanks_app v w :
  drop_blanks (v ++ w) = match drop_blanks v with [] => drop_blanks w | v' => v' ++ w end.
Proof. induction v as [|c v IH]; [done|]. cbn [app drop_blanks]. by case_decide. Qed.

Lemma trim_end_drop v : trim_end v = reverse (drop_blanks (reverse v)).
Proof.
  induction v as [|c v IH]; [done|]. cbn [trim_end]. rewrite IH, reverse_cons, drop_blanks_app, is_space_blank.
  destruct (drop_blanks (reverse v)) as [|d w]; cbn [drop_blanks].
  - by case_bool_decide; case_decide.
  - rewrite reverse_app. cbn [app reverse]. destruct (reverse (d :: w)) eqn:E; [|done].
    by apply (f_equal length) in E; rewrite length_reverse in E.
Qed.

Lemma trim_code v : trim_end (trim_start v) = trim v.
Proof. by rewrite trim_end_drop, trim_start_drop. Qed.

Lemma trim_length v : (length (trim v) <= length v)%nat.
Proof.
  assert (forall w, length (trim_start w) <= length w)%nat as H1.
  { induction w as [|c w IH]; simpl; [lia|]. destruct (tamga_fp_is_space c); simpl; lia. }
  assert (forall w, length (trim_end w) <= length w)%nat as H2.
  { induction w as [|c w IH]; simpl; [lia|]. destruct (trim_end w); [destruct (tamga_fp_is_space c)|]; simpl in *; lia. }
  rewrite <- trim_code. specialize (H1 v). specialize (H2 (trim_start v)). lia.
Qed.

Section Spec.
Context {malloc : Malloc} {qs : Qsort} {laws : QsortLaws}.

(** [r] is what the specification says, or the allocator ran out. *)
Definition or_oom {A} (size : Z) (spec r : A + TamgaErrorCode) : Prop :=
  r = spec \/ (r = inr TAMGA_ERR_OUT_OF_MEMORY /\ ~ enough size).

Lemma or_oom_mono A n m (spec r : A + TamgaErrorCode) : or_oom n spec r -> n <= m -> or_oom m spec r.
Proof. intros [->|[-> Hno]] Hle; [by left|]. right. split; [done|]. intros He. apply Hno. by eapply enough_mono. Qed.

Lemma part_size_text l v p : fp_part (Some l, Some v) = inl p -> zlen (part_text p) + 24 < part_size (Some l, Some v).
Proof.
  unfold fp_part. case_decide; [|done]. intros [= <-]. unfold part_text, part_size. cbn.
  rewrite length_app. cbn [length]. pose proof (c_view_length l). pose proof (c_view_length v).
  pose proof (trim_length (c_view v)). lia.
Qed.

Lemma fp_part_ok a p : fp_part a = inl p -> part_ok p.
Proof. destruct a as [[l|] [v|]]; cbn [fp_part]; try done. case_decide as Hd; [|done]. by intros [= <-]. Qed.

Lemma build_component_post l v i :
  post (tamga_fp_build_component l v i) (or_oom (part_size (l, v)) (
    match fp_part (l, v) with inl p => inl (comp_of p) | inr e => inr e end)).
Proof.
  destruct l as [l|], v as [v|]; try (apply (post_mono _ _ _ (err_post _ _ _)); by left).
  unfold tamga_fp_build_component. rewrite label_is_valid_spec, control_spec, trim_code.
  destruct (fp_part (Some l, Some v)) as [p|e] eqn:Ep.
  2:{ unfold fp_part in Ep. case_decide as Hd; [done|]. injection Ep as <-. case_decide as Hl.
      - rewrite bool_decide_false by tauto. apply (post_mono _ _ _ (err_post _ _ _)). by left.
      - apply (post_mono _ _ _ (err_post _ _ _)). by left. }
  pose proof (part_size_text _ _ _ Ep) as Hsize. pose proof (fp_part_ok _ _ Ep) as Hok.
  unfold fp_part in Ep. case_decide as Hd; [|done]. injection Ep as <-. destruct Hd as [Hl Hv].
  rewrite decide_True, bool_decide_true by done. cbn [negb]. rewrite take_ge by done.
  set (total := part_size (Some l, Some v)) in *.
  eapply post_bind; [apply (buf_has_append total), buf_has_init|]. intros b1 H1.
  eapply post_bind; [apply (buf_has_append total), H1|]. intros b2 H2.
  eapply post_bind; [apply (buf_has_append total), H2|]. intros b3 H3.
  cbn [app] in H3. rewrite <- app_assoc in H3. change (buf_has total b3 (part_text (c_view l, trim (c_view v)))) in H3.
  eapply post_bind; [apply (buf_has_detach total _ _ H3), part_text_no; [done|lia]|].
  intros [r b4] [->|[-> Hoom]].
  - apply post_ret. by left.
  - apply (post_mono _ _ _ (err_post _ _ _)). intros r ->. right. split; [done|].
    intros He. apply Hoom. split; [done|lia].
Qed.

(** ** All components *)

Abbreviation parts_size ps := (foldr (fun p n => part_size p + n) 0 ps).

Lemma parts_size_nonneg ps : 26 * zlen ps <= parts_size ps.
Proof. induction ps as [|p ps IH]; simpl; [lia|]. unfold part_size in *. lia. Qed.

Lemma build_all_post labels values ps i :
  (forall k, (k < length ps)%nat -> nth_error ps k = Some (nth (i + k) labels None, nth (i + k) values None)) ->
  post (fp_build_all labels values i (length ps)) (or_oom (parts_size ps) (
    match fp_parts ps with inl cs => inl (map comp_of cs) | inr e => inr e end)).
Proof.
  revert i. induction ps as [|p ps IH]; intros i H; [apply post_ret; by left|].
  cbn [length fp_build_all fp_parts]. pose proof (H 0%nat ltac:(simpl; lia)) as H0. injection H0 as H0.
  rewrite Nat.add_0_r in H0. pose proof (parts_size_nonneg ps). cbn [foldr].
  assert (0 <= part_size p) by (unfold part_size; lia).
  eapply post_bind; [apply build_component_post|]. rewrite <- H0. intros r [->|[-> Hoom]].
  2:{ apply post_ret. eapply or_oom_mono; [right; done|lia]. }
  destruct (fp_part p) as [c|e]; [|apply post_ret; by left].
  eapply post_bind; [apply (IH (S i))|].
  { intros k Hk. change (nth_error ps k) with (nth_error (p :: ps) (S k)).
    replace (S i + k)%nat with (i + S k)%nat by lia. apply H. simpl. lia. }
  intros r [->|[-> Hoom]].
  - destruct (fp_parts ps) as [cs|e]; apply post_ret; by left.
  - apply post_ret. eapply or_oom_mono; [right; done|lia].
Qed.

Lemma fp_parts_ok ps cs : fp_parts ps = inl cs -> Forall part_ok cs /\ length cs = length ps /\
  zlen (fp_join (map part_text cs)) + 23 * zlen ps <= parts_size ps.
Proof.
  revert cs. induction ps as [|p ps IH]; intros cs; simpl; [intros [= <-]; done|].
  destruct (fp_part p) as [c|] eqn:Ec; [|done]. destruct (fp_parts ps) as [cs'|]; [|done]. intros [= <-].
  destruct (IH cs' eq_refl) as (H1 & H2 & H3). split_and!.
  - constructor; [by eapply fp_part_ok|done].
  - simpl. lia.
  - destruct p as [[l|] [v|]]; try done. pose proof (part_size_text _ _ _ Ec). unfold fp_join in *. cbn [map concat app length].
    rewrite length_app. lia.
Qed.

Lemma join_length_perm ts1 ts2 : Permutation ts1 ts2 -> length (fp_join ts1) = length (fp_join ts2).
Proof. unfold fp_join. induction 1; cbn [map concat app length] in *; rewrite ?length_app; cbn [length]; rewrite ?length_app; lia. Qed.

Lemma append_all_post total cs b l :
  buf_has total b l -> post (fp_append_all b cs) (fun b' => buf_has total b' (l ++ fp_join (map fp_text cs))).
Proof.
  revert b l. induction cs as [|c cs IH]; intros b l Hb; cbn [fp_append_all].
  - apply post_ret. by rewrite app_nil_r.
  - eapply post_bind; [apply buf_has_append, Hb|]. intros b1 H1.
    eapply post_bind; [apply buf_has_append, H1|]. intros b2 H2.
    eapply post_mono; [apply IH, H2|]. intros b3 H3. unfold fp_join in *. cbn [map concat app] in *.
    by rewrite <- !app_assoc in H3.
Qed.

(** ** The whole function *)

Lemma calloc_enough n size s : 0 <= n -> 0 <= size -> enough size -> n * 24 <= size -> (tamga_calloc n 24 s).1 = true.
Proof.
  intros Hn Hs He Hle. unfold tamga_calloc. assert (n * 24 <= SIZE_MAX) by (destruct He as (lim & _ & ? & ?); lia).
  rewrite (proj2 (checked_mul_Some n 24 (n * 24) Hn ltac:(lia))) by done.
  apply (enough_malloc size); [done|]. destruct (Z.eqb_spec (n * 24) 0); lia.
Qed.

(** The sorted components are the sorted parts. *)
Lemma qsort_parts cs :
  exists sorted, qsort tamga_fp_compare (map comp_of cs) = map comp_of sorted /\
    Permutation sorted cs /\ StronglySorted lex_le (map part_text sorted).
Proof.
  pose proof (qsort_perm _ tamga_fp_compare (map comp_of cs) fp_compare_consistent) as Hp.
  pose proof (qsort_sorted _ tamga_fp_compare (map comp_of cs) fp_compare_consistent) as Hs.
  apply Permutation_map_inv in Hp as (sorted & E & Hp). exists sorted. split_and!; [done|by symmetry|].
  rewrite E in Hs. clear -Hs. induction sorted as [|p ps IH]; [constructor|]. cbn [map] in *.
  apply StronglySorted_inv in Hs as [Hs Hf]. rewrite Forall_forall in Hf.
  constructor; [by apply IH|]. apply Forall_forall. intros t (q & -> & Hq)%list_elem_of_fmap.
  specialize (Hf (comp_of q)). rewrite fp_compare_lex in Hf. apply Hf, list_elem_of_fmap. eauto.
Qed.

(** Writing the sorted parts writes the canonical string. *)
Lemma canonical_sorted cs sorted :
  Permutation sorted cs -> StronglySorted lex_le (map part_text sorted) ->
  TAMGA_FINGERPRINT_DOMAIN ++ fp_join (map fp_text (map comp_of sorted)) = fp_canonical cs.
Proof.
  intros Hp Hs. unfold fp_canonical. do 2 f_equal. rewrite map_map. change (map (fun x => fp_text (comp_of x)) sorted) with (map part_text sorted).
  apply (StronglySorted_unique lex_le); [done|apply StronglySorted_merge_sort; apply _|].
  by rewrite merge_sort_Permutation, Hp.
Qed.

Lemma canonical_no_nul cs : Forall part_ok cs -> ~ In 0 (fp_canonical cs).
Proof.
  intros Hok Hin. unfold fp_canonical in Hin. apply in_app_or in Hin as [Hin|Hin]; [by vm_compute in Hin; decompose [or] Hin|].
  unfold fp_join in Hin. apply in_concat in Hin as (t & Ht & H0). apply in_map_iff in Ht as (u & <- & Hu).
  destruct H0 as [H0|H0]; [done|]. apply list_elem_of_In in Hu. rewrite merge_sort_Permutation in Hu.
  apply list_elem_of_fmap in Hu as (p & -> & Hp). rewrite Forall_forall in Hok.
  apply (part_text_no 0 p); [by apply Hok|lia|done].
Qed.

Lemma write_canonical_post cs sorted size :
  Forall part_ok cs -> Permutation sorted cs -> StronglySorted lex_le (map part_text sorted) ->
  zlen (fp_canonical cs) <= size ->
  post (let! buf := tamga_buf_append_str tamga_buf_init (Some TAMGA_FINGERPRINT_DOMAIN) in
        let! buf := fp_append_all buf (map comp_of sorted) in
        let! (canonical, _) := tamga_buf_detach_string buf in
        match canonical with
        | None => err TAMGA_ERR_OUT_OF_MEMORY (bstr "could not build the fingerprint")
        | Some canonical => ret (inl canonical)
        end) (or_oom size (inl (fp_canonical cs))).
Proof.
  intros Hok Hp Hs Hsize.
  eapply post_bind; [apply (buf_has_append size), buf_has_init|]. intros b1 H1.
  eapply post_bind; [apply (append_all_post size), H1|]. intros b2 H2.
  change ([] ++ c_view TAMGA_FINGERPRINT_DOMAIN) with TAMGA_FINGERPRINT_DOMAIN in H2.
  rewrite (canonical_sorted cs) in H2 by done.
  eapply post_bind; [apply (buf_has_detach size _ _ H2), canonical_no_nul, Hok|]. intros [r b3] [->|[-> Hoom]].
  - apply post_ret. by left.
  - apply (post_mono _ _ _ (err_post _ _ _)). intros r ->. right. split; [done|].
    intros He. by apply Hoom.
Qed.

Lemma fingerprint_post labels values :
  length values = length labels ->
  post (tamga_fingerprint_build_canonical (Some labels) (Some values) (length labels))
    (or_oom (fp_size (zip labels values)) (fp_spec (zip labels values))).
Proof.
  intros Hlen. set (ps := zip labels values). assert (length ps = length labels) as Hps by (subst ps; rewrite length_zip_with; lia).
  unfold tamga_fingerprint_build_canonical, fp_spec, fp_size. rewrite <- Hps. pose proof (parts_size_nonneg ps) as Hsz.
  destruct (Nat.eqb_spec (length ps) 0) as [E|E].
  { apply nil_length_inv in E. rewrite decide_True by done. apply (post_mono _ _ _ (err_post _ _ _)). by left. }
  rewrite decide_False by (intros ->; done).
  eapply (post_bind _ _ (fun ok => ok = true \/ ok = false /\ ~ enough (20 + parts_size ps))).
  { intros s. destruct (tamga_calloc _ _ s).1 eqn:Ec; [by left|]. right. split; [done|]. intros He.
    pose proof (calloc_enough (zlen ps) (20 + parts_size ps) s ltac:(lia) ltac:(lia) He ltac:(lia)) as Hc.
    unfold sizeof_component in Ec. by rewrite Hc in Ec. }
  intros ok [->|[-> Hoom]]; cbn [negb].
  2:{ apply (post_mono _ _ _ (err_post _ _ _)). intros r ->. by right. }
  eapply post_bind; [apply (build_all_post labels values ps 0)|].
  { intros k Hk. rewrite Hps in Hk. subst ps. clear -Hk Hlen. revert values k Hk Hlen.
    induction labels as [|l labels IH]; intros [|v values] k Hk Hlen; simpl in *; try lia.
    destruct k; [done|]. apply IH; lia. }
  intros r [->|[-> Hoom]]; [|apply post_ret; eapply or_oom_mono; [by right|lia]].
  destruct (fp_parts ps) as [cs|e] eqn:Ecs; [|apply post_ret; by left].
  destruct (fp_parts_ok _ _ Ecs) as (Hok & Hlcs & Hjoin).
  destruct (qsort_parts cs) as (sorted & -> & Hperm & Hsorted).
  destruct sorted as [|p sorted]; [apply Permutation_nil_l in Hperm; subst cs; simpl in Hlcs; lia|].
  assert (Forall part_ok (p :: sorted)) as Hoks by (by rewrite Hperm).
  pose proof (sorted_adjacent p sorted Hoks Hsorted) as Hadj.
  assert (NoDup (map fst (p :: sorted)) <-> NoDup (map fst cs)) as Hnd by (by rewrite Hperm).
  eapply post_bind; [apply reject_duplicates_post|]. intros r [[-> Hd]|[-> Hd]].
  - rewrite decide_True by done. rewrite (decide_True (P := NoDup _)) by tauto.
    apply (write_canonical_post cs (p :: sorted)); [done..|].
    unfold fp_canonical. rewrite length_app, (join_length_perm _ (map part_text cs)) by apply merge_sort_Permutation.
    change (length (bstr "tamga-fingerprint-v1")) with 20%nat. lia.
  - rewrite decide_False by done. rewrite (decide_False (P := NoDup _)) by tauto. apply post_ret. by left.
Qed.

(** The arrays that are there hold [count] pointers. *)
Definition arrays_of (count : nat) (labels values : option (list (option bytes))) : Prop :=
  forall l v, labels = Some l -> values = Some v -> length l = count /\ length v = count.

(** (C39) The fingerprint builder computes exactly its specification, whatever
    the C library's sort does with equal keys. A null array is refused with
    TAMGA_ERR_NULL_ARGUMENT, whatever the count and the allocator. With both
    arrays there, of the length the caller gives, an empty list, a null entry,
    a bad label, a control character left after trimming and a repeated label
    are refused with the code of the first offence, and everything else yields
    the domain tag followed by the separated label=value texts in byte order;
    the only other outcome is TAMGA_ERR_OUT_OF_MEMORY, and only when the
    allocator refuses a request that the input's size bounds. *)
Theorem fingerprint_exact labels values count s :
  arrays_of count labels values ->
  let r := (tamga_fingerprint_build_canonical labels values count s).1 in
  match labels, values with
  | Some l, Some v =>
      r = fp_spec (zip l v) \/ (r = inr TAMGA_ERR_OUT_OF_MEMORY /\ ~ enough (fp_size (zip l v)))
  | _, _ => r = inr TAMGA_ERR_NULL_ARGUMENT
  end.
Proof.
  intros H. destruct labels as [l|], values as [v|]; try exact (err_post _ _ _ s).
  destruct (H l v eq_refl eq_refl) as [<- Hv]. apply (fingerprint_post l v Hv s).
Qed.

(** What an accepted input identifies the machine by. *)
Definition fp_identity (labels values : list (option bytes)) : list part :=
  match fp_parts (zip labels values) with inl cs => cs | inr _ => [] end.

(** A canonical fingerprint is an identity: two accepted inputs, under
    any allocators, get the same string exactly when they have the same set of
    (label, trimmed value) pairs. In particular the order in which the caller
    lists the components never matters, and no two different sets collide. *)
Theorem fingerprint_identity l1 v1 s1 c1 l2 v2 s2 c2 :
  length v1 = length l1 -> length v2 = length l2 ->
  (tamga_fingerprint_build_canonical (Some l1) (Some v1) (length l1) s1).1 = inl c1 ->
  (tamga_fingerprint_build_canonical (Some l2) (Some v2) (length l2) s2).1 = inl c2 ->
  c1 = c2 <-> Permutation (fp_identity l1 v1) (fp_identity l2 v2).
Proof.
  intros H1 H2 E1 E2.
  assert (forall l v s c, length v = length l ->
    (tamga_fingerprint_build_canonical (Some l) (Some v) (length l) s).1 = inl c ->
    c = fp_canonical (fp_identity l v) /\ Forall part_ok (fp_identity l v)) as Hc.
  { intros l v s c Hl E. destruct (fingerprint_post l v Hl s) as [E'|[E' _]]; rewrite E in E'; [|done].
    unfold fp_spec in E'. case_decide; [done|]. unfold fp_identity.
    destruct (fp_parts (zip l v)) as [cs|] eqn:Ecs; [|done]. case_decide; [|done].
    injection E' as ->. split; [done|]. by apply fp_parts_ok in Ecs as [? _]. }
  destruct (Hc _ _ _ _ H1 E1) as [-> ?]. destruct (Hc _ _ _ _ H2 E2) as [-> ?]. by apply canonical_inj.
Qed.
End Spec.

Lemma fingerprint_exact_witness :
  let l := [Some (bstr "id"); Some (bstr "id")] in let v := [Some (bstr "1"); Some (bstr "2")] in
  let run l v := (tamga_fingerprint_build_canonical (malloc := full_memory) (qs := merge_qsort) l v 2 (mk_st 0 None)).1 in
  (run (Some l) (Some v) = inr TAMGA_ERR_INVALID_FINGERPRINT_COMPONENT \/
   (run (Some l) (Some v) = inr TAMGA_ERR_OUT_OF_MEMORY /\ ~ enough (malloc := full_memory) (fp_size (zip l v)))) /\
  run None (Some v) = inr TAMGA_ERR_NULL_ARGUMENT.
Proof.
  intros l v run. split.
  - apply (fingerprint_exact (malloc := full_memory) (qs := merge_qsort) (Some l) (Some v) 2 (mk_st 0 None)).
    intros l' v' [= <-] [= <-]. by split.
  - apply (fingerprint_exact (malloc := full_memory) (qs := merge_qsort) None (Some v) 2 (mk_st 0 None)).
    intros l' v' [=].
Defined.

Lemma fingerprint_identity_witness :
  let run l v := (tamga_fingerprint_build_canonical (malloc := full_memory) (qs := merge_qsort) (Some l) (Some v) 2 (mk_st 0 None)).1 in
  let c := bstr "tamga-fingerprint-v1" ++ [31] ++ bstr "cpu=x" ++ [31] ++ bstr "mac=y" in
  run [Some (bstr "cpu"); Some (bstr "mac")] [Some (bstr "x "); Some (bstr "y")] = inl c /\
  (c = c <-> Permutation [(bstr "cpu", bstr "x"); (bstr "mac", bstr "y")] [(bstr "mac", bstr "y"); (bstr "cpu", bstr "x")]).
Proof.
  intros run c. split; [vm_compute; reflexivity|].
  apply (fingerprint_identity (malloc := full_memory) (qs := merge_qsort)
    [Some (bstr "cpu"); Some (bstr "mac")] [Some (bstr "x "); Some (bstr "y")] (mk_st 0 None) c
    [Some (bstr "mac"); Some (bstr "cpu")] [Some (bstr " y"); Some (bstr "x")] (mk_st 0 None) c);
    try reflexivity; vm_compute; reflexivity.
Defined.
