(* ===== verification/Pem.v ===== *)
(** * The PEM envelope: [src/src/checkout/pem.c]

    [pem] is the span of [pem_len] bytes. The two trimming loops move indices
    over it; here they take spaces off its ends. *)

From Stdlib Require Import String.
From S2P Require Import Prelude World Buf BufBuild JsonGrammar Status.
From stdpp Require Import list.
#[local] Open Scope Z_scope.

Definition tamga_pem_is_space (c : Z) : bool :=
  (c =? 32) || (c =? 9) || (c =? 10) || (c =? 13) || (c =? 11) || (c =? 12).

Fixpoint pem_trim_start (l : bytes) : bytes :=
  match l with
  | c :: rest => if tamga_pem_is_space c then pem_trim_start rest else l
  | [] => []
  end.
(** [while (end > start && is_space(pem[end - 1])) end--] *)
Definition pem_trim_end (l : bytes) : bytes := rev (pem_trim_start (rev l)).

Section Ops.
Context {malloc : Malloc}.

(** The copy loop, without the white space. *)
Fixpoint pem_copy (buf : TamgaBuf) (l : bytes) : M TamgaBuf :=
  match l with
  | [] => ret buf
  | c :: rest =>
      let! buf := if negb (tamga_pem_is_space c) then tamga_buf_append_byte buf c else ret buf in
      pem_copy buf rest
  end.

Definition tamga_pem_extract (pem begin_marker end_marker : option bytes) : M (status bytes) :=
  match pem, begin_marker, end_marker with
  | Some pem, Some begin_marker, Some end_marker =>
      if (zlen pem =? 0) || (zlen pem >? TAMGA_MAX_REASONABLE_LEN) then
        err TAMGA_ERR_LENGTH_INVALID (bstr "certificate length is zero or exceeds the accepted maximum")
      else
        let trimmed := pem_trim_end (pem_trim_start pem) in
        let begin_marker := c_view begin_marker in
        let end_marker := c_view end_marker in
        let begin_len := length begin_marker in
        let end_len := length end_marker in
        if (length trimmed <? begin_len + end_len)%nat then
          err TAMGA_ERR_INVALID_PEM (bstr "certificate is too short to contain both PEM markers")
        else if negb (beq (take begin_len trimmed) begin_marker) then
          err TAMGA_ERR_INVALID_PEM (bstr "missing the opening PEM marker")
        else if negb (beq (drop (length trimmed - end_len) trimmed) end_marker) then
          err TAMGA_ERR_INVALID_PEM (bstr "missing the closing PEM marker")
        else
          let body_len := (length trimmed - begin_len - end_len)%nat in
          let! buf := pem_copy tamga_buf_init (take body_len (drop begin_len trimmed)) in
          let! (body, _) := tamga_buf_detach_string buf in
          match body with
          | None => err TAMGA_ERR_OUT_OF_MEMORY (bstr "could not allocate the certificate body")
          | Some body => ret (inl body)
          end
  | _, _, _ => err TAMGA_ERR_NULL_ARGUMENT (bstr "a required argument was null")
  end.
End Ops.

(** ** The specification *)

Definition spaces (l : bytes) : Prop := Forall (fun c => tamga_pem_is_space c = true) l.
Definition squeeze (l : bytes) : bytes := filter (fun c => tamga_pem_is_space c = false) l.

(** [pem] is [begin], an inner text, [end], with nothing but white space around. *)
Definition enveloped (begin_marker end_marker pem inner : bytes) : Prop :=
  exists w1 w2, spaces w1 /\ spaces w2 /\ pem = w1 ++ begin_marker ++ inner ++ end_marker ++ w2.

(** The inner text, when there is one. *)
Definition pem_inner (begin_marker end_marker pem : bytes) : option bytes :=
  let t := pem_trim_end (pem_trim_start pem) in
  let body_len := (length t - length begin_marker - length end_marker)%nat in
  let inner := take body_len (drop (length begin_marker) t) in
  if decide (t = begin_marker ++ inner ++ end_marker) then Some inner else None.

(** What [tamga_pem_extract] returns, memory permitting. A zero byte in the
    inner text makes the buffer refuse to become a string, which the code
    reports as an allocation failure. *)
Definition pem_spec (begin_marker end_marker pem : bytes) : status bytes :=
  if decide (0 < zlen pem <= TAMGA_MAX_REASONABLE_LEN) then
    match pem_inner begin_marker end_marker pem with
    | None => inr TAMGA_ERR_INVALID_PEM
    | Some inner => if memchr 0 (squeeze inner) is Some _ then inr TAMGA_ERR_OUT_OF_MEMORY
                    else inl (squeeze inner)
    end
  else inr TAMGA_ERR_LENGTH_INVALID.

(** A marker that white space cannot hide: no zero byte, no space at its ends. *)
Definition marker (m : bytes) : Prop :=
  ~ In 0 m /\ exists c m' d m'', m = c :: m' /\ m = m'' ++ [d] /\
    tamga_pem_is_space c = false /\ tamga_pem_is_space d = false.

Lemma trim_start_spec l : exists w, spaces w /\ l = w ++ pem_trim_start l /\
  (forall c r, pem_trim_start l = c :: r -> tamga_pem_is_space c = false).
Proof.
  induction l as [|c l (w & Hw & El & Hh)]; [exists []; repeat split; try constructor; done|]. simpl.
  destruct (tamga_pem_is_space c) eqn:E.
  - exists (c :: w). split_and!; [by constructor|simpl; congruence|done].
  - exists []. split_and!; [constructor|done|]. congruence.
Qed.

Lemma trim_start_app w c r : spaces w -> tamga_pem_is_space c = false -> pem_trim_start (w ++ c :: r) = c :: r.
Proof. intros Hw Hc. induction Hw as [|x w Hx Hw IH]; simpl; [by rewrite Hc|by rewrite Hx]. Qed.

Lemma trim_end_app r c w : spaces w -> tamga_pem_is_space c = false -> pem_trim_end ((r ++ [c]) ++ w) = r ++ [c].
Proof.
  intros Hw Hc. unfold pem_trim_end. rewrite !rev_app_distr. cbn [rev app].
  rewrite trim_start_app; [|by apply Forall_rev in Hw|done]. cbn [rev]. by rewrite rev_involutive.
Qed.

Lemma trim_end_spec l : exists w, spaces w /\ l = pem_trim_end l ++ w.
Proof.
  destruct (trim_start_spec (rev l)) as (w & Hw & El & _). exists (rev w). unfold pem_trim_end.
  split; [by apply Forall_rev in Hw|]. rewrite <- rev_app_distr, <- El. by rewrite rev_involutive.
Qed.

Lemma enveloped_trim b e pem inner :
  marker b -> marker e ->
  enveloped b e pem inner <-> pem_trim_end (pem_trim_start pem) = b ++ inner ++ e.
Proof.
  intros (_ & c & b' & _ & _ & Eb & _ & Hc & _) (_ & _ & _ & d & e' & _ & Ee & _ & Hd). split.
  - intros (w1 & w2 & Hw1 & Hw2 & ->). rewrite Eb. cbn [app]. rewrite trim_start_app by done.
    rewrite Ee. change (c :: b' ++ inner ++ (e' ++ [d]) ++ w2) with ((c :: b') ++ inner ++ (e' ++ [d]) ++ w2).
    rewrite !app_assoc. rewrite trim_end_app by done. by rewrite <- !app_assoc.
  - intros E. destruct (trim_start_spec pem) as (w1 & Hw1 & E1 & _).
    destruct (trim_end_spec (pem_trim_start pem)) as (w2 & Hw2 & E2). exists w1, w2. split_and!; [done|done|].
    rewrite E1, E2, E. by rewrite <- !app_assoc.
Qed.

Section Spec.
Context {malloc : Malloc}.

Lemma copy_post total l b acc :
  buf_has total b acc -> post (pem_copy b l) (fun b' => buf_has total b' (acc ++ squeeze l)).
Proof.
  revert b acc. induction l as [|c l IH]; intros b acc Hb; cbn [pem_copy].
  - apply post_ret. by rewrite app_nil_r.
  - unfold squeeze. rewrite filter_cons. destruct (tamga_pem_is_space c) eqn:E; cbn [negb].
    + rewrite decide_False by done. eapply post_bind with (P := fun b' => b' = b); [by apply post_ret|].
      intros ? ->. by apply IH.
    + rewrite decide_True by done. eapply post_bind; [apply buf_has_append, Hb|]. intros b1 H1.
      eapply post_mono; [apply (IH _ _ H1)|]. intros b2. by rewrite <- app_assoc.
Qed.

Lemma squeeze_length l : (length (squeeze l) <= length l)%nat.
Proof. apply length_filter. Qed.

Lemma pem_extract_post b e pem :
  ~ In 0 b -> ~ In 0 e ->
  post (tamga_pem_extract (Some pem) (Some b) (Some e)) (unless_oom (pem_spec b e pem)).
Proof.
  intros Hb He. unfold tamga_pem_extract, pem_spec, pem_inner. rewrite (c_view_id b), (c_view_id e) by done.
  set (t := pem_trim_end (pem_trim_start pem)). set (inner := take (length t - length b - length e) (drop (length b) t)).
  destruct ((zlen pem =? 0) || (zlen pem >? TAMGA_MAX_REASONABLE_LEN)) eqn:Hsz.
  { rewrite decide_False by lia. apply post_err. by left. }
  rewrite decide_True by lia. assert (length t <= length pem)%nat as Hlt.
  { destruct (trim_start_spec pem) as (w1 & _ & E1 & _). destruct (trim_end_spec (pem_trim_start pem)) as (w2 & _ & E2).
    fold t in E2. apply (f_equal length) in E1, E2. rewrite length_app in *. lia. }
  destruct (Nat.ltb_spec (length t) (length b + length e)) as [Hshort|Hlen].
  { rewrite decide_False; [apply post_err; by left|]. intros E. apply (f_equal length) in E. rewrite !length_app in E. lia. }
  destruct (beq (take (length b) t) b) eqn:E1; cbn [negb].
  2:{ rewrite decide_False; [apply post_err; by left|]. intros E. apply beq_neq in E1. apply E1.
      by rewrite E, take_app_length. }
  apply beq_eq in E1. destruct (beq (drop (length t - length e) t) e) eqn:E2; cbn [negb].
  2:{ rewrite decide_False; [apply post_err; by left|]. intros E. apply beq_neq in E2. apply E2.
      rewrite E at 2. rewrite app_assoc, drop_app_length'; [done|]. apply (f_equal length) in E. rewrite !length_app in *. lia. }
  apply beq_eq in E2. rewrite decide_True.
  2:{ rewrite <- (take_drop (length b) t) at 1. rewrite E1. f_equal. subst inner.
      rewrite <- (take_drop (length t - length b - length e) (drop (length b) t)) at 1. f_equal.
      rewrite drop_drop. rewrite <- E2 at 2. f_equal. lia. }
  eapply post_bind; [apply (copy_post (zlen pem)), buf_has_init|]. intros b1 H1. cbn [app] in H1.
  assert (length (squeeze inner) <= length pem)%nat as Hsq.
  { pose proof (squeeze_length inner). subst inner. rewrite length_take, length_drop in *. lia. }
  destruct (memchr 0 (squeeze inner)) eqn:Hz.
  - eapply post_bind; [apply detach_string_post, H1|]. intros [[r|] b2] Hr; [|apply post_err; by left].
    exfalso. destruct Hr as (Hf & -> & Hn). destruct H1 as (_ & H1 & _). rewrite (H1 Hf) in Hn.
    apply memchr_None in Hn. congruence.
  - apply memchr_None in Hz. eapply post_bind; [apply (buf_has_detach _ _ _ H1 Hz)|].
    intros [r b2] [->|[-> Hoom]]; [apply post_ret; by left|]. apply unless_oom_err. intros Ha. apply Hoom.
    split; [|lia]. apply (ample_enough _ Ha). unfold json_memory, TAMGA_MAX_REASONABLE_LEN in *. lia.
Qed.
End Spec.

(** The specification accepts exactly the enveloped texts. *)
Lemma pem_inner_iff b e pem inner :
  marker b -> marker e -> pem_inner b e pem = Some inner <-> enveloped b e pem inner.
Proof.
  intros Hb He. rewrite enveloped_trim by done. unfold pem_inner.
  set (t := pem_trim_end (pem_trim_start pem)). split.
  - case_decide as E; [|done]. by intros [= <-].
  - intros E. assert (take (length t - length b - length e) (drop (length b) t) = inner) as Ei.
    { rewrite E at 2. rewrite drop_app_length. rewrite take_app_length'; [done|].
      apply (f_equal length) in E. rewrite !length_app in E. lia. }
    rewrite Ei, decide_True by done. done.
Qed.

Lemma pem_spec_iff b e pem body :
  marker b -> marker e ->
  pem_spec b e pem = inl body <->
  0 < zlen pem <= TAMGA_MAX_REASONABLE_LEN /\ ~ In 0 body /\
  exists inner, enveloped b e pem inner /\ body = squeeze inner.
Proof.
  intros Hb He. unfold pem_spec. case_decide as Hsz; [|split; [done|tauto]]. split.
  - destruct (pem_inner b e pem) as [inner|] eqn:Ei; [|done]. destruct (memchr 0 (squeeze inner)) eqn:Hz; [done|].
    intros [= <-]. split_and!; [lia..|by apply memchr_None|]. exists inner. split; [|done]. by apply pem_inner_iff.
  - intros (_ & Hz & inner & Hin & ->). apply pem_inner_iff in Hin; [|done|done]. rewrite Hin.
    by rewrite (proj2 (memchr_None 0 _) Hz).
Qed.

(** (C36) The envelope is taken off exactly: with memory, a text is accepted
    when it is the opening marker, an inner text, the closing marker, in this
    order and not overlapping, with only white space around them, and is
    between 1 byte and 16 MiB long; the result is the inner text without its
    white space. The one exception is an inner text with a zero byte. *)
Theorem pem_extract_iff `{Malloc} b e pem body s :
  ample -> marker b -> marker e ->
  (tamga_pem_extract (Some pem) (Some b) (Some e) s).1 = inl body <->
  0 < zlen pem <= TAMGA_MAX_REASONABLE_LEN /\ ~ In 0 body /\
  exists inner, enveloped b e pem inner /\ body = squeeze inner.
Proof.
  intros Ha Hb He. rewrite <- pem_spec_iff by done.
  destruct (pem_extract_post b e pem (proj1 Hb) (proj1 He) s) as [->|[_ Hno]]; tauto.
Qed.

(** (C40) Whatever the allocator does, an enveloped text of at most 16 MiB whose
    inner text holds a zero byte is reported as TAMGA_ERR_OUT_OF_MEMORY, so it
    is when every allocation succeeds. *)
Theorem pem_nul_reported_as_oom `{Malloc} b e pem inner s :
  marker b -> marker e -> 0 < zlen pem <= TAMGA_MAX_REASONABLE_LEN ->
  enveloped b e pem inner -> In 0 inner ->
  (tamga_pem_extract (Some pem) (Some b) (Some e) s).1 = inr TAMGA_ERR_OUT_OF_MEMORY.
Proof.
  intros Hb He Hsz Hin Hz. destruct (pem_extract_post b e pem (proj1 Hb) (proj1 He) s) as [->|[-> _]]; [|done].
  unfold pem_spec. rewrite decide_True by done. apply pem_inner_iff in Hin; [|done|done]. rewrite Hin.
  destruct (memchr 0 (squeeze inner)) eqn:E; [done|]. apply memchr_None in E. exfalso. apply E.
  apply list_elem_of_In. unfold squeeze. apply list_elem_of_filter. split; [done|by apply list_elem_of_In].
Qed.

Definition demo_pem (body : bytes) : bytes := bstr "-BEGIN-" ++ body ++ bstr "-END- ".

Lemma demo_marker m c d : m = 45 :: c ++ [d] -> ~ In 0 m -> tamga_pem_is_space d = false -> marker m.
Proof. intros -> Hz Hd. split; [done|]. by exists 45, (c ++ [d]), d, (45 :: c). Qed.

Lemma demo_markers : marker (bstr "-BEGIN-") /\ marker (bstr "-END-").
Proof.
  split; [apply (demo_marker _ (bstr "BEGIN") 45)|apply (demo_marker _ (bstr "END") 45)]; try done;
    by apply memchr_None.
Qed.

Lemma demo_enveloped body : enveloped (bstr "-BEGIN-") (bstr "-END-") (demo_pem body) body.
Proof. exists [], [32]. split_and!; [constructor|by repeat constructor|]. unfold demo_pem. by rewrite <- ?app_assoc. Qed.

Lemma pem_extract_iff_witness :
  exists inner, enveloped (bstr "-BEGIN-") (bstr "-END-") (demo_pem (bstr "a b")) inner /\ bstr "ab" = squeeze inner.
Proof.
  destruct demo_markers as [Hb He].
  apply (pem_extract_iff (H := full_memory) (bstr "-BEGIN-") (bstr "-END-") (demo_pem (bstr "a b")) (bstr "ab") (mk_st 0 None));
    [apply ample_full|done|done|vm_compute; reflexivity].
Defined.

Lemma pem_nul_reported_as_oom_witness :
  (tamga_pem_extract (malloc := full_memory) (Some (demo_pem [0])) (Some (bstr "-BEGIN-")) (Some (bstr "-END-")) (mk_st 0 None)).1 =
  inr TAMGA_ERR_OUT_OF_MEMORY.
Proof.
  destruct demo_markers as [Hb He].
  apply (pem_nul_reported_as_oom (H := full_memory) _ _ _ [0] (mk_st 0 None));
    [done|done|vm_compute; split; [reflexivity|congruence]|apply demo_enveloped|by left].
Defined.
