(* ===== verification/Cert.v ===== *)
(** * The certificate and the signed claims: [src/src/checkout/cert.c],
      [src/src/checkout/claims.c]

    [TamgaCert] keeps the three string views; [root], which only owns them, is
    not represented. The views carry their lengths, so they are byte sequences
    that may hold zero bytes. *)

From Stdlib Require Import String.
From S2P Require Import Prelude World Buf Base64 Json JsonParse JsonGrammar JsonSmall Status.
From stdpp Require Import list.
#[local] Open Scope Z_scope.

Record TamgaCert := mk_cert { cert_enc : bytes; cert_sig : bytes; cert_alg : bytes }.

(** [cert] with a null [alg] is not represented: [tamga_cert_parse] returns none. *)
Definition tamga_cert_alg_equals (cert : TamgaCert) (expected : bytes) : bool :=
  if negb (length (cert_alg cert) =? length expected)%nat then false else beq (cert_alg cert) expected.

Definition TAMGA_CLOCK_SKEW_TOLERANCE_SECONDS : Z := 60.

Record TamgaFileClaims := mk_claims { issued_at : Z; has_expiry : bool; expiry : Z }.

Definition json_error_text (e : json_error) : bytes :=
  match e with json_message m => m | TAMGA_JSON_ERROR_OUT_OF_MEMORY => bstr "out of memory" end.

Section Ops.
Context {malloc : Malloc}.

Definition tamga_cert_parse (body : option bytes) : M (status TamgaCert) :=
  match body with
  | None => err TAMGA_ERR_NULL_ARGUMENT (bstr "a required argument was null")
  | Some body =>
      let! decoded := tamga_base64_decode_alloc_why (Some body) in
      match decoded with
      | inl TAMGA_BASE64_FAILURE_OUT_OF_MEMORY =>
          err TAMGA_ERR_OUT_OF_MEMORY (bstr "could not allocate room to decode the certificate")
      | inl _ => err TAMGA_ERR_INVALID_BASE64 (bstr "the certificate body is not valid base64")
      | inr decoded =>
          let! root := tamga_json_parse (Some decoded) in
          match root with
          | inr parse_error =>
              if tamga_json_error_is_out_of_memory (Some parse_error)
              then err TAMGA_ERR_OUT_OF_MEMORY (bstr "could not parse the certificate")
              else err TAMGA_ERR_INVALID_JSON (bstr "certificate JSON is malformed: " ++ json_error_text parse_error)
          | inl root =>
              let enc := tamga_json_object_get (Some root) (Some (bstr "enc")) in
              let sig := tamga_json_object_get (Some root) (Some (bstr "sig")) in
              let alg := tamga_json_object_get (Some root) (Some (bstr "alg")) in
              match tamga_json_as_string enc, tamga_json_as_string sig, tamga_json_as_string alg with
              | Some enc, Some sig, Some alg => ret (inl (mk_cert enc sig alg))
              | _, _, _ =>
                  err TAMGA_ERR_INVALID_JSON
                    (bstr "certificate is missing a required string field (enc, sig or alg)")
              end
          end
      end
  end.

Definition tamga_claims_read (meta : option json) : M (status TamgaFileClaims) :=
  if negb (match meta with None => false | Some _ => match tamga_json_type meta with TAMGA_JSON_OBJECT => true | _ => false end end)
  then err TAMGA_ERR_INVALID_JSON (bstr "the signed payload has no claims object")
  else
    let iat := default 0 (tamga_json_as_int (tamga_json_object_get meta (Some (bstr "iat")))) in
    let exp := tamga_json_object_get meta (Some (bstr "exp")) in
    if (match exp with None => false | Some _ => true end) && negb (tamga_json_is_null exp) then
      match tamga_json_as_int exp with
      | None => err TAMGA_ERR_INVALID_JSON (bstr "the signed exp claim is not an integer")
      | Some value => ret (inl (mk_claims iat true value))
      end
    else ret (inl (mk_claims iat false 0)).

(** [claims] is [None] for a null pointer; [now_unix] is an [int64_t]. *)
Definition tamga_claims_are_expired (claims : option TamgaFileClaims) (now_unix : Z) : bool :=
  match claims with
  | None => false
  | Some claims =>
      if negb (has_expiry claims) then false
      else if now_unix <? TAMGA_CLOCK_SKEW_TOLERANCE_SECONDS then false
      else now_unix - TAMGA_CLOCK_SKEW_TOLERANCE_SECONDS >? expiry claims
  end.
End Ops.

(** ** Specifications *)

Definition string_member (j : json) (key : bytes) : option bytes :=
  tamga_json_as_string (tamga_json_object_get (Some j) (Some key)).

(** The members of an object of the grammar, as a lookup. *)
Definition member (j : json) (key : bytes) : option json := tamga_json_object_get (Some j) (Some key).

Definition cert_spec (body : bytes) : status TamgaCert :=
  match tamga_base64_decode (Some body) with
  | None => inr TAMGA_ERR_INVALID_BASE64
  | Some d =>
      match json_of d with
      | None => inr TAMGA_ERR_INVALID_JSON
      | Some root =>
          match string_member root (bstr "enc"), string_member root (bstr "sig"), string_member root (bstr "alg") with
          | Some enc, Some sig, Some alg => inl (mk_cert enc sig alg)
          | _, _, _ => inr TAMGA_ERR_INVALID_JSON
          end
      end
  end.

(** The claims of a [meta] object: [iat] defaults to 0, an absent or null [exp]
    means no expiry, any other [exp] must be an integer. *)
Definition claims_spec (meta : option json) : status TamgaFileClaims :=
  match meta with
  | Some (JObject ms) =>
      let iat := default 0 (tamga_json_as_int (member (JObject ms) (bstr "iat"))) in
      match member (JObject ms) (bstr "exp") with
      | None | Some JNull => inl (mk_claims iat false 0)
      | Some e => match tamga_json_as_int (Some e) with
                  | None => inr TAMGA_ERR_INVALID_JSON
                  | Some value => inl (mk_claims iat true value)
                  end
      end
  | _ => inr TAMGA_ERR_INVALID_JSON
  end.

(** Past the expiry by more than the tolerance. *)
Definition expired (claims : TamgaFileClaims) (now : Z) : Prop :=
  has_expiry claims = true /\ TAMGA_CLOCK_SKEW_TOLERANCE_SECONDS <= now /\
  expiry claims < now - TAMGA_CLOCK_SKEW_TOLERANCE_SECONDS.

Lemma claims_are_expired_spec claims now :
  tamga_claims_are_expired (Some claims) now = true <-> expired claims now.
Proof.
  unfold tamga_claims_are_expired, expired, TAMGA_CLOCK_SKEW_TOLERANCE_SECONDS. destruct (has_expiry claims); cbn [negb]; [|split; [done|by intros []]].
  destruct (Z.ltb_spec now 60); [split; [done|lia]|]. destruct (Z.gtb_spec (now - 60) (expiry claims)); split; (done || lia).
Qed.

(** Sizes of what comes out of a parsed document. *)
Lemma find_member_In ms k v : find_member ms k = Some v -> exists k', (k', v) ∈ ms.
Proof.
  induction ms as [|[k1 v1] ms IH]; simpl; [done|]. rewrite key_match. case_bool_decide.
  - intros [= <-]. exists k1. apply list_elem_of_here.
  - intros H'. destruct (IH H') as [k' ?]. exists k'. by apply list_elem_of_further.
Qed.

Lemma member_small n j k v : json_small n j -> member j k = Some v -> json_small n v.
Proof.
  intros Hs Hm. destruct j; try done. inversion_clear Hs as [| | | | | |? _ Hall]. simpl in Hm.
  apply find_member_In in Hm as [k' Hin]. rewrite Forall_forall in Hall. by destruct (Hall _ Hin).
Qed.

Lemma member_wf j k v : json_wf j -> member j k = Some v -> json_wf v.
Proof.
  intros Hs Hm. destruct j; try done. inversion_clear Hs as [| | | | | |? _ _ Hall]. simpl in Hm.
  apply find_member_In in Hm as [k' Hin]. rewrite Forall_fmap, Forall_forall in Hall. by apply (Hall _ Hin).
Qed.

Lemma string_member_small n j k s : json_small n j -> string_member j k = Some s -> zlen s <= n.
Proof.
  unfold string_member. fold (member j k). intros Hj Hs. destruct (member j k) as [v|] eqn:E; [|done].
  apply (member_small n) in E; [|done]. destruct v; try done. injection Hs as <-. by inversion E.
Qed.

Lemma json_of_small d j : bytes_ok d -> json_of d = Some j -> json_small TAMGA_MAX_REASONABLE_LEN j /\ json_wf j.
Proof. intros Hd Hj. apply json_of_iff in Hj; [|done]. split; [by eapply jtext_small|by eapply jtext_wf]. Qed.

Lemma cert_spec_small body c :
  cert_spec body = inl c -> zlen (cert_enc c) <= TAMGA_MAX_REASONABLE_LEN /\ zlen (cert_sig c) <= TAMGA_MAX_REASONABLE_LEN.
Proof.
  unfold cert_spec. destruct (tamga_base64_decode (Some body)) as [d|] eqn:Ed; [|done].
  destruct (json_of d) as [root|] eqn:Ej; [|done]. apply decode_bytes in Ed as [Hd _].
  destruct (json_of_small _ _ Hd Ej) as [Hs _].
  destruct (string_member root (bstr "enc")) eqn:E1; [|done]. destruct (string_member root (bstr "sig")) eqn:E2; [|done].
  destruct (string_member root (bstr "alg")); [|done]. intros [= <-]. cbn.
  split; by eapply string_member_small.
Qed.

Section Spec.
Context {malloc : Malloc}.

Lemma cert_parse_post body :
  zlen body <= TAMGA_MAX_REASONABLE_LEN -> post (tamga_cert_parse (Some body)) (refines (cert_spec body)).
Proof.
  intros Hl. unfold tamga_cert_parse, cert_spec. eapply post_bind; [by apply decode_alloc_post|].
  intros [[]|d] Hd; try (by (apply refines_err; rewrite Hd)).
  { apply post_err. by apply refines_oom. }
  rewrite Hd. pose proof (decode_bytes _ _ Hd) as [Hok _].
  eapply post_bind; [by apply parse_post|]. intros [root|e] Hr.
  - rewrite Hr. unfold string_member.
    destruct (tamga_json_as_string _); [|by apply refines_err]. destruct (tamga_json_as_string _); [|by apply refines_err].
    destruct (tamga_json_as_string _); [|by apply refines_err]. apply post_ret. by apply refines_ret.
  - destruct (tamga_json_error_is_out_of_memory (Some e)) eqn:Eo.
    + apply post_err. apply refines_oom. intros Ha. by destruct (Hr Ha).
    + apply post_err. split; [|done]. intros Ha. destruct (Hr Ha) as [-> _]. done.
Qed.

Lemma claims_read_post meta : post (tamga_claims_read meta) (refines (claims_spec meta)).
Proof.
  unfold tamga_claims_read, claims_spec. destruct meta as [[]|]; cbn [tamga_json_type negb]; try (by apply refines_err).
  unfold member. destruct (tamga_json_object_get _ (Some (bstr "exp"))) as [[]|] eqn:E; cbn [tamga_json_is_null negb andb];
    try (apply post_ret; by apply refines_ret); destruct (tamga_json_as_int _) eqn:Ei;
    try (apply post_ret; by apply refines_ret); by apply refines_err.
Qed.
End Spec.
