(* ===== verification/Gcm.v ===== *)
(** * AES-256 and GCM: [src/src/crypto/aes.c], [src/src/crypto/gcm.c]

    Arrays are byte lists; an assignment [a[i] = v] is stdpp's insert
    ([set_at]), always at an index within the array. The masks the code uses
    instead of branches are kept. Erasing a buffer has no effect here. *)

From Stdlib Require Import String.
From S2P Require Import Prelude Sha2 Hkdf.
From stdpp Require Import list.
#[local] Open Scope Z_scope.

Definition TAMGA_AES_SBOX : list Z :=
  [0x63; 0x7c; 0x77; 0x7b; 0xf2; 0x6b; 0x6f; 0xc5; 0x30; 0x01; 0x67; 0x2b; 0xfe; 0xd7; 0xab; 0x76;
   0xca; 0x82; 0xc9; 0x7d; 0xfa; 0x59; 0x47; 0xf0; 0xad; 0xd4; 0xa2; 0xaf; 0x9c; 0xa4; 0x72; 0xc0;
   0xb7; 0xfd; 0x93; 0x26; 0x36; 0x3f; 0xf7; 0xcc; 0x34; 0xa5; 0xe5; 0xf1; 0x71; 0xd8; 0x31; 0x15;
   0x04; 0xc7; 0x23; 0xc3; 0x18; 0x96; 0x05; 0x9a; 0x07; 0x12; 0x80; 0xe2; 0xeb; 0x27; 0xb2; 0x75;
   0x09; 0x83; 0x2c; 0x1a; 0x1b; 0x6e; 0x5a; 0xa0; 0x52; 0x3b; 0xd6; 0xb3; 0x29; 0xe3; 0x2f; 0x84;
   0x53; 0xd1; 0x00; 0xed; 0x20; 0xfc; 0xb1; 0x5b; 0x6a; 0xcb; 0xbe; 0x39; 0x4a; 0x4c; 0x58; 0xcf;
   0xd0; 0xef; 0xaa; 0xfb; 0x43; 0x4d; 0x33; 0x85; 0x45; 0xf9; 0x02; 0x7f; 0x50; 0x3c; 0x9f; 0xa8;
   0x51; 0xa3; 0x40; 0x8f; 0x92; 0x9d; 0x38; 0xf5; 0xbc; 0xb6; 0xda; 0x21; 0x10; 0xff; 0xf3; 0xd2;
   0xcd; 0x0c; 0x13; 0xec; 0x5f; 0x97; 0x44; 0x17; 0xc4; 0xa7; 0x7e; 0x3d; 0x64; 0x5d; 0x19; 0x73;
   0x60; 0x81; 0x4f; 0xdc; 0x22; 0x2a; 0x90; 0x88; 0x46; 0xee; 0xb8; 0x14; 0xde; 0x5e; 0x0b; 0xdb;
   0xe0; 0x32; 0x3a; 0x0a; 0x49; 0x06; 0x24; 0x5c; 0xc2; 0xd3; 0xac; 0x62; 0x91; 0x95; 0xe4; 0x79;
   0xe7; 0xc8; 0x37; 0x6d; 0x8d; 0xd5; 0x4e; 0xa9; 0x6c; 0x56; 0xf4; 0xea; 0x65; 0x7a; 0xae; 0x08;
   0xba; 0x78; 0x25; 0x2e; 0x1c; 0xa6; 0xb4; 0xc6; 0xe8; 0xdd; 0x74; 0x1f; 0x4b; 0xbd; 0x8b; 0x8a;
   0x70; 0x3e; 0xb5; 0x66; 0x48; 0x03; 0xf6; 0x0e; 0x61; 0x35; 0x57; 0xb9; 0x86; 0xc1; 0x1d; 0x9e;
   0xe1; 0xf8; 0x98; 0x11; 0x69; 0xd9; 0x8e; 0x94; 0x9b; 0x1e; 0x87; 0xe9; 0xce; 0x55; 0x28; 0xdf;
   0x8c; 0xa1; 0x89; 0x0d; 0xbf; 0xe6; 0x42; 0x68; 0x41; 0x99; 0x2d; 0x0f; 0xb0; 0x54; 0xbb; 0x16].

Definition TAMGA_AES_RCON : list Z := [0x01; 0x02; 0x04; 0x08; 0x10; 0x20; 0x40].

Abbreviation get a i := (nth i a 0).
(** [a[i] = v] *)
Definition set_at (i : nat) (v : Z) (a : bytes) : bytes := <[i:=v]> a.

Definition sbox (x : Z) : Z := nth (Z.to_nat x) TAMGA_AES_SBOX 0.

Definition tamga_xtime (value : Z) : Z :=
  let high := u8 (0 - u8 (Z.shiftr value 7)) in
  Z.lxor (u8 (Z.shiftl value 1)) (u8 (Z.land 0x1b high)).

(** One turn of the key-schedule loop: four more bytes of [words]. *)
Definition aes_schedule_step (words : bytes) (i : nat) : bytes :=
  let t0 := get words (i - 4) in
  let t1 := get words (i - 3) in
  let t2 := get words (i - 2) in
  let t3 := get words (i - 1) in
  let '(t0, t1, t2, t3) :=
    if (i mod 32 =? 0)%nat then
      (Z.lxor (sbox t1) (nth (i / 32 - 1) TAMGA_AES_RCON 0), sbox t2, sbox t3, sbox t0)
    else if (i mod 32 =? 16)%nat then (sbox t0, sbox t1, sbox t2, sbox t3)
    else (t0, t1, t2, t3) in
  words ++ [Z.lxor (get words (i - 32)) t0; Z.lxor (get words (i + 1 - 32)) t1;
            Z.lxor (get words (i + 2 - 32)) t2; Z.lxor (get words (i + 3 - 32)) t3].

(** The schedule as one array of 15 round keys of 16 bytes. *)
Definition tamga_aes256_init (key : bytes) : bytes :=
  fold_left aes_schedule_step (map (fun k => 32 + 4 * k)%nat (seq 0 52)) key.

Definition round_key (schedule : bytes) (round : nat) : bytes := take 16 (drop (16 * round) schedule).

Definition xor_bytes (a b : bytes) : bytes := zip_with Z.lxor a b.

Definition shift_rows (state : bytes) : bytes :=
  let tmp := get state 1 in
  let state := set_at 1 (get state 5) state in
  let state := set_at 5 (get state 9) state in
  let state := set_at 9 (get state 13) state in
  let state := set_at 13 tmp state in
  let tmp := get state 2 in
  let state := set_at 2 (get state 10) state in
  let state := set_at 10 tmp state in
  let tmp := get state 6 in
  let state := set_at 6 (get state 14) state in
  let state := set_at 14 tmp state in
  let tmp := get state 15 in
  let state := set_at 15 (get state 11) state in
  let state := set_at 11 (get state 7) state in
  let state := set_at 7 (get state 3) state in
  set_at 3 tmp state.

(** One column of MixColumns, at index [i]. *)
Definition mix_column (state : bytes) (i : nat) : bytes :=
  let a0 := get state i in
  let a1 := get state (i + 1) in
  let a2 := get state (i + 2) in
  let a3 := get state (i + 3) in
  let all := Z.lxor (Z.lxor (Z.lxor a0 a1) a2) a3 in
  let state := set_at i (Z.lxor (Z.lxor a0 all) (tamga_xtime (Z.lxor a0 a1))) state in
  let state := set_at (i + 1) (Z.lxor (Z.lxor a1 all) (tamga_xtime (Z.lxor a1 a2))) state in
  let state := set_at (i + 2) (Z.lxor (Z.lxor a2 all) (tamga_xtime (Z.lxor a2 a3))) state in
  set_at (i + 3) (Z.lxor (Z.lxor a3 all) (tamga_xtime (Z.lxor a3 a0))) state.

Definition aes_round (schedule state : bytes) (round : nat) : bytes :=
  let state := map sbox state in
  let state := shift_rows state in
  let state := if negb (round =? 14)%nat then fold_left mix_column [0; 4; 8; 12]%nat state else state in
  xor_bytes state (round_key schedule round).

Definition tamga_aes256_encrypt_block (schedule block : bytes) : bytes :=
  fold_left (aes_round schedule) (seq 1 14) (xor_bytes block (round_key schedule 0)).

(** FIPS 197, appendix C.3. *)
Example aes256_fips197 :
  tamga_aes256_encrypt_block
    (tamga_aes256_init (be_bytes 32 0x000102030405060708090a0b0c0d0e0f101112131415161718191a1b1c1d1e1f))
    (be_bytes 16 0x00112233445566778899aabbccddeeff) = be_bytes 16 0x8ea2b7ca516745bfeafc49904b496089.
Proof. vm_compute. reflexivity. Qed.

(** ** GHASH *)

Definition TAMGA_GCM_NONCE_LEN : nat := 12.
Definition TAMGA_GCM_TAG_LEN : nat := 16.

(** [V >>= 1] over the array, and the conditional reduction. *)
Definition gf_shift (v : bytes) : bytes :=
  let lsb := Z.land (get v 15) 1 in
  let shifted := map (fun i => Z.lor (Z.shiftr (get v i) 1) (u8 (Z.shiftl (Z.land (get v (i - 1)) 1) 7))) (seq 1 15) in
  let reduce := u8 (0 - lsb) in
  Z.lxor (Z.shiftr (get v 0) 1) (Z.land 0xE1 reduce) :: shifted.

Definition gf_step (x : bytes) (zv : bytes * bytes) (bit : nat) : bytes * bytes :=
  let '(z, v) := zv in
  let x_bit := Z.land (Z.shiftr (get x (bit / 8)) (7 - Z.of_nat (bit mod 8))) 1 in
  let mask := u8 (0 - x_bit) in
  (zip_with (fun zi vi => Z.lxor zi (Z.land vi mask)) z v, gf_shift v).

Definition tamga_gcm_gf_mul (x y : bytes) : bytes :=
  (fold_left (gf_step x) (seq 0 128) (replicate 16 0, y)).1.

(** Every turn absorbs at least a byte: [length data] turns are enough. *)
Fixpoint ghash_loop (fuel : nat) (acc h data : bytes) : bytes :=
  match fuel with
  | O => acc
  | S f =>
      match data with
      | [] => acc
      | _ =>
          let n := Nat.min (length data) 16 in
          let block := put (replicate 16 0) 0 (take n data) in
          ghash_loop f (tamga_gcm_gf_mul (xor_bytes acc block) h) h (drop n data)
      end
  end.
Definition tamga_ghash_update (acc h data : bytes) : bytes := ghash_loop (length data) acc h data.

Definition tamga_gcm_put_u64_be (value : Z) : bytes :=
  map (fun i => u8 (Z.shiftr value (56 - 8 * Z.of_nat i))) (seq 0 8).

(** The loop from the last byte: [k] counts the four bytes down. *)
Fixpoint inc32_loop (k : nat) (counter : bytes) : bytes :=
  match k with
  | O => counter
  | S k' =>
      let c := u8 (get counter (12 + k') + 1) in
      let counter := set_at (12 + k') c counter in
      if negb (c =? 0) then counter else inc32_loop k' counter
  end.
Definition tamga_gcm_inc32 (counter : bytes) : bytes := inc32_loop 4 counter.

(** ** GCM *)

(** The keystream walk: what is written to [output]. *)
Fixpoint ctr_loop (fuel : nat) (schedule counter input : bytes) : bytes :=
  match fuel with
  | O => []
  | S f =>
      match input with
      | [] => []
      | _ =>
          let n := Nat.min (length input) 16 in
          let counter := tamga_gcm_inc32 counter in
          let keystream := tamga_aes256_encrypt_block schedule counter in
          xor_bytes (take n input) keystream ++ ctr_loop f schedule counter (drop n input)
      end
  end.

(** [tamga_gcm_core]: the output and the tag. [ciphertext] is read after the
    output has been written, so it is given as a function of the output. *)
Definition tamga_gcm_core (key nonce aad input : bytes) (ciphertext : bytes -> bytes) : bytes * bytes :=
  let aes := tamga_aes256_init key in
  let h := tamga_aes256_encrypt_block aes (replicate 16 0) in
  let j0 := set_at 15 1 (put (replicate 16 0) 0 nonce) in
  let output := ctr_loop (length input) aes j0 input in
  let ct := ciphertext output in
  let acc := tamga_ghash_update (replicate 16 0) h aad in
  let acc := tamga_ghash_update acc h ct in
  let length_block := tamga_gcm_put_u64_be (u64 (zlen aad * 8)) ++ tamga_gcm_put_u64_be (u64 (zlen ct * 8)) in
  let acc := tamga_gcm_gf_mul (xor_bytes acc length_block) h in
  let keystream := tamga_aes256_encrypt_block aes j0 in
  (output, xor_bytes acc keystream).

(** [None] is [false]: nothing the caller can read. [aad] is [Null n] for a
    null pointer with length [n]. *)
Definition tamga_gcm_open (key nonce : bytes) (aad : span) (ciphertext_and_tag : bytes) : option bytes :=
  match aad with
  | Null n => if 0 <? n then None else Some []
  | At a => Some a
  end ≫= fun aad =>
  if (length ciphertext_and_tag <? TAMGA_GCM_TAG_LEN)%nat then None
  else
    let ciphertext_len := (length ciphertext_and_tag - TAMGA_GCM_TAG_LEN)%nat in
    let ciphertext := take ciphertext_len ciphertext_and_tag in
    let tag := drop ciphertext_len ciphertext_and_tag in
    let '(out, computed_tag) := tamga_gcm_core key nonce aad ciphertext (fun _ => ciphertext) in
    if tamga_ct_memeq (Some computed_tag) (Some tag) TAMGA_GCM_TAG_LEN then Some out else None.

Definition tamga_gcm_seal (key nonce : bytes) (aad : span) (plaintext : bytes) : option bytes :=
  match aad with
  | Null n => if 0 <? n then None else Some []
  | At a => Some a
  end ≫= fun aad =>
  let '(out, tag) := tamga_gcm_core key nonce aad plaintext (fun output => output) in
  Some (out ++ tag).

(** The AES-256 test case 16 of the GCM specification. *)
Example gcm_case_16 :
  let key := be_bytes 32 0xfeffe9928665731c6d6a8f9467308308feffe9928665731c6d6a8f9467308308 in
  let nonce := be_bytes 12 0xcafebabefacedbaddecaf888 in
  let aad := be_bytes 20 0xfeedfacedeadbeeffeedfacedeadbeefabaddad2 in
  let p := be_bytes 60 0xd9313225f88406e5a55909c5aff5269a86a7a9531534f7da2e4c303d8a318a721c3c0c95956809532fcf0e2449a6b525b16aedf5aa0de657ba637b39 in
  let c := be_bytes 76 0x522dc1f099567d07f47f37a32a84427d643a8cdcbfe5c0c97598a2bd2555d1aa8cb08e48590dbb3da7b08b1056828838c5f61e6393ba7a0abcc9f66276fc6ece0f4e1768cddf8853bb2d551b in
  tamga_gcm_seal key nonce (At aad) p = Some c /\ tamga_gcm_open key nonce (At aad) c = Some p.
Proof. vm_compute. split; reflexivity. Qed.
