(* ===== verification/GcmSpec.v ===== *)
(** * AES-256-GCM: what sealing and opening promise

    The definitions are in [Gcm]. Here: every intermediate array keeps its
    length and stays a byte array, the keystream walk is its own inverse, and
    opening accepts exactly the sealed texts. *)

From Stdlib Require Import String.
From S2P Require Import Prelude Sha2 Hkdf Gcm.
From stdpp Require Import list.
#[local] Open Scope Z_scope.

(** ** Bytes stay bytes *)

Lemma lxor_byte x y : is_byte x -> is_byte y -> is_byte (Z.lxor x y).
Proof.
  intros Hx Hy. unfold is_byte in *. assert (0 <= Z.lxor x y) by (apply Z.lxor_nonneg; lia). split; [done|].
  destruct (Z.eq_dec (Z.lxor x y) 0) as [->|Hne]; [lia|]. change 256 with (2 ^ 8). apply Z.log2_lt_pow2; [lia|].
  pose proof (Z.log2_lxor x y ltac:(lia) ltac:(lia)).
  assert (forall z, 0 <= z < 256 -> Z.log2 z < 8) as Hlog.
  { intros z Hz. destruct (Z.eq_dec z 0) as [->|]; [done|]. apply Z.log2_lt_pow2; lia. }
  pose proof (Hlog x Hx). pose proof (Hlog y Hy). lia.
Qed.

Lemma u8_byte x : is_byte (u8 x).
Proof. apply is_byte_wrap. Qed.

Lemma land_byte_l x y : is_byte x -> is_byte (Z.land x y).
Proof.
  intros Hx. assert (x = Z.land x (Z.ones 8)) as E by (rewrite Z.land_ones by lia; symmetry; by apply Z.mod_small).
  rewrite E, <- Z.land_assoc, (Z.land_comm (Z.ones 8)), Z.land_assoc, Z.land_ones by lia. apply is_byte_wrap.
Qed.

Lemma get_byte l i : bytes_ok l -> is_byte (nth i l 0).
Proof.
  intros Hl. destruct (Nat.lt_ge_cases i (length l)) as [H|H]; [|rewrite nth_overflow by lia; done].
  rewrite Forall_forall in Hl. apply Hl, list_elem_of_In, nth_In. done.
Qed.

Lemma sbox_byte x : is_byte (sbox x).
Proof. apply get_byte. apply (bool_decide_unpack _). vm_compute. exact I. Qed.

Lemma xor_bytes_ok a b : bytes_ok a -> bytes_ok b -> bytes_ok (xor_bytes a b).
Proof.
  intros Ha. revert b. induction Ha as [|x a Hx Ha IH]; intros b Hb; [constructor|].
  destruct Hb as [|y b Hy Hb]; [constructor|]. constructor; [by apply lxor_byte|by apply IH].
Qed.

Lemma xor_bytes_length a b : length (xor_bytes a b) = Nat.min (length a) (length b).
Proof. apply length_zip_with. Qed.

Lemma xor_bytes_invol a k : (length a <= length k)%nat -> xor_bytes (xor_bytes a k) k = a.
Proof.
  revert k. induction a as [|x a IH]; intros [|y k] H; simpl in *; try done; [lia|].
  rewrite Z.lxor_assoc, Z.lxor_nilpotent, Z.lxor_0_r. f_equal. apply IH. lia.
Qed.

Lemma set_at_ok i v l : bytes_ok l -> is_byte v -> bytes_ok (set_at i v l).
Proof. intros. unfold set_at. by apply Forall_insert. Qed.

Lemma set_at_length i v l : length (set_at i v l) = length l.
Proof. apply length_insert. Qed.

Lemma xtime_byte x : is_byte (tamga_xtime x).
Proof. apply lxor_byte; apply u8_byte. Qed.

Create HintDb gcm.
#[export] Hint Resolve lxor_byte u8_byte sbox_byte xtime_byte get_byte set_at_ok xor_bytes_ok : gcm.

Lemma lor_byte x y : is_byte x -> is_byte y -> is_byte (Z.lor x y).
Proof.
  intros Hx Hy. assert (forall z, is_byte z -> z = Z.land z (Z.ones 8)) as E.
  { intros z Hz. rewrite Z.land_ones by lia. symmetry. by apply Z.mod_small. }
  rewrite (E x Hx), (E y Hy), <- Z.land_lor_distr_l, Z.land_ones by lia. apply is_byte_wrap.
Qed.

Lemma shiftr_byte x : is_byte x -> is_byte (Z.shiftr x 1).
Proof. unfold is_byte. rewrite Z.shiftr_div_pow2 by lia. change (2 ^ 1) with 2. intros. zdm. Qed.
#[export] Hint Resolve lor_byte shiftr_byte land_byte_l : gcm.

(** A block: 16 bytes. *)
Definition block16 (b : bytes) : Prop := length b = 16%nat /\ bytes_ok b.

Lemma zero_block : block16 (replicate 16 0).
Proof. split; [done|]. by apply Forall_replicate. Qed.

Lemma block_xor a b : block16 a -> block16 b -> block16 (xor_bytes a b).
Proof. intros [Ha Oa] [Hb Ob]. split; [rewrite xor_bytes_length; lia|by apply xor_bytes_ok]. Qed.

Lemma block_set i v b : block16 b -> is_byte v -> block16 (set_at i v b).
Proof. intros [Hl Ho] Hv. split; [by rewrite set_at_length|by apply set_at_ok]. Qed.

Lemma block_get b i : block16 b -> is_byte (nth i b 0).
Proof. intros [_ Ho]. by apply get_byte. Qed.
#[export] Hint Resolve zero_block block_xor block_set block_get : gcm.

(** ** AES *)

Lemma shift_rows_eq x0 x1 x2 x3 x4 x5 x6 x7 x8 x9 x10 x11 x12 x13 x14 x15 :
  shift_rows [x0; x1; x2; x3; x4; x5; x6; x7; x8; x9; x10; x11; x12; x13; x14; x15] =
  [x0; x5; x10; x15; x4; x9; x14; x3; x8; x13; x2; x7; x12; x1; x6; x11].
Proof. reflexivity. Qed.

(** Names the sixteen bytes of a block. *)
Ltac explode16 s H :=
  let Hl := fresh "Hl" in let Ho := fresh "Ho" in destruct H as [Hl Ho];
  do 16 (destruct s as [|? s]; [discriminate Hl|]); destruct s; [|discriminate Hl].

Lemma block_shift_rows s : block16 s -> block16 (shift_rows s).
Proof.
  intros H. explode16 s H. rewrite shift_rows_eq. split; [done|].
  do 16 (apply Forall_cons in Ho as [? Ho]). do 16 (constructor; [done|]). constructor.
Qed.

Lemma block_mix s i : block16 s -> block16 (mix_column s i).
Proof. intros H. unfold mix_column. cbv zeta. auto 20 with gcm. Qed.

Definition schedule_ok (w : bytes) : Prop := length w = 240%nat /\ bytes_ok w.

Lemma rcon_byte i : is_byte (nth i TAMGA_AES_RCON 0).
Proof. apply get_byte. apply (bool_decide_unpack _). vm_compute. exact I. Qed.

Lemma schedule_step_ok w i : bytes_ok w -> bytes_ok (aes_schedule_step w i) /\ length (aes_schedule_step w i) = (length w + 4)%nat.
Proof.
  intros Hw. pose proof (rcon_byte (i / 32 - 1)). unfold aes_schedule_step.
  destruct (i mod 32 =? 0)%nat; [|destruct (i mod 32 =? 16)%nat]; (split; [|by rewrite length_app]);
    apply Forall_app; (split; [done|]); do 4 (constructor; [auto with gcm|]); constructor.
Qed.

Lemma aes_init_ok key : length key = 32%nat -> bytes_ok key -> schedule_ok (tamga_aes256_init key).
Proof.
  intros Hl Hk. unfold tamga_aes256_init, schedule_ok.
  assert (forall l w, bytes_ok w -> bytes_ok (fold_left aes_schedule_step l w) /\
    length (fold_left aes_schedule_step l w) = (length w + 4 * length l)%nat) as H.
  { induction l as [|i l IH]; intros w Hw; [split; [done|simpl; lia]|]. cbn [fold_left].
    destruct (schedule_step_ok w i Hw) as [H1 H2]. destruct (IH _ H1) as [H3 H4]. split; [done|].
    rewrite H4, H2. simpl. lia. }
  destruct (H (map (fun k => 32 + 4 * k)%nat (seq 0 52)) key Hk) as [H1 H2]. split; [|done].
  rewrite H2, length_map, length_seq, Hl. done.
Qed.

Lemma round_key_block w r : schedule_ok w -> (r <= 14)%nat -> block16 (round_key w r).
Proof.
  intros [Hl Ho] Hr. unfold round_key. split; [rewrite length_take, length_drop; lia|]. by apply Forall_take, Forall_drop.
Qed.

Lemma aes_round_block w s r : schedule_ok w -> block16 s -> (r <= 14)%nat -> block16 (aes_round w s r).
Proof.
  intros Hw [Hl Ho] Hr. unfold aes_round. apply block_xor; [|by apply round_key_block].
  assert (block16 (shift_rows (map sbox s))) as H.
  { apply block_shift_rows. split; [by rewrite length_map|]. apply Forall_map, Forall_true. intros. apply sbox_byte. }
  destruct (negb (r =? 14)%nat); [|done]. cbn [fold_left]. auto using block_mix.
Qed.

Lemma aes_block w b : schedule_ok w -> block16 b -> block16 (tamga_aes256_encrypt_block w b).
Proof.
  intros Hw Hb. unfold tamga_aes256_encrypt_block.
  assert (forall l s, Forall (fun r => r <= 14)%nat l -> block16 s -> block16 (fold_left (aes_round w) l s)) as H.
  { induction l as [|r l IH]; intros s Hf Hs; [done|]. apply Forall_cons in Hf as [Hr Hf]. cbn [fold_left].
    apply IH; [done|]. by apply aes_round_block. }
  apply H; [apply Forall_forall; intros r Hr%elem_of_seq; lia|]. apply block_xor; [done|]. apply round_key_block; [done|lia].
Qed.

(** ** GHASH *)

Lemma gf_shift_block v : block16 v -> block16 (gf_shift v).
Proof.
  intros Hv. unfold gf_shift. split; [done|]. constructor.
  - apply lxor_byte; [auto with gcm|]. apply land_byte_l. done.
  - apply Forall_map, Forall_true. intros i. auto with gcm.
Qed.

Lemma gf_step_block x z v bit :
  block16 z -> block16 v -> block16 (gf_step x (z, v) bit).1 /\ block16 (gf_step x (z, v) bit).2.
Proof.
  intros [Hz Oz] Hv. split; [|by apply gf_shift_block]. cbn. split; [rewrite length_zip_with; destruct Hv; lia|].
  destruct Hv as [_ Ov]. clear Hz. revert v Ov. induction Oz as [|a z Ha Oz IH]; intros v Ov; [constructor|].
  destruct Ov as [|c v Hc Ov]; [constructor|]. constructor; [|by apply IH]. apply lxor_byte; [done|]. by apply land_byte_l.
Qed.

Lemma gf_mul_block x y : block16 y -> block16 (tamga_gcm_gf_mul x y).
Proof.
  intros Hy. unfold tamga_gcm_gf_mul.
  assert (forall l zv, block16 zv.1 -> block16 zv.2 -> block16 (fold_left (gf_step x) l zv).1) as H.
  { induction l as [|b l IH]; intros [z v] Hz Hv; [done|]. cbn [fold_left]. destruct (gf_step_block x z v b Hz Hv).
    by apply IH. }
  apply H; [apply zero_block|done].
Qed.

Lemma put_block d : (length d <= 16)%nat -> bytes_ok d -> block16 (put (replicate 16 0) 0 d).
Proof.
  intros Hl Hd. unfold put. split.
  - rewrite take_0, !length_app, length_drop, length_replicate. simpl. lia.
  - rewrite take_0. cbn [app]. apply Forall_app. split; [done|]. by apply Forall_drop, Forall_replicate.
Qed.

Lemma ghash_block fuel acc h data :
  block16 acc -> block16 h -> bytes_ok data -> block16 (ghash_loop fuel acc h data).
Proof.
  revert acc data. induction fuel as [|f IH]; intros acc data Ha Hh Hd; [done|]. cbn [ghash_loop].
  destruct data as [|x data]; [done|]. apply IH; [|done|by apply Forall_drop]. by apply gf_mul_block.
Qed.

Lemma put_u64_length x : length (tamga_gcm_put_u64_be x) = 8%nat.
Proof. done. Qed.

(** ** The keystream walk *)

Lemma inc32_block c : block16 c -> block16 (tamga_gcm_inc32 c).
Proof.
  unfold tamga_gcm_inc32. generalize 4%nat as k. intros k. revert c. induction k as [|k IH]; intros c Hc; [done|].
  cbn [inc32_loop]. destruct (negb _); [|apply IH]; auto with gcm.
Qed.

#[local] Opaque tamga_aes256_encrypt_block tamga_gcm_inc32 tamga_gcm_gf_mul tamga_aes256_init.

Section Walk.
Context (w : bytes) (Hw : schedule_ok w).

Lemma ctr_step f c input :
  input <> [] ->
  ctr_loop (S f) w c input =
  xor_bytes (take (Nat.min (length input) 16) input) (tamga_aes256_encrypt_block w (tamga_gcm_inc32 c)) ++
  ctr_loop f w (tamga_gcm_inc32 c) (drop (Nat.min (length input) 16) input).
Proof. by destruct input. Qed.

Lemma ctr_length f c input : block16 c -> (length input <= f)%nat -> length (ctr_loop f w c input) = length input.
Proof.
  revert c input. induction f as [|f IH]; intros c input Hc Hl; [destruct input; simpl in *; [done|lia]|].
  destruct input as [|x input]; [done|]. rewrite ctr_step by done.
  pose proof (inc32_block c Hc) as Hc2. pose proof (aes_block w _ Hw Hc2) as [Hk _].
  rewrite length_app, xor_bytes_length, Hk, IH; [|done|rewrite length_drop; simpl in *; lia].
  rewrite length_take, length_drop. lia.
Qed.

Lemma ctr_ok f c input : block16 c -> bytes_ok input -> bytes_ok (ctr_loop f w c input).
Proof.
  revert c input. induction f as [|f IH]; intros c input Hc Hl; [constructor|].
  destruct input as [|x input]; [constructor|]. rewrite ctr_step by done. pose proof (inc32_block c Hc) as Hc2.
  apply Forall_app. split; [|apply IH; [done|by apply Forall_drop]].
  apply xor_bytes_ok; [by apply Forall_take|]. by apply aes_block.
Qed.

Lemma ctr_invol f c input :
  block16 c -> (length input <= f)%nat -> ctr_loop f w c (ctr_loop f w c input) = input.
Proof.
  revert c input. induction f as [|f IH]; intros c input Hc Hl; [destruct input; simpl in *; [done|lia]|].
  destruct input as [|x input]; [done|]. pose proof (ctr_length (S f) c (x :: input) Hc Hl) as Hlen.
  rewrite (ctr_step f c (ctr_loop (S f) w c (x :: input))) by (intros E; rewrite E in Hlen; done).
  rewrite Hlen, ctr_step by done. set (n := Nat.min (length (x :: input)) 16).
  pose proof (inc32_block c Hc) as Hc2. pose proof (aes_block w _ Hw Hc2) as [Hk _].
  set (ks := tamga_aes256_encrypt_block w (tamga_gcm_inc32 c)) in *.
  assert (length (take n (x :: input)) = n) as Hn by (rewrite length_take; lia).
  assert (length (xor_bytes (take n (x :: input)) ks) = n) as Hx by (rewrite xor_bytes_length; lia).
  rewrite take_app_length' by done. rewrite drop_app_length' by done.
  rewrite xor_bytes_invol by lia. rewrite IH; [apply take_drop|done|].
  rewrite length_drop. simpl in Hl. assert (1 <= n)%nat by (subst n; simpl; lia). simpl. lia.
Qed.
End Walk.

(** ** Sealing and opening *)

(** The arguments every caller passes: a 32-byte key, a 12-byte nonce. *)
Record gcm_args (key nonce aad : bytes) : Prop := {
  args_key : length key = 32%nat /\ bytes_ok key;
  args_nonce : length nonce = 12%nat /\ bytes_ok nonce;
  args_aad : bytes_ok aad;
}.

(** The pre-counter block, and the tag of a ciphertext. *)
Definition gcm_j0 (nonce : bytes) : bytes := set_at 15 1 (put (replicate 16 0) 0 nonce).
Definition gcm_tag (key nonce aad ct : bytes) : bytes :=
  (tamga_gcm_core key nonce aad [] (fun _ => ct)).2.
Definition gcm_ctr (key nonce input : bytes) : bytes :=
  ctr_loop (length input) (tamga_aes256_init key) (gcm_j0 nonce) input.

Lemma gcm_core_eq key nonce aad input ciphertext :
  tamga_gcm_core key nonce aad input ciphertext =
  (gcm_ctr key nonce input, gcm_tag key nonce aad (ciphertext (gcm_ctr key nonce input))).
Proof. reflexivity. Qed.

Section Open.
Context (key nonce aad : bytes) (Hargs : gcm_args key nonce aad).

Lemma j0_block : block16 (gcm_j0 nonce).
Proof.
  destruct (args_nonce _ _ _ Hargs) as [Hl Ho]. unfold gcm_j0. apply block_set; [|done].
  apply put_block; [lia|done].
Qed.

Lemma tag_block ct : bytes_ok ct -> block16 (gcm_tag key nonce aad ct).
Proof.
  intros Hct. destruct (args_key _ _ _ Hargs) as [Hk Hko].
  pose proof (aes_init_ok key Hk Hko) as Hw. unfold gcm_tag, tamga_gcm_core. cbv zeta. cbn [snd].
  apply block_xor; [|apply aes_block; [done|apply j0_block]].
  apply gf_mul_block. apply aes_block; [done|apply zero_block].
Qed.

Lemma gcm_ctr_spec input :
  length (gcm_ctr key nonce input) = length input /\ gcm_ctr key nonce (gcm_ctr key nonce input) = input /\
  (bytes_ok input -> bytes_ok (gcm_ctr key nonce input)).
Proof.
  destruct (args_key _ _ _ Hargs) as [Hk Hko]. pose proof (aes_init_ok key Hk Hko) as Hw. pose proof j0_block as Hj.
  assert (length (gcm_ctr key nonce input) = length input) as Hl by (unfold gcm_ctr; by rewrite ctr_length).
  split_and!; [done| |by apply ctr_ok]. unfold gcm_ctr at 1. rewrite Hl. unfold gcm_ctr. by apply ctr_invol.
Qed.

Lemma gcm_open_iff_seal c p :
  bytes_ok c -> bytes_ok p ->
  tamga_gcm_open key nonce (At aad) c = Some p <-> tamga_gcm_seal key nonce (At aad) p = Some c.
Proof.
  intros Hc Hp. unfold tamga_gcm_open, tamga_gcm_seal. cbn [mbind option_bind].
  rewrite !gcm_core_eq. change TAMGA_GCM_TAG_LEN with 16%nat.
  set (n := (length c - 16)%nat). destruct (gcm_ctr_spec (take n c)) as (Hl1 & Hi1 & Ho1).
  destruct (gcm_ctr_spec p) as (Hl2 & Hi2 & Ho2).
  destruct (Nat.ltb_spec (length c) 16) as [Hshort|Hlong].
  { split; [done|]. intros [= <-]. rewrite length_app in Hshort. destruct (tag_block _ (Ho2 Hp)) as [Ht _]. lia. }
  assert (bytes_ok (take n c)) as Hct by (by apply Forall_take).
  destruct (tag_block _ Hct) as [Ht1 Ht2].
  pose proof (ct_memeq_eq (gcm_tag key nonce aad (take n c)) (drop n c) 16 Ht2
    ltac:(by apply Forall_drop) Ht1 ltac:(rewrite length_drop; lia)) as Hmem.
  destruct (tamga_ct_memeq _ _ _) eqn:Em; split.
  - intros [= <-]. rewrite Hi1. f_equal. rewrite (proj1 Hmem eq_refl). apply take_drop.
  - intros [= E]. f_equal. rewrite <- E. subst n. destruct (tag_block _ (Ho2 Hp)) as [Ht _].
    rewrite <- E, length_app, Ht. rewrite take_app_length' by lia. done.
  - done.
  - intros [= E]. exfalso. assert (n = length p) as Hn.
    { subst n. destruct (tag_block _ (Ho2 Hp)) as [Ht _]. rewrite <- E, length_app, Ht, Hl2. lia. }
    assert (take n c = gcm_ctr key nonce p /\ drop n c = gcm_tag key nonce aad (gcm_ctr key nonce p)) as [E1 E2].
    { rewrite <- E. split; [apply take_app_length'; lia|apply drop_app_length'; lia]. }
    rewrite E1, E2 in Hmem. destruct Hmem as [_ Hmem]. by specialize (Hmem eq_refl).
Qed.
End Open.

(** (C26) Authenticated encryption as a function: for a 32-byte key and a
    12-byte nonce, a text opens to [p] exactly when it is the sealing of [p]
    under the same key, nonce and associated data. So opening undoes sealing,
    and nothing else opens. *)
Theorem gcm_open_iff key nonce aad c p :
  gcm_args key nonce aad -> bytes_ok c -> bytes_ok p ->
  tamga_gcm_open key nonce (At aad) c = Some p <-> tamga_gcm_seal key nonce (At aad) p = Some c.
Proof. intros Hargs Hc Hp. by apply gcm_open_iff_seal. Qed.

Lemma gcm_open_iff_witness :
  exists c, tamga_gcm_seal (replicate 32 7) (replicate 12 9) (At [1]) (bstr "secret") = Some c /\
    tamga_gcm_open (replicate 32 7) (replicate 12 9) (At [1]) c = Some (bstr "secret").
Proof.
  eexists. split; [vm_compute; reflexivity|]. apply gcm_open_iff.
  - split; [split; [done|]|split; [done|]|]; repeat constructor; done.
  - repeat (constructor; [split; vm_compute; congruence|]). constructor.
  - repeat (constructor; [split; vm_compute; congruence|]). constructor.
  - vm_compute. reflexivity.
Defined.

(** What opening returns is bytes, 16 fewer than it was given. *)
Lemma gcm_open_bytes key nonce aad c p :
  gcm_args key nonce aad -> bytes_ok c -> tamga_gcm_open key nonce (At aad) c = Some p ->
  bytes_ok p /\ (length p + 16 = length c)%nat.
Proof.
  intros Hargs Hc. unfold tamga_gcm_open. cbn [mbind option_bind]. rewrite gcm_core_eq. change TAMGA_GCM_TAG_LEN with 16%nat.
  destruct (Nat.ltb_spec (length c) 16); [done|]. destruct (tamga_ct_memeq _ _ _); [|done]. intros [= <-].
  destruct (gcm_ctr_spec key nonce aad Hargs (take (length c - 16) c)) as (Hl & _ & Ho). split.
  - by apply Ho, Forall_take.
  - rewrite Hl, length_take. lia.
Qed.
