(* ===== verification/Suite.v ===== *)
(** * The signature verifiers as an interface

    What the offline-file code asks of [src/src/crypto/ed25519.c], [rsa.c] and
    [ecdsa.c]: four total predicates on a public key, a message and a
    signature, none of which allocates. The clients ([KeySet], [LicenseFile],
    [MachineFile]) are proved against any such suite; the suite of the library
    itself is [tamga_crypto] of [EndToEnd]. *)

From S2P Require Import Prelude Sha2.
From stdpp Require Import list.
#[local] Open Scope Z_scope.

Class Suite := {
  tamga_ed25519_verify : forall (public_key message signature : bytes), bool;
  tamga_rsa_verify_pkcs1_sha256 : forall (spki message signature : bytes), bool;
  tamga_rsa_verify_pss_sha256 : forall (spki message signature : bytes), bool;
  tamga_ecdsa_p256_verify : forall (public_key message signature : bytes), bool;
}.

(** A suite for evaluation: a keyed hash in place of every signature. *)
Definition keyed_hash (key message signature : bytes) : bool :=
  beq signature (tamga_sha512 (Some (key ++ message))).
Definition hash_suite : Suite :=
  Build_Suite keyed_hash keyed_hash keyed_hash keyed_hash.

Definition TAMGA_ED25519_PUBKEY_LEN : nat := 32.
Definition TAMGA_ED25519_SIG_LEN : nat := 64.
