(* ===== verification/KeySet.v ===== *)
(** * The trusted signing keys: [src/src/checkout/key_set.c]

    A set is its entries in the order they were added, and the capacity of its
    array; the array is null exactly when the capacity is 0. Key ids are C
    strings: ids that come from a JSON document end at their first zero byte
    wherever the code compares or copies them. *)

From Stdlib Require Import String.
From S2P Require Import Prelude World Buf Hex Base64 Json JsonParse JsonGrammar Sha2 Status Cert Suite.
From stdpp Require Import list.
#[local] Open Scope Z_scope.

Definition TAMGA_KEY_ID_LENGTH : nat := 16.
Definition TAMGA_UNPUBLISHED_KEY_ID : bytes := bstr "e3b0c44298fc1c14".
Definition TAMGA_SIGNING_KEY_ALGORITHM : bytes := bstr "ed25519".
Definition TAMGA_KEY_ID_DIAGNOSTIC_CAP : nat := 64.
Definition TAMGA_KEY_SET_INITIAL_CAPACITY : Z := 4.

Record TamgaSigningKeyEntry := mk_entry { e_key_id : bytes; e_public_key : bytes }.
Record TamgaSigningKeySet := mk_set { ks_entries : list TamgaSigningKeyEntry; ks_capacity : Z }.

Definition sizeof_entry : Z := 40.
Definition sizeof_set : Z := 24.

Definition tamga_signing_key_id_compute (public_key : bytes) : bytes :=
  tamga_hex_encode (Some (take (TAMGA_KEY_ID_LENGTH / 2) (tamga_sha256 (Some public_key)))).

Definition tamga_claims_key_id (meta : option json) : option bytes :=
  tamga_json_as_string (tamga_json_object_get meta (Some (bstr "kid"))).

Definition tamga_key_set_count (set : option TamgaSigningKeySet) : Z :=
  match set with None => 0 | Some set => zlen (ks_entries set) end.

Fixpoint tamga_ascii_equals_ignoring_case (a b : bytes) : bool :=
  match a, b with
  | x :: a', y :: b' => if negb (ascii_lower x =? ascii_lower y) then false else tamga_ascii_equals_ignoring_case a' b'
  | [], [] => true
  | _, _ => false
  end.

(** [strcmp(entries[i].key_id, key_id) == 0], first hit. *)
Fixpoint lookup_loop (entries : list TamgaSigningKeyEntry) (key_id : bytes) : option bytes :=
  match entries with
  | [] => None
  | e :: rest => if beq (c_view (e_key_id e)) (c_view key_id) then Some (e_public_key e) else lookup_loop rest key_id
  end.

Definition tamga_key_set_lookup (set : option TamgaSigningKeySet) (key_id : option bytes) : option bytes :=
  match set, key_id with
  | Some set, Some key_id => lookup_loop (ks_entries set) key_id
  | _, _ => None
  end.

Section Ops.
Context {malloc : Malloc} {suite : Suite}.

Definition tamga_key_set_create : M (status TamgaSigningKeySet) :=
  let! ok := tamga_calloc 1 sizeof_set in
  if ok : bool then ret (inl (mk_set [] 0))
  else err TAMGA_ERR_OUT_OF_MEMORY (bstr "could not allocate the key set").

(** The set with room for [additional] more entries. *)
Definition tamga_key_set_reserve (set : TamgaSigningKeySet) (additional : Z) : M (status TamgaSigningKeySet) :=
  match tamga_checked_add (zlen (ks_entries set)) additional with
  | None => err TAMGA_ERR_OUT_OF_MEMORY (bstr "the key set is too large to grow")
  | Some needed =>
      if needed <=? ks_capacity set then ret (inl set)
      else
        let capacity := if ks_capacity set =? 0 then TAMGA_KEY_SET_INITIAL_CAPACITY else ks_capacity set in
        match grow_cap 64 capacity needed with
        | None => err TAMGA_ERR_OUT_OF_MEMORY (bstr "the key set is too large to grow")
        | Some capacity =>
            match tamga_checked_mul capacity sizeof_entry with
            | None => err TAMGA_ERR_OUT_OF_MEMORY (bstr "the key set is too large to grow")
            | Some size =>
                let! entries := tamga_realloc size in
                if entries : bool then ret (inl (mk_set (ks_entries set) capacity))
                else err TAMGA_ERR_OUT_OF_MEMORY (bstr "could not grow the key set")
            end
        end
  end.

(** The set after the call and its status: a failure after the array was
    grown leaves the larger array behind. *)
Definition tamga_key_set_append (set : TamgaSigningKeySet) (key_id public_key : bytes)
  : M (TamgaSigningKeySet * TamgaErrorCode) :=
  let! r := tamga_key_set_reserve set 1 in
  match r with
  | inr status => ret (set, status)
  | inl set =>
      if ks_capacity set =? 0 then
        let! code := fail TAMGA_ERR_OUT_OF_MEMORY "could not grow the key set" in ret (set, code)
      else
        let! copy := tamga_strdup (Some key_id) in
        match copy with
        | None => let! code := fail TAMGA_ERR_OUT_OF_MEMORY "could not copy a signing key id" in ret (set, code)
        | Some copy =>
            ret (mk_set (ks_entries set ++ [mk_entry copy (take TAMGA_ED25519_PUBKEY_LEN public_key)]) (ks_capacity set), TAMGA_OK)
        end
  end.

(** The raw key, or why there is none (no message is set). *)
Definition tamga_signing_key_decode (public_key : bytes) : M (status bytes) :=
  let! decoded := tamga_base64_decode_alloc_why (Some public_key) in
  match decoded with
  | inl TAMGA_BASE64_FAILURE_OUT_OF_MEMORY => ret (inr TAMGA_ERR_OUT_OF_MEMORY)
  | inl _ => ret (inr TAMGA_ERR_INVALID_BASE64)
  | inr decoded =>
      if negb (length decoded =? TAMGA_ED25519_PUBKEY_LEN)%nat then ret (inr TAMGA_ERR_LENGTH_INVALID)
      else ret (inl decoded)
  end.

Definition tamga_key_set_add_public_key (set : option TamgaSigningKeySet) (public_key : option bytes)
  : M (option TamgaSigningKeySet * TamgaErrorCode) :=
  match set, public_key with
  | Some set', Some public_key =>
      let public_key := c_view public_key in
      if zlen public_key >? TAMGA_MAX_REASONABLE_LEN then
        let! code := fail TAMGA_ERR_LENGTH_INVALID "the public key exceeds the accepted maximum length" in ret (set, code)
      else
        let! decoded := tamga_signing_key_decode public_key in
        match decoded with
        | inr TAMGA_ERR_OUT_OF_MEMORY =>
            let! code := fail TAMGA_ERR_OUT_OF_MEMORY "could not decode the public key" in ret (set, code)
        | inr TAMGA_ERR_LENGTH_INVALID =>
            let! code := fail TAMGA_ERR_LENGTH_INVALID "an Ed25519 public key decodes to 32 bytes; this one does not" in
            ret (set, code)
        | inr _ =>
            let! code := fail TAMGA_ERR_INVALID_BASE64
                           "an Ed25519 public key must be standard base64 of its raw bytes" in
            ret (set, code)
        | inl decoded =>
            let key_id := tamga_signing_key_id_compute public_key in
            let! (set', code) := tamga_key_set_append set' key_id decoded in
            ret (Some set', code)
        end
  | _, _ => let! code := fail TAMGA_ERR_NULL_ARGUMENT "set and public_key are required" in ret (set, code)
  end.

(** What one resource of the document leads to: the staged set and the two
    counters. *)
Definition tamga_key_set_stage_resource (staged : TamgaSigningKeySet) (resource : option json) (skipped mismatched : Z)
  : M (status (TamgaSigningKeySet * Z * Z)) :=
  let skip := ret (inl (staged, skipped + 1, mismatched)) in
  match resource with
  | Some (JObject _) =>
      let served_id := tamga_json_as_string (tamga_json_object_get resource (Some (bstr "id"))) in
      let attributes := tamga_json_object_get resource (Some (bstr "attributes")) in
      let algorithm := tamga_json_as_string (tamga_json_object_get attributes (Some (bstr "algorithm"))) in
      let public_key := tamga_json_as_string (tamga_json_object_get attributes (Some (bstr "publicKey"))) in
      match served_id, algorithm, public_key with
      | Some served_id, Some algorithm, Some public_key =>
          let served_id := c_view served_id in
          if beq served_id [] then skip
          else if negb (tamga_ascii_equals_ignoring_case (c_view algorithm) TAMGA_SIGNING_KEY_ALGORITHM) then skip
          else
            let! decoded := tamga_signing_key_decode public_key in
            match decoded with
            | inr TAMGA_ERR_OUT_OF_MEMORY => err TAMGA_ERR_OUT_OF_MEMORY (bstr "could not decode a published key")
            | inr _ => skip
            | inl decoded =>
                let computed := tamga_signing_key_id_compute public_key in
                let mismatched := if beq computed served_id then mismatched else mismatched + 1 in
                let! (staged, code) := tamga_key_set_append staged served_id decoded in
                if decide (code = TAMGA_OK) then ret (inl (staged, skipped, mismatched)) else ret (inr code)
            end
      | _, _, _ => skip
      end
  | _ => skip
  end.

(** The staging loop over the elements of [data]. *)
Fixpoint stage_loop (staged : TamgaSigningKeySet) (resources : list json) (skipped mismatched : Z)
  : M (status (TamgaSigningKeySet * Z * Z)) :=
  match resources with
  | [] => ret (inl (staged, skipped, mismatched))
  | r :: rest =>
      let? (staged, skipped, mismatched) := tamga_key_set_stage_resource staged (Some r) skipped mismatched in
      stage_loop staged rest skipped mismatched
  end.

(** The three counters on [TAMGA_OK], and the set after the call. *)
Definition tamga_key_set_add_json (set : option TamgaSigningKeySet) (json_text : option bytes)
  : M (option TamgaSigningKeySet * status (Z * Z * Z)) :=
  let failing (m : M (status (Z * Z * Z))) := let! r := m in ret (set, r) in
  match set, json_text with
  | Some set', Some text =>
      if (zlen text =? 0) || (zlen text >? TAMGA_MAX_REASONABLE_LEN) then
        failing (err TAMGA_ERR_LENGTH_INVALID
                   (bstr "the key-set document's length is zero or exceeds the accepted maximum"))
      else
        let! document := tamga_json_parse (Some text) in
        match document with
        | inr parse_error =>
            if tamga_json_error_is_out_of_memory (Some parse_error)
            then failing (err TAMGA_ERR_OUT_OF_MEMORY (bstr "could not parse the key set"))
            else failing (err TAMGA_ERR_INVALID_JSON (bstr "the key set is malformed: " ++ json_error_text parse_error))
        | inl document =>
            match tamga_json_object_get (Some document) (Some (bstr "data")) with
            | Some (JArray resources) =>
                let! staged := tamga_key_set_create in
                match staged with
                | inr status => ret (set, inr status)
                | inl staged =>
                    let! r := stage_loop staged resources 0 0 in
                    match r with
                    | inr status => ret (set, inr status)
                    | inl (staged, skipped, mismatched) =>
                        let added := zlen (ks_entries staged) in
                        let! r := tamga_key_set_reserve set' added in
                        match r with
                        | inr status => ret (set, inr status)
                        | inl set' =>
                            ret (Some (mk_set (ks_entries set' ++ ks_entries staged) (ks_capacity set')),
                                 inl (added, skipped, mismatched))
                        end
                    end
                end
            | _ => failing (err TAMGA_ERR_INVALID_JSON
                     (bstr "a signing-key document is a JSON:API collection with a data array; this one has none"))
            end
        end
  | _, _ => failing (err TAMGA_ERR_NULL_ARGUMENT (bstr "set and json are required"))
  end.

Definition tamga_key_set_select (set : option TamgaSigningKeySet) (key_id : option bytes) : M (status bytes) :=
  match set with
  | None => err TAMGA_ERR_NULL_ARGUMENT (bstr "a key set is required")
  | Some _ =>
      match option_map c_view key_id with
      | None | Some [] =>
          err TAMGA_ERR_INVALID_JSON (bstr "the signed payload names no kid, so no signing key can be selected")
      | Some id =>
          match tamga_key_set_lookup set key_id with
          | Some key => ret (inl key)
          | None =>
              if beq id TAMGA_UNPUBLISHED_KEY_ID then
                err TAMGA_ERR_SIGNING_KEY_NOT_PUBLISHED
                  (bstr "this file names the key id of an account with no published Ed25519 public key (" ++
                   TAMGA_UNPUBLISHED_KEY_ID ++
                   bstr "), so no key set can ever match it; verify with the account's own key instead")
              else
                err TAMGA_ERR_UNKNOWN_SIGNING_KEY
                  (bstr "no signing key for kid " ++ take TAMGA_KEY_ID_DIAGNOSTIC_CAP id ++ bstr " among the " ++
                   fmt_nat (tamga_key_set_count set) ++
                   bstr " key(s) held; this is a key set that has not caught up with a rotation, not a forged file")
          end
      end
  end.

(** The key that verified. *)
Fixpoint verifier_loop (entries : list TamgaSigningKeyEntry) (message signature : bytes) : option bytes :=
  match entries with
  | [] => None
  | e :: rest => if tamga_ed25519_verify (e_public_key e) message signature then Some (e_public_key e)
                 else verifier_loop rest message signature
  end.

Definition tamga_key_set_find_verifier (set : option TamgaSigningKeySet) (message signature : option bytes) : option bytes :=
  match set, message, signature with
  | Some set, Some message, Some signature =>
      if negb (length signature =? TAMGA_ED25519_SIG_LEN)%nat then None
      else verifier_loop (ks_entries set) message signature
  | _, _, _ => None
  end.

(** [probe]: the payload, or the status that reading it returned. *)
Definition tamga_key_set_label_failure (set : option TamgaSigningKeySet) (probe : status json) : M TamgaErrorCode :=
  match probe with
  | inr TAMGA_ERR_OUT_OF_MEMORY => ret TAMGA_ERR_OUT_OF_MEMORY
  | inr TAMGA_ERR_NULL_ARGUMENT => ret TAMGA_ERR_NULL_ARGUMENT
  | inr _ =>
      fail TAMGA_ERR_SIGNATURE_INVALID
        "signature did not verify under any held key, and the payload could not be read to name the key it claims"
  | inl payload =>
      let! selected := tamga_key_set_select set (tamga_claims_key_id (tamga_json_object_get (Some payload) (Some (bstr "meta")))) in
      match selected with
      | inl _ =>
          fail TAMGA_ERR_SIGNATURE_INVALID
            "signature did not verify under any held key, and the kid the file names IS held: a forged or altered file, not a stale set"
      | inr TAMGA_ERR_INVALID_JSON =>
          fail TAMGA_ERR_SIGNATURE_INVALID
            "signature did not verify under any held key, and the payload names no kid to label the failure by"
      | inr selected => ret selected
      end
  end.
End Ops.

(** The id of an account without a published key is the id of the empty key. *)
Example unpublished_key_id : tamga_signing_key_id_compute [] = TAMGA_UNPUBLISHED_KEY_ID.
Proof. vm_compute. reflexivity. Qed.
