(* ===== verification/KeySetSpec.v ===== *)
(** * What the key set promises

    Growing and filling a set ([tamga_key_set_add_public_key],
    [tamga_key_set_add_json]): atomic, exact, and never more entries than the
    array has room for. *)

From Stdlib Require Import String.
From S2P Require Import Prelude World Buf BufBuild Hex Base64 Json JsonParse JsonGrammar JsonSmall Sha2 Status Cert Suite KeySet.
From stdpp Require Import list.
#[local] Open Scope Z_scope.

(** The array holds what the set says it holds. *)
Definition set_wf (set : TamgaSigningKeySet) : Prop :=
  zlen (ks_entries set) <= ks_capacity set <= SIZE_MAX.

(** How many keys a set may hold for growth to stay within [ample] memory. *)
Definition set_limit : Z := 2 ^ 24.

Lemma grow_cap_max c needed :
  0 < c -> 0 <= needed <= set_limit -> exists c', grow_cap 64 c needed = Some c' /\ c' <= Z.max c (2 * needed).
Proof.
  intros Hc Hn. unfold set_limit in Hn. destruct (Z.ltb_spec c needed) as [Hlt|Hge].
  - destruct (grow_cap_ok 64 c needed) as (c' & E & H); [lia| |unfold SIZE_MAX; lia|lia|].
    + apply Z.le_trans with (1 * 2 ^ Z.of_nat 64); [|apply Z.mul_le_mono_nonneg_r; lia]. change (1 * 2 ^ Z.of_nat 64) with (2 ^ 64). lia.
    + exists c'. split; [done|lia].
  - exists c. split; [|lia]. cbn [grow_cap]. rewrite (proj2 (Z.ltb_ge c needed)) by lia. done.
Qed.

Section Spec.
Context {malloc : Malloc} {suite : Suite}.

Lemma ample_realloc size s : ample -> 0 <= size <= json_memory -> (tamga_realloc size s).1 = true.
Proof. intros Ha Hs. apply (ample_malloc size s Ha). lia. Qed.

Lemma reserve_post set n :
  set_wf set -> 0 <= n ->
  post (tamga_key_set_reserve set n) (fun r =>
    match r with
    | inl set' => ks_entries set' = ks_entries set /\ zlen (ks_entries set) + n <= ks_capacity set' <= SIZE_MAX /\
        (zlen (ks_entries set) + n <= set_limit -> ks_capacity set <= 2 * set_limit -> ks_capacity set' <= 2 * set_limit)
    | inr code => code = TAMGA_ERR_OUT_OF_MEMORY /\
        ~ (ample /\ zlen (ks_entries set) + n <= set_limit /\ ks_capacity set <= 2 * set_limit)
    end).
Proof.
  intros [Hwf Hmax] Hn. unfold tamga_key_set_reserve.
  destruct (tamga_checked_add (zlen (ks_entries set)) n) as [needed|] eqn:Ea.
  2:{ apply checked_add_None in Ea. apply post_err. split; [done|]. intros (_ & H & _). unfold set_limit, SIZE_MAX in *. lia. }
  apply checked_add_Some in Ea as [-> Hsz].
  destruct (Z.leb_spec (zlen (ks_entries set) + n) (ks_capacity set)); [apply post_ret; split_and!; [done|lia..]|].
  set (c := if ks_capacity set =? 0 then TAMGA_KEY_SET_INITIAL_CAPACITY else ks_capacity set).
  assert (0 < c <= SIZE_MAX /\ (c <= Z.max 4 (ks_capacity set))) as [Hc Hcm].
  { subst c. unfold TAMGA_KEY_SET_INITIAL_CAPACITY. destruct (Z.eqb_spec (ks_capacity set) 0); unfold SIZE_MAX in *; lia. }
  destruct (grow_cap 64 c _) as [cap|] eqn:Eg.
  2:{ apply post_err. split; [done|]. intros (_ & H1 & H2).
      destruct (grow_cap_max c (zlen (ks_entries set) + n)) as (c' & E & _); [lia|lia|]. congruence. }
  pose proof (grow_cap_Some _ _ _ _ Hc Eg) as [Hcap _].
  assert (zlen (ks_entries set) + n <= set_limit -> ks_capacity set <= 2 * set_limit -> cap * 40 <= json_memory) as Hfit.
  { intros H1 H2. destruct (grow_cap_max c (zlen (ks_entries set) + n)) as (c' & E & Hb); [lia|lia|].
    rewrite Eg in E. injection E as <-. unfold set_limit, json_memory in *. lia. }
  unfold sizeof_entry. destruct (tamga_checked_mul cap 40) as [size|] eqn:Em.
  2:{ apply post_err. split; [done|]. intros (_ & H1 & H2). specialize (Hfit H1 H2).
      rewrite (proj2 (checked_mul_Some cap 40 (cap * 40) ltac:(lia) ltac:(lia))) in Em; [done|].
      unfold json_memory, SIZE_MAX in *. lia. }
  apply checked_mul_Some in Em as [-> Hmul]; [|lia..].
  eapply (post_bind _ _ (fun ok => ok = true \/ ok = false /\ ~ (ample /\ cap * 40 <= json_memory))).
  { intros s. destruct (tamga_realloc _ s).1 eqn:E; [by left|]. right. split; [done|]. intros [Ha Hle].
    rewrite (ample_realloc _ _ Ha) in E; [done|]. lia. }
  intros ok [->|[-> Hoom]].
  - apply post_ret. cbn. split_and!; [done|lia|lia|]. intros H1 H2.
    destruct (grow_cap_max c (zlen (ks_entries set) + n)) as (c' & E & Hb); [lia|lia|].
    rewrite Eg in E. injection E as <-. unfold set_limit in *. lia.
  - apply post_err. split; [done|]. intros (Ha & H1 & H2). apply Hoom. split; [done|by apply Hfit].
Qed.

Lemma strdup_post l :
  post (tamga_strdup (Some l)) (fun r => match r with
    | Some t => t = c_view l
    | None => ~ (ample /\ zlen (c_view l) <= TAMGA_MAX_REASONABLE_LEN)
    end).
Proof.
  unfold tamga_strdup. eapply post_mono; [apply strndup_post|]. intros [t|]; [by intros [-> _]|].
  intros H (Ha & Hl). apply H. split_and!; [|apply c_view_no_nul|done]. apply (ample_enough _ Ha).
  unfold json_memory, TAMGA_MAX_REASONABLE_LEN in *. lia.
Qed.

(** Appending one key: the key is last in the set, or the entries are as they
    were. *)
Definition set_ok (set : TamgaSigningKeySet) : Prop := set_wf set /\ ks_capacity set <= 2 * set_limit.

Lemma append_key_post set id key :
  set_wf set -> length key = 32%nat ->
  post (tamga_key_set_append set id key) (fun '(set', code) =>
    set_wf set' /\ (set_ok set -> zlen (ks_entries set) < set_limit -> set_ok set') /\
    ((code = TAMGA_OK /\ ks_entries set' = ks_entries set ++ [mk_entry (c_view id) key]) \/
     (code = TAMGA_ERR_OUT_OF_MEMORY /\ ks_entries set' = ks_entries set /\
      ~ (ample /\ zlen (ks_entries set) < set_limit /\ set_ok set /\ zlen (c_view id) <= TAMGA_MAX_REASONABLE_LEN)))).
Proof.
  intros Hwf Hkey. unfold tamga_key_set_append. eapply post_bind; [apply (reserve_post set 1); [done|lia]|].
  intros [set'|code] Hr.
  2:{ destruct Hr as [-> Hno]. apply post_ret. split_and!; [done|done|]. right. split_and!; [done|done|].
      intros (Ha & Hl & [_ Hc] & _). apply Hno. split_and!; [done|lia|done]. }
  destruct Hr as (He & Hcap & Hsm). destruct (Z.eqb_spec (ks_capacity set') 0); [lia|].
  assert (set_ok set -> zlen (ks_entries set) < set_limit -> ks_capacity set' <= 2 * set_limit) as Hsm'
    by (intros [_ ?] ?; apply Hsm; lia).
  eapply post_bind; [apply strdup_post|]. intros [t|] Ht.
  - apply post_ret. subst t. rewrite take_ge by (unfold TAMGA_ED25519_PUBKEY_LEN; lia).
    assert (set_wf (mk_set (ks_entries set' ++ [mk_entry (c_view id) key]) (ks_capacity set'))) as Hw2.
    { unfold set_wf. cbn. rewrite He, length_app. cbn [length]. lia. }
    split_and!; [done|intros; split; [done|by apply Hsm']|]. left. split; [done|]. cbn. by rewrite He.
  - intros s. unfold bind. pose proof (error_set_code TAMGA_ERR_OUT_OF_MEMORY (FmtText (bstr "could not copy a signing key id")) s) as Ec.
    destruct (tamga_error_set _ _ s) as [code s1]. cbn in Ec. subst code. cbn [ret fst].
    assert (set_wf set') by (unfold set_wf; rewrite He; lia).
    split_and!; [done|intros; split; [done|by apply Hsm']|]. right. split_and!; [done|done|].
    intros (Ha & _ & _ & Hl). by apply Ht.
Qed.

(** ** One resource *)

(** The entry a resource of the document stands for, and whether its id is the
    one computed from the key; [None] for a row to skip. *)
Definition key_row (r : json) : option (TamgaSigningKeyEntry * bool) :=
  match r with
  | JObject _ =>
      match string_member r (bstr "id"),
            tamga_json_as_string (tamga_json_object_get (member r (bstr "attributes")) (Some (bstr "algorithm"))),
            tamga_json_as_string (tamga_json_object_get (member r (bstr "attributes")) (Some (bstr "publicKey"))) with
      | Some id, Some algorithm, Some public_key =>
          if decide (c_view id <> [] /\ map ascii_lower (c_view algorithm) = bstr "ed25519") then
            match tamga_base64_decode (Some public_key) with
            | Some key => if decide (length key = 32%nat)
                          then Some (mk_entry (c_view id) key, bool_decide (tamga_signing_key_id_compute public_key = c_view id))
                          else None
            | None => None
            end
          else None
      | _, _, _ => None
      end
  | _ => None
  end.

Definition new_entries (rows : list json) : list TamgaSigningKeyEntry := map fst (omap key_row rows).
Definition mismatches (rows : list json) : Z := zlen (filter (fun p => p.2 = false) (omap key_row rows)).

Lemma equals_ignoring_case a b :
  tamga_ascii_equals_ignoring_case a b = bool_decide (map ascii_lower a = map ascii_lower b).
Proof.
  revert b. induction a as [|x a IH]; intros [|y b]; cbn [tamga_ascii_equals_ignoring_case map]; try done.
  destruct (Z.eqb_spec (ascii_lower x) (ascii_lower y)) as [E|E]; cbn [negb].
  - rewrite IH. apply bool_decide_ext. rewrite E. split; [by intros ->|by intros [=]].
  - symmetry. apply bool_decide_eq_false. by intros [=].
Qed.

Lemma signing_key_decode_post pk :
  zlen pk <= TAMGA_MAX_REASONABLE_LEN ->
  post (tamga_signing_key_decode pk) (fun r =>
    match r with
    | inl d => tamga_base64_decode (Some pk) = Some d /\ length d = 32%nat
    | inr TAMGA_ERR_OUT_OF_MEMORY => ~ ample
    | inr TAMGA_ERR_INVALID_BASE64 => tamga_base64_decode (Some pk) = None
    | inr code => code = TAMGA_ERR_LENGTH_INVALID /\
        exists d, tamga_base64_decode (Some pk) = Some d /\ length d <> 32%nat
    end).
Proof.
  intros Hl. unfold tamga_signing_key_decode. eapply post_bind; [by apply decode_alloc_post|].
  intros [[]|d] Hd; try (by apply post_ret). change TAMGA_ED25519_PUBKEY_LEN with 32%nat.
  destruct (Nat.eqb_spec (length d) 32); cbn [negb]; apply post_ret; [done|]. split; [done|eauto].
Qed.

Lemma stage_resource_post staged r sk mm :
  set_wf staged -> json_small TAMGA_MAX_REASONABLE_LEN r ->
  post (tamga_key_set_stage_resource staged (Some r) sk mm) (fun res =>
    match res with
    | inl (staged', sk', mm') =>
        set_wf staged' /\ (set_ok staged -> zlen (ks_entries staged) < set_limit -> set_ok staged') /\
        match key_row r with
        | Some (e, same) => ks_entries staged' = ks_entries staged ++ [e] /\ sk' = sk /\
                            mm' = (if same then mm else mm + 1)
        | None => staged' = staged /\ sk' = sk + 1 /\ mm' = mm
        end
    | inr code => code = TAMGA_ERR_OUT_OF_MEMORY /\
        ~ (ample /\ zlen (ks_entries staged) < set_limit /\ set_ok staged)
    end).
Proof.
  intros Hwf Hsm. unfold tamga_key_set_stage_resource, key_row.
  assert (forall Q : status (TamgaSigningKeySet * Z * Z) -> Prop, Q (inl (staged, sk + 1, mm)) ->
    post (ret (inl (staged, sk + 1, mm)) : M (status (TamgaSigningKeySet * Z * Z))) Q) as Hskip by (intros; by apply post_ret).
  destruct r; try (by apply Hskip). set (r := JObject _) in *. unfold string_member. fold (member r (bstr "attributes")).
  destruct (tamga_json_as_string (tamga_json_object_get (Some r) (Some (bstr "id")))) as [id|] eqn:Eid; [|by apply Hskip].
  destruct (tamga_json_as_string (tamga_json_object_get (member r (bstr "attributes")) (Some (bstr "algorithm")))) as [alg|]; [|by apply Hskip].
  destruct (tamga_json_as_string (tamga_json_object_get (member r (bstr "attributes")) (Some (bstr "publicKey")))) as [pk|] eqn:Epk;
    [|by apply Hskip].
  assert (zlen id <= TAMGA_MAX_REASONABLE_LEN) as Hid by (by apply (string_member_small _ r (bstr "id"))).
  assert (zlen pk <= TAMGA_MAX_REASONABLE_LEN) as Hpk.
  { destruct (member r (bstr "attributes")) as [a|] eqn:Ea; [|done].
    by apply (string_member_small _ a (bstr "publicKey")); [eapply member_small|]. }
  rewrite equals_ignoring_case. change (map ascii_lower TAMGA_SIGNING_KEY_ALGORITHM) with (bstr "ed25519").
  destruct (beq (c_view id) []) eqn:Eb.
  { apply beq_eq in Eb. rewrite decide_False by tauto. by apply Hskip. }
  apply beq_neq in Eb. case_bool_decide as Ealg; cbn [negb]; [|rewrite decide_False by tauto; by apply Hskip].
  rewrite decide_True by done. eapply post_bind; [by apply signing_key_decode_post|]. intros [d|code] Hd.
  - destruct Hd as [-> Hd32]. rewrite decide_True by done. eapply post_bind; [by apply append_key_post|].
    intros [st' code] (Hw' & Hok' & [[-> He]|(-> & He & Hno)]).
    + rewrite decide_True by done. apply post_ret. split; [done|split; [done|]]. rewrite (c_view_id (c_view id)) in He by apply c_view_no_nul.
      split_and!; [done|done|]. destruct (beq _ _) eqn:E2; [apply beq_eq in E2; by rewrite bool_decide_true|].
      apply beq_neq in E2. by rewrite bool_decide_false.
    + rewrite decide_False by done. apply post_ret. split; [done|]. intros (Ha & Hl & Hs). apply Hno. split_and!; [done|done|done|].
      assert (forall l, length (c_view l) <= length l)%nat as Hcv.
      { induction l as [|x l IH]; simpl; [lia|]. destruct (x =? 0); simpl; lia. }
      pose proof (Hcv (c_view id)). pose proof (Hcv id). lia.
  - destruct code; try discriminate (proj1 Hd);
      first [ rewrite Hd; by apply Hskip
            | destruct Hd as (_ & d & -> & Hne); rewrite decide_False by done; by apply Hskip
            | apply post_err; split; [done|tauto] ].
Qed.

Lemma stage_loop_post rows staged sk mm :
  set_wf staged -> Forall (json_small TAMGA_MAX_REASONABLE_LEN) rows ->
  post (stage_loop staged rows sk mm) (fun res =>
    match res with
    | inl (staged', sk', mm') =>
        ks_entries staged' = ks_entries staged ++ new_entries rows /\
        sk' = sk + (zlen rows - zlen (new_entries rows)) /\ mm' = mm + mismatches rows
    | inr code => code = TAMGA_ERR_OUT_OF_MEMORY /\
        ~ (ample /\ zlen (ks_entries staged) + zlen rows <= set_limit /\ set_ok staged)
    end).
Proof.
  revert staged sk mm. induction rows as [|r rows IH]; intros staged sk mm Hwf Hsm; cbn [stage_loop].
  { apply post_ret. rewrite app_nil_r. unfold mismatches, new_entries. split_and!; [done|cbn; lia|cbn; lia]. }
  apply Forall_cons in Hsm as [Hr Hsm]. eapply post_try; [by apply stage_resource_post| |].
  2:{ intros code [-> Hno]. split; [done|]. intros (Ha & Hl & Hok). apply Hno. cbn [length] in Hl. split_and!; [done|lia|done]. }
  intros [[st' sk'] mm'] (Hw' & Hok' & Hrow). eapply post_mono; [by apply IH|].
  intros [[[st'' sk''] mm'']|code].
  - unfold new_entries, mismatches. cbn [omap list_omap]. destruct (key_row r) as [[e same]|].
    + destruct Hrow as (-> & -> & ->). intros (-> & -> & ->). cbn [map length fst]. rewrite <- app_assoc. split_and!; [done|lia|].
      rewrite filter_cons. cbn [snd]. destruct same; [rewrite decide_False by done; lia|].
      rewrite decide_True by done. cbn [length]. lia.
    + destruct Hrow as (-> & -> & ->). intros (-> & -> & ->). cbn [length]. split_and!; [done|lia|done].
  - intros [-> Hno]. split; [done|]. intros (Ha & Hl & Hok). cbn [length] in Hl. apply Hno. split_and!; [done| |apply Hok'; [done|lia]].
    destruct (key_row r) as [[e same]|]; destruct Hrow as (E & _); rewrite E; [rewrite length_app; cbn [length]; lia|lia].
Qed.

(** ** The document *)

Lemma jtext_nonempty j text : jtext j text -> 0 < zlen text <= TAMGA_MAX_REASONABLE_LEN.
Proof.
  intros (Hl & w1 & t & w2 & -> & _ & _ & Hj). split; [|done]. apply jval_head in Hj as (c & r & -> & _).
  rewrite !length_app. cbn [length]. lia.
Qed.

Definition added_spec (set : TamgaSigningKeySet) (text : bytes)
    (r : option TamgaSigningKeySet * status (Z * Z * Z)) : Prop :=
  match r.2 with
  | inr _ => r.1 = Some set /\
      ~ (ample /\ set_ok set /\ exists doc rows, jtext doc text /\ member doc (bstr "data") = Some (JArray rows) /\
           zlen (ks_entries set) + zlen rows <= set_limit)
  | inl (added, skipped, mismatched) =>
      exists doc rows set', jtext doc text /\ member doc (bstr "data") = Some (JArray rows) /\
        r.1 = Some set' /\ set_wf set' /\ ks_entries set' = ks_entries set ++ new_entries rows /\
        added = zlen (new_entries rows) /\ skipped = zlen rows - added /\ mismatched = mismatches rows
  end.

Lemma failing_post (set : TamgaSigningKeySet) text code msg :
  ~ (ample /\ set_ok set /\ exists doc rows, jtext doc text /\ member doc (bstr "data") = Some (JArray rows) /\
       zlen (ks_entries set) + zlen rows <= set_limit) ->
  post (let! r := err code msg in ret (Some set, r)) (added_spec set text).
Proof. intros H. eapply post_bind; [apply err_post|]. intros r ->. by apply post_ret. Qed.

Lemma create_post :
  post tamga_key_set_create (fun r => r = inl (mk_set [] 0) \/ (exists code, r = inr code) /\ ~ ample).
Proof.
  unfold tamga_key_set_create. eapply (post_bind _ _ (fun ok => ok = true \/ ok = false /\ ~ ample)).
  { intros s. destruct (tamga_calloc 1 sizeof_set s).1 eqn:E; [by left|]. right. split; [done|]. intros (limit & Hm & Hl).
    assert ((tamga_calloc 1 sizeof_set s).1 = true); [|congruence]. apply (malloc_up_to (limit := limit)).
    change (24 <= limit). unfold json_memory in Hl. lia. }
  intros ok [->|[-> Hno]]; [apply post_ret; by left|]. apply post_err. right. eauto.
Qed.

Lemma new_entries_length rows : (length (new_entries rows) <= length rows)%nat.
Proof.
  unfold new_entries. rewrite length_map. induction rows as [|r rows IH]; [done|]. cbn [omap list_omap].
  destruct (key_row r); cbn [length]; lia.
Qed.

Lemma add_json_post set text :
  set_wf set -> bytes_ok text -> post (tamga_key_set_add_json (Some set) (Some text)) (added_spec set text).
Proof.
  intros Hwf Hok. unfold tamga_key_set_add_json.
  destruct ((zlen text =? 0) || (zlen text >? TAMGA_MAX_REASONABLE_LEN)) eqn:Hsz.
  { apply failing_post. intros (_ & _ & doc & rows & Hj & _). apply jtext_nonempty in Hj. lia. }
  eapply post_bind; [by apply parse_post|]. intros [doc|e] Hdoc.
  2:{ assert (~ (ample /\ set_ok set /\ exists doc rows, jtext doc text /\ member doc (bstr "data") = Some (JArray rows) /\
       zlen (ks_entries set) + zlen rows <= set_limit)).
      { intros (Ha & _ & doc & rows & Hj & _). apply json_of_iff in Hj; [|done]. destruct (Hdoc Ha) as [? _]. congruence. }
      destruct (tamga_json_error_is_out_of_memory (Some e)); by apply failing_post. }
  pose proof (json_of_small _ _ Hok Hdoc) as [Hsm _]. apply json_of_iff in Hdoc; [|done].
  fold (member doc (bstr "data")). destruct (member doc (bstr "data")) as [data|] eqn:Ed.
  2:{ apply failing_post. intros (_ & _ & doc' & rows & Hj & Hm & _). rewrite (jtext_unique _ _ _ Hj Hdoc) in Hm. congruence. }
  destruct data; try (apply failing_post; intros (_ & _ & doc' & rows & Hj & Hm & _);
    rewrite (jtext_unique _ _ _ Hj Hdoc) in Hm; congruence).
  pose proof (member_small _ _ _ _ Hsm Ed) as Harr. inversion_clear Harr as [| | | | |? Hcount Hrows|].
  assert (forall P : Prop, (ample -> set_ok set -> zlen (ks_entries set) + zlen items <= set_limit -> P) ->
    ~ P -> ~ (ample /\ set_ok set /\ exists doc rows, jtext doc text /\ member doc (bstr "data") = Some (JArray rows) /\
       zlen (ks_entries set) + zlen rows <= set_limit)) as Hfail.
  { intros P HP HnP (Ha & Hs & doc' & rows & Hj & Hm & Hl). rewrite (jtext_unique _ _ _ Hj Hdoc) in Hm.
    rewrite Hm in Ed. injection Ed as ->. by apply HnP, HP. }
  eapply post_bind; [apply create_post|]. intros r [->|[[code ->] Hno]].
  2:{ apply post_ret. split; [done|]. by apply (Hfail ample). }
  assert (set_wf (mk_set [] 0)) as Hw0 by (unfold set_wf, SIZE_MAX; cbn; lia).
  eapply post_bind; [by apply (stage_loop_post items (mk_set [] 0) 0 0)|]. intros [[[staged sk] mm]|code].
  2:{ intros [-> Hno]. apply post_ret. split; [done|]. refine (Hfail _ _ Hno). intros Ha [_ Hs] Hl.
      split_and!; [done|cbn; lia|]. split; [done|cbn; unfold set_limit; lia]. }
  cbn [ks_entries]. intros (Hst & -> & ->). cbn [app] in Hst. rewrite Hst. pose proof (new_entries_length items).
  eapply post_bind; [apply (reserve_post set (zlen (new_entries items))); [done|lia]|]. intros [set'|code] Hr.
  2:{ destruct Hr as [-> Hno]. apply post_ret. split; [done|]. refine (Hfail _ _ Hno). intros Ha [_ Hs] Hl. split_and!; [done|lia|done]. }
  destruct Hr as (He & Hcap & _). apply post_ret. unfold added_spec. cbn [fst snd].
  exists doc, items. eexists. split_and!; [done|done|reflexivity|..]; cbn [ks_entries ks_capacity].
  - unfold set_wf. cbn [ks_entries ks_capacity]. rewrite He, length_app. lia.
  - by rewrite He.
  - done.
  - lia.
  - lia.
Qed.

(** (C27) Adding a key document is atomic and exact. Whatever the allocator
    does: on any error the set is exactly what it was; on success the set has
    gained, after its old entries and in document order, one entry for every
    usable row of the data array (an object with a non-empty id, the algorithm
    ed25519 in any case and a base64 key of 32 bytes), under the served id; the
    counters are the numbers of rows added, skipped and added under an id other
    than the computed one; and the array is never fuller than its capacity.
    With memory, every such document of a bounded size is accepted. *)
Theorem key_set_add_json_exact set text s :
  set_wf set -> bytes_ok text ->
  added_spec set text (tamga_key_set_add_json (Some set) (Some text) s).1.
Proof. intros Hwf Hok. exact (add_json_post set text Hwf Hok s). Qed.
End Spec.

Definition demo_keys : bytes := bstr "{" ++ [34] ++ bstr "data" ++ [34] ++ bstr ":[null]}".

Lemma key_set_add_json_exact_witness :
  added_spec (malloc := full_memory) (mk_set [] 0) demo_keys (Some (mk_set [] 0), inl (0, 1, 0)).
Proof.
  pose proof (key_set_add_json_exact (malloc := full_memory) (mk_set [] 0) demo_keys (mk_st 0 None)) as H.
  assert ((tamga_key_set_add_json (malloc := full_memory) (Some (mk_set [] 0)) (Some demo_keys) (mk_st 0 None)).1 =
    (Some (mk_set [] 0), inl (0, 1, 0))) as E by (vm_compute; reflexivity).
  rewrite E in H. apply H.
  - vm_compute. split; congruence.
  - repeat (constructor; [split; vm_compute; congruence|]). constructor.
Defined.
