(* ===== verification/LicenseFile.v ===== *)
(** * Offline licence files: [src/src/checkout/license_file.c]

    [pem] is the span of [pem_len] bytes, [license_key] a C string, both [None]
    for a null pointer; [ed25519_pubkey] is 32 bytes. The plaintext buffer is
    its written part; the capacity it is freed with has no counterpart. *)

From Stdlib Require Import String.
From S2P Require Import Prelude World Buf BufBuild Base64 Json JsonParse JsonGrammar JsonSmall Sha2 Hkdf Gcm GcmSpec.
From S2P Require Import Status Pem Cert Suite KeySet.
From stdpp Require Import list.
#[local] Open Scope Z_scope.

Definition TAMGA_LICENSE_PEM_BEGIN : bytes := bstr "-----BEGIN LICENSE FILE-----".
Definition TAMGA_LICENSE_PEM_END : bytes := bstr "-----END LICENSE FILE-----".
Definition TAMGA_ALG_PLAIN : bytes := bstr "base64+ed25519+v2".
Definition TAMGA_ALG_ENCRYPTED : bytes := bstr "aes-256-gcm+ed25519+v2".

Section Ops.
Context {malloc : Malloc} {suite : Suite}.

(** The certificate and whether its payload is encrypted. *)
Definition tamga_license_open (pem : option bytes) : M (status (TamgaCert * bool)) :=
  let? body := tamga_pem_extract pem (Some TAMGA_LICENSE_PEM_BEGIN) (Some TAMGA_LICENSE_PEM_END) in
  let? cert := tamga_cert_parse (Some body) in
  if tamga_cert_alg_equals cert TAMGA_ALG_PLAIN then ret (inl (cert, false))
  else if tamga_cert_alg_equals cert TAMGA_ALG_ENCRYPTED then ret (inl (cert, true))
  else err TAMGA_ERR_UNSUPPORTED_SCHEME
         (bstr "unsupported licence-file algorithm; only offline format v2 is accepted, and there is no v1 fallback").

Definition tamga_license_decode_signature (cert : TamgaCert) : M (status bytes) :=
  let! signature := tamga_base64_decode_alloc_why (Some (cert_sig cert)) in
  match signature with
  | inl TAMGA_BASE64_FAILURE_OUT_OF_MEMORY => err TAMGA_ERR_OUT_OF_MEMORY (bstr "could not decode the signature")
  | inl _ => err TAMGA_ERR_INVALID_BASE64 (bstr "the signature field is not valid base64")
  | inr signature =>
      if negb (length signature =? TAMGA_ED25519_SIG_LEN)%nat
      then err TAMGA_ERR_SIGNATURE_INVALID (bstr "signature is not the expected length")
      else ret (inl signature)
  end.

Definition tamga_license_decode_payload (cert : TamgaCert) (encrypted : bool) (license_key : option bytes) : M (status bytes) :=
  let! enc := tamga_base64_decode_alloc_why (Some (cert_enc cert)) in
  match enc with
  | inl TAMGA_BASE64_FAILURE_OUT_OF_MEMORY => err TAMGA_ERR_OUT_OF_MEMORY (bstr "could not decode the payload")
  | inl _ => err TAMGA_ERR_INVALID_BASE64 (bstr "the enc field is not valid base64")
  | inr enc =>
      if negb encrypted then ret (inl enc)
      else
        match license_key with
        | None => err TAMGA_ERR_NULL_ARGUMENT (bstr "this licence file is encrypted and needs the licence key")
        | Some license_key =>
            if (length enc <? TAMGA_GCM_NONCE_LEN + TAMGA_GCM_TAG_LEN)%nat then
              err TAMGA_ERR_DECRYPTION_FAILED (bstr "encrypted payload is too short to contain a nonce and tag")
            else
              match tamga_derive_license_file_key (Some (c_view license_key)) with
              | None => err TAMGA_ERR_UNKNOWN (bstr "key derivation failed")
              | Some key =>
                  let! plaintext := tamga_malloc (zlen enc - Z.of_nat TAMGA_GCM_NONCE_LEN) in
                  if negb plaintext then err TAMGA_ERR_OUT_OF_MEMORY (bstr "could not allocate the payload")
                  else
                    match tamga_gcm_open key (take TAMGA_GCM_NONCE_LEN enc) (Null 0) (drop TAMGA_GCM_NONCE_LEN enc) with
                    | None =>
                        err TAMGA_ERR_DECRYPTION_FAILED
                          (bstr "could not decrypt the licence file; the licence key is wrong or the payload was altered")
                    | Some plaintext => ret (inl plaintext)
                    end
              end
        end
  end.

Definition tamga_license_parse_payload (plaintext : bytes) : M (status json) :=
  let! payload := tamga_json_parse (Some plaintext) in
  match payload with
  | inl payload => ret (inl payload)
  | inr parse_error =>
      if tamga_json_error_is_out_of_memory (Some parse_error)
      then err TAMGA_ERR_OUT_OF_MEMORY (bstr "could not parse the licence payload")
      else err TAMGA_ERR_INVALID_JSON (bstr "licence payload is malformed: " ++ json_error_text parse_error)
  end.

(** The resource and the claims. [payload] is [None] for a null pointer. *)
Definition tamga_license_finish (payload : option json) (now_unix : Z) : M (status (json * TamgaFileClaims)) :=
  let? claims := tamga_claims_read (tamga_json_object_get payload (Some (bstr "meta"))) in
  if tamga_claims_are_expired (Some claims) now_unix then
    err TAMGA_ERR_EXPIRED (bstr "the licence file is authentic but expired; check out a fresh one")
  else
    match tamga_json_object_get payload (Some (bstr "data")) with
    | Some (JObject ms) =>
        let! resource := tamga_json_clone (JObject ms) in
        match resource with
        | None => err TAMGA_ERR_OUT_OF_MEMORY (bstr "could not copy the licence resource")
        | Some resource => ret (inl (resource, claims))
        end
    | _ => err TAMGA_ERR_INVALID_JSON (bstr "the licence payload has no data object")
    end.

Definition tamga_license_file_verify_core (pem ed25519_pubkey : option bytes) (keys : option TamgaSigningKeySet)
    (license_key : option bytes) (now_unix : Z) : M (status (json * TamgaFileClaims)) :=
  match pem, ed25519_pubkey, keys with
  | None, _, _ | _, None, None => err TAMGA_ERR_NULL_ARGUMENT (bstr "a required argument was null")
  | Some _, _, _ =>
      let? (cert, encrypted) := tamga_license_open pem in
      let? signature := tamga_license_decode_signature cert in
      let verified :=
        match keys, ed25519_pubkey with
        | Some _, _ => match tamga_key_set_find_verifier keys (Some (cert_enc cert)) (Some signature) with
                       | Some _ => true
                       | None => false
                       end
        | None, Some pubkey => tamga_ed25519_verify pubkey (cert_enc cert) signature
        | None, None => false
        end in
      if negb verified && match keys with None => true | Some _ => false end then
        err TAMGA_ERR_SIGNATURE_INVALID (bstr "licence-file signature did not verify")
      else
        let! probe :=
          let? plaintext := tamga_license_decode_payload cert encrypted license_key in
          tamga_license_parse_payload plaintext in
        let! status :=
          if negb verified then tamga_key_set_label_failure keys probe
          else ret (match probe with inl _ => TAMGA_OK | inr code => code end) in
        if negb (bool_decide (status = TAMGA_OK)) then ret (inr status)
        else tamga_license_finish (match probe with inl payload => Some payload | inr _ => None end) now_unix
  end.

Definition tamga_license_file_verify_at (pem ed25519_pubkey license_key : option bytes) (now_unix : Z)
  : M (status (json * TamgaFileClaims)) :=
  match ed25519_pubkey with
  | None => err TAMGA_ERR_NULL_ARGUMENT (bstr "a required argument was null")
  | Some _ => tamga_license_file_verify_core pem ed25519_pubkey None license_key now_unix
  end.

Definition tamga_license_file_verify_at_with_key_set (pem : option bytes) (keys : option TamgaSigningKeySet)
    (license_key : option bytes) (now_unix : Z) : M (status (json * TamgaFileClaims)) :=
  match keys with
  | None => err TAMGA_ERR_NULL_ARGUMENT (bstr "a key set is required")
  | Some _ => tamga_license_file_verify_core pem None keys license_key now_unix
  end.
End Ops.

(** ** Specifications of the steps *)

Definition open_spec (pem : bytes) : status (TamgaCert * bool) :=
  then_spec (pem_spec TAMGA_LICENSE_PEM_BEGIN TAMGA_LICENSE_PEM_END pem) (fun body =>
  then_spec (cert_spec body) (fun cert =>
  if decide (cert_alg cert = TAMGA_ALG_PLAIN) then inl (cert, false)
  else if decide (cert_alg cert = TAMGA_ALG_ENCRYPTED) then inl (cert, true)
  else inr TAMGA_ERR_UNSUPPORTED_SCHEME)).

Definition signature_spec (cert : TamgaCert) : status bytes :=
  match tamga_base64_decode (Some (cert_sig cert)) with
  | None => inr TAMGA_ERR_INVALID_BASE64
  | Some sig => if decide (length sig = 64%nat) then inl sig else inr TAMGA_ERR_SIGNATURE_INVALID
  end.

(** The key a licence key stands for. *)
Definition license_aes_key (license_key : bytes) : bytes :=
  default [] (tamga_derive_license_file_key (Some (c_view license_key))).

Definition plaintext_spec (cert : TamgaCert) (encrypted : bool) (license_key : option bytes) : status bytes :=
  match tamga_base64_decode (Some (cert_enc cert)) with
  | None => inr TAMGA_ERR_INVALID_BASE64
  | Some enc =>
      if encrypted then
        match license_key with
        | None => inr TAMGA_ERR_NULL_ARGUMENT
        | Some key =>
            if decide (length enc < 28)%nat then inr TAMGA_ERR_DECRYPTION_FAILED
            else match tamga_gcm_open (license_aes_key key) (take 12 enc) (At []) (drop 12 enc) with
                 | None => inr TAMGA_ERR_DECRYPTION_FAILED
                 | Some p => inl p
                 end
        end
      else inl enc
  end.

Definition payload_spec (plaintext : bytes) : status json :=
  match json_of plaintext with None => inr TAMGA_ERR_INVALID_JSON | Some j => inl j end.

Definition finish_spec (payload : json) (now : Z) : status (json * TamgaFileClaims) :=
  then_spec (claims_spec (member payload (bstr "meta"))) (fun claims =>
  if decide (expired claims now) then inr TAMGA_ERR_EXPIRED
  else match member payload (bstr "data") with
       | Some (JObject ms) => inl (JObject ms, claims)
       | _ => inr TAMGA_ERR_INVALID_JSON
       end).

Lemma pem_spec_small b e pem body : pem_spec b e pem = inl body -> zlen body <= TAMGA_MAX_REASONABLE_LEN.
Proof.
  unfold pem_spec. case_decide as Hsz; [|done]. unfold pem_inner. case_decide as E; [|done].
  set (inner := take _ _) in *. destruct (memchr 0 (squeeze inner)); [done|]. intros [= <-].
  pose proof (squeeze_length inner). destruct (trim_start_spec pem) as (w1 & _ & E1 & _).
  destruct (trim_end_spec (pem_trim_start pem)) as (w2 & _ & E2). apply (f_equal length) in E, E1, E2.
  rewrite !length_app in *. lia.
Qed.

Lemma alg_equals_spec cert a : tamga_cert_alg_equals cert a = bool_decide (cert_alg cert = a).
Proof.
  unfold tamga_cert_alg_equals. destruct (Nat.eqb_spec (length (cert_alg cert)) (length a)) as [E|E]; cbn [negb].
  - destruct (beq _ _) eqn:Eb; [apply beq_eq in Eb; by rewrite bool_decide_true|]. apply beq_neq in Eb. by rewrite bool_decide_false.
  - symmetry. apply bool_decide_eq_false. congruence.
Qed.

Lemma open_spec_small pem cert e :
  open_spec pem = inl (cert, e) ->
  zlen (cert_enc cert) <= TAMGA_MAX_REASONABLE_LEN /\ zlen (cert_sig cert) <= TAMGA_MAX_REASONABLE_LEN.
Proof.
  unfold open_spec, then_spec. destruct (pem_spec _ _ pem) as [body|]; [|done].
  destruct (cert_spec body) as [c|] eqn:Ec; [|done]. apply cert_spec_small in Ec.
  repeat case_decide; intros [= <- <-]; done.
Qed.

(** What a licence file decrypts to is bytes. *)
Lemma plaintext_bytes cert encrypted license_key p :
  plaintext_spec cert encrypted license_key = inl p -> bytes_ok p /\ zlen p <= zlen (cert_enc cert).
Proof.
  unfold plaintext_spec. destruct (tamga_base64_decode _) as [enc|] eqn:Ed; [|done].
  apply decode_bytes in Ed as [Ho Hl]. destruct encrypted; [|intros [= <-]; done].
  destruct license_key as [key|]; [|done]. case_decide as Hlen; [done|].
  destruct (tamga_gcm_open _ _ _ _) as [q|] eqn:Eg; [|done]. intros [= <-].
  apply gcm_open_bytes in Eg as [Hq Hlq].
  - split; [done|]. rewrite length_drop in Hlq. lia.
  - unfold license_aes_key. destruct (license_key_ok (c_view key)) as (k & -> & Hk & Hko). cbn [default from_option id].
    split; [done| |constructor]. split; [rewrite length_take; lia|by apply Forall_take].
  - by apply Forall_drop.
Qed.

Section Spec.
Context {malloc : Malloc} {suite : Suite}.

Lemma license_open_post pem : post (tamga_license_open (Some pem)) (refines (open_spec pem)).
Proof.
  unfold tamga_license_open, open_spec. apply refines_try.
  { eapply post_mono; [apply pem_extract_post; by apply memchr_None|]. intros r. apply refines_unless_oom. }
  intros body Hb. apply refines_try; [by apply cert_parse_post, (pem_spec_small _ _ _ _ Hb)|].
  intros cert _. rewrite !alg_equals_spec. repeat (case_bool_decide; case_decide; try done; try (apply post_ret; by apply refines_ret)).
Qed.

Lemma decode_signature_post cert :
  zlen (cert_sig cert) <= TAMGA_MAX_REASONABLE_LEN ->
  post (tamga_license_decode_signature cert) (refines (signature_spec cert)).
Proof.
  intros Hl. unfold tamga_license_decode_signature, signature_spec. eapply post_bind; [by apply decode_alloc_post|].
  intros [[]|d] Hd; try (apply refines_err; by rewrite Hd).
  - apply post_err. by apply refines_oom.
  - rewrite Hd. change TAMGA_ED25519_SIG_LEN with 64%nat. destruct (Nat.eqb_spec (length d) 64); cbn [negb]; by case_decide.
Qed.

Lemma decode_payload_post cert encrypted license_key :
  zlen (cert_enc cert) <= TAMGA_MAX_REASONABLE_LEN ->
  post (tamga_license_decode_payload cert encrypted license_key) (refines (plaintext_spec cert encrypted license_key)).
Proof.
  intros Hl. unfold tamga_license_decode_payload, plaintext_spec. eapply post_bind; [by apply decode_alloc_post|].
  intros [[]|d] Hd; try (apply refines_err; by rewrite Hd).
  { apply post_err. by apply refines_oom. }
  rewrite Hd. apply decode_bytes in Hd as [Hok Hdl]. destruct encrypted; cbn [negb]; [|apply post_ret; by apply refines_ret].
  destruct license_key as [key|]; [|by apply refines_err].
  change (TAMGA_GCM_NONCE_LEN + TAMGA_GCM_TAG_LEN)%nat with 28%nat.
  destruct (Nat.ltb_spec (length d) 28); case_decide; try lia; [by apply refines_err|].
  unfold license_aes_key. destruct (tamga_derive_license_file_key (Some (c_view key))) as [k|] eqn:Ek.
  2:{ destruct (license_key_ok (c_view key)) as (k' & E & _). congruence. }
  cbn [default from_option id]. eapply (post_bind _ _ (fun ok => ok = true \/ ok = false /\ ~ ample)).
  { intros s. destruct (tamga_malloc _ s).1 eqn:E; [by left|]. right. split; [done|]. intros Ha.
    rewrite (ample_malloc _ _ Ha) in E; [done|]. unfold json_memory, TAMGA_MAX_REASONABLE_LEN in *. lia. }
  intros ok [->|[-> Hno]]; cbn [negb]; [|apply post_err; by apply refines_oom].
  change (tamga_gcm_open k (take TAMGA_GCM_NONCE_LEN d) (Null 0) (drop TAMGA_GCM_NONCE_LEN d)) with
    (tamga_gcm_open k (take 12 d) (At []) (drop 12 d)).
  destruct (tamga_gcm_open k (take 12 d) (At []) (drop 12 d)); [apply post_ret; by apply refines_ret|by apply refines_err].
Qed.

Lemma parse_payload_post p : bytes_ok p -> post (tamga_license_parse_payload p) (refines (payload_spec p)).
Proof.
  intros Hok. unfold tamga_license_parse_payload, payload_spec. eapply post_bind; [by apply parse_post|]. intros [j|e] Hj.
  - rewrite Hj. apply post_ret. by apply refines_ret.
  - destruct (tamga_json_error_is_out_of_memory (Some e)) eqn:Eo; apply post_err.
    + apply refines_oom. intros Ha. by destruct (Hj Ha).
    + split; [|done]. intros Ha. destruct (Hj Ha) as [-> _]. done.
Qed.

Lemma finish_post payload now :
  json_wf payload -> json_small TAMGA_MAX_REASONABLE_LEN payload ->
  post (tamga_license_finish (Some payload) now) (refines (finish_spec payload now)).
Proof.
  intros Hwf Hsm. unfold tamga_license_finish, finish_spec. apply refines_try; [apply claims_read_post|].
  intros claims _. pose proof (claims_are_expired_spec claims now) as He.
  destruct (tamga_claims_are_expired (Some claims) now); [rewrite decide_True by tauto; by apply refines_err|].
  rewrite decide_False by (intros H; by apply He in H). fold (member payload (bstr "data")).
  destruct (member payload (bstr "data")) as [data|] eqn:Ed; [|by apply refines_err].
  pose proof (member_wf _ _ _ Hwf Ed) as Hw. pose proof (member_small _ _ _ _ Hsm Ed) as Hs.
  destruct data; try (by apply refines_err). eapply post_bind; [by apply clone_ample_post|].
  intros r [->|[-> Hno]]; [apply post_ret; by apply refines_ret|]. apply post_err. by apply refines_oom.
Qed.

(** ** The label of a signature no held key verified *)

Definition held (set : TamgaSigningKeySet) (id : bytes) : Prop :=
  exists e, e ∈ ks_entries set /\ c_view (e_key_id e) = id.

Lemma lookup_loop_spec entries id :
  match lookup_loop entries id with
  | Some _ => exists e, e ∈ entries /\ c_view (e_key_id e) = c_view id
  | None => ~ exists e, e ∈ entries /\ c_view (e_key_id e) = c_view id
  end.
Proof.
  induction entries as [|e entries IH]; cbn [lookup_loop]; [intros (e & He & _); by apply elem_of_nil in He|].
  destruct (beq _ _) eqn:E; [apply beq_eq in E; exists e; split; [apply list_elem_of_here|done]|]. apply beq_neq in E.
  destruct (lookup_loop entries id).
  - destruct IH as (e' & ? & ?). exists e'. split; [by apply list_elem_of_further|done].
  - intros (e' & [->|He]%elem_of_cons & E'); [done|]. apply IH. eauto.
Qed.

(** The [kid] a payload names, as the C string it is read as. *)
Definition payload_kid (payload : json) : option bytes :=
  c_view <$> tamga_claims_key_id (member payload (bstr "meta")).

(** [label set probe code]: the code the caller gets when no key of [set]
    verified the signature and reading the payload gave [probe]. *)
Inductive label (set : TamgaSigningKeySet) : status json -> TamgaErrorCode -> Prop :=
| label_memory : label set (inr TAMGA_ERR_OUT_OF_MEMORY) TAMGA_ERR_OUT_OF_MEMORY
| label_caller : label set (inr TAMGA_ERR_NULL_ARGUMENT) TAMGA_ERR_NULL_ARGUMENT
| label_unreadable code : code <> TAMGA_ERR_OUT_OF_MEMORY -> code <> TAMGA_ERR_NULL_ARGUMENT ->
    label set (inr code) TAMGA_ERR_SIGNATURE_INVALID
| label_no_kid payload : payload_kid payload = None \/ payload_kid payload = Some [] ->
    label set (inl payload) TAMGA_ERR_SIGNATURE_INVALID
| label_forged payload id : payload_kid payload = Some id -> id <> [] -> held set id ->
    label set (inl payload) TAMGA_ERR_SIGNATURE_INVALID
| label_not_published payload : payload_kid payload = Some TAMGA_UNPUBLISHED_KEY_ID ->
    ~ held set TAMGA_UNPUBLISHED_KEY_ID -> label set (inl payload) TAMGA_ERR_SIGNING_KEY_NOT_PUBLISHED
| label_stale payload id : payload_kid payload = Some id -> id <> [] -> ~ held set id ->
    id <> TAMGA_UNPUBLISHED_KEY_ID -> label set (inl payload) TAMGA_ERR_UNKNOWN_SIGNING_KEY.

Lemma label_not_ok set probe code : label set probe code -> code <> TAMGA_OK.
Proof. by destruct 1. Qed.

Lemma fail_post code msg (Q : TamgaErrorCode -> Prop) :
  Q code -> post (fail code msg) Q.
Proof. intros H s. by rewrite error_set_code. Qed.

Lemma label_failure_post set probe : post (tamga_key_set_label_failure (Some set) probe) (label set probe).
Proof.
  unfold tamga_key_set_label_failure. destruct probe as [payload|code].
  2:{ destruct code; try (apply fail_post; by constructor); apply post_ret; constructor. }
  fold (member payload (bstr "meta")). pose proof (eq_refl (payload_kid payload)) as Ek. unfold payload_kid in Ek at 2.
  unfold tamga_key_set_select. set (kid := tamga_claims_key_id (member payload (bstr "meta"))) in *.
  destruct kid as [k|]; cbn [option_map fmap option_fmap] in *.
  2:{ eapply post_bind; [apply err_post|]. intros r ->. apply fail_post. apply label_no_kid. by left. }
  destruct (c_view k) as [|x id] eqn:Ev.
  { eapply post_bind; [apply err_post|]. intros r ->. apply fail_post. apply label_no_kid. by right. }
  unfold tamga_key_set_lookup. pose proof (lookup_loop_spec (ks_entries set) k) as Hlk. rewrite Ev in Hlk.
  destruct (lookup_loop (ks_entries set) k) as [key|].
  { eapply (post_bind _ _ (fun r => r = inl key)); [by apply post_ret|]. intros r ->. apply fail_post.
    by apply (label_forged _ _ (x :: id)). }
  destruct (beq (x :: id) TAMGA_UNPUBLISHED_KEY_ID) eqn:Eu.
  - apply beq_eq in Eu. eapply post_bind; [apply err_post|]. intros r ->. apply post_ret.
    rewrite Eu in *. by apply label_not_published.
  - apply beq_neq in Eu. eapply post_bind; [apply err_post|]. intros r ->. apply post_ret.
    by apply (label_stale _ _ (x :: id)).
Qed.

Lemma verifier_loop_spec entries enc sig :
  match verifier_loop entries enc sig with
  | Some k => exists e, e ∈ entries /\ e_public_key e = k /\ tamga_ed25519_verify k enc sig = true
  | None => forall e, e ∈ entries -> tamga_ed25519_verify (e_public_key e) enc sig = false
  end.
Proof.
  induction entries as [|e entries IH]; cbn [verifier_loop]; [by intros e He%elem_of_nil|].
  destruct (tamga_ed25519_verify (e_public_key e) enc sig) eqn:E.
  - exists e. split; [apply list_elem_of_here|done].
  - destruct (verifier_loop entries enc sig).
    + destruct IH as (e' & ? & ?). exists e'. split; [by apply list_elem_of_further|done].
    + intros e' [->|He]%elem_of_cons; [done|auto].
Qed.

(** ** The verifier *)

(** Reading the payload of a certificate; checking the file up to the
    signature. *)
Definition probe_spec (cert : TamgaCert) (encrypted : bool) (license_key : option bytes) : status json :=
  then_spec (plaintext_spec cert encrypted license_key) payload_spec.

Definition signed_spec (pem : bytes) : status (TamgaCert * bool * bytes) :=
  then_spec (open_spec pem) (fun '(cert, encrypted) =>
  then_spec (signature_spec cert) (fun signature => inl (cert, encrypted, signature))).

Definition payload_finish_spec (cert : TamgaCert) (encrypted : bool) (license_key : option bytes) (now : Z)
  : status (json * TamgaFileClaims) :=
  then_spec (probe_spec cert encrypted license_key) (fun payload => finish_spec payload now).

Lemma probe_post cert encrypted license_key :
  zlen (cert_enc cert) <= TAMGA_MAX_REASONABLE_LEN ->
  post (let? plaintext := tamga_license_decode_payload cert encrypted license_key in
        tamga_license_parse_payload plaintext) (refines (probe_spec cert encrypted license_key)).
Proof.
  intros Hl. apply refines_try; [by apply decode_payload_post|]. intros p Hp. apply parse_payload_post.
  by apply plaintext_bytes in Hp as [? _].
Qed.

Lemma probe_small cert encrypted license_key payload :
  probe_spec cert encrypted license_key = inl payload ->
  json_wf payload /\ json_small TAMGA_MAX_REASONABLE_LEN payload.
Proof.
  unfold probe_spec, then_spec, payload_spec. destruct (plaintext_spec _ _ _) as [p|] eqn:Ep; [|done].
  apply plaintext_bytes in Ep as [Hok _]. destruct (json_of p) as [j|] eqn:Ej; [|done]. intros [= <-].
  by destruct (json_of_small _ _ Hok Ej).
Qed.

Lemma probe_proper cert encrypted license_key :
  proper (let? plaintext := tamga_license_decode_payload cert encrypted license_key in tamga_license_parse_payload plaintext).
Proof. unfold tamga_license_decode_payload, tamga_license_parse_payload. proper_tac. Qed.

Lemma license_open_proper pem : proper (tamga_license_open pem).
Proof. unfold tamga_license_open, tamga_pem_extract, tamga_cert_parse. proper_tac. Qed.

Lemma decode_signature_proper cert : proper (tamga_license_decode_signature cert).
Proof. unfold tamga_license_decode_signature. proper_tac. Qed.

(** After a signature that verified. *)
Lemma verified_post cert encrypted license_key now :
  zlen (cert_enc cert) <= TAMGA_MAX_REASONABLE_LEN ->
  post (let! probe := let? plaintext := tamga_license_decode_payload cert encrypted license_key in
                      tamga_license_parse_payload plaintext in
        let! status := ret (match probe with inl _ => TAMGA_OK | inr code => code end) in
        if negb (bool_decide (status = TAMGA_OK)) then ret (inr status)
        else tamga_license_finish (match probe with inl payload => Some payload | inr _ => None end) now)
    (refines (payload_finish_spec cert encrypted license_key now)).
Proof.
  intros Hl. eapply post_bind; [apply post_and; [by apply probe_post|apply probe_proper]|].
  intros [payload|code] [[Ha Hs] Hne].
  - specialize (Hs payload eq_refl). unfold payload_finish_spec. rewrite Hs. cbn [then_spec].
    eapply (post_bind _ _ (fun c => c = TAMGA_OK)); [by apply post_ret|]. intros ? ->.
    rewrite bool_decide_true by done. cbn [negb]. destruct (probe_small _ _ _ _ Hs). by apply finish_post.
  - eapply (post_bind _ _ (fun c => c = code)); [by apply post_ret|]. intros ? ->.
    rewrite bool_decide_false by congruence. cbn [negb]. apply post_ret. split; [|done]. intros H. unfold payload_finish_spec.
    by rewrite <- (Ha H).
Qed.

(** After a signature that no key of [set] verified. *)
Lemma unverified_post cert encrypted license_key now set :
  zlen (cert_enc cert) <= TAMGA_MAX_REASONABLE_LEN ->
  post (let! probe := let? plaintext := tamga_license_decode_payload cert encrypted license_key in
                      tamga_license_parse_payload plaintext in
        let! status := tamga_key_set_label_failure (Some set) probe in
        if negb (bool_decide (status = TAMGA_OK)) then ret (inr status)
        else tamga_license_finish (match probe with inl payload => Some payload | inr _ => None end) now)
    (fun r => exists code, r = inr code /\ code <> TAMGA_OK /\ (ample -> label set (probe_spec cert encrypted license_key) code)).
Proof.
  intros Hl. eapply post_bind; [by apply probe_post|]. intros probe [Ha _].
  eapply post_bind; [apply label_failure_post|]. intros code Hc. pose proof (label_not_ok _ _ _ Hc).
  rewrite bool_decide_false by done. cbn [negb]. apply post_ret. exists code. split; [done|]. split; [done|]. intros Hamp. by rewrite <- (Ha Hamp).
Qed.

Lemma signed_spec_inl pem cert encrypted signature :
  signed_spec pem = inl (cert, encrypted, signature) <->
  open_spec pem = inl (cert, encrypted) /\ signature_spec cert = inl signature.
Proof.
  unfold signed_spec, then_spec. destruct (open_spec pem) as [[c e]|]; [|split; [done|by intros []]].
  destruct (signature_spec c) as [sg|] eqn:E; split.
  - by intros [= <- <- <-].
  - intros [[= <- <-] E']. congruence.
  - done.
  - intros [[= <- <-] E']. congruence.
Qed.

(** One trusted key. *)
Definition single_spec (pubkey pem : bytes) (license_key : option bytes) (now : Z) : status (json * TamgaFileClaims) :=
  then_spec (open_spec pem) (fun '(cert, encrypted) =>
  then_spec (signature_spec cert) (fun signature =>
  if tamga_ed25519_verify pubkey (cert_enc cert) signature
  then payload_finish_spec cert encrypted license_key now else inr TAMGA_ERR_SIGNATURE_INVALID)).

Lemma verify_at_post pem pubkey license_key now :
  post (tamga_license_file_verify_at (Some pem) (Some pubkey) license_key now)
    (refines (single_spec pubkey pem license_key now)).
Proof.
  unfold tamga_license_file_verify_at, tamga_license_file_verify_core, single_spec.
  apply refines_try; [apply license_open_post|]. intros [cert e] Ho. destruct (open_spec_small _ _ _ Ho).
  apply refines_try; [by apply decode_signature_post|]. intros sig _.
  destruct (tamga_ed25519_verify pubkey (cert_enc cert) sig); cbn [negb andb]; [by apply verified_post|by apply refines_err].
Qed.

(** A set of trusted keys. *)
Definition trusted (set : TamgaSigningKeySet) (enc signature : bytes) : Prop :=
  exists e, e ∈ ks_entries set /\ tamga_ed25519_verify (e_public_key e) enc signature = true.

Definition set_spec (set : TamgaSigningKeySet) (pem : bytes) (license_key : option bytes) (now : Z)
    (r : status (json * TamgaFileClaims)) : Prop :=
  match signed_spec pem with
  | inr code => refines (inr code) r
  | inl (cert, encrypted, signature) =>
      (trusted set (cert_enc cert) signature -> refines (payload_finish_spec cert encrypted license_key now) r) /\
      (~ trusted set (cert_enc cert) signature ->
       exists code, r = inr code /\ code <> TAMGA_OK /\ (ample -> label set (probe_spec cert encrypted license_key) code))
  end.

Lemma refines_set_spec_inr set pem license_key now r code :
  (ample -> signed_spec pem = inr code) -> r = inr code -> code <> TAMGA_OK -> (forall x, signed_spec pem = inl x -> ~ ample) ->
  set_spec set pem license_key now r.
Proof.
  intros Ha -> Hne Hx. unfold set_spec. destruct (signed_spec pem) as [[[cert e] sig]|c] eqn:Es.
  - specialize (Hx _ eq_refl). split; intros _; [by apply refines_oom|]. exists code. split; [done|]. split; [done|]. tauto.
  - split; [|done]. intros H. specialize (Ha H). congruence.
Qed.

Lemma verify_with_set_post pem set license_key now :
  post (tamga_license_file_verify_at_with_key_set (Some pem) (Some set) license_key now)
    (set_spec set pem license_key now).
Proof.
  unfold tamga_license_file_verify_at_with_key_set, tamga_license_file_verify_core.
  eapply post_try; [apply post_and; [apply license_open_post|apply license_open_proper]| |].
  2:{ intros code [[Ha _] Hne]. eapply refines_set_spec_inr; [|done|congruence|].
      - intros H. unfold signed_spec. by rewrite <- (Ha H).
      - intros [[c e] g] Hx H. apply signed_spec_inl in Hx as [Hx _]. specialize (Ha H). congruence. }
  intros [cert e] [[_ Ho] _]. specialize (Ho _ eq_refl). destruct (open_spec_small _ _ _ Ho).
  eapply post_try; [apply post_and; [by apply decode_signature_post|apply decode_signature_proper]| |].
  2:{ intros code [[Ha _] Hne]. eapply refines_set_spec_inr; [|done|congruence|].
      - intros H1. unfold signed_spec. rewrite Ho. cbn [then_spec]. by rewrite <- (Ha H1).
      - intros [[c e'] g] Hx H1. apply signed_spec_inl in Hx as [Hx1 Hx2]. rewrite Ho in Hx1. injection Hx1 as <- <-.
        specialize (Ha H1). congruence. }
  intros sig [[_ Hs] _]. specialize (Hs _ eq_refl). assert (signed_spec pem = inl (cert, e, sig)) as Hsig by (by apply signed_spec_inl).
  assert (length sig = 64%nat) as Hlen.
  { unfold signature_spec in Hs. destruct (tamga_base64_decode _); [|done]. case_decide; [|done]. by injection Hs as <-. }
  unfold tamga_key_set_find_verifier. change TAMGA_ED25519_SIG_LEN with 64%nat. rewrite Hlen. cbn [Nat.eqb negb].
  pose proof (verifier_loop_spec (ks_entries set) (cert_enc cert) sig) as Hv.
  destruct (verifier_loop (ks_entries set) (cert_enc cert) sig) as [k|]; cbn [negb andb].
  - eapply post_mono; [by apply verified_post|]. intros r Hr. unfold set_spec. rewrite Hsig. split; [done|].
    intros Hno. exfalso. apply Hno. destruct Hv as (en & Hin & Hk & Hver). exists en. by rewrite Hk.
  - eapply post_mono; [by apply (unverified_post _ _ _ _ set)|]. intros r Hr. unfold set_spec. rewrite Hsig. split; [|done].
    intros (en & Hin & Hver). by rewrite (Hv en Hin) in Hver.
Qed.
End Spec.


(** ** What an accepted licence file is *)

(** The certificate of a licence file: the enveloped base64 of a JSON object
    with three strings, of which [alg] is one of the two supported names. *)
Definition license_certificate (pem : bytes) (cert : TamgaCert) (encrypted : bool) : Prop :=
  0 < zlen pem <= TAMGA_MAX_REASONABLE_LEN /\
  exists inner d root,
    enveloped TAMGA_LICENSE_PEM_BEGIN TAMGA_LICENSE_PEM_END pem inner /\
    tamga_base64_decode (Some (squeeze inner)) = Some d /\ jtext root d /\
    string_member root (bstr "enc") = Some (cert_enc cert) /\
    string_member root (bstr "sig") = Some (cert_sig cert) /\
    string_member root (bstr "alg") = Some (cert_alg cert) /\
    cert_alg cert = (if encrypted then TAMGA_ALG_ENCRYPTED else TAMGA_ALG_PLAIN).

(** The payload bytes: the decoded [enc], or its decryption. *)
Definition license_plaintext (cert : TamgaCert) (encrypted : bool) (license_key : option bytes) (p : bytes) : Prop :=
  exists e, tamga_base64_decode (Some (cert_enc cert)) = Some e /\
    if encrypted then
      exists key nonce c, license_key = Some key /\ e = nonce ++ c /\ length nonce = 12%nat /\ (16 <= length c)%nat /\
        tamga_gcm_open (license_aes_key key) nonce (At []) c = Some p
    else p = e.

(** The whole file, for a set of keys the caller trusts: the signature over the
    text of [enc] verifies under one of them, and the payload is a JSON document
    whose claims are not expired at [now] and whose [data] is an object. *)
Definition license_accepts `{Suite} (keys : list bytes) (pem : bytes) (license_key : option bytes) (now : Z)
    (resource : json) (claims : TamgaFileClaims) : Prop :=
  exists cert encrypted signature p payload,
    license_certificate pem cert encrypted /\
    tamga_base64_decode (Some (cert_sig cert)) = Some signature /\ length signature = 64%nat /\
    (exists k, k ∈ keys /\ tamga_ed25519_verify k (cert_enc cert) signature = true) /\
    license_plaintext cert encrypted license_key p /\ jtext payload p /\
    claims_spec (member payload (bstr "meta")) = inl claims /\ ~ expired claims now /\
    member payload (bstr "data") = Some resource /\ exists ms, resource = JObject ms.

Lemma license_markers : marker TAMGA_LICENSE_PEM_BEGIN /\ marker TAMGA_LICENSE_PEM_END.
Proof.
  split; [apply (demo_marker _ (bstr "----BEGIN LICENSE FILE----") 45)|apply (demo_marker _ (bstr "----END LICENSE FILE----") 45)];
    try done; by apply memchr_None.
Qed.

Lemma open_spec_iff pem cert encrypted :
  open_spec pem = inl (cert, encrypted) <-> license_certificate pem cert encrypted.
Proof.
  destruct license_markers as [Hb He]. unfold open_spec, then_spec, license_certificate. split.
  - destruct (pem_spec _ _ pem) as [body|] eqn:Ep; [|done]. apply pem_spec_iff in Ep as (Hsz & _ & inner & Hin & ->); [|done|done].
    unfold cert_spec. destruct (tamga_base64_decode (Some (squeeze inner))) as [d|] eqn:Ed; [|done].
    destruct (decode_bytes _ _ Ed) as [Hok _]. destruct (json_of d) as [root|] eqn:Ej; [|done].
    apply json_of_iff in Ej; [|done].
    destruct (string_member root (bstr "enc")) eqn:E1; [|done]. destruct (string_member root (bstr "sig")) eqn:E2; [|done].
    destruct (string_member root (bstr "alg")) eqn:E3; [|done]. cbn [cert_alg].
    intros Hx. split; [done|]. exists inner, d, root. repeat case_decide; try done; injection Hx as <- <-; cbn; by subst.
  - intros (Hsz & inner & d & root & Hin & Hd & Hj & H1 & H2 & H3 & Ha).
    assert (pem_spec TAMGA_LICENSE_PEM_BEGIN TAMGA_LICENSE_PEM_END pem = inl (squeeze inner)) as ->.
    { apply pem_spec_iff; [done|done|]. split; [done|]. split; [by eapply decode_no_nul|]. eauto. }
    unfold cert_spec. rewrite Hd. destruct (decode_bytes _ _ Hd) as [Hok _].
    rewrite (proj2 (json_of_iff d root Hok) Hj), H1, H2, H3. cbn [cert_alg]. rewrite Ha.
    destruct cert as [enc sig alg]; cbn in *. destruct encrypted; subst alg; reflexivity.
Qed.

Lemma plaintext_spec_iff cert encrypted license_key p :
  plaintext_spec cert encrypted license_key = inl p <-> license_plaintext cert encrypted license_key p.
Proof.
  unfold plaintext_spec, license_plaintext. destruct (tamga_base64_decode (Some (cert_enc cert))) as [e|];
    [|split; [done|by intros (e & [=] & _)]].
  destruct encrypted.
  2:{ split; [intros [= <-]; by exists e|]. by intros (e' & [= <-] & ->). }
  split.
  - destruct license_key as [key|]; [|done]. case_decide as Hl; [done|].
    destruct (tamga_gcm_open _ _ _ _) as [q|] eqn:Eg; [|done]. intros [= <-]. exists e. split; [done|].
    exists key, (take 12 e), (drop 12 e). split_and!; [done|by rewrite take_drop|rewrite length_take; lia|rewrite length_drop; lia|done].
  - intros (e' & [= <-] & key & nonce & c & -> & -> & Hn & Hc & Hg). rewrite decide_False by (rewrite length_app; lia).
    rewrite take_app_length', drop_app_length' by done. by rewrite Hg.
Qed.

Lemma finish_spec_iff payload now resource claims :
  finish_spec payload now = inl (resource, claims) <->
  claims_spec (member payload (bstr "meta")) = inl claims /\ ~ expired claims now /\
  member payload (bstr "data") = Some resource /\ exists ms, resource = JObject ms.
Proof.
  unfold finish_spec, then_spec. split.
  - destruct (claims_spec _) as [cl|]; [|done]. case_decide; [done|]. destruct (member payload (bstr "data")) as [[]|]; try done.
    intros [= <- <-]. eauto.
  - intros (-> & Hne & -> & ms & ->). by rewrite decide_False.
Qed.

Lemma accepts_iff `{Suite} keys pem license_key now resource claims :
  license_accepts keys pem license_key now resource claims <->
  exists cert encrypted signature, open_spec pem = inl (cert, encrypted) /\ signature_spec cert = inl signature /\
    (exists k, k ∈ keys /\ tamga_ed25519_verify k (cert_enc cert) signature = true) /\
    payload_finish_spec cert encrypted license_key now = inl (resource, claims).
Proof.
  unfold license_accepts, payload_finish_spec, probe_spec, signature_spec, payload_spec. split.
  - intros (cert & e & sig & p & payload & Hc & Hs & Hl & Hk & Hp & Hj & Hf).
    exists cert, e, sig. split; [by apply open_spec_iff|]. rewrite Hs, decide_True by done. split; [done|]. split; [done|].
    apply plaintext_spec_iff in Hp. rewrite Hp. cbn [then_spec]. apply plaintext_bytes in Hp as [Hok _].
    rewrite (proj2 (json_of_iff p payload Hok) Hj). cbn [then_spec]. by apply finish_spec_iff.
  - intros (cert & e & sig & Ho & Hs & Hk & Hf). destruct (tamga_base64_decode (Some (cert_sig cert))) as [sg|] eqn:Esg; [|done].
    case_decide; [|done]. injection Hs as ->. destruct (plaintext_spec cert e license_key) as [p|] eqn:Ep; [|done].
    cbn [then_spec] in Hf. destruct (json_of p) as [payload|] eqn:Ej; [|done]. cbn [then_spec] in Hf.
    destruct (plaintext_bytes _ _ _ _ Ep) as [Hok _]. apply json_of_iff in Ej; [|done].
    exists cert, e, sig, p, payload. split; [by apply open_spec_iff|]. split; [done|]. split; [done|]. split; [done|].
    split; [by apply plaintext_spec_iff|]. split; [done|]. by apply finish_spec_iff.
Qed.

Section Theorems.
Context {malloc : Malloc} {suite : Suite}.

Lemma license_verify_accepts pem pubkey license_key now s resource claims :
  let r := (tamga_license_file_verify_at (Some pem) (Some pubkey) license_key now s).1 in
  (r = inl (resource, claims) -> license_accepts [pubkey] pem license_key now resource claims) /\
  (ample -> license_accepts [pubkey] pem license_key now resource claims -> r = inl (resource, claims)).
Proof.
  intros r. destruct (verify_at_post pem pubkey license_key now s) as [Ha Hs]. fold r in Ha, Hs. rewrite accepts_iff. split.
  - intros Hr. specialize (Hs _ Hr). unfold single_spec, then_spec in Hs. destruct (open_spec pem) as [[cert e]|]; [|done].
    destruct (signature_spec cert) as [sig|] eqn:Es; [|done]. destruct (tamga_ed25519_verify _ _ _) eqn:Ev; [|done].
    exists cert, e, sig. split_and!; [done|done| |done]. exists pubkey. split; [apply list_elem_of_here|done].
  - intros Hamp (cert & e & sig & Ho & Hsg & (k & Hk & Hv) & Hf). apply list_elem_of_singleton in Hk as ->.
    rewrite (Ha Hamp). unfold single_spec. rewrite Ho. cbn [then_spec]. rewrite Hsg. cbn [then_spec]. by rewrite Hv.
Qed.

(** (C5) A licence file verified with one key. Whatever the allocator does, a
    result is only returned for a file that is authentic and current: enveloped,
    of format v2, with an Ed25519 signature of the trusted key over the text of
    enc, a payload that decodes (and decrypts) to a JSON document, claims that
    are not expired by more than the tolerance, and the data object of that
    payload as the resource. With memory, every such file is accepted. *)
Theorem license_verify_exact pem pubkey license_key now s resource claims :
  let r := (tamga_license_file_verify_at (Some pem) (Some pubkey) license_key now s).1 in
  (r = inl (resource, claims) -> license_accepts [pubkey] pem license_key now resource claims) /\
  (ample -> license_accepts [pubkey] pem license_key now resource claims -> r = inl (resource, claims)).
Proof. exact (license_verify_accepts pem pubkey license_key now s resource claims). Qed.

Lemma license_set_accepts pem set license_key now s resource claims :
  let r := (tamga_license_file_verify_at_with_key_set (Some pem) (Some set) license_key now s).1 in
  let keys := map e_public_key (ks_entries set) in
  (r = inl (resource, claims) -> license_accepts keys pem license_key now resource claims) /\
  (ample -> license_accepts keys pem license_key now resource claims -> r = inl (resource, claims)).
Proof.
  intros r keys. pose proof (verify_with_set_post pem set license_key now s) as Hp. fold r in Hp. unfold set_spec in Hp.
  assert (forall enc sig, trusted set enc sig <-> exists k, k ∈ keys /\ tamga_ed25519_verify k enc sig = true) as Ht.
  { intros enc sig. split.
    - intros (e & Hin & Hv). exists (e_public_key e). split; [|done]. apply list_elem_of_fmap. eauto.
    - intros (k & (e & -> & Hin)%list_elem_of_fmap & Hv). by exists e. }
  rewrite accepts_iff. split.
  - intros Hr. destruct (signed_spec pem) as [[[cert e] sig]|code] eqn:Es.
    2:{ destruct Hp as [_ Hp]. specialize (Hp _ Hr). done. }
    apply signed_spec_inl in Es as [Ho Hsg]. destruct Hp as [Hp1 Hp2]. exists cert, e, sig. split; [done|]. split; [done|].
    rewrite <- Ht.
    destruct (existsb (fun en => tamga_ed25519_verify (e_public_key en) (cert_enc cert) sig) (ks_entries set)) eqn:Eb.
    + apply existsb_exists in Eb as (en & Hin%list_elem_of_In & Hv). assert (trusted set (cert_enc cert) sig) as Htr by (by exists en).
      split; [done|]. destruct (Hp1 Htr) as [_ Hinl]. by apply Hinl.
    + exfalso. destruct Hp2 as (code & Hc & _); [|congruence]. intros (en & Hin & Hv).
      assert (existsb (fun en => tamga_ed25519_verify (e_public_key en) (cert_enc cert) sig) (ks_entries set) = true); [|congruence].
      apply existsb_exists. exists en. split; [by apply list_elem_of_In|done].
  - intros Hamp (cert & e & sig & Ho & Hsg & Hk & Hf). rewrite (proj2 (signed_spec_inl pem cert e sig)) in Hp by done.
    destruct Hp as [Hp1 _]. rewrite <- Ht in Hk. destruct (Hp1 Hk) as [Ha _]. by rewrite (Ha Hamp).
Qed.

(** (C7) A licence file verified with a key set is accepted exactly when one
    of the held keys signed it, with the same result that key alone gives: which
    keys are held decides, and their order and ids do not matter. *)
Theorem license_verify_with_key_set_exact pem set license_key now s resource claims :
  let r := (tamga_license_file_verify_at_with_key_set (Some pem) (Some set) license_key now s).1 in
  let keys := map e_public_key (ks_entries set) in
  (r = inl (resource, claims) -> license_accepts keys pem license_key now resource claims) /\
  (ample -> license_accepts keys pem license_key now resource claims -> r = inl (resource, claims)).
Proof. exact (license_set_accepts pem set license_key now s resource claims). Qed.

(** What a key-set caller learns from a signature no held key verified:
    memory permitting, the code is TAMGA_ERR_SIGNATURE_INVALID when the payload
    cannot be read, names no kid, or names one the set holds;
    TAMGA_ERR_UNKNOWN_SIGNING_KEY when it names one the set does not hold;
    TAMGA_ERR_SIGNING_KEY_NOT_PUBLISHED for the id of an account without a
    published key; and a missing licence key is the caller's error. In every
    case nothing of the payload but this label reaches the caller. *)
Theorem license_unverified_label pem set license_key now s cert encrypted signature :
  license_certificate pem cert encrypted ->
  tamga_base64_decode (Some (cert_sig cert)) = Some signature -> length signature = 64%nat ->
  (forall k, k ∈ map e_public_key (ks_entries set) -> tamga_ed25519_verify k (cert_enc cert) signature = false) ->
  exists code, (tamga_license_file_verify_at_with_key_set (Some pem) (Some set) license_key now s).1 = inr code /\
    code <> TAMGA_OK /\ (ample -> label set (probe_spec cert encrypted license_key) code).
Proof.
  intros Hc Hs Hl Hno. pose proof (verify_with_set_post pem set license_key now s) as Hp. unfold set_spec in Hp.
  assert (signed_spec pem = inl (cert, encrypted, signature)) as Hsig.
  { apply signed_spec_inl. split; [by apply open_spec_iff|]. unfold signature_spec. by rewrite Hs, decide_True. }
  rewrite Hsig in Hp. destruct Hp as [_ Hp]. apply Hp.
  intros (e & Hin & Hv). rewrite Hno in Hv; [done|]. apply list_elem_of_fmap. eauto.
Qed.
End Theorems.

(** ** A concrete file *)

Definition quoted (t : bytes) : bytes := [34] ++ t ++ [34].
Definition field (k : bytes) (v : bytes) : bytes := quoted k ++ [58] ++ v.

(** A payload with a subject, an expiry and a [kid]. *)
Definition demo_payload : bytes :=
  bstr "{" ++ field (bstr "data") (bstr "{" ++ field (bstr "id") (quoted (bstr "L1")) ++ bstr "}") ++ bstr "," ++
  field (bstr "meta") (bstr "{" ++ field (bstr "iat") (bstr "5") ++ bstr "," ++ field (bstr "exp") (bstr "1000") ++ bstr "," ++
    field (bstr "kid") (quoted (bstr "k1")) ++ bstr "}") ++ bstr "}".

Definition demo_enc : bytes := tamga_base64_encode (Some demo_payload).
Definition demo_signature (key : bytes) : bytes := tamga_sha512 (Some (key ++ demo_enc)).
Definition demo_cert (key : bytes) : TamgaCert :=
  mk_cert demo_enc (tamga_base64_encode (Some (demo_signature key))) TAMGA_ALG_PLAIN.

Definition demo_license (key : bytes) : bytes :=
  let c := demo_cert key in
  let json := bstr "{" ++ field (bstr "enc") (quoted (cert_enc c)) ++ bstr "," ++ field (bstr "sig") (quoted (cert_sig c)) ++
              bstr "," ++ field (bstr "alg") (quoted (cert_alg c)) ++ bstr "}" in
  TAMGA_LICENSE_PEM_BEGIN ++ [10] ++ tamga_base64_encode (Some json) ++ [10] ++ TAMGA_LICENSE_PEM_END ++ [10].

Definition demo_key : bytes := replicate 32 7.
Definition demo_resource : json := JObject [(bstr "id", JString (bstr "L1"))].
Definition demo_claims : TamgaFileClaims := mk_claims 5 true 1000.

Lemma license_verify_exact_witness :
  license_accepts (H := hash_suite) [demo_key] (demo_license demo_key) None 1060 demo_resource demo_claims.
Proof.
  apply (license_verify_exact (malloc := full_memory) (suite := hash_suite) (demo_license demo_key) demo_key None 1060 (mk_st 0 None)).
  vm_compute. reflexivity.
Defined.

Lemma license_verify_with_key_set_exact_witness :
  license_accepts (H := hash_suite) [[1]; demo_key] (demo_license demo_key) None 1060 demo_resource demo_claims.
Proof.
  apply (license_verify_with_key_set_exact (malloc := full_memory) (suite := hash_suite) (demo_license demo_key)
    (mk_set [mk_entry (bstr "a") [1]; mk_entry (bstr "b") demo_key] 4) None 1060 (mk_st 0 None)).
  vm_compute. reflexivity.
Defined.

Lemma license_unverified_label_witness :
  exists code,
    (tamga_license_file_verify_at_with_key_set (malloc := full_memory) (suite := hash_suite) (Some (demo_license demo_key))
       (Some (mk_set [mk_entry (bstr "k1") [1]] 4)) None 1060 (mk_st 0 None)).1 = inr code /\ code <> TAMGA_OK /\
    (ample (malloc := full_memory) -> label (mk_set [mk_entry (bstr "k1") [1]] 4) (probe_spec (demo_cert demo_key) false None) code).
Proof.
  apply (license_unverified_label (malloc := full_memory) (suite := hash_suite) _ _ _ _ _ _ _ (demo_signature demo_key)).
  - apply open_spec_iff. vm_compute. reflexivity.
  - vm_compute. reflexivity.
  - vm_compute. reflexivity.
  - intros k Hk. apply list_elem_of_singleton in Hk as ->. vm_compute. reflexivity.
Defined.
