(* ===== verification/MachineFile.v ===== *)
(** * Offline machine files: [src/src/checkout/machine_file.c]

    Like [LicenseFile], with the signing scheme chosen by the caller and an
    encrypted payload of two base64 halves. A public key is the span of
    [pubkey_len] bytes. *)

From Stdlib Require Import String.
From S2P Require Import Prelude World Buf BufBuild Base64 Json JsonParse JsonGrammar JsonSmall Sha2 Hkdf Gcm GcmSpec.
From S2P Require Import Status Pem Cert Suite KeySet LicenseFile.
From stdpp Require Import list.
#[local] Open Scope Z_scope.

Definition TAMGA_SCHEME_ED25519_SIGN : Z := 1.
Definition TAMGA_SCHEME_RSA_2048_PKCS1_SIGN : Z := 2.
Definition TAMGA_SCHEME_RSA_2048_PKCS1_PSS_SIGN : Z := 3.
Definition TAMGA_SCHEME_ECDSA_P256_SIGN : Z := 4.

Definition TAMGA_MACHINE_PEM_BEGIN : bytes := bstr "-----BEGIN MACHINE FILE-----".
Definition TAMGA_MACHINE_PEM_END : bytes := bstr "-----END MACHINE FILE-----".
Definition TAMGA_MACHINE_ALG_VERSION : bytes := bstr "v2".
Definition TAMGA_MACHINE_FILE_MAX_TTL_SECONDS : Z := 31536000.

Definition tamga_machine_file_ttl_is_valid (ttl_seconds : Z) : bool :=
  (ttl_seconds >? 0) && (ttl_seconds <=? TAMGA_MACHINE_FILE_MAX_TTL_SECONDS).

Definition tamga_machine_alg_suffix (scheme : Z) : option bytes :=
  if scheme =? TAMGA_SCHEME_ED25519_SIGN then Some (bstr "ed25519")
  else if scheme =? TAMGA_SCHEME_RSA_2048_PKCS1_SIGN then Some (bstr "rsa-sha256")
  else if scheme =? TAMGA_SCHEME_RSA_2048_PKCS1_PSS_SIGN then Some (bstr "rsa-pss-sha256")
  else if scheme =? TAMGA_SCHEME_ECDSA_P256_SIGN then Some (bstr "ecdsa-p256")
  else None.

(** The loop from the end: the index of the last ['+'] before [i]. *)
Fixpoint last_plus (alg : bytes) (i : nat) : option nat :=
  match i with
  | O => None
  | S k => if nth k alg 0 =? 43 then Some k else last_plus alg k
  end.

(** The prefix and the suffix. *)
Definition tamga_machine_alg_split (alg : bytes) : option (bytes * bytes) :=
  match memchr 43 alg with
  | None => None
  | Some first =>
      match last_plus alg (length alg) with
      | None => None
      | Some last =>
          if (last =? first)%nat then None
          else
            let version_len := (length alg - last - 1)%nat in
            if negb (version_len =? length TAMGA_MACHINE_ALG_VERSION)%nat ||
               negb (beq (take version_len (drop (last + 1) alg)) TAMGA_MACHINE_ALG_VERSION)
            then None
            else Some (take first alg, take (last - first - 1) (drop (first + 1) alg))
      end
  end.

Section Ops.
Context {malloc : Malloc} {suite : Suite}.

Definition tamga_machine_check_signature (scheme : Z) (pubkey message signature : bytes) : bool :=
  if scheme =? TAMGA_SCHEME_ED25519_SIGN then
    if negb (length pubkey =? TAMGA_ED25519_PUBKEY_LEN)%nat || negb (length signature =? TAMGA_ED25519_SIG_LEN)%nat
    then false else tamga_ed25519_verify pubkey message signature
  else if scheme =? TAMGA_SCHEME_RSA_2048_PKCS1_SIGN then tamga_rsa_verify_pkcs1_sha256 pubkey message signature
  else if scheme =? TAMGA_SCHEME_RSA_2048_PKCS1_PSS_SIGN then tamga_rsa_verify_pss_sha256 pubkey message signature
  else if scheme =? TAMGA_SCHEME_ECDSA_P256_SIGN then tamga_ecdsa_p256_verify pubkey message signature
  else false.

Definition tamga_machine_open_encrypted (enc : bytes) (license_key fingerprint : option bytes) : M (status bytes) :=
  match license_key, fingerprint with
  | Some license_key, Some fingerprint =>
      match memchr 46 enc with
      | None =>
          err TAMGA_ERR_DECRYPTION_FAILED
            (bstr "an encrypted machine file's payload must be " ++ [34] ++ bstr "<nonce>.<ciphertext>" ++ [34] ++
             bstr "; this one has no separator")
      | Some dot =>
          let nonce_b64 := take dot enc in
          let cipher_b64 := drop (dot + 1) enc in
          if (length nonce_b64 =? 0)%nat || (length cipher_b64 =? 0)%nat then
            err TAMGA_ERR_DECRYPTION_FAILED (bstr "an encrypted machine file's payload has an empty half")
          else if memchr 46 cipher_b64 is Some _ then
            err TAMGA_ERR_DECRYPTION_FAILED (bstr "an encrypted machine file's payload has more than one separator")
          else
            let! nonce := tamga_base64_decode_alloc_why (Some nonce_b64) in
            match nonce with
            | inl TAMGA_BASE64_FAILURE_OUT_OF_MEMORY => err TAMGA_ERR_OUT_OF_MEMORY (bstr "could not decode the nonce")
            | inl _ => err TAMGA_ERR_INVALID_BASE64 (bstr "the nonce is not valid base64")
            | inr nonce =>
                if negb (length nonce =? TAMGA_GCM_NONCE_LEN)%nat then
                  err TAMGA_ERR_DECRYPTION_FAILED (bstr "the nonce is not 12 bytes")
                else
                  let! cipher := tamga_base64_decode_alloc_why (Some cipher_b64) in
                  match cipher with
                  | inl TAMGA_BASE64_FAILURE_OUT_OF_MEMORY => err TAMGA_ERR_OUT_OF_MEMORY (bstr "could not decode the ciphertext")
                  | inl _ => err TAMGA_ERR_INVALID_BASE64 (bstr "the ciphertext is not valid base64")
                  | inr cipher =>
                      if (length cipher <=? TAMGA_GCM_TAG_LEN)%nat then
                        err TAMGA_ERR_DECRYPTION_FAILED (bstr "the ciphertext is too short to contain a tag and a payload")
                      else
                        match tamga_derive_machine_file_key (Some (c_view license_key)) (Some (c_view fingerprint)) with
                        | None => err TAMGA_ERR_UNKNOWN (bstr "key derivation failed")
                        | Some key =>
                            let! plaintext := tamga_malloc (zlen cipher - Z.of_nat TAMGA_GCM_TAG_LEN) in
                            if negb plaintext then err TAMGA_ERR_OUT_OF_MEMORY (bstr "could not allocate the payload")
                            else
                              match tamga_gcm_open key nonce (Null 0) cipher with
                              | None =>
                                  err TAMGA_ERR_DECRYPTION_FAILED
                                    (bstr "could not decrypt the machine file; the licence key or fingerprint is wrong, or the payload was altered")
                              | Some plaintext => ret (inl plaintext)
                              end
                        end
                  end
            end
      end
  | _, _ =>
      err TAMGA_ERR_NULL_ARGUMENT
        (bstr "this machine file is encrypted and needs both the licence key and the machine fingerprint")
  end.

Definition tamga_machine_open (pem : option bytes) (scheme : Z) : M (status (TamgaCert * bool)) :=
  match tamga_machine_alg_suffix scheme with
  | None => err TAMGA_ERR_UNSUPPORTED_SCHEME (bstr "this signing scheme is not valid for a machine file")
  | Some expected_suffix =>
      let? body := tamga_pem_extract pem (Some TAMGA_MACHINE_PEM_BEGIN) (Some TAMGA_MACHINE_PEM_END) in
      let? cert := tamga_cert_parse (Some body) in
      match tamga_machine_alg_split (cert_alg cert) with
      | None =>
          err TAMGA_ERR_UNSUPPORTED_SCHEME
            (bstr "unsupported machine-file algorithm; only offline format v2 is accepted, and there is no v1 fallback")
      | Some (alg_prefix, alg_suffix) =>
          if negb (length alg_suffix =? length expected_suffix)%nat || negb (beq alg_suffix expected_suffix) then
            err TAMGA_ERR_UNSUPPORTED_SCHEME
              (bstr "the machine file was signed with a different scheme than the licence declares")
          else if (length alg_prefix =? 6)%nat && beq alg_prefix (bstr "base64") then ret (inl (cert, false))
          else if (length alg_prefix =? 11)%nat && beq alg_prefix (bstr "aes-256-gcm") then ret (inl (cert, true))
          else err TAMGA_ERR_UNSUPPORTED_SCHEME (bstr "unsupported machine-file encryption mode")
      end
  end.

Definition tamga_machine_decode_payload (cert : TamgaCert) (encrypted : bool) (license_key fingerprint : option bytes)
  : M (status bytes) :=
  if encrypted then tamga_machine_open_encrypted (cert_enc cert) license_key fingerprint
  else
    let! plaintext := tamga_base64_decode_alloc_why (Some (cert_enc cert)) in
    match plaintext with
    | inl TAMGA_BASE64_FAILURE_OUT_OF_MEMORY => err TAMGA_ERR_OUT_OF_MEMORY (bstr "could not decode the payload")
    | inl _ => err TAMGA_ERR_INVALID_BASE64 (bstr "the enc field is not valid base64")
    | inr plaintext => ret (inl plaintext)
    end.

Definition tamga_machine_parse_payload (plaintext : bytes) : M (status json) :=
  let! payload := tamga_json_parse (Some plaintext) in
  match payload with
  | inl payload => ret (inl payload)
  | inr parse_error =>
      if tamga_json_error_is_out_of_memory (Some parse_error)
      then err TAMGA_ERR_OUT_OF_MEMORY (bstr "could not parse the machine payload")
      else err TAMGA_ERR_INVALID_JSON (bstr "machine payload is malformed: " ++ json_error_text parse_error)
  end.

Definition tamga_machine_finish (payload : option json) (now_unix : Z) : M (status (json * TamgaFileClaims)) :=
  let? claims := tamga_claims_read (tamga_json_object_get payload (Some (bstr "meta"))) in
  if tamga_claims_are_expired (Some claims) now_unix then
    err TAMGA_ERR_EXPIRED (bstr "the machine file is authentic but expired; check out a fresh one")
  else
    match tamga_json_object_get payload (Some (bstr "data")) with
    | Some (JObject ms) =>
        let! resource := tamga_json_clone (JObject ms) in
        match resource with
        | None => err TAMGA_ERR_OUT_OF_MEMORY (bstr "could not copy the machine resource")
        | Some resource => ret (inl (resource, claims))
        end
    | _ => err TAMGA_ERR_INVALID_JSON (bstr "the machine payload has no data object")
    end.

Definition tamga_machine_file_verify_core (pem : option bytes) (scheme : Z) (pubkey : option bytes)
    (keys : option TamgaSigningKeySet) (license_key fingerprint : option bytes) (now_unix : Z)
  : M (status (json * TamgaFileClaims)) :=
  match pem, pubkey, keys with
  | None, _, _ | _, None, None => err TAMGA_ERR_NULL_ARGUMENT (bstr "a required argument was null")
  | Some _, _, _ =>
      let pubkey_len := zlen (default [] pubkey) in
      if match keys with None => true | Some _ => false end &&
         ((pubkey_len =? 0) || (pubkey_len >? TAMGA_MAX_REASONABLE_LEN)) then
        err TAMGA_ERR_LENGTH_INVALID (bstr "public key length is zero or exceeds the accepted maximum")
      else
        let? (cert, encrypted) := tamga_machine_open pem scheme in
        let! signature := tamga_base64_decode_alloc_why (Some (cert_sig cert)) in
        match signature with
        | inl TAMGA_BASE64_FAILURE_OUT_OF_MEMORY => err TAMGA_ERR_OUT_OF_MEMORY (bstr "could not decode the signature")
        | inl _ => err TAMGA_ERR_INVALID_BASE64 (bstr "the signature field is not valid base64")
        | inr signature =>
            let verified :=
              match keys, pubkey with
              | Some _, _ => match tamga_key_set_find_verifier keys (Some (cert_enc cert)) (Some signature) with
                             | Some _ => true
                             | None => false
                             end
              | None, Some pubkey => tamga_machine_check_signature scheme pubkey (cert_enc cert) signature
              | None, None => false
              end in
            if negb verified && match keys with None => true | Some _ => false end then
              err TAMGA_ERR_SIGNATURE_INVALID (bstr "machine-file signature did not verify")
            else
              let! probe :=
                let? plaintext := tamga_machine_decode_payload cert encrypted license_key fingerprint in
                tamga_machine_parse_payload plaintext in
              let! status :=
                if negb verified then tamga_key_set_label_failure keys probe
                else ret (match probe with inl _ => TAMGA_OK | inr code => code end) in
              if negb (bool_decide (status = TAMGA_OK)) then ret (inr status)
              else tamga_machine_finish (match probe with inl payload => Some payload | inr _ => None end) now_unix
        end
  end.

Definition tamga_machine_file_verify_at (pem : option bytes) (scheme : Z) (pubkey license_key fingerprint : option bytes)
    (now_unix : Z) : M (status (json * TamgaFileClaims)) :=
  match pubkey with
  | None => err TAMGA_ERR_NULL_ARGUMENT (bstr "a required argument was null")
  | Some _ => tamga_machine_file_verify_core pem scheme pubkey None license_key fingerprint now_unix
  end.

Definition tamga_machine_file_verify_at_with_key_set (pem : option bytes) (scheme : Z) (keys : option TamgaSigningKeySet)
    (license_key fingerprint : option bytes) (now_unix : Z) : M (status (json * TamgaFileClaims)) :=
  match keys with
  | None => err TAMGA_ERR_NULL_ARGUMENT (bstr "a key set is required")
  | Some _ =>
      if negb (scheme =? TAMGA_SCHEME_ED25519_SIGN) then
        match tamga_machine_alg_suffix scheme with
        | None => err TAMGA_ERR_UNSUPPORTED_SCHEME (bstr "this signing scheme is not valid for a machine file")
        | Some _ =>
            err TAMGA_ERR_KEY_ID_NOT_APPLICABLE
              (bstr "a machine file's kid names the account's Ed25519 key whatever scheme signed the file, so it cannot select an RSA or ECDSA key; verify this one with the account's own key for its algorithm")
        end
      else tamga_machine_file_verify_core pem scheme None keys license_key fingerprint now_unix
  end.
End Ops.
