(* ===== verification/MachineFileSpec.v ===== *)
(** * What an accepted machine file is

    The declarative counterpart of [MachineFile], and the proof that the
    verifier accepts exactly these files. *)

From Stdlib Require Import String.
From S2P Require Import Prelude World Buf BufBuild Base64 Json JsonParse JsonGrammar JsonSmall Sha2 Hkdf Gcm GcmSpec.
From S2P Require Import Status Pem Cert Suite KeySet LicenseFile MachineFile.
From stdpp Require Import list.
#[local] Open Scope Z_scope.

(** ** The algorithm string *)

Lemma last_plus_spec alg i :
  (i <= length alg)%nat ->
  match last_plus alg i with
  | Some k => (k < i)%nat /\ nth k alg 0 = 43 /\ forall j, (k < j < i)%nat -> nth j alg 0 <> 43
  | None => forall j, (j < i)%nat -> nth j alg 0 <> 43
  end.
Proof.
  induction i as [|i IH]; intros Hi; cbn [last_plus]; [lia|]. specialize (IH ltac:(lia)).
  destruct (Z.eqb_spec (nth i alg 0) 43) as [E|E].
  - split_and!; [lia|done|]. intros j Hj. lia.
  - destruct (last_plus alg i) as [k|].
    + destruct IH as (H1 & H2 & H3). split_and!; [lia|done|]. intros j Hj. destruct (Nat.eq_dec j i) as [->|]; [done|]. apply H3. lia.
    + intros j Hj. destruct (Nat.eq_dec j i) as [->|]; [done|]. apply IH. lia.
Qed.

Lemma split_at (l : bytes) k : (k < length l)%nat -> l = take k l ++ nth k l 0 :: drop (k + 1) l.
Proof.
  intros H. rewrite <- (take_drop k l) at 1. f_equal. revert k H. induction l as [|x l IH]; intros k H; [simpl in H; lia|].
  destruct k; [done|]. simpl. apply IH. simpl in H. lia.
Qed.

(** The split finds the parts of [prefix+suffix+v2], and nothing else. *)
Lemma alg_split_sound alg p q :
  tamga_machine_alg_split alg = Some (p, q) -> alg = p ++ 43 :: q ++ 43 :: TAMGA_MACHINE_ALG_VERSION /\ ~ In 43 p.
Proof.
  unfold tamga_machine_alg_split. change (length TAMGA_MACHINE_ALG_VERSION) with 2%nat.
  destruct (memchr 43 alg) as [first|] eqn:Ef; [|done]. apply memchr_Some in Ef as (l1 & l2 & -> & Hf & Hno).
  pose proof (last_plus_spec (l1 ++ 43 :: l2) (length (l1 ++ 43 :: l2)) ltac:(lia)) as Hl.
  destruct (last_plus _ _) as [last|]; [|done]. destruct Hl as (Hlt & Hln & Hlast). rewrite length_app in *. cbn [length] in *.
  destruct (Nat.eqb_spec last first) as [|Hne]; [done|].
  assert (first < last)%nat as Hlt2.
  { destruct (Nat.lt_ge_cases first last); [done|]. exfalso. apply (Hlast (length l1)); [lia|].
    rewrite app_nth2 by lia. by rewrite Nat.sub_diag. }
  replace (drop (last + 1) (l1 ++ 43 :: l2)) with (drop (last - first) l2).
  2:{ rewrite drop_app_ge by lia. replace (last + 1 - length l1)%nat with (S (last - first)) by lia. done. }
  replace (take first (l1 ++ 43 :: l2)) with l1 by (rewrite take_app_length'; done).
  replace (drop (first + 1) (l1 ++ 43 :: l2)) with l2.
  2:{ rewrite drop_app_ge by lia. replace (first + 1 - length l1)%nat with 1%nat by lia. done. }
  destruct (Nat.eqb_spec (length l1 + S (length l2) - last - 1) 2) as [Hv|]; cbn [negb orb]; [|done].
  rewrite take_ge by (rewrite length_drop; lia).
  destruct (beq (drop (last - first) l2) TAMGA_MACHINE_ALG_VERSION) eqn:Eb; cbn [negb]; [|done]. apply beq_eq in Eb.
  intros [= <- <-]. split; [|done]. f_equal. f_equal. rewrite <- Eb.
  rewrite (split_at l2 (last - first - 1)) at 1 by lia. f_equal.
  replace (last - first - 1 + 1)%nat with (last - first)%nat by lia. f_equal.
  rewrite app_nth2 in Hln by lia. replace (last - length l1)%nat with (S (last - first - 1)) in Hln by lia. done.
Qed.

Lemma alg_split_complete p q :
  ~ In 43 p -> tamga_machine_alg_split (p ++ 43 :: q ++ 43 :: TAMGA_MACHINE_ALG_VERSION) = Some (p, q).
Proof.
  intros Hno. set (alg := p ++ 43 :: q ++ 43 :: TAMGA_MACHINE_ALG_VERSION). unfold tamga_machine_alg_split.
  assert (memchr 43 alg = Some (length p)) as -> by (apply memchr_Some; by exists p, (q ++ 43 :: TAMGA_MACHINE_ALG_VERSION)).
  set (L := (length p + 1 + length q)%nat).
  assert (length alg = (L + 3)%nat) as Hlen.
  { subst alg L. rewrite length_app. cbn [length]. rewrite length_app. cbn. lia. }
  assert (drop (L + 1) alg = TAMGA_MACHINE_ALG_VERSION /\ nth L alg 0 = 43) as [Hd HL].
  { subst alg. change (p ++ 43 :: q ++ 43 :: TAMGA_MACHINE_ALG_VERSION) with (p ++ [43] ++ q ++ 43 :: TAMGA_MACHINE_ALG_VERSION).
    rewrite !app_assoc. assert (length ((p ++ [43]) ++ q) = L) as E by (rewrite !length_app; simpl; lia). split.
    - rewrite drop_app_ge by lia. rewrite E. by replace (L + 1 - L)%nat with 1%nat by lia.
    - rewrite app_nth2 by lia. rewrite E, Nat.sub_diag. done. }
  assert (last_plus alg (length alg) = Some L) as ->.
  { pose proof (last_plus_spec alg (length alg) ltac:(lia)) as Hl. destruct (last_plus alg (length alg)) as [k|].
    - destruct Hl as (H1 & H2 & H3). f_equal. destruct (Nat.lt_trichotomy k L) as [Hk|[->|Hk]]; [|done|].
      + exfalso. apply (H3 L); [lia|done].
      + exfalso. assert (nth (k - (L + 1)) (drop (L + 1) alg) 0 = 43) as Hn.
        { rewrite nth_drop. by replace (L + 1 + (k - (L + 1)))%nat with k by lia. }
        rewrite Hd in Hn. assert (k - (L + 1) = 0 \/ k - (L + 1) = 1)%nat as [E|E] by lia; rewrite E in Hn; discriminate Hn.
    - exfalso. apply (Hl L); [lia|done]. }
  destruct (Nat.eqb_spec L (length p)); [lia|]. replace (length alg - L - 1)%nat with 2%nat by lia. rewrite Hd.
  cbn [negb orb Nat.eqb]. change (beq (take 2 TAMGA_MACHINE_ALG_VERSION) TAMGA_MACHINE_ALG_VERSION) with true. cbn [negb].
  f_equal. f_equal.
  - subst alg. by rewrite take_app_length.
  - subst alg. rewrite drop_app_ge by lia. replace (length p + 1 - length p)%nat with 1%nat by lia. cbn [drop].
    rewrite drop_0. rewrite take_app_length'; [done|]. lia.
Qed.

(** The scheme's name in [alg]. *)
Lemma suffix_no_plus scheme suffix : tamga_machine_alg_suffix scheme = Some suffix -> ~ In 43 suffix.
Proof. unfold tamga_machine_alg_suffix. repeat (case_match; [intros [= <-]; by apply memchr_None|]). done. Qed.

(** ** Specifications of the steps *)

Definition encoding_name (encrypted : bool) : bytes := if encrypted then bstr "aes-256-gcm" else bstr "base64".

(** The [alg] a machine file of the scheme named [suffix] must have. *)
Definition machine_alg (suffix : bytes) (encrypted : bool) : bytes :=
  encoding_name encrypted ++ bstr "+" ++ suffix ++ bstr "+v2".

Definition machine_open_spec (pem : bytes) (scheme : Z) : status (TamgaCert * bool) :=
  match tamga_machine_alg_suffix scheme with
  | None => inr TAMGA_ERR_UNSUPPORTED_SCHEME
  | Some suffix =>
      then_spec (pem_spec TAMGA_MACHINE_PEM_BEGIN TAMGA_MACHINE_PEM_END pem) (fun body =>
      then_spec (cert_spec body) (fun cert =>
      if decide (cert_alg cert = machine_alg suffix false) then inl (cert, false)
      else if decide (cert_alg cert = machine_alg suffix true) then inl (cert, true)
      else inr TAMGA_ERR_UNSUPPORTED_SCHEME))
  end.

Definition machine_aes_key (license_key fingerprint : bytes) : bytes :=
  default [] (tamga_derive_machine_file_key (Some (c_view license_key)) (Some (c_view fingerprint))).

Definition machine_plaintext_spec (cert : TamgaCert) (encrypted : bool) (license_key fingerprint : option bytes) : status bytes :=
  if encrypted then
    match license_key, fingerprint with
    | Some key, Some fp =>
        match memchr 46 (cert_enc cert) with
        | None => inr TAMGA_ERR_DECRYPTION_FAILED
        | Some dot =>
            let n := take dot (cert_enc cert) in
            let c := drop (dot + 1) (cert_enc cert) in
            if decide (n = [] \/ c = []) then inr TAMGA_ERR_DECRYPTION_FAILED
            else if memchr 46 c is Some _ then inr TAMGA_ERR_DECRYPTION_FAILED
            else match tamga_base64_decode (Some n) with
                 | None => inr TAMGA_ERR_INVALID_BASE64
                 | Some nonce =>
                     if decide (length nonce = 12%nat) then
                       match tamga_base64_decode (Some c) with
                       | None => inr TAMGA_ERR_INVALID_BASE64
                       | Some cipher =>
                           if decide (length cipher <= 16)%nat then inr TAMGA_ERR_DECRYPTION_FAILED
                           else match tamga_gcm_open (machine_aes_key key fp) nonce (At []) cipher with
                                | None => inr TAMGA_ERR_DECRYPTION_FAILED
                                | Some p => inl p
                                end
                       end
                     else inr TAMGA_ERR_DECRYPTION_FAILED
                 end
        end
    | _, _ => inr TAMGA_ERR_NULL_ARGUMENT
    end
  else match tamga_base64_decode (Some (cert_enc cert)) with None => inr TAMGA_ERR_INVALID_BASE64 | Some p => inl p end.

Definition machine_probe_spec (cert : TamgaCert) (encrypted : bool) (license_key fingerprint : option bytes) : status json :=
  then_spec (machine_plaintext_spec cert encrypted license_key fingerprint) payload_spec.

Lemma machine_open_small pem scheme cert e :
  machine_open_spec pem scheme = inl (cert, e) ->
  zlen (cert_enc cert) <= TAMGA_MAX_REASONABLE_LEN /\ zlen (cert_sig cert) <= TAMGA_MAX_REASONABLE_LEN.
Proof.
  unfold machine_open_spec, then_spec. destruct (tamga_machine_alg_suffix scheme); [|done].
  destruct (pem_spec _ _ pem) as [body|]; [|done].
  destruct (cert_spec body) as [c|] eqn:Ec; [|done]. apply cert_spec_small in Ec.
  repeat case_decide; try done; intros [= <- <-]; done.
Qed.

Lemma machine_plaintext_bytes cert encrypted license_key fingerprint p :
  machine_plaintext_spec cert encrypted license_key fingerprint = inl p -> bytes_ok p.
Proof.
  unfold machine_plaintext_spec. destruct encrypted.
  2:{ destruct (tamga_base64_decode _) eqn:Ed; [|done]. intros [= <-]. by apply decode_bytes in Ed as [? _]. }
  destruct license_key as [key|]; [|done]. destruct fingerprint as [fp|]; [|done].
  destruct (memchr 46 (cert_enc cert)) as [dot|]; [|done]. cbv zeta. case_decide; [done|].
  destruct (memchr 46 (drop _ _)); [done|]. destruct (tamga_base64_decode (Some (take _ _))) as [nonce|] eqn:En; [|done].
  case_decide as Hn; [|done]. destruct (tamga_base64_decode (Some (drop _ _))) as [cipher|] eqn:Ec; [|done].
  case_decide; [done|]. destruct (tamga_gcm_open _ _ _ _) as [q|] eqn:Eg; [|done]. intros [= <-].
  apply decode_bytes in En as [Hno _], Ec as [Hco _]. apply gcm_open_bytes in Eg as [Hq _]; [done| |done].
  unfold machine_aes_key. destruct (machine_key_ok (c_view key) (c_view fp)) as (k & -> & Hk & Hko). by split; [split|split|constructor].
Qed.

(** ** The steps refine their specifications *)

(** A decoded value, or the error every decoding step reports. *)
Lemma decode_step {A} `{Malloc} l (spec : status A) (k : bytes -> M (status A)) t1 t2 :
  zlen l <= TAMGA_MAX_REASONABLE_LEN ->
  (tamga_base64_decode (Some l) = None -> spec = inr TAMGA_ERR_INVALID_BASE64) ->
  (forall d, tamga_base64_decode (Some l) = Some d -> post (k d) (refines spec)) ->
  post (let! r := tamga_base64_decode_alloc_why (Some l) in
        match r with
        | inl TAMGA_BASE64_FAILURE_OUT_OF_MEMORY => err TAMGA_ERR_OUT_OF_MEMORY t1
        | inl _ => err TAMGA_ERR_INVALID_BASE64 t2
        | inr d => k d
        end) (refines spec).
Proof.
  intros Hl Hn Hk. eapply post_bind; [by apply decode_alloc_post|]. intros [[]|d] Hd; try (apply refines_err; by auto).
  - apply post_err. by apply refines_oom.
  - by apply Hk.
Qed.

Section Steps.
Context {malloc : Malloc} {suite : Suite}.

Lemma alg_check_spec cert suffix t1 t2 t3 :
  ~ In 43 suffix ->
  post (match tamga_machine_alg_split (cert_alg cert) with
        | None => err TAMGA_ERR_UNSUPPORTED_SCHEME t1
        | Some (alg_prefix, alg_suffix) =>
            if negb (length alg_suffix =? length suffix)%nat || negb (beq alg_suffix suffix) then
              err TAMGA_ERR_UNSUPPORTED_SCHEME t2
            else if (length alg_prefix =? 6)%nat && beq alg_prefix (bstr "base64") then ret (inl (cert, false))
            else if (length alg_prefix =? 11)%nat && beq alg_prefix (bstr "aes-256-gcm") then ret (inl (cert, true))
            else err TAMGA_ERR_UNSUPPORTED_SCHEME t3
        end) (refines (
    if decide (cert_alg cert = machine_alg suffix false) then inl (cert, false)
    else if decide (cert_alg cert = machine_alg suffix true) then inl (cert, true)
    else inr TAMGA_ERR_UNSUPPORTED_SCHEME)).
Proof.
  intros Hs. assert (forall e, machine_alg suffix e = encoding_name e ++ 43 :: suffix ++ 43 :: TAMGA_MACHINE_ALG_VERSION) as Halg by done.
  assert (forall e, ~ In 43 (encoding_name e)) as Hen by (intros []; by apply memchr_None).
  assert (forall e, cert_alg cert = machine_alg suffix e <-> tamga_machine_alg_split (cert_alg cert) = Some (encoding_name e, suffix)) as Hiff.
  { intros e. rewrite Halg. split; [intros ->; by apply alg_split_complete|]. by intros [E _]%alg_split_sound. }
  destruct (tamga_machine_alg_split (cert_alg cert)) as [[p q]|] eqn:E.
  2:{ rewrite !decide_False; [by apply refines_err|intros [=]%Hiff|intros [=]%Hiff]. }
  assert (negb (length q =? length suffix)%nat || negb (beq q suffix) = negb (bool_decide (q = suffix))) as ->.
  { destruct (beq q suffix) eqn:Eb; [apply beq_eq in Eb as ->; by rewrite Nat.eqb_refl, bool_decide_true|].
    apply beq_neq in Eb. rewrite bool_decide_false by done. apply orb_true_r. }
  case_bool_decide as Hq; cbn [negb].
  2:{ rewrite !decide_False; [by apply refines_err|intros [=]%Hiff; congruence|intros [=]%Hiff; congruence]. }
  subst q. assert (forall m (n : nat), length m = n -> (length p =? n)%nat && beq p m = bool_decide (p = m)) as Hm.
  { intros m n <-. destruct (beq p m) eqn:Eb; [apply beq_eq in Eb as ->; by rewrite Nat.eqb_refl, bool_decide_true|].
    apply beq_neq in Eb. rewrite bool_decide_false by done. apply andb_false_r. }
  rewrite (Hm (bstr "base64") 6%nat), (Hm (bstr "aes-256-gcm") 11%nat) by done.
  case_bool_decide as Hp; [|case_bool_decide as Hp2].
  - subst p. rewrite decide_True by (by apply Hiff). apply post_ret. by apply refines_ret.
  - subst p. rewrite decide_False by (by intros [=]%Hiff). rewrite decide_True by (by apply Hiff). apply post_ret. by apply refines_ret.
  - rewrite !decide_False; [by apply refines_err|intros [=]%Hiff; done|intros [=]%Hiff; done].
Qed.

Lemma machine_open_post pem scheme : post (tamga_machine_open (Some pem) scheme) (refines (machine_open_spec pem scheme)).
Proof.
  unfold tamga_machine_open, machine_open_spec. destruct (tamga_machine_alg_suffix scheme) as [suffix|] eqn:Es; [|by apply refines_err].
  apply suffix_no_plus in Es. apply refines_try.
  { eapply post_mono; [apply pem_extract_post; by apply memchr_None|]. intros r. apply refines_unless_oom. }
  intros body Hb. apply refines_try; [by apply cert_parse_post, (pem_spec_small _ _ _ _ Hb)|].
  intros cert _. by apply alg_check_spec.
Qed.

Lemma open_encrypted_post cert license_key fingerprint :
  zlen (cert_enc cert) <= TAMGA_MAX_REASONABLE_LEN ->
  post (tamga_machine_open_encrypted (cert_enc cert) license_key fingerprint)
    (refines (machine_plaintext_spec cert true license_key fingerprint)).
Proof.
  intros Hl. unfold tamga_machine_open_encrypted, machine_plaintext_spec.
  destruct license_key as [key|]; [|by apply refines_err]. destruct fingerprint as [fp|]; [|by apply refines_err].
  destruct (memchr 46 (cert_enc cert)) as [dot|]; [|by apply refines_err]. cbv zeta.
  set (n := take dot (cert_enc cert)). set (c := drop (dot + 1) (cert_enc cert)).
  destruct ((length n =? 0)%nat || (length c =? 0)%nat) eqn:Eemp.
  { rewrite decide_True; [by apply refines_err|]. apply orb_true_iff in Eemp as [E|E]; apply Nat.eqb_eq, nil_length_inv in E; auto. }
  rewrite decide_False.
  2:{ apply orb_false_iff in Eemp as [E1 E2]. apply Nat.eqb_neq in E1, E2. intros [E|E]; rewrite E in *; done. }
  destruct (memchr 46 c); [by apply refines_err|].
  assert (zlen n <= TAMGA_MAX_REASONABLE_LEN /\ zlen c <= TAMGA_MAX_REASONABLE_LEN) as [Hn Hc].
  { subst n c. rewrite length_take, length_drop. lia. }
  apply decode_step; [done|intros E; by rewrite E|]. intros nonce Hno. rewrite Hno. change TAMGA_GCM_NONCE_LEN with 12%nat.
  destruct (Nat.eqb_spec (length nonce) 12) as [En|En]; cbn [negb]; [rewrite decide_True by done|rewrite decide_False by done; by apply refines_err].
  apply decode_step; [done|intros E; by rewrite E|]. intros cipher Hci. rewrite Hci. change TAMGA_GCM_TAG_LEN with 16%nat.
  destruct (Nat.leb_spec (length cipher) 16); [rewrite decide_True by lia; by apply refines_err|]. rewrite decide_False by lia.
  unfold machine_aes_key. destruct (tamga_derive_machine_file_key (Some (c_view key)) (Some (c_view fp))) as [k|] eqn:Ek.
  2:{ destruct (machine_key_ok (c_view key) (c_view fp)) as (k' & E & _). congruence. }
  cbn [default from_option id]. apply decode_bytes in Hci as [_ Hcl].
  eapply (post_bind _ _ (fun ok => ok = true \/ ok = false /\ ~ ample)).
  { intros s. destruct (tamga_malloc _ s).1 eqn:E; [by left|]. right. split; [done|]. intros Ha.
    rewrite (ample_malloc _ _ Ha) in E; [done|]. unfold json_memory, TAMGA_MAX_REASONABLE_LEN in *. lia. }
  intros ok [->|[-> Hno']]; cbn [negb]; [|apply post_err; by apply refines_oom].
  change (tamga_gcm_open k nonce (Null 0) cipher) with (tamga_gcm_open k nonce (At []) cipher).
  destruct (tamga_gcm_open k nonce (At []) cipher); [apply post_ret; by apply refines_ret|by apply refines_err].
Qed.

Lemma machine_payload_post cert encrypted license_key fingerprint :
  zlen (cert_enc cert) <= TAMGA_MAX_REASONABLE_LEN ->
  post (tamga_machine_decode_payload cert encrypted license_key fingerprint)
    (refines (machine_plaintext_spec cert encrypted license_key fingerprint)).
Proof.
  intros Hl. unfold tamga_machine_decode_payload. destruct encrypted; [by apply open_encrypted_post|].
  unfold machine_plaintext_spec. apply decode_step; [done|intros E; by rewrite E|]. intros d Hd. rewrite Hd.
  apply post_ret. by apply refines_ret.
Qed.

Lemma machine_parse_post p : bytes_ok p -> post (tamga_machine_parse_payload p) (refines (payload_spec p)).
Proof.
  intros Hok. unfold tamga_machine_parse_payload, payload_spec. eapply post_bind; [by apply parse_post|]. intros [j|e] Hj.
  - rewrite Hj. apply post_ret. by apply refines_ret.
  - destruct (tamga_json_error_is_out_of_memory (Some e)) eqn:Eo; apply post_err.
    + apply refines_oom. intros Ha. by destruct (Hj Ha).
    + split; [|done]. intros Ha. destruct (Hj Ha) as [-> _]. done.
Qed.

Lemma machine_finish_post payload now :
  json_wf payload -> json_small TAMGA_MAX_REASONABLE_LEN payload ->
  post (tamga_machine_finish (Some payload) now) (refines (finish_spec payload now)).
Proof.
  intros Hwf Hsm. unfold tamga_machine_finish, finish_spec. apply refines_try; [apply claims_read_post|].
  intros claims _. pose proof (claims_are_expired_spec claims now) as He.
  destruct (tamga_claims_are_expired (Some claims) now); [rewrite decide_True by tauto; by apply refines_err|].
  rewrite decide_False by (intros H; by apply He in H). fold (member payload (bstr "data")).
  destruct (member payload (bstr "data")) as [data|] eqn:Ed; [|by apply refines_err].
  pose proof (member_wf _ _ _ Hwf Ed) as Hw. pose proof (member_small _ _ _ _ Hsm Ed) as Hs.
  destruct data; try (by apply refines_err). eapply post_bind; [by apply clone_ample_post|].
  intros r [->|[-> Hno]]; [apply post_ret; by apply refines_ret|]. apply post_err. by apply refines_oom.
Qed.

Lemma machine_probe_post cert encrypted license_key fingerprint :
  zlen (cert_enc cert) <= TAMGA_MAX_REASONABLE_LEN ->
  post (let? plaintext := tamga_machine_decode_payload cert encrypted license_key fingerprint in
        tamga_machine_parse_payload plaintext)
    (fun r => refines (machine_probe_spec cert encrypted license_key fingerprint) r /\ r <> inr TAMGA_OK).
Proof.
  intros Hl. apply post_and.
  - apply refines_try; [by apply machine_payload_post|]. intros p Hp. apply machine_parse_post. by eapply machine_plaintext_bytes.
  - apply proper_try; [unfold tamga_machine_decode_payload, tamga_machine_open_encrypted|
      intros p; unfold tamga_machine_parse_payload]; proper_tac.
Qed.

Lemma machine_probe_small cert encrypted license_key fingerprint payload :
  machine_probe_spec cert encrypted license_key fingerprint = inl payload ->
  json_wf payload /\ json_small TAMGA_MAX_REASONABLE_LEN payload.
Proof.
  unfold machine_probe_spec, then_spec, payload_spec. destruct (machine_plaintext_spec _ _ _ _) as [p|] eqn:Ep; [|done].
  apply machine_plaintext_bytes in Ep. destruct (json_of p) as [j|] eqn:Ej; [|done]. intros [= <-].
  by destruct (json_of_small _ _ Ep Ej).
Qed.

(** ** The verifier *)

Definition machine_finish_spec (cert : TamgaCert) (encrypted : bool) (license_key fingerprint : option bytes) (now : Z)
  : status (json * TamgaFileClaims) :=
  then_spec (machine_probe_spec cert encrypted license_key fingerprint) (fun payload => finish_spec payload now).

(** What follows the signature check, with [verified] its outcome. *)
Lemma machine_tail_post cert encrypted license_key fingerprint now set (verified : bool) :
  zlen (cert_enc cert) <= TAMGA_MAX_REASONABLE_LEN ->
  post (let! probe := let? plaintext := tamga_machine_decode_payload cert encrypted license_key fingerprint in
                      tamga_machine_parse_payload plaintext in
        let! status := if negb verified then tamga_key_set_label_failure (Some set) probe
                       else ret (match probe with inl _ => TAMGA_OK | inr code => code end) in
        if negb (bool_decide (status = TAMGA_OK)) then ret (inr status)
        else tamga_machine_finish (match probe with inl payload => Some payload | inr _ => None end) now)
    (fun r => if verified then refines (machine_finish_spec cert encrypted license_key fingerprint now) r
              else exists code, r = inr code /\ code <> TAMGA_OK /\
                     (ample -> label set (machine_probe_spec cert encrypted license_key fingerprint) code)).
Proof.
  intros Hl. eapply post_bind; [by apply machine_probe_post|]. intros probe [[Ha Hs] Hne]. destruct verified; cbn [negb].
  - eapply (post_bind _ _ (fun c => c = match probe with inl _ => TAMGA_OK | inr code => code end)); [by apply post_ret|].
    intros ? ->. destruct probe as [payload|code].
    + specialize (Hs payload eq_refl). unfold machine_finish_spec. rewrite Hs. cbn [then_spec].
      rewrite bool_decide_true by done. cbn [negb]. destruct (machine_probe_small _ _ _ _ _ Hs). by apply machine_finish_post.
    + rewrite bool_decide_false by congruence. cbn [negb]. apply post_ret. split; [|done]. intros Hamp.
      unfold machine_finish_spec. by rewrite <- (Ha Hamp).
  - eapply post_bind; [apply label_failure_post|]. intros code Hc. pose proof (label_not_ok _ _ _ Hc).
    rewrite bool_decide_false by done. cbn [negb]. apply post_ret. exists code. split; [done|]. split; [done|].
    intros Hamp. by rewrite <- (Ha Hamp).
Qed.

Definition sig_spec (cert : TamgaCert) : status bytes :=
  match tamga_base64_decode (Some (cert_sig cert)) with None => inr TAMGA_ERR_INVALID_BASE64 | Some d => inl d end.

Definition machine_single_spec (scheme : Z) (pubkey pem : bytes) (license_key fingerprint : option bytes) (now : Z)
  : status (json * TamgaFileClaims) :=
  if decide (0 < zlen pubkey <= TAMGA_MAX_REASONABLE_LEN) then
    then_spec (machine_open_spec pem scheme) (fun '(cert, encrypted) =>
    then_spec (sig_spec cert) (fun signature =>
    if tamga_machine_check_signature scheme pubkey (cert_enc cert) signature
    then machine_finish_spec cert encrypted license_key fingerprint now else inr TAMGA_ERR_SIGNATURE_INVALID))
  else inr TAMGA_ERR_LENGTH_INVALID.

Lemma machine_verify_post pem scheme pubkey license_key fingerprint now :
  post (tamga_machine_file_verify_at (Some pem) scheme (Some pubkey) license_key fingerprint now)
    (refines (machine_single_spec scheme pubkey pem license_key fingerprint now)).
Proof.
  unfold tamga_machine_file_verify_at, tamga_machine_file_verify_core, machine_single_spec.
  cbn [default from_option id andb]. destruct ((zlen pubkey =? 0) || (zlen pubkey >? TAMGA_MAX_REASONABLE_LEN)) eqn:Hsz.
  { rewrite decide_False by lia. by apply refines_err. }
  rewrite decide_True by lia. apply refines_try; [apply machine_open_post|]. intros [cert e] Ho.
  destruct (machine_open_small _ _ _ _ Ho). unfold sig_spec. apply decode_step; [done|intros E; by rewrite E|].
  intros sig Hd. rewrite Hd. cbn [then_spec].
  destruct (tamga_machine_check_signature scheme pubkey (cert_enc cert) sig); cbn [negb andb]; [|by apply refines_err].
  by apply (machine_tail_post cert e license_key fingerprint now (mk_set [] 0) true).
Qed.

(** The signature a machine file of the key-set path carries, if any of the
    earlier steps lets it be read. *)
Definition machine_signed_spec (pem : bytes) : status (TamgaCert * bool * bytes) :=
  then_spec (machine_open_spec pem TAMGA_SCHEME_ED25519_SIGN) (fun '(cert, encrypted) =>
  then_spec (sig_spec cert) (fun signature => inl (cert, encrypted, signature))).

Lemma machine_signed_inl pem cert e sig :
  machine_signed_spec pem = inl (cert, e, sig) <->
  machine_open_spec pem TAMGA_SCHEME_ED25519_SIGN = inl (cert, e) /\ sig_spec cert = inl sig.
Proof.
  unfold machine_signed_spec, then_spec. destruct (machine_open_spec pem _) as [[c e']|]; [|split; [done|by intros []]].
  destruct (sig_spec c) as [sg|] eqn:E; split; try done.
  - by intros [= <- <- <-].
  - intros [[= <- <-] E']. congruence.
  - intros [[= <- <-] E']. congruence.
Qed.

Definition set_trusts (set : TamgaSigningKeySet) (enc signature : bytes) : Prop :=
  length signature = 64%nat /\ trusted set enc signature.

Lemma find_verifier_spec set enc sig :
  match tamga_key_set_find_verifier (Some set) (Some enc) (Some sig) with Some _ => true | None => false end = true <->
  set_trusts set enc sig.
Proof.
  unfold tamga_key_set_find_verifier, set_trusts. change TAMGA_ED25519_SIG_LEN with 64%nat.
  destruct (Nat.eqb_spec (length sig) 64); cbn [negb]; [|split; [done|by intros []]].
  pose proof (verifier_loop_spec (ks_entries set) enc sig) as Hv. destruct (verifier_loop (ks_entries set) enc sig) as [k|].
  - split; [|done]. intros _. split; [done|]. destruct Hv as (en & Hin & Hk & Hver). exists en. by rewrite Hk.
  - split; [done|]. intros (_ & en & Hin & Hver). by rewrite (Hv en Hin) in Hver.
Qed.

(** The outcome of the key-set path. *)
Definition machine_set_spec (set : TamgaSigningKeySet) (pem : bytes) (license_key fingerprint : option bytes) (now : Z)
    (r : status (json * TamgaFileClaims)) : Prop :=
  (forall x, r = inl x -> exists cert e sig, machine_signed_spec pem = inl (cert, e, sig) /\
     set_trusts set (cert_enc cert) sig /\ machine_finish_spec cert e license_key fingerprint now = inl x) /\
  (ample -> forall cert e sig, machine_signed_spec pem = inl (cert, e, sig) ->
     (set_trusts set (cert_enc cert) sig -> r = machine_finish_spec cert e license_key fingerprint now) /\
     (~ set_trusts set (cert_enc cert) sig ->
      exists code, r = inr code /\ label set (machine_probe_spec cert e license_key fingerprint) code)).

Lemma machine_set_spec_early set pem license_key fingerprint now code :
  (ample -> forall x, machine_signed_spec pem <> inl x) ->
  machine_set_spec set pem license_key fingerprint now (inr code).
Proof. intros H. split; [done|]. intros Hamp cert e sig Hx. by destruct (H Hamp (cert, e, sig)). Qed.

Lemma machine_set_post pem set license_key fingerprint now :
  post (tamga_machine_file_verify_at_with_key_set (Some pem) TAMGA_SCHEME_ED25519_SIGN (Some set) license_key fingerprint now)
    (machine_set_spec set pem license_key fingerprint now).
Proof.
  unfold tamga_machine_file_verify_at_with_key_set, tamga_machine_file_verify_core.
  rewrite Z.eqb_refl. cbn [negb andb]. eapply post_try; [apply machine_open_post| |].
  2:{ intros code [Ha _]. apply machine_set_spec_early. intros Hamp [[c e] g] Hx. apply machine_signed_inl in Hx as [Hx _].
      rewrite <- (Ha Hamp) in Hx. done. }
  intros [cert e] [_ Ho]. specialize (Ho _ eq_refl). destruct (machine_open_small _ _ _ _ Ho).
  assert (forall c g e', machine_signed_spec pem = inl (c, e', g) -> c = cert /\ e' = e /\ sig_spec cert = inl g) as Huniq.
  { intros c g e' [Hx1 Hx2]%machine_signed_inl. rewrite Ho in Hx1. by injection Hx1 as <- <-. }
  eapply post_bind; [by apply decode_alloc_post|]. intros [[]|sig] Hd.
  1-3: try (apply post_err, machine_set_spec_early; intros _ [[c e'] g] (_ & _ & Hx)%Huniq; unfold sig_spec in Hx; by rewrite Hd in Hx).
  { apply post_err, machine_set_spec_early. tauto. }
  assert (machine_signed_spec pem = inl (cert, e, sig)) as Hsig.
  { apply machine_signed_inl. split; [done|]. unfold sig_spec. by rewrite Hd. }
  pose proof (find_verifier_spec set (cert_enc cert) sig) as Hv.
  set (verified := match tamga_key_set_find_verifier _ _ _ with Some _ => true | None => false end) in *.
  rewrite andb_false_r. eapply post_mono; [by apply (machine_tail_post cert e license_key fingerprint now set verified)|].
  intros r Hr. split.
  - intros x ->. destruct verified; [|by destruct Hr as (code & [=] & _)]. exists cert, e, sig. split; [done|].
    split; [by apply Hv|]. destruct Hr as [_ Hr]. by apply Hr.
  - intros Hamp c e' g (-> & -> & Hg)%Huniq. unfold sig_spec in Hg. rewrite Hd in Hg. injection Hg as <-. destruct verified.
    + split; [|intros Hno; exfalso; apply Hno; by apply Hv]. intros _. destruct Hr as [Hr _]. by apply Hr.
    + split; [intros Ht; apply Hv in Ht; done|]. intros _. destruct Hr as (code & -> & _ & Hlab). eauto.
Qed.
End Steps.

(** ** The declarative view *)

Definition machine_certificate (pem suffix : bytes) (cert : TamgaCert) (encrypted : bool) : Prop :=
  0 < zlen pem <= TAMGA_MAX_REASONABLE_LEN /\
  exists inner d root,
    enveloped TAMGA_MACHINE_PEM_BEGIN TAMGA_MACHINE_PEM_END pem inner /\
    tamga_base64_decode (Some (squeeze inner)) = Some d /\ jtext root d /\
    string_member root (bstr "enc") = Some (cert_enc cert) /\
    string_member root (bstr "sig") = Some (cert_sig cert) /\
    string_member root (bstr "alg") = Some (cert_alg cert) /\
    cert_alg cert = machine_alg suffix encrypted.

(** An encrypted payload is [nonce.ciphertext], both halves base64. *)
Definition machine_plaintext (cert : TamgaCert) (encrypted : bool) (license_key fingerprint : option bytes) (p : bytes) : Prop :=
  if encrypted then
    exists key fp n c nonce cipher, license_key = Some key /\ fingerprint = Some fp /\
      cert_enc cert = n ++ 46 :: c /\ n <> [] /\ c <> [] /\ ~ In 46 n /\ ~ In 46 c /\
      tamga_base64_decode (Some n) = Some nonce /\ length nonce = 12%nat /\
      tamga_base64_decode (Some c) = Some cipher /\ (16 < length cipher)%nat /\
      tamga_gcm_open (machine_aes_key key fp) nonce (At []) cipher = Some p
  else tamga_base64_decode (Some (cert_enc cert)) = Some p.

(** An authentic and current machine file of the scheme named [suffix], where
    [signs enc signature] is what the caller trusts. *)
Definition machine_accepts (signs : bytes -> bytes -> Prop) (suffix pem : bytes) (license_key fingerprint : option bytes)
    (now : Z) (resource : json) (claims : TamgaFileClaims) : Prop :=
  exists cert encrypted signature p payload,
    machine_certificate pem suffix cert encrypted /\
    tamga_base64_decode (Some (cert_sig cert)) = Some signature /\ signs (cert_enc cert) signature /\
    machine_plaintext cert encrypted license_key fingerprint p /\ jtext payload p /\
    claims_spec (member payload (bstr "meta")) = inl claims /\ ~ expired claims now /\
    member payload (bstr "data") = Some resource /\ exists ms, resource = JObject ms.

Lemma machine_markers : marker TAMGA_MACHINE_PEM_BEGIN /\ marker TAMGA_MACHINE_PEM_END.
Proof.
  split; [apply (demo_marker _ (bstr "----BEGIN MACHINE FILE----") 45)|apply (demo_marker _ (bstr "----END MACHINE FILE----") 45)];
    try done; by apply memchr_None.
Qed.

Lemma machine_alg_inj suffix e e' : machine_alg suffix e = machine_alg suffix e' -> e = e'.
Proof. destruct e, e'; try done. Qed.

Lemma machine_open_iff pem scheme suffix cert encrypted :
  tamga_machine_alg_suffix scheme = Some suffix ->
  machine_open_spec pem scheme = inl (cert, encrypted) <-> machine_certificate pem suffix cert encrypted.
Proof.
  intros Hsuf. destruct machine_markers as [Hb He]. unfold machine_open_spec, then_spec, machine_certificate. rewrite Hsuf. split.
  - destruct (pem_spec _ _ pem) as [body|] eqn:Ep; [|done]. apply pem_spec_iff in Ep as (Hsz & _ & inner & Hin & ->); [|done|done].
    unfold cert_spec. destruct (tamga_base64_decode (Some (squeeze inner))) as [d|] eqn:Ed; [|done].
    destruct (decode_bytes _ _ Ed) as [Hok _]. destruct (json_of d) as [root|] eqn:Ej; [|done].
    apply json_of_iff in Ej; [|done].
    destruct (string_member root (bstr "enc")) eqn:E1; [|done]. destruct (string_member root (bstr "sig")) eqn:E2; [|done].
    destruct (string_member root (bstr "alg")) eqn:E3; [|done]. cbn [cert_alg].
    intros Hx. split; [done|]. exists inner, d, root. repeat case_decide; try done; injection Hx as <- <-; cbn; by subst.
  - intros (Hsz & inner & d & root & Hin & Hd & Hj & H1 & H2 & H3 & Ha).
    assert (pem_spec TAMGA_MACHINE_PEM_BEGIN TAMGA_MACHINE_PEM_END pem = inl (squeeze inner)) as ->.
    { apply pem_spec_iff; [done|done|]. split; [done|]. split; [by eapply decode_no_nul|]. eauto. }
    unfold cert_spec. rewrite Hd. destruct (decode_bytes _ _ Hd) as [Hok _].
    rewrite (proj2 (json_of_iff d root Hok) Hj), H1, H2, H3. cbn [cert_alg]. rewrite Ha.
    destruct cert as [enc sig alg]; cbn [cert_enc cert_sig cert_alg] in *. destruct encrypted; subst alg.
    + rewrite decide_False by (intros E; by apply machine_alg_inj in E). by rewrite decide_True.
    + by rewrite decide_True.
Qed.

Lemma machine_plaintext_iff cert encrypted license_key fingerprint p :
  machine_plaintext_spec cert encrypted license_key fingerprint = inl p <->
  machine_plaintext cert encrypted license_key fingerprint p.
Proof.
  unfold machine_plaintext_spec, machine_plaintext. destruct encrypted.
  2:{ destruct (tamga_base64_decode _); split; congruence. }
  split.
  - destruct license_key as [key|]; [|done]. destruct fingerprint as [fp|]; [|done].
    destruct (memchr 46 (cert_enc cert)) as [dot|] eqn:Edot; [|done]. apply memchr_Some in Edot as (n & c & Eenc & Hn & Hno).
    rewrite Eenc. cbv zeta. rewrite take_app_length' by done. rewrite drop_app_ge by lia.
    replace (dot + 1 - length n)%nat with 1%nat by lia. cbn [drop]. rewrite drop_0. case_decide as Hemp; [done|].
    destruct (memchr 46 c) eqn:Ec; [done|]. apply memchr_None in Ec.
    destruct (tamga_base64_decode (Some n)) as [nonce|] eqn:En; [|done]. case_decide; [|done].
    destruct (tamga_base64_decode (Some c)) as [cipher|] eqn:Eci; [|done]. case_decide; [done|].
    destruct (tamga_gcm_open _ _ _ _) as [q|] eqn:Eg; [|done]. intros [= <-].
    exists key, fp, n, c, nonce, cipher. split_and!; try done; try tauto. lia.
  - intros (key & fp & n & c & nonce & cipher & -> & -> & Eenc & Hn0 & Hc0 & Hn & Hc & Hno & Hl & Hci & Hlc & Hg). rewrite Eenc.
    assert (memchr 46 (n ++ 46 :: c) = Some (length n)) as -> by (apply memchr_Some; by exists n, c).
    cbv zeta. rewrite take_app_length. rewrite drop_app_ge by lia. replace (length n + 1 - length n)%nat with 1%nat by lia.
    cbn [drop]. rewrite drop_0. rewrite decide_False by tauto. apply memchr_None in Hc. rewrite Hc, Hno.
    rewrite decide_True by done. rewrite Hci. rewrite decide_False by lia. by rewrite Hg.
Qed.

Lemma machine_accepts_iff signs scheme suffix pem license_key fingerprint now resource claims :
  tamga_machine_alg_suffix scheme = Some suffix ->
  machine_accepts signs suffix pem license_key fingerprint now resource claims <->
  exists cert encrypted signature, machine_open_spec pem scheme = inl (cert, encrypted) /\ sig_spec cert = inl signature /\
    signs (cert_enc cert) signature /\ machine_finish_spec cert encrypted license_key fingerprint now = inl (resource, claims).
Proof.
  intros Hsuf. unfold machine_accepts, machine_finish_spec, machine_probe_spec, sig_spec, payload_spec. split.
  - intros (cert & e & sig & p & payload & Hc & Hs & Hk & Hp & Hj & Hf).
    exists cert, e, sig. split; [by eapply machine_open_iff|]. rewrite Hs. split; [done|]. split; [done|].
    apply machine_plaintext_iff in Hp. rewrite Hp. cbn [then_spec]. apply machine_plaintext_bytes in Hp.
    rewrite (proj2 (json_of_iff p payload Hp) Hj). cbn [then_spec]. by apply finish_spec_iff.
  - intros (cert & e & sig & Ho & Hs & Hk & Hf). destruct (tamga_base64_decode (Some (cert_sig cert))) as [sg|] eqn:Esg; [|done].
    injection Hs as ->. destruct (machine_plaintext_spec cert e license_key fingerprint) as [p|] eqn:Ep; [|done].
    cbn [then_spec] in Hf. destruct (json_of p) as [payload|] eqn:Ej; [|done]. cbn [then_spec] in Hf.
    pose proof (machine_plaintext_bytes _ _ _ _ _ Ep) as Hok. apply json_of_iff in Ej; [|done].
    exists cert, e, sig, p, payload. split; [by eapply machine_open_iff|]. split; [done|]. split; [done|].
    split; [by apply machine_plaintext_iff|]. split; [done|]. by apply finish_spec_iff.
Qed.

Section Theorems.
Context {malloc : Malloc} {suite : Suite}.

(** What each scheme is called in alg, and the verifier that decides it. *)
Inductive signed_by (pubkey message signature : bytes) : Z -> bytes -> Prop :=
| signed_ed25519 :
    length pubkey = 32%nat -> length signature = 64%nat -> tamga_ed25519_verify pubkey message signature = true ->
    signed_by pubkey message signature TAMGA_SCHEME_ED25519_SIGN (bstr "ed25519")
| signed_pkcs1 :
    tamga_rsa_verify_pkcs1_sha256 pubkey message signature = true ->
    signed_by pubkey message signature TAMGA_SCHEME_RSA_2048_PKCS1_SIGN (bstr "rsa-sha256")
| signed_pss :
    tamga_rsa_verify_pss_sha256 pubkey message signature = true ->
    signed_by pubkey message signature TAMGA_SCHEME_RSA_2048_PKCS1_PSS_SIGN (bstr "rsa-pss-sha256")
| signed_ecdsa :
    tamga_ecdsa_p256_verify pubkey message signature = true ->
    signed_by pubkey message signature TAMGA_SCHEME_ECDSA_P256_SIGN (bstr "ecdsa-p256").

Lemma signed_by_suffix pubkey message signature scheme suffix :
  signed_by pubkey message signature scheme suffix -> tamga_machine_alg_suffix scheme = Some suffix.
Proof. by intros []. Qed.

Lemma check_signature_iff pubkey message signature scheme suffix :
  tamga_machine_alg_suffix scheme = Some suffix ->
  tamga_machine_check_signature scheme pubkey message signature = true <-> signed_by pubkey message signature scheme suffix.
Proof.
  intros Hsuf. unfold tamga_machine_check_signature. change TAMGA_ED25519_PUBKEY_LEN with 32%nat. change TAMGA_ED25519_SIG_LEN with 64%nat. split.
  - unfold tamga_machine_alg_suffix in Hsuf. destruct (Z.eqb_spec scheme TAMGA_SCHEME_ED25519_SIGN) as [->|]; [injection Hsuf as <-|].
    { destruct (Nat.eqb_spec (length pubkey) 32), (Nat.eqb_spec (length signature) 64); try done. by apply signed_ed25519. }
    destruct (Z.eqb_spec scheme TAMGA_SCHEME_RSA_2048_PKCS1_SIGN) as [->|]; [injection Hsuf as <-; by apply signed_pkcs1|].
    destruct (Z.eqb_spec scheme TAMGA_SCHEME_RSA_2048_PKCS1_PSS_SIGN) as [->|]; [injection Hsuf as <-; by apply signed_pss|].
    destruct (Z.eqb_spec scheme TAMGA_SCHEME_ECDSA_P256_SIGN) as [->|]; [injection Hsuf as <-; by apply signed_ecdsa|done].
  - intros [Hp Hs Hv|Hv|Hv|Hv]; [rewrite Hp, Hs|..]; exact Hv.
Qed.

Lemma machine_verify_accepts pem scheme pubkey license_key fingerprint now s resource claims :
  let r := (tamga_machine_file_verify_at (Some pem) scheme (Some pubkey) license_key fingerprint now s).1 in
  let authentic := 0 < zlen pubkey <= TAMGA_MAX_REASONABLE_LEN /\
    exists suffix, machine_accepts (fun enc signature => signed_by pubkey enc signature scheme suffix)
      suffix pem license_key fingerprint now resource claims in
  (r = inl (resource, claims) -> authentic) /\ (ample -> authentic -> r = inl (resource, claims)).
Proof.
  intros r authentic. destruct (machine_verify_post pem scheme pubkey license_key fingerprint now s) as [Ha Hs].
  fold r in Ha, Hs. unfold authentic. unfold machine_single_spec in *. split.
  - intros Hr. specialize (Hs _ Hr). case_decide; [|done]. split; [done|]. unfold then_spec in Hs.
    destruct (tamga_machine_alg_suffix scheme) as [suffix|] eqn:Hsuf; [|unfold machine_open_spec in Hs; by rewrite Hsuf in Hs].
    exists suffix. apply (machine_accepts_iff _ scheme); [done|].
    destruct (machine_open_spec pem scheme) as [[cert e]|]; [|done]. destruct (sig_spec cert) as [sig|] eqn:Es; [|done].
    destruct (tamga_machine_check_signature _ _ _ _) eqn:Ev; [|done]. exists cert, e, sig. by apply (check_signature_iff _ _ _ _ suffix) in Ev.
  - intros Hamp (Hsz & suffix & Hacc). rewrite (Ha Hamp), decide_True by done.
    assert (tamga_machine_alg_suffix scheme = Some suffix) as Hsuf by (destruct Hacc as (? & ? & ? & ? & ? & _ & _ & Hv & _); by eapply signed_by_suffix).
    apply (machine_accepts_iff _ scheme) in Hacc as (cert & e & sig & Ho & Hsg & Hv & Hf); [|done]. apply check_signature_iff in Hv; [|done].
    rewrite Ho. cbn [then_spec]. rewrite Hsg. cbn [then_spec]. by rewrite Hv.
Qed.

(** (C6) A machine file verified with one key. Whatever the allocator does, a
    result is only returned for a file whose alg names the caller's scheme (one
    of the four) and format v2, whose signature over the text of enc the
    verifier of that scheme accepts, whose payload decodes or decrypts under the
    licence key and the fingerprint, and whose claims are current. With memory,
    every such file is accepted. *)
Theorem machine_verify_exact pem scheme pubkey license_key fingerprint now s resource claims :
  let r := (tamga_machine_file_verify_at (Some pem) scheme (Some pubkey) license_key fingerprint now s).1 in
  let authentic := 0 < zlen pubkey <= TAMGA_MAX_REASONABLE_LEN /\
    exists suffix, machine_accepts (fun enc signature => signed_by pubkey enc signature scheme suffix)
      suffix pem license_key fingerprint now resource claims in
  (r = inl (resource, claims) -> authentic) /\ (ample -> authentic -> r = inl (resource, claims)).
Proof. exact (machine_verify_accepts pem scheme pubkey license_key fingerprint now s resource claims). Qed.

(** (C8) A machine file verified with a key set. Only an Ed25519 file can be
    accepted, and exactly when one of the held keys signed it: asking for any
    other scheme is refused by name, before the file is read. *)
Theorem machine_verify_with_key_set_exact pem scheme set license_key fingerprint now s resource claims :
  let r := (tamga_machine_file_verify_at_with_key_set (Some pem) scheme (Some set) license_key fingerprint now s).1 in
  let authentic := machine_accepts (set_trusts set) (bstr "ed25519") pem license_key fingerprint now resource claims in
  (r = inl (resource, claims) -> scheme = TAMGA_SCHEME_ED25519_SIGN /\ authentic) /\
  (ample -> scheme = TAMGA_SCHEME_ED25519_SIGN -> authentic -> r = inl (resource, claims)) /\
  (scheme <> TAMGA_SCHEME_ED25519_SIGN ->
   r = inr (if tamga_machine_alg_suffix scheme is Some _ then TAMGA_ERR_KEY_ID_NOT_APPLICABLE else TAMGA_ERR_UNSUPPORTED_SCHEME)).
Proof.
  intros r authentic. destruct (Z.eqb_spec scheme TAMGA_SCHEME_ED25519_SIGN) as [->|Hne].
  2:{ assert (r = inr (if tamga_machine_alg_suffix scheme is Some _ then TAMGA_ERR_KEY_ID_NOT_APPLICABLE else TAMGA_ERR_UNSUPPORTED_SCHEME)) as Hr.
      { subst r. unfold tamga_machine_file_verify_at_with_key_set. destruct (Z.eqb_spec scheme TAMGA_SCHEME_ED25519_SIGN); [done|].
        cbn [negb]. by destruct (tamga_machine_alg_suffix scheme). }
      rewrite Hr. split_and!; done. }
  destruct (machine_set_post pem set license_key fingerprint now s) as [Hs Ha]. fold r in Hs, Ha.
  unfold authentic. rewrite (machine_accepts_iff _ TAMGA_SCHEME_ED25519_SIGN) by done. split_and!.
  - intros Hr. split; [done|]. destruct (Hs _ Hr) as (cert & e & sig & (Ho & Hsg)%machine_signed_inl & Ht & Hf). by exists cert, e, sig.
  - intros Hamp _ (cert & e & sig & Ho & Hsg & Ht & Hf).
    destruct (Ha Hamp cert e sig) as [Hacc _]; [by apply machine_signed_inl|]. by rewrite (Hacc Ht).
  - done.
Qed.

(** What a key-set caller learns from a machine file no held key signed:
    an error, and memory permitting the label the payload's kid decides. *)
Theorem machine_unverified_label pem set license_key fingerprint now s cert encrypted signature :
  machine_certificate pem (bstr "ed25519") cert encrypted ->
  tamga_base64_decode (Some (cert_sig cert)) = Some signature ->
  ~ set_trusts set (cert_enc cert) signature ->
  exists code, (tamga_machine_file_verify_at_with_key_set (Some pem) TAMGA_SCHEME_ED25519_SIGN (Some set)
                  license_key fingerprint now s).1 = inr code /\
    (ample -> label set (machine_probe_spec cert encrypted license_key fingerprint) code).
Proof.
  intros Hc Hs Hno. destruct (machine_set_post pem set license_key fingerprint now s) as [Hacc Ha].
  assert (machine_signed_spec pem = inl (cert, encrypted, signature)) as Hsig.
  { apply machine_signed_inl. split; [by eapply machine_open_iff|]. unfold sig_spec. by rewrite Hs. }
  destruct (_.1) as [x|code].
  - exfalso. destruct (Hacc _ eq_refl) as (c & e & sg & Hx & Ht & _). rewrite Hsig in Hx. injection Hx as <- <- <-. done.
  - exists code. split; [done|]. intros Hamp. destruct (Ha Hamp _ _ _ Hsig) as [_ Hl]. destruct (Hl Hno) as (code' & [= ->] & Hlab). done.
Qed.
End Theorems.

(** ** Concrete files *)

Definition demo_machine (suffix key enc : bytes) (encrypted : bool) : bytes :=
  let json := bstr "{" ++ field (bstr "enc") (quoted enc) ++ bstr "," ++
              field (bstr "sig") (quoted (tamga_base64_encode (Some (tamga_sha512 (Some (key ++ enc)))))) ++
              bstr "," ++ field (bstr "alg") (quoted (machine_alg suffix encrypted)) ++ bstr "}" in
  TAMGA_MACHINE_PEM_BEGIN ++ [10] ++ tamga_base64_encode (Some json) ++ [10] ++ TAMGA_MACHINE_PEM_END ++ [10].

(** The demonstration payload, sealed for a licence key and a fingerprint. *)
Definition demo_sealed : bytes :=
  let nonce := replicate 12 3 in
  tamga_base64_encode (Some nonce) ++ bstr "." ++
  tamga_base64_encode (tamga_gcm_seal (machine_aes_key (bstr "LIC") (bstr "FP")) nonce (At []) demo_payload).

Lemma machine_verify_exact_witness :
  exists suffix, machine_accepts (fun enc signature => signed_by (suite := hash_suite) [7] enc signature TAMGA_SCHEME_RSA_2048_PKCS1_PSS_SIGN suffix)
    suffix (demo_machine (bstr "rsa-pss-sha256") [7] demo_sealed true) (Some (bstr "LIC")) (Some (bstr "FP")) 1060
    demo_resource demo_claims.
Proof.
  apply (machine_verify_exact (malloc := full_memory) (suite := hash_suite) _ _ [7] _ _ _ (mk_st 0 None)).
  vm_compute. reflexivity.
Defined.

Lemma machine_verify_with_key_set_exact_witness :
  machine_accepts (set_trusts (suite := hash_suite) (mk_set [mk_entry (bstr "a") [1]; mk_entry (bstr "b") demo_key] 4)) (bstr "ed25519")
    (demo_machine (bstr "ed25519") demo_key demo_enc false) None None 1060 demo_resource demo_claims.
Proof.
  apply (machine_verify_with_key_set_exact (malloc := full_memory) (suite := hash_suite) _ TAMGA_SCHEME_ED25519_SIGN _ _ _ _ (mk_st 0 None)).
  vm_compute. reflexivity.
Defined.

Lemma machine_unverified_label_witness :
  exists code,
    (tamga_machine_file_verify_at_with_key_set (malloc := full_memory) (suite := hash_suite)
       (Some (demo_machine (bstr "ed25519") demo_key demo_enc false)) TAMGA_SCHEME_ED25519_SIGN
       (Some (mk_set [mk_entry (bstr "k1") [1]] 4)) None None 1060 (mk_st 0 None)).1 = inr code /\
    (ample (malloc := full_memory) -> label (mk_set [mk_entry (bstr "k1") [1]] 4)
       (machine_probe_spec (mk_cert demo_enc (tamga_base64_encode (Some (demo_signature demo_key))) (machine_alg (bstr "ed25519") false))
          false None None) code).
Proof.
  apply (machine_unverified_label (malloc := full_memory) (suite := hash_suite) _ _ _ _ _ _ _ _ (demo_signature demo_key)).
  - apply (machine_open_iff _ TAMGA_SCHEME_ED25519_SIGN); [reflexivity|]. vm_compute. reflexivity.
  - vm_compute. reflexivity.
  - intros [_ (e & He & Hv)]. apply list_elem_of_singleton in He as ->. vm_compute in Hv. discriminate Hv.
Defined.
