(* ===== verification/MachineProof.v ===== *)
(** * Offline machine proofs: [src/src/proof.c]

    A proof is an RSA signature over a JSON document built from the caller's
    own values. The arguments are C strings ([None]: a null pointer); the public
    key is the span of [rsa_pubkey_len] bytes. The out pointer is there: what is
    stored through it is the value returned. *)

From Stdlib Require Import String.
From S2P Require Import Prelude World Buf Hex Base64 Json JsonParse JsonGrammar JsonWrite JsonPrint JsonRoundtrip JsonSmall.
From S2P Require Import Status JsonBuild Cert Suite.
From stdpp Require Import list.
#[local] Open Scope Z_scope.

Definition TAMGA_PROOF_PREFIX : bytes := bstr "v1x0.".

Section Ops.
Context {malloc : Malloc} {suite : Suite}.

(** The part of [tamga_proof_build_payload] that assembles and writes the
    document once the dataset is parsed. *)
Definition proof_build_tree (account_canonical machine_canonical fingerprint : bytes) (dataset : json) : M (status bytes) :=
  let oom := err TAMGA_ERR_OUT_OF_MEMORY (bstr "could not build the proof payload") in
  let! root := tamga_json_new_object in
  let! account := tamga_json_new_object in
  let! machine := tamga_json_new_object in
  match root, account, machine with
  | Some root, Some account, Some machine =>
      let! id := tamga_json_new_string (Some account_canonical) in
      let! account := tamga_json_object_set (Some account) (Some (bstr "id")) id in
      if account is None then oom else
      let! id := tamga_json_new_string (Some machine_canonical) in
      let! machine := tamga_json_object_set (Some machine) (Some (bstr "id")) id in
      if machine is None then oom else
      let! fp := tamga_json_new_string (Some fingerprint) in
      let! machine := tamga_json_object_set machine (Some (bstr "fingerprint")) fp in
      if machine is None then oom else
      let! root := tamga_json_object_set (Some root) (Some (bstr "account")) account in
      if root is None then oom else
      let! root := tamga_json_object_set root (Some (bstr "machine")) machine in
      if root is None then oom else
      let! root := tamga_json_object_set root (Some (bstr "dataset")) (Some dataset) in
      if root is None then oom else
      let! payload := tamga_json_write_canonical root in
      match payload with
      | None => err TAMGA_ERR_OUT_OF_MEMORY (bstr "could not serialise the proof payload")
      | Some payload => ret (inl payload)
      end
  | _, _, _ => oom
  end.

Definition tamga_proof_build_payload (account_id machine_id fingerprint dataset_json : bytes) : M (status bytes) :=
  match tamga_uuid_normalize (Some (c_view account_id)) with
  | None => err TAMGA_ERR_INVALID_JSON (bstr "the account id is not a valid UUID")
  | Some account_canonical =>
  match tamga_uuid_normalize (Some (c_view machine_id)) with
  | None => err TAMGA_ERR_INVALID_JSON (bstr "the machine id is not a valid UUID")
  | Some machine_canonical =>
      let! dataset := tamga_json_parse (Some (c_view dataset_json)) in
      match dataset with
      | inr parse_error =>
          if tamga_json_error_is_out_of_memory (Some parse_error)
          then err TAMGA_ERR_OUT_OF_MEMORY (bstr "could not parse the dataset")
          else err TAMGA_ERR_INVALID_JSON (bstr "the dataset is not valid JSON: " ++ json_error_text parse_error)
      | inl dataset =>
          if negb (bool_decide (tamga_json_type (Some dataset) = TAMGA_JSON_OBJECT)) then
            err TAMGA_ERR_INVALID_JSON (bstr "the dataset must be a JSON object")
          else
            proof_build_tree account_canonical machine_canonical (c_view fingerprint) dataset
      end
  end
  end.

(** [*out_valid] on [TAMGA_OK]. *)
Definition tamga_proof_verify (proof rsa_pubkey account_id machine_id fingerprint dataset_json : option bytes)
  : M (status bool) :=
  match proof, rsa_pubkey, account_id, machine_id, fingerprint, dataset_json with
  | Some proof, Some rsa_pubkey, Some account_id, Some machine_id, Some fingerprint, Some dataset_json =>
      if (zlen rsa_pubkey =? 0) || (zlen rsa_pubkey >? TAMGA_MAX_REASONABLE_LEN) then
        err TAMGA_ERR_LENGTH_INVALID (bstr "public key length is zero or exceeds the accepted maximum")
      else
        let? payload := tamga_proof_build_payload account_id machine_id fingerprint dataset_json in
        let proof := c_view proof in
        let prefix_len := length TAMGA_PROOF_PREFIX in
        if (length proof <=? prefix_len)%nat || negb (beq (take prefix_len proof) TAMGA_PROOF_PREFIX) then ret (inl false)
        else
          let! signature := tamga_base64_decode_alloc_why (Some (drop prefix_len proof)) in
          match signature with
          | inl TAMGA_BASE64_FAILURE_OUT_OF_MEMORY =>
              err TAMGA_ERR_OUT_OF_MEMORY (bstr "could not decode the proof signature")
          | inl _ => ret (inl false)
          | inr signature => ret (inl (tamga_rsa_verify_pkcs1_sha256 rsa_pubkey payload signature))
          end
  | _, _, _, _, _, _ => err TAMGA_ERR_NULL_ARGUMENT (bstr "a required argument was null")
  end.
End Ops.

(** ** What is signed *)

Definition proof_tree (account machine fingerprint : bytes) (dataset : json) : json :=
  JObject [(bstr "account", JObject [(bstr "id", JString account)]);
           (bstr "machine", JObject [(bstr "id", JString machine); (bstr "fingerprint", JString fingerprint)]);
           (bstr "dataset", dataset)].

(** The document of [proof.h]: dataset before machine, fingerprint before id. *)
Definition proof_text (account machine fingerprint : bytes) (dataset : json) : bytes :=
  let key k := quoted (bstr k) ++ bstr ":" in
  bstr "{" ++ key "account"%string ++ bstr "{" ++ key "id"%string ++ quoted account ++ bstr "}," ++
  key "dataset"%string ++ print true dataset ++ bstr "," ++
  key "machine"%string ++ bstr "{" ++ key "fingerprint"%string ++ quoted fingerprint ++ bstr "," ++
  key "id"%string ++ quoted machine ++ bstr "}}".

Lemma print_proof_tree account machine fingerprint dataset :
  print true (proof_tree account machine fingerprint dataset) = proof_text account machine fingerprint dataset.
Proof.
  unfold proof_text, proof_tree. cbn [print map fst snd].
  change (arrange true [(bstr "id", ?a); (bstr "fingerprint", ?b)]) with [(bstr "fingerprint", b); (bstr "id", a)].
  change (arrange true [(bstr "account", ?a); (bstr "machine", ?b); (bstr "dataset", ?c)])
    with [(bstr "account", a); (bstr "dataset", c); (bstr "machine", b)].
  change (arrange true [?a]) with [a]. cbn [map comma_join]. unfold member_text. cbn [fst snd].
  rewrite !(c_view_id _) by (by apply memchr_None). simpl. rewrite <- !app_assoc. simpl.
  repeat (f_equal; rewrite <- ?app_assoc; simpl).
Qed.

(** [text] spells a UUID, in one of the four forms and any letter case, whose
    lower-case hyphenated text is [canonical]. *)
Definition spells_uuid (text canonical : bytes) : Prop :=
  exists u, uuid_ok u /\ In (map ascii_lower text) (uuid_spellings u) /\ canonical = uuid_hyphenated u.

Lemma normalize_spells text canonical :
  tamga_uuid_normalize (Some text) = Some canonical <-> spells_uuid text canonical.
Proof.
  split.
  - intros (u & Hu & Hin & Hc & _)%uuid_normalize_canonical. by exists u.
  - intros (u & Hu & Hin & ->). unfold tamga_uuid_normalize. rewrite (proj2 (uuid_parse_iff text u)) by done.
    cbn [mbind option_bind]. by rewrite uuid_format_hyphenated by apply Hu.
Qed.

(** [payload] is the document the caller's values describe. *)
Definition proof_payload (account_id machine_id fingerprint dataset_json payload : bytes) : Prop :=
  exists account machine ms,
    spells_uuid (c_view account_id) account /\ spells_uuid (c_view machine_id) machine /\
    jtext (JObject ms) (c_view dataset_json) /\
    payload = proof_text account machine (c_view fingerprint) (JObject ms).

(** ** Building the payload *)

Section Build.
Context {malloc : Malloc} {suite : Suite}.

(** Why a call whose arguments are there is refused as invalid: an id is not a
    UUID, or the parser, run in the state the call starts in, refuses the
    dataset for another reason than memory or returns no object. *)
Definition payload_refused (account_id machine_id dataset_json : bytes) (s : st) : Prop :=
  let parsed := (tamga_json_parse (Some (c_view dataset_json)) s).1 in
  (forall c, ~ spells_uuid (c_view account_id) c) \/ (forall c, ~ spells_uuid (c_view machine_id) c) \/
  (exists m, parsed = inr (json_message m)) \/ (exists j, parsed = inl j /\ forall ms, j <> JObject ms).

(** What building the payload settles: the document, a refusal, or a lack of
    memory; [P] bounds the sizes. *)
Definition settles (P : Prop) (document : bytes -> Prop) (refused : Prop) (r : status bytes) : Prop :=
  (exists payload, document payload /\ r = inl payload) \/
  (r = inr TAMGA_ERR_INVALID_JSON /\ refused) \/
  (r = inr TAMGA_ERR_OUT_OF_MEMORY /\ ~ (ample /\ P)).

Lemma settles_oom P document refused text :
  ~ (ample /\ P) -> post (err TAMGA_ERR_OUT_OF_MEMORY text) (settles P document refused).
Proof. intros H. apply post_err. right. by right. Qed.

Lemma settles_err P document (refused : Prop) text :
  refused -> post (err TAMGA_ERR_INVALID_JSON text) (settles P document refused).
Proof. intros H. apply post_err. right. by left. Qed.

Lemma proof_text_long account machine fingerprint dataset :
  zlen account + zlen machine + zlen fingerprint <= zlen (proof_text account machine fingerprint dataset).
Proof.
  pose proof (escape_long account). pose proof (escape_long machine). pose proof (escape_long fingerprint).
  unfold proof_text, quoted. cbv zeta. rewrite !length_app. cbn [length]. rewrite !length_app. lia.
Qed.

(** The documents the payload is made of are small when the payload is. *)
Definition payload_small (account_id machine_id fingerprint dataset_json : bytes) : Prop :=
  forall payload, proof_payload account_id machine_id fingerprint dataset_json payload ->
    zlen payload <= TAMGA_MAX_REASONABLE_LEN.

Lemma proof_tree_bytes account machine fingerprint dataset :
  bytes_ok account -> bytes_ok machine -> bytes_ok fingerprint -> json_bytes dataset ->
  json_bytes (proof_tree account machine fingerprint dataset).
Proof.
  intros Ha Hm Hf Hd. unfold proof_tree.
  repeat first [apply jb_object | apply Forall_nil_2 | apply Forall_cons; split | split | by apply jb_leaf | done];
    cbn [fst]; by apply Forall_forall; intros c Hc; apply list_elem_of_In in Hc;
    repeat (destruct Hc as [<-|Hc]; [done|]).
Qed.

(** Takes the next node of the tree; without it, every path ends with the
    out-of-memory error. *)
Ltac next_node lem :=
  eapply got_bind; [lem|cbv beta match|
    intros Hno; cbv beta match;
    repeat first [by apply settles_oom | eapply (post_bind _ _ (fun _ => True)); [by intros ?|intros [] _]]].

(** The document is built from its parts, in any state. *)
Lemma build_tree_post a m fingerprint ms (P refused : Prop) :
  bytes_ok a -> bytes_ok m -> bytes_ok fingerprint -> json_bytes (JObject ms) ->
  (P -> zlen (proof_text a m fingerprint (JObject ms)) <= TAMGA_MAX_REASONABLE_LEN) ->
  post (proof_build_tree a m fingerprint (JObject ms))
    (settles P (eq (proof_text a m fingerprint (JObject ms))) refused).
Proof.
  intros Ha Hm Hfp Hjb HP. unfold proof_build_tree. set (text := proof_text a m fingerprint (JObject ms)) in *.
  pose proof (proof_text_long a m fingerprint (JObject ms)) as Hlong. fold text in Hlong.
  do 3 (next_node ltac:(apply new_object_got)).
  next_node ltac:(apply new_string_got; intros ?%HP; lia).
  next_node fresh_key. cbn [app].
  next_node ltac:(apply new_string_got; intros ?%HP; lia).
  next_node fresh_key. cbn [app].
  next_node ltac:(apply new_string_got; intros ?%HP; lia).
  next_node fresh_key. cbn [app].
  next_node fresh_key. cbn [app].
  next_node fresh_key. cbn [app].
  next_node fresh_key. cbn [app].
  fold (proof_tree a m fingerprint (JObject ms)). subst text. rewrite <- print_proof_tree in *.
  eapply post_bind; [by apply (write_got true), proof_tree_bytes|]. intros r [->|[-> Hno]].
  - apply post_ret. left. eauto.
  - apply settles_oom. tauto.
Qed.

Lemma build_payload_post account_id machine_id fingerprint dataset_json s :
  bytes_ok fingerprint -> bytes_ok dataset_json ->
  settles (payload_small account_id machine_id fingerprint dataset_json)
    (proof_payload account_id machine_id fingerprint dataset_json)
    (payload_refused account_id machine_id dataset_json s)
    (tamga_proof_build_payload account_id machine_id fingerprint dataset_json s).1.
Proof.
  intros Hfp%c_view_bytes Hds%c_view_bytes. unfold tamga_proof_build_payload.
  destruct (tamga_uuid_normalize (Some (c_view account_id))) as [a|] eqn:Ea.
  2:{ apply settles_err. left. intros c Hc%normalize_spells. congruence. }
  destruct (tamga_uuid_normalize (Some (c_view machine_id))) as [m|] eqn:Em.
  2:{ apply settles_err. right. left. intros c Hc%normalize_spells. congruence. }
  pose proof (uuid_normalize_bytes _ _ Ea) as Ha. pose proof (uuid_normalize_bytes _ _ Em) as Hm.
  apply normalize_spells in Ea, Em. pose proof (parse_post _ Hds s) as Hj. unfold payload_refused, bind at 1.
  destruct (tamga_json_parse (Some (c_view dataset_json)) s) as [[j|e] s1]; cbn [fst] in *.
  2:{ destruct e as [|msg]; cbn [tamga_json_error_is_out_of_memory].
      - apply settles_oom. intros [Hamp _]. by destruct (Hj Hamp).
      - apply settles_err. eauto 6. }
  destruct j as [| | | | | |ms]; try (apply settles_err; do 3 right; eexists; split; [done|congruence]).
  rewrite bool_decide_true by done. cbn [negb]. apply json_of_iff in Hj; [|done].
  assert (proof_payload account_id machine_id fingerprint dataset_json (proof_text a m (c_view fingerprint) (JObject ms))) as Hp
    by (by exists a, m, ms).
  eapply post_mono; [apply (build_tree_post a m (c_view fingerprint) ms
    (payload_small account_id machine_id fingerprint dataset_json)); [done..|by eapply jtext_bytes|auto]|].
  intros r [(p & <- & ->)|[H|H]]; [left; eauto|right; by left|right; by right].
Qed.
End Build.

(** ** The answer *)

(** [proof] carries a signature of [payload] under the RSA key. *)
Definition proof_holds `{Suite} (rsa_pubkey payload proof : bytes) : Prop :=
  exists b64 signature, c_view proof = bstr "v1x0." ++ b64 /\ b64 <> [] /\
    tamga_base64_decode (Some b64) = Some signature /\
    tamga_rsa_verify_pkcs1_sha256 rsa_pubkey payload signature = true.

(** The prefix test finds exactly the strings that continue the prefix. *)
Lemma proof_prefix_spec (p : bytes) :
  (length p <=? length TAMGA_PROOF_PREFIX)%nat || negb (beq (take (length TAMGA_PROOF_PREFIX) p) TAMGA_PROOF_PREFIX) = false <->
  exists b64, p = TAMGA_PROOF_PREFIX ++ b64 /\ b64 <> [].
Proof.
  rewrite orb_false_iff, negb_false_iff, beq_eq, Nat.leb_gt. split.
  - intros [Hl Ht]. exists (drop (length TAMGA_PROOF_PREFIX) p). rewrite <- Ht at 1. rewrite take_drop. split; [done|].
    intros E. apply (f_equal length) in E. rewrite length_drop in E. simpl in *. lia.
  - intros (b64 & -> & Hne). rewrite length_app, take_app_length. destruct b64; [done|]. simpl. split; [lia|done].
Qed.

Section Theorems.
Context {malloc : Malloc} {suite : Suite}.

(** Decoding a text of any size a C string can have. *)
Lemma decode_alloc_any l :
  zlen l + 3 <= SIZE_MAX ->
  post (tamga_base64_decode_alloc_why (Some l)) (fun r =>
    match r with
    | inr d => tamga_base64_decode (Some l) = Some d
    | inl TAMGA_BASE64_FAILURE_OUT_OF_MEMORY => ~ (ample /\ zlen l <= TAMGA_MAX_REASONABLE_LEN)
    | inl _ => tamga_base64_decode (Some l) = None
    end).
Proof.
  intros Hl. destruct (Z.le_gt_cases (zlen l) TAMGA_MAX_REASONABLE_LEN) as [Hs|Hb].
  { eapply post_mono; [by apply decode_alloc_post|]. intros [[]|d]; tauto. }
  intros s. unfold tamga_base64_decode_alloc_why.
  destruct (tamga_base64_decoded_cap (zlen l)) as [cap|] eqn:Hc.
  2:{ exfalso. unfold tamga_base64_decoded_cap in Hc.
      rewrite (proj2 (checked_add_Some (zlen l) 3 _)) in Hc by done. cbn in Hc.
      rewrite (proj2 (checked_mul_Some ((zlen l + 3) / 4) 3 ((zlen l + 3) / 4 * 3) ltac:(zdm) ltac:(lia))) in Hc; [done|].
      split; [done|]. unfold SIZE_MAX in *. zdm. }
  unfold bind. destruct (tamga_malloc cap s) as [[] s1]; cbn [ret fst]; [|lia].
  by destruct (tamga_base64_decode (Some l)) eqn:E.
Qed.

Lemma try_run {A B} (m : M (status A)) (k : A -> M (status B)) s :
  try m k s = let '(r, s1) := m s in match r with inl a => k a s1 | inr code => (inr code, s1) end.
Proof. unfold try, bind, ret. destruct (m s) as [[] s1]; done. Qed.

(** The answer about the proof string, given the payload. *)
Definition answers (rsa_pubkey payload proof : bytes) (r : status bool) : Prop :=
  (r = inl true /\ proof_holds rsa_pubkey payload proof) \/ (r = inl false /\ ~ proof_holds rsa_pubkey payload proof).

Lemma proof_tail_post rsa_pubkey payload proof :
  zlen (c_view proof) + 3 <= SIZE_MAX ->
  post (if (length (c_view proof) <=? length TAMGA_PROOF_PREFIX)%nat ||
           negb (beq (take (length TAMGA_PROOF_PREFIX) (c_view proof)) TAMGA_PROOF_PREFIX) then ret (inl false)
        else
          let! signature := tamga_base64_decode_alloc_why (Some (drop (length TAMGA_PROOF_PREFIX) (c_view proof))) in
          match signature with
          | inl TAMGA_BASE64_FAILURE_OUT_OF_MEMORY =>
              err TAMGA_ERR_OUT_OF_MEMORY (bstr "could not decode the proof signature")
          | inl _ => ret (inl false)
          | inr signature => ret (inl (tamga_rsa_verify_pkcs1_sha256 rsa_pubkey payload signature))
          end)
    (fun r => answers rsa_pubkey payload proof r \/
       r = inr TAMGA_ERR_OUT_OF_MEMORY /\ ~ (ample /\ zlen (c_view proof) <= TAMGA_MAX_REASONABLE_LEN)).
Proof.
  intros Hlen. pose proof (proof_prefix_spec (c_view proof)) as Hp. destruct (_ || _) eqn:Ep.
  { apply post_ret. left. right. split; [done|]. intros (b & sig & Hb & Hne & _).
    assert (true = false); [|done]. apply Hp. eauto. }
  destruct (proj1 Hp eq_refl) as (b64 & Hb & Hne). unfold answers, proof_holds. rewrite Hb in *.
  rewrite length_app in *. rewrite drop_app_length.
  assert (forall b', TAMGA_PROOF_PREFIX ++ b64 = bstr "v1x0." ++ b' -> b' = b64) as Hinj
    by (intros b' E; by apply app_inv_head in E).
  eapply post_bind; [apply decode_alloc_any; lia|]. intros [[]|sig] Hd.
  1-2: try (apply post_ret; left; right; split; [done|];
            intros (b' & sig & ->%Hinj & _ & Hd' & _); congruence).
  - apply post_err. right. split; [done|]. intros [Ha Hs]. apply Hd. split; [done|lia].
  - apply post_ret. left.
    destruct (tamga_rsa_verify_pkcs1_sha256 rsa_pubkey payload sig) eqn:Ev; [left|right]; (split; [done|]).
    + by exists b64, sig.
    + intros (b' & sig' & ->%Hinj & _ & Hd' & Hv). rewrite Hd in Hd'. injection Hd' as ->. congruence.
Qed.

Lemma payload_unique account_id machine_id fingerprint dataset_json p q :
  bytes_ok dataset_json ->
  proof_payload account_id machine_id fingerprint dataset_json p ->
  proof_payload account_id machine_id fingerprint dataset_json q -> p = q.
Proof.
  intros Hok%c_view_bytes (a & m & ms & Ha & Hm & Hj & ->) (a' & m' & ms' & Ha' & Hm' & Hj' & ->).
  apply normalize_spells in Ha, Hm, Ha', Hm'. apply json_of_iff in Hj, Hj'; [|done..]. congruence.
Qed.

(** A refusal, with memory, means that no document is described. *)
Lemma refused_no_payload account_id machine_id fingerprint dataset_json s payload :
  bytes_ok dataset_json -> ample -> payload_refused account_id machine_id dataset_json s ->
  ~ proof_payload account_id machine_id fingerprint dataset_json payload.
Proof.
  intros Hok%c_view_bytes Hamp Hr (a & m & ms & Ha & Hm & Hj & _). apply json_of_iff in Hj; [|done].
  pose proof (parse_post _ Hok s) as Hp.
  destruct Hr as [Hr|[Hr|[[msg Hr]|(j & Hr & Hno)]]]; [by eapply Hr|by eapply Hr| |]; rewrite Hr in Hp.
  - destruct (Hp Hamp). congruence.
  - rewrite Hj in Hp. injection Hp as <-. by eapply Hno.
Qed.

(** (C17) Verifying an offline machine proof, on every path and under any
    allocator. A null argument is refused as TAMGA_ERR_NULL_ARGUMENT, then a key
    that is empty or above 16 MiB as TAMGA_ERR_LENGTH_INVALID. Otherwise one of
    three things happens. The values describe a document, that of proof.h
    whatever the spelling of the two UUIDs and the member order of the dataset,
    and the answer is yes when the proof string carries a signature of exactly
    that document under the RSA key and no when it does not, malformed proofs
    included. Or the call is refused as TAMGA_ERR_INVALID_JSON: an id is no UUID,
    or the parser refused the dataset for another reason than memory or found no
    object; with memory, only when the values describe no document. Or it fails
    as TAMGA_ERR_OUT_OF_MEMORY: memory is short, or the document or the proof
    string is above 16 MiB. *)
Theorem proof_verify_exact proof rsa_pubkey account_id machine_id fingerprint dataset_json s :
  bytes_ok (default [] fingerprint) -> bytes_ok (default [] dataset_json) ->
  zlen (c_view (default [] proof)) + 3 <= SIZE_MAX ->
  let r := (tamga_proof_verify proof rsa_pubkey account_id machine_id fingerprint dataset_json s).1 in
  match proof, rsa_pubkey, account_id, machine_id, fingerprint, dataset_json with
  | Some proof, Some rsa_pubkey, Some account_id, Some machine_id, Some fingerprint, Some dataset_json =>
      if decide (0 < zlen rsa_pubkey <= TAMGA_MAX_REASONABLE_LEN) then
        let described := proof_payload account_id machine_id fingerprint dataset_json in
        let fits := forall payload, described payload ->
          zlen payload <= TAMGA_MAX_REASONABLE_LEN /\ zlen (c_view proof) <= TAMGA_MAX_REASONABLE_LEN in
        (exists payload, described payload /\
           ((r = inl true /\ proof_holds rsa_pubkey payload proof) \/
            (r = inl false /\ ~ proof_holds rsa_pubkey payload proof))) \/
        (r = inr TAMGA_ERR_INVALID_JSON /\ payload_refused account_id machine_id dataset_json s /\
           (ample -> forall payload, ~ described payload)) \/
        (r = inr TAMGA_ERR_OUT_OF_MEMORY /\ ~ (ample /\ fits))
      else r = inr TAMGA_ERR_LENGTH_INVALID
  | _, _, _, _, _, _ => r = inr TAMGA_ERR_NULL_ARGUMENT
  end.
Proof.
  destruct proof as [proof|], rsa_pubkey as [key|], account_id as [acc|], machine_id as [mach|],
    fingerprint as [fp|], dataset_json as [ds|]; cbn [default]; intros Hfp Hds Hlen; try exact (err_post _ _ _ s).
  unfold tamga_proof_verify. cbv zeta. case_decide as Hkey.
  2:{ replace (_ || _) with true by lia. exact (err_post _ _ _ s). }
  replace (_ || _) with false by lia. rewrite !try_run.
  pose proof (build_payload_post acc mach fp ds s Hfp Hds) as Hb.
  destruct (tamga_proof_build_payload acc mach fp ds s) as [b s1]; cbn [fst] in Hb.
  destruct Hb as [(p & Hp & ->)|[[-> Hr]|[-> Hno]]].
  - destruct (proof_tail_post key p proof Hlen s1) as [H|[-> H]]; [left; eauto|].
    right. right. split; [done|]. intros [Ha Hf]. apply H. split; [done|]. by apply (Hf p).
  - right. left. split_and!; [done..|]. intros Ha p. by eapply refused_no_payload.
  - right. right. split; [done|]. intros [Ha Hf]. apply Hno. split; [done|]. intros p Hp. by apply (Hf p).
Qed.
End Theorems.

(** A proof for a dataset with one member, under the evaluation suite. *)
Definition demo_uuid : bytes := bstr "00112233-4455-6677-8899-AABBCCDDEEFF".
Definition demo_document : bytes :=
  proof_text (map ascii_lower demo_uuid) (map ascii_lower demo_uuid) (bstr "FP") (JObject [(bstr "n", JInt 1)]).
Definition demo_proof : bytes :=
  TAMGA_PROOF_PREFIX ++ tamga_base64_encode (Some (Sha2.tamga_sha512 (Some ([7] ++ demo_document)))).

Lemma proof_verify_exact_witness :
  let ds := bstr "{ " ++ quoted (bstr "n") ++ bstr " : 1 }" in
  let run proof key := (tamga_proof_verify (malloc := full_memory) (suite := hash_suite) proof (Some key) (Some demo_uuid)
    (Some demo_uuid) (Some (bstr "FP")) (Some ds) (mk_st 0 None)).1 in
  (exists payload, proof_payload demo_uuid demo_uuid (bstr "FP") ds payload /\
     proof_holds (H := hash_suite) [7] payload demo_proof) /\
  run (Some demo_proof) [] = inr TAMGA_ERR_LENGTH_INVALID /\ run None [7] = inr TAMGA_ERR_NULL_ARGUMENT.
Proof.
  intros ds run.
  assert (bytes_ok (bstr "FP") /\ bytes_ok ds) as [Hfp Hds].
  { split; repeat (apply Forall_cons; split; [split; vm_compute; congruence|]); constructor. }
  assert (zlen (c_view demo_proof) + 3 <= SIZE_MAX) as Hlen by (vm_compute; congruence).
  assert (run (Some demo_proof) [7] = inl true) as Hr by (vm_compute; reflexivity).
  pose proof (fun proof key => proof_verify_exact (malloc := full_memory) (suite := hash_suite) proof (Some key)
    (Some demo_uuid) (Some demo_uuid) (Some (bstr "FP")) (Some ds) (mk_st 0 None) Hfp Hds) as H.
  split_and!.
  - specialize (H (Some demo_proof) [7] Hlen). cbv zeta in H. fold (run (Some demo_proof) [7]) in H. rewrite Hr in H.
    destruct (decide _) in H; [|discriminate H].
    clear Hr. destruct H as [(p & Hp & [[_ Hh]|[E _]])|[[E _]|[E _]]]; [|discriminate E..]. by exists p.
  - exact (H (Some demo_proof) [] Hlen).
  - apply (H None [7]). vm_compute. congruence.
Defined.
