(* ===== verification/Validation.v ===== *)
(** * Validation outcomes: [src/src/models/validation.c]

    The tables of the file, and the loops that search them. Wire strings are C
    strings. *)

From Stdlib Require Import String.
From S2P Require Import Prelude World.
From stdpp Require Import list.
#[local] Open Scope Z_scope.

Inductive TamgaValidationCode :=
| TAMGA_VALIDATION_VALID | TAMGA_VALIDATION_NOT_FOUND | TAMGA_VALIDATION_BANNED
| TAMGA_VALIDATION_SUSPENDED | TAMGA_VALIDATION_EXPIRED | TAMGA_VALIDATION_OVERDUE
| TAMGA_VALIDATION_ENTITLEMENTS_MISSING | TAMGA_VALIDATION_TOO_MANY_MACHINES | TAMGA_VALIDATION_TOO_MANY_CORES
| TAMGA_VALIDATION_TOO_MUCH_MEMORY | TAMGA_VALIDATION_TOO_MUCH_DISK | TAMGA_VALIDATION_TOO_MANY_PROCESSES
| TAMGA_VALIDATION_TOO_MANY_USERS | TAMGA_VALIDATION_HEARTBEAT_DEAD | TAMGA_VALIDATION_HEARTBEAT_NOT_STARTED
| TAMGA_VALIDATION_PRODUCT_SCOPE_MISMATCH | TAMGA_VALIDATION_POLICY_SCOPE_MISMATCH | TAMGA_VALIDATION_USER_SCOPE_MISMATCH
| TAMGA_VALIDATION_FINGERPRINT_SCOPE_MISMATCH | TAMGA_VALIDATION_COMPONENTS_SCOPE_MISMATCH | TAMGA_VALIDATION_CHECKSUM_SCOPE_MISMATCH
| TAMGA_VALIDATION_VERSION_SCOPE_MISMATCH | TAMGA_VALIDATION_ENVIRONMENT_SCOPE_MISMATCH | TAMGA_VALIDATION_TOO_MANY_USES
| TAMGA_VALIDATION_UNKNOWN.

#[export] Instance validation_code_eq_dec : EqDecision TamgaValidationCode.
Proof. solve_decision. Defined.

Definition TAMGA_VALIDATION_CODES : list (bytes * TamgaValidationCode) :=
  [(bstr "VALID", TAMGA_VALIDATION_VALID);
   (bstr "NOT_FOUND", TAMGA_VALIDATION_NOT_FOUND);
   (bstr "BANNED", TAMGA_VALIDATION_BANNED);
   (bstr "SUSPENDED", TAMGA_VALIDATION_SUSPENDED);
   (bstr "EXPIRED", TAMGA_VALIDATION_EXPIRED);
   (bstr "OVERDUE", TAMGA_VALIDATION_OVERDUE);
   (bstr "ENTITLEMENTS_MISSING", TAMGA_VALIDATION_ENTITLEMENTS_MISSING);
   (bstr "TOO_MANY_MACHINES", TAMGA_VALIDATION_TOO_MANY_MACHINES);
   (bstr "TOO_MANY_CORES", TAMGA_VALIDATION_TOO_MANY_CORES);
   (bstr "TOO_MUCH_MEMORY", TAMGA_VALIDATION_TOO_MUCH_MEMORY);
   (bstr "TOO_MUCH_DISK", TAMGA_VALIDATION_TOO_MUCH_DISK);
   (bstr "TOO_MANY_PROCESSES", TAMGA_VALIDATION_TOO_MANY_PROCESSES);
   (bstr "TOO_MANY_USERS", TAMGA_VALIDATION_TOO_MANY_USERS);
   (bstr "HEARTBEAT_DEAD", TAMGA_VALIDATION_HEARTBEAT_DEAD);
   (bstr "HEARTBEAT_NOT_STARTED", TAMGA_VALIDATION_HEARTBEAT_NOT_STARTED);
   (bstr "PRODUCT_SCOPE_MISMATCH", TAMGA_VALIDATION_PRODUCT_SCOPE_MISMATCH);
   (bstr "POLICY_SCOPE_MISMATCH", TAMGA_VALIDATION_POLICY_SCOPE_MISMATCH);
   (bstr "USER_SCOPE_MISMATCH", TAMGA_VALIDATION_USER_SCOPE_MISMATCH);
   (bstr "FINGERPRINT_SCOPE_MISMATCH", TAMGA_VALIDATION_FINGERPRINT_SCOPE_MISMATCH);
   (bstr "COMPONENTS_SCOPE_MISMATCH", TAMGA_VALIDATION_COMPONENTS_SCOPE_MISMATCH);
   (bstr "CHECKSUM_SCOPE_MISMATCH", TAMGA_VALIDATION_CHECKSUM_SCOPE_MISMATCH);
   (bstr "VERSION_SCOPE_MISMATCH", TAMGA_VALIDATION_VERSION_SCOPE_MISMATCH);
   (bstr "ENVIRONMENT_SCOPE_MISMATCH", TAMGA_VALIDATION_ENVIRONMENT_SCOPE_MISMATCH);
   (bstr "TOO_MANY_USES", TAMGA_VALIDATION_TOO_MANY_USES)].

(** The loop with [strcmp]: the first entry of that name. *)
Fixpoint code_of_name (entries : list (bytes * TamgaValidationCode)) (code : bytes) : TamgaValidationCode :=
  match entries with
  | [] => TAMGA_VALIDATION_UNKNOWN
  | (name, c) :: entries' => if beq code name then c else code_of_name entries' code
  end.

Definition tamga_validation_code_parse (code : option bytes) : TamgaValidationCode :=
  match code with
  | None => TAMGA_VALIDATION_UNKNOWN
  | Some code => code_of_name TAMGA_VALIDATION_CODES (c_view code)
  end.

Fixpoint name_of_code (entries : list (bytes * TamgaValidationCode)) (code : TamgaValidationCode) : bytes :=
  match entries with
  | [] => bstr "UNKNOWN"
  | (name, c) :: entries' => if bool_decide (c = code) then name else name_of_code entries' code
  end.

Definition tamga_validation_code_name (code : TamgaValidationCode) : bytes :=
  name_of_code TAMGA_VALIDATION_CODES code.

Definition overage : list TamgaValidationCode :=
  [TAMGA_VALIDATION_TOO_MANY_MACHINES; TAMGA_VALIDATION_TOO_MANY_CORES; TAMGA_VALIDATION_TOO_MUCH_MEMORY;
   TAMGA_VALIDATION_TOO_MUCH_DISK; TAMGA_VALIDATION_TOO_MANY_PROCESSES].

Definition tamga_validation_code_is_overage (code : TamgaValidationCode) : bool :=
  existsb (fun c => bool_decide (c = code)) overage.

Definition LIMITS : list (TamgaErrorCode * TamgaValidationCode) :=
  [(TAMGA_ERR_MACHINE_LIMIT_EXCEEDED, TAMGA_VALIDATION_TOO_MANY_MACHINES);
   (TAMGA_ERR_CORE_LIMIT_EXCEEDED, TAMGA_VALIDATION_TOO_MANY_CORES);
   (TAMGA_ERR_MEMORY_LIMIT_EXCEEDED, TAMGA_VALIDATION_TOO_MUCH_MEMORY);
   (TAMGA_ERR_DISK_LIMIT_EXCEEDED, TAMGA_VALIDATION_TOO_MUCH_DISK);
   (TAMGA_ERR_TOO_MANY_PROCESSES, TAMGA_VALIDATION_TOO_MANY_PROCESSES)].

Fixpoint limit_of (entries : list (TamgaErrorCode * TamgaValidationCode)) (code : TamgaErrorCode) : TamgaValidationCode :=
  match entries with
  | [] => TAMGA_VALIDATION_UNKNOWN
  | (e, v) :: entries' => if bool_decide (e = code) then v else limit_of entries' code
  end.

Definition tamga_validation_code_from_error (code : TamgaErrorCode) : TamgaValidationCode := limit_of LIMITS code.

(** ** The vocabulary *)

Lemma code_of_name_in entries s :
  code_of_name entries s = TAMGA_VALIDATION_UNKNOWN \/ (s, code_of_name entries s) ∈ entries.
Proof.
  induction entries as [|[n c] entries IH]; simpl; [by left|]. destruct (beq s n) eqn:E.
  - apply beq_eq in E as ->. right. apply list_elem_of_here.
  - destruct IH; [by left|]. right. by apply list_elem_of_further.
Qed.

Lemma name_of_parsed : Forall (fun e => name_of_code TAMGA_VALIDATION_CODES e.2 = e.1) TAMGA_VALIDATION_CODES.
Proof. repeat constructor. Qed.

(** The wire vocabulary is a bijection between the 24 known strings and
    the known codes: a name parses to its code, and a string that parses to
    anything but UNKNOWN is that code's name. So no two outcomes are ever
    confused, a string of a newer server becomes UNKNOWN, and the two ways the
    server reports an exceeded limit fold onto exactly the overage outcomes. *)
Theorem validation_vocabulary (s : bytes) (c : TamgaValidationCode) (e : TamgaErrorCode) :
  (tamga_validation_code_parse (Some (tamga_validation_code_name c)) = c) /\
  (tamga_validation_code_parse (Some s) = c -> c <> TAMGA_VALIDATION_UNKNOWN -> c_view s = tamga_validation_code_name c) /\
  (tamga_validation_code_is_overage (tamga_validation_code_from_error e) = true <->
     tamga_validation_code_from_error e <> TAMGA_VALIDATION_UNKNOWN) /\
  (tamga_validation_code_is_overage c = true <-> exists e', e' <> TAMGA_OK /\ tamga_validation_code_from_error e' = c /\
     c <> TAMGA_VALIDATION_UNKNOWN).
Proof.
  split_and!.
  - by destruct c.
  - cbn [tamga_validation_code_parse]. intros <- Hne. destruct (code_of_name_in TAMGA_VALIDATION_CODES (c_view s)) as [|Hin]; [done|].
    pose proof name_of_parsed as Hf. rewrite Forall_forall in Hf. specialize (Hf _ Hin). cbn [fst snd] in Hf. by rewrite <- Hf at 1.
  - destruct e; by vm_compute.
  - split.
    + destruct c; try (by intros [=]); intros _; [exists TAMGA_ERR_MACHINE_LIMIT_EXCEEDED|exists TAMGA_ERR_CORE_LIMIT_EXCEEDED|
        exists TAMGA_ERR_MEMORY_LIMIT_EXCEEDED|exists TAMGA_ERR_DISK_LIMIT_EXCEEDED|exists TAMGA_ERR_TOO_MANY_PROCESSES]; done.
    + intros (e' & _ & <- & Hne). by destruct e'.
Qed.
