(* ===== verification/Octets.v ===== *)
(** * Octet strings as numbers

    The conversions of RFC 8017, section 4, that the specifications of the
    signature schemes are written with. *)

From S2P Require Import Prelude.
From stdpp Require Import list.
#[local] Open Scope Z_scope.

(** Big-endian value. *)
Definition os2ip (l : bytes) : Z := fold_left (fun n b => n * 2 ^ 8 + b) l 0.

(** The [len] low octets of a number, most significant first. *)
Definition i2osp (x : Z) (len : nat) : bytes := map (fun k => x / 2 ^ (8 * Z.of_nat (len - 1 - k)) mod 2 ^ 8) (seq 0 len).

Lemma os2ip_snoc l b : os2ip (l ++ [b]) = os2ip l * 2 ^ 8 + b.
Proof. unfold os2ip. by rewrite fold_left_app. Qed.

Lemma pow_8_S n : 2 ^ (8 * Z.of_nat (S n)) = 2 ^ (8 * Z.of_nat n) * 2 ^ 8.
Proof. rewrite <- Z.pow_add_r by lia. f_equal. lia. Qed.

Lemma pow_8_pos n : 0 < 2 ^ (8 * Z.of_nat n).
Proof. apply Z.pow_pos_nonneg; lia. Qed.

Lemma os2ip_bound l : bytes_ok l -> 0 <= os2ip l < 2 ^ (8 * zlen l).
Proof.
  induction l as [|b l IH] using rev_ind; intros Hok; [vm_compute; split; congruence|].
  apply Forall_app in Hok as [Hl Hb]. rewrite Forall_singleton in Hb. unfold is_byte in Hb.
  rewrite os2ip_snoc, length_app. cbn [length]. rewrite Nat.add_1_r, pow_8_S. specialize (IH Hl). lia.
Qed.

Lemma os2ip_app l1 l2 : os2ip (l1 ++ l2) = os2ip l1 * 2 ^ (8 * zlen l2) + os2ip l2.
Proof.
  induction l2 as [|b l2 IH] using rev_ind; [rewrite app_nil_r; change (zlen []) with 0; change (os2ip []) with 0; lia|].
  rewrite app_assoc, !os2ip_snoc, IH, length_app. cbn [length]. rewrite Nat.add_1_r, pow_8_S. lia.
Qed.

(** The octet [k] places from the end. *)
Lemma os2ip_nth l k :
  bytes_ok l -> (k < length l)%nat -> nth (length l - 1 - k) l 0 = os2ip l / 2 ^ (8 * Z.of_nat k) mod 2 ^ 8.
Proof.
  revert k. induction l as [|b l IH] using rev_ind; intros k Hok Hk; [simpl in Hk; lia|].
  apply Forall_app in Hok as [Hl Hb]. rewrite Forall_singleton in Hb. unfold is_byte in Hb.
  rewrite length_app in *. cbn [length] in *. rewrite os2ip_snoc. destruct k as [|k].
  - rewrite Nat.sub_0_r, Nat.add_sub, app_nth2, Nat.sub_diag by lia. cbn [nth].
    change (2 ^ (8 * Z.of_nat 0)) with 1. rewrite Z.div_1_r, Z.add_comm, Z_mod_plus_full, Z.mod_small; lia.
  - replace (length l + 1 - 1 - S k)%nat with (length l - 1 - k)%nat by lia. rewrite app_nth1 by lia.
    rewrite IH by (done || lia). rewrite pow_8_S, (Z.mul_comm (2 ^ (8 * Z.of_nat k))), <- Z.div_div by (pose proof (pow_8_pos k); lia).
    f_equal. f_equal. rewrite Z.div_add_l, (Z.div_small b) by lia. lia.
Qed.

Lemma i2osp_length x len : length (i2osp x len) = len.
Proof. unfold i2osp. by rewrite length_map, length_seq. Qed.

Lemma i2osp_bytes x len : bytes_ok (i2osp x len).
Proof. apply Forall_fmap, Forall_forall. intros k _. unfold is_byte. cbn. apply Z.mod_pos_bound. lia. Qed.

Lemma i2osp_os2ip l : bytes_ok l -> i2osp (os2ip l) (length l) = l.
Proof.
  intros Hok. apply (nth_ext _ _ 0 0); [apply i2osp_length|]. rewrite i2osp_length. intros k Hk. unfold i2osp.
  rewrite (nth_indep _ 0 ((fun k => os2ip l / 2 ^ (8 * Z.of_nat (length l - 1 - k)) mod 2 ^ 8) 0%nat)) by (rewrite length_map, length_seq; lia).
  rewrite (map_nth (fun k => os2ip l / 2 ^ (8 * Z.of_nat (length l - 1 - k)) mod 2 ^ 8)), seq_nth by lia. cbn [Nat.add].
  rewrite <- os2ip_nth by (done || lia). f_equal. lia.
Qed.

(** Octet strings of one length are the numbers below their bound. *)
Lemma os2ip_inj l1 l2 : bytes_ok l1 -> bytes_ok l2 -> length l1 = length l2 -> os2ip l1 = os2ip l2 -> l1 = l2.
Proof. intros H1 H2 Hl E. rewrite <- (i2osp_os2ip l1), <- (i2osp_os2ip l2) by done. by rewrite Hl, E. Qed.

Lemma os2ip_i2osp x len : os2ip (i2osp x len) = x mod 2 ^ (8 * Z.of_nat len).
Proof.
  revert x. induction len as [|n IH]; intros x; [by rewrite Z.mod_1_r|].
  assert (i2osp x (S n) = i2osp (x / 2 ^ 8) n ++ [x mod 2 ^ 8]) as ->.
  { unfold i2osp. rewrite seq_S, map_app. cbn [map]. f_equal.
    - apply map_ext_in. intros k [_ Hk]%in_seq. replace (S n - 1 - k)%nat with (S (n - 1 - k)) by lia.
      rewrite pow_8_S, (Z.mul_comm (2 ^ (8 * Z.of_nat (n - 1 - k)))), <- Z.div_div by (pose proof (pow_8_pos (n - 1 - k)); lia). done.
    - replace (S n - 1 - (0 + n))%nat with 0%nat by lia. change (2 ^ (8 * Z.of_nat 0)) with 1. by rewrite Z.div_1_r. }
  rewrite os2ip_snoc, IH, pow_8_S, (Z.mul_comm (2 ^ (8 * Z.of_nat n))). pose proof (pow_8_pos n).
  rewrite Z.rem_mul_r by lia. lia.
Qed.
