(* ===== verification/Der.v ===== *)
(** * The DER reader: [src/src/crypto/der.c]

    A reader is the bytes from [reader->pos] on: [tamga_der_init] starts it at
    the whole span (empty when the pointer is null) and [reader->len -
    reader->pos] is its length. A failed read ends every caller, so the reader
    it leaves behind is not kept. *)

From Stdlib Require Import String.
From S2P Require Import Prelude.
From stdpp Require Import list.
#[local] Open Scope Z_scope.

Definition TAMGA_DER_INTEGER : Z := 0x02.
Definition TAMGA_DER_BIT_STRING : Z := 0x03.
Definition TAMGA_DER_OCTET_STRING : Z := 0x04.
Definition TAMGA_DER_NULL : Z := 0x05.
Definition TAMGA_DER_OID : Z := 0x06.
Definition TAMGA_DER_SEQUENCE : Z := 0x30.

Definition TamgaDer : Type := bytes.

Definition tamga_der_init (data : option bytes) : TamgaDer := default [] data.

Definition tamga_der_at_end (reader : TamgaDer) : bool := (length reader =? 0)%nat.

(** The long-form loop: [count] bytes into [length]. *)
Fixpoint der_length_loop (count : nat) (length : Z) (reader : TamgaDer) : Z * TamgaDer :=
  match count with
  | O => (length, reader)
  | S c => der_length_loop c (Z.lor (u64 (Z.shiftl length 8)) (at_ reader 0)) (drop 1 reader)
  end.

(** The length octets: the length and the reader behind them. *)
Definition der_read_length (reader : TamgaDer) : option (Z * TamgaDer) :=
  let first_length_byte := at_ reader 0 in
  let reader := drop 1 reader in
  if Z.land first_length_byte 0x80 =? 0 then Some (first_length_byte, reader)
  else
    let count := Z.land first_length_byte 0x7F in
    if (count =? 0) || (count >? 4) then None
    else if zlen reader <? count then None
    else if at_ reader 0 =? 0 then None
    else
      let '(length, reader) := der_length_loop (Z.to_nat count) 0 reader in
      if length <? 0x80 then None else Some (length, reader).

(** The tag, the content and the reader behind the element. *)
Definition tamga_der_read (reader : TamgaDer) : option (Z * bytes * TamgaDer) :=
  if (length reader <? 2)%nat then None
  else if Z.land (at_ reader 0) 0x1F =? 0x1F then None
  else
    let tag := at_ reader 0 in
    '(len, reader) ← der_read_length (drop 1 reader);
    if zlen reader <? len then None
    else Some (tag, take (Z.to_nat len) reader, drop (Z.to_nat len) reader).

Definition tamga_der_expect (reader : TamgaDer) (tag : Z) : option (bytes * TamgaDer) :=
  '(actual, content, reader) ← tamga_der_read reader;
  if actual =? tag then Some (content, reader) else None.

Definition tamga_der_read_unsigned (reader : TamgaDer) : option (bytes * TamgaDer) :=
  '(content, reader) ← tamga_der_expect reader TAMGA_DER_INTEGER;
  if (length content =? 0)%nat then None
  else if negb (Z.land (at_ content 0) 0x80 =? 0) then None
  else if at_ content 0 =? 0 then
    if (length content =? 1)%nat then Some (content, reader)
    else if Z.land (at_ content 1) 0x80 =? 0 then None
    else Some (drop 1 content, reader)
  else Some (content, reader).

Definition tamga_der_read_bit_string (reader : TamgaDer) : option (bytes * TamgaDer) :=
  '(content, reader) ← tamga_der_expect reader TAMGA_DER_BIT_STRING;
  if (length content <? 1)%nat then None
  else if negb (at_ content 0 =? 0) then None
  else Some (drop 1 content, reader).

Definition tamga_der_expect_oid (reader : TamgaDer) (expected : bytes) : option TamgaDer :=
  '(content, reader) ← tamga_der_expect reader TAMGA_DER_OID;
  if negb (length content =? length expected)%nat then None
  else if beq content expected then Some reader else None.

(** ** The encoding *)

(** The shortest big-endian form of a length below [2 ^ 32]. *)
Definition length_digits (n : Z) : bytes :=
  if n <? 2 ^ 8 then [n]
  else if n <? 2 ^ 16 then [n / 2 ^ 8; n mod 2 ^ 8]
  else if n <? 2 ^ 24 then [n / 2 ^ 16; n / 2 ^ 8 mod 2 ^ 8; n mod 2 ^ 8]
  else [n / 2 ^ 24; n / 2 ^ 16 mod 2 ^ 8; n / 2 ^ 8 mod 2 ^ 8; n mod 2 ^ 8].

Definition der_length (n : Z) : bytes :=
  if n <? 128 then [n] else (128 + zlen (length_digits n)) :: length_digits n.

(** The element with this tag and content. *)
Definition tlv (tag : Z) (content : bytes) : bytes := tag :: der_length (zlen content) ++ content.

(** A single-byte tag, as opposed to the high-tag-number form. *)
Definition low_tag (tag : Z) : Prop := is_byte tag /\ Z.land tag 31 <> 31.

(** The content octets of a non-negative INTEGER of magnitude [v], which has no
    leading zero unless it is zero itself. *)
Definition magnitude (v : bytes) : Prop := v = [0] \/ exists c v', v = c :: v' /\ c <> 0.
Definition int_content (v : bytes) : bytes := if at_ v 0 <? 128 then v else 0 :: v.

(** ** Length octets *)

Lemma land_128 b : is_byte b -> (Z.land b 128 =? 0) = (b <? 128).
Proof.
  intros Hb. apply eqb_prop, (below_forallb 256 (fun b => Bool.eqb (Z.land b 128 =? 0) (b <? 128))); [reflexivity|exact Hb].
Qed.

Lemma land_127 b : is_byte b -> Z.land b 127 = b mod 128.
Proof. intros _. apply (land_mask b 7). lia. Qed.

Lemma length_step n b : 0 <= n < 2 ^ 24 -> is_byte b -> Z.lor (u64 (Z.shiftl n 8)) b = n * 2 ^ 8 + b.
Proof.
  intros Hn Hb. unfold u64, is_byte in *. rewrite Z.shiftl_mul_pow2, Z.mod_small by lia.
  rewrite Z.lor_comm, lor_disjoint_add by lia. lia.
Qed.

Lemma length_digits_bytes n : 0 <= n < 2 ^ 32 -> bytes_ok (length_digits n).
Proof. intros Hn. unfold length_digits, is_byte. repeat dif; repeat (constructor; [zdm|]); constructor. Qed.

Lemma at_0 x l : at_ (x :: l) 0 = x.
Proof. done. Qed.

Definition be_fold (d : bytes) (acc : Z) : Z := fold_left (fun n b => n * 2 ^ 8 + b) d acc.

Lemma length_loop_eq d acc r :
  bytes_ok d -> (length d <= 4)%nat -> 0 <= acc < 2 ^ (8 * (4 - zlen d)) ->
  der_length_loop (length d) acc (d ++ r) = (be_fold d acc, r).
Proof.
  intros Hok. revert acc. induction Hok as [|b d Hb Hok IH]; intros acc Hl Ha; [done|].
  cbn [length app der_length_loop drop] in *. rewrite drop_0, at_0.
  assert (2 ^ (8 * (4 - Z.of_nat (S (length d)))) <= 2 ^ 24) by (apply Z.pow_le_mono_r; lia).
  rewrite length_step by (lia || done). apply IH; [lia|].
  replace (8 * (4 - zlen d)) with (8 * (4 - Z.of_nat (S (length d))) + 8) by lia. rewrite Z.pow_add_r by lia.
  unfold is_byte in *. lia.
Qed.

(** The loop reads back the digits. *)
Lemma length_loop_digits n r :
  0 <= n < 2 ^ 32 -> der_length_loop (length (length_digits n)) 0 (length_digits n ++ r) = (n, r).
Proof.
  intros Hn. rewrite length_loop_eq; [|by apply length_digits_bytes|unfold length_digits; repeat dif; simpl; lia|].
  - f_equal. unfold length_digits. repeat dif; cbn [be_fold fold_left]; zdm.
  - unfold length_digits. repeat dif; vm_compute; done.
Qed.

Lemma length_loop_inv d r :
  (1 <= length d <= 4)%nat -> bytes_ok d -> at_ d 0 <> 0 ->
  exists n, der_length_loop (length d) 0 (d ++ r) = (n, r) /\ 0 <= n < 2 ^ 32 /\ d = length_digits n.
Proof.
  intros Hc Hok Hne. exists (be_fold d 0). split; [apply length_loop_eq; [done|lia|]|].
  { split; [lia|]. apply Z.pow_pos_nonneg; lia. }
  unfold is_byte in *. unfold be_fold, length_digits.
  destruct d as [|a [|b [|c [|e [|? ?]]]]]; simpl in Hc; try lia; rewrite at_0 in Hne; cbn [fold_left];
    repeat match goal with H : Forall _ (_ :: _) |- _ => apply Forall_cons in H as [? H] end;
    (split; [lia|]); repeat dif; try lia; repeat f_equal; zdm.
Qed.

(** The length octets are exactly the shortest definite form. *)
Lemma read_length_iff l n r :
  bytes_ok l -> l <> [] -> der_read_length l = Some (n, r) <-> l = der_length n ++ r /\ 0 <= n < 2 ^ 32.
Proof.
  intros Hok Hne. destruct l as [|b l]; [done|]. apply Forall_cons in Hok as [Hb Hok]. unfold is_byte in Hb.
  unfold der_read_length. rewrite at_0, land_128, land_127 by done. cbn [drop]. rewrite drop_0. unfold der_length. split.
  - destruct (Z.ltb_spec b 128); [intros [= <- <-]; rewrite (proj2 (Z.ltb_lt b 128)) by lia; split; [done|lia]|].
    replace (b mod 128) with (b - 128) by zdm. destruct (_ || _) eqn:Ec; [done|].
    destruct (Z.ltb_spec (zlen l) (b - 128)) as [|Hlen]; [done|]. destruct (Z.eqb_spec (at_ l 0) 0) as [|Hnz]; [done|].
    rewrite <- (take_drop (Z.to_nat (b - 128)) l). set (d := take _ l). set (r' := drop _ l).
    assert (length d = Z.to_nat (b - 128)) as Hd by (subst d; rewrite length_take; lia). rewrite <- Hd.
    destruct (length_loop_inv d r') as (m & -> & Hm & E); [lia|by apply Forall_take| |].
    { subst d. destruct l as [|x l]; [done|]. destruct (Z.to_nat (b - 128)) eqn:E; [lia|done]. }
    destruct (Z.ltb_spec m 128); [done|]. intros [= <- <-]. rewrite (proj2 (Z.ltb_ge m 128)) by lia. split; [|lia].
    rewrite <- E. cbn [app]. f_equal. lia.
  - intros [E Hn]. destruct (Z.ltb_spec n 128) as [Hlt|Hge].
    + injection E as -> ->. rewrite (proj2 (Z.ltb_lt n 128)) by lia. done.
    + injection E as -> ->. pose proof (length_digits_bytes n Hn) as Hdb.
      assert (1 <= length (length_digits n) <= 4)%nat as Hl4 by (unfold length_digits; repeat dif; simpl; lia).
      rewrite (proj2 (Z.ltb_ge _ 128)) by lia. replace ((128 + zlen (length_digits n)) mod 128) with (zlen (length_digits n)) by zdm.
      replace (_ || _) with false by lia. rewrite length_app. rewrite (proj2 (Z.ltb_ge _ _)) by lia.
      replace (at_ (length_digits n ++ r) 0 =? 0) with false.
      2:{ symmetry. apply Z.eqb_neq. unfold length_digits. repeat dif; cbn [app]; rewrite at_0; zdm. }
      rewrite Nat2Z.id, length_loop_digits by done. by rewrite (proj2 (Z.ltb_ge n 128)) by lia.
Qed.

(** ** Elements *)

Lemma der_length_bytes n : 0 <= n < 2 ^ 32 -> bytes_ok (der_length n).
Proof.
  intros Hn. unfold der_length, is_byte. dif; [repeat constructor; lia|]. constructor; [|by apply length_digits_bytes].
  unfold length_digits. repeat dif; simpl; lia.
Qed.

Lemma der_length_cons n : exists b d, der_length n = b :: d.
Proof. unfold der_length. dif; eauto. Qed.

Lemma der_read_iff l tag c r :
  bytes_ok l -> tamga_der_read l = Some (tag, c, r) <-> l = tlv tag c ++ r /\ low_tag tag /\ zlen c < 2 ^ 32.
Proof.
  intros Hok. unfold tamga_der_read, tlv, low_tag. split.
  - destruct (Nat.ltb_spec (length l) 2) as [|Hl]; [done|]. destruct l as [|b l]; [simpl in Hl; lia|].
    apply Forall_cons in Hok as [Hb Hok]. rewrite at_0. cbn [drop]. rewrite drop_0.
    destruct (Z.eqb_spec (Z.land b 31) 31) as [|Ht]; [done|].
    destruct (der_read_length l) as [[n r']|] eqn:En; [|done]. cbn [mbind option_bind].
    apply read_length_iff in En as [-> Hn]; [|done|by destruct l; simpl in Hl; [lia|]].
    destruct (Z.ltb_spec (zlen r') n); [done|]. intros [= <- <- <-].
    assert (length (take (Z.to_nat n) r') = Z.to_nat n) as E by (rewrite length_take; lia).
    rewrite E, Z2Nat.id by lia. cbn [app]. rewrite <- app_assoc, take_drop. split_and!; [done..|lia].
  - intros (-> & [Hb Ht] & Hc). cbn [app] in *. apply Forall_cons in Hok as [_ Hok].
    destruct (der_length_cons (zlen c)) as (b & d & E). rewrite <- app_assoc in *.
    destruct (Nat.ltb_spec (length (tag :: der_length (zlen c) ++ c ++ r)) 2) as [Hl|_].
    { rewrite E in Hl. simpl in Hl. rewrite !length_app in Hl. lia. }
    rewrite at_0. cbn [drop]. rewrite drop_0. destruct (Z.eqb_spec (Z.land tag 31) 31); [done|].
    rewrite (proj2 (read_length_iff _ (zlen c) (c ++ r) Hok ltac:(by rewrite E))) by (split; [done|lia]).
    cbn [mbind option_bind]. rewrite (proj2 (Z.ltb_ge _ _)) by (rewrite length_app; lia).
    rewrite Nat2Z.id, take_app_length, drop_app_length. done.
Qed.

Lemma tlv_bytes tag c : is_byte tag -> bytes_ok c -> zlen c < 2 ^ 32 -> bytes_ok (tlv tag c).
Proof. intros Ht Hc Hl. constructor; [done|]. apply Forall_app. split; [apply der_length_bytes; lia|done]. Qed.

Lemma der_expect_iff l tag c r :
  bytes_ok l -> low_tag tag ->
  tamga_der_expect l tag = Some (c, r) <-> l = tlv tag c ++ r /\ zlen c < 2 ^ 32.
Proof.
  intros Hok Ht. unfold tamga_der_expect. split.
  - destruct (tamga_der_read l) as [[[t c'] r']|] eqn:E; [|done]. apply der_read_iff in E as (-> & _ & Hc); [|done].
    cbn [mbind option_bind]. destruct (Z.eqb_spec t tag) as [->|]; [|done]. by intros [= <- <-].
  - intros [E Hc]. rewrite (proj2 (der_read_iff l tag c r Hok) (conj E (conj Ht Hc))). cbn [mbind option_bind].
    by rewrite Z.eqb_refl.
Qed.

Lemma tag_low tag : In tag [TAMGA_DER_INTEGER; TAMGA_DER_BIT_STRING; TAMGA_DER_NULL; TAMGA_DER_OID; TAMGA_DER_SEQUENCE] -> low_tag tag.
Proof. intros H. split; repeat (destruct H as [<-|H]; [vm_compute; (split; congruence) || congruence|]); done. Qed.

Ltac low_tag_tac := apply tag_low; simpl; tauto.

(** A byte list split at an element. *)
Lemma tlv_content_bytes tag c r : bytes_ok (tlv tag c ++ r) -> bytes_ok c /\ bytes_ok r.
Proof. unfold tlv. cbn [app]. rewrite <- app_assoc. intros [_ [_ [? ?]%Forall_app]%Forall_app]%Forall_cons. done. Qed.

Lemma read_unsigned_iff l v r :
  bytes_ok l ->
  tamga_der_read_unsigned l = Some (v, r) <->
  l = tlv TAMGA_DER_INTEGER (int_content v) ++ r /\ magnitude v /\ zlen (int_content v) < 2 ^ 32.
Proof.
  intros Hok. unfold tamga_der_read_unsigned. split.
  - destruct (tamga_der_expect l TAMGA_DER_INTEGER) as [[c r']|] eqn:E; [|done]. cbn [mbind option_bind].
    apply der_expect_iff in E as [-> Hc]; [|done|low_tag_tac]. apply tlv_content_bytes in Hok as [Hcb _].
    destruct c as [|b c]; [done|]. cbn [length Nat.eqb]. rewrite at_0. apply Forall_cons in Hcb as [Hb Hcb].
    rewrite land_128 by done. destruct (Z.ltb_spec b 128) as [Hlt|]; cbn [negb]; [|done].
    destruct (Z.eqb_spec b 0) as [->|Hnz].
    + destruct c as [|b2 c]; [cbn [Nat.eqb]; intros [= <- <-]; unfold int_content; rewrite at_0; split_and!; [done|by left|done]|].
      cbn [length Nat.eqb]. apply Forall_cons in Hcb as [Hb2 _]. change (at_ (0 :: b2 :: c) 1) with b2. rewrite land_128 by done.
      destruct (Z.ltb_spec b2 128); [done|]. intros [= <- <-]. unfold int_content. rewrite at_0.
      rewrite (proj2 (Z.ltb_ge b2 128)) by lia. split_and!; [done| |done]. right. exists b2, c. split; [done|lia].
    + intros [= <- <-]. unfold int_content. rewrite at_0. rewrite (proj2 (Z.ltb_lt b 128)) by lia.
      split_and!; [done| |done]. right. by exists b, c.
  - intros (E & Hm & Hl). rewrite (proj2 (der_expect_iff l _ _ r Hok ltac:(low_tag_tac)) (conj E Hl)). cbn [mbind option_bind].
    rewrite E in Hok. apply tlv_content_bytes in Hok as [Hc _]. unfold int_content in *.
    destruct Hm as [->|(b & v' & -> & Hnz)]; [done|]. rewrite at_0 in *. destruct (Z.ltb_spec b 128) as [Hlt|Hge].
    + apply Forall_cons in Hc as [Hb _]. cbn [length Nat.eqb]. rewrite at_0, land_128 by done.
      rewrite (proj2 (Z.ltb_lt b 128)) by lia. cbn [negb]. by destruct (Z.eqb_spec b 0).
    + apply Forall_cons in Hc as [_ [Hb _]%Forall_cons]. cbn [length Nat.eqb]. rewrite at_0. cbn [Z.land Z.eqb negb].
      change (at_ (0 :: b :: v') 1) with b. rewrite !land_128 by done. rewrite (proj2 (Z.ltb_ge b 128)) by lia. done.
Qed.

Lemma read_bit_string_iff l v r :
  bytes_ok l ->
  tamga_der_read_bit_string l = Some (v, r) <-> l = tlv TAMGA_DER_BIT_STRING (0 :: v) ++ r /\ zlen v < 2 ^ 32 - 1.
Proof.
  intros Hok. unfold tamga_der_read_bit_string. split.
  - destruct (tamga_der_expect l TAMGA_DER_BIT_STRING) as [[c r']|] eqn:E; [|done]. cbn [mbind option_bind].
    apply der_expect_iff in E as [-> Hc]; [|done|low_tag_tac]. destruct c as [|b c]; [done|]. cbn [length Nat.ltb Nat.leb].
    rewrite at_0. destruct (Z.eqb_spec b 0) as [->|]; [|done]. cbn [negb drop]. rewrite drop_0. intros [= <- <-].
    split; [done|]. simpl in Hc. lia.
  - intros [E Hl]. rewrite (proj2 (der_expect_iff l TAMGA_DER_BIT_STRING (0 :: v) r Hok ltac:(low_tag_tac))); [done|]. split; [done|]. simpl. lia.
Qed.

Lemma expect_oid_iff l oid r :
  bytes_ok l -> zlen oid < 2 ^ 32 -> tamga_der_expect_oid l oid = Some r <-> l = tlv TAMGA_DER_OID oid ++ r.
Proof.
  intros Hok Ho. unfold tamga_der_expect_oid. split.
  - destruct (tamga_der_expect l TAMGA_DER_OID) as [[c r']|] eqn:E; [|done]. cbn [mbind option_bind].
    apply der_expect_iff in E as [-> Hc]; [|done|low_tag_tac]. destruct (negb _); [done|].
    destruct (beq c oid) eqn:Eb; [|done]. apply beq_eq in Eb as ->. by intros [= <-].
  - intros E. rewrite (proj2 (der_expect_iff l TAMGA_DER_OID oid r Hok ltac:(low_tag_tac)) (conj E Ho)). cbn [mbind option_bind].
    by rewrite Nat.eqb_refl, beq_refl.
Qed.

Lemma at_end_iff r : tamga_der_at_end r = true <-> r = [].
Proof. unfold tamga_der_at_end. rewrite Nat.eqb_eq. by destruct r. Qed.

(** (C35) The DER reader accepts exactly the definite-length, minimal-length
    elements with a low tag number: what it returns is the only tag, content
    and rest whose encoding is the input. So a key or a signature cannot be
    written in two ways, an encoded element is read back, and nothing outside
    the input is ever returned. *)
Theorem der_read_exact l tag content rest :
  bytes_ok l ->
  tamga_der_read l = Some (tag, content, rest) <-> l = tlv tag content ++ rest /\ low_tag tag /\ zlen content < 2 ^ 32.
Proof. apply der_read_iff. Qed.

Lemma der_read_exact_witness : [48; 3; 2; 1; 5; 9] = tlv 48 [2; 1; 5] ++ [9] /\ low_tag 48 /\ zlen [2; 1; 5] < 2 ^ 32.
Proof. apply der_read_exact; [repeat (constructor; [split; vm_compute; congruence|]); constructor|]. vm_compute. reflexivity. Defined.
