(* ===== verification/Bn.v ===== *)
(** * Modular exponentiation: [src/src/crypto/bn.c]

    A limb array is a list of 32-bit words, least significant first, of the
    length [n] the C code passes along. The work array [t] of
    [tamga_bn_mont_mul] is its first [n] limbs and the two above them. Byte
    strings are big-endian. *)

From Stdlib Require Import String.
From S2P Require Import Prelude.
From stdpp Require Import list.
#[local] Open Scope Z_scope.

Definition TAMGA_BN_MAX_BYTES : Z := 1024.

Definition tamga_bn_be_bit (bs : bytes) (index : nat) : Z :=
  Z.land (Z.shiftr (nth (length bs - 1 - index / 8) bs 0) (Z.of_nat (index mod 8))) 1.

Definition tamga_bn_limbs_for (byte_len : nat) : nat := ((byte_len + 3) / 4)%nat.

(** One turn of the loading loop. *)
Definition from_be_step (bs : bytes) (limbs : list Z) (i : nat) : list Z :=
  let offset := (length bs - 1 - i)%nat in
  let limb := (offset / 4)%nat in
  let shift := Z.of_nat (offset mod 4) * 8 in
  if (limb <? length limbs)%nat
  then <[limb := Z.lor (nth limb limbs 0) (u32 (Z.shiftl (nth i bs 0) shift))]> limbs
  else limbs.

Definition tamga_bn_from_be (bs : bytes) (limb_count : nat) : list Z :=
  fold_left (from_be_step bs) (seq 0 (length bs)) (replicate limb_count 0).

Definition tamga_bn_to_be (limbs : list Z) (byte_len : nat) : bytes :=
  map (fun i =>
    let offset := (byte_len - 1 - i)%nat in
    let limb := (offset / 4)%nat in
    let shift := Z.of_nat (offset mod 4) * 8 in
    u8 (if (limb <? length limbs)%nat then Z.shiftr (nth limb limbs 0) shift else 0)) (seq 0 byte_len).

(** The loop of [tamga_bn_cmp] with [i] limbs left to look at. *)
Fixpoint cmp_loop (a b : list Z) (i : nat) : Z :=
  match i with
  | O => 0
  | S i => if negb (nth i a 0 =? nth i b 0) then if nth i a 0 <? nth i b 0 then -1 else 1 else cmp_loop a b i
  end.

Definition tamga_bn_cmp (a b : list Z) : Z := cmp_loop a b (length b).

Fixpoint sub_loop (a b : list Z) (borrow : Z) : list Z * Z :=
  match a, b with
  | x :: a, y :: b =>
      let diff := u64 (x - y - borrow) in
      let '(r, out) := sub_loop a b (Z.land (Z.shiftr diff 63) 1) in
      (u32 diff :: r, out)
  | _, _ => ([], borrow)
  end.

(** The difference and the final borrow. *)
Definition tamga_bn_sub (a b : list Z) : list Z * Z :=
  let '(r, borrow) := sub_loop a b 0 in (r, u32 borrow).

(** The doubled limbs and the carry out of them. *)
Fixpoint double_loop (value : list Z) (carry : Z) : list Z * Z :=
  match value with
  | [] => ([], carry)
  | x :: value =>
      let next_carry := Z.shiftr x 31 in
      let '(r, out) := double_loop value next_carry in
      (Z.lor (u32 (Z.shiftl x 1)) carry :: r, out)
  end.

Definition tamga_bn_double_mod (value modulus : list Z) : list Z :=
  let '(value, carry) := double_loop value 0 in
  if negb (carry =? 0) || (tamga_bn_cmp value modulus >=? 0) then (tamga_bn_sub value modulus).1 else value.

Fixpoint n0inv_loop (count : nat) (m0 inverse : Z) : Z :=
  match count with
  | O => inverse
  | S c => n0inv_loop c m0 (u32 (inverse * u32 (2 - u32 (m0 * inverse))))
  end.

Definition tamga_bn_n0inv (m0 : Z) : Z := u32 (0 - n0inv_loop 5 m0 1).

(** The first inner loop: [t[j] += a[j] * bi], with the carry. *)
Fixpoint mul_loop (t a : list Z) (bi carry : Z) : list Z * Z :=
  match t, a with
  | x :: t, y :: a =>
      let product := u64 (x + y * bi + carry) in
      let '(r, out) := mul_loop t a bi (Z.shiftr product 32) in
      (u32 product :: r, out)
  | _, _ => ([], carry)
  end.

(** One turn of the outer loop on [t], as its [n] low limbs, [t[n]] and
    [t[n + 1]]. The second inner loop is the first one again, on the limbs
    from index 1 on, its results stored one limb lower. *)
Definition mont_step (a modulus : list Z) (n0inv : Z) (t : list Z * Z * Z) (bi : Z) : list Z * Z * Z :=
  let '(low, tn, _) := t in
  let '(low, carry) := mul_loop low a bi 0 in
  let sum := u64 (tn + carry) in
  let tn := u32 sum in
  let tn1 := u32 (Z.shiftr sum 32) in
  let t0 := nth 0 low 0 in
  let m := u32 (u64 (t0 * n0inv)) in
  let carry := Z.shiftr (u64 (t0 + m * nth 0 modulus 0)) 32 in
  let '(low, carry) := mul_loop (drop 1 low) (drop 1 modulus) m carry in
  let sum := u64 (tn + carry) in
  (low ++ [u32 sum], u32 (tn1 + u32 (Z.shiftr sum 32)), tn1).

Definition tamga_bn_mont_mul (a b modulus : list Z) (n0inv : Z) : list Z :=
  let '(low, tn, _) := fold_left (mont_step a modulus n0inv) b (replicate (length modulus) 0, 0, 0) in
  if negb (tn =? 0) || (tamga_bn_cmp low modulus >=? 0) then (tamga_bn_sub low modulus).1 else low.

(** The scan for the most significant set bit, [i] bits left to look at. *)
Fixpoint highest_bit_loop (exponent : bytes) (i : nat) : option nat :=
  match i with
  | O => None
  | S i => if negb (tamga_bn_be_bit exponent i =? 0) then Some i else highest_bit_loop exponent i
  end.

(** Square and multiply over the [k] low bits of the exponent. *)
Fixpoint ladder (exponent : bytes) (k : nat) (acc base_mont modulus : list Z) (n0inv : Z) : list Z :=
  match k with
  | O => acc
  | S k =>
      let acc := tamga_bn_mont_mul acc acc modulus n0inv in
      let acc := if negb (tamga_bn_be_bit exponent k =? 0) then tamga_bn_mont_mul acc base_mont modulus n0inv else acc in
      ladder exponent k acc base_mont modulus n0inv
  end.

Fixpoint double_times (count : nat) (value modulus : list Z) : list Z :=
  match count with
  | O => value
  | S c => double_times c (tamga_bn_double_mod value modulus) modulus
  end.

(** [base] is read at the width of [modulus]. *)
Definition tamga_bn_modexp (base modulus exponent : bytes) : option bytes :=
  let mod_len := length modulus in
  let exp_len := length exponent in
  if (mod_len =? 0)%nat || (Z.of_nat mod_len >? TAMGA_BN_MAX_BYTES) || (exp_len =? 0)%nat || (mod_len <? exp_len)%nat then None
  else
    let n := tamga_bn_limbs_for mod_len in
    let m := tamga_bn_from_be modulus n in
    let b := tamga_bn_from_be (take mod_len base) n in
    if Z.land (nth 0 m 0) 1 =? 0 then None
    else if Z.land (nth (n - 1) m 0) 0x80000000 =? 0 then None
    else if tamga_bn_cmp b m >=? 0 then None
    else
      let n0inv := tamga_bn_n0inv (nth 0 m 0) in
      let rr := (tamga_bn_sub (replicate n 0) m).1 in
      let rr := double_times (n * 32) rr m in
      let acc := (tamga_bn_sub (replicate n 0) m).1 in
      let base_mont := tamga_bn_mont_mul b rr m n0inv in
      match highest_bit_loop exponent (exp_len * 8) with
      | None => None
      | Some highest_bit =>
          let acc := ladder exponent (S highest_bit) acc base_mont m n0inv in
          let one := 1 :: replicate (n - 1) 0 in
          let acc := tamga_bn_mont_mul acc one m n0inv in
          Some (tamga_bn_to_be acc mod_len)
      end.

(** 5^3 mod a 32-bit modulus, and 3^257 mod a 64-bit one. *)
Example modexp_small : tamga_bn_modexp [0; 0; 0; 5] [255; 255; 255; 251] [3] = Some [0; 0; 0; 125].
Proof. vm_compute. reflexivity. Qed.

Example modexp_two_limbs : tamga_bn_modexp [0; 0; 0; 0; 0; 0; 0; 3] [255; 255; 255; 255; 255; 255; 255; 197] [1; 1] =
  Some (map (fun i => (3 ^ 257 mod (2 ^ 64 - 59)) / 2 ^ (8 * i) mod 256) [7; 6; 5; 4; 3; 2; 1; 0]).
Proof. vm_compute. reflexivity. Qed.
