(* ===== verification/BnSpec.v ===== *)
(** * Modular exponentiation is modular exponentiation

    The limb algorithms of [Bn] against integer arithmetic: loading, comparing,
    subtracting, doubling, the Newton inverse, Montgomery multiplication and
    the binary ladder. *)

From Stdlib Require Import String Znumtheory.
From S2P Require Import Prelude Octets Bn.
From stdpp Require Import list.
#[local] Open Scope Z_scope.

(** ** Numbers as limbs *)

Definition limb (x : Z) : Prop := 0 <= x < 2 ^ 32.
Abbreviation limbs_ok := (Forall limb).

Fixpoint eval (l : list Z) : Z :=
  match l with
  | [] => 0
  | x :: l => x + 2 ^ 32 * eval l
  end.

(** [2 ^ (32 n)], the value of a limb at index [n]. *)
Definition W (n : nat) : Z := 2 ^ (32 * Z.of_nat n).

Lemma W_0 : W 0 = 1.
Proof. done. Qed.

Lemma W_S n : W (S n) = 2 ^ 32 * W n.
Proof. unfold W. rewrite <- Z.pow_add_r by lia. f_equal. lia. Qed.

Lemma W_pos n : 0 < W n.
Proof. apply Z.pow_pos_nonneg; lia. Qed.

Lemma W_add a b : W (a + b) = W a * W b.
Proof. unfold W. rewrite <- Z.pow_add_r by lia. f_equal. lia. Qed.

Lemma eval_bound l : limbs_ok l -> 0 <= eval l < W (length l).
Proof.
  induction 1 as [|x l Hx _ IH]; [simpl; rewrite W_0; lia|]. cbn [eval length]. rewrite W_S. unfold limb in Hx. lia.
Qed.

Lemma eval_app a b : eval (a ++ b) = eval a + W (length a) * eval b.
Proof. induction a as [|x a IH]; cbn [app eval length]; [rewrite W_0|rewrite W_S, IH]; lia. Qed.

Lemma eval_replicate n : eval (replicate n 0) = 0.
Proof. induction n as [|n IH]; [done|]. cbn [replicate eval]. lia. Qed.

Lemma limbs_replicate n : limbs_ok (replicate n 0).
Proof. apply Forall_replicate. unfold limb. lia. Qed.

Lemma u32_limb x : limb (u32 x).
Proof. unfold limb, u32. apply Z.mod_pos_bound. lia. Qed.

Lemma nth_Forall (P : Z -> Prop) l k : Forall P l -> P 0 -> P (nth k l 0).
Proof. intros Hl H0. revert k. induction Hl; intros [|k]; simpl; auto. Qed.

(** The limb at an index. *)
Lemma nth_eval l k : limbs_ok l -> nth k l 0 = eval l / W k mod 2 ^ 32.
Proof.
  intros Hl. revert k. induction Hl as [|x l Hx _ IH]; intros k.
  - rewrite Z.div_0_l by (pose proof (W_pos k); lia). by destruct k.
  - unfold limb in Hx. cbn [eval]. destruct k as [|k]; cbn [nth].
    + rewrite W_0, Z.div_1_r, Z.mul_comm, Z_mod_plus_full, Z.mod_small; lia.
    + rewrite IH, W_S, <- Z.div_div by (pose proof (W_pos k); lia). do 2 f_equal.
      rewrite Z.mul_comm, Z.div_add, Z.div_small by lia. lia.
Qed.

Lemma eval_insert l k v : (k < length l)%nat -> eval (<[k:=v]> l) = eval l + W k * (v - nth k l 0).
Proof.
  revert k. induction l as [|x l IH]; intros k Hk; [simpl in Hk; lia|]. destruct k as [|k]; cbn [insert list_insert eval nth].
  - rewrite W_0. lia.
  - simpl in Hk. change (list_insert k v l) with (<[k:=v]> l). rewrite IH, W_S by lia. lia.
Qed.

(** ** Comparison *)

Lemma take_S_nth (l : list Z) i : (i < length l)%nat -> take (S i) l = take i l ++ [nth i l 0].
Proof.
  revert i. induction l as [|x l IH]; intros i Hi; [simpl in Hi; lia|]. destruct i; [done|]. simpl in *. f_equal. apply IH. lia.
Qed.

Lemma cmp_loop_spec a b i :
  limbs_ok a -> limbs_ok b -> (i <= length a)%nat -> (i <= length b)%nat ->
  (cmp_loop a b i >=? 0) = (eval (take i b) <=? eval (take i a)).
Proof.
  intros Ha Hb. induction i as [|i IH]; intros Hla Hlb; [done|]. cbn [cmp_loop].
  rewrite !take_S_nth, !eval_app by lia. rewrite !length_take, !Nat.min_l by lia. cbn [eval].
  pose proof (eval_bound (take i a) ltac:(by apply Forall_take)) as Ba. pose proof (eval_bound (take i b) ltac:(by apply Forall_take)) as Bb.
  rewrite !length_take, !Nat.min_l in Ba, Bb by lia. specialize (IH ltac:(lia) ltac:(lia)). pose proof (W_pos i).
  destruct (Z.eqb_spec (nth i a 0) (nth i b 0)) as [E|E]; cbn [negb].
  - rewrite IH, E. destruct (Z.leb_spec (eval (take i b)) (eval (take i a))); symmetry; [apply Z.leb_le|apply Z.leb_gt]; lia.
  - destruct (Z.ltb_spec (nth i a 0) (nth i b 0)); symmetry; [apply Z.leb_gt|apply Z.leb_le]; nia.
Qed.

Lemma cmp_spec a b :
  limbs_ok a -> limbs_ok b -> length a = length b -> (tamga_bn_cmp a b >=? 0) = (eval b <=? eval a).
Proof.
  intros Ha Hb Hl. unfold tamga_bn_cmp. rewrite cmp_loop_spec by (done || lia). by rewrite !take_ge by lia.
Qed.

(** ** Subtraction and doubling *)

Lemma sub_loop_spec a b borrow r out :
  limbs_ok a -> limbs_ok b -> length a = length b -> 0 <= borrow <= 1 -> sub_loop a b borrow = (r, out) ->
  limbs_ok r /\ length r = length a /\ 0 <= out <= 1 /\ eval r = eval a - eval b - borrow + out * W (length a).
Proof.
  intros Ha. revert b borrow r out. induction Ha as [|x a Hx Ha IH]; intros b borrow r out Hb Hl Hbor; cbn [sub_loop].
  - destruct b; [|done]. intros [= <- <-]. cbn [eval length]. rewrite W_0. split_and!; try done; lia.
  - destruct b as [|y b]; [done|]. apply Forall_cons in Hb as [Hy Hb]. unfold limb in Hx, Hy.
    set (diff := u64 (x - y - borrow)). set (bor := Z.land (Z.shiftr diff 63) 1).
    assert (0 <= bor <= 1 /\ u32 diff = x - y - borrow + 2 ^ 32 * bor) as [Hb1 Hd].
    { assert (bor = diff / 2 ^ 63 mod 2 ^ 1) as ->.
      { subst bor. rewrite Z.shiftr_div_pow2 by lia. apply (land_mask _ 1). lia. }
      subst diff. unfold u64, u32. destruct (Z.le_gt_cases 0 (x - y - borrow)) as [Hge|Hlt].
      - rewrite (Z.mod_small _ (2 ^ 64)) by lia. rewrite (Z.div_small _ (2 ^ 63)) by lia. split; [done|]. zdm.
      - rewrite <- (Z_mod_plus_full _ 1 (2 ^ 64)), (Z.mod_small _ (2 ^ 64)) by lia.
        replace ((x - y - borrow + 1 * 2 ^ 64) / 2 ^ 63 mod 2 ^ 1) with 1 by zdm. split; [done|]. zdm. }
    destruct (sub_loop a b bor) as [r' out'] eqn:E. intros [= <- <-]. simpl in Hl.
    destruct (IH _ _ _ _ Hb ltac:(lia) Hb1 E) as (H1 & H2 & H3 & H4). split_and!; try done; try lia.
    + constructor; [apply u32_limb|done].
    + cbn [length]. lia.
    + cbn [eval length]. rewrite W_S, Hd, H4. lia.
Qed.

Lemma sub_spec a b :
  limbs_ok a -> limbs_ok b -> length a = length b ->
  exists out, 0 <= out <= 1 /\ limbs_ok (tamga_bn_sub a b).1 /\ length (tamga_bn_sub a b).1 = length a /\
    eval (tamga_bn_sub a b).1 = eval a - eval b + out * W (length a).
Proof.
  intros Ha Hb Hl. unfold tamga_bn_sub. destruct (sub_loop a b 0) as [r out] eqn:E.
  apply sub_loop_spec in E as (H1 & H2 & H3 & H4); try done; try lia. exists out. cbn [fst]. split_and!; try done; lia.
Qed.

Lemma double_loop_spec v carry r out :
  limbs_ok v -> 0 <= carry <= 1 -> double_loop v carry = (r, out) ->
  limbs_ok r /\ length r = length v /\ 0 <= out <= 1 /\ eval r + out * W (length v) = 2 * eval v + carry.
Proof.
  intros Hv. revert carry r out. induction Hv as [|x v Hx Hv IH]; intros carry r out Hc; cbn [double_loop].
  - intros [= <- <-]. cbn [eval length]. rewrite W_0. split_and!; try done; lia.
  - unfold limb in Hx. rewrite Z.shiftr_div_pow2 by lia. destruct (double_loop v (x / 2 ^ 31)) as [r' out'] eqn:E.
    intros [= <- <-]. assert (0 <= x / 2 ^ 31 <= 1) as Hnc by zdm. destruct (IH _ _ _ Hnc E) as (H1 & H2 & H3 & H4).
    assert (Z.lor (u32 (Z.shiftl x 1)) carry = 2 * x - 2 ^ 32 * (x / 2 ^ 31) + carry) as Hd.
    { unfold u32. rewrite Z.shiftl_mul_pow2 by lia. change (2 ^ 1) with 2. replace (x * 2 mod 2 ^ 32) with ((x mod 2 ^ 31) * 2 ^ 1) by zdm.
      rewrite Z.lor_comm, lor_disjoint_add by (lia || zdm). zdm. }
    split_and!; try done; try lia.
    + constructor; [unfold limb; rewrite Hd; zdm|done].
    + cbn [length]. lia.
    + cbn [eval length]. rewrite W_S, Hd. lia.
Qed.

(** [low] and the overflow above it hold a number below twice the modulus: one
    conditional subtraction reduces it. *)
Lemma final_subtract low top m T :
  limbs_ok low -> limbs_ok m -> length low = length m -> 0 <= top ->
  T = eval low + top * W (length m) -> T < 2 * eval m ->
  let r := if negb (top =? 0) || (tamga_bn_cmp low m >=? 0) then (tamga_bn_sub low m).1 else low in
  limbs_ok r /\ length r = length m /\ eval r = (if T <? eval m then T else T - eval m).
Proof.
  intros Hl Hm Hlen Htop HT H2. cbv zeta. rewrite cmp_spec by done. destruct (sub_spec low m) as (out & Ho & H1 & Hs & He); [done..|].
  pose proof (eval_bound low Hl) as Bl. pose proof (eval_bound m Hm) as Bm. rewrite Hlen in *.
  pose proof (eval_bound _ H1) as Br. rewrite Hs in Br. pose proof (W_pos (length m)).
  destruct (Z.eqb_spec top 0) as [->|Hne]; cbn [negb orb].
  - destruct (Z.leb_spec (eval m) (eval low)); (split_and!; [done|done|]).
    + rewrite (proj2 (Z.ltb_ge _ _)) by lia. assert (out = 0) as -> by nia. lia.
    + rewrite (proj2 (Z.ltb_lt _ _)) by lia. lia.
  - split_and!; [done|done|]. rewrite (proj2 (Z.ltb_ge _ _)) by nia. assert (top = 1) as -> by nia. assert (out = 1) as -> by nia. lia.
Qed.

Lemma double_mod_spec v m :
  limbs_ok v -> limbs_ok m -> length v = length m -> eval v < eval m ->
  let r := tamga_bn_double_mod v m in
  limbs_ok r /\ length r = length m /\ eval r = 2 * eval v mod eval m.
Proof.
  intros Hv Hm Hl Hlt. cbv zeta. unfold tamga_bn_double_mod. destruct (double_loop v 0) as [d carry] eqn:E.
  apply double_loop_spec in E as (H1 & H2 & H3 & H4); [|done|lia]. pose proof (eval_bound v Hv) as Bv.
  destruct (final_subtract d carry m (2 * eval v)) as (R1 & R2 & R3); [done|done|congruence|lia|rewrite <- Hl; lia|lia|].
  split_and!; [done|done|]. rewrite R3. destruct (Z.ltb_spec (2 * eval v) (eval m)).
  - by rewrite Z.mod_small by lia.
  - rewrite <- (Z_mod_plus_full _ (-1)). rewrite Z.mod_small; lia.
Qed.

Lemma double_times_spec count v m :
  limbs_ok v -> limbs_ok m -> length v = length m -> eval v < eval m ->
  let r := double_times count v m in
  limbs_ok r /\ length r = length m /\ eval r = 2 ^ Z.of_nat count * eval v mod eval m.
Proof.
  intros Hv Hm Hl Hlt. cbv zeta. revert v Hv Hl Hlt. induction count as [|c IH]; intros v Hv Hl Hlt; cbn [double_times].
  - split_and!; [done|done|]. change (2 ^ Z.of_nat 0) with 1. rewrite Z.mul_1_l, Z.mod_small; [done|]. pose proof (eval_bound v Hv). lia.
  - destruct (double_mod_spec v m) as (R1 & R2 & R3); [done..|]. pose proof (eval_bound v Hv).
    assert (eval (tamga_bn_double_mod v m) < eval m) as Hlt' by (rewrite R3; apply Z.mod_pos_bound; lia).
    destruct (IH _ R1 R2 Hlt') as (S1 & S2 & S3). split_and!; [done|done|].
    rewrite S3, R3, Z.mul_mod_idemp_r by lia. f_equal. rewrite Nat2Z.inj_succ, Z.pow_succ_r by lia. lia.
Qed.

(** ** The inverse of the low limb *)

Lemma u32_split x : exists j, u32 x = x + 2 ^ 32 * j.
Proof. exists (- (x / 2 ^ 32)). unfold u32. zdm. Qed.

(** A Newton step doubles the number of correct bits. *)
Lemma newton_step m0 x k :
  0 <= k -> 2 * k <= 32 -> (2 ^ k | 1 - m0 * x) -> (2 ^ (2 * k) | 1 - m0 * u32 (x * u32 (2 - u32 (m0 * x)))).
Proof.
  intros Hk Hk2 [q Hq]. destruct (u32_split (m0 * x)) as [j1 E1]. destruct (u32_split (2 - u32 (m0 * x))) as [j2 E2].
  destruct (u32_split (x * u32 (2 - u32 (m0 * x)))) as [j3 E3]. rewrite E3, E2, E1.
  exists (q * q - 2 ^ (32 - 2 * k) * (m0 * (x * (j2 - j1) + j3))). rewrite Z.mul_sub_distr_r.
  replace (2 ^ (32 - 2 * k) * (m0 * (x * (j2 - j1) + j3)) * 2 ^ (2 * k))
    with (2 ^ (32 - 2 * k) * 2 ^ (2 * k) * (m0 * (x * (j2 - j1) + j3))) by ring.
  rewrite <- Z.pow_add_r by lia. replace (32 - 2 * k + 2 * k) with 32 by lia.
  replace (2 ^ (2 * k)) with (2 ^ k * 2 ^ k) by (rewrite <- Z.pow_add_r by lia; f_equal; lia).
  replace (q * q * (2 ^ k * 2 ^ k)) with ((q * 2 ^ k) * (q * 2 ^ k)) by ring. rewrite <- Hq. ring.
Qed.

Lemma n0inv_spec m0 : Z.odd m0 = true -> (2 ^ 32 | m0 * tamga_bn_n0inv m0 + 1).
Proof.
  intros Hodd. unfold tamga_bn_n0inv. cbn [n0inv_loop].
  assert (2 ^ 1 | 1 - m0 * 1) as H0.
  { apply Zodd_bool_iff in Hodd as Ho. rewrite Zodd_ex_iff in Ho. destruct Ho as [q ->]. exists (- q). lia. }
  pose proof (newton_step m0 _ 1 ltac:(lia) ltac:(lia) H0) as H1. pose proof (newton_step m0 _ 2 ltac:(lia) ltac:(lia) H1) as H2.
  pose proof (newton_step m0 _ 4 ltac:(lia) ltac:(lia) H2) as H3. pose proof (newton_step m0 _ 8 ltac:(lia) ltac:(lia) H3) as H4.
  pose proof (newton_step m0 _ 16 ltac:(lia) ltac:(lia) H4) as H5. clear H0 H1 H2 H3 H4. cbn [Z.mul Pos.mul] in H5.
  set (x := u32 (_ * u32 (2 - u32 (m0 * _)))) in *. destruct (u32_split (0 - x)) as [j ->]. destruct H5 as [q Hq].
  exists (q + m0 * j). lia.
Qed.

(** ** Bits of the exponent *)

Lemma be_bit_spec bs i :
  bytes_ok bs -> (i < 8 * length bs)%nat -> tamga_bn_be_bit bs i = os2ip bs / 2 ^ Z.of_nat i mod 2.
Proof.
  intros Hok Hi. unfold tamga_bn_be_bit. pose proof (Nat.div_mod_eq i 8) as Hd. pose proof (Nat.mod_upper_bound i 8 ltac:(lia)) as Hr.
  rewrite os2ip_nth by (done || lia). rewrite (land_mask _ 1), Z.shiftr_div_pow2 by lia. change (2 ^ 1) with 2.
  set (q := (i / 8)%nat) in *. set (r := (i mod 8)%nat) in *. set (x := os2ip bs).
  replace (Z.of_nat i) with (8 * Z.of_nat q + Z.of_nat r) by lia. rewrite Z.pow_add_r, <- Z.div_div by (try apply Z.pow_pos_nonneg; lia).
  set (y := x / 2 ^ (8 * Z.of_nat q)).
  replace (2 ^ 8) with (2 ^ Z.of_nat r * 2 ^ (8 - Z.of_nat r)) by (rewrite <- Z.pow_add_r by lia; f_equal; lia).
  assert (0 < 2 ^ Z.of_nat r) by (apply Z.pow_pos_nonneg; lia). assert (0 < 2 ^ (8 - Z.of_nat r)) by (apply Z.pow_pos_nonneg; lia).
  rewrite Z.rem_mul_r, (Z.mul_comm (2 ^ Z.of_nat r)), Z.div_add, (Z.div_small (y mod _)) by (try apply Z.mod_pos_bound; lia).
  cbn [Z.add]. replace (2 ^ (8 - Z.of_nat r)) with (2 * 2 ^ (7 - Z.of_nat r)) by (rewrite <- Z.pow_succ_r by lia; f_equal; lia).
  assert (0 < 2 ^ (7 - Z.of_nat r)) by (apply Z.pow_pos_nonneg; lia).
  rewrite Z.rem_mul_r by lia. rewrite Z.add_0_l, (Z.mul_comm 2 (_ mod _)), Z_mod_plus_full. apply Z.mod_mod. lia.
Qed.

(** ** Montgomery multiplication *)

Lemma mul_loop_spec t a bi carry r out :
  limbs_ok t -> limbs_ok a -> length t = length a -> limb bi -> limb carry -> mul_loop t a bi carry = (r, out) ->
  limbs_ok r /\ length r = length t /\ limb out /\ eval r + W (length t) * out = eval t + bi * eval a + carry.
Proof.
  intros Ht. revert a carry r out. induction Ht as [|x t Hx Ht IH]; intros a carry r out Ha Hl Hbi Hc; cbn [mul_loop].
  - destruct a; [|done]. intros [= <- <-]. cbn [eval length]. rewrite W_0. split_and!; try done; lia.
  - destruct a as [|y a]; [done|]. apply Forall_cons in Ha as [Hy Ha]. unfold limb in *.
    assert (0 <= x + y * bi + carry < 2 ^ 64) as Hp by nia. unfold u64. rewrite Z.mod_small by lia.
    rewrite Z.shiftr_div_pow2 by lia. set (p := x + y * bi + carry) in *.
    assert (0 <= p / 2 ^ 32 < 2 ^ 32) as Hcar by zdm. destruct (mul_loop t a bi (p / 2 ^ 32)) as [r' out'] eqn:E.
    intros [= <- <-]. destruct (IH _ _ _ _ Ha ltac:(simpl in Hl; lia) Hbi Hcar E) as (H1 & H2 & H3 & H4). split_and!; try lia.
    + constructor; [apply u32_limb|done].
    + cbn [length]. lia.
    + cbn [eval length]. rewrite W_S. unfold u32. replace (p mod 2 ^ 32) with (p - 2 ^ 32 * (p / 2 ^ 32)) by zdm. lia.
Qed.

Section Mont.
Context (m : list Z) (m0 : Z) (mrest : list Z) (Em : m = m0 :: mrest) (Hm : limbs_ok m).
Context (n0inv : Z) (Hinv : (2 ^ 32 | m0 * n0inv + 1)) (Hn0 : limb n0inv).
Abbreviation N := (length m).
Abbreviation M := (eval m).

(** One turn divides exactly by [2 ^ 32], modulo multiples of the modulus. *)
Lemma mont_step_spec a low tn tn1 bi :
  limbs_ok a -> length a = N -> eval a < M -> limbs_ok low -> length low = N -> limb tn -> limb bi ->
  eval low + W N * tn < M + eval a ->
  let '(low', tn', tn1') := mont_step a m n0inv (low, tn, tn1) bi in
  limbs_ok low' /\ length low' = N /\ limb tn' /\ eval low' + W N * tn' < M + eval a /\
  exists q, 2 ^ 32 * (eval low' + W N * tn') = eval low + W N * tn + bi * eval a + q * M.
Proof.
  intros Ha Hla Hlt Hlow Hll Htn Hbi HT. unfold mont_step.
  destruct (mul_loop low a bi 0) as [low1 c1] eqn:E1.
  apply mul_loop_spec in E1 as (L1 & L2 & L3 & L4); [|done|done|congruence|done|unfold limb; lia].
  destruct low1 as [|t0 rest]; [rewrite Em in *; simpl in *; lia|]. apply Forall_cons in L1 as [Ht0 Hrest].
  cbn [nth drop]. rewrite drop_0. rewrite Em. cbn [nth drop]. rewrite drop_0. rewrite <- Em.
  assert (limb m0 /\ limbs_ok mrest) as [Hm0 Hmrest] by (rewrite Em in Hm; by apply Forall_cons in Hm).
  set (q := u32 (u64 (t0 * n0inv))). assert (limb q) as Hq by apply u32_limb.
  assert (exists k, t0 + q * m0 = 2 ^ 32 * k /\ limb k) as (k & Ek & Hk).
  { destruct Hinv as [d Hd]. subst q. destruct (u32_split (u64 (t0 * n0inv))) as [j1 J1].
    assert (exists j2, u64 (t0 * n0inv) = t0 * n0inv + 2 ^ 32 * j2) as [j2 J2].
    { exists (- (2 ^ 32 * (t0 * n0inv / 2 ^ 64))). unfold u64. zdm. }
    exists (t0 * d + (j1 + j2) * m0). assert (t0 + u32 (u64 (t0 * n0inv)) * m0 = 2 ^ 32 * (t0 * d + (j1 + j2) * m0)) as E by nia.
    split; [done|]. unfold limb in *. nia. }
  assert (Z.shiftr (u64 (t0 + q * m0)) 32 = k) as ->.
  { unfold u64, limb in *. rewrite Ek, Z.shiftr_div_pow2, Z.mod_small by lia. zdm. }
  destruct (mul_loop rest mrest q k) as [low2 c2] eqn:E2.
  assert (length rest = length mrest) as Hrl by (rewrite Em in Hll; simpl in *; lia).
  apply mul_loop_spec in E2 as (K1 & K2 & K3 & K4); [|done..]. unfold limb in Htn, L3, K3.
  assert (N = S (length rest)) as HN by (rewrite Em; simpl; lia).
  set (s1 := u64 (tn + c1)). assert (s1 = tn + c1) as Hs1 by (unfold s1, u64; rewrite Z.mod_small; lia).
  set (ta := u32 s1). set (tb := u32 (Z.shiftr s1 32)).
  assert (s1 = ta + 2 ^ 32 * tb /\ limb ta /\ 0 <= tb <= 1) as (Hs & Hta & Htb).
  { subst ta tb. rewrite Z.shiftr_div_pow2 by lia. unfold u32, limb. zdm. }
  clearbody ta tb. unfold limb in Hta.
  set (s2 := u64 (ta + c2)). assert (s2 = ta + c2) as Hs2 by (unfold s2, u64; rewrite Z.mod_small; lia).
  set (tc := u32 s2). set (td := u32 (Z.shiftr s2 32)).
  assert (s2 = tc + 2 ^ 32 * td /\ limb tc /\ 0 <= td <= 1) as (Hs' & Htc & Htd).
  { subst tc td. rewrite Z.shiftr_div_pow2 by lia. unfold u32, limb. zdm. }
  clearbody tc td. assert (u32 (tb + td) = tb + td) as -> by (unfold u32; rewrite Z.mod_small; lia).
  assert (2 ^ 32 * (eval (low2 ++ [tc]) + W N * (tb + td)) = eval low + W N * tn + bi * eval a + q * M) as Hmain.
  { rewrite eval_app. cbn [eval]. rewrite K2, HN, W_S. cbn [eval length] in L4. rewrite Hll, HN, W_S in L4.
    replace M with (m0 + 2 ^ 32 * eval mrest) by (by rewrite Em). nia. }
  assert (eval (low2 ++ [tc]) + W N * (tb + td) < M + eval a) as Hb'.
  { pose proof (eval_bound a Ha). pose proof (eval_bound m Hm). unfold limb in *. nia. }
  split_and!; [|rewrite length_app; simpl; lia|unfold limb; lia|done|by exists q].
  apply Forall_app. split; [done|]. by apply Forall_singleton.
Qed.
Lemma mont_fold_spec a b low tn tn1 :
  limbs_ok a -> length a = N -> eval a < M -> limbs_ok b -> limbs_ok low -> length low = N -> limb tn ->
  eval low + W N * tn < M + eval a ->
  let '(low', tn', _) := fold_left (mont_step a m n0inv) b (low, tn, tn1) in
  limbs_ok low' /\ length low' = N /\ limb tn' /\ eval low' + W N * tn' < M + eval a /\
  exists q, W (length b) * (eval low' + W N * tn') = eval low + W N * tn + eval a * eval b + q * M.
Proof.
  intros Ha Hla Hlt Hb. revert low tn tn1. induction Hb as [|bi b Hbi Hb IH]; intros low tn tn1 Hlow Hll Htn HT; cbn [fold_left].
  { split_and!; [done..|]. exists 0. cbn [length eval]. rewrite W_0. lia. }
  pose proof (mont_step_spec a low tn tn1 bi Ha Hla Hlt Hlow Hll Htn Hbi HT) as Hs.
  destruct (mont_step a m n0inv (low, tn, tn1) bi) as [[l1 t1] u1]. destruct Hs as (S1 & S2 & S3 & S4 & q & Hq).
  specialize (IH l1 t1 u1 S1 S2 S3 S4). destruct (fold_left _ b _) as [[l2 t2] u2]. destruct IH as (R1 & R2 & R3 & R4 & q' & Hq').
  split_and!; [done..|]. exists (q + 2 ^ 32 * q'). cbn [length eval]. rewrite W_S, <- Z.mul_assoc, Hq', Z.mul_add_distr_l, Z.mul_add_distr_l, Hq. lia.
Qed.

(** [r = a * b / R mod m]. *)
Lemma mont_mul_spec a b :
  limbs_ok a -> length a = N -> eval a < M -> limbs_ok b -> length b = N ->
  let r := tamga_bn_mont_mul a b m n0inv in
  limbs_ok r /\ length r = N /\ 0 <= eval r < M /\ (M | W N * eval r - eval a * eval b).
Proof.
  intros Ha Hla Hlt Hb Hlb. cbv zeta. unfold tamga_bn_mont_mul. pose proof (eval_bound a Ha).
  pose proof (mont_fold_spec a b (replicate N 0) 0 0 Ha Hla Hlt Hb (limbs_replicate _) (length_replicate _ _)) as Hf.
  destruct (fold_left _ b _) as [[low tn] u]. destruct Hf as (F1 & F2 & F3 & F4 & q & Hq);
    [unfold limb; lia|rewrite eval_replicate; lia|]. rewrite eval_replicate in Hq. rewrite Hlb in Hq.
  destruct (final_subtract low tn m (eval low + W N * tn)) as (R1 & R2 & R3); [done|done|done|unfold limb in F3; lia|lia|lia|].
  pose proof (eval_bound _ R1) as B. rewrite R2 in B. pose proof (W_pos N). pose proof (eval_bound low F1). unfold limb in F3.
  split_and!; [done|done|lia| |]; rewrite R3; destruct (Z.ltb_spec (eval low + W N * tn) M); try lia.
  - exists q. lia.
  - exists (q - W N). lia.
Qed.

(** ** Residues in Montgomery form *)

Context (Hodd : Z.odd m0 = true).

Lemma mod_cancel x y : (M | W N * (x - y)) -> (M | x - y).
Proof.
  intros Hd. apply Z.gauss in Hd; [done|]. apply Z.coprime_pow_r; [lia|]. apply Z.bezout_1_gcd.
  apply Zodd_bool_iff in Hodd. rewrite Zodd_ex_iff in Hodd.
  destruct Hodd as [k Hk]. exists 1, (- (k + 2 ^ 31 * eval mrest)). rewrite Em. cbn [eval]. lia.
Qed.

(** [l] represents the residue [x]. *)
Definition mont (x : Z) (l : list Z) : Prop :=
  limbs_ok l /\ length l = N /\ 0 <= eval l < M /\ (M | eval l - x * W N).

Lemma mont_mul_mont x y a b : mont x a -> mont y b -> mont (x * y) (tamga_bn_mont_mul a b m n0inv).
Proof.
  intros (A1 & A2 & A3 & qa & A4) (B1 & B2 & B3 & qb & B4).
  destruct (mont_mul_spec a b) as (R1 & R2 & R3 & q & R4); [done|done|lia|done|done|]. split_and!; [done|done|lia..|].
  apply mod_cancel. exists (q + qa * eval b + qb * eval a - qa * qb * M).
  replace (x * y * W N) with (y * (x * W N)) by ring. replace (x * W N) with (eval a - qa * M) by lia.
  rewrite Z.mul_sub_distr_l. replace (W N * eval (tamga_bn_mont_mul a b m n0inv)) with (q * M + eval a * eval b) by lia.
  replace (W N * (y * (eval a - qa * M))) with ((y * W N) * (eval a - qa * M)) by ring.
  replace (y * W N) with (eval b - qb * M) by lia. ring.
Qed.

(** Leaving Montgomery form. *)
Lemma mont_out x a : mont x a -> eval (tamga_bn_mont_mul a (1 :: replicate (N - 1) 0) m n0inv) = x mod M /\
  limbs_ok (tamga_bn_mont_mul a (1 :: replicate (N - 1) 0) m n0inv) /\ length (tamga_bn_mont_mul a (1 :: replicate (N - 1) 0) m n0inv) = N.
Proof.
  intros (A1 & A2 & A3 & qa & A4).
  destruct (mont_mul_spec a (1 :: replicate (N - 1) 0)) as (R1 & R2 & R3 & q & R4); [done|done|lia| | |].
  { constructor; [unfold limb; lia|apply limbs_replicate]. }
  { cbn [length]. rewrite length_replicate, Em. simpl. lia. }
  cbn [eval] in R4. rewrite eval_replicate in R4. split_and!; [|done|done]. symmetry. apply Zdivide_mod_minus; [done|].
  destruct (mod_cancel (eval (tamga_bn_mont_mul a (1 :: replicate (N - 1) 0) m n0inv)) x) as [q' Hq']; [exists (q + qa); lia|].
  exists (- q'). lia.
Qed.

(** ** The ladder *)

Lemma ladder_spec exponent k x acc base_mont :
  bytes_ok exponent -> (k <= 8 * length exponent)%nat ->
  mont (x ^ (os2ip exponent / 2 ^ Z.of_nat k)) acc -> mont x base_mont ->
  mont (x ^ os2ip exponent) (ladder exponent k acc base_mont m n0inv).
Proof.
  intros Hok. pose proof (os2ip_bound exponent Hok) as He. revert acc. induction k as [|k IH]; intros acc Hk Hacc Hbase; cbn [ladder].
  - change (2 ^ Z.of_nat 0) with 1 in Hacc. by rewrite Z.div_1_r in Hacc.
  - pose proof (mont_mul_mont _ _ _ _ Hacc Hacc) as Hsq. set (e := os2ip exponent) in *.
    assert (e / 2 ^ Z.of_nat k = 2 * (e / 2 ^ Z.of_nat (S k)) + tamga_bn_be_bit exponent k) as Hbit.
    { rewrite be_bit_spec by (done || lia). fold e. rewrite Nat2Z.inj_succ, Z.pow_succ_r, (Z.mul_comm 2 (2 ^ _)) by lia.
      assert (0 < 2 ^ Z.of_nat k) by (apply Z.pow_pos_nonneg; lia). rewrite <- Z.div_div by lia. zdm. }
    assert (0 <= e / 2 ^ Z.of_nat (S k)) by (apply Z.div_pos; lia).
    apply IH; [lia| |done]. destruct (Z.eqb_spec (tamga_bn_be_bit exponent k) 0) as [E|E]; cbn [negb].
    + rewrite Hbit, E, Z.add_0_r, Z.mul_comm, Z.pow_mul_r, Z.pow_2_r by lia. done.
    + assert (tamga_bn_be_bit exponent k = 1) as E1.
      { rewrite be_bit_spec in * by (done || lia). pose proof (Z.mod_pos_bound (os2ip exponent / 2 ^ Z.of_nat k) 2). lia. }
      rewrite Hbit, E1, Z.pow_add_r, Z.pow_1_r, (Z.mul_comm 2), Z.pow_mul_r, Z.pow_2_r by lia. by apply mont_mul_mont.
Qed.
End Mont.

Lemma highest_bit_spec exponent i :
  bytes_ok exponent -> (i <= 8 * length exponent)%nat -> os2ip exponent < 2 ^ Z.of_nat i ->
  match highest_bit_loop exponent i with
  | Some h => (h < i)%nat /\ os2ip exponent / 2 ^ Z.of_nat (S h) = 0 /\ 0 < os2ip exponent
  | None => os2ip exponent = 0
  end.
Proof.
  intros Hok. pose proof (os2ip_bound exponent Hok) as He. induction i as [|i IH]; intros Hi Hlt; cbn [highest_bit_loop].
  - change (2 ^ Z.of_nat 0) with 1 in Hlt. lia.
  - rewrite be_bit_spec by (done || lia). destruct (Z.eqb_spec (os2ip exponent / 2 ^ Z.of_nat i mod 2) 0) as [E|E]; cbn [negb].
    + assert (os2ip exponent / 2 ^ Z.of_nat i = 0) as E0.
      { rewrite Nat2Z.inj_succ, Z.pow_succ_r in Hlt by lia. assert (0 < 2 ^ Z.of_nat i) by (apply Z.pow_pos_nonneg; lia).
        assert (0 <= os2ip exponent / 2 ^ Z.of_nat i < 2) by (split; [apply Z.div_pos; lia|apply Z.div_lt_upper_bound; lia]). zdm. }
      assert (0 < 2 ^ Z.of_nat i) by (apply Z.pow_pos_nonneg; lia). apply Z.div_small_iff in E0; [|lia].
      specialize (IH ltac:(lia) ltac:(lia)). destruct (highest_bit_loop exponent i); [|done]. destruct IH as (? & ? & ?). split_and!; [lia|done..].
    + split_and!; [lia|apply Z.div_small; lia|]. destruct (Z.eq_dec (os2ip exponent) 0) as [E0|]; [|lia].
      rewrite E0, Z.div_0_l in E by (apply Z.pow_nonzero; lia). done.
Qed.

(** ** Loading and storing *)

Lemma W_bytes offset : W (offset / 4) * 2 ^ (8 * Z.of_nat (offset mod 4)) = 2 ^ (8 * Z.of_nat offset).
Proof.
  unfold W. rewrite <- Z.pow_add_r by lia. f_equal. pose proof (Nat.div_mod_eq offset 4). lia.
Qed.

(** A limb of a multiple of [2 ^ (8 (offset + 1))]. *)
Lemma limb_multiple l offset :
  limbs_ok l -> (2 ^ (8 * Z.of_nat (S offset)) | eval l) ->
  exists y, nth (offset / 4) l 0 = y * 2 ^ (8 * Z.of_nat (S (offset mod 4))).
Proof.
  intros Hl [q Hq]. rewrite nth_eval, Hq by done. pose proof (W_pos (offset / 4)).
  assert (2 ^ (8 * Z.of_nat (S offset)) = 2 ^ (8 * Z.of_nat (S (offset mod 4))) * W (offset / 4)) as E.
  { rewrite pow_8_S, <- W_bytes, (pow_8_S (offset mod 4)). lia. }
  rewrite E, Z.mul_assoc, Z.div_mul by lia.
  pose proof (Nat.mod_upper_bound offset 4 ltac:(lia)) as Hr.
  set (s := 8 * Z.of_nat (S (offset mod 4))). assert (0 <= s <= 32) as Hs by lia.
  replace (2 ^ 32) with (2 ^ s * 2 ^ (32 - s)) by (rewrite <- Z.pow_add_r by lia; f_equal; lia).
  assert (0 < 2 ^ s) by (apply Z.pow_pos_nonneg; lia). assert (0 < 2 ^ (32 - s)) by (apply Z.pow_pos_nonneg; lia).
  rewrite (Z.mul_comm (2 ^ s)), Z.mul_mod_distr_r by lia. eauto.
Qed.

Lemma from_be_fold bs limb_count k :
  bytes_ok bs -> (k <= length bs)%nat -> (length bs <= 4 * limb_count)%nat ->
  let l := fold_left (from_be_step bs) (seq 0 k) (replicate limb_count 0) in
  limbs_ok l /\ length l = limb_count /\ eval l = os2ip (take k bs) * 2 ^ (8 * Z.of_nat (length bs - k)).
Proof.
  intros Hok Hk Hn. cbv zeta. induction k as [|k IH].
  { cbn [seq fold_left]. split_and!; [apply limbs_replicate|apply length_replicate|]. rewrite eval_replicate. done. }
  specialize (IH ltac:(lia)). rewrite seq_S, fold_left_app. cbn [fold_left Nat.add].
  set (l := fold_left _ (seq 0 k) _) in *. destruct IH as (L1 & L2 & L3). unfold from_be_step.
  set (offset := (length bs - 1 - k)%nat). assert (length bs - k = S offset)%nat as Eo by lia. rewrite Eo in L3.
  assert (offset / 4 < limb_count)%nat as Hlc by (apply Nat.Div0.div_lt_upper_bound; lia).
  rewrite L2, (proj2 (Nat.ltb_lt _ _) Hlc).
  destruct (limb_multiple l offset L1) as [y Hy]; [rewrite L3; by exists (os2ip (take k bs))|].
  pose proof (Nat.mod_upper_bound offset 4 ltac:(lia)) as Hr. set (r := (offset mod 4)%nat) in *.
  assert (is_byte (nth k bs 0)) as Hb by (apply nth_Forall; [done|unfold is_byte; lia]). set (b := nth k bs 0) in *. unfold is_byte in Hb.
  rewrite (Z.mul_comm (Z.of_nat r) 8). assert (0 < 2 ^ (8 * Z.of_nat r)) as Hp by apply pow_8_pos.
  assert (limb (nth (offset / 4) l 0)) as Hx by (apply nth_Forall; [done|unfold limb; lia]). rewrite Hy in *.
  assert (exists c, 2 ^ 32 = c * 2 ^ (8 * Z.of_nat (S r))) as [c Hc].
  { exists (2 ^ (32 - 8 * Z.of_nat (S r))). rewrite <- Z.pow_add_r by lia. f_equal. lia. }
  assert (b * 2 ^ (8 * Z.of_nat r) < 2 ^ (8 * Z.of_nat (S r))) as Hbs by (rewrite pow_8_S; nia).
  assert (Z.lor (y * 2 ^ (8 * Z.of_nat (S r))) (u32 (Z.shiftl b (8 * Z.of_nat r))) = y * 2 ^ (8 * Z.of_nat (S r)) + b * 2 ^ (8 * Z.of_nat r)
    /\ y * 2 ^ (8 * Z.of_nat (S r)) + b * 2 ^ (8 * Z.of_nat r) < 2 ^ 32) as [-> Hlt].
  { unfold limb in Hx. pose proof (pow_8_pos (S r)). rewrite Z.shiftl_mul_pow2 by lia. unfold u32.
    assert (0 <= y /\ y + 1 <= c) as [Hy0 Hyc] by nia. rewrite Z.mod_small by nia.
    split; [|nia]. rewrite Z.lor_comm, lor_disjoint_add by nia. lia. }
  split_and!.
  - apply Forall_insert; [done|]. unfold limb in *. nia.
  - by rewrite length_insert.
  - rewrite eval_insert, Hy, L3, (take_S_nth bs), os2ip_snoc by lia. fold b. replace (length bs - S k)%nat with offset by lia.
    rewrite (pow_8_S offset). rewrite <- (W_bytes offset). fold r. ring.
Qed.

Lemma from_be_spec bs limb_count :
  bytes_ok bs -> (length bs <= 4 * limb_count)%nat ->
  let l := tamga_bn_from_be bs limb_count in limbs_ok l /\ length l = limb_count /\ eval l = os2ip bs.
Proof.
  intros Hok Hn. destruct (from_be_fold bs limb_count (length bs) Hok ltac:(lia) Hn) as (L1 & L2 & L3).
  unfold tamga_bn_from_be. split_and!; [done|done|]. rewrite L3, firstn_all, Nat.sub_diag. change (2 ^ (8 * Z.of_nat 0)) with 1. lia.
Qed.

Lemma to_be_spec l len : limbs_ok l -> tamga_bn_to_be l len = i2osp (eval l) len.
Proof.
  intros Hl. unfold tamga_bn_to_be, i2osp. apply map_ext. intros i. set (offset := (len - 1 - i)%nat). unfold u8.
  pose proof (W_pos (offset / 4)). pose proof (pow_8_pos (offset mod 4)). rewrite <- (W_bytes offset), <- Z.div_div by lia.
  destruct (Nat.ltb_spec (offset / 4) (length l)) as [Hlt|Hge].
  - rewrite nth_eval by done. pose proof (Nat.mod_upper_bound offset 4 ltac:(lia)) as Hr. set (r := (offset mod 4)%nat) in *.
    rewrite (Z.mul_comm (Z.of_nat r) 8), Z.shiftr_div_pow2 by lia. set (y := eval l / W (offset / 4)).
    replace (2 ^ 32) with (2 ^ (8 * Z.of_nat r) * (2 ^ 8 * 2 ^ (24 - 8 * Z.of_nat r))).
    2:{ rewrite <- !Z.pow_add_r by lia. f_equal. lia. }
    assert (0 < 2 ^ (24 - 8 * Z.of_nat r)) by (apply Z.pow_pos_nonneg; lia).
    rewrite Z.rem_mul_r, (Z.mul_comm (2 ^ (8 * Z.of_nat r))), Z.div_add, (Z.div_small (y mod _)) by (try apply Z.mod_pos_bound; lia).
    rewrite Z.add_0_l, Z.rem_mul_r, (Z.mul_comm (2 ^ 8)), Z_mod_plus_full, Z.mod_mod by lia. done.
  - pose proof (eval_bound l Hl) as B. rewrite (Z.div_small (eval l)); [by rewrite Z.div_0_l by lia|].
    assert (W (length l) <= W (offset / 4)) by (apply Z.pow_le_mono_r; lia). lia.
Qed.

(** ** The exponentiation *)

Lemma land_pow2 x k : 0 <= k -> (Z.land x (2 ^ k) =? 0) = negb (Z.testbit x k).
Proof.
  intros Hk. destruct (Z.testbit x k) eqn:E; cbn [negb].
  - apply Z.eqb_neq. intros H. apply (f_equal (fun z => Z.testbit z k)) in H.
    rewrite Z.land_spec, Z.pow2_bits_true, E, Z.bits_0 in H by lia. done.
  - apply Z.eqb_eq. apply Z.bits_inj'. intros i Hi. rewrite Z.land_spec, Z.bits_0, Z.pow2_bits_eqb by lia.
    destruct (Z.eqb_spec k i) as [<-|]; [by rewrite E|apply andb_false_r].
Qed.

Lemma land_top x : limb x -> (Z.land x 0x80000000 =? 0) = (x <? 2 ^ 31).
Proof.
  unfold limb. intros Hx. change 0x80000000 with (2 ^ 31). rewrite land_pow2 by lia.
  pose proof (Z.testbit_spec' x 31 ltac:(lia)) as Hs. destruct (Z.testbit x 31); cbn [negb Z.b2z] in *; symmetry;
    [apply Z.ltb_ge|apply Z.ltb_lt]; zdm.
Qed.

(** What the exponentiation needs of its arguments. *)
Definition modexp_domain (base modulus exponent : bytes) : Prop :=
  0 < zlen modulus <= TAMGA_BN_MAX_BYTES /\ 0 < zlen exponent <= zlen modulus /\ zlen modulus mod 4 = 0 /\
  Z.odd (os2ip modulus) = true /\ 2 ^ (8 * zlen modulus - 1) <= os2ip modulus /\
  os2ip base < os2ip modulus /\ 0 < os2ip exponent.

(** The value, once the checks have passed. *)
Lemma modexp_value m base_limbs exponent x h :
  limbs_ok m -> (1 <= length m)%nat -> Z.odd (nth 0 m 0) = true -> 2 ^ 31 <= nth (length m - 1) m 0 ->
  limbs_ok base_limbs -> length base_limbs = length m -> eval base_limbs = x -> x < eval m ->
  bytes_ok exponent -> (h < 8 * length exponent)%nat -> os2ip exponent / 2 ^ Z.of_nat (S h) = 0 ->
  let n0inv := tamga_bn_n0inv (nth 0 m 0) in
  let r := (tamga_bn_sub (replicate (length m) 0) m).1 in
  let rr := double_times (length m * 32) r m in
  let base_mont := tamga_bn_mont_mul base_limbs rr m n0inv in
  let acc := ladder exponent (S h) r base_mont m n0inv in
  let out := tamga_bn_mont_mul acc (1 :: replicate (length m - 1) 0) m n0inv in
  limbs_ok out /\ eval out = x ^ os2ip exponent mod eval m.
Proof.
  intros Hm Hn Hodd Htop Hb Hlb Hx Hlt Hok Hh Hhi. cbv zeta. set (n0inv := tamga_bn_n0inv _).
  destruct m as [|m0 mrest] eqn:Em; [simpl in Hn; lia|]. rewrite <- Em in *.
  assert (nth 0 m 0 = m0) as E0 by (by rewrite Em). rewrite E0 in *.
  pose proof (n0inv_spec m0 Hodd) as Hinv. fold n0inv in Hinv. assert (limb n0inv) as Hlimb by apply u32_limb.
  pose proof (eval_bound m Hm) as Bm. pose proof (W_pos (length m)) as HW.
  assert (W (length m) < 2 * eval m) as Htop2.
  { rewrite nth_eval in Htop by done. assert (W (length m) = 2 ^ 32 * W (length m - 1)) as EW.
    { rewrite <- W_S. f_equal. lia. }
    pose proof (W_pos (length m - 1)) as Hw1. rewrite Z.mod_small in Htop.
    2:{ split; [apply Z.div_pos; lia|apply Z.div_lt_upper_bound; lia]. }
    assert (2 ^ 31 * W (length m - 1) <= eval m) as Hle.
    { pose proof (Z.mul_div_le (eval m) (W (length m - 1)) Hw1). nia. }
    assert (eval m <> 2 ^ 31 * W (length m - 1)); [|lia]. intros E. apply Zodd_bool_iff in Hodd. rewrite Zodd_ex_iff in Hodd.
    destruct Hodd as [k Hk]. rewrite Em in E at 1. cbn [eval] in E. lia. }
  destruct (sub_spec (replicate (length m) 0) m) as (out & Ho & S1 & S2 & S3); [apply limbs_replicate|done|apply length_replicate|].
  rewrite eval_replicate, length_replicate in S3. rewrite length_replicate in S2.
  set (r := (tamga_bn_sub _ m).1) in *. pose proof (eval_bound r S1) as Br. rewrite S2 in Br.
  assert (out = 1) as -> by nia. assert (eval r < eval m) as Hr by lia.
  destruct (double_times_spec (length m * 32) r m S1 Hm S2 Hr) as (D1 & D2 & D3). set (rr := double_times _ r m) in *.
  assert (mont m 1 r) as Hmr. { split_and!; [done|done|lia..|]. exists (-1). lia. }
  pose proof (Z.mod_pos_bound (2 ^ Z.of_nat (length m * 32) * eval r) (eval m) ltac:(lia)) as Brr.
  assert (mont m x (tamga_bn_mont_mul base_limbs rr m n0inv)) as Hbm.
  { destruct (mont_mul_spec m m0 mrest Em Hm n0inv Hinv Hlimb base_limbs rr) as (R1 & R2 & R3 & q & R4); [done|done|lia|done|done|].
    split_and!; [done|done|lia..|]. apply (mod_cancel m m0 mrest Em Hodd).
    replace (2 ^ Z.of_nat (length m * 32)) with (W (length m)) in D3 by (unfold W; f_equal; lia).
    rewrite Z.mod_eq in D3 by lia. rewrite D3, S3, Hx in R4. rewrite Z.mul_sub_distr_l.
    exists (q - x * W (length m) - x * (W (length m) * (0 - eval m + 1 * W (length m)) / eval m)). lia. }
  pose proof (ladder_spec m m0 mrest Em Hm n0inv Hinv Hlimb Hodd exponent (S h) x r (tamga_bn_mont_mul base_limbs rr m n0inv) Hok ltac:(lia)) as Hlad.
  rewrite Hhi in Hlad. specialize (Hlad Hmr Hbm).
  destruct (mont_out m m0 mrest Em Hm n0inv Hinv Hlimb Hodd _ _ Hlad) as (O1 & O2 & _). done.
Qed.

Lemma modexp_correct base modulus exponent :
  bytes_ok base -> bytes_ok modulus -> bytes_ok exponent -> length base = length modulus ->
  match tamga_bn_modexp base modulus exponent with
  | Some out => modexp_domain base modulus exponent /\
                out = i2osp (os2ip base ^ os2ip exponent mod os2ip modulus) (length modulus)
  | None => ~ modexp_domain base modulus exponent
  end.
Proof.
  intros Hb Hm He Hl. unfold tamga_bn_modexp, modexp_domain. rewrite <- Hl, firstn_all, Hl. cbv zeta.
  destruct (_ || _) eqn:Esz; [unfold TAMGA_BN_MAX_BYTES in *; intros H; lia|].
  set (n := tamga_bn_limbs_for (length modulus)).
  assert (length modulus <= 4 * n /\ 4 * n < length modulus + 4)%nat as [Hn1 Hn2].
  { subst n. unfold tamga_bn_limbs_for. pose proof (Nat.div_mod_eq (length modulus + 3) 4).
    pose proof (Nat.mod_upper_bound (length modulus + 3) 4 ltac:(lia)). lia. }
  destruct (from_be_spec modulus n Hm ltac:(lia)) as (M1 & M2 & M3). destruct (from_be_spec base n Hb ltac:(lia)) as (B1 & B2 & B3).
  set (m := tamga_bn_from_be modulus n) in *. set (b := tamga_bn_from_be base n) in *.
  assert (Z.odd (nth 0 m 0) = Z.odd (os2ip modulus)) as Hodd.
  { rewrite nth_eval, W_0, Z.div_1_r, <- M3 by done. rewrite !Zodd_mod. f_equal. zdm. }
  assert ((Z.land (nth 0 m 0) 1 =? 0) = negb (Z.odd (os2ip modulus))) as ->.
  { rewrite (land_pow2 _ 0) by lia. by rewrite Z.bit0_odd, Hodd. }
  assert (limb (nth (n - 1) m 0)) as Hlimb by (apply nth_Forall; [done|unfold limb; lia]). rewrite land_top by done.
  pose proof (os2ip_bound modulus Hm) as Bm. pose proof (eval_bound m M1) as Bw. rewrite M2 in Bw.
  assert (nth (n - 1) m 0 = os2ip modulus / W (n - 1)) as Etop.
  { rewrite nth_eval, M3 by done. rewrite M3 in Bw. replace n with (S (n - 1)) in Bw at 1 by lia. rewrite W_S in Bw.
    pose proof (W_pos (n - 1)). apply Z.mod_small. split; [apply Z.div_pos; lia|apply Z.div_lt_upper_bound; lia]. }
  assert (2 ^ 31 <= nth (n - 1) m 0 <-> zlen modulus mod 4 = 0 /\ 2 ^ (8 * zlen modulus - 1) <= os2ip modulus) as Htop.
  { rewrite Etop. pose proof (W_pos (n - 1)). assert (W (n - 1) * 2 ^ 31 = 2 ^ (32 * Z.of_nat n - 1)) as EW.
    { unfold W. rewrite <- Z.pow_add_r by lia. f_equal. lia. }
    assert (2 ^ 31 <= os2ip modulus / W (n - 1) <-> 2 ^ (32 * Z.of_nat n - 1) <= os2ip modulus) as ->.
    { rewrite <- EW. split; intros H'; [pose proof (Z.mul_div_le (os2ip modulus) (W (n - 1)) ltac:(lia)); nia|].
      apply Z.div_le_lower_bound; lia. }
    destruct (Z.eq_dec (zlen modulus) (4 * Z.of_nat n)) as [E|E].
    - rewrite E. replace (8 * (4 * Z.of_nat n) - 1) with (32 * Z.of_nat n - 1) by lia. split; [|tauto]. intros ?. split; [zdm|done].
    - split; [|intros [? _]; zdm]. intros H'. assert (2 ^ (8 * zlen modulus) <= 2 ^ (32 * Z.of_nat n - 1)) by (apply Z.pow_le_mono_r; lia). lia. }
  destruct (Z.odd (os2ip modulus)) eqn:Eodd; cbn [negb]; [|intros Hdom; intuition congruence].
  destruct (Z.ltb_spec (nth (n - 1) m 0) (2 ^ 31)) as [Hlow|Hge]; [intros Hdom; apply Z.lt_nge in Hlow; tauto|]. apply Htop in Hge as Htops.
  rewrite cmp_spec by (done || congruence). rewrite M3, B3. destruct (Z.leb_spec (os2ip modulus) (os2ip base)) as [Hge2|Hlt]; [intros Hdom; lia|].
  pose proof (os2ip_bound exponent He) as Be.
  pose proof (highest_bit_spec exponent (length exponent * 8) He ltac:(lia)) as Hh.
  replace (2 ^ Z.of_nat (length exponent * 8)) with (2 ^ (8 * zlen exponent)) in Hh by (f_equal; lia). specialize (Hh ltac:(lia)).
  destruct (highest_bit_loop exponent (length exponent * 8)) as [h|]; [|intros Hdom; lia]. destruct Hh as (Hh1 & Hh2 & Hh3).
  destruct (modexp_value m b exponent (os2ip base) h) as [V1 V2]; try done; try (by rewrite M2); try congruence; try lia.
  rewrite M2 in V1, V2. rewrite to_be_spec by done. rewrite V2, M3. split; [|done].
  unfold TAMGA_BN_MAX_BYTES in *. split_and!; try done; try lia; tauto.
Qed.

(** (C25) Modular exponentiation. For a base of the width of the modulus, the
    function returns base^exponent mod modulus, left-padded to that width, when
    the modulus is odd, a whole number of limbs wide with its top bit set and at
    most 1024 bytes, the base is below it and the exponent is positive and not
    wider; and it refuses every other input. *)
Theorem bn_modexp_exact base modulus exponent out :
  bytes_ok base -> bytes_ok modulus -> bytes_ok exponent -> length base = length modulus ->
  tamga_bn_modexp base modulus exponent = Some out <->
  modexp_domain base modulus exponent /\ out = i2osp (os2ip base ^ os2ip exponent mod os2ip modulus) (length modulus).
Proof.
  intros Hb Hm He Hl. pose proof (modexp_correct base modulus exponent Hb Hm He Hl) as H.
  destruct (tamga_bn_modexp base modulus exponent) as [o|].
  - destruct H as [Hd ->]. split; [by intros [= <-]|]. by intros [_ ->].
  - split; [done|]. by intros [Hd _].
Qed.

Lemma bn_modexp_exact_witness :
  modexp_domain [0; 0; 0; 5] [255; 255; 255; 251] [3] /\
  [0; 0; 0; 125] = i2osp (os2ip [0; 0; 0; 5] ^ os2ip [3] mod os2ip [255; 255; 255; 251]) 4.
Proof.
  apply (bn_modexp_exact [0; 0; 0; 5] [255; 255; 255; 251] [3] [0; 0; 0; 125]).
  - repeat (constructor; [split; vm_compute; congruence|]); constructor.
  - repeat (constructor; [split; vm_compute; congruence|]); constructor.
  - repeat (constructor; [split; vm_compute; congruence|]); constructor.
  - reflexivity.
  - vm_compute. reflexivity.
Defined.
