(* ===== verification/Rsa.v ===== *)
(** * RSA signatures: [src/src/crypto/rsa.c]

    The spans the key structure points into are lists. [recovered], [encoded]
    and [expected] are the first [key.modulus_len] bytes of the arrays of that
    name. A null [message] with a positive length is refused by the callers'
    own checks and is not an input here. *)

From Stdlib Require Import String.
From S2P Require Import Prelude Octets Sha2 Hkdf Der Bn.
From stdpp Require Import list.
#[local] Open Scope Z_scope.

Definition TAMGA_OID_RSA_ENCRYPTION : bytes := [0x2a; 0x86; 0x48; 0x86; 0xf7; 0x0d; 0x01; 0x01; 0x01].

Definition TAMGA_SHA256_DIGEST_INFO_PREFIX : bytes :=
  [0x30; 0x31; 0x30; 0x0d; 0x06; 0x09; 0x60; 0x86; 0x48; 0x01; 0x65; 0x03; 0x04; 0x02; 0x01; 0x05; 0x00; 0x04; 0x20].

Definition TAMGA_RSA_MIN_MODULUS_BYTES : nat := 256.
Definition TAMGA_RSA_MAX_MODULUS_BYTES : nat := 1024.

Record TamgaRsaPublicKey := mk_rsa_key { modulus : bytes; exponent : bytes }.

Definition tamga_rsa_read_rsa_public_key (der : option bytes) : option TamgaRsaPublicKey :=
  let reader := tamga_der_init der in
  '(sequence, reader) ← tamga_der_expect reader TAMGA_DER_SEQUENCE;
  if negb (tamga_der_at_end reader) then None
  else
    let reader := tamga_der_init (Some sequence) in
    '(n, reader) ← tamga_der_read_unsigned reader;
    '(e, reader) ← tamga_der_read_unsigned reader;
    if negb (tamga_der_at_end reader) then None
    else if (length n <? TAMGA_RSA_MIN_MODULUS_BYTES)%nat || (TAMGA_RSA_MAX_MODULUS_BYTES <? length n)%nat then None
    else if Z.land (at_ n 0) 0x80 =? 0 then None
    else if (length e =? 0)%nat || (8 <? length e)%nat then None
    else if Z.land (nth (length e - 1) e 0) 1 =? 0 then None
    else if (length e =? 1)%nat && (at_ e 0 <=? 1) then None
    else Some (mk_rsa_key n e).

(** The optional NULL parameters of the algorithm identifier. *)
Definition rsa_parameters_ok (algorithm : TamgaDer) : bool :=
  if negb (tamga_der_at_end algorithm) then
    match tamga_der_expect algorithm TAMGA_DER_NULL with
    | None => false
    | Some (params, algorithm) => (length params =? 0)%nat && tamga_der_at_end algorithm
    end
  else true.

Definition tamga_rsa_parse_public_key (der : option bytes) : option TamgaRsaPublicKey :=
  match der with
  | None => None
  | Some _ =>
      let outer := tamga_der_init der in
      '(sequence, outer) ← tamga_der_expect outer TAMGA_DER_SEQUENCE;
      if negb (tamga_der_at_end outer) then None
      else
        let inner := tamga_der_init (Some sequence) in
        if (0 <? length sequence)%nat && (at_ sequence 0 =? TAMGA_DER_INTEGER) then tamga_rsa_read_rsa_public_key der
        else
          '(algorithm_content, inner) ← tamga_der_expect inner TAMGA_DER_SEQUENCE;
          algorithm ← tamga_der_expect_oid (tamga_der_init (Some algorithm_content)) TAMGA_OID_RSA_ENCRYPTION;
          if negb (rsa_parameters_ok algorithm) then None
          else
            '(bit_string, inner) ← tamga_der_read_bit_string inner;
            if negb (tamga_der_at_end inner) then None
            else tamga_rsa_read_rsa_public_key (Some bit_string)
  end.

Definition tamga_rsa_public_op (key : TamgaRsaPublicKey) (signature : bytes) : option bytes :=
  if negb (length signature =? length (modulus key))%nat then None
  else tamga_bn_modexp signature (modulus key) (exponent key).

Definition tamga_rsa_verify_pkcs1_sha256 (spki message signature : bytes) : bool :=
  match tamga_rsa_parse_public_key (Some spki) with
  | None => false
  | Some key =>
      match tamga_rsa_public_op key signature with
      | None => false
      | Some recovered =>
          let digest := tamga_sha256 (Some message) in
          let suffix_len := (length TAMGA_SHA256_DIGEST_INFO_PREFIX + 32)%nat in
          let modulus_len := length (modulus key) in
          if (modulus_len <? suffix_len + 11)%nat then false
          else
            let padding_len := (modulus_len - suffix_len - 3)%nat in
            let expected :=
              [0x00; 0x01] ++ replicate padding_len 0xff ++ [0x00] ++ TAMGA_SHA256_DIGEST_INFO_PREFIX ++ digest in
            tamga_ct_memeq (Some recovered) (Some expected) modulus_len
      end
  end.

(** The loop of MGF1: [remaining] is [mask_len - produced]. *)
Fixpoint mgf1_loop (fuel : nat) (seed : bytes) (remaining : nat) (index : Z) : bytes :=
  match fuel with
  | O => []
  | S f =>
      if (0 <? remaining)%nat then
        let counter := [u8 (Z.shiftr index 24); u8 (Z.shiftr index 16); u8 (Z.shiftr index 8); u8 index] in
        let ctx := tamga_sha256_init in
        let ctx := tamga_sha256_update ctx (Some seed) in
        let ctx := tamga_sha256_update ctx (Some counter) in
        let block := tamga_sha256_final ctx in
        let taken := Nat.min remaining 32 in
        take taken block ++ mgf1_loop f seed (remaining - taken) (u32 (index + 1))
      else []
  end.

Definition tamga_mgf1_sha256 (seed : bytes) (mask_len : nat) : bytes := mgf1_loop (S mask_len) seed mask_len 0.

(** The checks [tamga_rsa_verify_pss_sha256] makes on the opened block. *)
Definition pss_check (em_len : nat) (leading_zero_bits : Z) (encoded message : bytes) : bool :=
  let hash_len := 32%nat in
  let salt_len := 32%nat in
  if (em_len <? hash_len + salt_len + 2)%nat then false
  else if negb (nth (em_len - 1) encoded 0 =? 0xbc) then false
  else if negb (Z.land (nth 0 encoded 0) (u8 (Z.shiftl 0xff (8 - leading_zero_bits))) =? 0) then false
  else
    let db_len := (em_len - hash_len - 1)%nat in
    let h := take hash_len (drop db_len encoded) in
    let db_mask := tamga_mgf1_sha256 h db_len in
    let db := zip_with (fun d m => u8 (Z.lxor d m)) (take db_len encoded) db_mask in
    let db := <[0%nat := u8 (Z.land (nth 0 db 0) (Z.shiftr 0xff leading_zero_bits))]> db in
    if existsb (fun d => negb (d =? 0)) (take (db_len - salt_len - 1) db) then false
    else if negb (nth (db_len - salt_len - 1) db 0 =? 1) then false
    else
      let digest := tamga_sha256 (Some message) in
      let ctx := tamga_sha256_init in
      let ctx := tamga_sha256_update ctx (Some (replicate 8 0)) in
      let ctx := tamga_sha256_update ctx (Some digest) in
      let ctx := tamga_sha256_update ctx (Some (take salt_len (drop (db_len - salt_len) db))) in
      let recomputed := tamga_sha256_final ctx in
      tamga_ct_memeq (Some recomputed) (Some h) hash_len.

Definition tamga_rsa_verify_pss_sha256 (spki message signature : bytes) : bool :=
  match tamga_rsa_parse_public_key (Some spki) with
  | None => false
  | Some key =>
      match tamga_rsa_public_op key signature with
      | None => false
      | Some encoded =>
          let modulus_bits := (length (modulus key) * 8)%nat in
          let em_len := ((modulus_bits - 1 + 7) / 8)%nat in
          if negb (em_len =? length (modulus key))%nat then false
          else pss_check em_len (Z.of_nat (8 * em_len - (modulus_bits - 1))) encoded message
      end
  end.
