(* ===== verification/RsaSpec.v ===== *)
(** * What an accepted RSA signature is

    [Rsa] against RFC 8017: RSASSA-PKCS1-v1_5 and RSASSA-PSS with SHA-256, and
    the two DER encodings of a public key. *)

From Stdlib Require Import String.
From S2P Require Import Prelude Octets Sha2 Hkdf Gcm GcmSpec Der Bn BnSpec Rsa.
From stdpp Require Import list.
#[local] Open Scope Z_scope.

(** ** Public keys *)

(** Usable parameters: a modulus of 2048 to 8192 bits with its top bit set,
    an odd exponent above 1 that fits 8 bytes. *)
Definition rsa_key_ok (key : TamgaRsaPublicKey) : Prop :=
  256 <= zlen (modulus key) <= 1024 /\ 128 <= at_ (modulus key) 0 /\
  magnitude (exponent key) /\ zlen (exponent key) <= 8 /\
  Z.odd (os2ip (exponent key)) = true /\ 1 < os2ip (exponent key).

(** RSAPublicKey of RFC 8017, appendix A.1.1. *)
Definition rsa_public_key (key : TamgaRsaPublicKey) : bytes :=
  tlv TAMGA_DER_SEQUENCE (tlv TAMGA_DER_INTEGER (int_content (modulus key)) ++ tlv TAMGA_DER_INTEGER (int_content (exponent key))).

(** SubjectPublicKeyInfo with the rsaEncryption algorithm, its NULL parameters
    present or omitted. *)
Definition rsa_spki (key : TamgaRsaPublicKey) (with_null : bool) : bytes :=
  tlv TAMGA_DER_SEQUENCE
    (tlv TAMGA_DER_SEQUENCE (tlv TAMGA_DER_OID TAMGA_OID_RSA_ENCRYPTION ++ if with_null then tlv TAMGA_DER_NULL [] else []) ++
     tlv TAMGA_DER_BIT_STRING (0 :: rsa_public_key key)).

Definition rsa_key_of (der : bytes) (key : TamgaRsaPublicKey) : Prop :=
  rsa_key_ok key /\ (der = rsa_public_key key \/ exists with_null, der = rsa_spki key with_null).

Lemma at_byte l i : bytes_ok l -> is_byte (at_ l i).
Proof. intros Hl. apply (nth_Forall is_byte); [done|]. unfold is_byte. lia. Qed.

(** An exponent above 1, as the code tests it. *)
Lemma exponent_test e :
  bytes_ok e -> magnitude e ->
  ((length e =? 1)%nat && (at_ e 0 <=? 1)) = false <-> 1 < os2ip e.
Proof.
  intros Hok Hm. destruct Hm as [->|(c & v & -> & Hc)]; [vm_compute; done|]. rewrite at_0.
  apply Forall_cons in Hok as [Hb Hok]. unfold is_byte in Hb. destruct v as [|d v].
  - unfold os2ip. cbn [length fold_left]. rewrite Nat.eqb_refl. cbn [andb]. rewrite Z.leb_gt. lia.
  - cbn [length]. cbn [Nat.eqb andb]. split; [|done]. intros _.
    change (c :: d :: v) with ([c] ++ d :: v). rewrite os2ip_app. pose proof (os2ip_bound (d :: v) Hok).
    change (os2ip [c]) with (0 * 2 ^ 8 + c). assert (2 ^ 8 <= 2 ^ (8 * zlen (d :: v))) by (apply Z.pow_le_mono_r; cbn [length]; lia). nia.
Qed.

Lemma last_odd e : bytes_ok e -> (0 < length e)%nat -> (Z.land (nth (length e - 1) e 0) 1 =? 0) = negb (Z.odd (os2ip e)).
Proof.
  intros Hok Hl. replace (length e - 1)%nat with (length e - 1 - 0)%nat by lia. rewrite os2ip_nth by (done || lia).
  change (2 ^ (8 * Z.of_nat 0)) with 1. rewrite Z.div_1_r, (land_pow2 _ 0), Z.bit0_odd by lia. f_equal. rewrite !Zodd_mod. f_equal. zdm.
Qed.

Lemma magnitude_nonempty v : magnitude v -> (0 < length v)%nat.
Proof. intros [->|(c & v' & -> & _)]; simpl; lia. Qed.

Lemma int_content_length v : zlen v <= zlen (int_content v) <= zlen v + 1.
Proof. unfold int_content. dif; cbn [length]; lia. Qed.

Lemma tlv_long tag c r : zlen c <= zlen (tlv tag c ++ r) /\ zlen r <= zlen (tlv tag c ++ r).
Proof. unfold tlv. cbn [app length]. rewrite !length_app. lia. Qed.

Lemma int_content_bytes v : bytes_ok (int_content v) -> bytes_ok v.
Proof. unfold int_content. dif; [done|]. by intros [_ ?]%Forall_cons. Qed.

Lemma read_key_iff der key :
  bytes_ok der -> zlen der < 2 ^ 32 ->
  tamga_rsa_read_rsa_public_key (Some der) = Some key <-> rsa_key_ok key /\ der = rsa_public_key key.
Proof.
  intros Hok Hlen. unfold tamga_rsa_read_rsa_public_key, tamga_der_init. cbn [default from_option id]. split.
  - destruct (tamga_der_expect der TAMGA_DER_SEQUENCE) as [[sq r]|] eqn:Es; [|done]. cbn [mbind option_bind].
    apply der_expect_iff in Es as [-> Hsq]; [|done|low_tag_tac].
    destruct (tamga_der_at_end r) eqn:Er; cbn [negb]; [|done]. apply at_end_iff in Er as ->. rewrite app_nil_r in *.
    assert (bytes_ok sq) as Hsqb by (apply (tlv_content_bytes TAMGA_DER_SEQUENCE sq []); by rewrite app_nil_r).
    destruct (tamga_der_read_unsigned sq) as [[n r1]|] eqn:En; [|done]. cbn [mbind option_bind].
    apply read_unsigned_iff in En as (-> & Hn & Hnl); [|done]. apply tlv_content_bytes in Hsqb as [Hnb%int_content_bytes Hr1].
    destruct (tamga_der_read_unsigned r1) as [[e r2]|] eqn:Ee; [|done]. cbn [mbind option_bind].
    apply read_unsigned_iff in Ee as (-> & He & Hel); [|done]. apply tlv_content_bytes in Hr1 as [Heb%int_content_bytes _].
    destruct (tamga_der_at_end r2) eqn:Er2; cbn [negb]; [|done]. apply at_end_iff in Er2 as ->. rewrite app_nil_r in *.
    unfold TAMGA_RSA_MIN_MODULUS_BYTES, TAMGA_RSA_MAX_MODULUS_BYTES. destruct (_ || _) eqn:E1; [done|]. apply orb_false_iff in E1 as [E1 E1'].
    rewrite land_128 by (by apply at_byte). destruct (Z.ltb_spec (at_ n 0) 128); [done|].
    destruct (_ || _) eqn:E2; [done|]. apply orb_false_iff in E2 as [E2 E2']. pose proof (magnitude_nonempty e He). rewrite last_odd by (done || lia).
    destruct (Z.odd (os2ip e)) eqn:Eo; cbn [negb]; [|done]. destruct ((length e =? 1)%nat && (at_ e 0 <=? 1)) eqn:E3; [done|].
    apply exponent_test in E3; [|done|done]. intros [= <-]. unfold rsa_key_ok. cbn [modulus exponent]. split; [|done].
    split_and!; try done; lia.
  - intros [(Hn & Hn0 & He & Hel & Ho & He1) ->]. unfold rsa_public_key in *.
    set (sq := tlv TAMGA_DER_INTEGER (int_content (modulus key)) ++ tlv TAMGA_DER_INTEGER (int_content (exponent key))) in *.
    pose proof (tlv_long TAMGA_DER_SEQUENCE sq []) as [Hsl _]. rewrite app_nil_r in Hsl.
    assert (bytes_ok sq) as Hsqb by (apply (tlv_content_bytes TAMGA_DER_SEQUENCE sq []); by rewrite app_nil_r).
    rewrite (proj2 (der_expect_iff _ TAMGA_DER_SEQUENCE sq [] Hok ltac:(low_tag_tac))) by (rewrite app_nil_r; split; [done|lia]).
    cbn [mbind option_bind tamga_der_at_end length Nat.eqb negb].
    pose proof (int_content_length (modulus key)). pose proof (int_content_length (exponent key)).
    assert (magnitude (modulus key)) as Hnm.
    { destruct (modulus key) as [|c v]; [simpl in Hn; lia|]. right. exists c, v. rewrite at_0 in Hn0. split; [done|lia]. }
    subst sq. pose proof (tlv_content_bytes _ _ _ Hsqb) as [Hnb%int_content_bytes Hr1].
    rewrite (proj2 (read_unsigned_iff _ (modulus key) _ Hsqb)) by (split_and!; [done|done|lia]). cbn [mbind option_bind].
    rewrite (proj2 (read_unsigned_iff _ (exponent key) [] Hr1)) by (rewrite app_nil_r; split_and!; [done|done|lia]).
    cbn [mbind option_bind tamga_der_at_end length Nat.eqb negb].
    rewrite <- (app_nil_r (tlv _ _)) in Hr1. apply tlv_content_bytes in Hr1 as [Heb%int_content_bytes _].
    unfold TAMGA_RSA_MIN_MODULUS_BYTES, TAMGA_RSA_MAX_MODULUS_BYTES. pose proof (magnitude_nonempty _ He).
    replace (_ || _) with false by lia. rewrite land_128 by (by apply at_byte).
    rewrite (proj2 (Z.ltb_ge _ _)) by lia. replace (_ || _) with false by lia. rewrite last_odd, Ho by (done || lia). cbn [negb].
    apply exponent_test in He1; [|done|done]. rewrite He1. by destruct key.
Qed.

Lemma parameters_iff algorithm :
  bytes_ok algorithm ->
  rsa_parameters_ok algorithm = true <-> exists with_null : bool, algorithm = if with_null then tlv TAMGA_DER_NULL [] else [].
Proof.
  intros Hok. unfold rsa_parameters_ok. destruct (tamga_der_at_end algorithm) eqn:E; cbn [negb].
  { apply at_end_iff in E as ->. split; [|done]. intros _. by exists false. }
  split.
  - destruct (tamga_der_expect algorithm TAMGA_DER_NULL) as [[p r]|] eqn:Ee; [|done].
    apply der_expect_iff in Ee as [-> _]; [|done|low_tag_tac]. intros [Hp Hr]%andb_prop. apply at_end_iff in Hr as ->.
    apply Nat.eqb_eq, nil_length_inv in Hp as ->. exists true. by rewrite app_nil_r.
  - intros [[] ->]; [done|]. done.
Qed.

Lemma at_end_nil : tamga_der_at_end [] = true.
Proof. done. Qed.

Ltac der_step iff :=
  rewrite iff by (rewrite ?app_nil_r; split_and?; (done || lia)); cbn [mbind option_bind]; rewrite ?at_end_nil; cbn [negb].

Lemma rsa_spki_complete key with_null :
  bytes_ok (rsa_spki key with_null) -> zlen (rsa_spki key with_null) < 2 ^ 32 -> rsa_key_ok key ->
  tamga_rsa_parse_public_key (Some (rsa_spki key with_null)) = Some key.
Proof.
  intros Hok Hlen Hkey. unfold tamga_rsa_parse_public_key, tamga_der_init. cbn [default from_option id].
  unfold rsa_spki in *. set (params := if with_null then tlv TAMGA_DER_NULL [] else []) in *.
  set (alg := tlv TAMGA_DER_OID TAMGA_OID_RSA_ENCRYPTION ++ params) in *.
  set (bits := tlv TAMGA_DER_BIT_STRING (0 :: rsa_public_key key)) in *.
  set (sq := tlv TAMGA_DER_SEQUENCE alg ++ bits) in *.
  pose proof (tlv_long TAMGA_DER_SEQUENCE sq []) as [Hl _]. rewrite app_nil_r in Hl.
  pose proof (tlv_content_bytes TAMGA_DER_SEQUENCE sq []) as Hsq. rewrite app_nil_r in Hsq. specialize (Hsq Hok) as [Hsq _].
  pose proof (tlv_long TAMGA_DER_SEQUENCE alg bits) as [Hl2 Hl3]. fold sq in Hl2, Hl3.
  destruct (tlv_content_bytes TAMGA_DER_SEQUENCE alg bits Hsq) as [Halg Hbits].
  pose proof (tlv_long TAMGA_DER_BIT_STRING (0 :: rsa_public_key key) []) as [Hl4 _]. rewrite app_nil_r in Hl4. fold bits in Hl4.
  pose proof (tlv_content_bytes TAMGA_DER_BIT_STRING (0 :: rsa_public_key key) []) as Hin. rewrite app_nil_r in Hin.
  specialize (Hin Hbits) as [[_ Hin]%Forall_cons _]. cbn [length] in Hl4.
  der_step (proj2 (der_expect_iff _ TAMGA_DER_SEQUENCE sq [] Hok ltac:(low_tag_tac))).
  replace (_ && _) with false by (rewrite andb_comm; done).
  der_step (proj2 (der_expect_iff _ TAMGA_DER_SEQUENCE alg bits Hsq ltac:(low_tag_tac))).
  der_step (proj2 (expect_oid_iff alg TAMGA_OID_RSA_ENCRYPTION params Halg ltac:(done))).
  replace (rsa_parameters_ok params) with true.
  2:{ symmetry. apply parameters_iff; [|by exists with_null]. by apply (tlv_content_bytes TAMGA_DER_OID TAMGA_OID_RSA_ENCRYPTION). }
  cbn [negb]. der_step (proj2 (read_bit_string_iff bits (rsa_public_key key) [] Hbits)).
  apply read_key_iff; [done|lia|done].
Qed.

Lemma parse_key_iff der key :
  bytes_ok der -> zlen der < 2 ^ 32 ->
  tamga_rsa_parse_public_key (Some der) = Some key <-> rsa_key_of der key.
Proof.
  intros Hok Hlen. unfold rsa_key_of. split.
  - unfold tamga_rsa_parse_public_key, tamga_der_init. cbn [default from_option id].
    destruct (tamga_der_expect der TAMGA_DER_SEQUENCE) as [[sq r]|] eqn:Es; [|done]. cbn [mbind option_bind].
    apply der_expect_iff in Es as [E Hsq]; [|done|low_tag_tac].
    destruct (tamga_der_at_end r) eqn:Er; cbn [negb]; [|done]. apply at_end_iff in Er as ->.
    destruct (_ && _). { intros [? ->]%read_key_iff; [|done|done]. tauto. }
    rewrite E in Hok, Hlen. destruct (tlv_content_bytes _ _ _ Hok) as [Hsb _]. rewrite app_nil_r in E.
    pose proof (tlv_long TAMGA_DER_SEQUENCE sq []) as [Hl _].
    destruct (tamga_der_expect sq TAMGA_DER_SEQUENCE) as [[alg inner]|] eqn:Ea; [|done]. cbn [mbind option_bind].
    apply der_expect_iff in Ea as [-> Ha]; [|done|low_tag_tac]. destruct (tlv_content_bytes _ _ _ Hsb) as [Hab Hib].
    pose proof (tlv_long TAMGA_DER_SEQUENCE alg inner) as [_ Hl2].
    destruct (tamga_der_expect_oid alg TAMGA_OID_RSA_ENCRYPTION) as [params|] eqn:Eo; [|done]. cbn [mbind option_bind].
    apply expect_oid_iff in Eo as ->; [|done|done]. destruct (tlv_content_bytes _ _ _ Hab) as [_ Hpb].
    destruct (rsa_parameters_ok params) eqn:Ep; cbn [negb]; [|done]. apply parameters_iff in Ep as [with_null ->]; [|done].
    destruct (tamga_der_read_bit_string inner) as [[bits r2]|] eqn:Eb; [|done]. cbn [mbind option_bind].
    apply read_bit_string_iff in Eb as [-> Hb]; [|done]. destruct (tlv_content_bytes _ _ _ Hib) as [[_ Hbb]%Forall_cons _].
    destruct (tamga_der_at_end r2) eqn:Er2; cbn [negb]; [|done]. apply at_end_iff in Er2 as ->. rewrite app_nil_r in *.
    intros [Hk ->]%read_key_iff; [|done|lia]. split; [done|]. right. by exists with_null.
  - intros [Hk [->|[with_null ->]]]; [|by apply rsa_spki_complete].
    unfold tamga_rsa_parse_public_key, tamga_der_init. cbn [default from_option id].
    assert (tamga_rsa_read_rsa_public_key (Some (rsa_public_key key)) = Some key) as Hread by (by apply read_key_iff).
    unfold rsa_public_key in Hok, Hlen |- *. set (sq := tlv TAMGA_DER_INTEGER _ ++ _) in *.
    pose proof (tlv_long TAMGA_DER_SEQUENCE sq []) as [Hl _]. rewrite app_nil_r in Hl.
    der_step (proj2 (der_expect_iff _ TAMGA_DER_SEQUENCE sq [] Hok ltac:(low_tag_tac))). exact Hread.
Qed.

(** ** The RSA operation *)

(** Raising [signature] to the public exponent gives the block [em]; [n] is odd
    and a whole number of 32-bit words. *)
Definition rsa_opens (key : TamgaRsaPublicKey) (signature em : bytes) : Prop :=
  let n := os2ip (modulus key) in
  length signature = length (modulus key) /\ length em = length (modulus key) /\
  Z.odd n = true /\ zlen (modulus key) mod 4 = 0 /\
  os2ip signature < n /\ os2ip signature ^ os2ip (exponent key) mod n = os2ip em.

Lemma rsa_key_bytes der key : bytes_ok der -> zlen der < 2 ^ 32 -> rsa_key_of der key -> bytes_ok (modulus key) /\ bytes_ok (exponent key).
Proof.
  intros Hok Hlen [Hk Hder]. assert (bytes_ok (rsa_public_key key)) as Hp.
  { destruct Hder as [<-|[w ->]]; [done|]. unfold rsa_spki in Hok. rewrite <- (app_nil_r (tlv _ _)) in Hok.
    apply tlv_content_bytes in Hok as [Hok _]. apply tlv_content_bytes in Hok as [_ Hok].
    rewrite <- (app_nil_r (tlv _ _)) in Hok. apply tlv_content_bytes in Hok as [Hok _]. by apply Forall_cons in Hok as [_ ?]. }
  unfold rsa_public_key in Hp. rewrite <- (app_nil_r (tlv _ _)) in Hp. apply tlv_content_bytes in Hp as [Hp _].
  apply tlv_content_bytes in Hp as [Hn Hp]. rewrite <- (app_nil_r (tlv _ _)) in Hp. apply tlv_content_bytes in Hp as [He _].
  split; by apply int_content_bytes.
Qed.

Lemma modulus_top key : rsa_key_ok key -> bytes_ok (modulus key) -> 2 ^ (8 * zlen (modulus key) - 1) <= os2ip (modulus key).
Proof.
  intros (Hn & Hn0 & _) Hok. destruct (modulus key) as [|c v]; [simpl in Hn; lia|]. rewrite at_0 in Hn0.
  apply Forall_cons in Hok as [_ Hv]. change (c :: v) with ([c] ++ v). rewrite os2ip_app. change (os2ip [c]) with (0 * 2 ^ 8 + c).
  pose proof (os2ip_bound v Hv). cbn [length app]. replace (8 * Z.of_nat (S (length v)) - 1) with (7 + 8 * zlen v) by lia.
  rewrite Z.pow_add_r by lia. nia.
Qed.

Lemma public_op_iff key signature em :
  rsa_key_ok key -> bytes_ok (modulus key) -> bytes_ok (exponent key) -> bytes_ok signature -> bytes_ok em ->
  length em = length (modulus key) ->
  tamga_rsa_public_op key signature = Some em <-> rsa_opens key signature em.
Proof.
  intros Hk Hn He Hs Hem Hl. pose proof (modulus_top key Hk Hn) as Htop. pose proof (os2ip_bound _ Hn) as Bn.
  pose proof Hk as (K1 & K2 & K3 & K4 & K5 & K6). pose proof (magnitude_nonempty _ K3).
  unfold tamga_rsa_public_op, rsa_opens. destruct (Nat.eqb_spec (length signature) (length (modulus key))) as [E|E]; cbn [negb].
  2:{ split; [done|]. tauto. }
  pose proof (modexp_correct signature (modulus key) (exponent key) Hs Hn He E) as Hc.
  assert (0 < os2ip (modulus key)) as Hpos by (assert (0 < 2 ^ (8 * zlen (modulus key) - 1)) by (apply Z.pow_pos_nonneg; lia); lia).
  pose proof (Z.mod_pos_bound (os2ip signature ^ os2ip (exponent key)) (os2ip (modulus key)) Hpos) as Bx.
  destruct (tamga_bn_modexp signature (modulus key) (exponent key)) as [o|].
  - destruct Hc as [(D1 & D2 & D3 & D4 & D5 & D6 & D7) ->]. split.
    + intros [= <-]. split_and!; try done. rewrite os2ip_i2osp, (Z.mod_small _ (2 ^ _)) by lia. done.
    + intros (_ & _ & _ & _ & _ & Hx). f_equal. apply os2ip_inj; [apply i2osp_bytes|done|by rewrite i2osp_length|].
      rewrite os2ip_i2osp, (Z.mod_small _ (2 ^ _)) by lia. done.
  - split; [done|]. intros (_ & _ & H1 & H2 & H3 & _). destruct Hc. unfold modexp_domain, TAMGA_BN_MAX_BYTES. split_and!; try done; lia.
Qed.

Lemma public_op_length key signature em :
  rsa_key_ok key -> bytes_ok (modulus key) -> bytes_ok (exponent key) -> bytes_ok signature ->
  tamga_rsa_public_op key signature = Some em -> bytes_ok em /\ length em = length (modulus key).
Proof.
  intros Hk Hn He Hs. unfold tamga_rsa_public_op. destruct (Nat.eqb_spec (length signature) (length (modulus key))) as [E|]; cbn [negb]; [|done].
  pose proof (modexp_correct signature (modulus key) (exponent key) Hs Hn He E) as Hc. destruct (tamga_bn_modexp _ _ _); [|done].
  destruct Hc as [_ ->]. intros [= <-]. split; [apply i2osp_bytes|apply i2osp_length].
Qed.

Lemma sha256_spec_bytes m : zlen m < 2 ^ 61 -> bytes_ok (sha256_spec m).
Proof. intros H. rewrite <- tamga_sha256_spec by done. apply sha256_final_bytes. Qed.

(** ** RSASSA-PKCS1-v1_5 *)

(** EMSA-PKCS1-v1_5 of RFC 8017, section 9.2. *)
Definition emsa_pkcs1 (k : nat) (digest : bytes) : bytes :=
  [0; 1] ++ replicate (k - length (TAMGA_SHA256_DIGEST_INFO_PREFIX ++ digest) - 3) 255 ++ [0] ++ TAMGA_SHA256_DIGEST_INFO_PREFIX ++ digest.

Lemma emsa_pkcs1_ok k digest :
  (62 <= k)%nat -> length digest = 32%nat -> bytes_ok digest -> bytes_ok (emsa_pkcs1 k digest) /\ length (emsa_pkcs1 k digest) = k.
Proof.
  intros Hk Hdl Hdb. unfold emsa_pkcs1. rewrite !length_app, length_replicate, Hdl. cbn [length].
  change (length TAMGA_SHA256_DIGEST_INFO_PREFIX) with 19%nat. split; [|lia].
  repeat (apply Forall_app; split); try done; try (apply Forall_replicate; unfold is_byte; lia);
    repeat (apply Forall_cons; split; [split; vm_compute; congruence|]); constructor.
Qed.

Lemma rsa_pkcs1_iff spki message signature :
  bytes_ok spki -> bytes_ok signature -> zlen spki < 2 ^ 32 -> zlen message < 2 ^ 61 ->
  tamga_rsa_verify_pkcs1_sha256 spki message signature = true <->
  exists key, rsa_key_of spki key /\ rsa_opens key signature (emsa_pkcs1 (length (modulus key)) (sha256_spec message)).
Proof.
  intros Hok Hs Hlen Hmsg. unfold tamga_rsa_verify_pkcs1_sha256. rewrite tamga_sha256_spec by done.
  set (digest := sha256_spec message). assert (length digest = 32%nat) as Hdl by apply sha256_spec_length.
  assert (bytes_ok digest) as Hdb by (by apply sha256_spec_bytes).
  assert (forall k, (62 <= k)%nat -> bytes_ok (emsa_pkcs1 k digest) /\ length (emsa_pkcs1 k digest) = k) as Hem by (intros; by apply emsa_pkcs1_ok).
  assert (forall k, [0x00; 0x01] ++ replicate (k - (19 + 32) - 3) 0xff ++ [0x00] ++ TAMGA_SHA256_DIGEST_INFO_PREFIX ++ digest =
    emsa_pkcs1 k digest) as Heq by (intros k; unfold emsa_pkcs1; by rewrite length_app, Hdl).
  split.
  - destruct (tamga_rsa_parse_public_key (Some spki)) as [key|] eqn:Ek; [|done]. apply parse_key_iff in Ek as Hkey; [|done|done].
    destruct (rsa_key_bytes _ _ Hok Hlen Hkey) as [Hn He]. pose proof (proj1 Hkey) as Hk.
    destruct (tamga_rsa_public_op key signature) as [em|] eqn:Eo; [|done]. destruct (public_op_length _ _ _ Hk Hn He Hs Eo) as [Hemb Heml].
    change (length TAMGA_SHA256_DIGEST_INFO_PREFIX) with 19%nat. cbv zeta. rewrite Heq. destruct (Nat.ltb_spec (length (modulus key)) (19 + 32 + 11)); [done|].
    destruct (Hem (length (modulus key)) ltac:(lia)) as [Hb Hl]. rewrite ct_memeq_eq by done. intros ->. exists key.
    split; [done|]. by apply public_op_iff in Eo.
  - intros (key & Hkey & Hop). rewrite (proj2 (parse_key_iff spki key Hok Hlen) Hkey).
    destruct (rsa_key_bytes _ _ Hok Hlen Hkey) as [Hn He]. pose proof (proj1 Hkey) as Hk. pose proof (proj1 Hk) as Hkn.
    destruct (Hem (length (modulus key)) ltac:(lia)) as [Hb Hl].
    rewrite (proj2 (public_op_iff key signature _ Hk Hn He Hs Hb Hl) Hop).
    change (length TAMGA_SHA256_DIGEST_INFO_PREFIX) with 19%nat. cbv zeta. rewrite Heq.
    destruct (Nat.ltb_spec (length (modulus key)) (19 + 32 + 11)); [lia|]. by rewrite ct_memeq_eq.
Qed.

(** (C24) A PKCS #1 v1.5 signature is accepted exactly when the key is one of
    the two DER encodings of a usable RSA key, the signature is as wide as its
    modulus and below it, and raising it to the public exponent gives the whole
    encoded block of the message: no other padding, digest information or
    trailing data passes. The modulus must be a multiple of 32 bits wide. *)
Theorem rsa_pkcs1_exact spki message signature :
  bytes_ok spki -> bytes_ok signature -> zlen spki < 2 ^ 32 -> zlen message < 2 ^ 61 ->
  tamga_rsa_verify_pkcs1_sha256 spki message signature = true <->
  exists key, rsa_key_of spki key /\ rsa_opens key signature (emsa_pkcs1 (length (modulus key)) (sha256_spec message)).
Proof. exact (rsa_pkcs1_iff spki message signature). Qed.

(** ** A key for a chosen block

    For exponent 3 a modulus [s ^ 3 - em] makes [s] a signature that opens to
    [em]; the witnesses below and those of PSS use such keys. *)

Definition cube_root (em : bytes) : Z :=
  (if os2ip em <? 2 ^ 2046 then 3 * 2 ^ 681 else 13 * 2 ^ 679) + if Z.odd (os2ip em) then 0 else 1.

Definition cube_key (em : bytes) : TamgaRsaPublicKey := mk_rsa_key (i2osp (cube_root em ^ 3 - os2ip em) 256) [3].
Definition cube_signature (em : bytes) : bytes := i2osp (cube_root em) 256.

Lemma cube_bounds em :
  0 <= os2ip em < 2 ^ 2047 ->
  0 < cube_root em < 2 ^ 683 /\ 2 ^ 2047 <= cube_root em ^ 3 - os2ip em < 2 ^ 2048 /\ Z.odd (cube_root em ^ 3 - os2ip em) = true.
Proof.
  intros Hem. unfold cube_root. set (p := 2 ^ 2046) in *. replace (2 ^ 2048) with (4 * p) by reflexivity. replace (2 ^ 2047) with (2 * p) in * by reflexivity.
  assert (3 * p <= (3 * 2 ^ 681) ^ 3 /\ (3 * 2 ^ 681 + 1) ^ 3 < 4 * p /\ 4 * p <= (13 * 2 ^ 679) ^ 3 /\ (13 * 2 ^ 679 + 1) ^ 3 < 5 * p) as (A & B & C & D)
    by (repeat split; first [apply Z.leb_le|apply Z.ltb_lt]; vm_compute; reflexivity).
  assert (0 < 3 * 2 ^ 681 /\ 3 * 2 ^ 681 + 1 < 2 ^ 683 /\ 0 < 13 * 2 ^ 679 /\ 13 * 2 ^ 679 + 1 < 2 ^ 683) as (E & F & G & H)
    by (repeat split; apply Z.ltb_lt; vm_compute; reflexivity).
  assert (Z.odd (3 * 2 ^ 681) = false /\ Z.odd (13 * 2 ^ 679) = false) as [I J] by (split; vm_compute; reflexivity).
  assert (forall s, 0 < s -> s ^ 3 <= (s + 1) ^ 3) as Hmono by (intros; apply Z.pow_le_mono_l; lia).
  pose proof (Hmono _ E). pose proof (Hmono _ G).
  revert A B C D E F G H I J Hem. generalize (3 * 2 ^ 681) (13 * 2 ^ 679) (2 ^ 683). generalize (os2ip em). clearbody p. intros x a b q A B C D E F G H I J Hem.
  destruct (Z.ltb_spec x p), (Z.odd x) eqn:Ex; rewrite ?Z.add_0_r, Z.odd_sub, Z.odd_pow, ?Z.odd_add, ?I, ?J, Ex by lia; cbn; split_and!; lia || done.
Qed.

Lemma cube_numbers em :
  0 <= os2ip em < 2 ^ 2047 ->
  os2ip (modulus (cube_key em)) = cube_root em ^ 3 - os2ip em /\ os2ip (cube_signature em) = cube_root em /\ cube_root em < 2 ^ 2047.
Proof.
  intros Hem. destruct (cube_bounds em Hem) as ((H1 & H2) & (H3 & H4) & _). unfold cube_key, cube_signature. cbn [modulus]. rewrite !os2ip_i2osp.
  change (8 * Z.of_nat 256) with 2048. assert (2 ^ 683 <= 2 ^ 2047) by (apply Z.pow_le_mono_r; lia).
  assert (2 ^ 2047 <= 2 ^ 2048) by (apply Z.pow_le_mono_r; lia).
  split_and!; [apply Z.mod_small; lia|apply Z.mod_small; lia|lia].
Qed.

Lemma leading_zero_small l : bytes_ok l -> length l = 256%nat -> at_ l 0 < 128 -> os2ip l < 2 ^ 2047.
Proof.
  intros Hok Hl H0. destruct l as [|c v]; [done|]. rewrite at_0 in H0. apply Forall_cons in Hok as [Hc Hv]. injection Hl as Hl.
  change (c :: v) with ([c] ++ v). rewrite os2ip_app. pose proof (os2ip_bound v Hv) as Hvb. rewrite Hl in Hvb |- *.
  change (os2ip [c]) with c. replace 2047 with (7 + 8 * Z.of_nat 255) by lia. rewrite Z.pow_add_r by lia.
  revert Hvb. generalize (2 ^ (8 * Z.of_nat 255)) (os2ip v). intros. nia.
Qed.

Lemma cube_modulus_length em : length (modulus (cube_key em)) = 256%nat.
Proof. apply i2osp_length. Qed.

Lemma cube_opens em : bytes_ok em -> length em = 256%nat -> os2ip em < 2 ^ 2047 -> rsa_opens (cube_key em) (cube_signature em) em.
Proof.
  intros Hok Hl Hlt. pose proof (os2ip_bound em Hok) as [Hnn _]. destruct (cube_bounds em (conj Hnn Hlt)) as ((H1 & H2) & (H3 & H4) & H5).
  destruct (cube_numbers em (conj Hnn Hlt)) as (E1 & E2 & H6). unfold rsa_opens. rewrite E1, E2.
  unfold cube_key, cube_signature. cbn [modulus exponent]. rewrite !i2osp_length. change (os2ip [3]) with 3.
  split_and!; [done|done|done|done|lia|]. symmetry. apply (Z.mod_unique _ _ 1); [left|]; lia.
Qed.

Lemma exponent_3_key_of key :
  length (modulus key) = 256%nat -> bytes_ok (modulus key) -> 128 <= at_ (modulus key) 0 -> exponent key = [3] ->
  rsa_key_of (rsa_public_key key) key /\ bytes_ok (rsa_public_key key) /\ zlen (rsa_public_key key) < 2 ^ 32.
Proof.
  intros Hl Hb Htop He3. assert (length (int_content (modulus key)) = 257%nat) as Hi by (unfold int_content; dif; [lia|cbn [length]; lia]).
  assert (bytes_ok (int_content (modulus key))) as Hib by (unfold int_content; dif; [done|constructor; [unfold is_byte; lia|done]]).
  assert (length (tlv TAMGA_DER_INTEGER (int_content (modulus key))) = 261%nat) as Ht by (unfold tlv; rewrite Hi; cbn [length]; rewrite length_app, Hi; reflexivity).
  assert (length (tlv TAMGA_DER_INTEGER (int_content (exponent key))) = 3%nat) as He by (by rewrite He3).
  split; [split; [|by left]|].
  - unfold rsa_key_ok. rewrite He3. split_and!; try lia; try done. right. by exists 3, [].
  - unfold rsa_public_key. split.
    + apply tlv_bytes; [unfold is_byte, TAMGA_DER_SEQUENCE; lia| |rewrite length_app; lia]. apply Forall_app. split.
      * apply tlv_bytes; [unfold is_byte, TAMGA_DER_INTEGER; lia|done|lia].
      * rewrite He3. apply tlv_bytes; [unfold is_byte, TAMGA_DER_INTEGER; lia|constructor; [by split|by constructor]|done].
    + unfold tlv at 1. cbn [length]. rewrite !length_app, Ht, He. vm_compute. done.
Qed.

Lemma cube_key_of em :
  bytes_ok em -> os2ip em < 2 ^ 2047 ->
  rsa_key_of (rsa_public_key (cube_key em)) (cube_key em) /\
  bytes_ok (rsa_public_key (cube_key em)) /\ zlen (rsa_public_key (cube_key em)) < 2 ^ 32.
Proof.
  intros Hok Hlt. pose proof (os2ip_bound em Hok) as [Hnn _]. destruct (cube_bounds em (conj Hnn Hlt)) as (_ & (H3 & H4) & _).
  destruct (cube_numbers em (conj Hnn Hlt)) as (E1 & _). rewrite <- E1 in H3. pose proof (cube_modulus_length em) as Hl.
  assert (bytes_ok (modulus (cube_key em))) as Hb by apply i2osp_bytes. apply exponent_3_key_of; [exact Hl|exact Hb| |reflexivity].
  destruct (Z.lt_ge_cases (at_ (modulus (cube_key em)) 0) 128) as [Hs|Hge]; [|exact Hge].
  destruct (Z.lt_irrefl (2 ^ 2047)). exact (Z.le_lt_trans _ _ _ H3 (leading_zero_small _ Hb Hl Hs)).
Qed.

#[local] Abbreviation pkcs1_demo := (emsa_pkcs1 256 (sha256_spec (bstr "tamga"))).

(** A 2048-bit key and a signature of one message under it. *)
Lemma rsa_pkcs1_exact_witness :
  tamga_rsa_verify_pkcs1_sha256 (rsa_public_key (cube_key pkcs1_demo)) (bstr "tamga") (cube_signature pkcs1_demo) = true.
Proof.
  assert (bytes_ok pkcs1_demo /\ length pkcs1_demo = 256%nat) as [Hb Hl] by (apply emsa_pkcs1_ok; [|apply sha256_spec_length|apply sha256_spec_bytes; vm_compute; done]; lia).
  assert (os2ip pkcs1_demo < 2 ^ 2047) as Hlt by (apply leading_zero_small; [exact Hb|exact Hl|reflexivity]).
  destruct (cube_key_of pkcs1_demo Hb Hlt) as (Hk & Hkb & Hkl). apply (proj2 (rsa_pkcs1_exact _ _ _ Hkb (i2osp_bytes _ _) Hkl (eq_refl : zlen (bstr "tamga") < 2 ^ 61))).
  exists (cube_key pkcs1_demo). split; [exact Hk|]. rewrite cube_modulus_length. exact (cube_opens pkcs1_demo Hb Hl Hlt).
Defined.
