(* ===== verification/RsaPss.v ===== *)
(** * What an accepted RSASSA-PSS signature is

    [tamga_rsa_verify_pss_sha256] against section 9.1 of RFC 8017. *)

From Stdlib Require Import String.
From S2P Require Import Prelude Octets Sha2 Hkdf Gcm GcmSpec Der Bn BnSpec Rsa RsaSpec.
From stdpp Require Import list.
#[local] Open Scope Z_scope.

(** ** MGF1 *)

Definition mgf1_block (seed : bytes) (i : nat) : bytes := sha256_spec (seed ++ i2osp (Z.of_nat i) 4).

(** MGF1 of RFC 8017, appendix B.2.1. *)
Definition mgf1 (seed : bytes) (len : nat) : bytes := take len (concat (map (mgf1_block seed) (seq 0 ((len + 31) / 32)))).

Lemma counter_bytes index :
  0 <= index < 2 ^ 32 -> [u8 (Z.shiftr index 24); u8 (Z.shiftr index 16); u8 (Z.shiftr index 8); u8 index] = i2osp index 4.
Proof.
  intros H. unfold i2osp, u8. cbn [seq map Nat.sub]. rewrite !Z.shiftr_div_pow2 by lia.
  change (2 ^ (8 * Z.of_nat 0)) with 1. by rewrite Z.div_1_r.
Qed.

Lemma mgf1_loop_spec fuel seed remaining i :
  zlen seed < 2 ^ 60 -> (remaining < fuel)%nat -> Z.of_nat (i + remaining) < 2 ^ 32 ->
  mgf1_loop fuel seed remaining (Z.of_nat i) = take remaining (concat (map (mgf1_block seed) (seq i ((remaining + 31) / 32)))).
Proof.
  intros Hseed. revert remaining i. induction fuel as [|f IH]; intros remaining i Hf Hi; [lia|]. cbn [mgf1_loop].
  destruct (Nat.ltb_spec 0 remaining) as [Hr|]; [|by replace remaining with 0%nat by lia].
  rewrite counter_bytes by lia.
  pose proof (sha256_final_spec [Some seed; Some (i2osp (Z.of_nat i) 4)]) as Hs. cbn [fold_left map concat] in Hs. rewrite app_nil_r in Hs.
  change (chunk (Some ?x)) with x in Hs.
  rewrite Hs by (rewrite length_app, i2osp_length; lia). fold (mgf1_block seed i).
  assert (length (mgf1_block seed i) = 32%nat) as Hl by apply sha256_spec_length.
  replace ((remaining + 31) / 32)%nat with (S ((remaining - 32 + 31) / 32)).
  2:{ destruct (Nat.le_gt_cases 32 remaining) as [Hge|Hlt].
      - replace (remaining + 31)%nat with ((remaining - 32 + 31) + 1 * 32)%nat by lia. rewrite Nat.div_add by lia. lia.
      - replace (remaining - 32)%nat with 0%nat by lia. change ((0 + 31) / 32)%nat with 0%nat.
        apply (Nat.div_unique _ _ _ (remaining - 1)); lia. }
  cbn [seq map concat]. replace (u32 (Z.of_nat i + 1)) with (Z.of_nat (S i)) by (unfold u32; rewrite Z.mod_small; lia).
  destruct (Nat.le_gt_cases 32 remaining) as [Hge|Hlt].
  - rewrite Nat.min_r by lia. rewrite IH by lia. rewrite (take_ge (mgf1_block seed i)) by lia.
    rewrite take_app, Hl, (take_ge (mgf1_block seed i)) by lia. done.
  - rewrite Nat.min_l by lia. rewrite Nat.sub_diag. replace (remaining - 32)%nat with 0%nat by lia. change ((0 + 31) / 32)%nat with 0%nat.
    cbn [seq map concat]. rewrite app_nil_r. destruct f; [by rewrite app_nil_r|]. cbn [mgf1_loop Nat.ltb Nat.leb]. by rewrite app_nil_r.
Qed.

Lemma mgf1_sha256_spec seed len : zlen seed < 2 ^ 60 -> Z.of_nat len < 2 ^ 32 -> tamga_mgf1_sha256 seed len = mgf1 seed len.
Proof. intros Hs Hl. unfold tamga_mgf1_sha256. apply (mgf1_loop_spec (S len) seed len 0); lia. Qed.

Lemma concat_blocks_length seed l : length (concat (map (mgf1_block seed) l)) = (32 * length l)%nat.
Proof. induction l as [|i l IH]; [done|]. cbn [map concat length]. rewrite length_app, IH. unfold mgf1_block. rewrite sha256_spec_length. lia. Qed.

Lemma mgf1_length seed len : length (mgf1 seed len) = len.
Proof.
  unfold mgf1. rewrite length_take, concat_blocks_length, length_seq. pose proof (Nat.div_mod_eq (len + 31) 32).
  pose proof (Nat.mod_upper_bound (len + 31) 32). lia.
Qed.

Lemma mgf1_bytes seed len : zlen seed < 2 ^ 60 -> bytes_ok (mgf1 seed len).
Proof.
  intros Hs. apply Forall_take, Forall_concat, Forall_fmap, Forall_forall. intros i _. apply sha256_spec_bytes.
  rewrite length_app, i2osp_length. lia.
Qed.

(** ** RSASSA-PSS *)

(** The leftmost bit of a block cleared. *)
Definition clear_top (l : bytes) : bytes := match l with [] => [] | x :: l => Z.land x 127 :: l end.

Definition masked (l mask : bytes) : bytes := clear_top (xor_bytes l mask).

(** EMSA-PSS of RFC 8017, section 9.1.1, for [k] bytes of which the first bit
    is unused: SHA-256, MGF1 with SHA-256 and this salt. *)
Definition emsa_pss (k : nat) (digest salt : bytes) : bytes :=
  let h := sha256_spec (replicate 8 0 ++ digest ++ salt) in
  let db := replicate (k - length salt - 32 - 2) 0 ++ [1] ++ salt in
  masked db (mgf1 h (k - 33)) ++ h ++ [188].

Lemma land_127_small x : 0 <= x < 128 -> Z.land x 127 = x.
Proof. intros Hx. change 127 with (2 ^ 7 - 1). rewrite land_mask, Z.mod_small; lia. Qed.

Lemma land_lxor_distr x y z : Z.land (Z.lxor x y) z = Z.lxor (Z.land x z) (Z.land y z).
Proof. apply Z.bits_inj'. intros i Hi. rewrite ?Z.land_spec, ?Z.lxor_spec, ?Z.land_spec. by destruct (Z.testbit x i), (Z.testbit y i), (Z.testbit z i). Qed.

Lemma masked_invol l mask : (length l <= length mask)%nat -> 0 <= nth 0 l 0 < 128 -> masked (masked l mask) mask = l.
Proof.
  intros Hl Hh. unfold masked. destruct l as [|x l]; [done|]. destruct mask as [|m mask]; [simpl in Hl; lia|].
  cbn [xor_bytes zip_with clear_top nth] in *. unfold xor_bytes. cbn [zip_with clear_top]. f_equal.
  - rewrite land_lxor_distr, <- Z.land_assoc. change (Z.land 127 127) with 127. rewrite land_lxor_distr, Z.lxor_assoc, Z.lxor_nilpotent, Z.lxor_0_r.
    by apply land_127_small.
  - apply xor_bytes_invol. simpl in Hl. lia.
Qed.

Lemma masked_bytes l mask : bytes_ok l -> bytes_ok mask -> bytes_ok (masked l mask).
Proof.
  intros Hl Hm. unfold masked. pose proof (xor_bytes_ok l mask Hl Hm) as H. destruct (xor_bytes l mask) as [|x r]; [done|].
  apply Forall_cons in H as [Hx Hr]. constructor; [|done]. by apply land_byte_l.
Qed.

Lemma masked_length l mask : length (masked l mask) = Nat.min (length l) (length mask).
Proof. unfold masked. rewrite <- xor_bytes_length. by destruct (xor_bytes l mask). Qed.

Lemma masked_head l mask : 0 <= nth 0 (masked l mask) 0 < 128.
Proof.
  unfold masked. destruct (xor_bytes l mask) as [|x r]; [simpl; lia|]. cbn [clear_top nth]. change 127 with (2 ^ 7 - 1).
  rewrite land_mask by lia. apply Z.mod_pos_bound. lia.
Qed.

Lemma u8_id x : is_byte x -> u8 x = x.
Proof. intros Hx. unfold u8, is_byte in *. apply Z.mod_small. lia. Qed.

(** The unmasked data block, as the code computes it in place. *)
Lemma unmask_code l mask :
  bytes_ok l -> bytes_ok mask ->
  (let db := zip_with (fun d m => u8 (Z.lxor d m)) l mask in <[0%nat := u8 (Z.land (nth 0 db 0) (Z.shiftr 0xff 1))]> db) = masked l mask.
Proof.
  intros Hl Hm. assert (zip_with (fun d m => u8 (Z.lxor d m)) l mask = xor_bytes l mask) as ->.
  { unfold xor_bytes. revert mask Hm. induction Hl as [|x l Hx Hl IH]; intros [|m mask] Hm; [done..|]. cbn [zip_with].
    apply Forall_cons in Hm as [Hm0 Hm]. rewrite IH by done. f_equal. apply u8_id. by apply lxor_byte. }
  cbv zeta. pose proof (xor_bytes_ok l mask Hl Hm) as Hx. unfold masked. destruct (xor_bytes l mask) as [|x r]; [done|].
  apply Forall_cons in Hx as [Hx _]. cbn [nth clear_top insert list_insert]. f_equal. change (Z.shiftr 255 1) with 127.
  apply u8_id. by apply land_byte_l.
Qed.

(** DB of EMSA-PSS: zeros, the separator and the salt. *)
Lemma data_block_iff db n :
  bytes_ok db -> length db = (n + 33)%nat ->
  existsb (fun d => negb (d =? 0)) (take n db) = false /\ nth n db 0 = 1 <->
  exists salt, length salt = 32%nat /\ bytes_ok salt /\ db = replicate n 0 ++ [1] ++ salt.
Proof.
  intros Hok Hl. split.
  - intros [Hz Hs]. exists (drop (n + 1) db). rewrite length_drop. split; [lia|]. split; [by apply Forall_drop|].
    assert (take n db = replicate n 0) as Ht.
    { symmetry. apply replicate_as_Forall. split; [rewrite length_take; lia|].
      revert Hz. generalize (take n db). intros l. induction l as [|x l IH]; [done|]. cbn [existsb]. rewrite orb_false_iff, negb_false_iff, Z.eqb_eq.
      intros [-> Hz]. constructor; [done|by apply IH]. }
    rewrite <- (take_drop n db) at 1. rewrite Ht. f_equal. assert (n < length db)%nat as Hn by lia.
    destruct (lookup_lt_is_Some_2 db n Hn) as [x Hx]. rewrite (drop_S db x n Hx). rewrite (nth_lookup_Some _ _ _ _ Hx) in Hs. subst x.
    by rewrite Nat.add_1_r.
  - intros (salt & Hs & _ & ->). rewrite take_app_length' by (by rewrite length_replicate). split.
    + clear. induction n as [|n IH]; [done|]. cbn [replicate existsb]. by rewrite IH.
    + rewrite app_nth2; rewrite length_replicate; [by rewrite Nat.sub_diag|lia].
Qed.

(** The tests in order, as one conjunction. *)
Lemma pss_tail x m db n r h :
  bytes_ok h -> bytes_ok r -> length r = 32%nat -> length h = 32%nat ->
  (if negb (x =? 0xbc) then false else if negb (m <? 128) then false
   else if existsb (fun d => negb (d =? 0)) (take n db) then false
   else if negb (nth n db 0 =? 1) then false else tamga_ct_memeq (Some r) (Some h) 32) = true <->
  x = 0xbc /\ m < 128 /\ (existsb (fun d => negb (d =? 0)) (take n db) = false /\ nth n db 0 = 1) /\ r = h.
Proof.
  intros Hh Hr Lr Lh. rewrite <- (ct_memeq_eq r h 32) by done.
  destruct (Z.eqb_spec x 0xbc), (Z.ltb_spec m 128), (existsb _ _), (Z.eqb_spec (nth n db 0) 1); cbn [negb]; intuition (done || lia).
Qed.

(** The opened block passes exactly when it is the EMSA-PSS encoding of the
    message with some salt of 32 bytes. *)
Lemma pss_check_iff k em message :
  bytes_ok em -> length em = k -> (66 <= k)%nat -> Z.of_nat k < 2 ^ 32 -> zlen message < 2 ^ 61 ->
  pss_check k 1 em message = true <->
  exists salt, length salt = 32%nat /\ bytes_ok salt /\ em = emsa_pss k (sha256_spec message) salt.
Proof.
  intros Hok Hl Hk Hk2 Hmsg. unfold pss_check.
  assert (exists M H x, em = M ++ H ++ [x] /\ length M = (k - 33)%nat /\ length H = 32%nat) as (M & H & x & -> & HM & HH).
  { exists (take (k - 33) em), (take 32 (drop (k - 33) em)), (nth (k - 1) em 0). rewrite !length_take, length_drop. split; [|lia].
    rewrite <- (take_drop (k - 33) em) at 1. f_equal. rewrite <- (take_drop 32 (drop (k - 33) em)) at 1. f_equal. rewrite drop_drop.
    assert (k - 1 < length em)%nat as Hn by lia. destruct (lookup_lt_is_Some_2 em _ Hn) as [y Hy]. replace (k - 33 + 32)%nat with (k - 1)%nat by lia.
    rewrite (drop_S em y _ Hy), (nth_lookup_Some _ _ _ _ Hy). f_equal. apply drop_ge. lia. }
  apply Forall_app in Hok as [HMb [HHb Hxb]%Forall_app].
  rewrite (proj2 (Nat.ltb_ge _ _)) by lia. replace (nth (k - 1) (M ++ H ++ [x]) 0) with x.
  2:{ rewrite app_nth2, app_nth2 by lia. by replace (k - 1 - length M - length H)%nat with 0%nat by lia. }
  replace (nth 0 (M ++ H ++ [x]) 0) with (nth 0 M 0) by (rewrite app_nth1 by lia; done).
  replace (k - 32 - 1)%nat with (k - 33)%nat by lia. rewrite drop_app_length', take_app_length', take_app_length' by done.
  change (u8 (Z.shiftl 255 (8 - 1))) with 128. rewrite land_128 by (apply nth_Forall; [done|unfold is_byte; lia]).
  assert (zlen H < 2 ^ 60) by lia. rewrite mgf1_sha256_spec by lia. pose proof (mgf1_length H (k - 33)) as Hml. pose proof (mgf1_bytes H (k - 33) ltac:(done)) as Hmb.
  set (mask := mgf1 H (k - 33)) in *. pose proof (unmask_code M mask HMb Hmb) as Hu. cbv zeta in Hu |- *. rewrite Hu. clear Hu.
  set (db := masked M mask). assert (bytes_ok db) as Hdb by (by apply masked_bytes).
  assert (length db = (k - 66 + 33)%nat) as Hdl by (unfold db; rewrite masked_length; lia).
  pose proof (data_block_iff db (k - 66) Hdb Hdl) as Hblock. replace (k - 33 - 32 - 1)%nat with (k - 66)%nat by lia.
  set (salt := take 32 (drop (k - 33 - 32) db)).
  pose proof (sha256_final_spec [Some (replicate 8 0); Some (tamga_sha256 (Some message)); Some salt]) as Hs. cbn [fold_left map concat] in Hs.
  rewrite app_nil_r in Hs. change (chunk (Some ?y)) with y in Hs. rewrite tamga_sha256_spec in Hs |- * by done.
  assert (length salt = 32%nat) as Hsl by (unfold salt; rewrite length_take, length_drop; lia).
  rewrite Hs by (rewrite !length_app, sha256_spec_length, Hsl; cbn; lia).
  pose proof (sha256_spec_length message) as Hdig.
  assert (forall salt', length salt' = 32%nat -> db = replicate (k - 66) 0 ++ [1] ++ salt' -> salt = salt') as Hsalt.
  { intros salt' Hl' Hd. unfold salt. rewrite Hd, app_assoc. rewrite drop_app_length' by (rewrite length_app, length_replicate; cbn [length]; lia).
    apply take_ge. lia. }
  rewrite pss_tail. 2: done. 2: { apply sha256_spec_bytes. rewrite !length_app, Hsl, Hdig. cbn. lia. } 2: apply sha256_spec_length. 2: done.
  rewrite Hblock. split.
  - intros (-> & Hm & (salt' & Hl' & Hb' & Hd) & Hh). pose proof (Hsalt salt' Hl' Hd) as Es. rewrite Es in Hh. exists salt'. split_and!; [done..|].
    unfold emsa_pss. cbv zeta. rewrite Hh, Hl'. fold mask. replace (k - 32 - 32 - 2)%nat with (k - 66)%nat by lia.
    rewrite <- Hd. unfold db. rewrite masked_invol; [done|lia|]. pose proof (at_byte M 0 HMb) as Hb. unfold at_, is_byte in Hb. change (Z.to_nat 0) with 0%nat in Hb. lia.
  - intros (salt' & Hl' & Hb' & Hem). unfold emsa_pss in Hem. cbv zeta in Hem. rewrite Hl' in Hem.
    replace (k - 32 - 32 - 2)%nat with (k - 66)%nat in Hem by lia. set (h' := sha256_spec (replicate 8 0 ++ sha256_spec message ++ salt')) in *.
    assert (length h' = 32%nat) as Hhl by apply sha256_spec_length.
    apply app_inj_1 in Hem as [EM [EH [= ->]]%app_inj_1]; [|lia|].
    2:{ rewrite masked_length, mgf1_length, !length_app, length_replicate. cbn [length]. lia. }
    assert (mask = mgf1 h' (k - 33)) as Emask by (unfold mask; by rewrite EH).
    assert (db = replicate (k - 66) 0 ++ [1] ++ salt') as Hd.
    { unfold db. rewrite EM, <- Emask. apply masked_invol.
      - rewrite !length_app, length_replicate. cbn [length]. lia.
      - destruct (k - 66)%nat; cbn; lia. }
    pose proof (Hsalt salt' Hl' Hd) as Es. rewrite Es. split_and!; [done| |by exists salt'|done].
    rewrite EM. apply masked_head.
Qed.

Lemma emsa_pss_ok k digest salt :
  (66 <= k)%nat -> length digest = 32%nat -> length salt = 32%nat -> bytes_ok salt ->
  bytes_ok (emsa_pss k digest salt) /\ length (emsa_pss k digest salt) = k.
Proof.
  intros Hk Hd Hs Hsb. unfold emsa_pss. set (h := sha256_spec _). assert (length h = 32%nat) as Hh by apply sha256_spec_length. split.
  - apply Forall_app. split; [|apply Forall_app; split; [|repeat constructor; unfold is_byte; lia]].
    + apply masked_bytes; [|apply mgf1_bytes; lia]. apply Forall_app. split; [apply Forall_replicate; unfold is_byte; lia|].
      constructor; [unfold is_byte; lia|done].
    + apply sha256_spec_bytes. rewrite !length_app, Hd, Hs. cbn. lia.
  - rewrite !length_app, masked_length, mgf1_length, !length_app, length_replicate, Hh. cbn [length]. lia.
Qed.

Lemma emsa_pss_head k digest salt : (66 <= k)%nat -> at_ (emsa_pss k digest salt) 0 < 128.
Proof.
  intros Hk. unfold emsa_pss, at_. change (Z.to_nat 0) with 0%nat. rewrite app_nth1; [apply masked_head|].
  rewrite masked_length, mgf1_length, !length_app, length_replicate. cbn [length]. lia.
Qed.

Lemma rsa_pss_iff spki message signature :
  bytes_ok spki -> bytes_ok signature -> zlen spki < 2 ^ 32 -> zlen message < 2 ^ 61 ->
  tamga_rsa_verify_pss_sha256 spki message signature = true <->
  exists key salt, rsa_key_of spki key /\ length salt = 32%nat /\ bytes_ok salt /\
    rsa_opens key signature (emsa_pss (length (modulus key)) (sha256_spec message) salt).
Proof.
  intros Hok Hs Hlen Hmsg. unfold tamga_rsa_verify_pss_sha256. pose proof (sha256_spec_length message) as Hdl.
  assert (forall k, (256 <= k)%nat -> ((k * 8 - 1 + 7) / 8)%nat = k /\ Z.of_nat (8 * k - (k * 8 - 1)) = 1) as Hbits.
  { intros k Hk. split; [|lia]. symmetry. apply (Nat.div_unique _ _ _ 6); lia. }
  split.
  - destruct (tamga_rsa_parse_public_key (Some spki)) as [key|] eqn:Ek; [|done]. apply parse_key_iff in Ek as Hkey; [|done|done].
    destruct (rsa_key_bytes _ _ Hok Hlen Hkey) as [Hn He]. pose proof (proj1 Hkey) as Hk. pose proof (proj1 Hk) as Hkn.
    destruct (tamga_rsa_public_op key signature) as [em|] eqn:Eo; [|done]. destruct (public_op_length _ _ _ Hk Hn He Hs Eo) as [Hemb Heml].
    cbv zeta. destruct (Hbits (length (modulus key)) ltac:(lia)) as [-> ->]. rewrite Nat.eqb_refl. cbn [negb].
    intros (salt & Hl & Hb & ->)%pss_check_iff; [|done|done|lia..]. exists key, salt. split_and!; [done..|]. by apply public_op_iff in Eo.
  - intros (key & salt & Hkey & Hl & Hb & Hop). rewrite (proj2 (parse_key_iff spki key Hok Hlen) Hkey).
    destruct (rsa_key_bytes _ _ Hok Hlen Hkey) as [Hn He]. pose proof (proj1 Hkey) as Hk. pose proof (proj1 Hk) as Hkn.
    destruct (emsa_pss_ok (length (modulus key)) (sha256_spec message) salt ltac:(lia) Hdl Hl Hb) as [Heb Hel].
    rewrite (proj2 (public_op_iff key signature _ Hk Hn He Hs Heb Hel) Hop).
    cbv zeta. destruct (Hbits (length (modulus key)) ltac:(lia)) as [-> ->]. rewrite Nat.eqb_refl. cbn [negb].
    apply pss_check_iff; [done|done|lia..|]. by exists salt.
Qed.

(** (C23) A PSS signature is accepted exactly when the key is one of the two DER
    encodings of a usable RSA key, the signature is as wide as its modulus and
    below it, and raising it to the public exponent gives the EMSA-PSS encoding
    of the message (SHA-256, MGF1 with SHA-256) for some salt of exactly 32
    bytes: every byte of the opened block is determined by the message and that
    salt. *)
Theorem rsa_pss_exact spki message signature :
  bytes_ok spki -> bytes_ok signature -> zlen spki < 2 ^ 32 -> zlen message < 2 ^ 61 ->
  tamga_rsa_verify_pss_sha256 spki message signature = true <->
  exists key salt, rsa_key_of spki key /\ length salt = 32%nat /\ bytes_ok salt /\
    rsa_opens key signature (emsa_pss (length (modulus key)) (sha256_spec message) salt).
Proof. exact (rsa_pss_iff spki message signature). Qed.

#[local] Abbreviation pss_demo := (emsa_pss 256 (sha256_spec (bstr "tamga")) (replicate 32 7)).

(** A 2048-bit key and a signature of one message under it. *)
Lemma rsa_pss_exact_witness :
  tamga_rsa_verify_pss_sha256 (rsa_public_key (cube_key pss_demo)) (bstr "tamga") (cube_signature pss_demo) = true.
Proof.
  assert (bytes_ok (replicate 32 7)) as Hs by (apply Forall_replicate; unfold is_byte; lia).
  assert (bytes_ok pss_demo /\ length pss_demo = 256%nat) as [Hb Hl] by (apply emsa_pss_ok; [lia|apply sha256_spec_length|done|done]).
  assert (os2ip pss_demo < 2 ^ 2047) as Hlt by (apply leading_zero_small; [exact Hb|exact Hl|apply emsa_pss_head; lia]).
  destruct (cube_key_of pss_demo Hb Hlt) as (Hk & Hkb & Hkl). apply (proj2 (rsa_pss_exact _ _ _ Hkb (i2osp_bytes _ _) Hkl (eq_refl : zlen (bstr "tamga") < 2 ^ 61))).
  exists (cube_key pss_demo), (replicate 32 7). split; [exact Hk|]. split; [done|]. split; [exact Hs|].
  rewrite cube_modulus_length. exact (cube_opens pss_demo Hb Hl Hlt).
Defined.
