(* ===== verification/Primes.v ===== *)
(** * The moduli are prime

    Pocklington certificates, checked by evaluation, for the primes that the
    signature schemes compute modulo: 2^255 - 19, and the field prime and the
    group order of P-256. *)

From Stdlib Require Import Znumtheory Zmod.
From Bignums Require Import BigN.
From S2P Require Import Prelude.
From stdpp Require Import list.
#[local] Open Scope Z_scope.

(** ** Prime divisors *)

Lemma prime_divisor n : 1 < n -> exists r, Z.prime r /\ (r | n).
Proof.
  intros Hn. remember (Z.to_nat n) as k eqn:Ek. revert n Hn Ek. induction k as [k IH] using lt_wf_ind. intros n Hn ->.
  destruct (prime_dec n) as [Hp|Hp]; [exists n; split; [by apply prime_alt|done]|].
  destruct (not_prime_divide n Hn Hp) as (d & Hd & Hdn). destruct (IH (Z.to_nat d) ltac:(lia) d ltac:(lia) eq_refl) as (r & Hr & Hrd).
  exists r. split; [done|]. by transitivity d.
Qed.

(** A number without a divisor up to its square root is prime. *)
Lemma prime_sqrt N : 1 < N -> (forall r, Z.prime r -> (r | N) -> N < r * r) -> Z.prime N.
Proof.
  intros HN H. split; [done|]. intros n Hn [k Hk].
  assert (forall d e, N = d * e -> 1 < d -> d <= e -> False) as Hsmall.
  { intros d e Hde Hd Hle. destruct (prime_divisor d Hd) as (r & Hr & Hrd). pose proof (Z.divide_pos_le r d ltac:(lia) Hrd).
    pose proof (Z.prime_ge_2 _ Hr). specialize (H r Hr). assert (r | N) as Hd' by (rewrite Hde; by apply Z.divide_mul_l).
    specialize (H Hd'). nia. }
  destruct (Z.le_gt_cases n k); [apply (Hsmall n k); nia|apply (Hsmall k n); nia].
Qed.

Definition trial_prime (n : Z) : bool :=
  (1 <? n) && (n <? 1024 * 1024) && forallb (fun k => let d := Z.of_nat k in negb (n mod d =? 0) || (n <=? d)) (seq 2 1022).

Lemma trial_prime_sound n : trial_prime n = true -> Z.prime n.
Proof.
  unfold trial_prime. rewrite !andb_true_iff, !Z.ltb_lt, forallb_forall. intros [[H1 H2] H]. apply prime_sqrt; [done|].
  intros r Hr Hd. pose proof (Z.prime_ge_2 _ Hr). destruct (Z.le_gt_cases 1024 r); [nia|].
  specialize (H (Z.to_nat r)). rewrite in_seq, Z2Nat.id in H by lia. specialize (H ltac:(lia)).
  rewrite (proj2 (Z.mod_divide n r ltac:(lia)) Hd) in H. cbn [Z.eqb negb orb] in H. apply Z.leb_le in H. nia.
Qed.

(** ** Modular powers by squaring, on machine words *)

Fixpoint powmod_pos (a : bigN) (e : positive) (n : bigN) : bigN :=
  match e with
  | xH => BigN.modulo a n
  | xO e => let r := powmod_pos a e n in BigN.modulo (BigN.square r) n
  | xI e => let r := powmod_pos a e n in BigN.modulo (BigN.mul (BigN.modulo (BigN.square r) n) a) n
  end.

Definition powmod (a e n : Z) : Z :=
  match e with
  | Z.pos e => BigN.to_Z (powmod_pos (BigN.of_N (Z.to_N a)) e (BigN.of_N (Z.to_N n)))
  | _ => 1 mod n
  end.

Lemma powmod_pos_spec a e n :
  BigN.to_Z n <> 0 -> BigN.to_Z (powmod_pos a e n) = BigN.to_Z a ^ Z.pos e mod BigN.to_Z n.
Proof.
  intros Hn. induction e as [e IH|e IH|]; cbn [powmod_pos]; rewrite ?BigN.spec_modulo, ?BigN.spec_mul, ?BigN.spec_modulo, ?BigN.spec_square, ?IH;
    set (N := BigN.to_Z n) in *; set (A := BigN.to_Z a) in *; try set (x := A ^ Z.pos e).
  - rewrite Z.mul_mod_idemp_l by done. rewrite <- Z.mul_assoc, Z.mul_mod_idemp_l by done.
    replace (x * (x mod N * A)) with ((x mod N) * (x * A)) by ring. rewrite Z.mul_mod_idemp_l by done.
    rewrite (Pos2Z.inj_xI e), Z.pow_add_r, Z.pow_1_r, (Z.mul_comm 2), Z.pow_mul_r, Z.pow_2_r by lia. f_equal. unfold x. ring.
  - rewrite Z.mul_mod_idemp_l, Z.mul_mod_idemp_r by done. by rewrite (Pos2Z.inj_xO e), (Z.mul_comm 2), Z.pow_mul_r, Z.pow_2_r by lia.
  - by rewrite Z.pow_1_r.
Qed.

Lemma powmod_spec a e n : 0 <= a -> 0 <= e -> 0 < n -> powmod a e n = a ^ e mod n.
Proof.
  intros Ha He Hn. assert (forall z, 0 <= z -> BigN.to_Z (BigN.of_N (Z.to_N z)) = z) as Hz.
  { intros z Hz. rewrite BigN.spec_of_N. lia. }
  destruct e as [|e|e]; [done| |lia]. unfold powmod. rewrite powmod_pos_spec; rewrite !Hz by lia; [done|lia].
Qed.

Lemma of_Z_pow r z e : 0 <= e -> Zmod.of_Z r (z ^ e) = Zmod.pow (Zmod.of_Z r z) e.
Proof.
  intros He. revert e He. apply natlike_ind; [apply Zmod.of_Z_1|]. intros e He IH.
  by rewrite Z.pow_succ_r, Zmod.of_Z_mul, IH, Zmod.pow_succ_nonneg_r by lia.
Qed.

(** ** Pocklington's criterion *)

(** An element of order [q] modulo every prime divisor [r] of [N] makes [r]
    congruent to 1 modulo [q]. *)
Lemma pocklington_divisor N r q b :
  1 < N -> Z.prime r -> (r | N) -> Z.prime q -> b ^ q mod N = 1 -> Z.gcd (b - 1) N = 1 -> (q | r - 1).
Proof.
  intros HN Hr HrN Hq H1 Hg. pose proof (Z.prime_ge_2 _ Hr). pose proof (Z.prime_ge_2 _ Hq). set (B := Zmod.of_Z r b).
  assert (Zmod.pow B q = Zmod.one) as Bq.
  { subst B. rewrite <- of_Z_pow, <- Zmod.of_Z_1 by lia. apply Zmod.of_Z_inj.
    rewrite <- (Z.mod_mod_divide (b ^ q) N r), <- (Z.mod_mod_divide 1 N r) by done. by rewrite H1, (Z.mod_1_l N) by lia. }
  assert (B <> Zmod.zero) as Bnz.
  { intros E. rewrite E, Zmod.pow_0_l in Bq by lia. symmetry in Bq. revert Bq. apply Zmod.one_neq_zero. lia. }
  pose proof (Zmod.fermat_nz B Bnz Hr) as Br.
  destruct (Z.BoolSpec_divide q (r - 1)) as [Hd|Hd]; [done|]. exfalso.
  apply Z.coprime_prime_l, Z.Bezout_coprime in Hd as (u & v & Huv); [|done].
  assert (Z.gcd (Zmod.to_Z B) r = 1) as Bc.
  { rewrite Z.gcd_comm. apply Z.coprime_prime_small; [done|]. pose proof (Zmod.unsigned_pos_bound B ltac:(lia)). apply Zmod.unsigned_nz in Bnz. lia. }
  assert (B = Zmod.one) as B1.
  { rewrite <- (Zmod.pow_1_r B), <- Huv, Zmod.pow_add_r_coprime, (Z.mul_comm u), (Z.mul_comm v), !Zmod.pow_mul_r_coprime, Bq by done.
    rewrite Z.sub_1_r, Br, !Zmod.pow_1_l. apply Zmod.mul_1_l. }
  subst B. rewrite <- Zmod.of_Z_1 in B1. apply Zmod.of_Z_inj in B1.
  assert (r | 1) as Hd1; [|apply Z.divide_1_r_nonneg in Hd1; lia]. rewrite <- Hg. apply Z.gcd_greatest; [|done].
  apply Z.mod_divide; [lia|]. rewrite Zminus_mod, B1, Z.sub_diag. apply Z.mod_0_l. lia.
Qed.

(** ** Certificates *)

(** [N] with prime factors [q] of [N - 1], each with a base [a] such that
    [a ^ ((N - 1) / q)] has order [q]. *)
Definition prime_cert : Type := Z * list (Z * Z).

Definition factor_ok (known : list Z) (N : Z) (factor : Z * Z) : bool :=
  let '(q, a) := factor in
  let b := powmod a ((N - 1) / q) N in
  (existsb (Z.eqb q) known || trial_prime q) && (1 <? q) && (q <? N) &&
  (0 <=? b) && (powmod b q N =? 1) && (Z.gcd (b - 1) N =? 1).

Definition cert_ok (known : list Z) (cert : prime_cert) : bool :=
  let '(N, factors) := cert in
  let product := fold_right Z.mul 1 (map fst factors) in
  (1 <? N) && (N <? product * product) && bool_decide (NoDup (map fst factors)) && forallb (factor_ok known N) factors.

(** Later certificates use the primes certified before them. *)
Fixpoint chain_ok (known : list Z) (chain : list prime_cert) : bool :=
  match chain with
  | [] => true
  | cert :: chain => cert_ok known cert && chain_ok (cert.1 :: known) chain
  end.

Lemma distinct_primes_divide qs x : NoDup qs -> Forall Z.prime qs -> Forall (fun q => (q | x)) qs -> (fold_right Z.mul 1 qs | x).
Proof.
  intros Hnd Hp Hd. induction qs as [|q qs IH]; cbn [fold_right]; [apply Z.divide_1_l|].
  apply NoDup_cons in Hnd as [Hq Hnd]. apply Forall_cons in Hp as [Hpq Hp]. apply Forall_cons in Hd as [Hdq Hd].
  specialize (IH Hnd Hp Hd). destruct Hdq as [k ->]. rewrite (Z.mul_comm k). apply Z.mul_divide_mono_l. apply (Z.gauss _ q); [by rewrite Z.mul_comm|].
  clear IH Hd Hnd. rewrite Z.gcd_comm. apply Z.coprime_prime_l; [done|]. revert Hq.
  induction Hp as [|r qs Hr Hp IH]; intros Hq; cbn [fold_right]; [intros ?%Z.divide_1_r_nonneg; pose proof (Z.prime_ge_2 _ Hpq); lia|].
  rewrite Z.divide_prime_mul by done. apply not_elem_of_cons in Hq as [Hne Hq].
  intros [H%Z.divide_prime_prime|H]; [done|done|done|]. by apply IH.
Qed.

Lemma cert_ok_sound known cert : Forall Z.prime known -> cert_ok known cert = true -> Z.prime cert.1.
Proof.
  intros Hk. destruct cert as [N factors]. unfold cert_ok. cbn [fst]. set (product := fold_right _ _ _).
  rewrite !andb_true_iff, !Z.ltb_lt, bool_decide_eq_true, forallb_forall. intros [[[H1 Hsq] Hnd] Hf].
  assert (forall q a, In (q, a) factors -> Z.prime q /\ exists b, b ^ q mod N = 1 /\ Z.gcd (b - 1) N = 1) as Hfac.
  { intros q a Hin. specialize (Hf _ Hin). unfold factor_ok in Hf. rewrite !andb_true_iff, orb_true_iff, !Z.ltb_lt, !Z.leb_le, !Z.eqb_eq in Hf.
    destruct Hf as [[[[[Hp Hq1] Hq2] Hb] Hw] Hg]. split.
    - destruct Hp as [Hp|Hp]; [|by apply trial_prime_sound]. apply existsb_exists in Hp as (k & Hk1 & ->%Z.eqb_eq).
      rewrite Forall_forall in Hk. apply Hk. by apply list_elem_of_In.
    - rewrite (powmod_spec (powmod _ _ _)) in Hw by lia. eauto. }
  apply prime_sqrt; [done|]. intros r Hr Hd. pose proof (Z.prime_ge_2 _ Hr).
  assert (product | r - 1) as Hpr.
  { apply distinct_primes_divide; [done|..]; apply Forall_fmap, Forall_forall; intros [q a] Hin%list_elem_of_In;
      destruct (Hfac q a Hin) as (? & b & ? & ?); cbn; [done|]. by apply (pocklington_divisor N r q b). }
  apply Z.divide_pos_le in Hpr; [|lia]. assert (0 < product); [|nia]. subst product. clear - Hfac.
  induction factors as [|[q a] fs IH]; cbn [map fst fold_right]; [lia|].
  destruct (Hfac q a) as [Hq _]; [by left|]. pose proof (Z.prime_ge_2 _ Hq).
  assert (0 < fold_right Z.mul 1 (map fst fs)) by (apply IH; intros; eapply Hfac; by right). nia.
Qed.

Lemma chain_ok_sound known chain : Forall Z.prime known -> chain_ok known chain = true -> Forall Z.prime (map fst chain).
Proof.
  revert known. induction chain as [|c chain IH]; intros known Hk; [constructor|]. cbn [chain_ok map]. rewrite andb_true_iff. intros [Hc Hch].
  pose proof (cert_ok_sound known c Hk Hc) as Hp. constructor; [done|]. apply (IH (c.1 :: known)); [by constructor|done].
Qed.

Definition p25519_chain : list prime_cert :=
  [(8574133, [(991, 2); (103, 2)]);
   (1919519569386763, [(8574133, 2); (127, 2)]);
   (2773320623, [(569003, 2)]);
   (72106336199, [(2773320623, 2)]);
   (75445702479781427272750846543864801, [(1919519569386763, 2); (72106336199, 2)]);
   (31757755568855353, [(430751, 2); (4153, 2)]);
   (74058212732561358302231226437062788676166966415465897661863160754340907,
    [(75445702479781427272750846543864801, 2); (31757755568855353, 2)]);
   (2 ^ 255 - 19, [(74058212732561358302231226437062788676166966415465897661863160754340907, 2)])].

Definition p256_chain : list prime_cert :=
  [(46076956964474543, [(704251, 2); (78283, 2)]);
   (66417393611, [(3677, 2); (197, 2)]);
   (11290956913871, [(66417393611, 2)]);
   (774023187263532362759620327192479577272145303, [(46076956964474543, 2); (11290956913871, 2)]);
   (835945042244614951780389953367877943453916927241, [(774023187263532362759620327192479577272145303, 2)]);
   (2 ^ 256 - 2 ^ 224 + 2 ^ 192 + 2 ^ 96 - 1, [(835945042244614951780389953367877943453916927241, 2)])].

Definition n256_chain : list prime_cert :=
  [(191039911, [(155317, 2)]);
   (208150935158385979, [(191039911, 2); (3023, 2)]);
   (2624747550333869278416773953, [(208150935158385979, 2)]);
   (3969899, [(104471, 2)]);
   (1002328039319, [(3969899, 2)]);
   (0xffffffff00000000ffffffffffffffffbce6faada7179e84f3b9cac2fc632551,
    [(2624747550333869278416773953, 2); (1002328039319, 2)])].

Lemma chain_prime chain N : chain_ok [] chain = true -> last (map fst chain) = Some N -> Z.prime N.
Proof.
  intros Hc Hl. apply chain_ok_sound in Hc; [|constructor]. rewrite Forall_forall in Hc. apply Hc.
  by apply last_Some_elem_of.
Qed.

Lemma prime_25519 : Z.prime (2 ^ 255 - 19).
Proof. apply (chain_prime p25519_chain); vm_compute; reflexivity. Qed.

Lemma prime_p256 : Z.prime (2 ^ 256 - 2 ^ 224 + 2 ^ 192 + 2 ^ 96 - 1).
Proof. apply (chain_prime p256_chain); vm_compute; reflexivity. Qed.

Lemma prime_n256 : Z.prime 0xffffffff00000000ffffffffffffffffbce6faada7179e84f3b9cac2fc632551.
Proof. apply (chain_prime n256_chain); vm_compute; reflexivity. Qed.
