(* ===== verification/Fe25519.v ===== *)
(** * The field of Curve25519: [src/src/crypto/fe25519.c]

    A field element is its array of eight 32-bit limbs, least significant
    first. The operations that write through [r] return the new array; where
    the C code passes the same object as operand and result, each limb of an
    operand is read before it is overwritten, so values are enough. The borrow
    and multiply loops are those of [Bn]. *)

From S2P Require Import Prelude Bn.
From stdpp Require Import list.
#[local] Open Scope Z_scope.

Abbreviation TamgaFe := (list Z).

Definition TAMGA_FE_P : TamgaFe :=
  [0xffffffed; 0xffffffff; 0xffffffff; 0xffffffff; 0xffffffff; 0xffffffff; 0xffffffff; 0x7fffffff].

Definition TAMGA_FE_D_BYTES : bytes :=
  [0xa3; 0x78; 0x59; 0x13; 0xca; 0x4d; 0xeb; 0x75; 0xab; 0xd8; 0x41;
   0x41; 0x4d; 0x0a; 0x70; 0x00; 0x98; 0xe8; 0x79; 0x77; 0x79; 0x40;
   0xc7; 0x8c; 0x73; 0xfe; 0x6f; 0x2b; 0xee; 0x6c; 0x03; 0x52].

Definition TAMGA_FE_SQRTM1_BYTES : bytes :=
  [0xb0; 0xa0; 0x0e; 0x4a; 0x27; 0x1b; 0xee; 0xc4; 0x78; 0xe4; 0x2f;
   0xad; 0x06; 0x18; 0x43; 0x2f; 0xa7; 0xd7; 0xfb; 0x3d; 0x99; 0x00;
   0x4d; 0x2b; 0x0b; 0xdf; 0xc1; 0x4f; 0x80; 0x24; 0x83; 0x2b].

Definition tamga_fe_conditional_sub_p (v : TamgaFe) : TamgaFe :=
  let '(candidate, borrow) := sub_loop v TAMGA_FE_P 0 in
  if borrow =? 0 then candidate else v.

(** The inner loop of [tamga_fe_fold_carry], left when nothing is carried. *)
Fixpoint fold_loop (v : TamgaFe) (c : Z) : TamgaFe * Z :=
  match v with
  | [] => ([], c)
  | x :: v =>
      let t := u64 (x + c) in
      let c := Z.shiftr t 32 in
      if c =? 0 then (u32 t :: v, c) else let '(r, out) := fold_loop v c in (u32 t :: r, out)
  end.

(** The [while] loop; [None] when [fuel] turns were not enough. *)
Fixpoint fold_carry_run (fuel : nat) (v : TamgaFe) (carry : Z) : option TamgaFe :=
  if carry =? 0 then Some v
  else
    match fuel with
    | O => None
    | S fuel => let '(v, c) := fold_loop v (u64 (38 * carry)) in fold_carry_run fuel v c
    end.

(** Two turns are enough ([fold_carry_runs]). *)
Definition tamga_fe_fold_carry (v : TamgaFe) (carry : Z) : TamgaFe := default v (fold_carry_run 2 v carry).

(** The inner loop of [tamga_fe_reduce]. *)
Fixpoint ripple_loop (v : TamgaFe) (carry : Z) : TamgaFe :=
  match v with
  | [] => []
  | x :: v =>
      if negb (carry =? 0) then let t := u64 (x + carry) in u32 t :: ripple_loop v (Z.shiftr t 32)
      else x :: v
  end.

Definition mask_top (v : TamgaFe) : TamgaFe := <[7%nat := Z.land (nth 7 v 0) 0x7fffffff]> v.

Fixpoint reduce_passes (passes : nat) (v : TamgaFe) : TamgaFe :=
  match passes with
  | O => v
  | S passes =>
      let carry := u64 (19 * Z.shiftr (nth 7 v 0) 31) in
      if carry =? 0 then v else reduce_passes passes (ripple_loop (mask_top v) carry)
  end.

Definition tamga_fe_reduce (v : TamgaFe) : TamgaFe :=
  tamga_fe_conditional_sub_p (mask_top (reduce_passes 3 v)).

Definition tamga_fe_zero : TamgaFe := replicate 8 0.

Definition tamga_fe_one : TamgaFe := 1 :: replicate 7 0.

Definition tamga_fe_copy (a : TamgaFe) : TamgaFe := a.

(** The limb-wise sum and the carry out of it. *)
Fixpoint add_loop (a b : list Z) (carry : Z) : list Z * Z :=
  match a, b with
  | x :: a, y :: b =>
      let t := u64 (x + y + carry) in
      let '(r, out) := add_loop a b (Z.shiftr t 32) in
      (u32 t :: r, out)
  | _, _ => ([], carry)
  end.

Definition tamga_fe_add (a b : TamgaFe) : TamgaFe :=
  let '(r, carry) := add_loop a b 0 in
  tamga_fe_reduce (tamga_fe_fold_carry r carry).

Definition tamga_fe_sub (a b : TamgaFe) : TamgaFe :=
  let '(r, borrow) := sub_loop a b 0 in
  let r := if negb (borrow =? 0) then (add_loop r TAMGA_FE_P 0).1 else r in
  tamga_fe_reduce r.

Definition tamga_fe_neg (a : TamgaFe) : TamgaFe := tamga_fe_sub tamga_fe_zero a.

(** Row [i] of the schoolbook product: limbs [i .. i + 7] are updated, limb
    [i + 8] is assigned. *)
Definition mul_row (b : TamgaFe) (product : list Z) (row : nat * Z) : list Z :=
  let '(i, ai) := row in
  let '(mid, carry) := mul_loop (take 8 (drop i product)) b ai 0 in
  take i product ++ mid ++ u32 carry :: drop (i + 9) product.

Fixpoint fold_high (low high : list Z) (carry : Z) : list Z * Z :=
  match low, high with
  | x :: low, y :: high =>
      let t := u64 (x + 38 * y + carry) in
      let '(r, out) := fold_high low high (Z.shiftr t 32) in
      (u32 t :: r, out)
  | _, _ => ([], carry)
  end.

Definition tamga_fe_mul (a b : TamgaFe) : TamgaFe :=
  let product := fold_left (mul_row b) (zip (seq 0 8) a) (replicate 16 0) in
  let '(r, carry) := fold_high (take 8 product) (drop 8 product) 0 in
  tamga_fe_reduce (tamga_fe_fold_carry r carry).

Definition tamga_fe_sq (a : TamgaFe) : TamgaFe := tamga_fe_mul a a.

(** A bit of a little-endian byte string. *)
Definition le_bit (s : bytes) (bit : nat) : Z := Z.land (Z.shiftr (nth (bit / 8) s 0) (Z.of_nat (bit mod 8))) 1.

Fixpoint pow_loop (exponent : bytes) (bits : nat) (result base : TamgaFe) : TamgaFe :=
  match bits with
  | O => result
  | S bit =>
      let e := le_bit exponent bit in
      let result := tamga_fe_sq result in
      pow_loop exponent bit (if negb (e =? 0) then tamga_fe_mul result base else result) base
  end.

Definition tamga_fe_pow (a : TamgaFe) (exponent : bytes) : TamgaFe :=
  pow_loop exponent 256 tamga_fe_one (tamga_fe_copy a).

(** [p - 2] and [(p - 5) / 8], little-endian. *)
Definition invert_exponent : bytes := [0xeb] ++ replicate 30 0xff ++ [0x7f].
Definition p58_exponent : bytes := [0xfd] ++ replicate 30 0xff ++ [0x0f].

Definition tamga_fe_invert (a : TamgaFe) : TamgaFe := tamga_fe_pow a invert_exponent.

Definition tamga_fe_pow_p58 (a : TamgaFe) : TamgaFe := tamga_fe_pow a p58_exponent.

Definition tamga_fe_is_zero (a : TamgaFe) : bool := fold_left Z.lor a 0 =? 0.

Definition tamga_fe_equal (a b : TamgaFe) : bool :=
  fold_left (fun difference '(x, y) => Z.lor difference (Z.lxor x y)) (zip a b) 0 =? 0.

Definition tamga_fe_is_negative (a : TamgaFe) : bool := negb (Z.land (nth 0 a 0) 1 =? 0).

(** Limbs as little-endian bytes, and back. *)
Definition store_le (v : list Z) : bytes :=
  concat (map (fun x => [u8 x; u8 (Z.shiftr x 8); u8 (Z.shiftr x 16); u8 (Z.shiftr x 24)]) v).

Definition load_le (s : bytes) : list Z :=
  map (fun i =>
    Z.lor (Z.lor (Z.lor (nth (i * 4) s 0) (u32 (Z.shiftl (nth (i * 4 + 1) s 0) 8)))
                 (u32 (Z.shiftl (nth (i * 4 + 2) s 0) 16)))
          (u32 (Z.shiftl (nth (i * 4 + 3) s 0) 24))) (seq 0 8).

Definition tamga_fe_to_bytes (a : TamgaFe) : bytes := store_le (tamga_fe_reduce a).

Definition tamga_fe_from_bytes (s : bytes) : TamgaFe := tamga_fe_reduce (mask_top (load_le s)).

Definition tamga_fe_d : TamgaFe := tamga_fe_from_bytes TAMGA_FE_D_BYTES.

Definition tamga_fe_sqrtm1 : TamgaFe := tamga_fe_from_bytes TAMGA_FE_SQRTM1_BYTES.

(** The extremal product that one folding pass gets wrong: [(p - 38)(p - 1)]
    is [38]. *)
Example fe_mul_extremal :
  tamga_fe_mul [0xffffffc7; 0xffffffff; 0xffffffff; 0xffffffff; 0xffffffff; 0xffffffff; 0xffffffff; 0x7fffffff]
               [0xffffffec; 0xffffffff; 0xffffffff; 0xffffffff; 0xffffffff; 0xffffffff; 0xffffffff; 0x7fffffff] =
  38 :: replicate 7 0.
Proof. vm_compute. reflexivity. Qed.

Example fe_sqrtm1_squares : tamga_fe_sq tamga_fe_sqrtm1 = tamga_fe_neg tamga_fe_one.
Proof. vm_compute. reflexivity. Qed.
