(* ===== verification/FeSpec.v ===== *)
(** * The limb arithmetic of [Fe25519] is arithmetic modulo 2^255 - 19

    An element of the field is represented by exactly one array: eight limbs
    whose value is below the prime. Every operation keeps that form and
    computes the field operation it is named after. *)

From Stdlib Require Import Znumtheory Zmod.
From S2P Require Import Prelude Primes Octets Bn BnSpec Fe25519.
From stdpp Require Import list.
#[local] Open Scope Z_scope.
#[local] Coercion ZmodDef.Zmod.to_Z : Zmod >-> Z.

Definition p25519 : Z := 2 ^ 255 - 19.

(** Eight limbs, of any value. *)
Definition limbs8 (v : list Z) : Prop := limbs_ok v /\ length v = 8%nat.

(** The representation invariant. *)
Definition fe_ok (a : TamgaFe) : Prop := limbs8 a /\ eval a < p25519.

Lemma W_8 : W 8 = 2 ^ 256.
Proof. done. Qed.

Lemma limbs8_bound v : limbs8 v -> 0 <= eval v < 2 ^ 256.
Proof. intros [Hv Hl]. pose proof (eval_bound v Hv) as B. by rewrite Hl in B. Qed.

(** Destructs an array into its eight limbs. *)
Ltac limbs8_inv v H :=
  let Hl := fresh in let Hv := fresh in destruct H as [Hv Hl];
  do 8 (destruct v as [|? v]; [discriminate Hl|]); destruct v; [clear Hl|discriminate Hl];
  repeat match goal with K : limbs_ok (_ :: _) |- _ => apply Forall_cons in K as [? K] end; clear Hv.

Lemma limbs8_inj a b : limbs8 a -> limbs8 b -> eval a = eval b -> a = b.
Proof.
  intros [Ha La] [Hb Lb] E. apply (nth_ext _ _ 0 0); [congruence|]. intros k _. by rewrite !nth_eval, E.
Qed.

(** ** Carries *)

Lemma fold_loop_spec v c r out :
  limbs_ok v -> 0 <= c < 2 ^ 63 -> fold_loop v c = (r, out) ->
  limbs_ok r /\ length r = length v /\ 0 <= out /\ eval r + W (length v) * out = eval v + c.
Proof.
  intros Hv. revert c r out. induction Hv as [|x v Hx Hv IH]; intros c r out Hc; cbn [fold_loop].
  - intros [= <- <-]. cbn [eval length]. rewrite W_0. split_and!; try done; lia.
  - unfold limb in Hx. unfold u64. rewrite Z.mod_small by lia. rewrite Z.shiftr_div_pow2 by lia.
    set (t := x + c). assert (u32 t = t - 2 ^ 32 * (t / 2 ^ 32)) as Ht by (unfold u32; zdm).
    assert (0 <= t / 2 ^ 32 < 2 ^ 63) as Hd by zdm. destruct (Z.eqb_spec (t / 2 ^ 32) 0) as [E|E].
    + intros [= <- <-]. cbn [eval length]. split_and!; [constructor; [apply u32_limb|done]|done|lia|]. rewrite Ht, E. lia.
    + destruct (fold_loop v (t / 2 ^ 32)) as [r' out'] eqn:E'. intros [= <- <-]. destruct (IH _ _ _ Hd E') as (H1 & H2 & H3 & H4).
      cbn [eval length]. split_and!; [constructor; [apply u32_limb|done]|lia|lia|]. rewrite W_S, Ht. lia.
Qed.

(** Folding a carry of weight 2^256 ends within two turns. *)
Lemma fold_carry_runs v carry :
  limbs8 v -> limb carry ->
  exists r, fold_carry_run 2 v carry = Some r /\ limbs8 r /\ (p25519 | eval r - (eval v + 2 ^ 256 * carry)).
Proof.
  intros Hv Hc. pose proof (limbs8_bound v Hv) as B. cbn [fold_carry_run]. destruct (Z.eqb_spec carry 0) as [->|E].
  { exists v. split_and!; [done|done|]. exists 0. lia. }
  unfold limb in Hc. unfold u64. rewrite Z.mod_small by lia. destruct (fold_loop v (38 * carry)) as [r c] eqn:E1.
  destruct Hv as [Hv Hl]. apply fold_loop_spec in E1 as (R1 & R2 & R3 & R4); [|done|lia]. rewrite Hl, W_8 in *.
  pose proof (limbs8_bound r (conj R1 R2)) as Br. destruct (Z.eqb_spec c 0) as [->|Ec].
  { exists r. split_and!; [done|done|]. exists (-2 * carry). unfold p25519. lia. }
  assert (c = 1) as -> by lia. rewrite Z.mod_small by lia. destruct (fold_loop r (38 * 1)) as [r2 c2] eqn:E2.
  apply fold_loop_spec in E2 as (S1 & S2 & S3 & S4); [|done|lia]. rewrite R2, W_8 in *.
  pose proof (limbs8_bound r2 (conj S1 S2)) as Br2. assert (c2 = 0) as -> by lia. cbn [Z.eqb].
  exists r2. split_and!; [done|done|]. exists (-2 * carry - 2). unfold p25519. lia.
Qed.

Lemma fold_carry_spec v carry :
  limbs8 v -> limb carry ->
  limbs8 (tamga_fe_fold_carry v carry) /\ (p25519 | eval (tamga_fe_fold_carry v carry) - (eval v + 2 ^ 256 * carry)).
Proof. intros Hv Hc. unfold tamga_fe_fold_carry. by destruct (fold_carry_runs v carry Hv Hc) as (r & -> & H). Qed.

Lemma ripple_loop_spec v carry :
  limbs_ok v -> 0 <= carry < 2 ^ 32 -> eval v + carry < W (length v) ->
  limbs_ok (ripple_loop v carry) /\ length (ripple_loop v carry) = length v /\ eval (ripple_loop v carry) = eval v + carry.
Proof.
  intros Hv. revert carry. induction Hv as [|x v Hx Hv IH]; intros carry Hc Hlt; cbn [ripple_loop].
  - cbn [eval length] in *. rewrite W_0 in Hlt. split_and!; try done; lia.
  - destruct (Z.eqb_spec carry 0) as [->|E]; cbn [negb]; [split_and!; [by constructor|done|lia]|].
    unfold limb in Hx. unfold u64. rewrite Z.mod_small by lia. rewrite Z.shiftr_div_pow2 by lia. set (t := x + carry).
    assert (u32 t = t - 2 ^ 32 * (t / 2 ^ 32)) as Ht by (unfold u32; zdm). assert (0 <= t / 2 ^ 32 < 2 ^ 32) as Hd by zdm.
    cbn [eval length] in Hlt. rewrite W_S in Hlt. pose proof (eval_bound v Hv). destruct (IH _ Hd) as (H1 & H2 & H3); [zdm|].
    cbn [eval length]. split_and!; [constructor; [apply u32_limb|done]|lia|]. lia.
Qed.

(** ** Reduction *)

Lemma top_bit v : limbs8 v -> Z.shiftr (nth 7 v 0) 31 = eval v / 2 ^ 255.
Proof.
  intros H. limbs8_inv v H. cbn [nth eval]. unfold limb in *. rewrite Z.shiftr_div_pow2 by lia. zdm.
Qed.

Lemma mask_top_spec v : limbs8 v -> limbs8 (mask_top v) /\ eval (mask_top v) = eval v mod 2 ^ 255.
Proof.
  intros H. pose proof H as [Hv Hl]. unfold mask_top. change 0x7fffffff with (2 ^ 31 - 1). rewrite land_mask by lia.
  assert (limb (nth 7 v 0)) as Hn by (apply nth_Forall; [done|unfold limb; lia]). unfold limb in Hn.
  split; [split; [apply Forall_insert; [done|unfold limb; zdm]|by rewrite length_insert]|].
  rewrite eval_insert by lia. pose proof (top_bit v H) as Ht. rewrite Z.shiftr_div_pow2 in Ht by lia.
  replace (nth 7 v 0 mod 2 ^ 31) with (nth 7 v 0 - 2 ^ 31 * (eval v / 2 ^ 255)) by (rewrite <- Ht; zdm).
  change (W 7) with (2 ^ 224). zdm.
Qed.

(** One pass: nothing to do, or the top bit is folded as 19. *)
Lemma reduce_passes_S k v :
  limbs8 v -> if eval v <? 2 ^ 255 then reduce_passes (S k) v = v
              else exists v', limbs8 v' /\ eval v' = eval v - 2 ^ 255 + 19 /\ reduce_passes (S k) v = reduce_passes k v'.
Proof.
  intros H. pose proof (limbs8_bound v H) as B. cbn [reduce_passes]. rewrite top_bit by done. destruct (Z.ltb_spec (eval v) (2 ^ 255)).
  - by rewrite Z.div_small by lia.
  - replace (eval v / 2 ^ 255) with 1 by zdm. change (u64 (19 * 1)) with 19. cbn [Z.eqb].
    destruct (mask_top_spec v H) as [[M1 M2] M3]. replace (eval v mod 2 ^ 255) with (eval v - 2 ^ 255) in M3 by zdm.
    destruct (ripple_loop_spec (mask_top v) 19 M1 ltac:(lia)) as (R1 & R2 & R3); [rewrite M2, W_8; lia|].
    exists (ripple_loop (mask_top v) 19). split_and!; [split; [done|congruence]|lia|done].
Qed.

Lemma reduce_passes_spec v :
  limbs8 v -> limbs8 (reduce_passes 3 v) /\ eval (reduce_passes 3 v) < 2 ^ 255 /\ (p25519 | eval (reduce_passes 3 v) - eval v).
Proof.
  intros H. pose proof (limbs8_bound v H) as B. pose proof (reduce_passes_S 2 v H) as H1. destruct (Z.ltb_spec (eval v) (2 ^ 255)).
  { rewrite H1. split_and!; [done|lia|]. exists 0. lia. }
  destruct H1 as (v1 & L1 & E1 & ->). pose proof (reduce_passes_S 1 v1 L1) as H2. destruct (Z.ltb_spec (eval v1) (2 ^ 255)).
  { rewrite H2. split_and!; [done|lia|]. exists (-1). unfold p25519. lia. }
  destruct H2 as (v2 & L2 & E2 & ->). pose proof (reduce_passes_S 0 v2 L2) as H3. rewrite (proj2 (Z.ltb_lt _ _)) in H3 by lia.
  rewrite H3. split_and!; [done|lia|]. exists (-2). unfold p25519. lia.
Qed.

Lemma fe_p_value : limbs8 TAMGA_FE_P /\ eval TAMGA_FE_P = p25519.
Proof. split; [|done]. split; [|done]. repeat (constructor; [unfold limb; lia|]). constructor. Qed.

Lemma reduce_spec v : limbs8 v -> fe_ok (tamga_fe_reduce v) /\ eval (tamga_fe_reduce v) = eval v mod p25519.
Proof.
  intros H. destruct (reduce_passes_spec v H) as (L & Hlt & q & Hq). unfold tamga_fe_reduce, tamga_fe_conditional_sub_p.
  destruct (mask_top_spec _ L) as [M1 M2]. pose proof (limbs8_bound _ L). rewrite Z.mod_small in M2 by lia.
  set (w := mask_top (reduce_passes 3 v)) in *. destruct fe_p_value as [[P1 P2] P3]. pose proof (limbs8_bound w M1) as Bw.
  assert (forall z, 0 <= z < p25519 -> (p25519 | z - eval v) -> z = eval v mod p25519) as Hmod.
  { intros z Hz [k Hk]. apply Z.mod_unique_pos with (- k); lia. }
  destruct (sub_loop w TAMGA_FE_P 0) as [r borrow] eqn:E.
  apply sub_loop_spec in E as (S1 & S2 & S3 & S4); [|apply M1|done|destruct M1; congruence|lia].
  rewrite P3 in S4. rewrite (proj2 M1) in S2, S4. rewrite W_8 in S4.
  pose proof (limbs8_bound r (conj S1 S2)) as Br. unfold p25519 in *. destruct (Z.eqb_spec borrow 0) as [->|Eb].
  - split; [split; [done|unfold p25519; lia]|]. apply Hmod; [lia|]. exists (q - 1). lia.
  - split; [split; [done|unfold p25519; lia]|]. apply Hmod; [lia|]. exists q. lia.
Qed.

(** ** The field *)

Abbreviation F25519 := (Zmod p25519).

(** [a] is the array that represents [x]. *)
Definition fe_rep (x : F25519) (a : TamgaFe) : Prop := limbs8 a /\ eval a = x.

Lemma p25519_pos : 0 < p25519.
Proof. done. Qed.

Lemma fe_rep_ok x a : fe_rep x a -> fe_ok a.
Proof. intros [H E]. split; [done|]. rewrite E. apply Zmod.unsigned_pos_bound, p25519_pos. Qed.

Lemma fe_ok_rep a : fe_ok a -> fe_rep (Zmod.of_Z _ (eval a)) a.
Proof.
  intros [H Hlt]. split; [done|]. rewrite Zmod.unsigned_of_Z_small; [done|]. pose proof (limbs8_bound a H). lia.
Qed.

Lemma fe_rep_eq x y a : fe_rep x a -> fe_rep y a -> x = y.
Proof. intros [_ Hx] [_ Hy]. apply Zmod.unsigned_inj. congruence. Qed.

Lemma fe_rep_to x y a : fe_rep x a -> x = y -> fe_rep y a.
Proof. by intros H <-. Qed.

Lemma fe_rep_inj x a b : fe_rep x a -> fe_rep x b -> a = b.
Proof. intros [Ha Ea] [Hb Eb]. apply limbs8_inj; congruence. Qed.

(** A reduced array represents the residue of its value. *)
Lemma reduce_rep v z : limbs8 v -> (p25519 | eval v - z) -> fe_rep (Zmod.of_Z _ z) (tamga_fe_reduce v).
Proof.
  intros H Hd. destruct (reduce_spec v H) as [[H8 _] E]. split; [done|]. rewrite E, Zmod.unsigned_of_Z.
  destruct Hd as [k Hk]. replace (eval v) with (z + k * p25519) by lia. apply Z_mod_plus_full.
Qed.

Lemma of_Z_rep (x : F25519) z : z = (x : Z) -> Zmod.of_Z p25519 z = x.
Proof. intros ->. apply Zmod.of_Z_unsigned. Qed.

Lemma add_loop_spec a b carry r out :
  limbs_ok a -> limbs_ok b -> length a = length b -> 0 <= carry <= 1 -> add_loop a b carry = (r, out) ->
  limbs_ok r /\ length r = length a /\ 0 <= out <= 1 /\ eval r + W (length a) * out = eval a + eval b + carry.
Proof.
  intros Ha. revert b carry r out. induction Ha as [|x a Hx Ha IH]; intros b carry r out Hb Hl Hc; cbn [add_loop].
  - destruct b; [|done]. intros [= <- <-]. cbn [eval length]. rewrite W_0. split_and!; try done; lia.
  - destruct b as [|y b]; [done|]. apply Forall_cons in Hb as [Hy Hb]. unfold limb in Hx, Hy. unfold u64.
    rewrite Z.mod_small by lia. rewrite Z.shiftr_div_pow2 by lia. set (t := x + y + carry).
    assert (u32 t = t - 2 ^ 32 * (t / 2 ^ 32)) as Ht by (unfold u32; zdm). assert (0 <= t / 2 ^ 32 <= 1) as Hd by zdm.
    destruct (add_loop a b (t / 2 ^ 32)) as [r' out'] eqn:E. intros [= <- <-]. simpl in Hl.
    destruct (IH _ _ _ _ Hb ltac:(lia) Hd E) as (H1 & H2 & H3 & H4). cbn [eval length].
    split_and!; try lia; [constructor; [apply u32_limb|done]|]. rewrite W_S, Ht. lia.
Qed.

Lemma fe_add_rep x y a b : fe_rep x a -> fe_rep y b -> fe_rep (x + y)%Zmod (tamga_fe_add a b).
Proof.
  intros [[Ha La] Ea] [[Hb Lb] Eb]. unfold tamga_fe_add. destruct (add_loop a b 0) as [r carry] eqn:E.
  apply add_loop_spec in E as (R1 & R2 & R3 & R4); [|done|done|congruence|lia]. rewrite La, W_8 in *.
  destruct (fold_carry_spec r carry) as [F1 [k F2]]; [done|unfold limb; lia|].
  rewrite <- (Zmod.of_Z_unsigned (x + y)%Zmod), Zmod.unsigned_add, Zmod.of_Z_mod. apply reduce_rep; [done|]. exists k. lia.
Qed.

Lemma fe_sub_rep x y a b : fe_rep x a -> fe_rep y b -> fe_rep (x - y)%Zmod (tamga_fe_sub a b).
Proof.
  intros [[Ha La] Ea] [[Hb Lb] Eb]. unfold tamga_fe_sub. destruct (sub_loop a b 0) as [r borrow] eqn:E.
  apply sub_loop_spec in E as (R1 & R2 & R3 & R4); [|done|done|congruence|lia]. rewrite La, W_8 in *.
  rewrite <- (Zmod.of_Z_unsigned (x - y)%Zmod), Zmod.unsigned_sub, Zmod.of_Z_mod.
  pose proof (Zmod.unsigned_pos_bound x p25519_pos). pose proof (Zmod.unsigned_pos_bound y p25519_pos). rewrite Ea, Eb in R4.
  pose proof (limbs8_bound r (conj R1 R2)) as Br. destruct (Z.eqb_spec borrow 0) as [->|Eb0]; cbn [negb].
  { apply reduce_rep; [done|]. exists 0. lia. }
  assert (borrow = 1) as -> by lia. destruct fe_p_value as [[P1 P2] P3]. destruct (add_loop r TAMGA_FE_P 0) as [s c] eqn:E2.
  apply add_loop_spec in E2 as (S1 & S2 & S3 & S4); [|done|done|congruence|lia]. rewrite R2, P3, W_8 in *.
  pose proof (limbs8_bound s (conj S1 S2)) as Bs. cbn [fst]. assert (c = 1) as -> by (unfold p25519 in *; lia).
  apply reduce_rep; [done|]. exists 1. lia.
Qed.

Lemma fe_zero_rep : fe_rep 0%Zmod tamga_fe_zero.
Proof. split; [split; [apply limbs_replicate|done]|done]. Qed.

Lemma fe_one_rep : fe_rep 1%Zmod tamga_fe_one.
Proof. split; [split; [|done]|done]. constructor; [unfold limb; lia|apply limbs_replicate]. Qed.

Lemma fe_neg_rep x a : fe_rep x a -> fe_rep (- x)%Zmod (tamga_fe_neg a).
Proof. intros H. apply (fe_sub_rep 0 x _ _ fe_zero_rep H). Qed.

(** ** Multiplication *)

Lemma fold_high_spec low high carry r out :
  limbs_ok low -> limbs_ok high -> length low = length high -> 0 <= carry < 2 ^ 31 -> fold_high low high carry = (r, out) ->
  limbs_ok r /\ length r = length low /\ 0 <= out < 2 ^ 31 /\ eval r + W (length low) * out = eval low + 38 * eval high + carry.
Proof.
  intros Ha. revert high carry r out. induction Ha as [|x low Hx Ha IH]; intros high carry r out Hb Hl Hc; cbn [fold_high].
  - destruct high; [|done]. intros [= <- <-]. cbn [eval length]. rewrite W_0. split_and!; try done; lia.
  - destruct high as [|y high]; [done|]. apply Forall_cons in Hb as [Hy Hb]. unfold limb in Hx, Hy. unfold u64.
    rewrite Z.mod_small by lia. rewrite Z.shiftr_div_pow2 by lia. set (t := x + 38 * y + carry).
    assert (u32 t = t - 2 ^ 32 * (t / 2 ^ 32)) as Ht by (unfold u32; zdm). assert (0 <= t / 2 ^ 32 < 2 ^ 31) as Hd by zdm.
    destruct (fold_high low high (t / 2 ^ 32)) as [r' out'] eqn:E. intros [= <- <-]. simpl in Hl.
    destruct (IH _ _ _ _ Hb ltac:(lia) Hd E) as (H1 & H2 & H3 & H4). cbn [eval length].
    split_and!; try lia; [constructor; [apply u32_limb|done]|]. rewrite W_S, Ht. lia.
Qed.

(** After [i] rows the product holds the low [i] limbs of [a] times [b], and
    the limbs from [i + 8] on are still zero. *)
Lemma mul_row_spec b i ai product :
  limbs8 b -> limb ai -> (i < 8)%nat -> limbs_ok product -> length product = (i + 8)%nat ->
  let r := mul_row b (product ++ replicate (8 - i) 0) (i, ai) in
  exists next, r = next ++ replicate (8 - S i) 0 /\ limbs_ok next /\ length next = (S i + 8)%nat /\
    eval next = eval product + W i * ai * eval b.
Proof.
  intros [Hb Lb] Hai Hi Hp Lp. cbv zeta. unfold mul_row.
  assert (take 8 (drop i (product ++ replicate (8 - i) 0)) = drop i product) as ->.
  { rewrite drop_app_le by lia. rewrite take_app_le by (rewrite length_drop; lia). apply take_ge. rewrite length_drop. lia. }
  destruct (mul_loop (drop i product) b ai 0) as [mid carry] eqn:E.
  apply mul_loop_spec in E as (M1 & M2 & M3 & M4); [|by apply Forall_drop|done|rewrite length_drop; lia|done|unfold limb; lia].
  rewrite length_drop in M2, M4. replace (length product - i)%nat with 8%nat in * by lia.
  exists (take i product ++ mid ++ [carry]). unfold limb in M3. replace (u32 carry) with carry by (unfold u32; rewrite Z.mod_small; lia). split_and!.
  - rewrite take_app_le by lia. rewrite drop_app_ge by lia. rewrite drop_replicate, Lp, <- !app_assoc. cbn [app].
    do 4 f_equal. lia.
  - apply Forall_app. split; [by apply Forall_take|]. apply Forall_app. split; [done|]. by apply Forall_singleton.
  - rewrite !length_app, length_take. cbn [length]. lia.
  - rewrite !eval_app, length_take, Nat.min_l by lia. cbn [eval]. rewrite <- (take_drop i product) at 2.
    rewrite eval_app, length_take, Nat.min_l, M2 by lia. nia.
Qed.

Lemma mul_rows_spec b a i product :
  limbs8 b -> limbs_ok a -> (i + length a = 8)%nat -> limbs_ok product -> length product = (i + 8)%nat ->
  let r := fold_left (mul_row b) (zip (seq i (length a)) a) (product ++ replicate (8 - i) 0) in
  limbs_ok r /\ length r = 16%nat /\ eval r = eval product + W i * eval a * eval b.
Proof.
  intros Hb Ha. revert i product. induction Ha as [|x a Hx Ha IH]; intros i product Hi Hp Lp; cbn [length] in *.
  - cbn. replace (8 - i)%nat with 0%nat by lia. rewrite app_nil_r. split_and!; [done|lia|lia].
  - cbn [seq zip zip_with fold_left]. destruct (mul_row_spec b i x product Hb Hx ltac:(lia) Hp Lp) as (next & -> & N1 & N2 & N3).
    destruct (IH (S i) next ltac:(lia) N1 ltac:(lia)) as (R1 & R2 & R3). split_and!; [done|done|].
    cbn [eval]. rewrite R3, N3, W_S. ring.
Qed.

Lemma fe_mul_rep x y a b : fe_rep x a -> fe_rep y b -> fe_rep (x * y)%Zmod (tamga_fe_mul a b).
Proof.
  intros [[Ha La] Ea] [Hb Eb]. unfold tamga_fe_mul.
  destruct (mul_rows_spec b a 0 (replicate 8 0) Hb Ha ltac:(lia) (limbs_replicate _) (length_replicate _ _)) as (R1 & R2 & R3).
  rewrite La in R1, R2, R3.   change (replicate 8 0 ++ replicate (8 - 0) 0) with (replicate 16 0) in *. set (pr := fold_left _ _ _) in *.
  rewrite eval_replicate, W_0, Ea, Eb in R3. destruct (fold_high (take 8 pr) (drop 8 pr) 0) as [r carry] eqn:E.
  assert (length (take 8 pr) = 8%nat) as Lt by (rewrite length_take; lia).
  apply fold_high_spec in E as (S1 & S2 & S3 & S4);
    [|by apply Forall_take|by apply Forall_drop|rewrite length_take, length_drop; lia|lia].
  rewrite Lt, W_8 in *. destruct (fold_carry_spec r carry) as [F1 [k F2]]; [done|unfold limb; lia|].
  rewrite <- (Zmod.of_Z_unsigned (x * y)%Zmod), Zmod.unsigned_mul, Zmod.of_Z_mod. apply reduce_rep; [done|].
  assert (eval (take 8 pr) + 2 ^ 256 * eval (drop 8 pr) = x * y) as Hpr.
  { pose proof (eval_app (take 8 pr) (drop 8 pr)) as Ea'. rewrite take_drop, Lt, W_8 in Ea'. lia. }
  exists (k - 2 * eval (drop 8 pr)). unfold p25519 in *. lia.
Qed.

Lemma fe_sq_rep x a : fe_rep x a -> fe_rep (x * x)%Zmod (tamga_fe_sq a).
Proof. intros H. by apply fe_mul_rep. Qed.

(** ** Little-endian numbers *)

Fixpoint le_value (s : bytes) : Z :=
  match s with
  | [] => 0
  | b :: s => b + 2 ^ 8 * le_value s
  end.

(** The [len] low octets of a number, least significant first. *)
Fixpoint le_bytes (len : nat) (x : Z) : bytes :=
  match len with
  | O => []
  | S len => x mod 2 ^ 8 :: le_bytes len (x / 2 ^ 8)
  end.

Lemma bytes_ok_check s : forallb (fun b => (0 <=? b) && (b <? 256)) s = true -> bytes_ok s.
Proof. intros H. apply Forall_forall. intros b Hb%list_elem_of_In. rewrite forallb_forall in H. specialize (H b Hb). unfold is_byte. lia. Qed.

Lemma le_value_bound s : bytes_ok s -> 0 <= le_value s < 2 ^ (8 * zlen s).
Proof.
  induction 1 as [|b s Hb _ IH]; [done|]. cbn [le_value length]. unfold is_byte in Hb. rewrite pow_8_S. lia.
Qed.

Lemma le_value_app s1 s2 : le_value (s1 ++ s2) = le_value s1 + 2 ^ (8 * zlen s1) * le_value s2.
Proof.
  induction s1 as [|b s1 IH]; cbn [app le_value length]; [change (2 ^ (8 * Z.of_nat 0)) with 1; lia|]. rewrite IH, pow_8_S. lia.
Qed.

Lemma le_bytes_length len x : length (le_bytes len x) = len.
Proof. revert x. induction len as [|len IH]; intros x; cbn [le_bytes length]; [done|by rewrite IH]. Qed.

Lemma le_bytes_ok len x : bytes_ok (le_bytes len x).
Proof. revert x. induction len as [|len IH]; intros x; cbn [le_bytes]; constructor; [unfold is_byte; zdm|apply IH]. Qed.

Lemma le_bytes_value s : bytes_ok s -> le_bytes (length s) (le_value s) = s.
Proof.
  induction 1 as [|b s Hb _ IH]; [done|]. cbn [le_value length le_bytes]. unfold is_byte in Hb. f_equal; [zdm|].
  transitivity (le_bytes (length s) (le_value s)); [f_equal; zdm|done].
Qed.

Lemma le_value_bytes len x : le_value (le_bytes len x) = x mod 2 ^ (8 * Z.of_nat len).
Proof.
  revert x. induction len as [|len IH]; intros x; cbn [le_bytes le_value]; [by rewrite Z.mod_1_r|].
  rewrite IH, pow_8_S, (Z.mul_comm (2 ^ (8 * Z.of_nat len))). pose proof (pow_8_pos len). rewrite (Z.rem_mul_r x) by lia. lia.
Qed.

Lemma le_value_inj s1 s2 : bytes_ok s1 -> bytes_ok s2 -> length s1 = length s2 -> le_value s1 = le_value s2 -> s1 = s2.
Proof. intros H1 H2 Hl E. rewrite <- (le_bytes_value s1), <- (le_bytes_value s2) by done. by rewrite Hl, E. Qed.

Lemma le_bit_spec s i : bytes_ok s -> le_bit s i = le_value s / 2 ^ Z.of_nat i mod 2.
Proof.
  intros Hs. unfold le_bit. rewrite (land_mask _ 1), Z.shiftr_div_pow2 by lia. change (2 ^ 1) with 2.
  rewrite (Nat.div_mod_eq i 8) at 3. pose proof (Nat.mod_upper_bound i 8 ltac:(lia)) as Hr.
  set (q := (i / 8)%nat). set (r := (i mod 8)%nat) in *. rewrite Nat2Z.inj_add, Nat2Z.inj_mul. change (Z.of_nat 8) with 8.
  rewrite Z.pow_add_r by lia. clearbody q r. clear i. revert q. induction Hs as [|b s Hb Hs IH]; intros q; cbn [le_value].
  - rewrite Z.div_0_l by (apply Z.neq_mul_0; split; apply Z.pow_nonzero; lia). by destruct q.
  - unfold is_byte in Hb. destruct q as [|q]; cbn [nth].
    + change (2 ^ (8 * Z.of_nat 0)) with 1. rewrite Z.mul_1_l. assert (exists j, 2 ^ 8 = 2 * j * 2 ^ Z.of_nat r) as [j ->].
      { exists (2 ^ (7 - Z.of_nat r)). rewrite <- Z.pow_succ_r, <- Z.pow_add_r by lia. f_equal. lia. }
      replace (2 * j * 2 ^ Z.of_nat r * le_value s) with (2 * (j * le_value s) * 2 ^ Z.of_nat r) by ring.
      rewrite Z.div_add by (apply Z.pow_nonzero; lia). rewrite Z.mul_comm, Z_mod_plus_full. done.
    + rewrite IH, pow_8_S. assert (0 < 2 ^ Z.of_nat r) by (apply Z.pow_pos_nonneg; lia). pose proof (pow_8_pos q).
      replace (2 ^ (8 * Z.of_nat q) * 2 ^ 8 * 2 ^ Z.of_nat r) with (2 ^ 8 * (2 ^ (8 * Z.of_nat q) * 2 ^ Z.of_nat r)) by ring.
      rewrite <- (Z.div_div _ (2 ^ 8)) by lia. do 2 f_equal. zdm.
Qed.

(** The bits of a number from the most significant down: the recurrence of
    every double-and-add loop. *)
Lemma le_bit_step s k : bytes_ok s ->
  le_value s / 2 ^ Z.of_nat k = 2 * (le_value s / 2 ^ Z.of_nat (S k)) + le_bit s k /\ (le_bit s k = 0 \/ le_bit s k = 1).
Proof.
  intros Hs. rewrite le_bit_spec by done. rewrite Nat2Z.inj_succ, Z.pow_succ_r, (Z.mul_comm 2 (2 ^ _)) by lia.
  assert (0 < 2 ^ Z.of_nat k) by (apply Z.pow_pos_nonneg; lia). rewrite <- Z.div_div by lia. zdm.
Qed.

(** ** Powers *)

Lemma pow_loop_rep x a exponent k result :
  bytes_ok exponent -> fe_rep x a -> fe_rep (x ^ (le_value exponent / 2 ^ Z.of_nat k))%Zmod result ->
  fe_rep (x ^ le_value exponent)%Zmod (pow_loop exponent k result a).
Proof.
  intros He Ha. pose proof (le_value_bound _ He) as B. revert result. induction k as [|k IH]; intros result Hr; cbn [pow_loop].
  - change (2 ^ Z.of_nat 0) with 1 in Hr. by rewrite Z.div_1_r in Hr.
  - apply IH. destruct (le_bit_step exponent k He) as [-> Hbit]. apply fe_sq_rep in Hr.
    assert (0 <= le_value exponent / 2 ^ Z.of_nat (S k)) by (apply Z.div_pos; [lia|apply Z.pow_pos_nonneg; lia]).
    set (e := le_value exponent / 2 ^ Z.of_nat (S k)) in *.
    assert (x ^ (2 * e) = x ^ e * x ^ e)%Zmod as E by (rewrite <- Zmod.pow_add_r_nonneg by lia; f_equal; lia).
    destruct Hbit as [-> | ->]; cbn [Z.eqb negb].
    + by rewrite Z.add_0_r, E.
    + rewrite Zmod.pow_add_r_nonneg, E, Zmod.pow_1_r by lia. by apply fe_mul_rep.
Qed.

Lemma fe_pow_rep x a exponent :
  bytes_ok exponent -> length exponent = 32%nat -> fe_rep x a -> fe_rep (x ^ le_value exponent)%Zmod (tamga_fe_pow a exponent).
Proof.
  intros He Hl Ha. unfold tamga_fe_pow, tamga_fe_copy. apply (pow_loop_rep x a exponent 256); [done|done|]. pose proof (le_value_bound _ He) as B. rewrite Hl in B.
  change (Z.of_nat 256) with 256. rewrite Z.div_small by (change (8 * Z.of_nat 32) with 256 in B; lia). rewrite Zmod.pow_0_r. apply fe_one_rep.
Qed.

Lemma fe_invert_pow x a : fe_rep x a -> fe_rep (x ^ (p25519 - 2))%Zmod (tamga_fe_invert a).
Proof.
  intros H. assert (le_value invert_exponent = p25519 - 2) as <- by (vm_compute; reflexivity).
  unfold tamga_fe_invert. apply fe_pow_rep; [by apply bytes_ok_check|reflexivity|exact H].
Qed.

Lemma fe_pow_p58_rep x a : fe_rep x a -> fe_rep (x ^ ((p25519 - 5) / 8))%Zmod (tamga_fe_pow_p58 a).
Proof.
  intros H. assert (le_value p58_exponent = (p25519 - 5) / 8) as <- by (vm_compute; reflexivity).
  unfold tamga_fe_pow_p58. apply fe_pow_rep; [by apply bytes_ok_check|reflexivity|exact H].
Qed.

(** ** Comparisons *)

(** An accumulated disjunction is zero when every term is. *)
Lemma lor_fold_zero {A} (f : A -> Z) (l : list A) acc :
  Forall (fun x => 0 <= f x) l -> 0 <= acc ->
  (fold_left (fun d x => Z.lor d (f x)) l acc =? 0) = (acc =? 0) && forallb (fun x => f x =? 0) l.
Proof.
  intros Hl. revert acc. induction Hl as [|x l Hx Hl IH]; intros acc Ha; cbn [fold_left forallb]; [by rewrite andb_true_r|].
  rewrite IH by (apply Z.lor_nonneg; lia). rewrite andb_assoc. f_equal. apply eq_true_iff_eq.
  rewrite andb_true_iff, !Z.eqb_eq, Z.lor_eq_0_iff. lia.
Qed.

Lemma limbs_nonneg l : limbs_ok l -> Forall (Z.le 0) l.
Proof. intros H. eapply Forall_impl; [exact H|]. unfold limb. lia. Qed.

Lemma bytes_nonneg l : bytes_ok l -> Forall (Z.le 0) l.
Proof. intros H. eapply Forall_impl; [exact H|]. unfold is_byte. lia. Qed.

Lemma limbs_zero l : limbs_ok l -> forallb (Z.eqb 0) l = (eval l =? 0).
Proof.
  induction 1 as [|x l Hx Hl IH]; [done|]. cbn [forallb eval]. rewrite IH. pose proof (eval_bound l Hl). unfold limb in Hx.
  apply eq_true_iff_eq. rewrite andb_true_iff, !Z.eqb_eq. lia.
Qed.

Lemma lor_zero_spec l : limbs_ok l -> (fold_left Z.lor l 0 =? 0) = (eval l =? 0).
Proof.
  intros H. change (fold_left Z.lor l 0) with (fold_left (fun d x => Z.lor d x) l 0).
  rewrite (lor_fold_zero (fun x => x)) by (lia || by apply limbs_nonneg). cbn [Z.eqb andb]. rewrite <- limbs_zero by done.
  induction l as [|x l IH]; cbn [forallb]; [done|]. apply Forall_cons in H as [_ H]. rewrite IH by done. f_equal.
Qed.

Lemma fe_is_zero_spec x a : fe_rep x a -> tamga_fe_is_zero a = Zmod.eqb x 0.
Proof. intros [[H _] E]. unfold tamga_fe_is_zero, Zmod.eqb. by rewrite lor_zero_spec, E, Zmod.unsigned_0. Qed.

Lemma fe_is_negative_spec x a : fe_rep x a -> tamga_fe_is_negative a = Z.odd x.
Proof.
  intros [[H _] E]. unfold tamga_fe_is_negative. rewrite (land_pow2 _ 0), negb_involutive, Z.bit0_odd by lia.
  rewrite nth_eval, W_0, Z.div_1_r, E by done. rewrite !Zodd_mod. f_equal. zdm.
Qed.

Lemma xor_zip_zero a b :
  Forall (Z.le 0) a -> Forall (Z.le 0) b -> length a = length b ->
  (fold_left (fun d '(x, y) => Z.lor d (Z.lxor x y)) (zip a b) 0 =? 0) = bool_decide (a = b).
Proof.
  intros Ha Hb Hl. assert (Forall (fun xy => 0 <= Z.lxor xy.1 xy.2) (zip a b)) as Hz.
  { apply Forall_forall. intros [x y] Hxy. pose proof (elem_of_zip_l _ _ _ _ Hxy) as Hx. pose proof (elem_of_zip_r _ _ _ _ Hxy) as Hy. rewrite Forall_forall in Ha, Hb. specialize (Ha x Hx). specialize (Hb y Hy).
    cbn. apply Z.lxor_nonneg. lia. }
  transitivity (fold_left (fun d xy => Z.lor d (Z.lxor xy.1 xy.2)) (zip a b) 0 =? 0).
  { f_equal. generalize 0. induction (zip a b) as [|[x y] l IH]; intros z; [done|]. apply IH. inversion Hz; auto. }
  rewrite (lor_fold_zero (fun xy => Z.lxor xy.1 xy.2)) by (done || lia). cbn [Z.eqb andb]. clear Hz Ha Hb. revert b Hl.
  induction a as [|x a IH]; intros [|y b] Hl; try done. cbn [zip zip_with forallb fst snd]. simpl in Hl. rewrite IH by lia.
  apply eq_true_iff_eq. rewrite andb_true_iff, Z.eqb_eq, Z.lxor_eq_0_iff, !bool_decide_eq_true. split; [by intros [-> ->]|by intros [= -> ->]].
Qed.

Lemma fe_equal_spec x y a b : fe_rep x a -> fe_rep y b -> tamga_fe_equal a b = Zmod.eqb x y.
Proof.
  intros [[Ha La] Ea] [[Hb Lb] Eb]. unfold tamga_fe_equal, Zmod.eqb.
  rewrite xor_zip_zero by (congruence || by apply limbs_nonneg). apply eq_true_iff_eq. rewrite bool_decide_eq_true, Z.eqb_eq.
  split; [congruence|]. intros E. apply limbs8_inj; [done|done|congruence].
Qed.

(** ** Encoding *)

Lemma store_le_spec v : limbs_ok v -> store_le v = le_bytes (4 * length v) (eval v).
Proof.
  induction 1 as [|x v Hx Hv IH]; [done|]. unfold store_le in *. cbn [map concat eval length].
  replace (4 * S (length v))%nat with (S (S (S (S (4 * length v))))) by lia. cbn [le_bytes app]. rewrite IH.
  unfold limb in Hx. unfold u8. rewrite !Z.shiftr_div_pow2 by lia.
  pose proof (eval_bound v Hv) as [B _]. set (e := eval v) in *. clearbody e.
  replace ((x + 2 ^ 32 * e) / 2 ^ 8 / 2 ^ 8 / 2 ^ 8 / 2 ^ 8) with e by zdm.
  f_equal; [zdm|]. f_equal; [zdm|]. f_equal; [zdm|]. f_equal; zdm.
Qed.

Lemma load_word b0 b1 b2 b3 :
  is_byte b0 -> is_byte b1 -> is_byte b2 -> is_byte b3 ->
  Z.lor (Z.lor (Z.lor b0 (u32 (Z.shiftl b1 8))) (u32 (Z.shiftl b2 16))) (u32 (Z.shiftl b3 24)) =
  b0 + b1 * 2 ^ 8 + b2 * 2 ^ 16 + b3 * 2 ^ 24.
Proof.
  unfold is_byte. intros H0 H1 H2 H3. rewrite !Z.shiftl_mul_pow2 by lia. unfold u32. rewrite !Z.mod_small by lia.
  rewrite (lor_disjoint_add b0) by lia. rewrite (lor_disjoint_add _ b2) by lia. rewrite (lor_disjoint_add _ b3) by lia. done.
Qed.

Lemma load_le_spec s : bytes_ok s -> length s = 32%nat -> limbs8 (load_le s) /\ eval (load_le s) = le_value s.
Proof.
  intros Hs Hl. do 32 (destruct s as [|? s]; [discriminate Hl|]). destruct s; [clear Hl|discriminate Hl].
  repeat match goal with K : bytes_ok (_ :: _) |- _ => apply Forall_cons in K as [? K] end. clear Hs.
  unfold load_le. cbn [map seq nth Nat.mul Nat.add]. rewrite !load_word by done. unfold is_byte in *.
  split; [split; [repeat (constructor; [unfold limb; lia|]); constructor|done]|]. cbn [eval le_value]. lia.
Qed.

Lemma fe_from_bytes_rep s :
  bytes_ok s -> length s = 32%nat -> fe_rep (Zmod.of_Z _ (le_value s mod 2 ^ 255)) (tamga_fe_from_bytes s).
Proof.
  intros Hs Hl. destruct (load_le_spec s Hs Hl) as [L1 L2]. destruct (mask_top_spec _ L1) as [M1 M2].
  unfold tamga_fe_from_bytes. rewrite <- L2, <- M2. apply reduce_rep; [done|]. exists 0. lia.
Qed.

Lemma fe_to_bytes_spec x a : fe_rep x a -> tamga_fe_to_bytes a = le_bytes 32 x.
Proof.
  intros [H E]. unfold tamga_fe_to_bytes. destruct (reduce_spec a H) as [[[R1 R2] _] R3].
  rewrite store_le_spec, R2, R3, E, Zmod.mod_unsigned by done. done.
Qed.

Lemma const_rep s z : bytes_ok s -> length s = 32%nat -> le_value s mod 2 ^ 255 = z -> fe_rep (Zmod.of_Z _ z) (tamga_fe_from_bytes s).
Proof. intros Hs Hl <-. by apply fe_from_bytes_rep. Qed.

(** The curve constant and the square root of -1 as numbers. *)
Definition d25519 : F25519 := Zmod.of_Z _ (le_value TAMGA_FE_D_BYTES).
Definition sqrtm1_25519 : F25519 := Zmod.of_Z _ (le_value TAMGA_FE_SQRTM1_BYTES).

Lemma fe_d_rep : fe_rep d25519 tamga_fe_d.
Proof. apply const_rep; [by apply bytes_ok_check|done|vm_compute; reflexivity]. Qed.

Lemma fe_sqrtm1_rep : fe_rep sqrtm1_25519 tamga_fe_sqrtm1.
Proof. apply const_rep; [by apply bytes_ok_check|done|vm_compute; reflexivity]. Qed.

Lemma d25519_value : (d25519 * Zmod.of_Z _ 121666 = - Zmod.of_Z _ 121665)%Zmod.
Proof. apply Zmod.unsigned_inj. vm_compute. reflexivity. Qed.

Lemma sqrtm1_square : (sqrtm1_25519 * sqrtm1_25519 = Zmod.opp 1)%Zmod.
Proof. apply Zmod.unsigned_inj. vm_compute. reflexivity. Qed.

Create HintDb fe discriminated.
#[export] Hint Constants Opaque : fe.
#[export] Hint Variables Opaque : fe.
#[export] Hint Resolve fe_add_rep fe_sub_rep fe_neg_rep fe_mul_rep fe_sq_rep fe_zero_rep fe_one_rep fe_d_rep fe_sqrtm1_rep
  fe_pow_p58_rep fe_invert_pow : fe.

(** ** The operations on numbers *)

(** [r] is the array of the residue of [z]. *)
Definition computes (r : TamgaFe) (z : Z) : Prop := fe_ok r /\ eval r = z mod p25519.

Lemma rep_computes x r z : fe_rep x r -> Zmod.to_Z x = z mod p25519 -> computes r z.
Proof. intros H E. split; [by eapply fe_rep_ok|]. destruct H as [_ ->]. exact E. Qed.

(** (C22) The type of field elements. Every array the operations return is eight
    32-bit limbs with a value below 2^255 - 19, and it is the sum, difference,
    negative, product, square or inverse of its arguments modulo that prime;
    equality is decided by value, and an element is read back from its 32-byte
    encoding. *)
Theorem fe_arithmetic_exact a b :
  fe_ok a -> fe_ok b ->
  computes (tamga_fe_add a b) (eval a + eval b) /\ computes (tamga_fe_sub a b) (eval a - eval b) /\
  computes (tamga_fe_neg a) (- eval a) /\ computes (tamga_fe_mul a b) (eval a * eval b) /\ computes (tamga_fe_sq a) (eval a * eval a) /\
  (eval a <> 0 -> fe_ok (tamga_fe_invert a) /\ (eval a * eval (tamga_fe_invert a)) mod p25519 = 1) /\
  (tamga_fe_equal a b = true <-> eval a = eval b) /\
  tamga_fe_to_bytes a = le_bytes 32 (eval a) /\ tamga_fe_from_bytes (tamga_fe_to_bytes a) = a.
Proof.
  intros Ha Hb. pose proof (fe_ok_rep a Ha) as Ra. pose proof (fe_ok_rep b Hb) as Rb. pose proof (proj2 Ra) as Ea. pose proof (proj2 Rb) as Eb.
  set (x := Zmod.of_Z p25519 (eval a)) in *. set (y := Zmod.of_Z p25519 (eval b)) in *. rewrite Ea, Eb. split_and!.
  - apply (rep_computes _ _ _ (fe_add_rep _ _ _ _ Ra Rb)). apply Zmod.unsigned_add.
  - apply (rep_computes _ _ _ (fe_sub_rep _ _ _ _ Ra Rb)). apply Zmod.unsigned_sub.
  - apply (rep_computes _ _ _ (fe_neg_rep _ _ Ra)). apply Zmod.unsigned_opp.
  - apply (rep_computes _ _ _ (fe_mul_rep _ _ _ _ Ra Rb)). apply Zmod.unsigned_mul.
  - apply (rep_computes _ _ _ (fe_sq_rep _ _ Ra)). apply Zmod.unsigned_mul.
  - intros Hx. assert (x <> 0%Zmod) as Hnz by (intros E; apply Hx; rewrite E; reflexivity). pose proof (fe_invert_pow _ _ Ra) as Hi.
    rewrite (Zmod.fermat_inv x Hnz prime_25519) in Hi. split; [by eapply fe_rep_ok|]. rewrite (proj2 Hi), <- Zmod.unsigned_mul.
    rewrite (Zmod.mul_inv_same_r_prime x prime_25519 Hnz). reflexivity.
  - rewrite (fe_equal_spec _ _ _ _ Ra Rb). unfold Zmod.eqb. apply Z.eqb_eq.
  - by rewrite (fe_to_bytes_spec _ _ Ra).
  - rewrite (fe_to_bytes_spec _ _ Ra). pose proof (fe_from_bytes_rep (le_bytes 32 x) (le_bytes_ok _ _) (le_bytes_length _ _)) as H.
    eapply fe_rep_inj; [|exact Ra]. eapply (fe_rep_to _ _ _ H).
    assert (0 <= (x : Z) < p25519) as B by (apply Zmod.unsigned_pos_bound, p25519_pos). assert (p25519 < 2 ^ 255) by done.
    rewrite le_value_bytes. change (8 * Z.of_nat 32) with 256. rewrite (Z.mod_small x (2 ^ 256)), (Z.mod_small x (2 ^ 255)) by lia. by apply of_Z_rep.
Qed.

Lemma fe_arithmetic_exact_witness :
  let two := 2 :: replicate 7 0 in (eval two * eval (tamga_fe_invert two)) mod p25519 = 1.
Proof.
  intros two. apply (fe_arithmetic_exact two two); [split; [split|]; [repeat (constructor; [unfold limb; lia|]); constructor|reflexivity|reflexivity]..|discriminate].
Defined.
