(* ===== verification/Edwards.v ===== *)
(** * The twisted Edwards curve -x^2 + y^2 = 1 + d x^2 y^2 as a group

    Over a prime field in which -1 is a square and [d] is not, the addition law
    has no exceptional points: the points form a commutative group, and
    double-and-add computes multiples. Coordinates are Stdlib's [Zmod]. *)

From Stdlib Require Import Znumtheory Zmod Field.
From S2P Require Import Prelude.
From stdpp Require Import list.
#[local] Open Scope Z_scope.
#[local] Open Scope Zmod_scope.

Definition on_curve {p} (d : Zmod p) (P : Zmod p * Zmod p) : Prop :=
  let '(x, y) := P in y * y - x * x = 1 + d * (x * x) * (y * y).

Definition ed_zero {p} : Zmod p * Zmod p := (0, 1).
Definition ed_neg {p} (P : Zmod p * Zmod p) : Zmod p * Zmod p := let '(x, y) := P in (- x, y).

Definition ed_add {p} (d : Zmod p) (P Q : Zmod p * Zmod p) : Zmod p * Zmod p :=
  let '(x1, y1) := P in
  let '(x2, y2) := Q in
  let e := d * x1 * x2 * y1 * y2 in
  (Zmod.mdiv (x1 * y2 + x2 * y1) (1 + e), Zmod.mdiv (y1 * y2 + x1 * x2) (1 - e)).

(** The multiple: [P] added [n] times. *)
Definition ed_mul {p} (d : Zmod p) (n : Z) (P : Zmod p * Zmod p) : Zmod p * Zmod p :=
  Nat.iter (Z.to_nat n) (ed_add d P) ed_zero.

Section Group.
Context {p : Z} (Hp : Z.prime p) (d i : Zmod p).
Hypothesis Hi : i * i = Zmod.opp 1.
Hypothesis Hd : forall x, x * x <> d.
Hypothesis H2 : (1 + 1 : Zmod p) <> 0.
Add Field Zmod_field : (Zmod.field_theory p Hp).

Lemma mul_nonzero (x y : Zmod p) : x <> 0 -> y <> 0 -> x * y <> 0.
Proof. intros Hx Hy H. by apply Zmod.mul_0_iff_prime in H as [|]. Qed.

Lemma mdiv_mul (n m : Zmod p) : m <> 0 -> Zmod.mdiv n m * m = n.
Proof. intros Hm. by field. Qed.

Lemma nonzero_factor (x y : Zmod p) : x * y <> 0 -> x <> 0 /\ y <> 0.
Proof. intros H. split; intros ->; apply H; ring. Qed.

(** The two identities behind completeness, with [s] a sign. *)
Lemma complete_identity x1 y1 x2 y2 s :
  on_curve d (x1, y1) -> on_curve d (x2, y2) -> s * s = 1 ->
  let e := d * x1 * x2 * y1 * y2 in
  e * e = 1 -> (i * x1 + s * e * y1) * (i * x1 + s * e * y1) = d * ((x1 * y1) * (i * x2 + s * y2)) * ((x1 * y1) * (i * x2 + s * y2)).
Proof.
  intros C1 C2 Hs e He. cbn [on_curve] in C1, C2.
  transitivity (i * i * (x1 * x1) + (s * s) * (e * e) * (y1 * y1) + (1 + 1) * (i * s * e * x1 * y1)); [ring|].
  transitivity (d * (x1 * x1) * (y1 * y1) * (i * i * (x2 * x2) + s * s * (y2 * y2)) + (1 + 1) * (i * s * e * x1 * y1)); [|unfold e; ring].
  rewrite Hs, He, Hi. f_equal. transitivity (y1 * y1 - x1 * x1); [ring|]. rewrite C1.
  transitivity (d * (x1 * x1) * (y1 * y1) * (y2 * y2 - x2 * x2)); [|ring]. rewrite C2.
  transitivity (e * e + d * (x1 * x1) * (y1 * y1)); [rewrite He; ring|unfold e; ring].
Qed.

(** The denominators of the addition law never vanish. *)
Lemma complete x1 y1 x2 y2 :
  on_curve d (x1, y1) -> on_curve d (x2, y2) ->
  let e := d * x1 * x2 * y1 * y2 in 1 + e <> 0 /\ 1 - e <> 0.
Proof.
  intros C1 C2 e. assert (e * e <> 1) as Hne.
  { intros He. assert (e <> 0) as Hnz by (intros E; rewrite E in He; revert He; rewrite Zmod.mul_0_l; intros He; symmetry in He;
      revert He; apply Zmod.one_neq_zero; pose proof (Z.prime_ge_2 _ Hp); lia).
    subst e. repeat (apply nonzero_factor in Hnz as [Hnz ?]).
    assert (forall s, s * s = 1 -> i * x2 + s * y2 = 0) as Hsq.
    { intros s Hs. pose proof (complete_identity x1 y1 x2 y2 s C1 C2 Hs He) as HI. cbv zeta in HI.
      set (w := (x1 * y1) * (i * x2 + s * y2)) in *. destruct (Zmod.eqb_spec (i * x2 + s * y2) 0) as [E|E]; [done|].
      assert (w <> 0) as Hw by (subst w; repeat apply mul_nonzero; done).
      set (r := i * x1 + _) in HI. exfalso. apply (Hd (Zmod.mdiv r w)).
      transitivity (Zmod.mdiv (r * r) (w * w)); [by field|]. rewrite HI. by field. }
    pose proof (Hsq 1 ltac:(ring)) as E1. pose proof (Hsq (- (1)) ltac:(ring)) as E2.
    assert ((1 + 1) * y2 = 0) as E; [transitivity ((i * x2 + 1 * y2) - (i * x2 + - (1) * y2)); [ring|rewrite E1, E2; ring]|].
    apply Zmod.mul_0_iff_prime in E as [E|E]; done. }
  split; intros E; apply Hne.
  - transitivity (e * e - (1 + e) * (e - 1)); [rewrite E; ring|ring].
  - transitivity (e * e + (1 - e) * (1 + e)); [rewrite E; ring|ring].
Qed.

(** Closure. *)
Lemma ed_add_on_curve P Q : on_curve d P -> on_curve d Q -> on_curve d (ed_add d P Q).
Proof.
  destruct P as [x1 y1], Q as [x2 y2]. intros C1 C2. destruct (complete x1 y1 x2 y2 C1 C2) as [HA HB]. cbn [ed_add].
  set (e := d * x1 * x2 * y1 * y2) in *. cbn [on_curve] in *.
  assert ((y1 * y1 - x1 * x1) - (y2 * y2 - x2 * x2) * (d * (x1 * x1) * (y1 * y1)) = (1 + e) * (1 - e)) as E1.
  { rewrite C1, C2. unfold e. ring. }
  assert ((y2 * y2 - x2 * x2) - (y1 * y1 - x1 * x1) * (d * (x2 * x2) * (y2 * y2)) = (1 + e) * (1 - e)) as E2.
  { rewrite C1, C2. unfold e. ring. }
  set (n := x1 * y2 + x2 * y1) in *. set (m := y1 * y2 + x1 * x2) in *.
  assert (m * m * (1 + e) * (1 + e) - n * n * (1 - e) * (1 - e) - d * (n * n) * (m * m) = ((1 + e) * (1 - e)) * ((1 + e) * (1 - e))) as E.
  { rewrite <- E1 at 1. rewrite <- E2. unfold e, n, m. ring. }
  transitivity (Zmod.mdiv (m * m * (1 + e) * (1 + e) - n * n * (1 - e) * (1 - e)) ((1 + e) * (1 - e) * ((1 + e) * (1 - e)))); [by field|].
  transitivity (Zmod.mdiv ((1 + e) * (1 - e) * ((1 + e) * (1 - e)) + d * (n * n) * (m * m)) ((1 + e) * (1 - e) * ((1 + e) * (1 - e)))); [|by field].
  f_equal. rewrite <- E. ring.
Qed.

Lemma ed_zero_on_curve : on_curve d ed_zero.
Proof. unfold ed_zero. cbn [on_curve]. ring. Qed.

Lemma ed_neg_on_curve P : on_curve d P -> on_curve d (ed_neg P).
Proof. destruct P as [x y]. cbn [on_curve ed_neg]. intros C. transitivity (y * y - x * x); [ring|rewrite C; ring]. Qed.

Lemma one_nonzero : (1 : Zmod p) <> 0.
Proof. apply Zmod.one_neq_zero. pose proof (Z.prime_ge_2 _ Hp). lia. Qed.

Lemma ed_add_comm P Q : ed_add d P Q = ed_add d Q P.
Proof. destruct P as [x1 y1], Q as [x2 y2]. cbn [ed_add]. f_equal; f_equal; ring. Qed.

Lemma ed_add_0_l P : ed_add d ed_zero P = P.
Proof.
  destruct P as [x y]. unfold ed_zero. cbn [ed_add].
  replace (1 + d * 0 * x * 1 * y) with (1 : Zmod p) by ring. replace (1 - d * 0 * x * 1 * y) with (1 : Zmod p) by ring.
  rewrite !Zmod.div_1_r. f_equal; ring.
Qed.

Lemma ed_add_neg P : on_curve d P -> ed_add d P (ed_neg P) = ed_zero.
Proof.
  destruct P as [x y]. intros C. pose proof (ed_neg_on_curve _ C) as C'. destruct (complete x y (- x) y C C') as [HA HB].
  cbn [ed_add ed_neg]. cbn [on_curve] in C. unfold ed_zero. f_equal; [field; done|].
  assert (y * y + x * - x = 1 - d * x * - x * y * y) as -> by (transitivity (y * y - x * x); [ring|rewrite C; ring]). by field.
Qed.

(** Associativity. With [a = x^2] and [b = y^2], the curve equations are
    [d a b - b + a + 1 = 0]; the two cross-multiplied coordinates differ by a
    combination of the three, with the coefficients given here. *)
Section Assoc.
Context (x1 y1 x2 y2 x3 y3 : Zmod p).
Context (C1 : on_curve d (x1, y1)) (C2 : on_curve d (x2, y2)) (C3 : on_curve d (x3, y3)).
Let a1 := x1 * x1.
Let b1 := y1 * y1.
Let a2 := x2 * x2.
Let b2 := y2 * y2.
Let a3 := x3 * x3.
Let b3 := y3 * y3.
Let e12 := d * x1 * x2 * y1 * y2.
Let e23 := d * x2 * x3 * y2 * y3.
Let n12 := x1 * y2 + x2 * y1.
Let m12 := y1 * y2 + x1 * x2.
Let n23 := x2 * y3 + x3 * y2.
Let m23 := y2 * y3 + x2 * x3.

Lemma curve_relation x y : on_curve d (x, y) -> d * (x * x) * (y * y) - y * y + x * x + 1 = 0.
Proof. cbn [on_curve]. intros C. transitivity ((1 + d * (x * x) * (y * y)) - (y * y - x * x)); [ring|]. rewrite C. ring. Qed.

Lemma assoc_x :
  (n12 * (1 - e12) * y3 + x3 * (m12 * (1 + e12))) * ((1 + e23) * (1 - e23) + d * x1 * n23 * y1 * m23) =
  (x1 * (m23 * (1 + e23)) + n23 * (1 - e23) * y1) * ((1 + e12) * (1 - e12) + d * n12 * x3 * m12 * y3).
Proof.
  transitivity ((x1 * (m23 * (1 + e23)) + n23 * (1 - e23) * y1) * ((1 + e12) * (1 - e12) + d * n12 * x3 * m12 * y3) +
    ((
      x1 * x2 * x3 * (d * d * a2 * b2 * b2 * b3 + d * a2 * b2 * a3 + d * a2 * b2 - d * b2 * b2 * b3) + x1 * y2 * y3 * (d * d *
      a2 * a2 * b2 * a3 + d * a2 * a2 * a3 - d * a2 * b2 * b3 + d * a2 * b2) + y1 * x2 * y3 * (d * a2 * b2 - d * d * a2 * b2 *
      b2 * a3 - d * a2 * b2 * b3 + d * b2 * b2 * a3) + y1 * y2 * x3 * (d * a2 * b2 * a3 - d * d * a2 * a2 * b2 * b3 - d * a2 *
      a2 * b3 + d * a2 * b2)) *
      (d * a1 * b1 - b1 + a1 + 1) +
    (
      x1 * x2 * x3 * (d * b1 * b2 * b3 - d * d * b1 * b2 * a3 * b3 - d * a1 * b2 * b3 - d * a1 * a3 * b3 + d * b1 * a3 * b3 - d
      * b2 * b3 - d * a3 * b3 - a1 * a3 + a1 * b3 - a1 + b1 * a3 - b1 * b3 + b1 - a3 + b3 - 1) + x1 * y2 * y3 * (d * d * b1 *
      a2 * a3 * b3 - d * a1 * a2 * a3 - d * a1 * a3 * b3 + d * b1 * a2 * a3 + d * b1 * a3 * b3 - d * a2 * a3 - d * a3 * b3 - a1
      * a3 + a1 * b3 - a1 + b1 * a3 - b1 * b3 + b1 - a3 + b3 - 1) + y1 * x2 * y3 * (d * d * a1 * b2 * a3 * b3 + d * a1 * b2 *
      a3 - d * a1 * a3 * b3 - d * b1 * b2 * a3 + d * b1 * a3 * b3 + d * b2 * a3 - d * a3 * b3 - a1 * a3 + a1 * b3 - a1 + b1 *
      a3 - b1 * b3 + b1 - a3 + b3 - 1) + y1 * y2 * x3 * (d * a1 * a2 * b3 - d * d * a1 * a2 * a3 * b3 - d * a1 * a3 * b3 - d *
      b1 * a2 * b3 + d * b1 * a3 * b3 + d * a2 * b3 - d * a3 * b3 - a1 * a3 + a1 * b3 - a1 + b1 * a3 - b1 * b3 + b1 - a3 + b3 -
      1)) *
      (d * a2 * b2 - b2 + a2 + 1) +
    (
      x1 * x2 * x3 * (d * b1 * b2 + a1 * a2 - a1 * b2 + a1 - b1 * a2 + b1 * b2 - b1 + a2 - b2 + 1) + x1 * y2 * y3 * (a1 * a2 -
      d * b1 * a2 - a1 * b2 + a1 - b1 * a2 + b1 * b2 - b1 + a2 - b2 + 1) + y1 * x2 * y3 * (a1 * a2 - d * a1 * b2 - a1 * b2 + a1
      - b1 * a2 + b1 * b2 - b1 + a2 - b2 + 1) + y1 * y2 * x3 * (d * a1 * a2 + a1 * a2 - a1 * b2 + a1 - b1 * a2 + b1 * b2 - b1 +
      a2 - b2 + 1)) *
      (d * a3 * b3 - b3 + a3 + 1))).
  - unfold n12, m12, n23, m23, e12, e23, a1, b1, a2, b2, a3, b3. ring.
  - unfold a1, b1, a2, b2, a3, b3. rewrite !curve_relation by done. ring.
Qed.

Lemma assoc_y :
  (m12 * (1 + e12) * y3 + n12 * (1 - e12) * x3) * ((1 + e23) * (1 - e23) - d * x1 * n23 * y1 * m23) =
  (y1 * (m23 * (1 + e23)) + x1 * (n23 * (1 - e23))) * ((1 + e12) * (1 - e12) - d * n12 * x3 * m12 * y3).
Proof.
  transitivity ((y1 * (m23 * (1 + e23)) + x1 * (n23 * (1 - e23))) * ((1 + e12) * (1 - e12) - d * n12 * x3 * m12 * y3) +
    ((
      x1 * x2 * y3 * (d * a2 * b2 - d * d * a2 * b2 * b2 * a3 - d * a2 * b2 * b3 + d * b2 * b2 * a3) + x1 * y2 * x3 * (d * a2 *
      b2 * a3 - d * d * a2 * a2 * b2 * b3 - d * a2 * a2 * b3 + d * a2 * b2) + y1 * x2 * x3 * (d * d * a2 * b2 * b2 * b3 + d *
      a2 * b2 * a3 + d * a2 * b2 - d * b2 * b2 * b3) + y1 * y2 * y3 * (d * d * a2 * a2 * b2 * a3 + d * a2 * a2 * a3 - d * a2 *
      b2 * b3 + d * a2 * b2)) *
      (d * a1 * b1 - b1 + a1 + 1) +
    (
      x1 * x2 * y3 * (d * a1 * b2 * a3 - d * d * b1 * b2 * a3 * b3 - d * a1 * a3 * b3 - d * b1 * b2 * a3 + d * b1 * a3 * b3 + d
      * b2 * a3 - d * a3 * b3 - a1 * a3 + a1 * b3 - a1 + b1 * a3 - b1 * b3 + b1 - a3 + b3 - 1) + x1 * y2 * x3 * (d * d * b1 *
      a2 * a3 * b3 + d * a1 * a2 * b3 - d * a1 * a3 * b3 - d * b1 * a2 * b3 + d * b1 * a3 * b3 + d * a2 * b3 - d * a3 * b3 - a1
      * a3 + a1 * b3 - a1 + b1 * a3 - b1 * b3 + b1 - a3 + b3 - 1) + y1 * x2 * x3 * (d * d * a1 * b2 * a3 * b3 - d * a1 * b2 *
      b3 - d * a1 * a3 * b3 + d * b1 * b2 * b3 + d * b1 * a3 * b3 - d * b2 * b3 - d * a3 * b3 - a1 * a3 + a1 * b3 - a1 + b1 *
      a3 - b1 * b3 + b1 - a3 + b3 - 1) + y1 * y2 * y3 * (d * b1 * a2 * a3 - d * d * a1 * a2 * a3 * b3 - d * a1 * a2 * a3 - d *
      a1 * a3 * b3 + d * b1 * a3 * b3 - d * a2 * a3 - d * a3 * b3 - a1 * a3 + a1 * b3 - a1 + b1 * a3 - b1 * b3 + b1 - a3 + b3 -
      1)) *
      (d * a2 * b2 - b2 + a2 + 1) +
    (
      x1 * x2 * y3 * (d * b1 * b2 + a1 * a2 - a1 * b2 + a1 - b1 * a2 + b1 * b2 - b1 + a2 - b2 + 1) + x1 * y2 * x3 * (a1 * a2 -
      d * b1 * a2 - a1 * b2 + a1 - b1 * a2 + b1 * b2 - b1 + a2 - b2 + 1) + y1 * x2 * x3 * (a1 * a2 - d * a1 * b2 - a1 * b2 + a1
      - b1 * a2 + b1 * b2 - b1 + a2 - b2 + 1) + y1 * y2 * y3 * (d * a1 * a2 + a1 * a2 - a1 * b2 + a1 - b1 * a2 + b1 * b2 - b1 +
      a2 - b2 + 1)) *
      (d * a3 * b3 - b3 + a3 + 1))).
  - unfold n12, m12, n23, m23, e12, e23, a1, b1, a2, b2, a3, b3. ring.
  - unfold a1, b1, a2, b2, a3, b3. rewrite !curve_relation by done. ring.
Qed.

End Assoc.

Lemma div_cross (a b a' b' : Zmod p) : b <> 0 -> b' <> 0 -> a * b' = a' * b -> Zmod.mdiv a b = Zmod.mdiv a' b'.
Proof. intros Hb Hb' H. transitivity (Zmod.mdiv (a * b') (b * b')); [by field|]. rewrite H. by field. Qed.

Lemma ed_add_assoc P Q R :
  on_curve d P -> on_curve d Q -> on_curve d R -> ed_add d (ed_add d P Q) R = ed_add d P (ed_add d Q R).
Proof.
  intros C1 C2 C3. pose proof (ed_add_on_curve _ _ C1 C2) as C12. pose proof (ed_add_on_curve _ _ C2 C3) as C23.
  destruct P as [x1 y1], Q as [x2 y2], R as [x3 y3]. pose proof (complete _ _ _ _ C1 C2) as [HA HB].
  pose proof (complete _ _ _ _ C2 C3) as [HA' HB']. cbv zeta in HA, HB, HA', HB'. cbn [ed_add] in *.
  pose proof (complete _ _ _ _ C12 C3) as [KA KB]. pose proof (complete _ _ _ _ C1 C23) as [KA' KB']. cbv zeta in KA, KB, KA', KB'.
  pose proof (assoc_x x1 y1 x2 y2 x3 y3 C1 C2 C3) as EX. pose proof (assoc_y x1 y1 x2 y2 x3 y3 C1 C2 C3) as EY. cbv zeta in EX, EY.
  set (e12 := d * x1 * x2 * y1 * y2) in *. set (e23 := d * x2 * x3 * y2 * y3) in *.
  set (n12 := x1 * y2 + x2 * y1) in *. set (m12 := y1 * y2 + x1 * x2) in *.
  set (n23 := x2 * y3 + x3 * y2) in *. set (m23 := y2 * y3 + x2 * x3) in *. clearbody e12 e23 n12 m12 n23 m23.
  f_equal; apply div_cross; try done.
  - match type of EX with ?l = ?r => transitivity (Zmod.mdiv l ((1 + e12) * (1 - e12) * ((1 + e23) * (1 - e23)))) end; [by field|].
    rewrite EX. by field.
  - match type of EY with ?l = ?r => transitivity (Zmod.mdiv l ((1 + e12) * (1 - e12) * ((1 + e23) * (1 - e23)))) end; [by field|].
    rewrite EY. by field.
Qed.

(** ** Multiples *)

Lemma ed_mul_succ n P : (0 <= n)%Z -> ed_mul d (n + 1) P = ed_add d P (ed_mul d n P).
Proof. intros Hn. unfold ed_mul. replace (Z.to_nat (n + 1)) with (S (Z.to_nat n)) by lia. done. Qed.

Lemma ed_mul_on_curve n P : on_curve d P -> on_curve d (ed_mul d n P).
Proof. intros C. unfold ed_mul. induction (Z.to_nat n); cbn [Nat.iter]; [apply ed_zero_on_curve|by apply ed_add_on_curve]. Qed.

Lemma ed_mul_add n m P : on_curve d P -> (0 <= n)%Z -> (0 <= m)%Z -> ed_mul d (n + m) P = ed_add d (ed_mul d n P) (ed_mul d m P).
Proof.
  intros C Hn Hm. revert n Hn. apply natlike_ind; [by rewrite ed_add_0_l|]. intros n Hn IH. unfold Z.succ.
  replace (n + 1 + m)%Z with (n + m + 1)%Z by lia. rewrite !ed_mul_succ, IH by lia.
  by rewrite ed_add_assoc by (done || by apply ed_mul_on_curve).
Qed.

Lemma ed_mul_0 P : ed_mul d 0 P = ed_zero.
Proof. done. Qed.

Lemma ed_mul_1 P : ed_mul d 1 P = P.
Proof. change 1%Z with (0 + 1)%Z. rewrite ed_mul_succ, ed_mul_0, ed_add_comm by lia. apply ed_add_0_l. Qed.

(** The recurrence of double-and-add. *)
Lemma ed_mul_double n P : on_curve d P -> (0 <= n)%Z -> ed_mul d (2 * n) P = ed_add d (ed_mul d n P) (ed_mul d n P).
Proof. intros C Hn. rewrite <- ed_mul_add by done. f_equal. lia. Qed.

Lemma ed_mul_double_add n P :
  on_curve d P -> (0 <= n)%Z -> ed_mul d (2 * n + 1) P = ed_add d (ed_add d (ed_mul d n P) (ed_mul d n P)) P.
Proof. intros C Hn. rewrite ed_mul_add, ed_mul_double, ed_mul_1 by (done || lia). done. Qed.

Lemma ed_mul_zero n : ed_mul d n ed_zero = ed_zero.
Proof. unfold ed_mul. induction (Z.to_nat n) as [|k IH]; [done|]. rewrite Nat.iter_succ, IH. apply ed_add_0_l. Qed.

Lemma ed_neg_add P Q : on_curve d P -> on_curve d Q -> ed_neg (ed_add d P Q) = ed_add d (ed_neg P) (ed_neg Q).
Proof.
  destruct P as [x1 y1], Q as [x2 y2]. intros C1 C2. destruct (complete x1 y1 x2 y2 C1 C2) as [HA HB]. cbv zeta in HA, HB. cbn [ed_add ed_neg].
  replace (d * - x1 * - x2 * y1 * y2) with (d * x1 * x2 * y1 * y2) by ring. f_equal; field; done.
Qed.

Lemma ed_neg_mul n P : on_curve d P -> ed_mul d n (ed_neg P) = ed_neg (ed_mul d n P).
Proof.
  intros C. unfold ed_mul. induction (Z.to_nat n) as [|k IH]; [change (@ed_zero p = ed_neg ed_zero); unfold ed_zero, ed_neg; f_equal; ring|].
  rewrite !Nat.iter_succ, IH. rewrite ed_neg_add; [done|done|].
  pose proof (ed_mul_on_curve (Z.of_nat k) P C) as H. unfold ed_mul in H. by rewrite Nat2Z.id in H.
Qed.

(** Moving a term to the other side of an equation. *)
Lemma ed_sub_iff P Q R : on_curve d P -> on_curve d Q -> on_curve d R -> R = ed_add d P (ed_neg Q) <-> P = ed_add d R Q.
Proof.
  intros C1 C2 C3. pose proof (ed_neg_on_curve _ C2) as C2'. split; intros ->.
  - rewrite ed_add_assoc, (ed_add_comm (ed_neg Q)), ed_add_neg, ed_add_comm, ed_add_0_l by done. done.
  - rewrite ed_add_assoc, ed_add_neg, ed_add_comm, ed_add_0_l by done. done.
Qed.
End Group.
