(* ===== verification/Ed25519.v ===== *)
(** * Ed25519 verification: [src/src/crypto/ed25519.c]

    Byte arrays are lists of bytes of the length the C parameter declares;
    [None] stands for a null pointer. A scalar is 32 little-endian bytes. *)

From S2P Require Import Prelude Sha2 Bn Fe25519.
From stdpp Require Import list.
#[local] Open Scope Z_scope.

(** ** Scalars *)

Definition TAMGA_SC_L : bytes :=
  [0xed; 0xd3; 0xf5; 0x5c; 0x1a; 0x63; 0x12; 0x58; 0xd6; 0x9c; 0xf7;
   0xa2; 0xde; 0xf9; 0xde; 0x14; 0x00; 0x00; 0x00; 0x00; 0x00; 0x00;
   0x00; 0x00; 0x00; 0x00; 0x00; 0x00; 0x00; 0x00; 0x00; 0x10].

(** The scan from byte [i - 1] down. *)
Fixpoint canonical_loop (s : bytes) (i : nat) : bool :=
  match i with
  | O => false
  | S i =>
      if nth i s 0 <? nth i TAMGA_SC_L 0 then true
      else if nth i s 0 >? nth i TAMGA_SC_L 0 then false
      else canonical_loop s i
  end.

Definition tamga_sc_is_canonical (s : bytes) : bool := canonical_loop s 32.

Definition tamga_sc_load_l : list Z := load_le TAMGA_SC_L.

(** The doubling loop: the shifted-in bit is the first carry; the bit shifted
    out of the top limb is dropped. *)
Fixpoint shift_in (v : list Z) (carry : Z) : list Z :=
  match v with
  | [] => []
  | x :: v => Z.lor (u32 (Z.shiftl x 1)) carry :: shift_in v (Z.shiftr x 31)
  end.

(** One turn of the long division. *)
Definition reduce_step (l remainder : list Z) (carry : Z) : list Z :=
  let remainder := shift_in remainder carry in
  let '(candidate, borrow) := sub_loop remainder l 0 in
  if borrow =? 0 then candidate else remainder.

Fixpoint reduce512_loop (s : bytes) (l : list Z) (bits : nat) (remainder : list Z) : list Z :=
  match bits with
  | O => remainder
  | S bit => reduce512_loop s l bit (reduce_step l remainder (le_bit s bit))
  end.

Definition tamga_sc_reduce512 (s : bytes) : bytes :=
  store_le (reduce512_loop s tamga_sc_load_l 512 (replicate 8 0)).

(** ** Group elements *)

Record TamgaGe := mk_ge { ge_x : TamgaFe; ge_y : TamgaFe; ge_z : TamgaFe; ge_t : TamgaFe }.

Definition TAMGA_GE_BASE : bytes := 0x58 :: replicate 31 0x66.

Definition tamga_ge_identity : TamgaGe := mk_ge tamga_fe_zero tamga_fe_one tamga_fe_one tamga_fe_zero.

Definition tamga_ge_copy (a : TamgaGe) : TamgaGe :=
  mk_ge (tamga_fe_copy (ge_x a)) (tamga_fe_copy (ge_y a)) (tamga_fe_copy (ge_z a)) (tamga_fe_copy (ge_t a)).

Definition tamga_ge_neg (a : TamgaGe) : TamgaGe :=
  mk_ge (tamga_fe_neg (ge_x a)) (tamga_fe_copy (ge_y a)) (tamga_fe_copy (ge_z a)) (tamga_fe_neg (ge_t a)).

Definition tamga_ge_add (p q : TamgaGe) : TamgaGe :=
  let two_d := tamga_fe_d in
  let two_d := tamga_fe_add two_d two_d in
  let a := tamga_fe_sub (ge_y p) (ge_x p) in
  let tmp := tamga_fe_sub (ge_y q) (ge_x q) in
  let a := tamga_fe_mul a tmp in
  let b := tamga_fe_add (ge_y p) (ge_x p) in
  let tmp := tamga_fe_add (ge_y q) (ge_x q) in
  let b := tamga_fe_mul b tmp in
  let c := tamga_fe_mul (ge_t p) (ge_t q) in
  let c := tamga_fe_mul c two_d in
  let d := tamga_fe_mul (ge_z p) (ge_z q) in
  let d := tamga_fe_add d d in
  let e := tamga_fe_sub b a in
  let f := tamga_fe_sub d c in
  let g := tamga_fe_add d c in
  let h := tamga_fe_add b a in
  mk_ge (tamga_fe_mul e f) (tamga_fe_mul g h) (tamga_fe_mul f g) (tamga_fe_mul e h).

Definition tamga_ge_double (p : TamgaGe) : TamgaGe := tamga_ge_add p p.

Definition tamga_ge_compress (p : TamgaGe) : bytes :=
  let z_inv := tamga_fe_invert (ge_z p) in
  let x := tamga_fe_mul (ge_x p) z_inv in
  let y := tamga_fe_mul (ge_y p) z_inv in
  let out := tamga_fe_to_bytes y in
  <[31%nat := u8 (Z.lor (nth 31 out 0) (if tamga_fe_is_negative x then 0x80 else 0x00))]> out.

(** The end of [tamga_ge_decompress]: the sign of the root [x]. *)
Definition decompress_sign (sign : Z) (x y : TamgaFe) : option TamgaGe :=
  if tamga_fe_is_zero x && negb (sign =? 0) then None
  else
    let x := if negb (eqb (tamga_fe_is_negative x) (negb (sign =? 0))) then tamga_fe_neg x else x in
    Some (mk_ge (tamga_fe_copy x) y tamga_fe_one (tamga_fe_mul x y)).

Definition tamga_ge_decompress (s : bytes) : option TamgaGe :=
  let sign := Z.land (Z.shiftr (nth 31 s 0) 7) 1 in
  let y := tamga_fe_from_bytes s in
  let one := tamga_fe_one in
  let d := tamga_fe_d in
  let u := tamga_fe_sq y in
  let v := tamga_fe_mul u d in
  let u := tamga_fe_sub u one in
  let v := tamga_fe_add v one in
  let v3 := tamga_fe_sq v in
  let v3 := tamga_fe_mul v3 v in
  let x := tamga_fe_sq v3 in
  let x := tamga_fe_mul x v in
  let x := tamga_fe_mul x u in
  let x := tamga_fe_pow_p58 x in
  let x := tamga_fe_mul x v3 in
  let x := tamga_fe_mul x u in
  let vxx := tamga_fe_sq x in
  let vxx := tamga_fe_mul vxx v in
  let check := tamga_fe_sub vxx u in
  match
    (if negb (tamga_fe_is_zero check) then
       let check := tamga_fe_add vxx u in
       if negb (tamga_fe_is_zero check) then None else Some (tamga_fe_mul x tamga_fe_sqrtm1)
     else Some x)
  with
  | None => None
  | Some x => decompress_sign sign x y
  end.

Fixpoint scalarmul_loop (scalar : bytes) (p : TamgaGe) (bits : nat) (accumulator : TamgaGe) : TamgaGe :=
  match bits with
  | O => accumulator
  | S bit =>
      let accumulator := tamga_ge_double accumulator in
      scalarmul_loop scalar p bit (if negb (le_bit scalar bit =? 0) then tamga_ge_add accumulator p else accumulator)
  end.

Definition tamga_ge_scalarmul (p : TamgaGe) (scalar : bytes) : TamgaGe :=
  tamga_ge_copy (scalarmul_loop scalar p 256 tamga_ge_identity).

(** ** Verification *)

(** What the accumulated byte-wise comparison finds. *)
Definition same_bytes (x y : bytes) : bool :=
  fold_left (fun difference '(x, y) => Z.lor difference (Z.lxor x y)) (zip x y) 0 =? 0.

(** The second half of [tamga_ed25519_verify], once the scalar and the two
    points have been accepted. *)
Definition ed25519_equation (base a_point : TamgaGe) (public_key : bytes) (message : option bytes) (signature : bytes) : bool :=
  let hash := tamga_sha512_init in
  let hash := tamga_sha512_update hash (Some (take 32 signature)) in
  let hash := tamga_sha512_update hash (Some public_key) in
  let hash := tamga_sha512_update hash message in
  let hash_output := tamga_sha512_final hash in
  let k := tamga_sc_reduce512 hash_output in
  let sb := tamga_ge_scalarmul base (drop 32 signature) in
  let a_point := tamga_ge_neg a_point in
  let ka := tamga_ge_scalarmul a_point k in
  let computed := tamga_ge_add sb ka in
  let recomputed_r := tamga_ge_compress computed in
  same_bytes recomputed_r (take 32 signature).

Definition tamga_ed25519_verify (public_key message : option bytes) (message_len : Z) (signature : option bytes) : bool :=
  match public_key, signature with
  | Some public_key, Some signature =>
      if match message with None => message_len >? 0 | Some _ => false end then false
      else if negb (tamga_sc_is_canonical (drop 32 signature)) then false
      else
        match tamga_ge_decompress public_key with
        | None => false
        | Some a_point =>
            match tamga_ge_decompress TAMGA_GE_BASE return bool with
            | None => false
            | Some base => ed25519_equation base a_point public_key message signature
            end
        end
  | _, _ => false
  end.
