(* ===== verification/Ed25519Spec.v ===== *)
(** * Ed25519 verification checks the group equation

    The scalars of [Ed25519] are integers modulo the group order, its points
    are points of the affine curve, compression and decompression are the
    encoding of RFC 8032, and a signature is accepted exactly when the
    cofactorless equation holds for it. *)

From Stdlib Require Import Znumtheory Zmod Field.
From S2P Require Import Prelude Primes Octets Sha2 Hkdf Bn BnSpec Fe25519 FeSpec Edwards Ed25519.
From stdpp Require Import list.
#[local] Open Scope Z_scope.
#[local] Coercion ZmodDef.Zmod.to_Z : Zmod >-> Z.

(** ** The curve *)

Lemma p25519_prime : Z.prime p25519.
Proof. exact prime_25519. Qed.

Add Field F25519_field : (Zmod.field_theory p25519 p25519_prime).

Lemma two_nonzero : (1 + 1 : F25519)%Zmod <> 0%Zmod.
Proof. intros E. apply (f_equal Zmod.to_Z) in E. vm_compute in E. discriminate E. Qed.

Lemma d25519_euler : (d25519 ^ ((p25519 - 1) / 2) = Zmod.opp 1)%Zmod.
Proof.
  apply Zmod.unsigned_inj. rewrite Zmod.unsigned_pow_nonneg_r by (vm_compute; congruence).
  rewrite <- powmod_spec by (vm_compute; congruence || reflexivity). vm_compute. reflexivity.
Qed.

Lemma d25519_nonsquare x : (x * x)%Zmod <> d25519.
Proof.
  intros E. pose proof d25519_euler as He. rewrite <- E, <- Zmod.pow_2_r, <- Zmod.pow_mul_r_nonneg in He by (vm_compute; congruence).
  change (2 * ((p25519 - 1) / 2)) with (Z.pred p25519) in He.
  destruct (Zmod.eqb_spec x 0%Zmod) as [->|Hx].
  - apply (f_equal Zmod.to_Z) in E. vm_compute in E. discriminate E.
  - rewrite (Zmod.fermat_nz x Hx p25519_prime) in He. apply (f_equal Zmod.to_Z) in He. vm_compute in He. discriminate He.
Qed.

Abbreviation point := (F25519 * F25519)%type.
Abbreviation curve := (on_curve d25519).
Abbreviation padd := (ed_add d25519).
Abbreviation pmul := (ed_mul d25519).

Lemma point_complete x1 y1 x2 y2 :
  curve (x1, y1) -> curve (x2, y2) ->
  (1 + d25519 * x1 * x2 * y1 * y2 <> 0 /\ 1 - d25519 * x1 * x2 * y1 * y2 <> 0)%Zmod.
Proof. apply (complete p25519_prime d25519 sqrtm1_25519 sqrtm1_square d25519_nonsquare two_nonzero). Qed.

Lemma padd_curve P Q : curve P -> curve Q -> curve (padd P Q).
Proof. apply (ed_add_on_curve p25519_prime d25519 sqrtm1_25519 sqrtm1_square d25519_nonsquare two_nonzero). Qed.

Lemma pneg_curve P : curve P -> curve (ed_neg P).
Proof. apply (ed_neg_on_curve p25519_prime). Qed.

Lemma pmul_curve n P : curve P -> curve (pmul n P).
Proof. apply (ed_mul_on_curve p25519_prime d25519 sqrtm1_25519 sqrtm1_square d25519_nonsquare two_nonzero). Qed.

(** ** Group elements *)

#[local] Opaque tamga_fe_add tamga_fe_sub tamga_fe_neg tamga_fe_mul tamga_fe_sq tamga_fe_zero tamga_fe_one tamga_fe_d tamga_fe_sqrtm1
  tamga_fe_pow_p58 tamga_fe_invert.

(** [g] holds extended coordinates of the affine point [P]. *)
Definition ge_rep (P : point) (g : TamgaGe) : Prop :=
  let '(x, y) := P in
  exists Z : F25519, Z <> 0%Zmod /\ fe_rep (x * Z)%Zmod (ge_x g) /\ fe_rep (y * Z)%Zmod (ge_y g) /\
    fe_rep Z (ge_z g) /\ fe_rep (x * y * Z)%Zmod (ge_t g).

Lemma ge_identity_rep : ge_rep ed_zero tamga_ge_identity.
Proof.
  exists 1%Zmod. split; [apply Zmod.one_neq_zero; vm_compute; congruence|].
  replace (0 * 1)%Zmod with (0 : F25519)%Zmod by ring. replace (1 * 1)%Zmod with (1 : F25519)%Zmod by ring.
  replace (0 * 1)%Zmod with (0 : F25519)%Zmod by ring. unfold tamga_ge_identity. cbn [ge_x ge_y ge_z ge_t]. split_and!; auto with fe.
Qed.

Lemma ge_neg_rep P g : ge_rep P g -> ge_rep (ed_neg P) (tamga_ge_neg g).
Proof.
  destruct P as [x y]. intros (Z & HZ & Hx & Hy & Hz & Ht). exists Z. unfold tamga_ge_neg, tamga_fe_copy. cbn [ge_x ge_y ge_z ge_t].
  split_and!; [done| |done|done|]; (eapply fe_rep_to; [apply fe_neg_rep; eassumption|ring]).
Qed.

(** The unified formulas compute the affine law, whatever the operands. *)
Lemma ge_add_rep P Q g h : curve P -> curve Q -> ge_rep P g -> ge_rep Q h -> ge_rep (padd P Q) (tamga_ge_add g h).
Proof.
  destruct P as [x1 y1], Q as [x2 y2]. intros C1 C2 (Z1 & HZ1 & X1 & Y1 & W1 & T1) (Z2 & HZ2 & X2 & Y2 & W2 & T2).
  destruct (point_complete x1 y1 x2 y2 C1 C2) as [HA HB]. cbn [ed_add ge_rep].
  set (e := (d25519 * x1 * x2 * y1 * y2)%Zmod) in *. set (c := ((1 + 1) * (Z1 * Z2))%Zmod).
  assert (c <> 0)%Zmod as Hc by (apply (mul_nonzero p25519_prime); [apply two_nonzero|by apply (mul_nonzero p25519_prime)]).
  exists (c * (1 - e) * (c * (1 + e)))%Zmod.
  split; [apply (mul_nonzero p25519_prime); apply (mul_nonzero p25519_prime); assumption|].
  assert (fe_rep (c * (x1 * y2 + x2 * y1)) (tamga_fe_sub (tamga_fe_mul (tamga_fe_add (ge_y g) (ge_x g)) (tamga_fe_add (ge_y h) (ge_x h)))
    (tamga_fe_mul (tamga_fe_sub (ge_y g) (ge_x g)) (tamga_fe_sub (ge_y h) (ge_x h)))))%Zmod as HE.
  { eapply fe_rep_to; [eauto 10 with fe|]. unfold c. ring. }
  assert (fe_rep (c * (y1 * y2 + x1 * x2)) (tamga_fe_add (tamga_fe_mul (tamga_fe_add (ge_y g) (ge_x g)) (tamga_fe_add (ge_y h) (ge_x h)))
    (tamga_fe_mul (tamga_fe_sub (ge_y g) (ge_x g)) (tamga_fe_sub (ge_y h) (ge_x h)))))%Zmod as HH.
  { eapply fe_rep_to; [eauto 10 with fe|]. unfold c. ring. }
  assert (fe_rep c (tamga_fe_add (tamga_fe_mul (ge_z g) (ge_z h)) (tamga_fe_mul (ge_z g) (ge_z h)))) as HD.
  { eapply fe_rep_to; [eauto 10 with fe|]. unfold c. ring. }
  assert (fe_rep (c * e)%Zmod (tamga_fe_mul (tamga_fe_mul (ge_t g) (ge_t h)) (tamga_fe_add tamga_fe_d tamga_fe_d))) as HC.
  { eapply fe_rep_to; [eauto 10 with fe|]. unfold c, e. ring. }
  unfold tamga_ge_add. cbv zeta. cbn [ge_x ge_y ge_z ge_t]. clearbody c e.
  split_and!; (eapply fe_rep_to; [eauto with fe|]); first [ring | field; repeat split; assumption].
Qed.

(** ** Scalars *)

Definition L25519 : Z := 2 ^ 252 + 27742317777372353535851937790883648493.

Lemma sc_l_value : bytes_ok TAMGA_SC_L /\ le_value TAMGA_SC_L = L25519.
Proof. split; [by apply bytes_ok_check|vm_compute; reflexivity]. Qed.

Lemma le_value_take s i : (i < length s)%nat -> le_value (take (S i) s) = le_value (take i s) + 2 ^ (8 * Z.of_nat i) * nth i s 0.
Proof.
  intros Hi. rewrite take_S_nth, le_value_app, length_take, Nat.min_l by lia. cbn [le_value]. lia.
Qed.

Lemma canonical_loop_spec s i :
  bytes_ok s -> length s = 32%nat -> (i <= 32)%nat -> canonical_loop s i = (le_value (take i s) <? le_value (take i TAMGA_SC_L)).
Proof.
  intros Hs Hl. destruct sc_l_value as [HL _]. induction i as [|i IH]; intros Hi; [done|]. cbn [canonical_loop].
  rewrite !le_value_take by (rewrite ?Hl; cbn [length TAMGA_SC_L]; lia).
  pose proof (le_value_bound _ (Forall_take _ i _ Hs)) as B1. pose proof (le_value_bound _ (Forall_take _ i _ HL)) as B2.
  rewrite length_take, Nat.min_l in B1, B2 by (rewrite ?Hl; cbn [length TAMGA_SC_L]; lia). specialize (IH ltac:(lia)).
  set (P := 2 ^ (8 * Z.of_nat i)) in *. set (a := nth i s 0). set (b := nth i TAMGA_SC_L 0).
  set (va := le_value (take i s)) in *. set (vb := le_value (take i TAMGA_SC_L)) in *.
  destruct (Z.ltb_spec a b); [symmetry; apply Z.ltb_lt; nia|]. rewrite Z.gtb_ltb. destruct (Z.ltb_spec b a); [symmetry; apply Z.ltb_ge; nia|].
  assert (a = b) as -> by lia. rewrite IH. destruct (Z.ltb_spec va vb); symmetry; [apply Z.ltb_lt|apply Z.ltb_ge]; lia.
Qed.

(** A scalar is canonical when it is below the group order. *)
Lemma sc_is_canonical_spec s : bytes_ok s -> length s = 32%nat -> tamga_sc_is_canonical s = (le_value s <? L25519).
Proof.
  intros Hs Hl. unfold tamga_sc_is_canonical. rewrite canonical_loop_spec by (done || lia). rewrite !take_ge by (rewrite ?Hl; cbn [length TAMGA_SC_L]; lia).
  by rewrite (proj2 sc_l_value).
Qed.

Lemma shift_in_double v c : shift_in v c = (double_loop v c).1.
Proof.
  revert c. induction v as [|x v IH]; intros c; [done|]. cbn [shift_in double_loop]. rewrite IH.
  by destruct (double_loop v (Z.shiftr x 31)).
Qed.

Lemma load_l_value : limbs8 tamga_sc_load_l /\ eval tamga_sc_load_l = L25519.
Proof. destruct (load_le_spec TAMGA_SC_L) as [H1 H2]; [apply sc_l_value|done|]. by rewrite (proj2 sc_l_value) in H2. Qed.

Lemma reduce_step_spec r c :
  limbs8 r -> eval r < L25519 -> 0 <= c <= 1 ->
  limbs8 (reduce_step tamga_sc_load_l r c) /\ eval (reduce_step tamga_sc_load_l r c) = (2 * eval r + c) mod L25519.
Proof.
  intros Hr Hlt Hc. unfold reduce_step. rewrite shift_in_double. destruct (double_loop r c) as [s out] eqn:E. cbn [fst].
  pose proof (limbs8_bound r Hr) as Br. destruct Hr as [Hr Lr]. apply double_loop_spec in E as (D1 & D2 & D3 & D4); [|done|done].
  rewrite Lr in *. rewrite W_8 in D4. pose proof (limbs8_bound s (conj D1 D2)) as Bs. assert (out = 0) as -> by (unfold L25519 in *; lia).
  destruct load_l_value as [[L1 L2] L3]. destruct (sub_loop s tamga_sc_load_l 0) as [t borrow] eqn:E.
  apply sub_loop_spec in E as (S1 & S2 & S3 & S4); [|done|done|congruence|lia]. rewrite D2, L3 in *. rewrite W_8 in S4.
  pose proof (limbs8_bound t (conj S1 S2)) as Bt. unfold L25519 in *. destruct (Z.eqb_spec borrow 0) as [->|Eb].
  - split; [done|]. rewrite <- (Z_mod_plus_full _ (-1)). rewrite Z.mod_small; lia.
  - split; [done|]. rewrite Z.mod_small; lia.
Qed.

Lemma reduce512_loop_spec s k r :
  bytes_ok s -> limbs8 r -> eval r = le_value s / 2 ^ Z.of_nat k mod L25519 ->
  limbs8 (reduce512_loop s tamga_sc_load_l k r) /\ eval (reduce512_loop s tamga_sc_load_l k r) = le_value s mod L25519.
Proof.
  intros Hs. revert r. induction k as [|k IH]; intros r Hr E; cbn [reduce512_loop].
  - split; [done|]. change (2 ^ Z.of_nat 0) with 1 in E. by rewrite Z.div_1_r in E.
  - destruct (le_bit_step s k Hs) as [Eb Hbit].
    assert (eval r < L25519) as Hlt by (rewrite E; apply Z.mod_pos_bound; done).
    destruct (reduce_step_spec r (le_bit s k) Hr Hlt ltac:(lia)) as [R1 R2]. apply IH; [done|].
    rewrite R2, E, Eb, <- Zplus_mod_idemp_l, Zmult_mod_idemp_r, Zplus_mod_idemp_l. done.
Qed.

Lemma sc_reduce512_spec s : bytes_ok s -> length s = 64%nat -> tamga_sc_reduce512 s = le_bytes 32 (le_value s mod L25519).
Proof.
  intros Hs Hl. unfold tamga_sc_reduce512. destruct (reduce512_loop_spec s 512 (replicate 8 0)) as [[R1 R2] R3]; [done| | |].
  - split; [apply limbs_replicate|done].
  - rewrite eval_replicate, Z.div_small; [done|]. pose proof (le_value_bound _ Hs) as B. rewrite Hl in B. exact B.
  - by rewrite store_le_spec, R2, R3.
Qed.

(** ** Multiples *)

Lemma scalarmul_loop_rep s P g k acc :
  bytes_ok s -> curve P -> ge_rep P g -> ge_rep (pmul (le_value s / 2 ^ Z.of_nat k) P) acc ->
  ge_rep (pmul (le_value s) P) (scalarmul_loop s g k acc).
Proof.
  intros Hs C Hg. pose proof (le_value_bound _ Hs) as B. revert acc. induction k as [|k IH]; intros acc Ha; cbn [scalarmul_loop].
  - change (2 ^ Z.of_nat 0) with 1 in Ha. by rewrite Z.div_1_r in Ha.
  - apply IH. destruct (le_bit_step s k Hs) as [-> Hbit]. set (n := le_value s / 2 ^ Z.of_nat (S k)) in *.
    assert (0 <= n) as Hn by (apply Z.div_pos; [lia|apply Z.pow_pos_nonneg; lia]). unfold tamga_ge_double.
    pose proof (pmul_curve n P C) as Cn. pose proof (ge_add_rep _ _ _ _ Cn Cn Ha Ha) as H2.
    destruct Hbit as [-> | ->]; cbn [Z.eqb negb].
    + rewrite Z.add_0_r, (ed_mul_double p25519_prime d25519 sqrtm1_25519 sqrtm1_square d25519_nonsquare two_nonzero) by done. exact H2.
    + rewrite (ed_mul_double_add p25519_prime d25519 sqrtm1_25519 sqrtm1_square d25519_nonsquare two_nonzero) by done.
      apply ge_add_rep; [by apply padd_curve|exact C|exact H2|exact Hg].
Qed.

Lemma ge_scalarmul_rep s P g :
  bytes_ok s -> length s = 32%nat -> curve P -> ge_rep P g -> ge_rep (pmul (le_value s) P) (tamga_ge_scalarmul g s).
Proof.
  intros Hs Hl C Hg. unfold tamga_ge_scalarmul. set (r := scalarmul_loop s g 256 tamga_ge_identity).
  assert (ge_rep (pmul (le_value s) P) r) as H.
  { apply scalarmul_loop_rep; [done..|]. rewrite Z.div_small; [apply ge_identity_rep|].
    pose proof (le_value_bound _ Hs) as B. rewrite Hl in B. exact B. }
  clearbody r. by destruct r.
Qed.

(** ** Encoding *)

(** RFC 8032, section 5.1.2: 255 bits of [y], then the parity of [x]. *)
Definition ed_encode (P : point) : bytes :=
  let '(x, y) := P in le_bytes 32 (y + 2 ^ 255 * ((x : Z) mod 2)).

(** The point an encoding stands for; [y] may be given unreduced. *)
Definition ed_decodes (s : bytes) (P : point) : Prop :=
  let '(x, y) := P in
  curve (x, y) /\ y = Zmod.of_Z _ (le_value s mod 2 ^ 255) /\ (x : Z) mod 2 = le_value s / 2 ^ 255.

Lemma le_value_insert l k v : (k < length l)%nat -> le_value (<[k:=v]> l) = le_value l + 2 ^ (8 * Z.of_nat k) * (v - nth k l 0).
Proof.
  revert k. induction l as [|x l IH]; intros k Hk; [simpl in Hk; lia|]. destruct k as [|k]; cbn [insert list_insert le_value nth].
  - change (2 ^ (8 * Z.of_nat 0)) with 1. lia.
  - simpl in Hk. change (list_insert k v l) with (<[k:=v]> l). rewrite IH, pow_8_S by lia. lia.
Qed.

Lemma le_value_nth s k : bytes_ok s -> nth k s 0 = le_value s / 2 ^ (8 * Z.of_nat k) mod 2 ^ 8.
Proof.
  intros Hs. revert k. induction Hs as [|b s Hb Hs IH]; intros k; cbn [le_value].
  - rewrite Z.div_0_l by (pose proof (pow_8_pos k); lia). by destruct k.
  - unfold is_byte in Hb. destruct k as [|k]; cbn [nth].
    + change (2 ^ (8 * Z.of_nat 0)) with 1. zdm.
    + rewrite IH, pow_8_S, (Z.mul_comm (2 ^ (8 * Z.of_nat k))), <- Z.div_div by (pose proof (pow_8_pos k); lia). do 2 f_equal. zdm.
Qed.

Lemma parity_cases z : z mod 2 = if Z.odd z then 1 else 0.
Proof. apply Zmod_odd. Qed.

Lemma ge_compress_spec P g : ge_rep P g -> tamga_ge_compress g = ed_encode P.
Proof.
  destruct P as [x y]. intros (Zc & HZ & Hx & Hy & Hz & Ht). unfold tamga_ge_compress. cbv zeta.
  pose proof (fe_invert_pow _ _ Hz) as Hi. rewrite (Zmod.fermat_inv Zc HZ p25519_prime) in Hi.
  set (zi := tamga_fe_invert (ge_z g)) in *. clearbody zi.
  assert (fe_rep x (tamga_fe_mul (ge_x g) zi)) as Hxx by (eapply fe_rep_to; [apply fe_mul_rep; eassumption|field; assumption]).
  assert (fe_rep y (tamga_fe_mul (ge_y g) zi)) as Hyy by (eapply fe_rep_to; [apply fe_mul_rep; eassumption|field; assumption]).
  rewrite (fe_to_bytes_spec _ _ Hyy), (fe_is_negative_spec _ _ Hxx). cbn [ed_encode].
  pose proof (Zmod.unsigned_pos_bound y p25519_pos) as By. assert (p25519 < 2 ^ 255) as Hp by done. set (l := le_bytes 32 y).
  assert (length l = 32%nat) as Hl by apply le_bytes_length. assert (bytes_ok l) as Hb by apply le_bytes_ok.
  assert (le_value l = y) as Hv by (unfold l; rewrite le_value_bytes, Z.mod_small; [done|]; change (8 * Z.of_nat 32) with 256; lia).
  assert (u8 (Z.lor (nth 31 l 0) (if Z.odd x then 128 else 0)) = nth 31 l 0 + 128 * ((x : Z) mod 2) /\
          0 <= nth 31 l 0 < 128) as [Hu Hn].
  { assert (0 <= nth 31 l 0 < 128) as Hn by (rewrite le_value_nth, Hv by done; change (8 * Z.of_nat 31) with 248; zdm).
    split; [|done]. rewrite parity_cases. unfold u8. destruct (Z.odd x).
    - rewrite (lor_disjoint_add _ 1 7) by lia. rewrite Z.mod_small; lia.
    - rewrite Z.lor_0_r, Z.mod_small; lia. }
  rewrite Hu. apply le_value_inj; [|apply le_bytes_ok|by rewrite length_insert, le_bytes_length|].
  - apply Forall_insert; [done|]. unfold is_byte. rewrite parity_cases. destruct (Z.odd x); lia.
  - rewrite le_value_insert, Hv, le_value_bytes by lia. change (8 * Z.of_nat 31) with 248. change (8 * Z.of_nat 32) with 256.
    rewrite parity_cases. destruct (Z.odd x); rewrite Z.mod_small; lia.
Qed.

(** ** Decoding *)

(** [v x^2 = u] on the curve, and [v] never vanishes. *)
Lemma curve_ratio x y : curve (x, y) <-> ((d25519 * (y * y) + 1) * (x * x) = y * y - 1)%Zmod.
Proof.
  cbn [on_curve]. split; intros H.
  - transitivity ((1 + d25519 * (x * x) * (y * y)) + x * x - 1)%Zmod; [ring|]. rewrite <- H. ring.
  - transitivity ((y * y - 1) + 1 - x * x)%Zmod; [ring|]. rewrite <- H. ring.
Qed.

Lemma denominator_nonzero y : (d25519 * (y * y) + 1)%Zmod <> 0%Zmod.
Proof.
  intros E. destruct (Zmod.eqb_spec y 0%Zmod) as [->|Hy].
  - apply (Zmod.one_neq_zero (m := p25519)); [vm_compute; congruence|]. rewrite <- E. ring.
  - apply (d25519_nonsquare (Zmod.mdiv sqrtm1_25519 y)).
    transitivity (Zmod.mdiv (sqrtm1_25519 * sqrtm1_25519) (y * y))%Zmod; [field; assumption|]. rewrite sqrtm1_square.
    transitivity (Zmod.mdiv (d25519 * (y * y) - (d25519 * (y * y) + 1)) (y * y))%Zmod; [f_equal; ring|]. rewrite E. field. assumption.
Qed.

(** The candidate root of [u / v]. *)
Definition root_candidate (u v : F25519) : F25519 := (((v * v * v) * (v * v * v) * v * u) ^ ((p25519 - 5) / 8) * (v * v * v) * u)%Zmod.

Lemma candidate_square u v :
  (root_candidate u v * root_candidate u v * v = u * (v * v * v * (v * v * v) * v * u) ^ ((p25519 - 1) / 4))%Zmod.
Proof.
  unfold root_candidate. set (w := (v * v * v * (v * v * v) * v * u)%Zmod).
  replace ((p25519 - 1) / 4) with ((p25519 - 5) / 8 + (p25519 - 5) / 8 + 1) by (vm_compute; reflexivity).
  rewrite !Zmod.pow_add_r_nonneg, Zmod.pow_1_r by (vm_compute; congruence). set (t := (w ^ ((p25519 - 5) / 8))%Zmod). unfold w. ring.
Qed.

(** When [u / v] has a root, the candidate is one up to a factor sqrt(-1). *)
Lemma candidate_complete u v x :
  v <> 0%Zmod -> (v * (x * x) = u)%Zmod ->
  let c := (root_candidate u v * root_candidate u v * v)%Zmod in c = u \/ c = (- u)%Zmod.
Proof.
  intros Hv Hx c. subst c. rewrite candidate_square. set (w := (v * v * v * (v * v * v) * v * u)%Zmod).
  destruct (Zmod.eqb_spec x 0%Zmod) as [->|Hnz]; [left; rewrite <- Hx; ring|].
  set (r := (v * v * v * v * x)%Zmod). assert (w = r * r)%Zmod as Hw by (unfold w, r; rewrite <- Hx; ring).
  assert (r <> 0%Zmod) as Hr by (unfold r; repeat apply (mul_nonzero p25519_prime); assumption).
  assert ((w ^ ((p25519 - 1) / 4)) * (w ^ ((p25519 - 1) / 4)) = 1)%Zmod as Hs.
  { rewrite Hw, <- (Zmod.pow_2_r r), <- Zmod.pow_mul_r_nonneg, <- Zmod.pow_add_r_nonneg by (vm_compute; congruence).
    replace (2 * ((p25519 - 1) / 4) + 2 * ((p25519 - 1) / 4)) with (Z.pred p25519) by (vm_compute; reflexivity).
    by apply Zmod.fermat_nz, p25519_prime. }
  rewrite <- Zmod.pow_2_r in Hs. apply (Zmod.square_roots_1_prime p25519_prime) in Hs as [-> | ->]; [left|right]; ring.
Qed.

(** Negation changes the parity. *)
Lemma opp_parity (x : F25519) : x <> 0%Zmod -> Z.odd (- x)%Zmod = negb (Z.odd x).
Proof.
  intros Hx. apply Zmod.unsigned_nz in Hx. pose proof (Zmod.unsigned_pos_bound x p25519_pos) as B.
  assert (((- x)%Zmod : Z) = p25519 - x) as ->.
  { rewrite Zmod.unsigned_opp, <- (Z_mod_plus_full _ 1), Z.mod_small; lia. }
  rewrite Z.odd_sub. by destruct (Z.odd x).
Qed.

Lemma ed_decodes_unique s P Q : ed_decodes s P -> ed_decodes s Q -> P = Q.
Proof.
  destruct P as [x y], Q as [x' y']. intros (C & -> & Hp) (C' & -> & Hp'). f_equal. set (y := Zmod.of_Z _ _) in *.
  apply (proj1 (curve_ratio _ _)) in C. apply (proj1 (curve_ratio _ _)) in C'. rewrite <- C' in C. apply (Zmod.mul_cancel_l_prime _ _ _ p25519_prime (denominator_nonzero y)) in C.
  rewrite <- !Zmod.pow_2_r in C. apply (Zmod.square_roots_opp_prime p25519_prime) in C as [->| ->]; [done|].
  rewrite <- Hp', !parity_cases in Hp. destruct (Zmod.eqb_spec x' 0%Zmod) as [->|Hx]; [ring|].
  rewrite opp_parity in Hp by assumption. destruct (Z.odd x'); discriminate Hp.
Qed.

Lemma sign_bit s :
  bytes_ok s -> length s = 32%nat -> Z.land (Z.shiftr (nth 31 s 0) 7) 1 = le_value s / 2 ^ 255 /\ 0 <= le_value s / 2 ^ 255 <= 1.
Proof.
  intros Hs Hl. pose proof (le_value_bound _ Hs) as B. rewrite Hl in B. change (8 * Z.of_nat 32) with 256 in B.
  rewrite (land_mask _ 1), Z.shiftr_div_pow2, le_value_nth by (done || lia). change (8 * Z.of_nat 31) with 248. zdm.
Qed.

(** The end of the decompression, on a root. *)
Lemma decompress_sign_spec s x a Y :
  bytes_ok s -> length s = 32%nat -> fe_rep x a ->
  let y := Zmod.of_Z p25519 (le_value s mod 2 ^ 255) in
  fe_rep y Y -> ((d25519 * (y * y) + 1) * (x * x) = y * y - 1)%Zmod ->
  match decompress_sign (Z.land (Z.shiftr (nth 31 s 0) 7) 1) a Y with
  | Some g => exists P, ed_decodes s P /\ ge_rep P g
  | None => forall P, ~ ed_decodes s P
  end.
Proof.
  intros Hs Hl Ha y HY Hroot. destruct (sign_bit s Hs Hl) as [Es Bs]. unfold decompress_sign. rewrite Es. set (sign := le_value s / 2 ^ 255) in *.
  rewrite (fe_is_zero_spec _ _ Ha), (fe_is_negative_spec _ _ Ha). pose proof (proj2 (curve_ratio x y) Hroot) as C.
  assert (forall x' A, ed_decodes s (x', y) -> fe_rep x' A ->
    exists P, ed_decodes s P /\ ge_rep P (mk_ge (tamga_fe_copy A) Y tamga_fe_one (tamga_fe_mul A Y))) as Hfin.
  { intros x' A HD HA. exists (x', y). split; [exact HD|]. exists 1%Zmod. split; [apply Zmod.one_neq_zero; vm_compute; congruence|].
    unfold tamga_fe_copy. cbn [ge_x ge_y ge_z ge_t]. rewrite !Zmod.mul_1_r. split_and!; auto with fe. }
  destruct (Zmod.eqb_spec x 0%Zmod) as [E0|Hx]; cbn [andb].
  - destruct (Z.eqb_spec sign 0) as [Ez|Ez]; cbn [negb].
    + subst x. rewrite Zmod.unsigned_0. apply (Hfin 0%Zmod); [|done]. split_and!; [done|done|]. fold sign. by rewrite Ez.
    + intros [x' y'] (C' & -> & Hp'). fold y in C'. fold sign in Hp'. apply (proj1 (curve_ratio _ _)) in C'. rewrite <- C', E0 in Hroot.
      assert ((d25519 * (y * y) + 1) * (x' * x') = 0)%Zmod as Hz by (rewrite <- Hroot; ring).
      apply Zmod.mul_0_iff_prime in Hz as [Hz|Hz]; [by apply denominator_nonzero in Hz| |exact p25519_prime].
      apply Zmod.mul_0_iff_prime in Hz as [Hz|Hz]; [..|exact p25519_prime]; rewrite Hz, Zmod.unsigned_0, Z.mod_0_l in Hp' by lia; congruence.
  - destruct (eqb (Z.odd x) (negb (sign =? 0))) eqn:Ep; cbn [negb].
    + apply (Hfin x); [|done]. split_and!; [done|done|]. fold sign. rewrite parity_cases. apply eqb_prop in Ep. rewrite Ep.
      destruct (Z.eqb_spec sign 0); cbn [negb]; lia.
    + apply (Hfin (- x)%Zmod); [|by apply fe_neg_rep]. split_and!; [|done|].
      * apply (proj2 (curve_ratio _ _)). rewrite <- Hroot. ring.
      * fold sign. rewrite parity_cases, opp_parity by assumption. destruct (Z.odd x), (Z.eqb_spec sign 0); cbn [negb eqb] in *; lia || done.
Qed.

(** Decompression finds the point an encoding stands for, if there is one. *)
Lemma ge_decompress_spec s :
  bytes_ok s -> length s = 32%nat ->
  match tamga_ge_decompress s with
  | Some g => exists P, ed_decodes s P /\ ge_rep P g
  | None => forall P, ~ ed_decodes s P
  end.
Proof.
  intros Hs Hl. unfold tamga_ge_decompress. cbv zeta. pose proof (fe_from_bytes_rep s Hs Hl) as Hy.
  set (y := Zmod.of_Z p25519 (le_value s mod 2 ^ 255)) in *. set (Y := tamga_fe_from_bytes s) in *. clearbody Y.
  set (u := (y * y - 1)%Zmod). assert (fe_rep u (tamga_fe_sub (tamga_fe_sq Y) tamga_fe_one)) as Hu by (unfold u; auto with fe).
  set (U := tamga_fe_sub _ tamga_fe_one) in *. set (v := (y * y * d25519 + 1)%Zmod).
  assert (fe_rep v (tamga_fe_add (tamga_fe_mul (tamga_fe_sq Y) tamga_fe_d) tamga_fe_one)) as Hv by (unfold v; auto with fe).
  set (V := tamga_fe_add _ tamga_fe_one) in *. clearbody U V.
  assert (v = d25519 * (y * y) + 1)%Zmod as Ev by (unfold v; ring). assert (v <> 0%Zmod) as Hv0 by (rewrite Ev; apply denominator_nonzero).
  set (V3 := tamga_fe_mul (tamga_fe_sq V) V). assert (fe_rep (v * v * v)%Zmod V3) as Hv3 by (unfold V3; auto with fe). clearbody V3.
  set (X := tamga_fe_mul (tamga_fe_mul (tamga_fe_pow_p58 _) V3) U).
  assert (fe_rep (root_candidate u v) X) as HX by (unfold root_candidate, X; auto 10 with fe). clearbody X.
  set (c := root_candidate u v) in *.
  assert (fe_rep (c * c * v)%Zmod (tamga_fe_mul (tamga_fe_sq X) V)) as Hvxx by auto with fe. set (VXX := tamga_fe_mul (tamga_fe_sq X) V) in *. clearbody VXX.
  rewrite (fe_is_zero_spec _ _ (fe_sub_rep _ _ _ _ Hvxx Hu)), (fe_is_zero_spec _ _ (fe_add_rep _ _ _ _ Hvxx Hu)).
  assert (forall x a, fe_rep x a -> (v * (x * x) = u)%Zmod ->
    match decompress_sign (Z.land (Z.shiftr (nth 31 s 0) 7) 1) a Y with
    | Some g => exists P, ed_decodes s P /\ ge_rep P g
    | None => forall P, ~ ed_decodes s P
    end) as Hfin.
  { intros x a Ha Hr. rewrite Ev in Hr. by apply (decompress_sign_spec s x a Y). }
  destruct (Zmod.eqb_spec (c * c * v - u)%Zmod 0%Zmod) as [E1|E1]; cbn [negb].
  { apply (Hfin c X HX). transitivity (c * c * v - u + u)%Zmod; [ring|]. rewrite E1. ring. }
  destruct (Zmod.eqb_spec (c * c * v + u)%Zmod 0%Zmod) as [E2|E2]; cbn [negb].
  { apply (Hfin (c * sqrtm1_25519)%Zmod); [auto with fe|]. transitivity ((c * c * v) * (sqrtm1_25519 * sqrtm1_25519))%Zmod; [ring|].
    rewrite sqrtm1_square. transitivity (u - (c * c * v + u))%Zmod; [ring|]. rewrite E2. ring. }
  intros [x y'] (C & -> & _). fold y in C. apply (proj1 (curve_ratio _ _)) in C. rewrite <- Ev in C.
  destruct (candidate_complete u v x Hv0 C) as [E|E]; fold c in E; [apply E1|apply E2]; rewrite E; unfold u; ring.
Qed.

(** ** Verification *)

(** The base point, with y = 4/5 and an even x. *)
Definition ed_base : point :=
  (Zmod.of_Z _ 15112221349535400772501151409588531511454012693041857206046113283949847762202,
   Zmod.of_Z _ 46316835694926478169428394003475163141307993866256225615783033603165251855960).

Lemma base_decodes : ed_decodes TAMGA_GE_BASE ed_base.
Proof. split_and!; [|apply Zmod.unsigned_inj; vm_compute; reflexivity|vm_compute; reflexivity]. apply Zmod.unsigned_inj. vm_compute. reflexivity. Qed.

Lemma base_four_fifths : (ed_base.2 * Zmod.of_Z _ 5 = Zmod.of_Z _ 4)%Zmod.
Proof. apply Zmod.unsigned_inj. vm_compute. reflexivity. Qed.

Lemma base_decompress : exists g, tamga_ge_decompress TAMGA_GE_BASE = Some g /\ ge_rep ed_base g.
Proof.
  pose proof (ge_decompress_spec TAMGA_GE_BASE ltac:(by apply bytes_ok_check) eq_refl) as H.
  destruct (tamga_ge_decompress TAMGA_GE_BASE) as [g|]; [|by destruct (H _ base_decodes)].
  destruct H as (P & HP & Hg). rewrite (ed_decodes_unique _ _ _ HP base_decodes) in Hg. eauto.
Qed.

(** [k]: the hash of R, the key and the message, modulo the group order. *)
Definition ed_challenge (R public_key message : bytes) : Z := le_value (sha512_spec (R ++ public_key ++ message)) mod L25519.

(** The cofactorless equation of RFC 8032, section 5.1.7: the key is a point A,
    the first half of the signature is the encoding of a point R, the second
    half is a canonical scalar S, and [S]B = R + [k]A. *)
Definition ed25519_valid (public_key message signature : bytes) : Prop :=
  exists A R : point,
    ed_decodes public_key A /\ curve R /\ take 32 signature = ed_encode R /\ le_value (drop 32 signature) < L25519 /\
    pmul (le_value (drop 32 signature)) ed_base = padd R (pmul (ed_challenge (take 32 signature) public_key message) A).

Lemma sha512_final_bytes ctx : length (tamga_sha512_final ctx) = 64%nat /\ bytes_ok (tamga_sha512_final ctx).
Proof.
  unfold tamga_sha512_final, sha_final. destruct (if (_ <? _)%nat then _ else _) as [[st b] n].
  destruct (tamga_sha512_compress _ _) as [a b1 c d e f g h].
  split; [cbn [concat map]; rewrite !length_app, !be_bytes_length; done|].
  cbn [concat map]. repeat (apply Forall_app; split; [apply be_bytes_ok|]). constructor.
Qed.

(** The encoding is injective on the curve. *)
Lemma ed_encode_decodes P : curve P -> ed_decodes (ed_encode P) P.
Proof.
  destruct P as [x y]. intros C. pose proof (Zmod.unsigned_pos_bound y p25519_pos) as By. assert (p25519 < 2 ^ 255) as Hp by done.
  pose proof (Z.mod_pos_bound x 2 ltac:(lia)) as Bx. unfold ed_decodes, ed_encode. rewrite le_value_bytes. change (8 * Z.of_nat 32) with 256.
  rewrite (Z.mod_small (_ + _)) by lia. set (b := (x : Z) mod 2) in *. split_and!; [done| |].
  - rewrite (Z.mul_comm (2 ^ 255)), Z_mod_plus_full, Z.mod_small by lia. symmetry. apply Zmod.of_Z_unsigned.
  - rewrite (Z.mul_comm (2 ^ 255)), Z.div_add, Z.div_small; lia.
Qed.

Lemma ed_encode_inj P Q : curve P -> curve Q -> ed_encode P = ed_encode Q -> P = Q.
Proof. intros CP CQ E. apply (ed_decodes_unique (ed_encode P)); [by apply ed_encode_decodes|]. rewrite E. by apply ed_encode_decodes. Qed.

Lemma ed_encode_length P : length (ed_encode P) = 32%nat /\ bytes_ok (ed_encode P).
Proof. destruct P. split; [apply le_bytes_length|apply le_bytes_ok]. Qed.

Lemma ed_decodes_curve s P : ed_decodes s P -> curve P.
Proof. destruct P. by intros (? & _). Qed.

(** The equation the code evaluates: the recomputed R is the encoding of
    [S]B - [k]A. *)
Lemma ed25519_equation_spec base a A public_key message signature :
  bytes_ok public_key -> bytes_ok signature -> length signature = 64%nat -> zlen public_key + zlen (chunk message) < 2 ^ 60 ->
  curve A -> ge_rep A a -> ge_rep ed_base base ->
  let S := le_value (drop 32 signature) in
  let k := ed_challenge (take 32 signature) public_key (chunk message) in
  ed25519_equation base a public_key message signature = true <->
  take 32 signature = ed_encode (padd (pmul S ed_base) (ed_neg (pmul k A))).
Proof.
  intros Hpk Hsig Hl Hlen CA Ha Hb S k. unfold ed25519_equation. cbv zeta.
  set (R := take 32 signature) in *. assert (length R = 32%nat) as HlR by (unfold R; rewrite length_take; lia).
  set (h := tamga_sha512_final _). destruct (sha512_final_bytes _ : length h = 64%nat /\ bytes_ok h) as [Hh1 Hh2].
  assert (h = sha512_spec (R ++ public_key ++ chunk message)) as Eh.
  { unfold h. pose proof (sha512_final_spec [Some R; Some public_key; message]) as E. cbn [fold_left map concat] in E.
    change (chunk (Some R)) with R in E. change (chunk (Some public_key)) with public_key in E.
    rewrite app_nil_r in E. apply E. rewrite !length_app. lia. }
  clearbody h. rewrite sc_reduce512_spec by done.
  set (kb := le_bytes 32 (le_value h mod L25519)). assert (le_value kb = k) as Ek.
  { unfold kb, k, ed_challenge. rewrite Eh, le_value_bytes, Z.mod_small; [done|].
    pose proof (Z.mod_pos_bound (le_value (sha512_spec (R ++ public_key ++ chunk message))) L25519 ltac:(done)). unfold L25519 in *. lia. }
  assert (bytes_ok (drop 32 signature)) as HS by (by apply Forall_drop).
  pose proof (ed_decodes_curve _ _ base_decodes) as CB. pose proof (pneg_curve A CA) as CA'.
  pose proof (ge_scalarmul_rep (drop 32 signature) ed_base base HS ltac:(rewrite length_drop; lia) CB Hb) as HSB. fold S in HSB.
  pose proof (ge_scalarmul_rep kb (ed_neg A) (tamga_ge_neg a) (le_bytes_ok _ _) (le_bytes_length _ _) CA' (ge_neg_rep _ _ Ha)) as HkA.
  rewrite Ek, (ed_neg_mul p25519_prime d25519 sqrtm1_25519 sqrtm1_square d25519_nonsquare two_nonzero) in HkA by done.
  pose proof (ge_add_rep _ _ _ _ (pmul_curve S _ CB) (pneg_curve _ (pmul_curve k _ CA)) HSB HkA) as Hadd.
  rewrite (ge_compress_spec _ _ Hadd). unfold same_bytes. destruct (ed_encode_length (padd (pmul S ed_base) (ed_neg (pmul k A)))) as [E1 E2].
  rewrite xor_zip_zero; [|by apply bytes_nonneg|apply bytes_nonneg, Forall_take, Hsig|by rewrite E1, HlR].
  rewrite bool_decide_eq_true. split; congruence.
Qed.

Lemma ed25519_verify_iff public_key message signature :
  bytes_ok public_key -> length public_key = 32%nat -> bytes_ok signature -> length signature = 64%nat -> zlen (chunk message) < 2 ^ 59 ->
  tamga_ed25519_verify (Some public_key) message (zlen (chunk message)) (Some signature) = true <->
  ed25519_valid public_key (chunk message) signature.
Proof.
  intros Hpk Hlp Hsig Hls Hlm. unfold tamga_ed25519_verify, ed25519_valid.
  assert ((match message with Some _ => false | None => zlen (chunk message) >? 0 end) = false) as -> by (by destruct message).
  rewrite sc_is_canonical_spec by (by apply Forall_drop || (rewrite length_drop; lia)).
  destruct (Z.ltb_spec (le_value (drop 32 signature)) L25519) as [HS|HS]; cbn [negb]; [|split; [done|]; intros (A & R & _ & _ & _ & HS' & _); lia].
  pose proof (ge_decompress_spec public_key Hpk Hlp) as HA. destruct (tamga_ge_decompress public_key) as [a|]; [|split; [done|];
    intros (A & R & HA' & _); by destruct (HA A)]. destruct HA as (A & HA & Ha). pose proof (ed_decodes_curve _ _ HA) as CA.
  destruct base_decompress as (base & -> & Hb). rewrite (ed25519_equation_spec base a A) by (done || lia).
  set (S := le_value (drop 32 signature)) in *. set (k := ed_challenge _ _ _). set (T := padd (pmul S ed_base) (ed_neg (pmul k A))).
  pose proof (pmul_curve S _ (ed_decodes_curve _ _ base_decodes)) as CS. pose proof (pmul_curve k A CA) as Ck.
  assert (forall R, curve R -> R = T <-> pmul S ed_base = padd R (pmul k A)) as Hiff.
  { intros R CR. by apply (ed_sub_iff p25519_prime d25519 sqrtm1_25519 sqrtm1_square d25519_nonsquare two_nonzero). }
  assert (curve T) as CT by (apply padd_curve; [exact CS|by apply pneg_curve]). split.
  - intros E. exists A, T. split_and!; [exact HA|exact CT|exact E|exact HS|]. by apply Hiff.
  - intros (A' & R & HA' & CR & E & _ & Heq). rewrite (ed_decodes_unique _ _ _ HA' HA) in Heq.
    rewrite E. f_equal. by apply Hiff.
Qed.

(** (C3) Ed25519 verification is exact. For a 32-byte key, a 64-byte signature
    and a message that is not a null pointer of positive length, the code
    accepts exactly when the key encodes a point A of the curve, the scalar S of
    the signature is below the group order, its first half is the canonical
    encoding of a point R, and [S]B = R + [k]A in the group of the curve, where
    multiples are repeated additions and k is the SHA-512 hash of R, the key and
    the message modulo the group order. *)
Theorem ed25519_verify_exact public_key message signature :
  bytes_ok public_key -> length public_key = 32%nat -> bytes_ok signature -> length signature = 64%nat -> zlen (chunk message) < 2 ^ 59 ->
  tamga_ed25519_verify (Some public_key) message (zlen (chunk message)) (Some signature) = true <->
  ed25519_valid public_key (chunk message) signature.
Proof. exact (ed25519_verify_iff public_key message signature). Qed.

(** The neutral element as key, and a signature made of it and the scalar 0. *)
Definition identity_key : bytes := 1 :: replicate 31 0.
Definition identity_signature : bytes := identity_key ++ replicate 32 0.

Lemma identity_valid message : ed25519_valid identity_key message identity_signature.
Proof.
  assert (ed_decodes identity_key ed_zero) as Hid.
  { split_and!; [|apply Zmod.unsigned_inj; vm_compute; reflexivity|vm_compute; reflexivity]. apply Zmod.unsigned_inj. vm_compute. reflexivity. }
  exists ed_zero, ed_zero. split_and!; [exact Hid|exact (ed_decodes_curve _ _ Hid)|vm_compute; reflexivity|vm_compute; reflexivity|].
  change (le_value (drop 32 identity_signature)) with 0. rewrite ed_mul_0, (ed_mul_zero p25519_prime).
  symmetry. apply (ed_add_0_l p25519_prime).
Qed.

Lemma ed25519_verify_exact_witness :
  tamga_ed25519_verify (Some identity_key) (Some [0x61; 0x62; 0x63]) 3 (Some identity_signature) = true.
Proof.
  apply (ed25519_verify_exact identity_key (Some [0x61; 0x62; 0x63]) identity_signature).
  - apply bytes_ok_check. vm_compute. reflexivity.
  - reflexivity.
  - apply bytes_ok_check. vm_compute. reflexivity.
  - reflexivity.
  - reflexivity.
  - apply identity_valid.
Defined.
