(* ===== verification/P256.v ===== *)
(** * ECDSA over P-256: [src/src/crypto/p256.c]

    Numbers are eight 32-bit limbs, least significant first; a structure is
    passed and returned by value. In every call that passes the same object as
    operand and result the operand is read before it is overwritten. The limb
    loops are those of [Bn] and [Fe25519], of which this file's are copies in
    the C code too. Wiping the work arrays has no effect on the results. *)

From S2P Require Import Prelude Bn Fe25519.
From stdpp Require Import list.
#[local] Open Scope Z_scope.

Definition P256_LIMBS : nat := 8.

Definition P256_P : bytes :=
  [0xff; 0xff; 0xff; 0xff; 0x00; 0x00; 0x00; 0x01; 0x00; 0x00; 0x00; 0x00; 0x00; 0x00; 0x00; 0x00;
   0x00; 0x00; 0x00; 0x00; 0xff; 0xff; 0xff; 0xff; 0xff; 0xff; 0xff; 0xff; 0xff; 0xff; 0xff; 0xff].

Definition P256_N : bytes :=
  [0xff; 0xff; 0xff; 0xff; 0x00; 0x00; 0x00; 0x00; 0xff; 0xff; 0xff; 0xff; 0xff; 0xff; 0xff; 0xff;
   0xbc; 0xe6; 0xfa; 0xad; 0xa7; 0x17; 0x9e; 0x84; 0xf3; 0xb9; 0xca; 0xc2; 0xfc; 0x63; 0x25; 0x51].

Definition P256_B : bytes :=
  [0x5a; 0xc6; 0x35; 0xd8; 0xaa; 0x3a; 0x93; 0xe7; 0xb3; 0xeb; 0xbd; 0x55; 0x76; 0x98; 0x86; 0xbc;
   0x65; 0x1d; 0x06; 0xb0; 0xcc; 0x53; 0xb0; 0xf6; 0x3b; 0xce; 0x3c; 0x3e; 0x27; 0xd2; 0x60; 0x4b].

Definition P256_GX : bytes :=
  [0x6b; 0x17; 0xd1; 0xf2; 0xe1; 0x2c; 0x42; 0x47; 0xf8; 0xbc; 0xe6; 0xe5; 0x63; 0xa4; 0x40; 0xf2;
   0x77; 0x03; 0x7d; 0x81; 0x2d; 0xeb; 0x33; 0xa0; 0xf4; 0xa1; 0x39; 0x45; 0xd8; 0x98; 0xc2; 0x96].

Definition P256_GY : bytes :=
  [0x4f; 0xe3; 0x42; 0xe2; 0xfe; 0x1a; 0x7f; 0x9b; 0x8e; 0xe7; 0xeb; 0x4a; 0x7c; 0x0f; 0x9e; 0x16;
   0x2b; 0xce; 0x33; 0x57; 0x6b; 0x31; 0x5e; 0xce; 0xcb; 0xb6; 0x40; 0x68; 0x37; 0xbf; 0x51; 0xf5].

(** ** Montgomery arithmetic over a 256-bit odd modulus *)

Record P256Mod := mk_mod { md_m : list Z; md_rr : list Z; md_one : list Z; md_n0inv : Z }.

Definition p256_from_be (s : bytes) : list Z :=
  map (fun i =>
    let offset := (28 - i * 4)%nat in
    Z.lor (Z.lor (Z.lor (u32 (Z.shiftl (nth offset s 0) 24)) (u32 (Z.shiftl (nth (offset + 1) s 0) 16)))
                 (u32 (Z.shiftl (nth (offset + 2) s 0) 8)))
          (nth (offset + 3) s 0)) (seq 0 P256_LIMBS).

(** Byte [offset] of the result comes from limb [i = (28 - offset) / 4]. *)
Definition p256_to_be (value : list Z) : bytes :=
  concat (map (fun x => [u8 (Z.shiftr x 24); u8 (Z.shiftr x 16); u8 (Z.shiftr x 8); u8 x]) (rev value)).

Definition p256_cmp (a b : list Z) : Z := cmp_loop a b P256_LIMBS.

Definition p256_is_zero (a : list Z) : bool := fold_left Z.lor a 0 =? 0.

Definition p256_sub_raw (a b : list Z) : list Z * Z :=
  let '(r, borrow) := sub_loop a b 0 in (r, u32 borrow).

Definition p256_add_raw (a b : list Z) : list Z * Z :=
  let '(r, carry) := add_loop a b 0 in (r, u32 carry).

Definition p256_mod_add (ctx : P256Mod) (a b : list Z) : list Z :=
  let '(r, carry) := p256_add_raw a b in
  if negb (carry =? 0) || (p256_cmp r (md_m ctx) >=? 0) then (p256_sub_raw r (md_m ctx)).1 else r.

Definition p256_mod_sub (ctx : P256Mod) (a b : list Z) : list Z :=
  let '(r, borrow) := p256_sub_raw a b in
  if negb (borrow =? 0) then (p256_add_raw r (md_m ctx)).1 else r.

Definition p256_double_mod (m value : list Z) : list Z :=
  let '(value, carry) := double_loop value 0 in
  if negb (carry =? 0) || (p256_cmp value m >=? 0) then (p256_sub_raw value m).1 else value.

Definition p256_n0inv (m0 : Z) : Z := u32 (0 - n0inv_loop 5 m0 1).

Definition p256_mont_mul (ctx : P256Mod) (a b : list Z) : list Z :=
  let '(t, top, _) := fold_left (mont_step a (md_m ctx) (md_n0inv ctx)) b (replicate P256_LIMBS 0, 0, 0) in
  if negb (top =? 0) || (p256_cmp t (md_m ctx) >=? 0) then (p256_sub_raw t (md_m ctx)).1 else t.

Fixpoint p256_double_times (count : nat) (m value : list Z) : list Z :=
  match count with
  | O => value
  | S c => p256_double_times c m (p256_double_mod m value)
  end.

Definition p256_mod_init (modulus_be : bytes) : P256Mod :=
  let m := p256_from_be modulus_be in
  let n0inv := p256_n0inv (nth 0 m 0) in
  let one := (p256_sub_raw (replicate P256_LIMBS 0) m).1 in
  let rr := p256_double_times 256 m one in
  mk_mod m rr one n0inv.

Definition p256_to_mont (ctx : P256Mod) (a : list Z) : list Z := p256_mont_mul ctx a (md_rr ctx).

Definition p256_from_mont (ctx : P256Mod) (a : list Z) : list Z := p256_mont_mul ctx a (1 :: replicate 7 0).

(** A bit of a number held in limbs. *)
Definition limb_bit (k : list Z) (bit : nat) : Z := Z.land (Z.shiftr (nth (bit / 32) k 0) (Z.of_nat (bit mod 32))) 1.

Fixpoint mont_inv_loop (ctx : P256Mod) (exponent base : list Z) (bits : nat) (accumulator : list Z) : list Z :=
  match bits with
  | O => accumulator
  | S bit =>
      let accumulator := p256_mont_mul ctx accumulator accumulator in
      mont_inv_loop ctx exponent base bit
        (if negb (limb_bit exponent bit =? 0) then p256_mont_mul ctx accumulator base else accumulator)
  end.

Definition p256_mont_inv (ctx : P256Mod) (a : list Z) : list Z :=
  let two := 2 :: replicate 7 0 in
  let exponent := (p256_sub_raw (md_m ctx) two).1 in
  mont_inv_loop ctx exponent a 256 (md_one ctx).

(** ** Points in Jacobian coordinates *)

Record P256Point := mk_point { pt_x : list Z; pt_y : list Z; pt_z : list Z }.

Definition p256_point_set_infinity : P256Point :=
  mk_point (replicate P256_LIMBS 0) (replicate P256_LIMBS 0) (replicate P256_LIMBS 0).

Definition p256_point_is_infinity (p : P256Point) : bool := p256_is_zero (pt_z p).

Definition p256_point_double (fp : P256Mod) (p : P256Point) : P256Point :=
  if p256_point_is_infinity p then p256_point_set_infinity
  else
    let delta := p256_mont_mul fp (pt_z p) (pt_z p) in
    let gamma := p256_mont_mul fp (pt_y p) (pt_y p) in
    let beta := p256_mont_mul fp (pt_x p) gamma in
    let t0 := p256_mod_sub fp (pt_x p) delta in
    let t1 := p256_mod_add fp (pt_x p) delta in
    let alpha := p256_mont_mul fp t0 t1 in
    let t0 := p256_mod_add fp alpha alpha in
    let alpha := p256_mod_add fp t0 alpha in
    let t0 := p256_mont_mul fp alpha alpha in
    let t1 := p256_mod_add fp beta beta in
    let t1 := p256_mod_add fp t1 t1 in
    let t0 := p256_mod_sub fp t0 t1 in
    let rx := p256_mod_sub fp t0 t1 in
    let t0 := p256_mod_add fp (pt_y p) (pt_z p) in
    let t0 := p256_mont_mul fp t0 t0 in
    let t0 := p256_mod_sub fp t0 gamma in
    let rz := p256_mod_sub fp t0 delta in
    let t0 := p256_mod_sub fp t1 rx in
    let t0 := p256_mont_mul fp alpha t0 in
    let t1 := p256_mont_mul fp gamma gamma in
    let t1 := p256_mod_add fp t1 t1 in
    let t1 := p256_mod_add fp t1 t1 in
    let t1 := p256_mod_add fp t1 t1 in
    let ry := p256_mod_sub fp t0 t1 in
    mk_point rx ry rz.

Definition p256_point_add (fp : P256Mod) (p q : P256Point) : P256Point :=
  if p256_point_is_infinity p then q
  else if p256_point_is_infinity q then p
  else
    let z1z1 := p256_mont_mul fp (pt_z p) (pt_z p) in
    let z2z2 := p256_mont_mul fp (pt_z q) (pt_z q) in
    let u1 := p256_mont_mul fp (pt_x p) z2z2 in
    let u2 := p256_mont_mul fp (pt_x q) z1z1 in
    let s1 := p256_mont_mul fp (pt_y p) (pt_z q) in
    let s1 := p256_mont_mul fp s1 z2z2 in
    let s2 := p256_mont_mul fp (pt_y q) (pt_z p) in
    let s2 := p256_mont_mul fp s2 z1z1 in
    let h := p256_mod_sub fp u2 u1 in
    let rr := p256_mod_sub fp s2 s1 in
    if p256_is_zero h then
      if p256_is_zero rr then p256_point_double fp p else p256_point_set_infinity
    else
      let i := p256_mod_add fp h h in
      let i := p256_mont_mul fp i i in
      let j := p256_mont_mul fp h i in
      let rr := p256_mod_add fp rr rr in
      let v := p256_mont_mul fp u1 i in
      let t0 := p256_mont_mul fp rr rr in
      let t0 := p256_mod_sub fp t0 j in
      let t0 := p256_mod_sub fp t0 v in
      let rx := p256_mod_sub fp t0 v in
      let t0 := p256_mod_sub fp v rx in
      let t0 := p256_mont_mul fp rr t0 in
      let s1 := p256_mont_mul fp s1 j in
      let s1 := p256_mod_add fp s1 s1 in
      let ry := p256_mod_sub fp t0 s1 in
      let t0 := p256_mod_add fp (pt_z p) (pt_z q) in
      let t0 := p256_mont_mul fp t0 t0 in
      let t0 := p256_mod_sub fp t0 z1z1 in
      let t0 := p256_mod_sub fp t0 z2z2 in
      let rz := p256_mont_mul fp t0 h in
      mk_point rx ry rz.

Fixpoint double_scalar_loop (fp : P256Mod) (k1 k2 : list Z) (p1 p2 sum : P256Point) (bits : nat) (accumulator : P256Point) : P256Point :=
  match bits with
  | O => accumulator
  | S bit =>
      let b1 := limb_bit k1 bit in
      let b2 := limb_bit k2 bit in
      let accumulator := p256_point_double fp accumulator in
      let accumulator :=
        if negb (b1 =? 0) && negb (b2 =? 0) then p256_point_add fp accumulator sum
        else if negb (b1 =? 0) then p256_point_add fp accumulator p1
        else if negb (b2 =? 0) then p256_point_add fp accumulator p2
        else accumulator in
      double_scalar_loop fp k1 k2 p1 p2 sum bit accumulator
  end.

Definition p256_double_scalar_mul (fp : P256Mod) (k1 : list Z) (p1 : P256Point) (k2 : list Z) (p2 : P256Point) : P256Point :=
  let sum := p256_point_add fp p1 p2 in
  double_scalar_loop fp k1 k2 p1 p2 sum 256 p256_point_set_infinity.

Definition p256_point_is_on_curve (fp : P256Mod) (x y : list Z) : bool :=
  let b := p256_to_mont fp (p256_from_be P256_B) in
  let left := p256_mont_mul fp y y in
  let right := p256_mont_mul fp x x in
  let right := p256_mont_mul fp right x in
  let three_x := p256_mod_add fp x x in
  let three_x := p256_mod_add fp three_x x in
  let right := p256_mod_sub fp right three_x in
  let right := p256_mod_add fp right b in
  p256_cmp left right =? 0.

(** ** Verification *)

(** The public key as a point, once its coordinates have been accepted. *)
Definition p256_load_key (fp : P256Mod) (public_x public_y : bytes) : option P256Point :=
  let qx := p256_from_be public_x in
  let qy := p256_from_be public_y in
  if (p256_cmp qx (md_m fp) >=? 0) || (p256_cmp qy (md_m fp) >=? 0) then None
  else
    let q := mk_point (p256_to_mont fp qx) (p256_to_mont fp qy) (md_one fp) in
    if negb (p256_point_is_on_curve fp (pt_x q) (pt_y q)) then None
    else if p256_is_zero qx && p256_is_zero qy then None
    else Some q.

(** The two scalars [u1] and [u2]. *)
Definition p256_scalars (fn : P256Mod) (e_value r_value s_value : list Z) : list Z * list Z :=
  let w := p256_to_mont fn s_value in
  let w := p256_mont_inv fn w in
  let u1 := p256_to_mont fn e_value in
  let u1 := p256_mont_mul fn u1 w in
  let u1 := p256_from_mont fn u1 in
  let u2 := p256_to_mont fn r_value in
  let u2 := p256_mont_mul fn u2 w in
  let u2 := p256_from_mont fn u2 in
  (u1, u2).

(** The affine abscissa of a finite point, as a number. *)
Definition p256_affine_x (fp : P256Mod) (point : P256Point) : list Z :=
  let z_inv := p256_mont_mul fp (pt_z point) (pt_z point) in
  let z_inv := p256_mont_inv fp z_inv in
  let affine_x := p256_mont_mul fp (pt_x point) z_inv in
  p256_from_mont fp affine_x.

(** [value] reduced once modulo [m]. *)
Definition p256_reduce_once (value m : list Z) : list Z :=
  if p256_cmp value m >=? 0 then (p256_sub_raw value m).1 else value.

Definition tamga_p256_verify (public_x public_y digest r s : option bytes) : bool :=
  match public_x, public_y, digest, r, s with
  | Some public_x, Some public_y, Some digest, Some r, Some s =>
      let fp := p256_mod_init P256_P in
      let fn := p256_mod_init P256_N in
      match p256_load_key fp public_x public_y with
      | None => false
      | Some q =>
          let r_value := p256_from_be r in
          let s_value := p256_from_be s in
          if p256_is_zero r_value || (p256_cmp r_value (md_m fn) >=? 0) then false
          else if p256_is_zero s_value || (p256_cmp s_value (md_m fn) >=? 0) then false
          else
            let e_value := p256_reduce_once (p256_from_be digest) (md_m fn) in
            let '(u1, u2) := p256_scalars fn e_value r_value s_value in
            let g := mk_point (p256_to_mont fp (p256_from_be P256_GX)) (p256_to_mont fp (p256_from_be P256_GY)) (md_one fp) in
            let point := p256_double_scalar_mul fp u1 g u2 q in
            if p256_point_is_infinity point then false
            else
              let affine_x := p256_reduce_once (p256_affine_x fp point) (md_m fn) in
              let x_bytes := p256_to_be affine_x in
              p256_cmp affine_x r_value =? 0
      end
  | _, _, _, _, _ => false
  end.
