(* ===== verification/P256Field.v ===== *)
(** * The Montgomery arithmetic of [P256] is arithmetic modulo its modulus

    For a prime modulus with its top bit set, a number in Montgomery form
    represents one element of the field, and the operations of [P256] on such
    numbers are the field's. *)

From Stdlib Require Import Znumtheory Zmod Field.
From S2P Require Import Prelude Octets Bn BnSpec Fe25519 FeSpec P256.
From stdpp Require Import list.
#[local] Open Scope Z_scope.
#[local] Coercion ZmodDef.Zmod.to_Z : Zmod >-> Z.

(** ** Numbers *)

Lemma load_word_be b0 b1 b2 b3 :
  is_byte b0 -> is_byte b1 -> is_byte b2 -> is_byte b3 ->
  Z.lor (Z.lor (Z.lor (u32 (Z.shiftl b0 24)) (u32 (Z.shiftl b1 16))) (u32 (Z.shiftl b2 8))) b3 =
  b3 + b2 * 2 ^ 8 + b1 * 2 ^ 16 + b0 * 2 ^ 24.
Proof.
  intros H0 H1 H2 H3. rewrite <- load_word by done.
  rewrite (Z.lor_comm _ b3), (Z.lor_comm _ (u32 (Z.shiftl b2 8))), (Z.lor_comm (u32 (Z.shiftl b0 24))). by rewrite !Z.lor_assoc.
Qed.

Lemma p256_from_be_spec s : bytes_ok s -> length s = 32%nat -> limbs8 (p256_from_be s) /\ eval (p256_from_be s) = os2ip s.
Proof.
  intros Hs Hl. do 32 (destruct s as [|? s]; [discriminate Hl|]). destruct s; [clear Hl|discriminate Hl].
  repeat match goal with K : bytes_ok (_ :: _) |- _ => apply Forall_cons in K as [? K] end. clear Hs.
  unfold p256_from_be, P256_LIMBS. cbn [map seq nth Nat.mul Nat.add Nat.sub]. rewrite !load_word_be by done. unfold is_byte in *.
  split; [split; [repeat (constructor; [unfold limb; lia|]); constructor|done]|]. unfold os2ip. cbn [eval fold_left]. lia.
Qed.

Lemma word_split z :
  0 <= z < 2 ^ 32 -> ((z / 2 ^ 24 mod 2 ^ 8 * 2 ^ 8 + z / 2 ^ 16 mod 2 ^ 8) * 2 ^ 8 + z / 2 ^ 8 mod 2 ^ 8) * 2 ^ 8 + z mod 2 ^ 8 = z.
Proof. intros H. zdm. Qed.

Lemma p256_to_be_spec v : limbs8 v -> p256_to_be v = i2osp (eval v) 32.
Proof.
  intros H. apply os2ip_inj; [|apply i2osp_bytes| |].
  - unfold p256_to_be. apply Forall_concat, Forall_map, Forall_forall. intros x _. repeat (constructor; [apply is_byte_wrap|]). constructor.
  - limbs8_inv v H. by rewrite i2osp_length.
  - pose proof (limbs8_bound v H) as B. rewrite os2ip_i2osp, Z.mod_small by exact B. limbs8_inv v H. unfold p256_to_be, os2ip, u8.
    cbn [rev app map concat fold_left eval]. rewrite !Z.shiftr_div_pow2 by lia. unfold limb in *.
    repeat match goal with K : 0 <= ?z < 2 ^ 32 |- _ => pose proof (word_split z K); clear K end.
    lia.
Qed.

Lemma p256_is_zero_spec a : limbs_ok a -> p256_is_zero a = (eval a =? 0).
Proof. apply lor_zero_spec. Qed.

Lemma cmp_loop_zero a b i : (i <= length a)%nat -> (i <= length b)%nat -> (cmp_loop a b i =? 0) = bool_decide (take i a = take i b).
Proof.
  induction i as [|i IH]; intros Ha Hb; [done|]. cbn [cmp_loop]. rewrite !take_S_nth by lia. specialize (IH ltac:(lia) ltac:(lia)).
  destruct (Z.eqb_spec (nth i a 0) (nth i b 0)) as [E|E]; cbn [negb].
  - rewrite IH, E. apply bool_decide_ext. split; [by intros ->|]. by intros [-> _]%app_inj_tail.
  - assert (bool_decide (take i a ++ [nth i a 0] = take i b ++ [nth i b 0]) = false) as ->.
    { apply bool_decide_eq_false. by intros [_ ?]%app_inj_tail. }
    by destruct (nth i a 0 <? nth i b 0).
Qed.

Lemma p256_cmp_eq a b : limbs8 a -> limbs8 b -> (p256_cmp a b =? 0) = (eval a =? eval b).
Proof.
  intros Ha Hb. unfold p256_cmp, P256_LIMBS. rewrite cmp_loop_zero by (rewrite ?(proj2 Ha), ?(proj2 Hb); lia).
  rewrite !take_ge by (rewrite ?(proj2 Ha), ?(proj2 Hb); lia). apply eq_true_iff_eq. rewrite bool_decide_eq_true, Z.eqb_eq.
  split; [congruence|by apply limbs8_inj].
Qed.

Lemma p256_cmp_ge a b : limbs8 a -> limbs8 b -> (p256_cmp a b >=? 0) = (eval b <=? eval a).
Proof.
  intros [Ha La] [Hb Lb]. rewrite <- cmp_spec by congruence. unfold tamga_bn_cmp. by rewrite Lb.
Qed.

(** A bit of a number. *)
Lemma limb_bit_spec l i : limbs_ok l -> limb_bit l i = eval l / 2 ^ Z.of_nat i mod 2.
Proof.
  intros Hl. unfold limb_bit. rewrite (land_mask _ 1), Z.shiftr_div_pow2, nth_eval by (done || lia). change (2 ^ 1) with 2.
  rewrite (Nat.div_mod_eq i 32) at 3. pose proof (Nat.mod_upper_bound i 32 ltac:(lia)) as Hr.
  set (q := (i / 32)%nat). set (r := (i mod 32)%nat) in *. rewrite Nat2Z.inj_add, Nat2Z.inj_mul, Z.pow_add_r by lia.
  change (2 ^ (Z.of_nat 32 * Z.of_nat q)) with (W q). pose proof (W_pos q).
  assert (0 < 2 ^ Z.of_nat r) by (apply Z.pow_pos_nonneg; lia). rewrite <- (Z.div_div _ (W q)) by lia. set (y := eval l / W q).
  replace (2 ^ 32) with (2 ^ Z.of_nat r * 2 ^ (32 - Z.of_nat r)) by (rewrite <- Z.pow_add_r by lia; f_equal; lia).
  assert (0 < 2 ^ (31 - Z.of_nat r)) by (apply Z.pow_pos_nonneg; lia).
  replace (2 ^ (32 - Z.of_nat r)) with (2 * 2 ^ (31 - Z.of_nat r)) by (rewrite <- Z.pow_succ_r by lia; f_equal; lia).
  rewrite Z.rem_mul_r, (Z.mul_comm (2 ^ Z.of_nat r)), Z.div_add, (Z.div_small (y mod _)), Z.add_0_l by (try apply Z.mod_pos_bound; lia).
  rewrite Z.rem_mul_r, (Z.mul_comm 2), Z_mod_plus_full, Z.mod_mod by lia. done.
Qed.

Lemma limb_bit_step l k : limbs_ok l ->
  eval l / 2 ^ Z.of_nat k = 2 * (eval l / 2 ^ Z.of_nat (S k)) + limb_bit l k /\ (limb_bit l k = 0 \/ limb_bit l k = 1).
Proof.
  intros Hl. rewrite limb_bit_spec by done. rewrite Nat2Z.inj_succ, Z.pow_succ_r, (Z.mul_comm 2 (2 ^ _)) by lia.
  assert (0 < 2 ^ Z.of_nat k) by (apply Z.pow_pos_nonneg; lia). rewrite <- Z.div_div by lia. zdm.
Qed.

(** ** Residues in Montgomery form *)

Lemma residue_unique u v q k : 0 <= u < q -> 0 <= v < q -> u - v = k * q -> u = v.
Proof. intros Hu Hv E. assert (-1 < k < 1) by nia. assert (k = 0) as -> by lia. lia. Qed.

(** What [p256_mod_init] establishes for the modulus [q]. *)
Record mod_ok (q : Z) (ctx : P256Mod) : Prop := {
  mod_limbs : limbs8 (md_m ctx);
  mod_value : eval (md_m ctx) = q;
  mod_odd : Z.odd (nth 0 (md_m ctx) 0) = true;
  mod_top : 2 ^ 255 < q;
  mod_inverse : (2 ^ 32 | nth 0 (md_m ctx) 0 * md_n0inv ctx + 1);
  mod_n0inv : limb (md_n0inv ctx);
  mod_one : mont (md_m ctx) 1 (md_one ctx);
  mod_rr : mont (md_m ctx) (W 8) (md_rr ctx);
}.

Lemma p256_double_times_bn count m v : length m = 8%nat -> p256_double_times count m v = double_times count v m.
Proof.
  intros Hm. revert v. induction count as [|c IH]; intros v; [done|]. cbn [p256_double_times double_times]. rewrite IH. f_equal.
  unfold p256_double_mod, tamga_bn_double_mod, p256_cmp, tamga_bn_cmp, P256_LIMBS. by rewrite Hm.
Qed.

Lemma limbs8_cons m : limbs8 m -> exists m0 mrest, m = m0 :: mrest.
Proof. intros [_ Hl]. destruct m; [discriminate Hl|eauto]. Qed.

(** [R mod m] is [R - m] for a modulus with its top bit set. *)
Lemma mont_one m :
  limbs8 m -> 2 ^ 255 < eval m -> mont m 1 (p256_sub_raw (replicate P256_LIMBS 0) m).1.
Proof.
  intros [M1 M2] Htop. pose proof (limbs8_bound m (conj M1 M2)) as Bm.
  destruct (sub_spec (replicate 8 0) m) as (out & Ho & S1 & S2 & S3); [apply limbs_replicate|done|by rewrite M2|].
  rewrite eval_replicate, length_replicate, W_8 in S3. rewrite length_replicate in S2.
  change (p256_sub_raw (replicate P256_LIMBS 0) m) with (tamga_bn_sub (replicate 8 0) m).
  set (one := (tamga_bn_sub _ m).1) in *. pose proof (limbs8_bound one (conj S1 S2)) as Bo. assert (out = 1) as -> by lia.
  split_and!; [done|congruence|lia|lia|]. rewrite M2, W_8. exists (-1). lia.
Qed.

(** Doubling a residue [count] times. *)
Lemma mont_double_times m x l count :
  limbs8 m -> mont m x l -> mont m (2 ^ Z.of_nat count * x) (p256_double_times count m l).
Proof.
  intros [M1 M2] (L1 & L2 & L3 & k & Hk). rewrite p256_double_times_bn by done.
  destruct (double_times_spec count l m L1 M1 L2 ltac:(lia)) as (D1 & D2 & D3).
  assert (0 <= eval (double_times count l m) < eval m) as BD by (rewrite D3; apply Z.mod_pos_bound; lia).
  split_and!; [done|done|lia|lia|]. rewrite D3, Z.mod_eq by lia.
  exists (2 ^ Z.of_nat count * k - 2 ^ Z.of_nat count * eval l / eval m).
  replace (2 ^ Z.of_nat count * x * W (length m)) with (2 ^ Z.of_nat count * (x * W (length m))) by ring.
  replace (x * W (length m)) with (eval l - k * eval m) by lia. ring.
Qed.

Lemma p256_n0inv_spec m0 : Z.odd m0 = true -> (2 ^ 32 | m0 * p256_n0inv m0 + 1) /\ limb (p256_n0inv m0).
Proof.
  intros H. assert (p256_n0inv m0 = tamga_bn_n0inv m0) as -> by (unfold p256_n0inv, tamga_bn_n0inv; reflexivity).
  split; [by apply n0inv_spec|unfold tamga_bn_n0inv; apply u32_limb].
Qed.

Lemma mod_ok_intro q m rr one :
  limbs8 m -> eval m = q -> Z.odd q = true -> 2 ^ 255 < q -> mont m 1 one -> mont m (W 8) rr ->
  mod_ok q (mk_mod m rr one (p256_n0inv (nth 0 m 0))).
Proof.
  intros Hm E Hodd Htop Hone Hrr. assert (Z.odd (nth 0 m 0) = true) as Hodd0.
  { rewrite nth_eval, W_0, Z.div_1_r, E by apply Hm. rewrite <- Hodd, !Zodd_mod. f_equal. zdm. }
  destruct (p256_n0inv_spec _ Hodd0) as [Hn1 Hn2]. set (n0 := p256_n0inv _) in *. clearbody n0.
  by split; cbn [md_m md_rr md_one md_n0inv].
Qed.

Lemma p256_mod_init_ok s :
  bytes_ok s -> length s = 32%nat -> Z.odd (os2ip s) = true -> 2 ^ 255 < os2ip s -> mod_ok (os2ip s) (p256_mod_init s).
Proof.
  intros Hs Hl Hodd Htop. destruct (p256_from_be_spec s Hs Hl) as [M1 M2].
  apply mod_ok_intro; [done..|apply mont_one; [done|lia]|].
  rewrite <- (Z.mul_1_r (W 8)). change (W 8) with (2 ^ Z.of_nat 256). apply mont_double_times; [done|]. apply mont_one; [done|lia].
Qed.

Section Field.
Context (q : Z) (Hq : Z.prime q) (ctx : P256Mod) (Hok : mod_ok q ctx).
Abbreviation m := (md_m ctx).
Add Field Fq_field : (Zmod.field_theory q Hq).

(** [l] is the Montgomery form of [x]. *)
Definition rep (x : Zmod q) (l : list Z) : Prop := mont m x l.

Lemma q_pos : 0 < q.
Proof. pose proof (mod_top q ctx Hok). lia. Qed.

Lemma mod_length : length m = 8%nat.
Proof. apply (mod_limbs q ctx Hok). Qed.

Lemma q_bound : q < 2 ^ 256.
Proof. rewrite <- (mod_value q ctx Hok). apply limbs8_bound, (mod_limbs q ctx Hok). Qed.

Lemma rep_limbs x l : rep x l -> limbs8 l /\ 0 <= eval l < q.
Proof.
  intros (H1 & H2 & H3 & _). rewrite mod_length in H2. by rewrite (mod_value q ctx Hok) in H3.
Qed.

(** A number represents the residue of any integer it stands for. *)
Lemma rep_intro z l : mont m z l -> rep (Zmod.of_Z q z) l.
Proof.
  intros (H1 & H2 & H3 & k & Hk). split_and!; [done|done|lia|lia|]. rewrite (mod_value q ctx Hok) in *. rewrite Zmod.unsigned_of_Z, Z.mod_eq by (pose proof q_pos; lia).
  exists (k + z / q * W (length m)). lia.
Qed.

Lemma mod_head : exists m0 mrest, m = m0 :: mrest /\ nth 0 m 0 = m0.
Proof. destruct (limbs8_cons m (mod_limbs q ctx Hok)) as (m0 & mrest & E). exists m0, mrest. split; [done|]. by rewrite E. Qed.

Lemma rep_cancel x y : (q | 2 ^ 256 * (x - y)) -> (q | x - y).
Proof.
  destruct mod_head as (m0 & mrest & E & E0). pose proof (mod_odd q ctx Hok) as Ho. rewrite E0 in Ho.
  pose proof (mod_cancel m m0 mrest E Ho x y) as H. rewrite (mod_value q ctx Hok), mod_length in H. exact H.
Qed.

Lemma rep_inj x a b : rep x a -> rep x b -> a = b.
Proof.
  intros Ha Hb. destruct (rep_limbs _ _ Ha) as [A1 A2]. destruct (rep_limbs _ _ Hb) as [B1 B2]. apply limbs8_inj; [done|done|].
  destruct Ha as (_ & _ & _ & ka & Ea). destruct Hb as (_ & _ & _ & kb & Eb). rewrite (mod_value q ctx Hok) in *.
  apply (residue_unique _ _ q (ka - kb)); lia.
Qed.

Lemma rep_eq x y a : rep x a -> rep y a -> x = y.
Proof.
  intros (_ & _ & _ & ka & Ea) (_ & _ & _ & kb & Eb). rewrite (mod_value q ctx Hok), mod_length in *. apply Zmod.unsigned_inj.
  pose proof (Zmod.unsigned_pos_bound x q_pos). pose proof (Zmod.unsigned_pos_bound y q_pos).
  destruct (rep_cancel x y) as [k Hk]; [exists (kb - ka); change (W 8) with (2 ^ 256) in *; lia|]. by apply (residue_unique _ _ q k).
Qed.

Lemma rep_zero_iff x a : rep x a -> p256_is_zero a = Zmod.eqb x 0.
Proof.
  intros H. destruct (rep_limbs _ _ H) as [A1 A2]. rewrite p256_is_zero_spec by apply A1. apply eq_true_iff_eq. rewrite Z.eqb_eq, Zmod.eqb_eq.
  assert (rep 0%Zmod (replicate 8 0)) as H0.
  { split_and!; [apply limbs_replicate|by rewrite mod_length|rewrite eval_replicate; lia|rewrite eval_replicate, (mod_value q ctx Hok); apply q_pos|].
    rewrite eval_replicate, Zmod.unsigned_0. by exists 0. }
  split.
  - intros E. apply (rep_eq x 0%Zmod a H). assert (a = replicate 8 0) as ->; [|done].
    apply limbs8_inj; [done|split; [apply limbs_replicate|done]|]. by rewrite eval_replicate.
  - intros ->. by rewrite (rep_inj _ _ _ H H0), eval_replicate.
Qed.

Lemma mont_mul_bn a b : p256_mont_mul ctx a b = tamga_bn_mont_mul a b m (md_n0inv ctx).
Proof.
  unfold p256_mont_mul, tamga_bn_mont_mul, p256_cmp, tamga_bn_cmp, P256_LIMBS. rewrite mod_length. done.
Qed.

Lemma rep_mul x y a b : rep x a -> rep y b -> rep (x * y)%Zmod (p256_mont_mul ctx a b).
Proof.
  intros Ha Hb. destruct mod_head as (m0 & mrest & E & E0). rewrite mont_mul_bn. rewrite <- (Zmod.of_Z_unsigned (x * y)%Zmod), Zmod.unsigned_mul, Zmod.of_Z_mod.
  pose proof (mod_odd q ctx Hok) as Ho. pose proof (mod_inverse q ctx Hok) as Hi. rewrite E0 in *.
  apply rep_intro, (mont_mul_mont m m0 mrest E); try done; [apply (mod_limbs q ctx Hok)|apply (mod_n0inv q ctx Hok)].
Qed.

(** Any value congruent to a represented one, brought below the modulus. *)
Lemma rep_value z l : limbs8 l -> 0 <= eval l < q -> (q | eval l - z * 2 ^ 256) -> rep (Zmod.of_Z q z) l.
Proof.
  intros [H1 H2] H3 H4. apply rep_intro. rewrite <- W_8 in H4. split_and!; [done|by rewrite mod_length|lia|rewrite (mod_value q ctx Hok); lia|].
  by rewrite (mod_value q ctx Hok), mod_length.
Qed.

Lemma rep_div x l : rep x l -> exists k, eval l = x * 2 ^ 256 + k * q.
Proof. intros (_ & _ & _ & k & Hk). rewrite mod_length, (mod_value q ctx Hok) in Hk. exists k. change (W 8) with (2 ^ 256) in Hk. lia. Qed.

Lemma rep_add x y a b : rep x a -> rep y b -> rep (x + y)%Zmod (p256_mod_add ctx a b).
Proof.
  intros Ha Hb. destruct (rep_limbs _ _ Ha) as [[A1 A2] A3]. destruct (rep_limbs _ _ Hb) as [[B1 B2] B3].
  destruct (rep_div _ _ Ha) as [ka Ea]. destruct (rep_div _ _ Hb) as [kb Eb].
  rewrite <- (Zmod.of_Z_unsigned (x + y)%Zmod), Zmod.unsigned_add, Zmod.of_Z_mod.
  unfold p256_mod_add, p256_add_raw. destruct (add_loop a b 0) as [r carry] eqn:E.
  apply add_loop_spec in E as (R1 & R2 & R3 & R4); [|done|done|congruence|lia]. rewrite A2, W_8 in *.
  replace (u32 carry) with carry by (unfold u32; rewrite Z.mod_small; lia). pose proof (mod_limbs q ctx Hok) as [M1 M2].
  pose proof (final_subtract r carry m (eval a + eval b) R1 M1 ltac:(congruence) ltac:(lia)) as HF. rewrite M2, W_8, (mod_value q ctx Hok) in HF.
  specialize (HF ltac:(lia) ltac:(lia)). cbv zeta in HF. unfold tamga_bn_cmp in HF. rewrite M2 in HF.
  change (tamga_bn_sub r m) with (p256_sub_raw r m) in HF. unfold p256_cmp, P256_LIMBS. destruct HF as (F1 & F2 & F3).
  apply rep_value; [split; [done|congruence]|rewrite F3|rewrite F3]; destruct (Z.ltb_spec (eval a + eval b) q); try lia.
  - exists (ka + kb). lia.
  - exists (ka + kb - 1). lia.
Qed.

Lemma rep_sub x y a b : rep x a -> rep y b -> rep (x - y)%Zmod (p256_mod_sub ctx a b).
Proof.
  intros Ha Hb. destruct (rep_limbs _ _ Ha) as [[A1 A2] A3]. destruct (rep_limbs _ _ Hb) as [[B1 B2] B3].
  destruct (rep_div _ _ Ha) as [ka Ea]. destruct (rep_div _ _ Hb) as [kb Eb].
  rewrite <- (Zmod.of_Z_unsigned (x - y)%Zmod), Zmod.unsigned_sub, Zmod.of_Z_mod.
  unfold p256_mod_sub, p256_sub_raw. destruct (sub_loop a b 0) as [r borrow] eqn:E.
  apply sub_loop_spec in E as (R1 & R2 & R3 & R4); [|done|done|congruence|lia]. rewrite A2, W_8 in *.
  replace (u32 borrow) with borrow by (unfold u32; rewrite Z.mod_small; lia). pose proof (limbs8_bound r (conj R1 R2)) as Br.
  destruct (Z.eqb_spec borrow 0) as [->|Eb0]; cbn [negb]; [apply rep_value; [done|lia|]; exists (ka - kb); lia|].
  assert (borrow = 1) as -> by lia. pose proof (mod_limbs q ctx Hok) as [M1 M2]. unfold p256_add_raw. destruct (add_loop r m 0) as [s c] eqn:E2.
  apply add_loop_spec in E2 as (S1 & S2 & S3 & S4); [|done|done|congruence|lia]. rewrite R2, W_8, (mod_value q ctx Hok) in *. cbn [fst].
  pose proof (limbs8_bound s (conj S1 S2)) as Bs. pose proof q_bound. assert (c = 1) as -> by lia.
  apply rep_value; [done|lia|]. exists (ka - kb + 1). lia.
Qed.

Lemma rep_zero : rep 0%Zmod (replicate 8 0).
Proof.
  rewrite <- Zmod.of_Z_0. apply rep_value; [split; [apply limbs_replicate|done]|rewrite eval_replicate; pose proof q_pos; lia|].
  rewrite eval_replicate. by exists 0.
Qed.

Lemma rep_one : rep 1%Zmod (md_one ctx).
Proof. rewrite <- Zmod.of_Z_1. apply rep_intro, (mod_one q ctx Hok). Qed.

Lemma rep_to_mont a : limbs8 a -> eval a < q -> rep (Zmod.of_Z q (eval a)) (p256_to_mont ctx a).
Proof.
  intros [Ha La] Hlt. unfold p256_to_mont. rewrite mont_mul_bn. destruct mod_head as (m0 & mrest & E & E0).
  pose proof (mod_inverse q ctx Hok) as Hi. rewrite E0 in Hi. pose proof (mod_rr q ctx Hok) as Hrr. destruct (rep_limbs _ _ (rep_intro _ _ Hrr)) as [[Q1 Q2] Q3].
  destruct (mont_mul_spec m m0 mrest E (proj1 (mod_limbs q ctx Hok)) (md_n0inv ctx) Hi (mod_n0inv q ctx Hok) a (md_rr ctx)) as (R1 & R2 & R3 & k & R4);
    [done|by rewrite mod_length|by rewrite (mod_value q ctx Hok)|done|by rewrite mod_length|].
  rewrite mod_length in *. rewrite (mod_value q ctx Hok) in *. apply rep_value; [done|done|]. apply rep_cancel.
  destruct Hrr as (_ & _ & _ & k2 & Hk2). rewrite mod_length, (mod_value q ctx Hok) in Hk2. change (W 8) with (2 ^ 256) in *.
  exists (k + eval a * k2). replace (eval (md_rr ctx)) with (2 ^ 256 * 2 ^ 256 + k2 * q) in R4 by lia. lia.
Qed.

Lemma rep_from_mont x a : rep x a -> limbs8 (p256_from_mont ctx a) /\ eval (p256_from_mont ctx a) = x.
Proof.
  intros Ha. unfold p256_from_mont. rewrite mont_mul_bn. destruct mod_head as (m0 & mrest & E & E0).
  pose proof (mod_odd q ctx Hok) as Ho. pose proof (mod_inverse q ctx Hok) as Hi. rewrite E0 in *.
  destruct (mont_out m m0 mrest E (proj1 (mod_limbs q ctx Hok)) (md_n0inv ctx) Hi (mod_n0inv q ctx Hok) Ho x a Ha) as (R1 & R2 & R3).
  rewrite mod_length in *. rewrite (mod_value q ctx Hok) in R1. rewrite Zmod.mod_unsigned in R1. done.
Qed.

(** ** Inversion *)

Lemma mont_inv_loop_rep x a e k acc :
  limbs_ok e -> rep x a -> rep (x ^ (eval e / 2 ^ Z.of_nat k))%Zmod acc -> rep (x ^ eval e)%Zmod (mont_inv_loop ctx e a k acc).
Proof.
  intros He Ha. pose proof (eval_bound e He) as B. revert acc. induction k as [|k IH]; intros acc Hr; cbn [mont_inv_loop].
  - change (2 ^ Z.of_nat 0) with 1 in Hr. by rewrite Z.div_1_r in Hr.
  - apply IH. destruct (limb_bit_step e k He) as [-> Hbit]. pose proof (rep_mul _ _ _ _ Hr Hr) as Hsq.
    assert (0 <= eval e / 2 ^ Z.of_nat (S k)) by (apply Z.div_pos; [lia|apply Z.pow_pos_nonneg; lia]).
    set (n := eval e / 2 ^ Z.of_nat (S k)) in *.
    assert (x ^ (2 * n) = x ^ n * x ^ n)%Zmod as E by (rewrite <- Zmod.pow_add_r_nonneg by lia; f_equal; lia).
    destruct Hbit as [-> | ->]; cbn [Z.eqb negb].
    + by rewrite Z.add_0_r, E.
    + rewrite Zmod.pow_add_r_nonneg, E, Zmod.pow_1_r by lia. by apply rep_mul.
Qed.

Lemma rep_inv x a : rep x a -> x <> 0%Zmod -> rep (Zmod.inv x) (p256_mont_inv ctx a).
Proof.
  intros Ha Hx. rewrite <- (Zmod.fermat_inv x Hx Hq). unfold p256_mont_inv. pose proof (mod_limbs q ctx Hok) as [M1 M2]. unfold p256_sub_raw.
  destruct (sub_loop m (2 :: replicate 7 0) 0) as [e out] eqn:E. apply sub_loop_spec in E as (S1 & S2 & S3 & S4);
    [|done|constructor; [unfold limb; lia|apply limbs_replicate]|done|lia]. rewrite M2, W_8, (mod_value q ctx Hok) in *.
  cbn [eval] in S4. rewrite eval_replicate in S4. pose proof (limbs8_bound e (conj S1 S2)) as Be. pose proof q_bound. pose proof (mod_top q ctx Hok).
  assert (out = 0) as -> by lia. replace (q - 2) with (eval e) by lia. cbn [fst]. apply mont_inv_loop_rep; [done|done|].
  change (Z.of_nat 256) with 256. rewrite Z.div_small by lia. apply rep_one.
Qed.
End Field.
