(* ===== verification/Weierstrass.v ===== *)
(** * The chord-and-tangent law of y^2 = x^3 - 3x + b

    The affine points of a short Weierstrass curve with a = -3, its addition
    law with the point at infinity, the proof that this law is associative (by
    lines: three points on a line sum to zero), and linear combinations of two
    points by simultaneous double-and-add. Coordinates are Stdlib's [Zmod]. *)

From Stdlib Require Import Znumtheory Zmod Field.
From S2P Require Import Prelude Edwards.
From stdpp Require Import list.
#[local] Open Scope Z_scope.
#[local] Open Scope Zmod_scope.

Inductive wpoint (q : Z) : Type :=
| WInf : wpoint q
| WAff : Zmod q -> Zmod q -> wpoint q.
Arguments WInf {q}.
Arguments WAff {q} _ _.

(** The curve equation; infinity is on every curve. *)
Definition w_on_curve {q} (b : Zmod q) (P : wpoint q) : Prop :=
  match P with
  | WInf => True
  | WAff x y => y * y = x * x * x - (1 + 1 + 1) * x + b
  end.

(** The third point of the line of slope [l] through two points, reflected. *)
Definition w_chord {q} (l x1 y1 x2 : Zmod q) : wpoint q :=
  let x3 := l * l - x1 - x2 in WAff x3 (l * (x1 - x3) - y1).

Definition w_double {q} (P : wpoint q) : wpoint q :=
  match P with
  | WInf => WInf
  | WAff x y =>
      if Zmod.eqb y 0 then WInf
      else w_chord (Zmod.mdiv ((1 + 1 + 1) * (x * x) - (1 + 1 + 1)) ((1 + 1) * y)) x y x
  end.

Definition w_add {q} (P Q : wpoint q) : wpoint q :=
  match P, Q with
  | WInf, _ => Q
  | _, WInf => P
  | WAff x1 y1, WAff x2 y2 =>
      if Zmod.eqb x1 x2 then if Zmod.eqb y1 y2 then w_double P else WInf
      else w_chord (Zmod.mdiv (y2 - y1) (x2 - x1)) x1 y1 x2
  end.

(** [k] times [P], as repeated addition. *)
Definition w_mul {q} (k : Z) (P : wpoint q) : wpoint q := Nat.iter (Z.to_nat k) (w_add P) WInf.

(** [k1 P1 + k2 P2] by double-and-add over [n] bits. *)
Fixpoint w_combine {q} (n : nat) (k1 k2 : Z) (P1 P2 : wpoint q) : wpoint q :=
  match n with
  | O => WInf
  | S n =>
      let R := w_double (w_combine n (k1 / 2) (k2 / 2) P1 P2) in
      match Z.odd k1, Z.odd k2 with
      | true, true => w_add R (w_add P1 P2)
      | true, false => w_add R P1
      | false, true => w_add R P2
      | false, false => R
      end
  end.

Section Closure.
Context {q : Z} (Hq : Z.prime q) (b : Zmod q) (H2 : (1 + 1 : Zmod q) <> 0).
Add Field Zq_field : (Zmod.field_theory q Hq).

Lemma w_double_on_curve P : w_on_curve b P -> w_on_curve b (w_double P).
Proof.
  destruct P as [|x y]; [done|]. intros C. cbn [w_double]. destruct (Zmod.eqb_spec y 0) as [E|E]; [done|]. unfold w_chord. cbn [w_on_curve] in *.
  set (l := Zmod.mdiv _ _). assert (l * ((1 + 1) * y) = (1 + 1 + 1) * (x * x) - (1 + 1 + 1)) as Hl
    by (apply (mdiv_mul Hq); apply (mul_nonzero Hq); assumption).
  clearbody l.
  assert (b = y * y - x * x * x + (1 + 1 + 1) * x) as Hb by (rewrite C; ring). rewrite Hb.
  transitivity ((l * (x - (l * l - x - x)) - y) * (l * (x - (l * l - x - x)) - y) -
    (l * l - x - x - x) * (l * ((1 + 1) * y) - ((1 + 1 + 1) * (x * x) - (1 + 1 + 1)))); [rewrite Hl; ring|ring].
Qed.

Lemma w_add_on_curve P Q : w_on_curve b P -> w_on_curve b Q -> w_on_curve b (w_add P Q).
Proof.
  destruct P as [|x1 y1], Q as [|x2 y2]; [done..|]. intros C1 C2. cbn [w_add].
  destruct (Zmod.eqb_spec x1 x2) as [Ex|Ex]; [destruct (Zmod.eqb_spec y1 y2); [by apply w_double_on_curve|done]|].
  unfold w_chord. cbn [w_on_curve] in *. set (l := Zmod.mdiv _ _).
  assert (x2 - x1 <> 0) as Hx by (intros H; apply Ex; transitivity (x2 - (x2 - x1)); [ring|rewrite H; ring]).
  assert (y2 = y1 + l * (x2 - x1)) as Hl by (unfold l; field; assumption). clearbody l.
  assert (b = y1 * y1 - x1 * x1 * x1 + (1 + 1 + 1) * x1) as Hb by (rewrite C1; ring).
  assert ((x2 - x1) * (l * l * (x2 - x1) + (1 + 1) * y1 * l - (x1 * x1 + x1 * x2 + x2 * x2) + (1 + 1 + 1)) = 0) as H0.
  { transitivity (y2 * y2 - (x2 * x2 * x2 - (1 + 1 + 1) * x2 + b)); [rewrite Hl, Hb; ring|rewrite C2; ring]. }
  apply Zmod.mul_0_iff_prime in H0 as [H0|H0]; [done| |done]. rewrite Hb.
  set (w := l * l * (x2 - x1) + _ - _ + _) in H0. transitivity ((l * (x1 - (l * l - x1 - x2)) - y1) * (l * (x1 - (l * l - x1 - x2)) - y1) -
    (l * l - x1 - x1 - x2) * w); [rewrite H0; ring|unfold w; ring].
Qed.

(** The sum by its slope. *)
Lemma w_add_slope (x1 y1 x2 y2 l : Zmod q) : x1 <> x2 -> l * (x2 - x1) = y2 - y1 -> w_add (WAff x1 y1) (WAff x2 y2) = w_chord l x1 y1 x2.
Proof.
  intros Hx Hl. cbn [w_add]. destruct (Zmod.eqb_spec x1 x2) as [E|_]; [by destruct Hx|]. rewrite <- Hl. f_equal.
  assert (x2 - x1 <> 0) as Hn by (intros H; apply Hx; transitivity (x2 - (x2 - x1)); [ring|rewrite H; ring]). field. exact Hn.
Qed.
End Closure.

(** ** Lines

    [line P Q l]: the line of slope [l] meets the curve in [P] and [Q], counted
    twice when they are equal. It covers the chord and the tangent at once: the
    first equation is the chord's, the second is what remains of the difference
    of the two curve equations. *)

Definition line {q} (a x1 y1 x2 y2 l : Zmod q) : Prop :=
  l * (x2 - x1) = y2 - y1 /\ l * (y1 + y2) = x1 * x1 + x1 * x2 + x2 * x2 + a.

Section Group.
Context {q : Z} (Hq : Z.prime q) (b : Zmod q) (H2 : (1 + 1 : Zmod q) <> 0).
Add Field Zq_group_field : (Zmod.field_theory q Hq).

Abbreviation a3 := (- (1 + 1 + 1) : Zmod q).
Abbreviation curve := (w_on_curve b).

Lemma minus_zero (u v : Zmod q) : u - v = 0 -> u = v.
Proof. intros H. transitivity (u - v + v); [ring|]. rewrite H. ring. Qed.

Lemma mul_zero (u v : Zmod q) : u * v = 0 -> u = 0 \/ v = 0.
Proof. intros H. by apply Zmod.mul_0_iff_prime in H. Qed.

(** Cancelling a factor. *)
Lemma mul_cancel (c u v : Zmod q) : c <> 0 -> c * u = c * v -> u = v.
Proof.
  intros Hc H. destruct (mul_zero c (u - v)) as [E|E]; [transitivity (c * u - c * v); [ring|rewrite H; ring]|by destruct Hc|by apply minus_zero].
Qed.

Lemma sum_ne (x1 x2 y1 y2 : Zmod q) :
  curve (WAff x1 y1) -> curve (WAff x2 y2) -> x1 = x2 -> y1 + y2 <> 0 -> y1 = y2.
Proof.
  intros C1 C2 <- H. cbn in C1, C2. apply minus_zero. destruct (mul_zero (y1 + y2) (y1 - y2)) as [E|E]; [|by destruct H|exact E].
  transitivity (y1 * y1 - y2 * y2); [ring|]. rewrite C1, C2. ring.
Qed.

(** [apart]: the two points are not inverse to each other. *)
Definition apart (x1 y1 x2 y2 : Zmod q) : Prop := ~ (x1 = x2 /\ y1 + y2 = 0).

Lemma apart_dec x1 y1 x2 y2 : apart x1 y1 x2 y2 \/ (x1 = x2 /\ y1 + y2 = 0).
Proof. unfold apart. destruct (Zmod.eqb_spec x1 x2), (Zmod.eqb_spec (y1 + y2) 0); tauto. Qed.

(** A line through two points that are not inverse gives their sum. *)
Lemma add_line x1 y1 x2 y2 l :
  curve (WAff x1 y1) -> curve (WAff x2 y2) -> apart x1 y1 x2 y2 -> line a3 x1 y1 x2 y2 l ->
  w_add (WAff x1 y1) (WAff x2 y2) = w_chord l x1 y1 x2.
Proof.
  intros C1 C2 Hap [L1 L2]. destruct (Zmod.eqb_spec x1 x2) as [E|E]; [|by apply (w_add_slope Hq)].
  assert (y1 + y2 <> 0) as Hy by (intros H; by apply Hap). assert (y1 = y2) as Ey by (by eapply sum_ne).
  subst x2 y2. cbn [w_add w_double]. rewrite !(proj2 (Zmod.eqb_eq _ _)) by reflexivity.
  assert (y1 <> 0) as Hy0 by (intros ->; apply Hy; ring).
  destruct (Zmod.eqb_spec y1 0) as [?|_]; [done|]. f_equal.
  assert ((1 + 1) * y1 <> 0) as H2y by (apply (mul_nonzero Hq); assumption).
  apply (mul_cancel ((1 + 1) * y1)); [exact H2y|]. transitivity ((1 + 1 + 1) * (x1 * x1) - (1 + 1 + 1)).
  - rewrite <- (mdiv_mul Hq ((1 + 1 + 1) * (x1 * x1) - (1 + 1 + 1)) _ H2y) at 2. ring.
  - transitivity (l * (y1 + y1)); [rewrite L2; ring|ring].
Qed.

Lemma line_exists x1 y1 x2 y2 : curve (WAff x1 y1) -> curve (WAff x2 y2) -> apart x1 y1 x2 y2 -> exists l, line a3 x1 y1 x2 y2 l.
Proof.
  intros C1 C2 Hap. destruct (Zmod.eqb_spec x1 x2) as [E|E].
  - assert (y1 + y2 <> 0) as Hy by (intros H; by apply Hap). pose proof (sum_ne _ _ _ _ C1 C2 E Hy) as Ey. subst x2 y2.
    exists (Zmod.mdiv (x1 * x1 + x1 * x1 + x1 * x1 + a3) (y1 + y1)). split; [ring|]. by apply (mdiv_mul Hq).
  - assert (x2 - x1 <> 0) as Hx by (intros H; apply E; symmetry; by apply minus_zero).
    pose proof (mdiv_mul Hq (y2 - y1) (x2 - x1) Hx) as Hl. exists (Zmod.mdiv (y2 - y1) (x2 - x1)). split; [exact Hl|].
    set (l := Zmod.mdiv _ _) in *. clearbody l. apply (mul_cancel (x2 - x1)); [exact Hx|]. cbn in C1, C2.
    transitivity (l * (x2 - x1) * (y1 + y2)); [ring|]. rewrite Hl. transitivity (y2 * y2 - y1 * y1); [ring|]. rewrite C1, C2. ring.
Qed.

Definition w_neg (P : wpoint q) : wpoint q := match P with WInf => WInf | WAff x y => WAff x (- y) end.

Lemma add_inverse (x1 y1 x2 y2 : Zmod q) : x1 = x2 -> y1 + y2 = 0 -> w_add (WAff x1 y1) (WAff x2 y2) = WInf.
Proof.
  intros <- H. cbn [w_add w_double]. rewrite (proj2 (Zmod.eqb_eq _ _)) by reflexivity. destruct (Zmod.eqb_spec y1 y2) as [<-|_]; [|done].
  destruct (Zmod.eqb_spec y1 0) as [?|E]; [done|]. destruct (mul_zero (1 + 1) y1) as [H'|H']; [transitivity (y1 + y1); [ring|exact H]|by destruct H2|by destruct E].
Qed.

Lemma line_sym x1 y1 x2 y2 l : line a3 x1 y1 x2 y2 l -> line a3 x2 y2 x1 y1 l.
Proof.
  intros [L1 L2]. split; [transitivity (- (l * (x2 - x1))); [ring|rewrite L1; ring]|].
  transitivity (l * (y1 + y2)); [ring|rewrite L2; ring].
Qed.

Lemma w_add_comm P Q : curve P -> curve Q -> w_add P Q = w_add Q P.
Proof.
  destruct P as [|x1 y1], Q as [|x2 y2]; [done..|]. intros C1 C2. destruct (apart_dec x1 y1 x2 y2) as [Hap|[E1 E2]].
  - destruct (line_exists _ _ _ _ C1 C2 Hap) as [l L]. rewrite (add_line _ _ _ _ l C1 C2 Hap L).
    rewrite (add_line _ _ _ _ l C2 C1); [|intros [? H]; apply Hap; split; [done|rewrite <- H; ring]|by apply line_sym].
    destruct L as [L1 _]. unfold w_chord. f_equal; [ring|].
    transitivity (l * (x2 - (l * l - x2 - x1)) - l * (x2 - x1) - y1); [ring|]. rewrite L1. ring.
  - rewrite (add_inverse _ _ _ _ E1 E2), (add_inverse x2 y2 x1 y1); [done|symmetry; exact E1|rewrite <- E2; ring].
Qed.

Lemma w_neg_curve P : curve P -> curve (w_neg P).
Proof. destruct P as [|x y]; [done|]. cbn. intros C. rewrite <- C. ring. Qed.

(** The sum of two points lies on their line, reflected. *)
Lemma chord_line x1 y1 x2 y2 l :
  line a3 x1 y1 x2 y2 l ->
  let x3 := l * l - x1 - x2 in let y3 := l * (x1 - x3) - y1 in line a3 x3 y3 x2 (- y2) (- l).
Proof.
  intros [L1 L2] x3 y3. assert (y2 = y1 + l * (x2 - x1)) as E by (rewrite L1; ring). split.
  - unfold y3. rewrite E. ring.
  - transitivity (l * (y1 + y2) + l * l * (x3 - x1)); [unfold y3; rewrite E; ring|]. rewrite L2.
    transitivity (x1 * x1 + x1 * x2 + x2 * x2 + a3 + (x3 + x1 + x2) * (x3 - x1)); [unfold x3; ring|ring].
Qed.

(** The curve has no singular point when its discriminant is not zero. *)
Lemma w_nonsingular (x : Zmod q) :
  (1 + 1 + 1 : Zmod q) <> 0 -> b <> 1 + 1 -> b <> - (1 + 1) -> curve (WAff x 0) -> x * x + x * x + x * x + a3 <> 0.
Proof.
  intros H3 Hb1 Hb2 C H. cbn in C. assert (b = - (x * x * x) + (1 + 1 + 1) * x) as Eb.
  { transitivity (x * x * x - (1 + 1 + 1) * x + b - (x * x * x - (1 + 1 + 1) * x)); [ring|]. rewrite <- C. ring. }
  destruct (mul_zero (1 + 1 + 1) (x * x - 1)) as [E|E]; [rewrite <- H; ring|by destruct H3|].
  destruct (mul_zero (x - 1) (x + 1)) as [F|F]; [rewrite <- E; ring|..].
  - apply Hb1. rewrite Eb, (minus_zero _ _ F). ring.
  - apply Hb2. assert (x = - (1)) as -> by (apply minus_zero; rewrite <- F; ring). rewrite Eb. ring.
Qed.

(** A curve without singular point. *)
Context (Hns : forall x : Zmod q, curve (WAff x 0) -> x * x + x * x + x * x + a3 <> 0).

(** No affine point is neutral. *)
Lemma add_moves x1 y1 x2 y2 : curve (WAff x1 y1) -> curve (WAff x2 y2) -> w_add (WAff x1 y1) (WAff x2 y2) <> WAff x2 y2.
Proof.
  intros C1 C2. destruct (apart_dec x1 y1 x2 y2) as [Hap|[E1 E2]]; [|by rewrite add_inverse].
  destruct (line_exists _ _ _ _ C1 C2 Hap) as [l L]. rewrite (add_line _ _ _ _ l C1 C2 Hap L). destruct L as [L1 L2]. unfold w_chord. intros [= Ex Ey].
  assert (y2 = y1 + l * (x2 - x1)) as E by (rewrite L1; ring).
  assert ((1 + 1) * y2 = 0) as H0.
  { transitivity (y2 + (l * (x1 - (l * l - x1 - x2)) - y1)); [rewrite Ey; ring|].
    transitivity (y2 - y1 - l * (x2 - x1) + l * (x2 - (l * l - x1 - x2))); [ring|rewrite L1, Ex; ring]. }
  destruct (mul_zero _ _ H0) as [?|Hy]; [done|]. rewrite Hy in *. apply (Hns x2 C2).
  assert (x1 + x2 + x2 = l * l) as El by (transitivity (x1 + x2 + (l * l - x1 - x2)); [rewrite Ex; ring|ring]).
  transitivity (l * (y1 + 0) + (x1 + x2 + x2) * (x2 - x1)); [rewrite L2; ring|]. rewrite El.
  transitivity (l * (y1 + l * (x2 - x1))); [ring|rewrite L1; ring].
Qed.

Lemma w_cancel P Q : curve P -> curve Q -> w_add (w_add P Q) (w_neg Q) = P.
Proof.
  intros C1 C2. destruct P as [|x1 y1], Q as [|x2 y2]; [done| |done|].
  { apply add_inverse; [done|ring]. }
  destruct (apart_dec x1 y1 x2 y2) as [Hap|[E1 E2]].
  2:{ rewrite add_inverse by assumption. cbn. subst x2. f_equal. transitivity (y1 - (y1 + y2)); [ring|rewrite E2; ring]. }
  destruct (line_exists _ _ _ _ C1 C2 Hap) as [l L]. pose proof (add_moves _ _ _ _ C1 C2) as Hm.
  pose proof (w_add_on_curve Hq b H2 _ _ C1 C2) as C3. pose proof (w_neg_curve _ C2) as C4.
  rewrite (add_line _ _ _ _ l C1 C2 Hap L) in *. unfold w_chord in *. cbn [w_neg] in *.
  set (x3 := l * l - x1 - x2) in *. set (y3 := l * (x1 - x3) - y1) in *.
  rewrite (add_line _ _ _ _ (- l) C3 C4); [|intros [H H']; apply Hm; rewrite H; f_equal; transitivity (y3 + - y2 + y2); [ring|rewrite H'; ring]|by apply chord_line].
  unfold w_chord. f_equal; unfold y3, x3; ring.
Qed.

(** ** Associativity

    Stated as (P + Q) + R = (R + Q) + P, which is symmetric in P and R. With
    [l] and [m] the slopes of PQ and RQ and [s] that of the line through P + Q
    and R, [(l - m) (s + l) = x1 - x3]: the same number for both sides. *)

Lemma outer_slope x1 y1 x2 y2 x3 y3 l m s :
  line a3 x1 y1 x2 y2 l -> line a3 x3 y3 x2 y2 m ->
  let x12 := l * l - x1 - x2 in let y12 := l * (x1 - x12) - y1 in
  apart x12 y12 x3 y3 -> line a3 x12 y12 x3 y3 s -> (l - m) * (s + l) = x1 - x3.
Proof.
  intros [L1 L2] [M1 M2] x12 y12 Hap [S1 S2].
  assert (y1 = y2 - l * (x2 - x1)) as E1 by (rewrite L1; ring). assert (y3 = y2 - m * (x2 - x3)) as E3 by (rewrite M1; ring).
  set (D := x3 - x12) in *. set (u := y2 + y2 + (m + l) * (x3 - x2)).
  assert (y3 - y12 = u - l * D) as Eu by (unfold y12, u, D, x12; rewrite E1, E3; ring).
  assert ((l - m) * u = (x1 - x3) * D) as Key.
  { transitivity (l * (y1 + y2) - m * (y3 + y2) - (l * l) * (x1 - x3)); [unfold u; rewrite E1, E3; ring|]. rewrite L2, M2. unfold D, x12. ring. }
  destruct (Zmod.eqb_spec D 0) as [ED|ED].
  - assert (y12 = y3) as Ey by (apply minus_zero; transitivity (- (y3 - y12)); [ring|rewrite <- S1, ED; ring]).
    assert (y12 + y3 <> 0) as Hy by (intros H; apply Hap; split; [symmetry; by apply minus_zero|exact H]).
    assert (l * l = x1 + x2 + x3) as El by (apply minus_zero; transitivity (- D); [unfold D, x12; ring|rewrite ED; ring]).
    assert (u = 0) as Eu0 by (transitivity (y3 - y12 + l * D); [rewrite Eu; ring|rewrite Ey, ED; ring]).
    assert (y12 + y3 = (m - l) * (x3 - x2)) as Es by (rewrite Ey; transitivity (u + (m - l) * (x3 - x2)); [unfold u; rewrite E3; ring|rewrite Eu0; ring]).
    assert (y3 + y2 = - l * (x3 - x2)) as Em by (transitivity (u - l * (x3 - x2)); [unfold u; rewrite E3; ring|rewrite Eu0; ring]).
    apply (mul_cancel (y12 + y3)); [exact Hy|]. transitivity ((l - m) * (s * (y12 + y3) + l * (y12 + y3))); [ring|]. rewrite S2.
    assert (x12 = x3) as -> by (symmetry; by apply minus_zero).
    transitivity ((l - m) * (x3 * x3 + x3 * x3 - x3 * x2 - x2 * x2 + (x3 * x3 + x3 * x2 + x2 * x2 + a3) + l * (y12 + y3))); [ring|].
    rewrite <- M2, Em, Es. transitivity ((l - m) * (x3 - x2) * (x3 + x3 + x2 - l * l)); [ring|]. rewrite El. ring.
  - apply (mul_cancel D); [exact ED|]. transitivity ((l - m) * (s * D + l * D)); [ring|]. rewrite S1, Eu.
    transitivity ((l - m) * u); [ring|]. rewrite Key. ring.
Qed.

Lemma neg_hom P Q : curve P -> curve Q -> w_neg (w_add P Q) = w_add (w_neg P) (w_neg Q).
Proof.
  destruct P as [|x1 y1], Q as [|x2 y2]; [done..|]. intros C1 C2. destruct (apart_dec x1 y1 x2 y2) as [Hap|[E1 E2]].
  - destruct (line_exists _ _ _ _ C1 C2 Hap) as [l L]. rewrite (add_line _ _ _ _ l C1 C2 Hap L). cbn [w_neg].
    rewrite (add_line _ _ _ _ (- l) (w_neg_curve _ C1) (w_neg_curve _ C2)).
    + unfold w_chord. cbn [w_neg]. f_equal; ring.
    + intros [H H']. apply Hap. split; [exact H|]. transitivity (- (- y1 + - y2)); [ring|rewrite H'; ring].
    + destruct L as [L1 L2]. split; [transitivity (- (l * (x2 - x1))); [ring|rewrite L1; ring]|].
      transitivity (l * (y1 + y2)); [ring|rewrite L2; ring].
  - rewrite add_inverse by assumption. cbn [w_neg]. rewrite add_inverse; [done|exact E1|]. transitivity (- (y1 + y2)); [ring|rewrite E2; ring].
Qed.

Lemma neg_neg P : w_neg (w_neg P) = P.
Proof. destruct P as [|x y]; [done|]. cbn. f_equal. ring. Qed.

Lemma inverse_neg x1 y1 x2 y2 : x1 = x2 /\ y1 + y2 = 0 -> WAff x2 y2 = w_neg (WAff x1 y1).
Proof. intros [<- E]. cbn. f_equal. transitivity (y1 + y2 - y1); [ring|rewrite E; ring]. Qed.

Lemma w_add_neg P : w_add (w_neg P) P = WInf.
Proof. destruct P as [|x y]; [done|]. apply add_inverse; [done|ring]. Qed.

(** The rotated sum when P + Q and R are inverse. *)
Lemma rotate_inverse P Q : curve P -> curve Q -> w_add (w_add (w_neg (w_add P Q)) Q) P = WInf.
Proof.
  intros C1 C2. pose proof (w_add_on_curve Hq b H2 _ _ C1 C2) as C3.
  assert (w_add (w_neg (w_add P Q)) Q = w_neg P) as ->; [|apply w_add_neg].
  rewrite <- (neg_neg Q) at 2. rewrite <- neg_hom by (done || by apply w_neg_curve). by rewrite w_cancel.
Qed.

Lemma w_add_0_r (P : wpoint q) : w_add P WInf = P.
Proof. by destruct P. Qed.

(** The rotation when no two of the points met are inverse. *)
Lemma rotate_lines x1 y1 x2 y2 x3 y3 l m s t :
  line a3 x1 y1 x2 y2 l -> line a3 x3 y3 x2 y2 m ->
  let x12 := l * l - x1 - x2 in let y12 := l * (x1 - x12) - y1 in
  let x32 := m * m - x3 - x2 in let y32 := m * (x3 - x32) - y3 in
  apart x12 y12 x3 y3 -> apart x32 y32 x1 y1 -> line a3 x12 y12 x3 y3 s -> line a3 x32 y32 x1 y1 t ->
  (x1 = x3 /\ y1 = y3) \/ w_chord s x12 y12 x3 = w_chord t x32 y32 x1.
Proof.
  intros L M x12 y12 x32 y32 A1 A2 S T.
  pose proof (outer_slope _ _ _ _ _ _ _ _ _ L M A1 S) as H1. pose proof (outer_slope _ _ _ _ _ _ _ _ _ M L A2 T) as H3.
  fold x12 y12 x32 y32 in H1, H3. destruct L as [L1 _], M as [M1 _], S as [S1 _], T as [T1 _].
  assert (y1 = y2 - l * (x2 - x1)) as E1 by (rewrite L1; ring). assert (y3 = y2 - m * (x2 - x3)) as E3 by (rewrite M1; ring).
  destruct (Zmod.eqb_spec (l - m) 0) as [E|E].
  { left. assert (x1 = x3) as Ex by (apply minus_zero; rewrite <- H1, E; ring). split; [exact Ex|]. apply minus_zero in E. rewrite E1, E3, E, Ex. ring. }
  right. set (w := s + l) in *. assert (t + m = w) as Ew.
  { apply (mul_cancel (l - m)); [exact E|]. rewrite H1. transitivity (- ((m - l) * (t + m))); [ring|rewrite H3; ring]. }
  assert (s = w - l) as Es by (unfold w; ring). assert (t = w - m) as Et by (rewrite <- Ew; ring). clearbody w. clear Ew H3.
  assert (x1 = x3 + (l - m) * w) as Ex by (rewrite H1; ring).
  assert (y12 = y3 - s * (x3 - x12)) as Ey12 by (rewrite S1; ring). assert (y32 = y1 - t * (x1 - x32)) as Ey32 by (rewrite T1; ring).
  unfold w_chord. rewrite Ey12, Ey32. clear Ey12 Ey32 S1 T1 A1 A2 y12 y32 L1 M1 H1. subst x12 x32.
  rewrite Es, Et, E1, E3, Ex. f_equal; ring.
Qed.

Lemma w_rotate P Q R : curve P -> curve Q -> curve R -> w_add (w_add P Q) R = w_add (w_add R Q) P.
Proof.
  intros C1 C2 C3. destruct P as [|x1 y1]; [rewrite w_add_0_r; by apply w_add_comm|].
  destruct R as [|x3 y3]; [rewrite w_add_0_r; by apply w_add_comm|]. destruct Q as [|x2 y2]; [by apply w_add_comm|].
  assert ((x1 = x3 /\ y1 = y3) \/ ~ (x1 = x3 /\ y1 = y3)) as [[<- <-]|Hne] by (destruct (Zmod.eqb_spec x1 x3), (Zmod.eqb_spec y1 y3); tauto); [done|].
  destruct (apart_dec x1 y1 x2 y2) as [A12|E%inverse_neg].
  2:{ assert (WAff x1 y1 = w_neg (WAff x2 y2)) as -> by (rewrite E; symmetry; apply neg_neg). by rewrite w_cancel, w_add_neg. }
  destruct (apart_dec x3 y3 x2 y2) as [A32|E%inverse_neg].
  2:{ assert (WAff x3 y3 = w_neg (WAff x2 y2)) as -> by (rewrite E; symmetry; apply neg_neg). by rewrite w_cancel, w_add_neg. }
  destruct (line_exists _ _ _ _ C1 C2 A12) as [l L]. destruct (line_exists _ _ _ _ C3 C2 A32) as [m M].
  pose proof (w_add_on_curve Hq b H2 _ _ C1 C2) as C12. pose proof (w_add_on_curve Hq b H2 _ _ C3 C2) as C32.
  pose proof (rotate_inverse _ _ C1 C2) as I1. pose proof (rotate_inverse _ _ C3 C2) as I3.
  rewrite (add_line _ _ _ _ l C1 C2 A12 L) in *. rewrite (add_line _ _ _ _ m C3 C2 A32 M) in *.
  set (x12 := l * l - x1 - x2). set (y12 := l * (x1 - x12) - y1). set (x32 := m * m - x3 - x2). set (y32 := m * (x3 - x32) - y3).
  change (w_chord l x1 y1 x2) with (WAff x12 y12) in *. change (w_chord m x3 y3 x2) with (WAff x32 y32) in *.
  destruct (apart_dec x12 y12 x3 y3) as [A1|E].
  2:{ rewrite add_inverse by apply E. rewrite <- (inverse_neg _ _ _ _ E), (add_line _ _ _ _ m C3 C2 A32 M) in I1. symmetry. exact I1. }
  destruct (apart_dec x32 y32 x1 y1) as [A3|E].
  2:{ rewrite (add_inverse x32) by apply E. rewrite <- (inverse_neg _ _ _ _ E), (add_line _ _ _ _ l C1 C2 A12 L) in I3. exact I3. }
  destruct (line_exists _ _ _ _ C12 C3 A1) as [s S]. destruct (line_exists _ _ _ _ C32 C1 A3) as [t T].
  destruct (rotate_lines _ _ _ _ _ _ _ _ _ _ L M A1 A3 S T) as [E|E]; [by destruct Hne|].
  rewrite (add_line _ _ _ _ s C12 C3 A1 S), (add_line _ _ _ _ t C32 C1 A3 T). exact E.
Qed.

Lemma w_add_assoc P Q R : curve P -> curve Q -> curve R -> w_add (w_add P Q) R = w_add P (w_add Q R).
Proof.
  intros C1 C2 C3. rewrite w_rotate, (w_add_comm R Q) by done. apply w_add_comm; [by apply (w_add_on_curve Hq b H2)|done].
Qed.

(** ** Multiples *)

Lemma w_add_curve P Q : curve P -> curve Q -> curve (w_add P Q).
Proof. by apply (w_add_on_curve Hq b H2). Qed.
#[local] Hint Resolve w_add_curve : core.

Lemma w_mul_curve k P : curve P -> curve (w_mul k P).
Proof. intros C. unfold w_mul. induction (Z.to_nat k) as [|n IH]; [done|]. rewrite Nat.iter_succ. by apply w_add_curve. Qed.
#[local] Hint Resolve w_mul_curve : core.

Lemma w_mul_add j k P : curve P -> (0 <= j)%Z -> (0 <= k)%Z -> w_mul (j + k) P = w_add (w_mul j P) (w_mul k P).
Proof.
  intros C Hj Hk. rewrite <- (Z2Nat.id j) by done. induction (Z.to_nat j) as [|n IH]; [done|].
  assert (forall i, (0 <= i)%Z -> w_mul (Z.succ i) P = w_add P (w_mul i P)) as Hs by (intros i Hi; unfold w_mul; by rewrite Z2Nat.inj_succ by done).
  rewrite Nat2Z.inj_succ, Z.add_succ_l, !Hs, IH by lia. symmetry. by apply w_add_assoc; [|apply w_mul_curve..].
Qed.

Lemma w_mul_1 (P : wpoint q) : w_mul 1 P = P.
Proof. apply w_add_0_r. Qed.

Lemma w_double_add (P : wpoint q) : w_double P = w_add P P.
Proof. destruct P as [|x y]; [done|]. cbn [w_add]. by rewrite !(proj2 (Zmod.eqb_eq _ _)) by reflexivity. Qed.

Lemma w_shuffle A B C D : curve A -> curve B -> curve C -> curve D -> w_add (w_add A B) (w_add C D) = w_add (w_add A C) (w_add B D).
Proof.
  intros. rewrite !w_add_assoc by auto. f_equal. rewrite <- !w_add_assoc by auto. f_equal. by apply w_add_comm.
Qed.

(** The multiple by the bits of the factor. *)
Lemma w_mul_bit k P : curve P -> (0 <= k)%Z ->
  w_mul k P = w_add (w_add (w_mul (k / 2) P) (w_mul (k / 2) P)) (if Z.odd k then P else WInf).
Proof.
  intros C Hk. assert (0 <= k / 2)%Z by (apply Z.div_pos; lia). assert (k = k / 2 + k / 2 + (if Z.odd k then 1 else 0))%Z as E.
  { pose proof (Z.div_mod k 2 ltac:(lia)) as E. rewrite Zmod_odd in E. destruct (Z.odd k); lia. }
  rewrite E at 1. rewrite !w_mul_add by (done || destruct (Z.odd k); lia). f_equal. destruct (Z.odd k); [apply w_mul_1|done].
Qed.

(** The simultaneous double-and-add computes the linear combination. *)
Lemma w_combine_spec n : forall k1 k2 P1 P2, curve P1 -> curve P2 -> (0 <= k1 < 2 ^ Z.of_nat n)%Z -> (0 <= k2 < 2 ^ Z.of_nat n)%Z ->
  w_combine n k1 k2 P1 P2 = w_add (w_mul k1 P1) (w_mul k2 P2).
Proof.
  induction n as [|n IH]; intros k1 k2 P1 P2 C1 C2 H1 H3.
  { change (2 ^ Z.of_nat 0)%Z with 1%Z in *. assert (k1 = 0%Z) as -> by lia. assert (k2 = 0%Z) as -> by lia. done. }
  rewrite Nat2Z.inj_succ, Z.pow_succ_r in H1, H3 by lia. cbn [w_combine].
  assert (forall k, (0 <= k < 2 * 2 ^ Z.of_nat n)%Z -> (0 <= k / 2 < 2 ^ Z.of_nat n)%Z) as Hd
    by (intros k Hk; split; [apply Z.div_pos; lia|apply Z.div_lt_upper_bound; lia]).
  rewrite IH by auto. rewrite w_double_add, (w_mul_bit k1 P1), (w_mul_bit k2 P2) by (done || lia).
  set (A := w_mul (k1 / 2) P1). set (B := w_mul (k2 / 2) P2). assert (curve A) by (unfold A; auto). assert (curve B) by (unfold B; auto).
  rewrite (w_shuffle A B A B) by auto. rewrite (w_shuffle (w_add A A) _ (w_add B B)) by (auto; destruct (Z.odd _); done).
  destruct (Z.odd k1), (Z.odd k2); [done|by rewrite w_add_0_r|done|by rewrite w_add_0_r].
Qed.
End Group.
