(* ===== verification/P256Spec.v ===== *)
(** * P-256 verification checks the ECDSA equation

    The Jacobian formulas of [P256] compute the chord-and-tangent law, and a
    signature is accepted exactly when the affine combination of the base point
    and the key has the right abscissa. *)

From Stdlib Require Import Znumtheory Zmod Field.
From S2P Require Import Prelude Primes Octets Bn BnSpec Fe25519 FeSpec Edwards Weierstrass P256 P256Field.
From stdpp Require Import list.
#[local] Open Scope Z_scope.
#[local] Coercion ZmodDef.Zmod.to_Z : Zmod >-> Z.

#[local] Opaque p256_mont_mul p256_mod_add p256_mod_sub p256_mont_inv p256_to_mont p256_from_mont.

Section Jacobian.
Context (q : Z) (Hq : Z.prime q) (ctx : P256Mod) (Hok : mod_ok q ctx).
Abbreviation rep := (rep q ctx).
Add Field Fq_field : (Zmod.field_theory q Hq).

Lemma field_two : (1 + 1 : Zmod q)%Zmod <> 0%Zmod.
Proof.
  intros E. apply (f_equal Zmod.to_Z) in E. pose proof (mod_top q ctx Hok).
  rewrite Zmod.unsigned_add, Zmod.unsigned_1_pos, Zmod.unsigned_0, Z.mod_small in E by lia. lia.
Qed.

(** [pt] holds Jacobian coordinates of [P]. *)
Definition jac_rep (P : wpoint q) (pt : P256Point) : Prop :=
  match P with
  | WInf => exists X Y, rep X (pt_x pt) /\ rep Y (pt_y pt) /\ rep 0%Zmod (pt_z pt)
  | WAff x y => exists Z : Zmod q, Z <> 0%Zmod /\ rep (x * (Z * Z))%Zmod (pt_x pt) /\ rep (y * (Z * Z * Z))%Zmod (pt_y pt) /\ rep Z (pt_z pt)
  end.

Lemma rep_to x y a : rep x a -> x = y -> rep y a.
Proof. by intros H <-. Qed.

(** Follows the operations down to operands whose value is known. *)
Ltac mont_rep :=
  lazymatch goal with
  | |- P256Field.rep _ _ _ (p256_mont_mul _ _ _) => eapply (rep_mul q ctx Hok); mont_rep
  | |- P256Field.rep _ _ _ (p256_mod_add _ _ _) => eapply (rep_add q ctx Hok); mont_rep
  | |- P256Field.rep _ _ _ (p256_mod_sub _ _ _) => eapply (rep_sub q ctx Hok); mont_rep
  | |- _ => eassumption
  end.

Lemma infinity_rep : jac_rep WInf p256_point_set_infinity.
Proof. exists 0%Zmod, 0%Zmod. split_and!; apply (rep_zero q ctx Hok). Qed.

Lemma is_infinity_spec P pt : jac_rep P pt -> p256_point_is_infinity pt = match P with WInf => true | _ => false end.
Proof.
  unfold p256_point_is_infinity. destruct P as [|x y].
  - intros (X & Y & _ & _ & Hz). rewrite (rep_zero_iff q ctx Hok _ _ Hz). by apply Zmod.eqb_eq.
  - intros (Z & HZ & _ & _ & Hz). rewrite (rep_zero_iff q ctx Hok _ _ Hz). by destruct (Zmod.eqb_spec Z 0%Zmod).
Qed.

Lemma point_double_rep P pt : jac_rep P pt -> jac_rep (w_double P) (p256_point_double ctx pt).
Proof.
  intros H. unfold p256_point_double. rewrite (is_infinity_spec _ _ H). destruct P as [|x y]; [apply infinity_rep|].
  destruct H as (Z & HZ & Hx & Hy & Hz). cbv zeta. set (px := pt_x pt) in *. set (py := pt_y pt) in *. set (pz := pt_z pt) in *. clearbody px py pz. clear pt.
  assert (rep (Z * Z)%Zmod (p256_mont_mul ctx pz pz)) as Hd by mont_rep. set (delta := p256_mont_mul ctx pz pz) in *. clearbody delta.
  assert (rep (y * y * (Z * Z * Z) * (Z * Z * Z))%Zmod (p256_mont_mul ctx py py)) as Hg by (eapply rep_to; [mont_rep|ring]).
  set (gamma := p256_mont_mul ctx py py) in *. clearbody gamma.
  set (z2 := (Z * Z)%Zmod) in *. set (s := ((1 + 1 + 1) * (x * x) - (1 + 1 + 1))%Zmod).
  assert (rep (x * z2 * (y * y * (z2 * Z) * (z2 * Z)))%Zmod (p256_mont_mul ctx px gamma)) as Hbeta by mont_rep.
  set (beta := p256_mont_mul ctx px gamma) in *. clearbody beta.
  set (alpha0 := p256_mont_mul ctx (p256_mod_sub ctx px delta) (p256_mod_add ctx px delta)).
  assert (rep (s * (z2 * z2))%Zmod (p256_mod_add ctx (p256_mod_add ctx alpha0 alpha0) alpha0)) as Hal
    by (unfold alpha0; eapply rep_to; [mont_rep|unfold s; ring]).
  set (alpha := p256_mod_add ctx (p256_mod_add ctx alpha0 alpha0) alpha0) in *. clearbody alpha. clear alpha0.
  set (t1 := p256_mod_add ctx (p256_mod_add ctx beta beta) (p256_mod_add ctx beta beta)).
  assert (rep ((1 + 1 + 1 + 1) * (x * y * y * (z2 * z2 * z2 * z2)))%Zmod t1) as Ht1
    by (unfold t1; eapply rep_to; [mont_rep|unfold z2; ring]). clearbody t1.
  set (rx := p256_mod_sub ctx (p256_mod_sub ctx (p256_mont_mul ctx alpha alpha) t1) t1).
  assert (rep ((s * s - (1 + 1) * (1 + 1) * (x * y * y + x * y * y)) * (z2 * z2 * z2 * z2))%Zmod rx) as Hrx
    by (unfold rx; eapply rep_to; [mont_rep|ring]). clearbody rx.
  set (rz := p256_mod_sub ctx (p256_mod_sub ctx _ gamma) delta).
  assert (rep ((1 + 1) * y * (z2 * z2))%Zmod rz) as Hrz by (unfold rz; eapply rep_to; [mont_rep|unfold z2; ring]). clearbody rz.
  set (ry := p256_mod_sub ctx (p256_mont_mul ctx alpha (p256_mod_sub ctx t1 rx)) _).
  assert (rep ((s * ((1 + 1 + 1 + 1) * (x * y * y) - (s * s - (1 + 1) * (1 + 1) * (x * y * y + x * y * y))) -
      (1 + 1) * (1 + 1) * (1 + 1) * (y * y * y * y)) * (z2 * z2 * z2 * z2 * z2 * z2))%Zmod ry) as Hry
    by (unfold ry; eapply rep_to; [mont_rep|unfold z2; ring]). clearbody ry.
  cbn [w_double]. destruct (Zmod.eqb_spec y 0%Zmod) as [->|Hy0].
  - eexists _, _. split_and!; [exact Hrx|exact Hry|]. eapply rep_to; [exact Hrz|ring].
  - unfold w_chord. fold s. exists ((1 + 1) * y * (z2 * z2))%Zmod. assert ((1 + 1) * y <> 0)%Zmod as H2y by (apply (mul_nonzero Hq); [apply field_two|exact Hy0]).
    assert (z2 <> 0%Zmod) as Hz2 by (apply (mul_nonzero Hq); exact HZ).
    split; [apply (mul_nonzero Hq); [exact H2y|apply (mul_nonzero Hq); exact Hz2]|]. cbn [pt_x pt_y pt_z].
    pose proof (mdiv_mul Hq s ((1 + 1) * y)%Zmod H2y) as Hl. set (l := Zmod.mdiv s _) in *. clearbody l. rewrite <- Hl in Hrx, Hry.
    split_and!; [| |exact Hrz]; (eapply rep_to; [first [exact Hrx | exact Hry]|ring]).
Qed.

Lemma point_add_rep P Q p1 p2 : jac_rep P p1 -> jac_rep Q p2 -> jac_rep (w_add P Q) (p256_point_add ctx p1 p2).
Proof.
  intros H1 H2. unfold p256_point_add. rewrite (is_infinity_spec _ _ H1), (is_infinity_spec _ _ H2).
  destruct P as [|x1 y1]; [by destruct Q|]. destruct Q as [|x2 y2]; [exact H1|]. pose proof H1 as Hp.
  destruct H1 as (Z1 & HZ1 & X1 & Y1 & W1). destruct H2 as (Z2 & HZ2 & X2 & Y2 & W2). cbv zeta.
  set (z1z1 := p256_mont_mul ctx (pt_z p1) (pt_z p1)). assert (rep (Z1 * Z1)%Zmod z1z1) as H11 by (unfold z1z1; mont_rep). clearbody z1z1.
  set (z2z2 := p256_mont_mul ctx (pt_z p2) (pt_z p2)). assert (rep (Z2 * Z2)%Zmod z2z2) as H22 by (unfold z2z2; mont_rep). clearbody z2z2.
  set (c := (Z1 * Z2)%Zmod). assert (c <> 0)%Zmod as Hc by (apply (mul_nonzero Hq); assumption).
  set (u1 := p256_mont_mul ctx (pt_x p1) z2z2). assert (rep (x1 * (c * c))%Zmod u1) as Hu1 by (unfold u1; eapply rep_to; [mont_rep|unfold c; ring]). clearbody u1.
  set (u2 := p256_mont_mul ctx (pt_x p2) z1z1). assert (rep (x2 * (c * c))%Zmod u2) as Hu2 by (unfold u2; eapply rep_to; [mont_rep|unfold c; ring]). clearbody u2.
  set (s1 := p256_mont_mul ctx (p256_mont_mul ctx (pt_y p1) (pt_z p2)) z2z2).
  assert (rep (y1 * (c * c * c))%Zmod s1) as Hs1 by (unfold s1; eapply rep_to; [mont_rep|unfold c; ring]). clearbody s1.
  set (s2 := p256_mont_mul ctx (p256_mont_mul ctx (pt_y p2) (pt_z p1)) z1z1).
  assert (rep (y2 * (c * c * c))%Zmod s2) as Hs2 by (unfold s2; eapply rep_to; [mont_rep|unfold c; ring]). clearbody s2.
  set (h := p256_mod_sub ctx u2 u1). assert (rep ((x2 - x1) * (c * c))%Zmod h) as Hh by (unfold h; eapply rep_to; [mont_rep|ring]). clearbody h.
  set (rr := p256_mod_sub ctx s2 s1). assert (rep ((y2 - y1) * (c * c * c))%Zmod rr) as Hrr by (unfold rr; eapply rep_to; [mont_rep|ring]). clearbody rr.
  rewrite (rep_zero_iff q ctx Hok _ _ Hh), (rep_zero_iff q ctx Hok _ _ Hrr).
  assert (forall u v w : Zmod q, w <> 0%Zmod -> Zmod.eqb ((v - u) * w)%Zmod 0%Zmod = Zmod.eqb u v) as Heqb.
  { intros u v w Hw. apply eq_true_iff_eq. rewrite !Zmod.eqb_eq. split; [|intros ->; ring]. intros E.
    apply Zmod.mul_0_iff_prime in E as [E|E]; [|by destruct Hw|exact Hq]. transitivity (v - (v - u))%Zmod; [ring|]. rewrite E. ring. }
  assert (c * c <> 0)%Zmod as Hcc by (apply (mul_nonzero Hq); exact Hc). assert (c * c * c <> 0)%Zmod as Hccc by (apply (mul_nonzero Hq); [exact Hcc|exact Hc]).
  rewrite !Heqb by assumption. cbn [w_add]. destruct (Zmod.eqb_spec x1 x2) as [Ex|Ex].
  { destruct (Zmod.eqb_spec y1 y2) as [Ey|Ey]; [exact (point_double_rep _ _ Hp)|apply infinity_rep]. }
  assert (x2 - x1 <> 0)%Zmod as Hx by (intros E; apply Ex; transitivity (x2 - (x2 - x1))%Zmod; [ring|rewrite E; ring]).
  pose proof (mdiv_mul Hq (y2 - y1)%Zmod (x2 - x1)%Zmod Hx) as Hl. set (l := Zmod.mdiv _ _) in *. clearbody l. rewrite <- Hl in Hrr.
  set (e := (x2 - x1)%Zmod) in *.
  set (i := p256_mont_mul ctx (p256_mod_add ctx h h) (p256_mod_add ctx h h)).
  assert (rep ((1 + 1) * (1 + 1) * (e * e) * (c * c * c * c))%Zmod i) as Hi by (unfold i; eapply rep_to; [mont_rep|ring]). clearbody i.
  set (j := p256_mont_mul ctx h i). assert (rep ((1 + 1) * (1 + 1) * (e * e * e) * (c * c * c * c * c * c))%Zmod j) as Hj
    by (unfold j; eapply rep_to; [mont_rep|ring]). clearbody j.
  set (r2 := p256_mod_add ctx rr rr). assert (rep ((1 + 1) * (l * e) * (c * c * c))%Zmod r2) as Hr2 by (unfold r2; eapply rep_to; [mont_rep|ring]). clearbody r2.
  set (v := p256_mont_mul ctx u1 i). assert (rep ((1 + 1) * (1 + 1) * (x1 * (e * e)) * (c * c * c * c * c * c))%Zmod v) as Hv
    by (unfold v; eapply rep_to; [mont_rep|ring]). clearbody v.
  set (rx := p256_mod_sub ctx (p256_mod_sub ctx (p256_mod_sub ctx (p256_mont_mul ctx r2 r2) j) v) v).
  assert (rep ((l * l - x1 - x2) * ((1 + 1) * e * (c * c * c) * ((1 + 1) * e * (c * c * c))))%Zmod rx) as Hrx
    by (unfold rx; eapply rep_to; [mont_rep|unfold e; ring]). clearbody rx.
  set (ry := p256_mod_sub ctx (p256_mont_mul ctx r2 (p256_mod_sub ctx v rx)) _).
  assert (rep ((l * (x1 - (l * l - x1 - x2)) - y1) * ((1 + 1) * e * (c * c * c) * ((1 + 1) * e * (c * c * c)) * ((1 + 1) * e * (c * c * c))))%Zmod ry) as Hry
    by (unfold ry; eapply rep_to; [mont_rep|ring]). clearbody ry.
  exists ((1 + 1) * e * (c * c * c))%Zmod. cbn [pt_x pt_y pt_z].
  split; [apply (mul_nonzero Hq); [apply (mul_nonzero Hq); [exact field_two|exact Hx]|exact Hccc]|]. split_and!; [exact Hrx|exact Hry|].
  eapply rep_to; [mont_rep|unfold c; ring].
Qed.

(** An affine point, with the third coordinate 1. *)
Lemma affine_rep x y X Y : rep x X -> rep y Y -> jac_rep (WAff x y) (mk_point X Y (md_one ctx)).
Proof.
  intros HX HY. exists 1%Zmod. pose proof (mod_top q ctx Hok). split; [apply Zmod.one_neq_zero; lia|]. cbn [pt_x pt_y pt_z].
  split_and!; [eapply rep_to; [exact HX|ring]|eapply rep_to; [exact HY|ring]|apply (rep_one q ctx Hok)].
Qed.

Lemma bit_odd l k : limbs_ok l -> negb (limb_bit l k =? 0) = Z.odd (eval l / 2 ^ Z.of_nat k).
Proof. intros Hl. rewrite limb_bit_spec by done. rewrite Zmod_odd. by destruct (Z.odd _). Qed.

(** The loop accumulates the combination of the bits it has consumed. *)
Lemma double_scalar_loop_rep P1 P2 k1 k2 p1 p2 n k acc :
  limbs_ok k1 -> limbs_ok k2 -> jac_rep P1 p1 -> jac_rep P2 p2 -> (k <= n)%nat ->
  jac_rep (w_combine (n - k) (eval k1 / 2 ^ Z.of_nat k) (eval k2 / 2 ^ Z.of_nat k) P1 P2) acc ->
  jac_rep (w_combine n (eval k1) (eval k2) P1 P2) (double_scalar_loop ctx k1 k2 p1 p2 (p256_point_add ctx p1 p2) k acc).
Proof.
  intros Hk1 Hk2 H1 H2. revert acc. induction k as [|k IH]; intros acc Hn Ha; cbn [double_scalar_loop].
  - change (2 ^ Z.of_nat 0) with 1 in Ha. by rewrite !Z.div_1_r, Nat.sub_0_r in Ha.
  - apply IH; [lia|]. replace (n - k)%nat with (S (n - S k)) by lia. cbn [w_combine]. rewrite !bit_odd by done.
    assert (forall z, z / 2 ^ Z.of_nat k / 2 = z / 2 ^ Z.of_nat (S k)) as Hd.
    { intros z. rewrite Z.div_div by (try apply Z.pow_pos_nonneg; lia). f_equal. rewrite Nat2Z.inj_succ, Z.pow_succ_r by lia. ring. }
    rewrite !Hd. pose proof (point_double_rep _ _ Ha) as Hdbl.
    destruct (Z.odd (eval k1 / _)), (Z.odd (eval k2 / _)); cbn [andb]; [..|exact Hdbl]; apply point_add_rep; try done; by apply point_add_rep.
Qed.

Lemma double_scalar_mul_rep P1 P2 k1 k2 p1 p2 :
  limbs_ok k1 -> limbs_ok k2 -> jac_rep P1 p1 -> jac_rep P2 p2 ->
  jac_rep (w_combine 256 (eval k1) (eval k2) P1 P2) (p256_double_scalar_mul ctx k1 p1 k2 p2).
Proof.
  intros Hk1 Hk2 H1 H2. unfold p256_double_scalar_mul. apply double_scalar_loop_rep; [done..|]. rewrite Nat.sub_diag. apply infinity_rep.
Qed.

Lemma on_curve_spec x y X Y :
  eval (p256_from_be P256_B) < q -> rep x X -> rep y Y ->
  p256_point_is_on_curve ctx X Y = true <-> w_on_curve (Zmod.of_Z q (os2ip P256_B)) (WAff x y).
Proof.
  intros HB Hx Hy. unfold p256_point_is_on_curve. cbv zeta.
  destruct (p256_from_be_spec P256_B ltac:(by apply bytes_ok_check) eq_refl) as [B1 B2].
  pose proof (rep_to_mont q ctx Hok _ B1 HB) as Hb. rewrite B2 in Hb.
  set (bm := p256_to_mont ctx (p256_from_be P256_B)) in *. clearbody bm. set (b := Zmod.of_Z q (os2ip P256_B)) in *. clearbody b.
  assert (rep (y * y)%Zmod (p256_mont_mul ctx Y Y)) as Hl by mont_rep. set (left := p256_mont_mul ctx Y Y) in *. clearbody left.
  set (right := p256_mod_add ctx _ bm). assert (rep (x * x * x - (1 + 1 + 1) * x + b)%Zmod right) as Hr
    by (unfold right; eapply rep_to; [mont_rep|ring]). clearbody right.
  destruct (rep_limbs q ctx Hok _ _ Hl) as [L1 _]. destruct (rep_limbs q ctx Hok _ _ Hr) as [R1 _].
  rewrite p256_cmp_eq by done. rewrite Z.eqb_eq. cbn [w_on_curve]. split.
  - intros E. rewrite (limbs8_inj _ _ L1 R1 E) in Hl. exact (rep_eq q ctx Hok _ _ _ Hl Hr).
  - intros E. rewrite E in Hl. by rewrite (rep_inj q ctx Hok _ _ _ Hl Hr).
Qed.

Lemma affine_x_spec x y pt : jac_rep (WAff x y) pt -> limbs8 (p256_affine_x ctx pt) /\ eval (p256_affine_x ctx pt) = x.
Proof.
  intros (Z & HZ & Hx & _ & Hz). unfold p256_affine_x. cbv zeta. apply (rep_from_mont q ctx Hok).
  assert (Z * Z <> 0)%Zmod as HZZ by (apply (mul_nonzero Hq); exact HZ).
  eapply rep_to; [eapply (rep_mul q ctx Hok); [exact Hx|apply (rep_inv q Hq ctx Hok); [mont_rep|exact HZZ]]|]. field. exact HZ.
Qed.

(** Division by [s] in the field of scalars. *)
Lemma scalars_spec e r s :
  limbs8 e -> eval e < q -> limbs8 r -> eval r < q -> limbs8 s -> 0 < eval s < q ->
  let '(u1, u2) := p256_scalars ctx e r s in
  limbs8 u1 /\ limbs8 u2 /\
  eval u1 = (Zmod.of_Z q (eval e) * Zmod.inv (Zmod.of_Z q (eval s)))%Zmod /\
  eval u2 = (Zmod.of_Z q (eval r) * Zmod.inv (Zmod.of_Z q (eval s)))%Zmod.
Proof.
  intros He Be Hr Br Hs Bs. unfold p256_scalars. cbv zeta beta iota.
  assert (Zmod.of_Z q (eval s) <> 0%Zmod) as Hnz by (apply Zmod.of_Z_nz; rewrite Z.mod_small; lia).
  pose proof (rep_inv q Hq ctx Hok _ _ (rep_to_mont q ctx Hok s Hs ltac:(lia)) Hnz) as Hw.
  pose proof (rep_to_mont q ctx Hok e He Be) as H1. pose proof (rep_to_mont q ctx Hok r Hr Br) as H2.
  destruct (rep_from_mont q ctx Hok _ _ (rep_mul q ctx Hok _ _ _ _ H1 Hw)) as [U1 E1].
  destruct (rep_from_mont q ctx Hok _ _ (rep_mul q ctx Hok _ _ _ _ H2 Hw)) as [U2 E2].
  exact (conj U1 (conj U2 (conj E1 E2))).
Qed.
End Jacobian.

Lemma reduce_once_spec v m : limbs8 v -> limbs8 m -> eval v < 2 * eval m ->
  limbs8 (p256_reduce_once v m) /\ eval (p256_reduce_once v m) = eval v mod eval m.
Proof.
  intros Hv Hm Hlt. unfold p256_reduce_once. rewrite p256_cmp_ge by done. pose proof (limbs8_bound v Hv). pose proof (limbs8_bound m Hm).
  destruct (Z.leb_spec (eval m) (eval v)); [|split; [done|]; rewrite Z.mod_small; lia].
  destruct (sub_spec v m) as (out & Ho & S1 & S2 & S3); [apply Hv|apply Hm|destruct Hv, Hm; congruence|].
  change (tamga_bn_sub v m) with (p256_sub_raw v m) in *. rewrite (proj2 Hv) in S2, S3. rewrite W_8 in S3.
  pose proof (limbs8_bound _ (conj S1 S2)). assert (out = 0) as -> by lia. split; [done|].
  rewrite <- (Z_mod_plus_full _ (-1)), Z.mod_small; lia.
Qed.

(** ** The parameters *)

Definition p256 : Z := 2 ^ 256 - 2 ^ 224 + 2 ^ 192 + 2 ^ 96 - 1.
Definition n256 : Z := 0xffffffff00000000ffffffffffffffffbce6faada7179e84f3b9cac2fc632551.
Definition b256 : Zmod p256 := Zmod.of_Z _ 0x5ac635d8aa3a93e7b3ebbd55769886bc651d06b0cc53b0f63bce3c3e27d2604b.
Definition G256 : wpoint p256 :=
  WAff (Zmod.of_Z _ 0x6b17d1f2e12c4247f8bce6e563a440f277037d812deb33a0f4a13945d898c296)
       (Zmod.of_Z _ 0x4fe342e2fe1a7f9b8ee7eb4a7c0f9e162bce33576b315ececbb6406837bf51f5).

Lemma p256_prime : Z.prime p256.
Proof. exact prime_p256. Qed.

Lemma n256_prime : Z.prime n256.
Proof. exact prime_n256. Qed.

Lemma fp_ok : mod_ok p256 (p256_mod_init P256_P).
Proof.
  assert (os2ip P256_P = p256) as <- by (vm_compute; reflexivity).
  apply p256_mod_init_ok; [by apply bytes_ok_check|reflexivity|vm_compute; reflexivity|vm_compute; reflexivity].
Qed.

Lemma fn_ok : mod_ok n256 (p256_mod_init P256_N).
Proof.
  assert (os2ip P256_N = n256) as <- by (vm_compute; reflexivity).
  apply p256_mod_init_ok; [by apply bytes_ok_check|reflexivity|vm_compute; reflexivity|vm_compute; reflexivity].
Qed.

(** The base point is on the curve. *)
Lemma G256_on_curve : w_on_curve b256 G256.
Proof. apply Zmod.unsigned_inj. vm_compute. reflexivity. Qed.

(** ** Verification *)

(** ECDSA, FIPS 186-5, section 6.4.2, for a key with coordinates [X] and [Y], a
    digest [e] and a signature [r], [s], as integers: the key is a point of the
    curve, [r] and [s] are in range, and the abscissa of [u1 G + u2 Q] is [r]
    modulo the group order. *)
Definition ecdsa_valid (X Y e r s : Z) : Prop :=
  let Q := WAff (Zmod.of_Z p256 X) (Zmod.of_Z p256 Y) in
  let w := Zmod.inv (Zmod.of_Z n256 s) in
  let u1 := (Zmod.of_Z n256 e * w)%Zmod in
  let u2 := (Zmod.of_Z n256 r * w)%Zmod in
  X < p256 /\ Y < p256 /\ w_on_curve b256 Q /\ 0 < r < n256 /\ 0 < s < n256 /\
  exists x y, w_add (w_mul u1 G256) (w_mul u2 Q) = WAff x y /\ (x : Z) mod n256 = r.

(** The curve has no singular point. *)
Lemma p256_two : (1 + 1 : Zmod p256)%Zmod <> 0%Zmod.
Proof. exact (field_two p256 _ fp_ok). Qed.

Lemma p256_nonsingular (x : Zmod p256) : w_on_curve b256 (WAff x 0%Zmod) -> (x * x + x * x + x * x + - (1 + 1 + 1) <> 0)%Zmod.
Proof.
  apply (w_nonsingular p256_prime); intros E; apply (f_equal Zmod.to_Z) in E; vm_compute in E; discriminate E.
Qed.

Lemma load_key_spec x y :
  bytes_ok x -> length x = 32%nat -> bytes_ok y -> length y = 32%nat ->
  let Q := WAff (Zmod.of_Z p256 (os2ip x)) (Zmod.of_Z p256 (os2ip y)) in
  match p256_load_key (p256_mod_init P256_P) x y with
  | Some pt => os2ip x < p256 /\ os2ip y < p256 /\ w_on_curve b256 Q /\ jac_rep p256 (p256_mod_init P256_P) Q pt
  | None => ~ (os2ip x < p256 /\ os2ip y < p256 /\ w_on_curve b256 Q)
  end.
Proof.
  intros Hx Lx Hy Ly Q. pose proof fp_ok as Hok. set (fp := p256_mod_init P256_P) in *. clearbody fp. unfold p256_load_key. cbv zeta.
  destruct (p256_from_be_spec x Hx Lx) as [X1 X2]. destruct (p256_from_be_spec y Hy Ly) as [Y1 Y2].
  set (qx := p256_from_be x) in *. set (qy := p256_from_be y) in *. clearbody qx qy.
  rewrite !p256_cmp_ge by (done || apply (mod_limbs p256 fp Hok)). rewrite X2, Y2, (mod_value p256 fp Hok).
  destruct (Z.leb_spec p256 (os2ip x)); cbn [orb]; [lia|]. destruct (Z.leb_spec p256 (os2ip y)); [lia|].
  pose proof (rep_to_mont p256 fp Hok qx X1 ltac:(lia)) as RX. pose proof (rep_to_mont p256 fp Hok qy Y1 ltac:(lia)) as RY. rewrite X2 in RX. rewrite Y2 in RY.
  assert (eval (p256_from_be P256_B) < p256) as HB by (vm_compute; reflexivity).
  pose proof (on_curve_spec p256 p256_prime fp Hok _ _ _ _ HB RX RY) as HC. cbn [pt_x pt_y].
  assert (Zmod.of_Z p256 (os2ip P256_B) = b256) as EB by (apply Zmod.unsigned_inj; vm_compute; reflexivity). rewrite EB in HC.
  destruct (p256_point_is_on_curve fp _ _); cbn [negb]; [|intros (_ & _ & C); apply HC in C; discriminate C].
  assert (w_on_curve b256 Q) as C by (by apply HC).
  rewrite !p256_is_zero_spec by (apply X1 || apply Y1). rewrite X2, Y2.
  destruct (Z.eqb_spec (os2ip x) 0) as [E1|E1]; [destruct (Z.eqb_spec (os2ip y) 0) as [E2|E2]|]; cbn [andb].
  - intros _. unfold Q in C. rewrite E1, E2 in C. apply (f_equal Zmod.to_Z) in C. vm_compute in C. discriminate C.
  - split_and!; [done|done|exact C|]. apply (affine_rep p256 p256_prime fp Hok); [exact RX|exact RY].
  - split_and!; [done|done|exact C|]. apply (affine_rep p256 p256_prime fp Hok); [exact RX|exact RY].
Qed.

Lemma base_rep : let fp := p256_mod_init P256_P in
  jac_rep p256 fp G256 (mk_point (p256_to_mont fp (p256_from_be P256_GX)) (p256_to_mont fp (p256_from_be P256_GY)) (md_one fp)).
Proof.
  intros fp. pose proof fp_ok as Hok. fold fp in Hok. clearbody fp.
  destruct (p256_from_be_spec P256_GX ltac:(by apply bytes_ok_check) eq_refl) as [X1 X2].
  destruct (p256_from_be_spec P256_GY ltac:(by apply bytes_ok_check) eq_refl) as [Y1 Y2].
  assert (os2ip P256_GX < p256) as BX by (vm_compute; reflexivity). assert (os2ip P256_GY < p256) as BY by (vm_compute; reflexivity).
  rewrite <- X2 in BX. rewrite <- Y2 in BY.
  pose proof (rep_to_mont p256 fp Hok _ X1 BX) as RX. pose proof (rep_to_mont p256 fp Hok _ Y1 BY) as RY. rewrite X2 in RX. rewrite Y2 in RY.
  exact (affine_rep p256 p256_prime fp Hok _ _ _ _ RX RY).
Qed.

(** The end of the verification: the abscissa against [r]. *)
Lemma abscissa_spec R pt r :
  jac_rep p256 (p256_mod_init P256_P) R pt -> limbs8 r ->
  (if p256_point_is_infinity pt then false
   else p256_cmp (p256_reduce_once (p256_affine_x (p256_mod_init P256_P) pt) (md_m (p256_mod_init P256_N))) r =? 0) = true <->
  exists x y, R = WAff x y /\ (x : Z) mod n256 = eval r.
Proof.
  intros HR Hr. pose proof fp_ok as Hp. pose proof fn_ok as Hn. set (fp := p256_mod_init P256_P) in *. set (fn := p256_mod_init P256_N) in *. clearbody fp fn.
  rewrite (is_infinity_spec p256 fp Hp _ _ HR). destruct R as [|x y]; [split; [discriminate|intros (? & ? & E & _); discriminate E]|].
  destruct (affine_x_spec p256 p256_prime fp Hp _ _ _ HR) as [A1 A2]. set (ax := p256_affine_x fp pt) in *. clearbody ax.
  assert (0 <= (x : Z) < p256) as Bx by (apply Zmod.unsigned_pos_bound; reflexivity). assert (p256 < 2 * n256) as B2 by reflexivity.
  destruct (reduce_once_spec ax (md_m fn) A1 (mod_limbs n256 fn Hn)) as [R1 R2]; [rewrite A2, (mod_value n256 fn Hn); lia|].
  rewrite p256_cmp_eq, R2, A2, (mod_value n256 fn Hn), Z.eqb_eq by done. split; [by eauto|]. intros (x' & y' & [= <- <-] & E). exact E.
Qed.

(** [r] or [s] out of range. *)
Lemma scalar_range v : limbs8 v ->
  p256_is_zero v || (p256_cmp v (md_m (p256_mod_init P256_N)) >=? 0) = negb ((0 <? eval v) && (eval v <? n256)).
Proof.
  intros Hv. pose proof fn_ok as Hn. set (fn := p256_mod_init P256_N) in *. clearbody fn.
  rewrite p256_is_zero_spec by apply Hv. rewrite p256_cmp_ge by (done || apply (mod_limbs n256 fn Hn)).
  rewrite (mod_value n256 fn Hn). pose proof (limbs8_bound v Hv). lia.
Qed.

(** P-256 verification accepts a key, a digest and a signature, 32 octets
    each number, exactly when ECDSA verification does: the coordinates are
    reduced and on the curve, [r] and [s] lie between 1 and the group order, and
    the abscissa of [u1 G + u2 Q] is [r] modulo the order, with [u1 = e / s] and
    [u2 = r / s] in the scalar field. The combination is that of the
    chord-and-tangent law; the code reaches it with Montgomery arithmetic on
    32-bit limbs in Jacobian coordinates, two inversions by Fermat's theorem
    included. *)
Lemma p256_verify_iff x y digest r s :
  (forall b, In b [x; y; digest; r; s] -> bytes_ok b /\ length b = 32%nat) ->
  tamga_p256_verify (Some x) (Some y) (Some digest) (Some r) (Some s) = true <->
  ecdsa_valid (os2ip x) (os2ip y) (os2ip digest) (os2ip r) (os2ip s).
Proof.
  intros Hb. destruct (Hb x) as [Bx Lx]; [simpl; tauto|]. destruct (Hb y) as [By Ly]; [simpl; tauto|].
  destruct (Hb digest) as [Bd Ld]; [simpl; tauto|]. destruct (Hb r) as [Br Lr]; [simpl; tauto|]. destruct (Hb s) as [Bs Ls]; [simpl; tauto|]. clear Hb.
  unfold tamga_p256_verify, ecdsa_valid. cbv zeta. pose proof (load_key_spec x y Bx Lx By Ly) as HK. cbv zeta in HK.
  destruct (p256_load_key _ x y) as [q|]; [|split; [discriminate|intros (? & ? & ? & _); destruct HK; split_and!; assumption]].
  destruct HK as (Kx & Ky & KC & KR). set (Q := WAff _ _) in *. clearbody Q.
  destruct (p256_from_be_spec r Br Lr) as [R1 R2]. destruct (p256_from_be_spec s Bs Ls) as [S1 S2]. destruct (p256_from_be_spec digest Bd Ld) as [D1 D2].
  set (rv := p256_from_be r) in *. set (sv := p256_from_be s) in *. set (dv := p256_from_be digest) in *. clearbody rv sv dv.
  rewrite (scalar_range rv R1), (scalar_range sv S1). rewrite <- R2, <- S2, <- D2.
  destruct (Z.ltb_spec 0 (eval rv)); cbn [andb negb]; [|split; [discriminate|lia]].
  destruct (Z.ltb_spec (eval rv) n256); cbn [andb negb]; [|split; [discriminate|lia]].
  destruct (Z.ltb_spec 0 (eval sv)); cbn [andb negb]; [|split; [discriminate|lia]].
  destruct (Z.ltb_spec (eval sv) n256); cbn [andb negb]; [|split; [discriminate|lia]].
  pose proof fn_ok as Hn. assert (2 ^ 256 < 2 * n256) as B2 by reflexivity. pose proof (limbs8_bound dv D1).
  destruct (reduce_once_spec dv (md_m (p256_mod_init P256_N)) D1 (mod_limbs _ _ Hn)) as [E1 E2]; [rewrite (mod_value _ _ Hn); lia|].
  rewrite (mod_value _ _ Hn) in E2. set (ev := p256_reduce_once dv _) in *. clearbody ev.
  assert (eval ev < n256) as E3 by (rewrite E2; apply Z.mod_pos_bound; reflexivity).
  pose proof (scalars_spec n256 n256_prime _ Hn ev rv sv E1 E3 R1 ltac:(lia) S1 ltac:(lia)) as HS.
  destruct (p256_scalars _ ev rv sv) as [u1 u2]. destruct HS as (U1 & U2 & F1 & F2). rewrite E2, Zmod.of_Z_mod in F1. rewrite <- F1, <- F2.
  pose proof (double_scalar_mul_rep p256 p256_prime _ fp_ok G256 Q u1 u2 _ q (proj1 U1) (proj1 U2) base_rep KR) as HM.
  rewrite (w_combine_spec p256_prime b256 p256_two p256_nonsingular) in HM
    by (first [exact G256_on_curve | exact KC | exact (limbs8_bound u1 U1) | exact (limbs8_bound u2 U2)]).
  pose proof (abscissa_spec _ _ rv HM R1) as HA. split.
  - intros Hv. apply HA in Hv. split_and!; assumption.
  - intros (_ & _ & _ & _ & _ & Hv). apply HA. exact Hv.
Qed.
