(* ===== verification/Ecdsa.v ===== *)
(** * ECDSA keys and signatures in DER: [src/src/crypto/ecdsa.c]

    The two encodings of a P-256 public key and the DER encoding of a
    signature, in front of [P256]. A pointer into the key is the 32 octets read
    through it; an output array filled before a failure is not kept. *)

From Stdlib Require Import String Zmod.
From S2P Require Import Prelude Octets Sha2 Hkdf Der Bn BnSpec Rsa RsaSpec FeSpec Weierstrass P256 P256Field P256Spec.
From stdpp Require Import list.
#[local] Open Scope Z_scope.

Definition TAMGA_OID_EC_PUBLIC_KEY : bytes := [0x2a; 0x86; 0x48; 0xce; 0x3d; 0x02; 0x01].
Definition TAMGA_OID_PRIME256V1 : bytes := [0x2a; 0x86; 0x48; 0xce; 0x3d; 0x03; 0x01; 0x07].
Definition TAMGA_P256_POINT_LEN : nat := 65.

Definition tamga_ecdsa_extract_point (public_key : option bytes) : option (bytes * bytes) :=
  match public_key with
  | None => None
  | Some key =>
      if (length key =? TAMGA_P256_POINT_LEN)%nat && (at_ key 0 =? 0x04)
      then Some (take 32 (drop 1 key), take 32 (drop 33 key))
      else
        let outer := tamga_der_init public_key in
        '(sequence, outer) ← tamga_der_expect outer TAMGA_DER_SEQUENCE;
        if negb (tamga_der_at_end outer) then None
        else
          let inner := tamga_der_init (Some sequence) in
          '(algorithm_content, inner) ← tamga_der_expect inner TAMGA_DER_SEQUENCE;
          let algorithm := tamga_der_init (Some algorithm_content) in
          algorithm ← tamga_der_expect_oid algorithm TAMGA_OID_EC_PUBLIC_KEY;
          algorithm ← tamga_der_expect_oid algorithm TAMGA_OID_PRIME256V1;
          if negb (tamga_der_at_end algorithm) then None
          else
            '(point, inner) ← tamga_der_read_bit_string inner;
            if negb (tamga_der_at_end inner) then None
            else if negb (length point =? TAMGA_P256_POINT_LEN)%nat || negb (at_ point 0 =? 0x04) then None
            else Some (take 32 (drop 1 point), take 32 (drop 33 point))
  end.

Definition tamga_ecdsa_pad_scalar (value : bytes) : option bytes :=
  if (length value =? 0)%nat || (32 <? length value)%nat then None
  else Some (replicate (32 - length value) 0 ++ value).

Definition tamga_ecdsa_parse_signature (signature : option bytes) : option (bytes * bytes) :=
  match signature with
  | None => None
  | Some _ =>
      let outer := tamga_der_init signature in
      '(sequence, outer) ← tamga_der_expect outer TAMGA_DER_SEQUENCE;
      if negb (tamga_der_at_end outer) then None
      else
        let inner := tamga_der_init (Some sequence) in
        '(r_value, inner) ← tamga_der_read_unsigned inner;
        '(s_value, inner) ← tamga_der_read_unsigned inner;
        if negb (tamga_der_at_end inner) then None
        else
          r ← tamga_ecdsa_pad_scalar r_value;
          s ← tamga_ecdsa_pad_scalar s_value;
          Some (r, s)
  end.

Definition tamga_ecdsa_p256_verify (public_key message : option bytes) (message_len : Z) (signature : option bytes) : bool :=
  if match message with None => message_len >? 0 | Some _ => false end then false
  else
    match tamga_ecdsa_extract_point public_key with
    | None => false
    | Some (x, y) =>
        match tamga_ecdsa_parse_signature signature with
        | None => false
        | Some (r, s) =>
            let digest := tamga_sha256 message in
            tamga_p256_verify (Some x) (Some y) (Some digest) (Some r) (Some s)
        end
    end.

(** ** The encodings *)

(** The uncompressed point of SEC 1, section 2.3.3. *)
Definition ec_point (x y : bytes) : bytes := 4 :: x ++ y.

(** SubjectPublicKeyInfo of RFC 5480 for the named curve prime256v1. *)
Definition ec_spki (x y : bytes) : bytes :=
  tlv TAMGA_DER_SEQUENCE
    (tlv TAMGA_DER_SEQUENCE (tlv TAMGA_DER_OID [42; 134; 72; 206; 61; 2; 1] ++ tlv TAMGA_DER_OID [42; 134; 72; 206; 61; 3; 1; 7]) ++
     tlv TAMGA_DER_BIT_STRING (0 :: ec_point x y)).

Definition ecdsa_key_of (key x y : bytes) : Prop :=
  length x = 32%nat /\ length y = 32%nat /\ (key = ec_point x y \/ key = ec_spki x y).

(** ECDSA-Sig-Value of RFC 3279 with magnitudes [r] and [s]. *)
Definition ecdsa_sig_value (r s : bytes) : bytes :=
  tlv TAMGA_DER_SEQUENCE (tlv TAMGA_DER_INTEGER (int_content r) ++ tlv TAMGA_DER_INTEGER (int_content s)).

Definition ecdsa_sig_of (signature r s : bytes) : Prop :=
  magnitude r /\ magnitude s /\ zlen r <= 32 /\ zlen s <= 32 /\ signature = ecdsa_sig_value r s.

Lemma point_split point :
  length point = 65%nat -> at_ point 0 = 4 ->
  exists x y, length x = 32%nat /\ length y = 32%nat /\ point = ec_point x y /\ take 32 (drop 1 point) = x /\ take 32 (drop 33 point) = y.
Proof.
  intros Hl H4. destruct point as [|b p]; [done|]. rewrite at_0 in H4. subst b. injection Hl as Hl.
  exists (take 32 p), (drop 32 p). rewrite length_take, length_drop, Hl. split_and!; [done|done|unfold ec_point; by rewrite take_drop|done|].
  change (drop 33 (4 :: p)) with (drop 32 p). by rewrite take_ge by (rewrite length_drop; lia).
Qed.

Lemma point_parts x y : length x = 32%nat -> length y = 32%nat ->
  length (ec_point x y) = 65%nat /\ take 32 (drop 1 (ec_point x y)) = x /\ take 32 (drop 33 (ec_point x y)) = y.
Proof.
  intros Hx Hy. unfold ec_point. cbn [length]. rewrite length_app, Hx, Hy. split_and!; [done| |].
  - change (drop 1 (4 :: x ++ y)) with (x ++ y). rewrite <- Hx. apply take_app_length.
  - change (drop 33 (4 :: x ++ y)) with (drop 32 (x ++ y)). rewrite (drop_app_length' x y 32) by done. by rewrite take_ge by lia.
Qed.

Lemma ec_spki_complete x y :
  bytes_ok (ec_spki x y) -> length x = 32%nat -> length y = 32%nat -> tamga_ecdsa_extract_point (Some (ec_spki x y)) = Some (x, y).
Proof.
  intros Hok Hx Hy. destruct (point_parts x y Hx Hy) as (Hl & Ex & Ey).
  unfold tamga_ecdsa_extract_point, tamga_der_init, TAMGA_P256_POINT_LEN. cbn [default from_option id].
  unfold ec_spki in *. set (p := ec_point x y) in *. set (alg := tlv TAMGA_DER_OID _ ++ _) in *. set (bits := tlv TAMGA_DER_BIT_STRING (0 :: p)) in *.
  set (sq := tlv TAMGA_DER_SEQUENCE alg ++ bits) in *. rewrite andb_comm. cbn [tlv at_ nth Z.eqb andb].
  fold (tlv TAMGA_DER_SEQUENCE sq). assert (zlen (0 :: p) = 66) as Lp by (cbn [length]; lia).
  assert (zlen bits = 68) as Lb by (unfold bits, tlv; rewrite Lp; change (der_length 66) with [66]; cbn [length app]; lia).
  assert (zlen sq = 89) as Lsq by (unfold sq; rewrite length_app, Nat2Z.inj_add, Lb; done).
  rewrite <- (app_nil_r (tlv _ sq)) in Hok. destruct (tlv_content_bytes _ _ _ Hok) as [Hsb _].
  destruct (tlv_content_bytes TAMGA_DER_SEQUENCE alg bits Hsb) as [Hab Hib]. rewrite app_nil_r in Hok.
  der_step (proj2 (der_expect_iff _ TAMGA_DER_SEQUENCE sq [] Hok ltac:(low_tag_tac))).
  der_step (proj2 (der_expect_iff _ TAMGA_DER_SEQUENCE alg bits Hsb ltac:(low_tag_tac))).
  der_step (proj2 (expect_oid_iff alg TAMGA_OID_EC_PUBLIC_KEY (tlv TAMGA_DER_OID TAMGA_OID_PRIME256V1) Hab ltac:(done))).
  destruct (tlv_content_bytes TAMGA_DER_OID TAMGA_OID_EC_PUBLIC_KEY (tlv TAMGA_DER_OID TAMGA_OID_PRIME256V1) Hab) as [_ Ha1].
  der_step (proj2 (expect_oid_iff _ TAMGA_OID_PRIME256V1 [] Ha1 ltac:(done))).
  der_step (proj2 (read_bit_string_iff bits p [] Hib)). by rewrite Hl, Ex, Ey.
Qed.

Lemma extract_point_iff key x y :
  bytes_ok key -> tamga_ecdsa_extract_point (Some key) = Some (x, y) <-> ecdsa_key_of key x y.
Proof.
  intros Hok. unfold tamga_ecdsa_extract_point, tamga_der_init, TAMGA_P256_POINT_LEN. cbn [default from_option id]. split.
  - destruct ((length key =? 65)%nat && (at_ key 0 =? 4)) eqn:Eraw.
    { apply andb_prop in Eraw as [El E4]. apply Nat.eqb_eq in El. apply Z.eqb_eq in E4.
      destruct (point_split key El E4) as (x' & y' & Hx & Hy & E & -> & ->). intros [= <- <-]. split_and!; [done|done|by left]. }
    destruct (tamga_der_expect key TAMGA_DER_SEQUENCE) as [[sq r]|] eqn:Es; [|done]. cbn [mbind option_bind].
    apply der_expect_iff in Es as [-> _]; [|done|low_tag_tac].
    destruct (tamga_der_at_end r) eqn:Er; cbn [negb]; [|done]. apply at_end_iff in Er as ->. apply tlv_content_bytes in Hok as [Hsb _].
    destruct (tamga_der_expect sq TAMGA_DER_SEQUENCE) as [[alg inner]|] eqn:Ea; [|done]. cbn [mbind option_bind].
    apply der_expect_iff in Ea as [-> _]; [|done|low_tag_tac]. apply tlv_content_bytes in Hsb as [Hab Hib].
    destruct (tamga_der_expect_oid alg TAMGA_OID_EC_PUBLIC_KEY) as [a1|] eqn:E1; [|done]. cbn [mbind option_bind].
    apply expect_oid_iff in E1 as ->; [|done|done]. apply tlv_content_bytes in Hab as [_ Ha1].
    destruct (tamga_der_expect_oid a1 TAMGA_OID_PRIME256V1) as [a2|] eqn:E2; [|done]. cbn [mbind option_bind].
    apply expect_oid_iff in E2 as ->; [|done|done].
    destruct (tamga_der_at_end a2) eqn:Er2; cbn [negb]; [|done]. apply at_end_iff in Er2 as ->.
    destruct (tamga_der_read_bit_string inner) as [[p r3]|] eqn:Eb; [|done]. cbn [mbind option_bind].
    apply read_bit_string_iff in Eb as [-> _]; [|done].
    destruct (tamga_der_at_end r3) eqn:Er3; cbn [negb]; [|done]. apply at_end_iff in Er3 as ->.
    destruct (Nat.eqb_spec (length p) 65) as [El|]; [|done]. destruct (Z.eqb_spec (at_ p 0) 4) as [E4|]; [|done]. cbn [negb orb].
    destruct (point_split p El E4) as (x' & y' & Hx & Hy & E & -> & ->). intros [= <- <-]. split_and!; [done|done|right].
    unfold ec_spki. by rewrite !app_nil_r, E.
  - intros (Hx & Hy & [->| ->]); [|exact (ec_spki_complete x y Hok Hx Hy)].
    destruct (point_parts x y Hx Hy) as (Hl & Ex & Ey). by rewrite Hl, Ex, Ey.
Qed.

(** The scalar as 32 octets. *)
Definition scalar_octets (v : bytes) : bytes := replicate (32 - length v) 0 ++ v.

Lemma pad_scalar_iff v out : magnitude v -> tamga_ecdsa_pad_scalar v = Some out <-> zlen v <= 32 /\ out = scalar_octets v.
Proof.
  intros Hm%magnitude_nonempty. unfold tamga_ecdsa_pad_scalar. destruct (Nat.eqb_spec (length v) 0); [lia|]. cbn [orb].
  destruct (Nat.ltb_spec 32 (length v)); [split; [done|lia]|]. split; [intros [= <-]; split; [lia|done]|by intros [_ ->]].
Qed.

Lemma parse_signature_iff signature r s :
  bytes_ok signature ->
  tamga_ecdsa_parse_signature (Some signature) = Some (r, s) <->
  exists rv sv, ecdsa_sig_of signature rv sv /\ r = scalar_octets rv /\ s = scalar_octets sv.
Proof.
  intros Hok. unfold tamga_ecdsa_parse_signature, tamga_der_init, ecdsa_sig_of, ecdsa_sig_value. cbn [default from_option id]. split.
  - destruct (tamga_der_expect signature TAMGA_DER_SEQUENCE) as [[sq r0]|] eqn:Es; [|done]. cbn [mbind option_bind].
    apply der_expect_iff in Es as [-> _]; [|done|low_tag_tac].
    destruct (tamga_der_at_end r0) eqn:Er; cbn [negb]; [|done]. apply at_end_iff in Er as ->. apply tlv_content_bytes in Hok as [Hsb _].
    destruct (tamga_der_read_unsigned sq) as [[rv r1]|] eqn:E1; [|done]. cbn [mbind option_bind].
    apply read_unsigned_iff in E1 as (-> & Hr & _); [|done]. apply tlv_content_bytes in Hsb as [_ Hr1].
    destruct (tamga_der_read_unsigned r1) as [[sv r2]|] eqn:E2; [|done]. cbn [mbind option_bind].
    apply read_unsigned_iff in E2 as (-> & Hs & _); [|done].
    destruct (tamga_der_at_end r2) eqn:Er2; cbn [negb]; [|done]. apply at_end_iff in Er2 as ->. rewrite !app_nil_r.
    destruct (tamga_ecdsa_pad_scalar rv) as [ro|] eqn:P1; [|done]. cbn [mbind option_bind].
    destruct (tamga_ecdsa_pad_scalar sv) as [so|] eqn:P2; [|done]. cbn [mbind option_bind]. intros [= <- <-].
    apply pad_scalar_iff in P1 as [? ->]; [|done]. apply pad_scalar_iff in P2 as [? ->]; [|done]. exists rv, sv. by split_and!.
  - intros (rv & sv & (Hr & Hs & Lr & Ls & ->) & -> & ->). set (sq := tlv _ (int_content rv) ++ tlv _ (int_content sv)) in *.
    rewrite <- (app_nil_r (tlv _ sq)) in Hok. destruct (tlv_content_bytes _ _ _ Hok) as [Hsb _]. rewrite app_nil_r in Hok.
    destruct (tlv_content_bytes TAMGA_DER_INTEGER (int_content rv) _ Hsb) as [_ Hr1].
    pose proof (int_content_length rv). pose proof (int_content_length sv).
    assert (forall tag c, zlen c <= 33 -> zlen (tlv tag c) <= 35) as Ht.
    { intros tag c Hc. unfold tlv, der_length. cbn [length]. rewrite length_app. destruct (Z.ltb_spec (zlen c) 128); cbn [length]; lia. }
    assert (zlen sq < 2 ^ 32) as Lsq.
    { unfold sq. rewrite length_app, Nat2Z.inj_add. pose proof (Ht TAMGA_DER_INTEGER (int_content rv)). pose proof (Ht TAMGA_DER_INTEGER (int_content sv)). lia. }
    der_step (proj2 (der_expect_iff _ TAMGA_DER_SEQUENCE sq [] Hok ltac:(low_tag_tac))).
    der_step (proj2 (read_unsigned_iff sq rv (tlv TAMGA_DER_INTEGER (int_content sv)) Hsb)). der_step (proj2 (read_unsigned_iff _ sv [] Hr1)).
    rewrite (proj2 (pad_scalar_iff rv _ Hr) (conj Lr eq_refl)), (proj2 (pad_scalar_iff sv _ Hs) (conj Ls eq_refl)). done.
Qed.

Lemma scalar_octets_spec v : bytes_ok v -> zlen v <= 32 ->
  bytes_ok (scalar_octets v) /\ length (scalar_octets v) = 32%nat /\ os2ip (scalar_octets v) = os2ip v.
Proof.
  intros Hv Hl. unfold scalar_octets. split_and!.
  - apply Forall_app. split; [apply Forall_replicate; unfold is_byte; lia|done].
  - rewrite length_app, length_replicate. lia.
  - rewrite os2ip_app. assert (forall n, os2ip (replicate n 0) = 0) as ->; [|lia].
    intros n. unfold os2ip. induction n as [|n IH]; [done|exact IH].
Qed.

Lemma key_of_bytes key x y : bytes_ok key -> ecdsa_key_of key x y -> bytes_ok x /\ bytes_ok y.
Proof.
  intros Hok (_ & _ & Hk). assert (bytes_ok (ec_point x y)) as Hp.
  { destruct Hk as [<-| ->]; [done|]. unfold ec_spki in Hok. rewrite <- (app_nil_r (tlv _ _)) in Hok.
    apply tlv_content_bytes in Hok as [Hok _]. apply tlv_content_bytes in Hok as [_ Hok].
    rewrite <- (app_nil_r (tlv _ _)) in Hok. apply tlv_content_bytes in Hok as [Hok _]. by apply Forall_cons in Hok as [_ ?]. }
  apply Forall_cons in Hp as [_ Hp]. by apply Forall_app.
Qed.

Lemma sig_of_bytes signature r s : bytes_ok signature -> ecdsa_sig_of signature r s -> bytes_ok r /\ bytes_ok s.
Proof.
  intros Hok (_ & _ & _ & _ & ->). unfold ecdsa_sig_value in Hok. rewrite <- (app_nil_r (tlv _ (_ ++ _))) in Hok.
  apply tlv_content_bytes in Hok as [Hok _]. apply tlv_content_bytes in Hok as [Hr Hs].
  rewrite <- (app_nil_r (tlv _ _)) in Hs. apply tlv_content_bytes in Hs as [Hs _]. split; by apply int_content_bytes.
Qed.

Lemma ecdsa_verify_iff key message signature :
  bytes_ok key -> bytes_ok signature -> zlen message < 2 ^ 61 ->
  tamga_ecdsa_p256_verify (Some key) (Some message) (zlen message) (Some signature) = true <->
  exists x y r s, ecdsa_key_of key x y /\ ecdsa_sig_of signature r s /\
    ecdsa_valid (os2ip x) (os2ip y) (os2ip (sha256_spec message)) (os2ip r) (os2ip s).
Proof.
  intros Hk Hs Hm. unfold tamga_ecdsa_p256_verify. rewrite tamga_sha256_spec by done.
  assert (forall x y r s, ecdsa_key_of key x y -> ecdsa_sig_of signature r s ->
    tamga_p256_verify (Some x) (Some y) (Some (sha256_spec message)) (Some (scalar_octets r)) (Some (scalar_octets s)) = true <->
    ecdsa_valid (os2ip x) (os2ip y) (os2ip (sha256_spec message)) (os2ip r) (os2ip s)) as HV.
  { intros x y r s HK HS. destruct (key_of_bytes _ _ _ Hk HK) as [Bx By]. destruct (sig_of_bytes _ _ _ Hs HS) as [Br Bs].
    pose proof HK as (Lx & Ly & _). pose proof HS as (_ & _ & Lr & Ls & _).
    destruct (scalar_octets_spec r Br Lr) as (? & ? & <-). destruct (scalar_octets_spec s Bs Ls) as (? & ? & <-).
    apply p256_verify_iff. intros b [<-|[<-|[<-|[<-|[<-|[]]]]]]; [done..| |done|done]. split; [by apply sha256_spec_bytes|apply sha256_spec_length]. }
  split.
  - destruct (tamga_ecdsa_extract_point (Some key)) as [[x y]|] eqn:Ek; [|done]. apply extract_point_iff in Ek; [|done].
    destruct (tamga_ecdsa_parse_signature (Some signature)) as [[r s]|] eqn:Es; [|done].
    apply parse_signature_iff in Es as (rv & sv & HS & -> & ->); [|done]. intros E. apply HV in E; [|done..]. by exists x, y, rv, sv.
  - intros (x & y & r & s & HK & HS & E). rewrite (proj2 (extract_point_iff key x y Hk) HK).
    rewrite (proj2 (parse_signature_iff signature _ _ Hs) (ex_intro _ r (ex_intro _ s (conj HS (conj eq_refl eq_refl))))). by apply HV.
Qed.

(** (C4) An ECDSA signature is accepted exactly when the key is the raw
    uncompressed point or the SubjectPublicKeyInfo that names prime256v1, the
    signature is the DER encoding of two integers, and the pair is an ECDSA
    signature of the message's SHA-256 digest under that key. A key that names
    another curve, trailing data, or a non-minimal integer is refused. *)
Theorem ecdsa_verify_exact key message signature :
  bytes_ok key -> bytes_ok signature -> zlen message < 2 ^ 61 ->
  tamga_ecdsa_p256_verify (Some key) (Some message) (zlen message) (Some signature) = true <->
  exists x y r s, ecdsa_key_of key x y /\ ecdsa_sig_of signature r s /\
    ecdsa_valid (os2ip x) (os2ip y) (os2ip (sha256_spec message)) (os2ip r) (os2ip s).
Proof. exact (ecdsa_verify_iff key message signature). Qed.

(** ** A signature of a known message

    With [r = s = e] both scalars are 1, so the equation is one addition. *)

Lemma unit_scalars_valid X Y e x y :
  X < p256 -> Y < p256 -> w_on_curve b256 (WAff (Zmod.of_Z p256 X) (Zmod.of_Z p256 Y)) -> 0 < e < n256 ->
  w_add G256 (WAff (Zmod.of_Z p256 X) (Zmod.of_Z p256 Y)) = WAff x y -> Zmod.to_Z x = e -> ecdsa_valid X Y e e e.
Proof.
  intros HX HY HC He HA Hx. unfold ecdsa_valid. cbv zeta. split_and!; [assumption..|lia|lia|lia|lia|].
  assert (Zmod.of_Z n256 e <> 0%Zmod) as Hnz by (apply Zmod.of_Z_nz; rewrite Z.mod_small; lia).
  assert ((Zmod.of_Z n256 e * Zmod.inv (Zmod.of_Z n256 e))%Zmod = 1%Zmod) as -> by (exact (Zmod.mul_inv_same_r_prime _ n256_prime Hnz)).
  change (Zmod.to_Z (1%Zmod : Zmod n256)) with 1. rewrite !w_mul_1.
  exists x, y. split; [exact HA|]. rewrite Hx. apply Z.mod_small. lia.
Qed.

Definition sample_x : bytes := i2osp 0x836a4c3bd9674266b17315ac54a16daee5d3d3ac922ce0d0dbe11253ac0714d8 32.
Definition sample_y : bytes := i2osp 0xf6c18ce17faba5388224bec92b86133043db1d2015007080d3747472c22aef6a 32.
Definition sample_digest : bytes := i2osp 0x8178ac72b28d77fcb851fcd301583182bd05d9663ed2ec8131e60f057c2795f7 32.

Lemma sample_hash : sha256_spec (bstr "licence") = sample_digest.
Proof. vm_compute. reflexivity. Qed.

Lemma sample_valid : ecdsa_valid (os2ip sample_x) (os2ip sample_y) (os2ip sample_digest) (os2ip sample_digest) (os2ip sample_digest).
Proof.
  eapply unit_scalars_valid; [vm_compute; reflexivity|vm_compute; reflexivity|apply Zmod.unsigned_inj; vm_compute; reflexivity|vm_compute; split; reflexivity| |].
  - unfold G256. apply (w_add_slope p256_prime) with (l := Zmod.of_Z p256 0x1ba007f3573289d87479787081bb55e1d87f5eb9b5b90bd227206667f69673b9).
    + intros E. apply (f_equal Zmod.to_Z) in E. vm_compute in E. discriminate E.
    + apply Zmod.unsigned_inj. vm_compute. reflexivity.
  - vm_compute. reflexivity.
Qed.

Lemma ecdsa_verify_exact_witness :
  let signature := ecdsa_sig_value sample_digest sample_digest in
  tamga_ecdsa_p256_verify (Some (ec_spki sample_x sample_y)) (Some (bstr "licence")) 7 (Some signature) = true.
Proof.
  intros signature. apply (proj2 (ecdsa_verify_exact (ec_spki sample_x sample_y) (bstr "licence") signature
    ltac:(apply bytes_ok_check; vm_compute; reflexivity) ltac:(apply bytes_ok_check; vm_compute; reflexivity) ltac:(reflexivity))).
  exists sample_x, sample_y, sample_digest, sample_digest. split_and!.
  - split_and!; [reflexivity|reflexivity|right; reflexivity].
  - assert (magnitude sample_digest) as Hm by (right; eexists _, _; split; [reflexivity|vm_compute; discriminate]).
    split_and!; [exact Hm|exact Hm|vm_compute; discriminate|vm_compute; discriminate|reflexivity].
  - rewrite sample_hash. exact sample_valid.
Defined.
