(* ===== verification/ErrorSlot.v ===== *)
(** * The last-error slot across the offline modules

    [Quiet] (from [World]) says that a computation does not touch the slot;
    [honest] that a computation which returns a status leaves the slot as it
    was on [TAMGA_OK], and otherwise returns a real code with a message in the
    slot. The lemmas establish one or the other for every operation the public
    entry points call; the contract of the entry points is in [Api]. *)

From Stdlib Require Import String.
From S2P Require Import Prelude World Buf BufBuild Hex Base64 Json JsonParse JsonWrite JsonSmall Status Pem Cert Suite KeySet LicenseFile MachineFile MachineProof Fingerprint.
From stdpp Require Import list.
#[local] Open Scope Z_scope.

(** ** Quiet operations *)

(** [quiet_tac] without unfolding the operations it meets. *)
Ltac quiet_syn :=
  repeat (intros; cbv zeta; lazymatch goal with
  | |- Quiet (bind _ _) => apply quiet_bind
  | |- Quiet (ret _) => apply quiet_ret
  | |- Quiet (match ?x with _ => _ end) => destruct x
  | |- _ => first [assumption | solve [auto with typeclass_instances] | apply _]
  end).

Section QuietJson.
Context {malloc : Malloc}.

#[export] Instance quiet_calloc n size : Quiet (tamga_calloc n size).
Proof. unfold tamga_calloc. quiet_tac. Qed.
#[export] Instance quiet_tamga_malloc size : Quiet (tamga_malloc size).
Proof. unfold tamga_malloc. quiet_tac. Qed.
#[export] Instance quiet_realloc size : Quiet (tamga_realloc size).
Proof. unfold tamga_realloc. quiet_tac. Qed.
#[export] Instance quiet_append_byte b c : Quiet (tamga_buf_append_byte b c).
Proof. apply quiet_append. Qed.
#[export] Instance quiet_detach_string b : Quiet (tamga_buf_detach_string b).
Proof. apply quiet_detach_impl. Qed.
#[export] Instance quiet_json_new j : Quiet (tamga_json_new j).
Proof. unfold tamga_json_new. quiet_tac. Qed.
#[export] Instance quiet_new_array : Quiet tamga_json_new_array := quiet_json_new _.
#[export] Instance quiet_new_object : Quiet tamga_json_new_object := quiet_json_new _.
#[export] Instance quiet_new_string l : Quiet (tamga_json_new_string l).
Proof. unfold tamga_json_new_string. quiet_tac. Qed.
#[export] Instance quiet_grow cap count size : Quiet (tamga_json_grow cap count size).
Proof. unfold tamga_json_grow. quiet_tac. Qed.
#[export] Instance quiet_array_append a i : Quiet (tamga_json_array_append a i).
Proof. unfold tamga_json_array_append. quiet_tac. Qed.
#[export] Instance quiet_object_set o k i : Quiet (tamga_json_object_set o k i).
Proof. unfold tamga_json_object_set. quiet_tac. Qed.

(** *** The parser *)

#[export] Instance quiet_append_each l out : Quiet (append_each out l).
Proof. revert out. induction l; intros out; cbn [append_each]; quiet_syn. Qed.

#[export] Instance quiet_string_loop fuel p out : Quiet (string_loop fuel p out).
Proof. revert p out. induction fuel; intros p out; cbn [string_loop]; [quiet_syn|]. unfold tamga_utf8_encode. cbv zeta. quiet_syn. Qed.

#[export] Instance quiet_parse_string p out : Quiet (tamga_json_parse_string_into p out).
Proof. unfold tamga_json_parse_string_into. quiet_syn. Qed.

#[export] Instance quiet_parse_number p : Quiet (tamga_json_parse_number p).
Proof. unfold tamga_json_parse_number, number_value, tamga_json_new_int, tamga_json_new_double. cbv zeta. quiet_syn. Qed.

#[export] Instance quiet_parse_value levels p : Quiet (tamga_json_parse_value levels p).
Proof.
  revert p. induction levels as [|levels IH]; intros p; cbn [tamga_json_parse_value]; [quiet_syn|].
  assert (forall fuel a p, Quiet (array_loop (tamga_json_parse_value levels) fuel a p)) as Ha.
  { induction fuel; intros; cbn [array_loop]; cbv zeta; quiet_syn. }
  assert (forall fuel o p, Quiet (object_loop (tamga_json_parse_value levels) fuel o p)) as Ho.
  { induction fuel; intros; cbn [object_loop]; cbv zeta; quiet_syn. }
  assert (forall p, Quiet (tamga_json_parse_array (tamga_json_parse_value levels) p)) as Harr by (intros q; unfold tamga_json_parse_array; quiet_syn).
  assert (forall p, Quiet (tamga_json_parse_object (tamga_json_parse_value levels) p)) as Hobj by (intros q; unfold tamga_json_parse_object; quiet_syn).
  unfold parse_string_value, parse_literal. quiet_syn; apply quiet_json_new.
Qed.

#[export] Instance quiet_parse text : Quiet (tamga_json_parse text).
Proof. unfold tamga_json_parse. cbv zeta. quiet_syn. Qed.
End QuietJson.

Section QuietWrite.
Context {malloc : Malloc}.

#[export] Instance quiet_escape_loop l out : Quiet (escape_loop l out).
Proof. revert out. induction l; intros out; cbn [escape_loop]; quiet_syn. Qed.

#[export] Instance quiet_write_escaped l out : Quiet (tamga_json_write_escaped l out).
Proof. unfold tamga_json_write_escaped. quiet_syn. Qed.

#[export] Instance quiet_append_chunks l out : Quiet (append_chunks l out).
Proof. revert out. induction l; intros out; cbn [append_chunks]; quiet_syn. Qed.

#[export] Instance quiet_write_double x out : Quiet (tamga_json_write_double x out).
Proof. unfold tamga_json_write_double, append_double. cbv zeta. quiet_syn. Qed.

#[export] Instance quiet_sort_keys keys : Quiet (tamga_json_sort_keys keys).
Proof. unfold tamga_json_sort_keys. cbv zeta. quiet_syn. Qed.

Lemma quiet_write_members members order i out :
  Forall (fun m => forall out, Quiet (m.2 out)) members -> Quiet (write_members members order i out).
Proof.
  intros Hm. revert i out. induction order as [|index order IH]; intros i out; cbn [write_members]; [quiet_syn|].
  apply quiet_bind; [quiet_syn|]. intros o. destruct (members !! index) as [[key w]|] eqn:E; [|done].
  pose proof (Forall_lookup_1 _ _ _ _ Hm E). quiet_syn.
Qed.

Lemma quiet_write_items items i out : Forall (fun w => forall out, Quiet (w out)) items -> Quiet (write_items items i out).
Proof. intros Hm. revert i out. induction Hm; intros i out; cbn [write_items]; quiet_syn. Qed.

#[export] Instance quiet_write_value j canonical out : Quiet (tamga_json_write_value j canonical out).
Proof.
  revert out. induction j as [| | | | |items IH|ms IH] using json_induction; intros out; cbn [tamga_json_write_value]; [quiet_syn..| |].
  - apply quiet_bind; [quiet_syn|]. intros o. apply quiet_bind; [|quiet_syn]. apply quiet_write_items. by apply Forall_map.
  - unfold tamga_json_write_object. cbv zeta. apply quiet_bind; [quiet_syn|]. intros o. apply quiet_bind; [quiet_syn|]. intros [order|]; [|done].
    apply quiet_bind; [|quiet_syn]. apply quiet_write_members. by apply Forall_map.
Qed.

#[export] Instance quiet_write_impl j canonical : Quiet (tamga_json_write_impl j canonical).
Proof. unfold tamga_json_write_impl. quiet_syn. Qed.

#[export] Instance quiet_json_clone j : Quiet (tamga_json_clone j).
Proof.
  induction j as [| | | | |items IH|ms IH] using json_induction; cbn [tamga_json_clone]; [apply quiet_json_new..|apply quiet_new_string| |].
  - apply quiet_bind; [apply quiet_json_new|]. intros copy. revert copy. induction IH as [|x l Hx _ IHl]; intros [copy|]; cbn [clone_items]; quiet_syn.
  - apply quiet_bind; [apply quiet_json_new|]. intros copy. revert copy.
    induction IH as [|[k x] l Hx _ IHl]; intros [copy|]; cbn [clone_members]; quiet_syn.
Qed.
End QuietWrite.

(** ** Honest operations *)

(** The error code a result carries, [None] for [TAMGA_OK]. *)
Class Verdict (A : Type) := verdict : A -> option TamgaErrorCode.
#[export] Instance verdict_status {A} : Verdict (status A) := fun r => match r with inl _ => None | inr c => Some c end.
#[export] Instance verdict_code : Verdict TamgaErrorCode := fun c => if decide (c = TAMGA_OK) then None else Some c.
#[export] Instance verdict_pair {A B} `{Verdict B} : Verdict (A * B) := fun r => verdict r.2.

(** A message is in the slot, and it fits the buffer. *)
Definition reported (s : st) : Prop := exists msg, st_error s = Some msg /\ zlen msg < TAMGA_ERROR_MESSAGE_CAP.

Definition honest {A} `{Verdict A} (m : M A) : Prop :=
  forall s, match verdict (m s).1 with
            | None => st_error (m s).2 = st_error s
            | Some code => code <> TAMGA_OK /\ reported (m s).2
            end.

(** Run after a failure: the result is a failure too. *)
Definition reporting {A} `{Verdict A} (m : M A) : Prop :=
  forall s, reported s -> exists code, verdict (m s).1 = Some code /\ code <> TAMGA_OK /\ reported (m s).2.

Lemma error_set_reported code f s : code <> TAMGA_OK -> reported (tamga_error_set code f s).2.
Proof.
  intros H. pose proof (error_set_message_fits code f s) as Hf. destruct (error_set_spec code f s H) as (msg & E). rewrite E in *.
  exists msg. split; [done|]. by apply Hf.
Qed.

(** Run in any state, the result is a failure. *)
Definition failing {A} `{Verdict A} (m : M A) : Prop :=
  forall s, exists code, verdict (m s).1 = Some code /\ code <> TAMGA_OK /\ reported (m s).2.

Section Rules.
Context {A B : Type} `{Verdict A} `{Verdict B}.

Lemma honest_ret (a : A) : verdict a = None -> honest (ret a).
Proof. intros E s. cbn. by rewrite E. Qed.

Lemma honest_quiet (m : M B) (k : B -> M A) : Quiet m -> (forall b, honest (k b)) -> honest (bind m k).
Proof.
  intros Hq Hk s. unfold bind. specialize (Hq s). destruct (m s) as [b s']. cbn in Hq. specialize (Hk b s').
  destruct (verdict _); [done|]. by rewrite Hk.
Qed.

Lemma honest_bind (m : M B) (k : B -> M A) :
  honest m -> (forall b, verdict b = None -> honest (k b)) -> (forall b c, verdict b = Some c -> c <> TAMGA_OK -> reporting (k b)) ->
  honest (bind m k).
Proof.
  intros Hm Hk He s. unfold bind. specialize (Hm s). destruct (m s) as [b s']. cbn in Hm. destruct (verdict b) as [c|] eqn:E.
  - destruct Hm as [Hc Hr]. destruct (He b c E Hc s' Hr) as (c' & -> & ?). done.
  - specialize (Hk b E s'). destruct (verdict (k b s').1); [done|]. by rewrite Hk.
Qed.

Lemma reporting_ret (a : A) c : verdict a = Some c -> c <> TAMGA_OK -> reporting (ret a).
Proof. intros E Hc s Hs. by exists c. Qed.

Lemma failing_honest (m : M A) : failing m -> honest m.
Proof. intros Hf s. by destruct (Hf s) as (c & -> & ?). Qed.

Lemma failing_reporting (m : M A) : failing m -> reporting m.
Proof. intros Hf s _. apply Hf. Qed.

Lemma failing_bind (m : M B) (k : B -> M A) :
  honest m -> (forall b, verdict b = None -> failing (k b)) -> (forall b c, verdict b = Some c -> c <> TAMGA_OK -> reporting (k b)) ->
  failing (bind m k).
Proof.
  intros Hm Hk He s. unfold bind. specialize (Hm s). destruct (m s) as [b s']. cbn in Hm. destruct (verdict b) as [c|] eqn:E.
  - destruct Hm as [Hc Hr]. by apply (He b c E Hc s' Hr).
  - by apply Hk.
Qed.

Lemma failing_set code f : code <> TAMGA_OK -> failing (tamga_error_set code f).
Proof.
  intros Hc s. exists code. rewrite error_set_code. unfold verdict, verdict_code. rewrite decide_False by done.
  split_and!; [done|done|by apply error_set_reported].
Qed.

Lemma reporting_bind (m : M B) (k : B -> M A) :
  reporting m -> (forall b c, verdict b = Some c -> c <> TAMGA_OK -> reporting (k b)) -> reporting (bind m k).
Proof.
  intros Hm Hk s Hs. unfold bind. destruct (Hm s Hs) as (c & E & Hc & Hr). destruct (m s) as [b s']. by apply (Hk b c).
Qed.
End Rules.

Lemma honest_set code f : code <> TAMGA_OK -> honest (tamga_error_set code f).
Proof. intros Hc. by apply failing_honest, failing_set. Qed.

Lemma honest_err {A} code text : code <> TAMGA_OK -> honest (err (A := A) code text).
Proof.
  intros Hc s. unfold err, bind. pose proof (error_set_reported code (FmtText text) s Hc) as Hr. pose proof (error_set_code code (FmtText text) s) as Ec.
  destruct (tamga_error_set _ _ s) as [c s']. cbn in *. by subst.
Qed.

Lemma honest_try {A B} (m : M (status A)) (k : A -> M (status B)) : honest m -> (forall a, honest (k a)) -> honest (try m k).
Proof.
  intros Hm Hk. apply honest_bind; [done|..]; intros [a|c]; cbn; try done. intros c' [= <-] Hc. by apply (reporting_ret _ c).
Qed.

(** Closes [honest] goals of straight-line code. *)
Ltac honest_tac :=
  repeat (intros; cbv zeta; lazymatch goal with
  | |- honest (ret _) => apply honest_ret; reflexivity
  | |- honest (err _ _) => apply honest_err; discriminate
  | |- honest (tamga_error_set _ _) => apply honest_set; discriminate
  | |- honest (try _ _) => apply honest_try
  | |- honest (bind _ _) => apply honest_quiet; [solve [quiet_syn]|]
  | |- honest (match ?x with _ => _ end) => destruct x
  | |- _ => solve [auto with honest]
  end).

Create HintDb honest.

Section Offline.
Context {malloc : Malloc} {suite : Suite}.

#[export] Instance quiet_pem_copy buf l : Quiet (pem_copy buf l).
Proof. revert buf. induction l; intros buf; cbn [pem_copy]; quiet_syn. Qed.

Lemma pem_extract_honest pem b e : honest (tamga_pem_extract pem b e).
Proof. unfold tamga_pem_extract. honest_tac. Qed.

Lemma cert_parse_honest body : honest (tamga_cert_parse body).
Proof. unfold tamga_cert_parse. honest_tac. Qed.

Lemma claims_read_honest meta : honest (tamga_claims_read meta).
Proof. unfold tamga_claims_read. honest_tac. Qed.
#[local] Hint Resolve pem_extract_honest cert_parse_honest claims_read_honest : honest.

Lemma select_honest set id : honest (tamga_key_set_select set id).
Proof. unfold tamga_key_set_select. honest_tac. Qed.
#[local] Hint Resolve select_honest : honest.

(** A failure that is being labelled stays a failure. *)
Lemma label_failing set payload : failing (tamga_key_set_label_failure set (inl payload)).
Proof.
  cbn [tamga_key_set_label_failure]. apply failing_bind; [apply select_honest|..]; intros [k|c]; try done.
  - intros _. apply failing_set. discriminate.
  - intros c' [= <-] Hc. destruct c; first [apply failing_reporting, failing_set; discriminate | by eapply reporting_ret].
Qed.

Lemma label_reporting set code : code <> TAMGA_OK -> reporting (tamga_key_set_label_failure set (inr code)).
Proof.
  intros Hc. cbn [tamga_key_set_label_failure]. destruct code; first [apply failing_reporting, failing_set; discriminate | by eapply reporting_ret].
Qed.

(** Reading the payload, labelling a failure and finishing. *)
Lemma labelled_honest {A} (probe : M (status json)) (verified : bool) keys (finish : status json -> M (status A)) :
  honest probe -> (forall r, honest (finish r)) ->
  honest (let! probe := probe in
    let! status := if negb verified then tamga_key_set_label_failure keys probe
                   else ret (match probe with inl _ => TAMGA_OK | inr code => code end) in
    if negb (bool_decide (status = TAMGA_OK)) then ret (inr status) else finish probe).
Proof.
  intros Hp Hf. apply honest_bind; [done|..]; intros [payload|c]; try done.
  - intros _. apply honest_bind; [destruct verified; [by apply honest_ret|apply failing_honest, label_failing]|..]; intros c.
    + unfold verdict, verdict_code. case_decide as E; [|done]. intros _. rewrite bool_decide_true by done. apply Hf.
    + unfold verdict, verdict_code. case_decide as E; [done|]. intros c' _ _. rewrite bool_decide_false by done. by apply (reporting_ret _ c).
  - intros c' [= <-] Hc. apply reporting_bind.
    + destruct verified; [|by apply label_reporting]. apply (reporting_ret _ c); [|done]. unfold verdict, verdict_code. by rewrite decide_False.
    + intros d. unfold verdict, verdict_code. case_decide as E; [done|]. intros c' _ _. rewrite bool_decide_false by done. by apply (reporting_ret _ d).
Qed.

Lemma license_verify_honest pem pubkey keys license_key now : honest (tamga_license_file_verify_core pem pubkey keys license_key now).
Proof.
  unfold tamga_license_file_verify_core, tamga_license_open, tamga_license_decode_signature.
  destruct pem as [pem|]; [|by apply honest_err]. destruct pubkey as [pubkey|], keys as [keys|]; [..|by apply honest_err];
  (apply honest_try; [honest_tac|]); intros [cert encrypted]; (apply honest_try; [honest_tac|]); intros signature; cbv zeta;
  (match goal with |- honest (if ?b then _ else _) => destruct b end; [by apply honest_err|]); apply labelled_honest;
  unfold tamga_license_decode_payload, tamga_license_parse_payload, tamga_license_finish; honest_tac.
Qed.

Lemma machine_verify_honest pem scheme pubkey keys license_key fingerprint now :
  honest (tamga_machine_file_verify_core pem scheme pubkey keys license_key fingerprint now).
Proof.
  unfold tamga_machine_file_verify_core, tamga_machine_open.
  destruct pem as [pem|]; [|by apply honest_err]. destruct pubkey as [pubkey|], keys as [keys|]; [..|by apply honest_err]; cbv zeta;
  (match goal with |- honest (if ?b then _ else _) => destruct b end; [by apply honest_err|]);
  (apply honest_try; [honest_tac|]); intros [cert encrypted]; (apply honest_quiet; [quiet_syn|]); intros [[]|signature]; try (by apply honest_err);
  (match goal with |- honest (if ?b then _ else _) => destruct b end; [by apply honest_err|]); apply labelled_honest;
  unfold tamga_machine_decode_payload, tamga_machine_open_encrypted, tamga_machine_parse_payload, tamga_machine_finish; honest_tac.
Qed.

Lemma create_honest : honest tamga_key_set_create.
Proof. unfold tamga_key_set_create. honest_tac. Qed.

Lemma reserve_honest set n : honest (tamga_key_set_reserve set n).
Proof. unfold tamga_key_set_reserve. honest_tac. Qed.
#[local] Hint Resolve create_honest reserve_honest : honest.

(** Keeping a failure while the set is put back. *)
Lemma honest_keep {A B} `{Verdict B} (x : A) (m : M B) : honest m -> honest (let! r := m in ret (x, r)).
Proof. intros Hm. apply honest_bind; [done|intros b E; by apply honest_ret|intros b c E Hc; by apply (reporting_ret _ c)]. Qed.

Lemma append_honest set id key : honest (tamga_key_set_append set id key).
Proof.
  unfold tamga_key_set_append. apply honest_bind; [apply reserve_honest|..]; intros [set'|c]; try done.
  - intros _. destruct (ks_capacity set' =? 0); [apply honest_keep, honest_set; discriminate|].
    apply honest_quiet; [quiet_syn|]. intros [copy|]; [by apply honest_ret|]. apply honest_keep, honest_set. discriminate.
  - intros c' [= <-] Hc. apply (reporting_ret _ c); [|done]. unfold verdict, verdict_pair, verdict, verdict_code. by rewrite decide_False.
Qed.

#[export] Instance quiet_key_decode key : Quiet (tamga_signing_key_decode key).
Proof. unfold tamga_signing_key_decode. quiet_syn. Qed.

Lemma add_public_key_honest set key : honest (tamga_key_set_add_public_key set key).
Proof.
  unfold tamga_key_set_add_public_key. destruct set as [set|], key as [key|]; try (apply honest_keep, honest_set; discriminate).
  cbv zeta. destruct (_ >? _); [apply honest_keep, honest_set; discriminate|].
  apply honest_quiet; [quiet_syn|]. intros [decoded|[]]; try (apply honest_keep, honest_set; discriminate).
  apply honest_bind; [apply append_honest|..]; intros [set' c]; intros E; [by apply honest_ret|]. intros. by eapply reporting_ret.
Qed.

Lemma stage_resource_honest staged r skipped mismatched : honest (tamga_key_set_stage_resource staged r skipped mismatched).
Proof.
  unfold tamga_key_set_stage_resource. destruct r as [[]|]; try by apply honest_ret. cbv zeta.
  repeat match goal with |- honest (match ?x with Some _ => _ | None => _ end) => destruct x; [|by apply honest_ret] end.
  repeat match goal with |- honest (if ?x then _ else _) => destruct x; [by apply honest_ret|] end.
  apply honest_quiet; [quiet_syn|]. intros [decoded|[]]; try (by apply honest_ret); [|apply honest_err; discriminate].
  apply honest_bind; [apply append_honest|..]; intros [set' c]; unfold verdict, verdict_pair, verdict, verdict_code; cbn [snd]; case_decide; try done.
  intros c' _ _. by apply (reporting_ret _ c).
Qed.

Lemma stage_loop_honest resources : forall staged skipped mismatched, honest (stage_loop staged resources skipped mismatched).
Proof.
  induction resources as [|r rest IH]; intros; cbn [stage_loop]; [by apply honest_ret|]. apply honest_try; [apply stage_resource_honest|].
  intros [[? ?] ?]. apply IH.
Qed.

Lemma add_json_honest set text : honest (tamga_key_set_add_json set text).
Proof.
  unfold tamga_key_set_add_json. destruct set as [set|], text as [text|]; try (apply honest_keep, honest_err; discriminate). cbv zeta.
  destruct (_ || _); [apply honest_keep, honest_err; discriminate|]. apply honest_quiet; [quiet_syn|].
  intros [document|e]; [|destruct (tamga_json_error_is_out_of_memory _); apply honest_keep, honest_err; discriminate].
  destruct (tamga_json_object_get _ _) as [[]|]; try (apply honest_keep, honest_err; discriminate).
  apply honest_bind; [apply create_honest|..]; intros [staged|c]; try done; [intros _|intros; by eapply reporting_ret].
  apply honest_bind; [apply stage_loop_honest|..]; intros [[[? ?] ?]|c]; try done; [intros _|intros; by eapply reporting_ret].
  apply honest_bind; [apply reserve_honest|..]; intros [set'|c]; try done; intros; by eapply reporting_ret.
Qed.

Lemma proof_payload_honest a m f d : honest (tamga_proof_build_payload a m f d).
Proof. unfold tamga_proof_build_payload, proof_build_tree, tamga_json_write_canonical. honest_tac. Qed.
#[local] Hint Resolve proof_payload_honest : honest.

Lemma proof_verify_honest p k a m f d : honest (tamga_proof_verify p k a m f d).
Proof. unfold tamga_proof_verify. honest_tac. Qed.
End Offline.

Section FingerprintSlot.
Context {malloc : Malloc} {qs : Qsort}.

Lemma component_honest label value i : honest (tamga_fp_build_component label value i).
Proof. unfold tamga_fp_build_component. honest_tac. Qed.

Lemma build_all_honest n : forall labels values i, honest (fp_build_all labels values i n).
Proof.
  induction n as [|n IH]; intros; cbn [fp_build_all]; [by apply honest_ret|].
  apply honest_bind; [apply component_honest|..]; intros [c|c]; try done; [intros _|intros; by eapply reporting_ret].
  apply honest_bind; [apply IH|..]; intros [cs|c']; try done; intros; by eapply reporting_ret.
Qed.

Lemma duplicates_honest rest : forall prev, honest (tamga_fp_reject_duplicates prev rest).
Proof. induction rest as [|c rest IH]; intros prev; cbn [tamga_fp_reject_duplicates]; [by apply honest_ret|]. honest_tac. Qed.

#[export] Instance quiet_fp_append_all cs buf : Quiet (fp_append_all buf cs).
Proof. revert buf. induction cs; intros buf; cbn [fp_append_all]; quiet_syn. Qed.

Lemma canonical_honest labels values count : honest (tamga_fingerprint_build_canonical labels values count).
Proof.
  unfold tamga_fingerprint_build_canonical. destruct labels, values; try by apply honest_err. destruct (count =? 0)%nat; [by apply honest_err|].
  apply honest_quiet; [quiet_syn|]. intros []; cbn [negb]; [|by apply honest_err].
  apply honest_bind; [apply build_all_honest|..]; intros [cs|c]; try done; [intros _|intros; by eapply reporting_ret]. cbv zeta.
  apply honest_bind; [destruct (qsort _ _); [by apply honest_ret|apply duplicates_honest]|..]; intros c; unfold verdict, verdict_code; case_decide; try done.
  - intros _. honest_tac.
  - intros c' _ _. by apply (reporting_ret _ c).
Qed.
End FingerprintSlot.
