(* ===== verification/Api.v ===== *)
(** * The public entry points: [src/src/tamga_api.c]

    Null pointers, lengths, handles and the error slot, in front of the offline
    modules. A pointer and its length are one span ([None] for a null pointer).
    An out-parameter is the flag that the pointer is not null and, in the
    result, what the call left in the variable: [Kept] when nothing was written,
    [Stored] the last value written. [now] is what [time(NULL)] returned. The
    free functions release memory and change nothing else. *)

From Stdlib Require Import String.
From S2P Require Import Prelude World Buf BufBuild Hex Base64 Rfc3339 Json JsonParse JsonWrite JsonSmall Sha2 Hkdf Status Fingerprint Pem Cert.
From S2P Require Import Suite KeySet LicenseFile MachineFile MachineFileSpec MachineProof ErrorSlot.
From stdpp Require Import list.
#[local] Open Scope Z_scope.

Inductive out (A : Type) : Type := Kept | Stored (a : A).
Arguments Kept {A}.
Arguments Stored {A} _.

Record TamgaLicenseFile := mk_license_file { lf_resource : option json }.
Record TamgaMachineFile := mk_machine_file { mf_resource : option json }.
Definition sizeof_handle : Z := 8.
Definition TAMGA_FINGERPRINT_SIZE : Z := 65.

(** An early return that writes nothing. *)
Definition refuse {A} (code : TamgaErrorCode) (text : bytes) : M (out A * TamgaErrorCode) :=
  let! code := tamga_error_set code (FmtText text) in ret (Kept, code).

Section Ops.
Context {malloc : Malloc} {suite : Suite} {qs : Qsort}.

Definition tamga_check_span (span : option bytes) (what : bytes) : M TamgaErrorCode :=
  match span with
  | None => tamga_error_set TAMGA_ERR_NULL_ARGUMENT (FmtText (what ++ bstr " must not be null"))
  | Some l =>
      if (zlen l =? 0) || (zlen l >? TAMGA_MAX_REASONABLE_LEN) then
        tamga_error_set TAMGA_ERR_LENGTH_INVALID (FmtText (what ++ bstr " length is zero or exceeds the accepted maximum"))
      else ret TAMGA_OK
  end.

(** ** Key derivation *)

Definition tamga_hkdf_derive_machine_file_key (license_key fingerprint : option bytes) (out_32_bytes : bool)
  : M (out bytes * TamgaErrorCode) :=
  tamga_error_clear ;;!
  match license_key, fingerprint with
  | None, _ => refuse TAMGA_ERR_NULL_ARGUMENT (bstr "license_key must not be null")
  | _, None => refuse TAMGA_ERR_NULL_ARGUMENT (bstr "fingerprint must not be null")
  | Some license_key, Some fingerprint =>
      if negb out_32_bytes then refuse TAMGA_ERR_NULL_ARGUMENT (bstr "out_32_bytes must not be null")
      else
        match tamga_derive_machine_file_key (Some (c_view license_key)) (Some (c_view fingerprint)) with
        | None => refuse TAMGA_ERR_UNKNOWN (bstr "key derivation failed")
        | Some key => ret (Stored key, TAMGA_OK)
        end
  end.

Definition tamga_hkdf_derive_license_file_key (license_key : option bytes) (out_32_bytes : bool) : M (out bytes * TamgaErrorCode) :=
  tamga_error_clear ;;!
  match license_key with
  | None => refuse TAMGA_ERR_NULL_ARGUMENT (bstr "license_key must not be null")
  | Some license_key =>
      if negb out_32_bytes then refuse TAMGA_ERR_NULL_ARGUMENT (bstr "out_32_bytes must not be null")
      else
        match tamga_derive_license_file_key (Some (c_view license_key)) with
        | None => refuse TAMGA_ERR_UNKNOWN (bstr "key derivation failed")
        | Some key => ret (Stored key, TAMGA_OK)
        end
  end.

(** ** Signing keys *)

Definition tamga_signing_key_id (ed25519_public_key : option bytes) (out_key_id : bool) : M (out bytes * TamgaErrorCode) :=
  tamga_error_clear ;;!
  match ed25519_public_key with
  | None => refuse TAMGA_ERR_NULL_ARGUMENT (bstr "ed25519_public_key must not be null")
  | Some key =>
      if negb out_key_id then refuse TAMGA_ERR_NULL_ARGUMENT (bstr "out_key_id must not be null")
      else ret (Stored (tamga_signing_key_id_compute (c_view key)), TAMGA_OK)
  end.

Definition tamga_signing_key_set_new (out_set : bool) : M (out (option TamgaSigningKeySet) * TamgaErrorCode) :=
  tamga_error_clear ;;!
  if negb out_set then refuse TAMGA_ERR_NULL_ARGUMENT (bstr "out_set must not be null")
  else
    let! r := tamga_key_set_create in
    match r with
    | inl set => ret (Stored (Some set), TAMGA_OK)
    | inr status => ret (Stored None, status)
    end.

(** The set after the call. *)
Definition tamga_signing_key_set_add_public_key (set : option TamgaSigningKeySet) (ed25519_public_key : option bytes)
  : M (option TamgaSigningKeySet * TamgaErrorCode) :=
  tamga_error_clear ;;!
  match set, ed25519_public_key with
  | None, _ => let! code := fail TAMGA_ERR_NULL_ARGUMENT "set must not be null" in ret (set, code)
  | _, None => let! code := fail TAMGA_ERR_NULL_ARGUMENT "ed25519_public_key must not be null" in ret (set, code)
  | Some _, Some _ => tamga_key_set_add_public_key set ed25519_public_key
  end.

Definition store {A} (wanted : bool) (a : A) : out A := if wanted then Stored a else Kept.

(** The set after the call and the three counters. *)
Definition tamga_signing_key_set_add_json (set : option TamgaSigningKeySet) (json_text : option bytes)
    (out_added out_skipped out_mismatched : bool)
  : M (option TamgaSigningKeySet * (out Z * out Z * out Z) * TamgaErrorCode) :=
  tamga_error_clear ;;!
  match set with
  | None => let! code := fail TAMGA_ERR_NULL_ARGUMENT "set must not be null" in ret (set, (Kept, Kept, Kept), code)
  | Some _ =>
      let! status := tamga_check_span json_text (bstr "json") in
      if negb (bool_decide (status = TAMGA_OK)) then ret (set, (Kept, Kept, Kept), status)
      else
        let! (set, r) := tamga_key_set_add_json set json_text in
        match r with
        | inr status => ret (set, (Kept, Kept, Kept), status)
        | inl (added, skipped, mismatched) =>
            ret (set, (store out_added added, store out_skipped skipped, store out_mismatched mismatched), TAMGA_OK)
        end
  end.

Definition tamga_signing_key_set_find (set : option TamgaSigningKeySet) (key_id : option bytes) (out_ed25519_pubkey : bool)
  : M (out bytes * bool) :=
  tamga_error_clear ;;!
  ret (match tamga_key_set_lookup set key_id with
       | Some key => (store out_ed25519_pubkey key, true)
       | None => (Kept, false)
       end).

Definition tamga_signing_key_set_count (set : option TamgaSigningKeySet) : Z := tamga_key_set_count set.

(** ** Handles *)

Definition tamga_resource_to_json (resource : option json) (out_ptr out_len : bool) : M (out bytes * TamgaErrorCode) :=
  match resource with
  | None => refuse TAMGA_ERR_NULL_ARGUMENT (bstr "handle must not be null")
  | Some _ =>
      if negb out_ptr || negb out_len then refuse TAMGA_ERR_NULL_ARGUMENT (bstr "out_ptr and out_len must not be null")
      else
        let! json := tamga_json_write resource in
        match json with
        | None => refuse TAMGA_ERR_OUT_OF_MEMORY (bstr "could not serialise the resource")
        | Some json => ret (Stored json, TAMGA_OK)
        end
  end.

(** What the four verification functions do with the verified resource. *)
Definition store_handle {H} (new : option json -> H) (result : status (json * TamgaFileClaims)) : M (out (option H) * TamgaErrorCode) :=
  match result with
  | inr status => ret (Stored None, status)
  | inl (resource, _) =>
      let! handle := tamga_calloc 1 sizeof_handle in
      if negb handle then let! code := fail TAMGA_ERR_OUT_OF_MEMORY "could not allocate the handle" in ret (Stored None, code)
      else ret (Stored (Some (new (Some resource))), TAMGA_OK)
  end.

Definition no_clock {A} : M (out (option A) * TamgaErrorCode) :=
  let! code := fail TAMGA_ERR_UNKNOWN "the system clock could not be read, so the file's expiry could not be checked" in
  ret (Stored None, code).

(** ** Licence files *)

Definition tamga_license_file_verify (now : option Z) (pem ed25519_pubkey license_key : option bytes) (out_handle : bool)
  : M (out (option TamgaLicenseFile) * TamgaErrorCode) :=
  tamga_error_clear ;;!
  let! status := tamga_check_span pem (bstr "pem") in
  if negb (bool_decide (status = TAMGA_OK)) then ret (Kept, status)
  else
    match ed25519_pubkey with
    | None => refuse TAMGA_ERR_NULL_ARGUMENT (bstr "ed25519_pubkey must not be null")
    | Some _ =>
        if negb out_handle then refuse TAMGA_ERR_NULL_ARGUMENT (bstr "out_handle must not be null")
        else
          match tamga_time_now_unix now with
          | None => no_clock
          | Some now_unix =>
              let! result := tamga_license_file_verify_at pem ed25519_pubkey license_key now_unix in
              store_handle mk_license_file result
          end
    end.

Definition tamga_license_file_verify_with_key_set (now : option Z) (pem : option bytes) (keys : option TamgaSigningKeySet)
    (license_key : option bytes) (out_handle : bool) : M (out (option TamgaLicenseFile) * TamgaErrorCode) :=
  tamga_error_clear ;;!
  let! status := tamga_check_span pem (bstr "pem") in
  if negb (bool_decide (status = TAMGA_OK)) then ret (Kept, status)
  else
    match keys with
    | None => refuse TAMGA_ERR_NULL_ARGUMENT (bstr "keys must not be null")
    | Some _ =>
        if negb out_handle then refuse TAMGA_ERR_NULL_ARGUMENT (bstr "out_handle must not be null")
        else
          match tamga_time_now_unix now with
          | None => no_clock
          | Some now_unix =>
              let! result := tamga_license_file_verify_at_with_key_set pem keys license_key now_unix in
              store_handle mk_license_file result
          end
    end.

Definition tamga_license_file_get_json (handle : option TamgaLicenseFile) (out_ptr out_len : bool) : M (out bytes * TamgaErrorCode) :=
  tamga_error_clear ;;!
  match handle with
  | None => refuse TAMGA_ERR_NULL_ARGUMENT (bstr "handle must not be null")
  | Some handle => tamga_resource_to_json (lf_resource handle) out_ptr out_len
  end.

Definition tamga_license_file_free (handle : option TamgaLicenseFile) : M unit := ret tt.

(** ** Machine files *)

Definition tamga_machine_file_verify (now : option Z) (pem : option bytes) (scheme : Z) (pubkey license_key fingerprint : option bytes)
    (out_handle : bool) : M (out (option TamgaMachineFile) * TamgaErrorCode) :=
  tamga_error_clear ;;!
  let! status := tamga_check_span pem (bstr "pem") in
  if negb (bool_decide (status = TAMGA_OK)) then ret (Kept, status)
  else
    let! status := tamga_check_span pubkey (bstr "pubkey") in
    if negb (bool_decide (status = TAMGA_OK)) then ret (Kept, status)
    else if negb out_handle then refuse TAMGA_ERR_NULL_ARGUMENT (bstr "out_handle must not be null")
    else
      match tamga_time_now_unix now with
      | None => no_clock
      | Some now_unix =>
          let! result := tamga_machine_file_verify_at pem scheme pubkey license_key fingerprint now_unix in
          store_handle mk_machine_file result
      end.

Definition tamga_machine_file_verify_with_key_set (now : option Z) (pem : option bytes) (scheme : Z) (keys : option TamgaSigningKeySet)
    (license_key fingerprint : option bytes) (out_handle : bool) : M (out (option TamgaMachineFile) * TamgaErrorCode) :=
  tamga_error_clear ;;!
  let! status := tamga_check_span pem (bstr "pem") in
  if negb (bool_decide (status = TAMGA_OK)) then ret (Kept, status)
  else
    match keys with
    | None => refuse TAMGA_ERR_NULL_ARGUMENT (bstr "keys must not be null")
    | Some _ =>
        if negb out_handle then refuse TAMGA_ERR_NULL_ARGUMENT (bstr "out_handle must not be null")
        else
          match tamga_time_now_unix now with
          | None => no_clock
          | Some now_unix =>
              let! result := tamga_machine_file_verify_at_with_key_set pem scheme keys license_key fingerprint now_unix in
              store_handle mk_machine_file result
          end
    end.

Definition tamga_machine_file_get_json (handle : option TamgaMachineFile) (out_ptr out_len : bool) : M (out bytes * TamgaErrorCode) :=
  tamga_error_clear ;;!
  match handle with
  | None => refuse TAMGA_ERR_NULL_ARGUMENT (bstr "handle must not be null")
  | Some handle => tamga_resource_to_json (mf_resource handle) out_ptr out_len
  end.

Definition tamga_machine_file_free (handle : option TamgaMachineFile) : M unit := ret tt.

(** ** Offline proofs *)

Definition tamga_offline_proof_verify (proof_str rsa_pubkey account_id machine_id fingerprint dataset_json : option bytes) (out_valid : bool)
  : M (out bool * TamgaErrorCode) :=
  tamga_error_clear ;;!
  let! status := tamga_check_span rsa_pubkey (bstr "rsa_pubkey") in
  if negb (bool_decide (status = TAMGA_OK)) then ret (Kept, status)
  else if negb out_valid then refuse TAMGA_ERR_NULL_ARGUMENT (bstr "out_valid must not be null")
  else
    let! r := tamga_proof_verify proof_str rsa_pubkey account_id machine_id fingerprint dataset_json in
    match r with
    | inr status => ret (Stored false, status)
    | inl valid => ret (Stored valid, TAMGA_OK)
    end.

Definition tamga_offline_proof_generate (rsa_privkey account_id machine_id fingerprint dataset_json : option bytes) (out_proof_str : bool)
  : M (out (option bytes) * TamgaErrorCode) :=
  tamga_error_clear ;;!
  let! code := fail TAMGA_ERR_UNKNOWN
    "local proof generation is not supported: proofs are issued by the server, and this SDK holds no signing keys. Use tamga_client_generate_offline_proof() instead." in
  ret (store out_proof_str None, code).

(** ** Fingerprints *)

Definition tamga_fingerprint_canonical (labels values : option (list (option bytes))) (count : nat) (out_canonical : bool)
  : M (out bytes * TamgaErrorCode) :=
  tamga_error_clear ;;!
  if negb out_canonical then refuse TAMGA_ERR_NULL_ARGUMENT (bstr "out_canonical is required")
  else
    let! r := tamga_fingerprint_build_canonical labels values count in
    match r with
    | inr status => ret (Kept, status)
    | inl canonical => ret (Stored canonical, TAMGA_OK)
    end.

Definition tamga_fingerprint_compute (labels values : option (list (option bytes))) (count : nat) (out_fingerprint : bool)
  : M (out bytes * TamgaErrorCode) :=
  tamga_error_clear ;;!
  if negb out_fingerprint then refuse TAMGA_ERR_NULL_ARGUMENT (bstr "out_fingerprint is required")
  else
    let! r := tamga_fingerprint_build_canonical labels values count in
    match r with
    | inr status => ret (Kept, status)
    | inl canonical =>
        let digest := tamga_sha256 (Some (c_view canonical)) in
        let! hex := tamga_malloc TAMGA_FINGERPRINT_SIZE in
        if negb hex then refuse TAMGA_ERR_OUT_OF_MEMORY (bstr "could not build the fingerprint")
        else ret (Stored (tamga_hex_encode (Some digest)), TAMGA_OK)
    end.
End Ops.

(** ** The error contract *)

(** A call of an entry point that returns a status. *)
Inductive api_call :=
| CallDeriveMachineKey (license_key fingerprint : option bytes) (out_32_bytes : bool)
| CallDeriveLicenseKey (license_key : option bytes) (out_32_bytes : bool)
| CallSigningKeyId (ed25519_public_key : option bytes) (out_key_id : bool)
| CallKeySetNew (out_set : bool)
| CallKeySetAddKey (set : option TamgaSigningKeySet) (ed25519_public_key : option bytes)
| CallKeySetAddJson (set : option TamgaSigningKeySet) (json_text : option bytes) (out_added out_skipped out_mismatched : bool)
| CallLicenseVerify (now : option Z) (pem ed25519_pubkey license_key : option bytes) (out_handle : bool)
| CallLicenseVerifySet (now : option Z) (pem : option bytes) (keys : option TamgaSigningKeySet) (license_key : option bytes) (out_handle : bool)
| CallLicenseJson (handle : option TamgaLicenseFile) (out_ptr out_len : bool)
| CallMachineVerify (now : option Z) (pem : option bytes) (scheme : Z) (pubkey license_key fingerprint : option bytes) (out_handle : bool)
| CallMachineVerifySet (now : option Z) (pem : option bytes) (scheme : Z) (keys : option TamgaSigningKeySet)
    (license_key fingerprint : option bytes) (out_handle : bool)
| CallMachineJson (handle : option TamgaMachineFile) (out_ptr out_len : bool)
| CallProofVerify (proof_str rsa_pubkey account_id machine_id fingerprint dataset_json : option bytes) (out_valid : bool)
| CallProofGenerate (rsa_privkey account_id machine_id fingerprint dataset_json : option bytes) (out_proof_str : bool)
| CallFingerprintCanonical (labels values : option (list (option bytes))) (count : nat) (out_canonical : bool)
| CallFingerprintCompute (labels values : option (list (option bytes))) (count : nat) (out_fingerprint : bool).

Section Contract.
Context {malloc : Malloc} {suite : Suite} {qs : Qsort}.

Definition status_of {A} (m : M (A * TamgaErrorCode)) : M TamgaErrorCode := let! r := m in ret r.2.

Definition run (call : api_call) : M TamgaErrorCode :=
  match call with
  | CallDeriveMachineKey k f o => status_of (tamga_hkdf_derive_machine_file_key k f o)
  | CallDeriveLicenseKey k o => status_of (tamga_hkdf_derive_license_file_key k o)
  | CallSigningKeyId k o => status_of (tamga_signing_key_id k o)
  | CallKeySetNew o => status_of (tamga_signing_key_set_new o)
  | CallKeySetAddKey set k => status_of (tamga_signing_key_set_add_public_key set k)
  | CallKeySetAddJson set j o1 o2 o3 => status_of (tamga_signing_key_set_add_json set j o1 o2 o3)
  | CallLicenseVerify now pem k lk o => status_of (tamga_license_file_verify now pem k lk o)
  | CallLicenseVerifySet now pem keys lk o => status_of (tamga_license_file_verify_with_key_set now pem keys lk o)
  | CallLicenseJson h o1 o2 => status_of (tamga_license_file_get_json h o1 o2)
  | CallMachineVerify now pem scheme k lk fp o => status_of (tamga_machine_file_verify now pem scheme k lk fp o)
  | CallMachineVerifySet now pem scheme keys lk fp o => status_of (tamga_machine_file_verify_with_key_set now pem scheme keys lk fp o)
  | CallMachineJson h o1 o2 => status_of (tamga_machine_file_get_json h o1 o2)
  | CallProofVerify p k a m f d o => status_of (tamga_offline_proof_verify p k a m f d o)
  | CallProofGenerate k a m f d o => status_of (tamga_offline_proof_generate k a m f d o)
  | CallFingerprintCanonical l v n o => status_of (tamga_fingerprint_canonical l v n o)
  | CallFingerprintCompute l v n o => status_of (tamga_fingerprint_compute l v n o)
  end.

Lemma refuse_honest {A} code text : code <> TAMGA_OK -> honest (refuse (A := A) code text).
Proof. intros H. apply honest_keep. by apply honest_set. Qed.

Lemma check_span_honest span what : honest (tamga_check_span span what).
Proof. unfold tamga_check_span. honest_tac. Qed.

Lemma verdict_real {A} (a : A) c : c <> TAMGA_OK -> verdict (a, c) = Some c.
Proof. intros H. unfold verdict, verdict_pair, verdict, verdict_code. by rewrite decide_False. Qed.

(** [if (status != TAMGA_OK) { return status; }] *)
Lemma honest_checked {A} (m : M TamgaErrorCode) (kept : A) (k : M (A * TamgaErrorCode)) :
  honest m -> honest k -> honest (let! status := m in if negb (bool_decide (status = TAMGA_OK)) then ret (kept, status) else k).
Proof.
  intros Hm Hk. apply honest_bind; [done|..]; intros c; unfold verdict at 1, verdict_code; case_decide as E; try done.
  - intros _. by rewrite bool_decide_true.
  - intros c' _ _. rewrite bool_decide_false by done. apply (reporting_ret _ c); [by apply verdict_real|done].
Qed.

(** Passing on the failure of an internal operation. *)
Lemma honest_passed {A B} (m : M (status B)) (kept : A) (k : B -> M (A * TamgaErrorCode)) :
  honest m -> (forall b, honest (k b)) ->
  honest (let! r := m in match r with inr status => ret (kept, status) | inl b => k b end).
Proof.
  intros Hm Hk. apply honest_bind; [done|..]; intros [b|c]; try done.
  intros c' [= <-] Hc. apply (reporting_ret _ c); [by apply verdict_real|done].
Qed.

Lemma store_handle_honest {H} (new : option json -> H) m : honest m -> honest (let! r := m in store_handle new r).
Proof.
  intros Hm. apply honest_passed; [done|]. intros [resource claims]. cbn [store_handle].
  apply honest_quiet; [quiet_syn|]. intros []; cbn [negb]; [by apply honest_ret|apply honest_keep, honest_set; discriminate].
Qed.

Lemma no_clock_honest {A} : honest (no_clock (A := A)).
Proof. apply honest_keep, honest_set. discriminate. Qed.

Lemma resource_to_json_honest resource o1 o2 : honest (tamga_resource_to_json resource o1 o2).
Proof.
  unfold tamga_resource_to_json, tamga_json_write. destruct resource; [|by apply refuse_honest]. destruct (_ || _); [by apply refuse_honest|].
  apply honest_quiet; [quiet_syn|]. intros [text|]; [by apply honest_ret|by apply refuse_honest].
Qed.

(** A computation that starts by clearing the slot. *)
Definition contract (m : M TamgaErrorCode) : Prop :=
  forall s, let '(code, s') := m s in if decide (code = TAMGA_OK) then st_error s' = None else reported s'.

Lemma contract_intro {A} (m : M (A * TamgaErrorCode)) : honest m -> contract (status_of (tamga_error_clear ;;! m)).
Proof.
  intros Hm s. specialize (Hm (mk_st (st_allocs s) None)). unfold status_of, bind, tamga_error_clear, put_error.
  destruct (m _) as [[a c] s']. cbn in *. unfold verdict, verdict_pair, verdict, verdict_code in Hm. cbn in Hm. case_decide; [done|]. apply Hm.
Qed.

Create HintDb api.

Ltac api_tac :=
  repeat (intros; lazymatch goal with
  | |- honest (ret _) => by apply honest_ret
  | |- honest (refuse _ _) => by apply refuse_honest
  | |- honest no_clock => apply no_clock_honest
  | |- honest (tamga_resource_to_json _ _ _) => apply resource_to_json_honest
  | |- honest (let! r := _ in store_handle _ r) => apply store_handle_honest
  | |- honest (let! code := tamga_error_set _ _ in ret (_, code)) => apply honest_keep, honest_set; discriminate
  | |- honest (let! status := _ in if negb (bool_decide (status = TAMGA_OK)) then _ else _) => apply honest_checked; [apply check_span_honest|]
  | |- honest (let! r := _ in match r with inr status => ret (_, status) | inl _ => _ end) => apply honest_passed
  | |- honest (match ?x with _ => _ end) => destruct x
  | |- honest (let! _ := tamga_malloc _ in _) => apply honest_quiet; [apply quiet_tamga_malloc|]
  | |- honest (err _ _) => by apply honest_err
  | |- _ => solve [auto with api]
  end).

Lemma add_json_call_honest set text o1 o2 o3 :
  honest (let! (set, r) := tamga_key_set_add_json set text in
    match r with
    | inr status => ret (set, (Kept, Kept, Kept), status)
    | inl (added, skipped, mismatched) => ret (set, (store o1 added, store o2 skipped, store o3 mismatched), TAMGA_OK)
    end).
Proof.
  apply honest_bind; [apply add_json_honest|..]; intros [set' [[[? ?] ?]|c]]; try done.
  intros c' [= <-] Hc. apply (reporting_ret _ c); [by apply verdict_real|done].
Qed.
#[local] Hint Resolve create_honest add_public_key_honest add_json_call_honest license_verify_honest machine_verify_honest
  proof_verify_honest canonical_honest : api.

Lemma run_contract call : contract (run call).
Proof.
  destruct call; cbn [run]; apply contract_intro; unfold tamga_license_file_verify_at, tamga_license_file_verify_at_with_key_set,
    tamga_machine_file_verify_at, tamga_machine_file_verify_at_with_key_set; api_tac.
Qed.

(** (C21) The error contract of the sixteen functions of tamga_api.c that return a
    TamgaErrorCode, which are the entry points that make no request. Whatever
    the arguments, null ones included, the allocator and the slot before the
    call, a call that returns TAMGA_OK leaves no message, so a message is never
    left over from an earlier call, and any other code leaves a message that
    fits the 512-byte buffer. *)
Theorem api_error_contract call s :
  let '(code, s') := run call s in
  (code = TAMGA_OK -> st_error s' = None) /\
  (code <> TAMGA_OK -> exists msg, st_error s' = Some msg /\ zlen msg < 512).
Proof.
  pose proof (run_contract call s) as H. destruct (run call s) as [code s']. case_decide; split; done.
Qed.
End Contract.

Lemma api_error_contract_witness :
  let s := mk_st 3 (Some (bstr "left over")) in
  let run := run (malloc := full_memory) (suite := hash_suite) (qs := merge_qsort) in
  st_error (run (CallSigningKeyId (Some []) true) s).2 = None /\
  exists msg, st_error (run (CallSigningKeyId None true) s).2 = Some msg /\ zlen msg < 512.
Proof.
  intros s run. split.
  - apply (api_error_contract (malloc := full_memory) (suite := hash_suite) (qs := merge_qsort) (CallSigningKeyId (Some []) true) s). reflexivity.
  - apply (api_error_contract (malloc := full_memory) (suite := hash_suite) (qs := merge_qsort) (CallSigningKeyId None true) s). discriminate.
Defined.
