(* ===== verification/EndToEnd.v ===== *)
(** * The entry points with the library's own cryptography

    [Suite] instantiated by the verifiers of [src/src/crypto], and what a caller
    of the public functions can rely on, down to the signature equations. *)

From Stdlib Require Import String.
From S2P Require Import Prelude World Buf BufBuild Hex Base64 Rfc3339 Json JsonParse JsonGrammar JsonWrite JsonPrint JsonRoundtrip JsonSmall Sha2 Status Pem Cert.
From S2P Require Import Suite KeySet LicenseFile MachineFile MachineFileSpec ErrorSlot Api.
From S2P Require Import Octets Bn Rsa RsaSpec RsaPss Ed25519 Ed25519Spec P256 P256Spec Ecdsa.
From stdpp Require Import list.
#[local] Open Scope Z_scope.

(** The verifiers, at the arguments the offline modules call them with: spans
    that are not null. *)
Definition tamga_crypto : Suite :=
  Build_Suite
    (fun public_key message signature => Ed25519.tamga_ed25519_verify (Some public_key) (Some message) (zlen message) (Some signature))
    Rsa.tamga_rsa_verify_pkcs1_sha256
    Rsa.tamga_rsa_verify_pss_sha256
    (fun public_key message signature => Ecdsa.tamga_ecdsa_p256_verify (Some public_key) (Some message) (zlen message) (Some signature)).

(** ** What a signature is *)

(** The four schemes of a machine file, with their name in alg. *)
Inductive signature_valid (pubkey message signature : bytes) : Z -> bytes -> Prop :=
| valid_ed25519 :
    length pubkey = 32%nat -> length signature = 64%nat -> ed25519_valid pubkey message signature ->
    signature_valid pubkey message signature TAMGA_SCHEME_ED25519_SIGN (bstr "ed25519")
| valid_pkcs1 key :
    rsa_key_of pubkey key -> rsa_opens key signature (emsa_pkcs1 (length (modulus key)) (sha256_spec message)) ->
    signature_valid pubkey message signature TAMGA_SCHEME_RSA_2048_PKCS1_SIGN (bstr "rsa-sha256")
| valid_pss key salt :
    rsa_key_of pubkey key -> length salt = 32%nat -> bytes_ok salt ->
    rsa_opens key signature (emsa_pss (length (modulus key)) (sha256_spec message) salt) ->
    signature_valid pubkey message signature TAMGA_SCHEME_RSA_2048_PKCS1_PSS_SIGN (bstr "rsa-pss-sha256")
| valid_ecdsa x y r s :
    ecdsa_key_of pubkey x y -> ecdsa_sig_of signature r s ->
    ecdsa_valid (os2ip x) (os2ip y) (os2ip (sha256_spec message)) (os2ip r) (os2ip s) ->
    signature_valid pubkey message signature TAMGA_SCHEME_ECDSA_P256_SIGN (bstr "ecdsa-p256").

Lemma ed25519_suite_iff pubkey message signature :
  bytes_ok pubkey -> length pubkey = 32%nat -> bytes_ok signature -> length signature = 64%nat -> zlen message <= TAMGA_MAX_REASONABLE_LEN ->
  Suite.tamga_ed25519_verify (Suite := tamga_crypto) pubkey message signature = true <-> ed25519_valid pubkey message signature.
Proof.
  intros Hk Lk Hs Ls Hm. apply (ed25519_verify_iff pubkey (Some message) signature); try done. unfold TAMGA_MAX_REASONABLE_LEN in Hm. change (chunk (Some message)) with message. lia.
Qed.

Lemma signed_by_iff pubkey message signature scheme suffix :
  bytes_ok pubkey -> zlen pubkey <= TAMGA_MAX_REASONABLE_LEN -> bytes_ok signature -> zlen message <= TAMGA_MAX_REASONABLE_LEN ->
  signed_by (suite := tamga_crypto) pubkey message signature scheme suffix <-> signature_valid pubkey message signature scheme suffix.
Proof.
  intros Hk Lk Hs Hm. assert (zlen pubkey < 2 ^ 32 /\ zlen message < 2 ^ 61) as [Bk Bm] by (unfold TAMGA_MAX_REASONABLE_LEN in *; lia). split.
  - intros [H1 H2 H|H|H|H].
    + apply valid_ed25519; [done|done|]. by apply ed25519_suite_iff.
    + apply rsa_pkcs1_iff in H as (key & ? & ?); [|done..]. by apply (valid_pkcs1 _ _ _ key).
    + apply rsa_pss_iff in H as (key & salt & ? & ? & ? & ?); [|done..]. by apply (valid_pss _ _ _ key salt).
    + apply ecdsa_verify_iff in H as (x & y & r & s & ? & ? & ?); [|done..]. by apply (valid_ecdsa _ _ _ x y r s).
  - intros [H1 H2 H|key H1 H2|key salt H1 H2 H3 H4|x y r s H1 H2 H3].
    + apply signed_ed25519; [done|done|]. by apply ed25519_suite_iff.
    + apply signed_pkcs1. apply rsa_pkcs1_iff; [done..|]. by exists key.
    + apply signed_pss. apply rsa_pss_iff; [done..|]. by exists key, salt.
    + apply signed_ecdsa. apply ecdsa_verify_iff; [done..|]. by exists x, y, r, s.
Qed.

(** ** Authentic files *)

(** A licence file signed, in the sense of RFC 8032, by one of [keys]. *)
Definition license_authentic (keys : list bytes) (pem : bytes) (license_key : option bytes) (now : Z)
    (resource : json) (claims : TamgaFileClaims) : Prop :=
  exists cert encrypted signature p payload,
    license_certificate pem cert encrypted /\
    tamga_base64_decode (Some (cert_sig cert)) = Some signature /\ length signature = 64%nat /\
    (exists k, k ∈ keys /\ ed25519_valid k (cert_enc cert) signature) /\
    license_plaintext cert encrypted license_key p /\ jtext payload p /\
    claims_spec (member payload (bstr "meta")) = inl claims /\ ~ expired claims now /\
    member payload (bstr "data") = Some resource /\ exists ms, resource = JObject ms.

Lemma license_authentic_iff keys pem license_key now resource claims :
  Forall (fun k => bytes_ok k /\ length k = 32%nat) keys ->
  license_accepts (H := tamga_crypto) keys pem license_key now resource claims <->
  license_authentic keys pem license_key now resource claims.
Proof.
  intros Hkeys. rewrite Forall_forall in Hkeys. unfold license_accepts, license_authentic.
  assert (forall cert e signature k, license_certificate pem cert e -> tamga_base64_decode (Some (cert_sig cert)) = Some signature ->
    length signature = 64%nat -> k ∈ keys ->
    Suite.tamga_ed25519_verify (Suite := tamga_crypto) k (cert_enc cert) signature = true <-> ed25519_valid k (cert_enc cert) signature) as Hiff.
  { intros cert e signature k Hc Hd Hl Hk. destruct (Hkeys k Hk). destruct (decode_bytes _ _ Hd).
    apply open_spec_iff, open_spec_small in Hc as [? _]. by apply ed25519_suite_iff. }
  split; intros (cert & e & signature & p & payload & Hc & Hd & Hl & (k & Hk & Hv) & Hrest); exists cert, e, signature, p, payload;
    (split_and!; [done|done|done| |by apply Hrest..]); exists k; (split; [done|]); by eapply Hiff.
Qed.

(** A machine file signed under [scheme] by the holder of [pubkey]. *)
Definition machine_authentic (pubkey : bytes) (scheme : Z) (pem : bytes) (license_key fingerprint : option bytes) (now : Z)
    (resource : json) (claims : TamgaFileClaims) : Prop :=
  exists suffix, machine_accepts (fun enc signature => signature_valid pubkey enc signature scheme suffix)
    suffix pem license_key fingerprint now resource claims.

Lemma signature_valid_suffix pubkey message signature scheme suffix :
  signature_valid pubkey message signature scheme suffix -> tamga_machine_alg_suffix scheme = Some suffix.
Proof. by intros []. Qed.

Lemma machine_authentic_iff pubkey scheme pem license_key fingerprint now resource claims :
  bytes_ok pubkey -> zlen pubkey <= TAMGA_MAX_REASONABLE_LEN ->
  (exists suffix, machine_accepts (fun enc signature => signed_by (suite := tamga_crypto) pubkey enc signature scheme suffix)
    suffix pem license_key fingerprint now resource claims) <->
  machine_authentic pubkey scheme pem license_key fingerprint now resource claims.
Proof.
  intros Hk Lk. unfold machine_authentic, machine_accepts.
  assert (forall suffix cert e signature, machine_certificate pem suffix cert e -> tamga_base64_decode (Some (cert_sig cert)) = Some signature ->
    tamga_machine_alg_suffix scheme = Some suffix ->
    signed_by (suite := tamga_crypto) pubkey (cert_enc cert) signature scheme suffix <-> signature_valid pubkey (cert_enc cert) signature scheme suffix) as Hiff.
  { intros suffix cert e signature Hc Hd Hsuf. destruct (decode_bytes _ _ Hd).
    apply (machine_open_iff _ scheme), machine_open_small in Hc as [? _]; [|done]. by apply signed_by_iff. }
  split; intros (suffix & cert & e & signature & p & payload & Hc & Hd & Hv & Hrest); exists suffix, cert, e, signature, p, payload;
    (split_and!; [done|done| |by apply Hrest..]); eapply Hiff; try done; first [by eapply signed_by_suffix | by eapply signature_valid_suffix].
Qed.

(** ** Handles *)

Section Handles.
Context {malloc : Malloc}.

Lemma check_span_ok l what s : 0 < zlen l <= TAMGA_MAX_REASONABLE_LEN -> tamga_check_span (Some l) what s = (TAMGA_OK, s).
Proof. intros Hl. unfold tamga_check_span. replace (_ || _) with false by lia. done. Qed.

Lemma check_span_bad l what s : ~ 0 < zlen l <= TAMGA_MAX_REASONABLE_LEN -> (tamga_check_span (Some l) what s).1 = TAMGA_ERR_LENGTH_INVALID.
Proof. intros Hl. unfold tamga_check_span. replace (_ || _) with true by lia. apply error_set_code. Qed.

(** A file the internal verification accepts becomes a handle; nothing else does. *)
Definition delivers {H} (new : option json -> H) (P : json -> Prop) (r : out (option H) * TamgaErrorCode) : Prop :=
  (r.2 = TAMGA_OK <-> exists h, r.1 = Stored (Some h)) /\
  (forall h, r.1 = Stored (Some h) -> exists resource, h = new (Some resource) /\ P resource) /\
  (ample -> forall resource, P resource -> r.1 = Stored (Some (new (Some resource)))).

Lemma delivers_refused {H} (new : option json -> H) (P : json -> Prop) o code :
  (forall h, o <> Stored (Some h)) -> code <> TAMGA_OK -> (ample -> forall resource, ~ P resource) -> delivers new P (o, code).
Proof.
  intros Ho Hc HP. split_and!; cbn.
  - split; [done|]. intros [h E]. by destruct (Ho h).
  - intros h E. by destruct (Ho h).
  - intros Ha resource HR. by destruct (HP Ha resource).
Qed.

Lemma error_pair {A} (x : A) code f s : (let! c := tamga_error_set code f in ret (x, c)) s = ((x, code), (tamga_error_set code f s).2).
Proof. unfold bind. pose proof (error_set_code code f s) as E. destruct (tamga_error_set code f s). cbn in *. by subst. Qed.

Lemma calloc_handle s : ample -> (tamga_calloc 1 sizeof_handle s).1 = true.
Proof.
  intros (limit & Hm & Hl). change (tamga_calloc 1 sizeof_handle) with (c_malloc 8). cbn. apply (malloc_up_to (limit := limit)).
  unfold json_memory in Hl. lia.
Qed.

Lemma store_handle_delivers {H} (new : option json -> H) (m : M (status (json * TamgaFileClaims))) (P : json -> Prop) s :
  (forall resource claims, (m s).1 = inl (resource, claims) -> P resource) ->
  (ample -> forall resource, P resource -> exists claims, (m s).1 = inl (resource, claims)) ->
  (m s).1 <> inr TAMGA_OK ->
  delivers new P ((let! r := m in store_handle new r) s).1.
Proof.
  intros Hs Hc Hp. unfold bind. destruct (m s) as [[[resource claims]|code] s']; cbn [fst store_handle] in *.
  - unfold bind. pose proof (calloc_handle s') as Hm. destruct (tamga_calloc 1 sizeof_handle s') as [[] s'']; cbn [negb fst] in *.
    + split_and!; cbn.
      * split; [by eexists|done].
      * intros h [= <-]. exists resource. split; [done|]. by eapply Hs.
      * intros Ha r HR. by destruct (Hc Ha r HR) as [c [= -> ->]].
    + pose proof (error_pair (A := out (option H)) (Stored None) TAMGA_ERR_OUT_OF_MEMORY (FmtText (bstr "could not allocate the handle")) s'') as E.
      unfold bind in E. rewrite E. apply delivers_refused; [done|done|]. intros Ha. by specialize (Hm Ha).
  - apply delivers_refused; [done|congruence|]. intros Ha r HR. by destruct (Hc Ha r HR).
Qed.

Lemma checked_delivers {H} (new : option json -> H) (P : json -> Prop) l what (k : M (out (option H) * TamgaErrorCode)) s :
  (forall resource, P resource -> 0 < zlen l <= TAMGA_MAX_REASONABLE_LEN) -> (forall s, delivers new P (k s).1) ->
  delivers new P ((let! status := tamga_check_span (Some l) what in
    if negb (bool_decide (status = TAMGA_OK)) then ret (Kept, status) else k) s).1.
Proof.
  intros HP Hk. unfold bind. destruct (decide (0 < zlen l <= TAMGA_MAX_REASONABLE_LEN)) as [Hl|Hl].
  - rewrite check_span_ok by done. apply Hk.
  - pose proof (check_span_bad l what s Hl) as E. destruct (tamga_check_span _ _ s) as [c s']. cbn in E. subst c.
    apply delivers_refused; [done|done|]. intros _ r HR. by apply Hl, (HP r).
Qed.

Lemma clocked_delivers {H} (new : option json -> H) (A : Z -> json -> TamgaFileClaims -> Prop) now (m : Z -> M (status (json * TamgaFileClaims))) s :
  (forall t, honest (m t)) ->
  (forall t s resource claims, ((m t s).1 = inl (resource, claims) -> A t resource claims) /\ (ample -> A t resource claims -> (m t s).1 = inl (resource, claims))) ->
  delivers new (fun resource => exists t claims, now = Some t /\ 0 <= t /\ A t resource claims)
    (match tamga_time_now_unix now with
     | None => no_clock
     | Some t => let! r := m t in store_handle new r
     end s).1.
Proof.
  intros Hh HA. unfold tamga_time_now_unix.
  assert (forall P, (forall r, ~ P r) -> delivers new P (no_clock s).1) as Hno.
  { intros P HP. unfold no_clock. rewrite error_pair. apply delivers_refused; [done|done|]. intros _. apply HP. }
  destruct now as [t|]; [|apply Hno; by intros r (t & c & [=] & _)].
  destruct (Z.ltb_spec t 0); [apply Hno; intros r (t' & c & [= <-] & ? & _); lia|]. apply store_handle_delivers.
  - intros r c E. exists t, c. split_and!; [done|done|]. by eapply HA.
  - intros Ha r (t' & c & [= <-] & _ & HR). exists c. by apply HA.
  - intros E. specialize (Hh t s). rewrite E in Hh. by destruct Hh.
Qed.

(** [*out_ptr] is the text of the resource of the handle. *)
Lemma get_json_text handle s text :
  (tamga_license_file_get_json (Some handle) true true s).1 = (Stored text, TAMGA_OK) ->
  exists resource, lf_resource handle = Some resource /\ text = print false resource.
Proof.
  unfold tamga_license_file_get_json, tamga_resource_to_json, bind. cbn [tamga_error_clear put_error fst negb orb].
  destruct (lf_resource handle) as [resource|].
  2:{ unfold refuse. rewrite error_pair. done. }
  pose proof (write_impl_post resource false (mk_st (st_allocs s) None)) as Hw. unfold bind. unfold tamga_json_write.
  destruct (tamga_json_write_impl (Some resource) false _) as [[t|] s']; cbn [fst] in *.
  - intros [= <-]. by exists resource.
  - unfold refuse. rewrite error_pair. done.
Qed.
End Handles.

Section EndToEnd.
Context {malloc : Malloc}.

(** (C1) What a caller of tamga_license_file_verify can rely on. With the
    library's own Ed25519, and whatever the clock and the allocator do, the
    call returns TAMGA_OK exactly when it stores a handle, and a handle is
    stored only for a file that is enveloped, of format v2, signed over the text
    of enc by the holder of the 32-byte key in the sense of RFC 8032, readable
    with the licence key, not expired at the time the clock gave, and whose data
    object is the resource behind the handle; the text the handle is read as is
    that of this resource. With memory every such file is accepted. *)
Theorem license_file_end_to_end now pem pubkey license_key s :
  bytes_ok pubkey -> length pubkey = 32%nat ->
  let r := (tamga_license_file_verify (suite := tamga_crypto) now (Some pem) (Some pubkey) license_key true s).1 in
  delivers mk_license_file (fun resource => exists t claims, now = Some t /\ 0 <= t /\ license_authentic [pubkey] pem license_key t resource claims) r /\
  (forall h s' text, r.1 = Stored (Some h) -> (tamga_license_file_get_json (Some h) true true s').1 = (Stored text, TAMGA_OK) ->
    exists resource, h = mk_license_file (Some resource) /\ text = print false resource).
Proof.
  intros Hk Lk r.
  assert (Forall (fun k => bytes_ok k /\ length k = 32%nat) [pubkey]) as Hkeys by (by constructor).
  assert (delivers mk_license_file (fun resource => exists t claims, now = Some t /\ 0 <= t /\ license_authentic [pubkey] pem license_key t resource claims) r) as Hd.
  { apply checked_delivers; [intros resource (t & c & _ & _ & (cert & e & sg & p & j & Hc & _)); apply Hc|]. intros s'. apply clocked_delivers.
    - intros t. apply license_verify_honest.
    - intros t s'' resource claims. rewrite <- license_authentic_iff by done. apply license_verify_accepts. }
  split; [done|]. intros h s' text Hh Ht. destruct Hd as (_ & Hd & _). destruct (Hd h Hh) as (resource & -> & _).
  apply get_json_text in Ht as (r' & [= <-] & ->). by exists resource.
Qed.

(** (C2) The same for tamga_machine_file_verify and the four schemes: Ed25519,
    RSASSA-PKCS1-v1_5, RSASSA-PSS and ECDSA over P-256, each in the sense of its
    standard, with the scheme the caller names and alg repeats. *)
Theorem machine_file_end_to_end now pem scheme pubkey license_key fingerprint s :
  bytes_ok pubkey ->
  delivers mk_machine_file
    (fun resource => exists t claims, now = Some t /\ 0 <= t /\ (0 < zlen pubkey <= TAMGA_MAX_REASONABLE_LEN /\
       machine_authentic pubkey scheme pem license_key fingerprint t resource claims))
    (tamga_machine_file_verify (suite := tamga_crypto) now (Some pem) scheme (Some pubkey) license_key fingerprint true s).1.
Proof.
  intros Hk. apply checked_delivers; [intros resource (t & c & _ & _ & _ & (suffix & cert & e & sg & p & j & Hc & _)); apply Hc|].
  intros s1. apply checked_delivers; [by intros resource (t & c & _ & _ & Hl & _)|]. intros s2. apply clocked_delivers.
  - intros t. apply machine_verify_honest.
  - intros t s3 resource claims. pose proof (machine_verify_accepts (suite := tamga_crypto) pem scheme pubkey license_key fingerprint t s3 resource claims) as [H1 H2].
    split.
    + intros E. apply H1 in E as [Hl E]. split; [done|]. apply machine_authentic_iff; [done|lia|done].
    + intros Ha [Hl E]. apply H2; [done|]. split; [done|]. apply machine_authentic_iff; [done|lia|done].
Qed.
End EndToEnd.

(** ** Concrete files, signed for the neutral element as key *)

Definition signed_file (begin_marker end_marker alg : bytes) : bytes :=
  let json := bstr "{" ++ field (bstr "enc") (quoted demo_enc) ++ bstr "," ++
              field (bstr "sig") (quoted (tamga_base64_encode (Some identity_signature))) ++ bstr "," ++ field (bstr "alg") (quoted alg) ++ bstr "}" in
  begin_marker ++ [10] ++ tamga_base64_encode (Some json) ++ [10] ++ end_marker ++ [10].

Definition sample_license : bytes := signed_file TAMGA_LICENSE_PEM_BEGIN TAMGA_LICENSE_PEM_END TAMGA_ALG_PLAIN.
Definition sample_machine : bytes := signed_file TAMGA_MACHINE_PEM_BEGIN TAMGA_MACHINE_PEM_END (machine_alg (bstr "ed25519") false).
Definition sample_cert (alg : bytes) : TamgaCert := mk_cert demo_enc (tamga_base64_encode (Some identity_signature)) alg.
Definition sample_payload : json := default JNull (json_of demo_payload).

Lemma sample_contents :
  jtext sample_payload demo_payload /\ claims_spec (member sample_payload (bstr "meta")) = inl demo_claims /\ ~ expired demo_claims 1060 /\
  member sample_payload (bstr "data") = Some demo_resource /\ exists ms, demo_resource = JObject ms.
Proof.
  split_and!; [apply json_of_iff; [apply FeSpec.bytes_ok_check|]; vm_compute; reflexivity|vm_compute; reflexivity| |vm_compute; reflexivity|by eexists].
  intros (_ & _ & H). vm_compute in H. discriminate H.
Qed.

Lemma sample_license_authentic : license_authentic [identity_key] sample_license None 1060 demo_resource demo_claims.
Proof.
  exists (sample_cert TAMGA_ALG_PLAIN), false, identity_signature, demo_payload, sample_payload.
  split; [apply open_spec_iff; vm_compute; reflexivity|]. split; [vm_compute; reflexivity|]. split; [reflexivity|].
  split; [exists identity_key; split; [apply list_elem_of_here|apply identity_valid]|].
  split; [apply plaintext_spec_iff; vm_compute; reflexivity|]. exact sample_contents.
Qed.

Lemma license_file_end_to_end_witness :
  (tamga_license_file_verify (malloc := full_memory) (suite := tamga_crypto) (Some 1060) (Some sample_license) (Some identity_key) None true (mk_st 0 None)).1.1 =
  Stored (Some (mk_license_file (Some demo_resource))).
Proof.
  apply (license_file_end_to_end (malloc := full_memory) (Some 1060) sample_license identity_key None (mk_st 0 None)
    ltac:(apply FeSpec.bytes_ok_check; vm_compute; reflexivity) eq_refl); [exact ample_full|].
  exists 1060, demo_claims. split; [reflexivity|]. split; [lia|]. exact sample_license_authentic.
Defined.

Lemma machine_file_end_to_end_witness :
  (tamga_machine_file_verify (malloc := full_memory) (suite := tamga_crypto) (Some 1060) (Some sample_machine) TAMGA_SCHEME_ED25519_SIGN
     (Some identity_key) None None true (mk_st 0 None)).1.1 = Stored (Some (mk_machine_file (Some demo_resource))).
Proof.
  apply (machine_file_end_to_end (malloc := full_memory) (Some 1060) sample_machine TAMGA_SCHEME_ED25519_SIGN identity_key None None (mk_st 0 None)
    ltac:(apply FeSpec.bytes_ok_check; vm_compute; reflexivity)); [exact ample_full|].
  exists 1060, demo_claims. split; [reflexivity|]. split; [lia|]. split; [vm_compute; split; congruence|].
  exists (bstr "ed25519"), (sample_cert (machine_alg (bstr "ed25519") false)), false, identity_signature, demo_payload, sample_payload.
  split; [apply (machine_open_iff _ TAMGA_SCHEME_ED25519_SIGN); vm_compute; reflexivity|]. split; [vm_compute; reflexivity|].
  split; [apply valid_ed25519; [reflexivity|reflexivity|apply identity_valid]|].
  split; [apply machine_plaintext_iff; vm_compute; reflexivity|]. exact sample_contents.
Defined.
