(* ===== verification/Transport.v ===== *)
(** * The transport seam: [src/src/http/transport.c]

    Requests, responses and transports as [transport.h] declares them. A
    response is passed by value, so the [response == NULL] guards have no
    counterpart; a body is the span of [body_len] bytes at [body]. The blocks
    [tamga_http_response_free] and [tamga_http_transport_destroy] release have
    no other effect than what the transport's own [destroy] does.

    Behind the seam are the backends ([Curl], [WinHttp]) or a function that the
    application registers. A transport is therefore any function of the
    environment: of the allocator and error slot, which it may use, and of
    [net], everything else it can reach. *)

From S2P Require Import Prelude World.
From stdpp Require Import list.
#[local] Open Scope Z_scope.

Inductive TamgaTransportFailure :=
| TAMGA_TRANSPORT_FAIL_NETWORK | TAMGA_TRANSPORT_FAIL_OVERSIZED | TAMGA_TRANSPORT_FAIL_OUT_OF_MEMORY.

Record TamgaHttpRequest := mk_request {
  req_method : bytes;
  req_url : bytes;
  req_headers : list (bytes * bytes);
  req_body : option bytes;
  req_body_len : Z;
  req_timeout_ms : Z;
}.

Record TamgaHttpResponse := mk_http {
  http_status : Z;
  http_body : option bytes;
  http_headers : list (bytes * bytes);
  header_capacity : Z;
  http_failure : TamgaTransportFailure;
}.

Definition tamga_http_response_init : TamgaHttpResponse :=
  mk_http 0 None [] 0 TAMGA_TRANSPORT_FAIL_NETWORK.

Definition tamga_http_response_free (response : TamgaHttpResponse) : TamgaHttpResponse :=
  tamga_http_response_init.

(** Interaction with the world. What the client itself does, handing a request
    to a transport and sleeping, is recorded in [io_trace]. *)
Inductive event :=
| Performed (request : TamgaHttpRequest)
| Slept (milliseconds : Z).

Record io (net : Type) := mk_io { io_st : st; io_net : net; io_trace : list event }.
Arguments mk_io {net} _ _ _.
Arguments io_st {net} _.
Arguments io_net {net} _.
Arguments io_trace {net} _.

Definition IO (net A : Type) : Type := io net -> A * io net.

(** [perform] and [destroy] applied to the transport's [user_data]. *)
Record TamgaHttpTransport (net : Type) := mk_transport {
  transport_perform : TamgaHttpRequest -> TamgaHttpResponse -> st * net -> (bool * TamgaHttpResponse) * (st * net);
  transport_destroy : option (st * net -> st * net);
}.
Arguments mk_transport {net} _ _.
Arguments transport_perform {net} _ _ _ _.
Arguments transport_destroy {net} _.

Section Io.
Context {net : Type}.

Definition io_ret {A} (a : A) : IO net A := fun w => (a, w).
Definition io_bind {A B} (m : IO net A) (f : A -> IO net B) : IO net B := fun w => let '(a, w') := m w in f a w'.

Definition lift {A} (m : M A) : IO net A :=
  fun w => let '(a, s) := m (io_st w) in (a, mk_io s (io_net w) (io_trace w)).

(** One call of [transport->perform]. *)
Definition io_perform (transport : TamgaHttpTransport net) (request : TamgaHttpRequest) (http : TamgaHttpResponse)
  : IO net (bool * TamgaHttpResponse) :=
  fun w =>
    let '(r, (s, n)) := transport_perform transport request http (io_st w, io_net w) in
    (r, mk_io s n (io_trace w ++ [Performed request])).

Definition io_sleep (milliseconds : Z) : IO net unit :=
  fun w => (tt, mk_io (io_st w) (io_net w) (io_trace w ++ [Slept milliseconds])).

Definition tamga_http_transport_destroy (transport : option (TamgaHttpTransport net)) : IO net unit :=
  fun w =>
    match transport with
    | None => (tt, w)
    | Some t =>
        match transport_destroy t with
        | None => (tt, w)
        | Some destroy => let '(s, n) := destroy (io_st w, io_net w) in (tt, mk_io s n (io_trace w))
        end
    end.
End Io.

Notation "'do!' x ':=' m 'in' k" := (io_bind m (fun x => k))
  (at level 10, x pattern, m at level 100, k at level 200) : tamga_scope.

Definition sizeof_TamgaHttpHeader : Z := 16.

Section Headers.
Context {malloc : Malloc}.

(** The growth step: the array's new capacity, or a refusal. *)
Definition grow_headers (response : TamgaHttpResponse) : M (bool * TamgaHttpResponse) :=
  if zlen (http_headers response) >=? header_capacity response then
    let new_capacity := if header_capacity response =? 0 then 8 else header_capacity response * 2 in
    if new_capacity >? 512 then ret (false, response)
    else
      match tamga_checked_mul new_capacity sizeof_TamgaHttpHeader with
      | None => ret (false, response)
      | Some size =>
          let! grown := tamga_realloc size in
          if grown : bool
          then ret (true, mk_http (http_status response) (http_body response) (http_headers response) new_capacity (http_failure response))
          else ret (false, response)
      end
  else ret (true, response).

Definition tamga_http_response_add_header (response : TamgaHttpResponse) (name value : option bytes)
  : M (bool * TamgaHttpResponse) :=
  match name, value with
  | Some _, Some _ =>
      let! (ok, response) := grow_headers response in
      if negb ok then ret (false, response)
      else
        let! name_copy := tamga_strdup name in
        let! value_copy := tamga_strdup value in
        match name_copy, value_copy with
        | Some n, Some v =>
            ret (true, mk_http (http_status response) (http_body response) (http_headers response ++ [(n, v)])
                               (header_capacity response) (http_failure response))
        | _, _ => ret (false, response)
        end
  | _, _ => ret (false, response)
  end.
End Headers.

Definition ascii_lower (c : Z) : Z := if (65 <=? c) && (c <=? 90) then c + 32 else c.

(** The loop of [tamga_header_name_equal], on strings without their
    terminators: past the end of one of them the last comparison is of a zero
    byte with what the other has there. *)
Fixpoint name_equal_loop (a b : bytes) : bool :=
  match a, b with
  | ca :: a', cb :: b' => if ascii_lower ca =? ascii_lower cb then name_equal_loop a' b' else false
  | [], [] => true
  | _, _ => false
  end.

Definition tamga_header_name_equal (a b : bytes) : bool := name_equal_loop (c_view a) (c_view b).

Fixpoint http_header_loop (headers : list (bytes * bytes)) (name : bytes) : option bytes :=
  match headers with
  | [] => None
  | (n, v) :: headers' => if tamga_header_name_equal n name then Some v else http_header_loop headers' name
  end.

Definition tamga_http_response_header (response : TamgaHttpResponse) (name : option bytes) : option bytes :=
  match name with
  | None => None
  | Some name => http_header_loop (http_headers response) name
  end.

(** ** Lookup *)

(** Names that differ only in the case of ASCII letters. *)
Definition same_name (a b : bytes) : Prop := map ascii_lower (c_view a) = map ascii_lower (c_view b).

#[export] Instance same_name_equiv : Equivalence same_name.
Proof. split; unfold same_name; congruence. Qed.

#[export] Instance same_name_dec a b : Decision (same_name a b).
Proof. unfold same_name. apply _. Defined.

Lemma name_equal_loop_iff a b : name_equal_loop a b = true <-> map ascii_lower a = map ascii_lower b.
Proof.
  revert b. induction a as [|ca a IH]; intros [|cb b]; cbn [name_equal_loop map]; [done..|].
  destruct (Z.eqb_spec (ascii_lower ca) (ascii_lower cb)) as [->|Hne].
  - rewrite IH. split; congruence.
  - split; [done|]. congruence.
Qed.

Lemma header_name_equal_iff a b : tamga_header_name_equal a b = true <-> same_name a b.
Proof. apply name_equal_loop_iff. Qed.

(** The first header of that name. *)
Definition find_header (headers : list (bytes * bytes)) (name : bytes) : option bytes :=
  head (map snd (filter (fun h => same_name (fst h) name) headers)).

(** ** Growth *)

(** The array holds its headers, and never has more than 512 slots. *)
Definition http_wf (response : TamgaHttpResponse) : Prop :=
  zlen (http_headers response) <= header_capacity response <= 512 /\
  (header_capacity response = 0 \/ exists k, 3 <= k <= 9 /\ header_capacity response = 2 ^ k).
