(* ===== verification/Backend.v ===== *)
(** * What the two built-in transports share

    [src/src/http/transport_curl.c] and [src/src/http/transport_winhttp.c] run in
    the environment of a transport: the allocator, and the state [lib] of the
    HTTP library they call. Here are the state-passing of such code, its
    postconditions, the list of response headers both of them fill, and loops
    that are bounded by a number too large for unary fuel. *)

From Stdlib Require Import String.
From S2P Require Import Prelude World Buf BufBuild Transport.
From stdpp Require Import list.
#[local] Open Scope Z_scope.

Definition TAMGA_VERSION_STRING : bytes := bstr "1.3.5".

Definition B (lib A : Type) : Type := st * lib -> A * (st * lib).

(** [(int)x] and [(long)x], of 32 and 64 bits. *)
Definition int_of (x : Z) : Z := (x + 2 ^ 31) mod 2 ^ 32 - 2 ^ 31.
Definition long_of (x : Z) : Z := (x + 2 ^ 63) mod 2 ^ 64 - 2 ^ 63.

Section Backend.
Context {lib : Type}.

Definition b_ret {A} (a : A) : B lib A := fun w => (a, w).
Definition b_bind {A A'} (m : B lib A) (f : A -> B lib A') : B lib A' := fun w => let '(a, w') := m w in f a w'.

(** A step of the library under verification, and a call of the other one. *)
Definition b_lift {A} (m : M A) : B lib A := fun w => let '(a, s) := m w.1 in (a, (s, w.2)).
Definition b_call {A} (f : lib -> A * lib) : B lib A := fun w => let '(a, l) := f w.2 in (a, (w.1, l)).

(** The result of [m] from [w] and the state it leaves satisfy [Q]. *)
Definition b_post {A} (m : B lib A) (w : st * lib) (Q : A -> st * lib -> Prop) : Prop := Q (m w).1 (m w).2.

Lemma b_post_ret {A} (a : A) w (Q : A -> st * lib -> Prop) : Q a w -> b_post (b_ret a) w Q.
Proof. done. Qed.

Lemma b_post_bind {A A'} (m : B lib A) (f : A -> B lib A') w Q :
  b_post m w (fun a w' => b_post (f a) w' Q) -> b_post (b_bind m f) w Q.
Proof. unfold b_post, b_bind. by destruct (m w). Qed.

Lemma b_post_mono {A} (m : B lib A) w (P Q : A -> st * lib -> Prop) :
  b_post m w P -> (forall a w', P a w' -> Q a w') -> b_post m w Q.
Proof. intros H HPQ. by apply HPQ. Qed.

Lemma b_post_lift {A} (m : M A) w (P : A -> Prop) (Q : A -> st * lib -> Prop) :
  post m P -> (forall a s, P a -> Q a (s, w.2)) -> b_post (b_lift m) w Q.
Proof. intros Hm HQ. specialize (Hm w.1). unfold b_post, b_lift. destruct (m w.1) as [a s]. by apply HQ. Qed.

Lemma b_post_call {A} (f : lib -> A * lib) w (Q : A -> st * lib -> Prop) :
  (forall a l, f w.2 = (a, l) -> Q a (w.1, l)) -> b_post (b_call f) w Q.
Proof. intros HQ. unfold b_post, b_call. destruct (f w.2) as [a l] eqn:E. by apply HQ. Qed.
End Backend.

Notation "'run!' x ':=' m 'in' k" := (b_bind m (fun x => k))
  (at level 10, x pattern, m at level 100, k at level 200) : tamga_scope.
Notation "m ;;b k" := (b_bind m (fun _ => k))
  (at level 100, right associativity) : tamga_scope.

Definition response_failed (response : TamgaHttpResponse) (reason : TamgaTransportFailure) : TamgaHttpResponse :=
  mk_http (http_status response) (http_body response) (http_headers response) (header_capacity response) reason.

Definition response_with_status (response : TamgaHttpResponse) (status : Z) : TamgaHttpResponse :=
  mk_http status (http_body response) (http_headers response) (header_capacity response) (http_failure response).

(** [response->body] and [response->body_len]. *)
Definition response_with_body (response : TamgaHttpResponse) (body : option bytes) : TamgaHttpResponse :=
  mk_http (http_status response) body (http_headers response) (header_capacity response) (http_failure response).

(** Both split a header line with the loop
    [while (value_start < total && (data[value_start] == ' ' || data[value_start] == '\t')) value_start++]. *)
Definition is_blank (c : Z) : bool := (c =? 32) || (c =? 9).

Fixpoint skip_blanks (l : bytes) : bytes :=
  match l with
  | c :: l' => if is_blank c then skip_blanks l' else l
  | [] => []
  end.

(** ** Bounded loops

    [for (;;)] with a bound on its iterations: a step goes on from a new state
    ([inl]) or leaves the loop ([inr]); [inl] is returned when the bound is
    reached. The bound is binary, so that it costs nothing to evaluate a loop
    that ends early. *)
Section Iterate.
Context {lib A R : Type} (step : A -> B lib (A + R)).

Definition and_then (m : B lib (A + R)) (k : A -> B lib (A + R)) : B lib (A + R) :=
  run! r := m in match r with inl a => k a | inr _ => b_ret r end.

Fixpoint iterate (bound : positive) (a : A) : B lib (A + R) :=
  match bound with
  | xH => step a
  | xO p => and_then (iterate p a) (iterate p)
  | xI p => and_then (step a) (fun a => and_then (iterate p a) (iterate p))
  end.

(** A loop with an invariant that counts up to less than its bound leaves. *)
Lemma iterate_post (Inv : Z -> A -> st * lib -> Prop) (Q : R -> st * lib -> Prop) (limit : Z) :
  (forall i a w, Inv i a w -> b_post (step a) w (fun r w' => match r with inl a' => exists j, i < j <= limit /\ Inv j a' w' | inr x => Q x w' end)) ->
  forall bound i a w, Inv i a w ->
  b_post (iterate bound a) w (fun r w' => match r with inl a' => exists j, i + Zpos bound <= j <= limit /\ Inv j a' w' | inr x => Q x w' end).
Proof.
  intros Hstep.
  assert (forall m k i n w, b_post m w (fun r w' => match r with inl a' => exists j, i + n <= j <= limit /\ Inv j a' w' | inr x => Q x w' end) ->
    forall n', (forall j a' w', Inv j a' w' -> b_post (k a') w' (fun r w'' => match r with inl a'' => exists j', j + n' <= j' <= limit /\ Inv j' a'' w'' | inr x => Q x w'' end)) ->
    b_post (and_then m k) w (fun r w' => match r with inl a' => exists j, i + (n + n') <= j <= limit /\ Inv j a' w' | inr x => Q x w' end)) as Hthen.
  { intros m k i n w Hm n' Hk. apply b_post_bind. eapply b_post_mono; [exact Hm|]. intros [a'|x] w'; [|by intros H].
    intros (j & Hj & Hinv). eapply b_post_mono; [by apply (Hk j)|]. intros [a''|x] w''; [|done]. intros (j' & Hj' & ?). exists j'. split; [lia|done]. }
  assert (forall i a w, Inv i a w -> b_post (step a) w (fun r w' => match r with inl a' => exists j, i + 1 <= j <= limit /\ Inv j a' w' | inr x => Q x w' end)) as Hone.
  { intros i a w Hi. eapply b_post_mono; [by apply (Hstep i)|]. intros [a'|x] w'; [|done]. intros (j & Hj & ?). exists j. split; [lia|done]. }
  induction bound as [p IH|p IH|]; intros i a w Hi; cbn [iterate].
  - replace (Zpos p~1) with (1 + (Zpos p + Zpos p)) by lia. apply Hthen; [by apply Hone|]. intros j a' w' Hj. apply Hthen; [by apply IH|by apply IH].
  - replace (Zpos p~0) with (Zpos p + Zpos p) by lia. apply Hthen; [by apply IH|by apply IH].
  - by apply Hone.
Qed.
End Iterate.

(** Detaching a body, which may contain zero bytes. *)
Lemma buf_has_detach_terminated `{Malloc} total b l :
  buf_has total b l ->
  post (tamga_buf_detach_terminated b) (fun '(r, _) => r = Some l \/ (r = None /\ ~ (enough total /\ zlen l <= total))).
Proof.
  intros (Hwf & Hl & Hok). apply post_intro. intros s [[r|] b'] s' E.
  - left. apply detach_impl_Some in E as (Hf & -> & _); [|done]. by rewrite Hl.
  - right. split; [done|]. intros [He Hlen]. specialize (Hok He Hlen). specialize (Hl Hok).
    destruct He as (limit & Hm & Hlim & Hroom).
    assert (buf_room (limit := limit) b 0) as Hr.
    { split_and!; [done|done|]. rewrite (wf_len _ Hwf), Hl. lia. }
    destruct (detach_impl_ok Hlim b true s Hr) as [s1 E1]; [done|]. unfold tamga_buf_detach_terminated in E. congruence.
Qed.

(** ** Filling the header list *)

Section Fields.
Context {malloc : Malloc}.

(** A name or a value that one of the fixed buffers can hold. *)
Definition short_field (f : bytes * bytes) : Prop := zlen f.1 < 1024 /\ zlen f.2 < 1024.

(** The part of a response that adding a header leaves alone. *)
Definition same_answer (r r' : TamgaHttpResponse) : Prop :=
  http_status r' = http_status r /\ http_body r' = http_body r /\ http_failure r' = http_failure r.

#[export] Instance same_answer_preorder : PreOrder same_answer.
Proof. unfold same_answer. split; [done|]. intros x y z ? ?. naive_solver congruence. Qed.

(** The memory one header takes: 512 slots of 16 bytes. *)
Definition header_memory : Z := 4096.

Lemma grow_headers_post r :
  http_wf r ->
  post (grow_headers r) (fun '(ok, r') => http_wf r' /\ same_answer r r' /\ http_headers r' = http_headers r /\
    (ok = true -> zlen (http_headers r) < header_capacity r') /\
    (enough header_memory -> zlen (http_headers r) < 512 -> ok = true)).
Proof.
  intros [Hlen Hcap]. unfold grow_headers. destruct (Z.geb_spec (zlen (http_headers r)) (header_capacity r)) as [Hfull|Hroom].
  2:{ apply post_ret. by split_and!. }
  set (cap := if header_capacity r =? 0 then 8 else header_capacity r * 2).
  assert (header_capacity r < cap /\ (cap <= 512 -> exists k, 3 <= k <= 9 /\ cap = 2 ^ k) /\ (512 < cap -> header_capacity r = 512)) as (Hlt & Hpow & Hbig).
  { unfold cap. destruct Hcap as [->|(k & Hk & ->)]; [split_and!; [done| |done]; intros _; by exists 3|].
    rewrite (proj2 (Z.eqb_neq _ _)) by lia.
    assert (k = 9 \/ k <= 8) as [->|Hk8] by lia; [by split_and!|]. split_and!.
    - lia.
    - intros _. exists (k + 1). split; [lia|]. rewrite Z.pow_add_r; lia.
    - pose proof (Z.pow_le_mono_r 2 k 8 ltac:(lia) ltac:(lia)). lia. }
  destruct (Z.gtb_spec cap 512) as [Hover|Hfit]; [apply post_ret; split_and!; try done; lia|].
  destruct (tamga_checked_mul cap sizeof_TamgaHttpHeader) as [size|] eqn:E.
  2:{ exfalso. assert (tamga_checked_mul cap sizeof_TamgaHttpHeader = Some (cap * 16)) as E'; [|congruence].
      apply checked_mul_Some; unfold sizeof_TamgaHttpHeader, SIZE_MAX in *; lia. }
  apply checked_mul_Some in E as [-> _]; [|unfold sizeof_TamgaHttpHeader; lia..].
  eapply (post_bind _ _ (fun ok => enough header_memory -> ok = true)).
  { intros s He. unfold tamga_realloc. eapply enough_malloc; [done|]. unfold header_memory, sizeof_TamgaHttpHeader.
    destruct (Z.eqb_spec (cap * 16) 0); lia. }
  intros [|] Hok; apply post_ret.
  - split_and!; [|done|done|cbn; lia|done]. split; cbn; [lia|]. right. auto.
  - split_and!; [done..|]. intros He. by specialize (Hok He).
Qed.

Lemma add_header_post r name value :
  http_wf r ->
  post (tamga_http_response_add_header r (Some name) (Some value)) (fun '(ok, r') => http_wf r' /\ same_answer r r' /\
    http_headers r' = http_headers r ++ (if ok : bool then [(c_view name, c_view value)] else []) /\
    (enough header_memory -> short_field (c_view name, c_view value) -> zlen (http_headers r) < 512 -> ok = true)).
Proof.
  intros Hwf. cbn [tamga_http_response_add_header]. eapply post_bind; [by apply grow_headers_post|].
  intros [[|] r'] (Hwf' & Hsame & Hh & Hroom & Hok); cbn [negb].
  2:{ apply post_ret. split_and!; [done|done|by rewrite app_nil_r|]. intros He _ Hl. by specialize (Hok He Hl). }
  specialize (Hroom eq_refl). eapply post_bind; [apply strndup_post|]. intros n Hn. eapply post_bind; [apply strndup_post|]. intros v Hv.
  assert (forall l, enough header_memory -> zlen (c_view l) < 1024 -> enough (zlen (c_view l)) /\ ~ In 0 (c_view l) /\ zlen (c_view l) <= TAMGA_MAX_REASONABLE_LEN) as Hs.
  { intros l He Hl. split_and!; [eapply enough_mono; [exact He|unfold header_memory; lia]|auto with tamga|unfold TAMGA_MAX_REASONABLE_LEN; lia]. }
  destruct n as [n|]; [|apply post_ret; split_and!; [done|done|by rewrite app_nil_r|]; intros He [Hl _] _; by destruct Hn; apply Hs].
  destruct v as [v|]; [|apply post_ret; split_and!; [done|done|by rewrite app_nil_r|]; intros He [_ Hl] _; by destruct Hv; apply Hs].
  destruct Hn as [-> _], Hv as [-> _]. apply post_ret. split_and!; [|done|by cbn; rewrite Hh|done].
  destruct Hwf' as [H1 H2]. split; cbn; [|done]. rewrite length_app, Hh. cbn [length]. lia.
Qed.

(** The headers of a response are those of [fields] that were kept: all of the
    first 512 with memory for them, and some of them in their order otherwise. *)
Definition holds_fields (r : TamgaHttpResponse) (fields : list (bytes * bytes)) : Prop :=
  http_wf r /\ http_headers r `sublist_of` fields /\ (enough header_memory -> http_headers r = take 512 fields).

Lemma holds_fields_init : holds_fields tamga_http_response_init [].
Proof. split_and!; [|done|done]. split; [done|]. by left. Qed.

Lemma add_header_holds r fields name value :
  holds_fields r fields -> short_field (c_view name, c_view value) ->
  post (tamga_http_response_add_header r (Some name) (Some value)) (fun '(_, r') =>
    holds_fields r' (fields ++ [(c_view name, c_view value)]) /\ same_answer r r').
Proof.
  intros (Hwf & Hsub & Hall) Hshort. eapply post_mono; [by apply add_header_post|].
  intros [ok r'] (Hwf' & Hsame & Hh & Hok). split; [|done]. split_and!; [done| |].
  - rewrite Hh. destruct ok; [by apply sublist_app|]. rewrite app_nil_r. etrans; [done|]. by apply sublist_inserts_r.
  - intros He. specialize (Hall He). rewrite Hh, Hall. specialize (Hok He Hshort).
    destruct (decide (512 <= length fields)%nat) as [Hge|Hlt].
    + rewrite (take_app_le fields) by lia. destruct ok; [|by rewrite app_nil_r]. exfalso.
      destruct Hwf' as [[Hl Hc] _]. rewrite Hh, Hall, length_app, length_take in Hl. cbn [length] in Hl. lia.
    + rewrite take_ge by lia. rewrite Hok.
      * rewrite take_ge; [done|]. rewrite length_app. cbn [length]. lia.
      * rewrite Hall, length_take. lia.
Qed.
End Fields.
