(* ===== verification/Curl.v ===== *)
(** * The libcurl transport: [src/src/http/transport_curl.c]

    libcurl is outside the repository and a parameter here ([LibCurl]). An easy
    handle is the list of options set on it since it was last reset; a transfer
    is what libcurl does between the call of [curl_easy_perform] and its return:
    it calls the two callbacks, each time goes on from the count they return,
    and ends with a code. That a transfer is a finite tree says that the call
    returns. The callbacks and their data pointers are set with options libcurl
    cannot refuse, so the calls of a transfer are calls of the two functions
    below.

    The request and the response are passed by value, so their null guards have
    no counterpart; releasing the header list and the buffer has no effect. *)

From Stdlib Require Import String.
From S2P Require Import Prelude World Buf Transport Backend.
From stdpp Require Import list.
#[local] Open Scope Z_scope.

(** ** libcurl *)

(** The functions of this file that are passed to libcurl. *)
Inductive curl_callback := write_body_callback | write_header_callback.

(** An option with the value it is set to. *)
Inductive CURLoption :=
| CURLOPT_URL (url : bytes)
| CURLOPT_HTTPHEADER (headers : list bytes)
| CURLOPT_WRITEFUNCTION (callback : curl_callback)
| CURLOPT_WRITEDATA_sink
| CURLOPT_HEADERFUNCTION (callback : curl_callback)
| CURLOPT_HEADERDATA_response
| CURLOPT_TIMEOUT_MS (milliseconds : Z)
| CURLOPT_USERAGENT (agent : bytes)
| CURLOPT_NOSIGNAL (value : Z)
| CURLOPT_SSL_VERIFYPEER (value : Z)
| CURLOPT_SSL_VERIFYHOST (value : Z)
| CURLOPT_FOLLOWLOCATION (value : Z)
| CURLOPT_PROTOCOLS_STR (protocols : bytes)
| CURLOPT_PROTOCOLS (mask : Z)
| CURLOPT_HTTPGET (value : Z)
| CURLOPT_CUSTOMREQUEST (method : bytes)
| CURLOPT_POSTFIELDS (body : bytes)
| CURLOPT_POSTFIELDSIZE (size : Z).

Definition CURLE_OK : Z := 0.
Definition CURLPROTO_HTTP : Z := 1.
Definition CURLPROTO_HTTPS : Z := 2.

(** [data] is the span of [size * count] bytes a callback is given. *)
Inductive transfer (net : Type) :=
| Done (result : Z) (after : net)
| HeaderLine (data : bytes) (size count : Z) (continue : Z -> transfer net)
| BodyChunk (data : bytes) (size count : Z) (continue : Z -> transfer net).
Arguments Done {net} _ _.
Arguments HeaderLine {net} _ _ _ _.
Arguments BodyChunk {net} _ _ _ _.

Class LibCurl (net : Type) := {
  (** [CURL_AT_LEAST_VERSION(7, 85, 0)] *)
  curl_at_least_7_85 : bool;
  (** whether a handle is returned *)
  curl_easy_init : net -> bool * net;
  curl_easy_cleanup : net -> net;
  (** whether the string, which libcurl copies, could be added to the list *)
  curl_slist_append : list bytes -> bytes -> net -> bool * net;
  curl_easy_setopt : list CURLoption -> CURLoption -> net -> Z * net;
  curl_easy_perform : list CURLoption -> net -> transfer net;
  (** [CURLINFO_RESPONSE_CODE]; [None] leaves the variable as it was *)
  curl_easy_getinfo : net -> option Z * net;
}.

(** The state of libcurl as the transport sees it: the options of its handle and
    everything else. [easy_transfers] records each call of [curl_easy_perform]:
    the options it ran with and the state it started in. *)
Record easy (net : Type) := mk_easy {
  easy_options : list CURLoption;
  easy_net : net;
  easy_transfers : list (list CURLoption * net);
}.
Arguments mk_easy {net} _ _ _.
Arguments easy_options {net} _.
Arguments easy_net {net} _.
Arguments easy_transfers {net} _.

(** ** The callbacks *)

Section Callbacks.
Context {malloc : Malloc}.

(** [sink->buf] and [sink->response] are returned with the count. *)
Definition tamga_curl_write_body (data : bytes) (size count : Z) (buf : TamgaBuf) (response : TamgaHttpResponse)
  : M (Z * TamgaBuf * TamgaHttpResponse) :=
  match tamga_checked_mul size count with
  | None => ret (0, buf, response_failed response TAMGA_TRANSPORT_FAIL_OVERSIZED)
  | Some total =>
      if u64 (buf_len buf + total) >? TAMGA_MAX_REASONABLE_LEN
      then ret (0, buf, response_failed response TAMGA_TRANSPORT_FAIL_OVERSIZED)
      else
        let! buf := tamga_buf_append buf (Some data) in
        if negb (tamga_buf_ok buf) then ret (0, buf, response_failed response TAMGA_TRANSPORT_FAIL_OUT_OF_MEMORY)
        else ret (total, buf, response)
  end.

Definition is_line_end (c : Z) : bool := (c =? 13) || (c =? 10) || (c =? 32) || (c =? 9).

(** [while (value_end > value_start && ...) value_end--], from the end. *)
Fixpoint drop_line_end (reversed : bytes) : bytes :=
  match reversed with
  | c :: r => if is_line_end c then drop_line_end r else reversed
  | [] => []
  end.

Definition trim_line_end (l : bytes) : bytes := rev (drop_line_end (rev l)).

(** The name and the value a header line is split into, as the buffers [name]
    and [value] hold them; [None] where the callback returns before adding. *)
Definition curl_header_field (data : bytes) : option (bytes * bytes) :=
  match memchr 58 data with
  | None => None
  | Some colon =>
      if (colon =? 0)%nat || (128 <=? colon)%nat then None
      else
        let name := take colon data in
        let value := trim_line_end (skip_blanks (drop (colon + 1) data)) in
        if (1024 <=? length value)%nat then None else Some (name, value)
  end.

Definition tamga_curl_write_header (data : bytes) (size count : Z) (response : TamgaHttpResponse)
  : M (Z * TamgaHttpResponse) :=
  match tamga_checked_mul size count with
  | None => ret (0, response)
  | Some total =>
      match curl_header_field data with
      | None => ret (total, response)
      | Some (name, value) =>
          let! (added, response) := tamga_http_response_add_header response (Some name) (Some value) in
          ret (total, response)
      end
  end.

(** libcurl's side of a transfer: the callbacks are run in its order. *)
Fixpoint run_transfer {net} (t : transfer net) (buf : TamgaBuf) (response : TamgaHttpResponse)
  : M (Z * net * TamgaBuf * TamgaHttpResponse) :=
  match t with
  | Done result after => ret (result, after, buf, response)
  | HeaderLine data size count continue =>
      let! (n, response) := tamga_curl_write_header data size count response in
      run_transfer (continue n) buf response
  | BodyChunk data size count continue =>
      let! (n, buf, response) := tamga_curl_write_body data size count buf response in
      run_transfer (continue n) buf response
  end.
End Callbacks.

(** ** Performing a request *)

Section Perform.
Context {malloc : Malloc} {net : Type} {curl : LibCurl net}.

(** An accepted option is added to the handle's. *)
Definition setopt (option : CURLoption) : B (easy net) Z :=
  b_call (fun e =>
    let '(code, n) := curl_easy_setopt (easy_options e) option (easy_net e) in
    (code, mk_easy (if code =? CURLE_OK then easy_options e ++ [option] else easy_options e) n (easy_transfers e))).

(** [curl_easy_reset(state->handle)] *)
Definition reset : B (easy net) unit :=
  b_call (fun e => (tt, mk_easy [] (easy_net e) (easy_transfers e))).

Definition slist_append (list : list bytes) (line : bytes) : B (easy net) bool :=
  b_call (fun e =>
    let '(ok, n) := curl_slist_append list line (easy_net e) in (ok, mk_easy (easy_options e) n (easy_transfers e))).

Definition getinfo_response_code : B (easy net) (option Z) :=
  b_call (fun e => let '(status, n) := curl_easy_getinfo (easy_net e) in (status, mk_easy (easy_options e) n (easy_transfers e))).

(** [curl_easy_perform(state->handle)] with the sink set up for it. *)
Definition perform_transfer (body : TamgaBuf) (response : TamgaHttpResponse) : B (easy net) (Z * TamgaBuf * TamgaHttpResponse) :=
  fun '(s, e) =>
    let started := easy_transfers e ++ [(easy_options e, easy_net e)] in
    let '((result, n, body, response), s) := run_transfer (curl_easy_perform (easy_options e) (easy_net e)) body response s in
    ((result, body, response), (s, mk_easy (easy_options e) n started)).

Definition tamga_curl_restrict_protocols : B (easy net) bool :=
  if curl_at_least_7_85 then
    run! code := setopt (CURLOPT_PROTOCOLS_STR (bstr "http,https")) in b_ret (code =? CURLE_OK)
  else
    run! code := setopt (CURLOPT_PROTOCOLS (Z.lor CURLPROTO_HTTP CURLPROTO_HTTPS)) in b_ret (code =? CURLE_OK).

(** One line of the header list. *)
Definition header_line (name value : bytes) : M (option bytes) :=
  let! line := tamga_buf_append_str tamga_buf_init (Some name) in
  let! line := tamga_buf_append_str line (Some (bstr ": ")) in
  let! line := tamga_buf_append_str line (Some value) in
  let! (joined, _) := tamga_buf_detach_string line in
  ret joined.

(** The loop over [request->headers]; [None] is [goto done] for want of memory. *)
Fixpoint header_list (pending : list (bytes * bytes)) (headers : list bytes) : B (easy net) (option (list bytes)) :=
  match pending with
  | [] => b_ret (Some headers)
  | (name, value) :: pending' =>
      run! joined := b_lift (header_line name value) in
      match joined with
      | None => b_ret None
      | Some joined =>
          run! appended := slist_append headers joined in
          if appended : bool then header_list pending' (headers ++ [joined]) else b_ret None
      end
  end.

(** The options whose results are discarded. *)
Definition set_request_options (request : TamgaHttpRequest) (headers : list bytes) : B (easy net) unit :=
  setopt (CURLOPT_URL (c_view (req_url request))) ;;b
  setopt (CURLOPT_HTTPHEADER headers) ;;b
  setopt (CURLOPT_WRITEFUNCTION write_body_callback) ;;b
  setopt CURLOPT_WRITEDATA_sink ;;b
  setopt (CURLOPT_HEADERFUNCTION write_header_callback) ;;b
  setopt CURLOPT_HEADERDATA_response ;;b
  setopt (CURLOPT_TIMEOUT_MS (long_of (req_timeout_ms request))) ;;b
  setopt (CURLOPT_USERAGENT (bstr "tamga-c/" ++ TAMGA_VERSION_STRING)) ;;b
  setopt (CURLOPT_NOSIGNAL 1) ;;b
  b_ret tt.

(** The options whose results are checked, in the order of the [||]. *)
Definition set_checked_options : B (easy net) bool :=
  run! code := setopt (CURLOPT_SSL_VERIFYPEER 1) in
  if negb (code =? CURLE_OK) then b_ret false
  else
    run! code := setopt (CURLOPT_SSL_VERIFYHOST 2) in
    if negb (code =? CURLE_OK) then b_ret false
    else
      run! code := setopt (CURLOPT_FOLLOWLOCATION 0) in
      if negb (code =? CURLE_OK) then b_ret false
      else tamga_curl_restrict_protocols.

Definition set_method_options (request : TamgaHttpRequest) : B (easy net) unit :=
  if beq (c_view (req_method request)) (bstr "GET") then
    setopt (CURLOPT_HTTPGET 1) ;;b b_ret tt
  else
    setopt (CURLOPT_CUSTOMREQUEST (c_view (req_method request))) ;;b
    match req_body request with
    | Some body =>
        setopt (CURLOPT_POSTFIELDS body) ;;b
        setopt (CURLOPT_POSTFIELDSIZE (long_of (req_body_len request))) ;;b
        b_ret tt
    | None =>
        setopt (CURLOPT_POSTFIELDSIZE 0) ;;b
        setopt (CURLOPT_POSTFIELDS []) ;;b
        b_ret tt
    end.

(** [state->handle != NULL] *)
Record TamgaCurlState := mk_curl_state { curl_handle : bool }.

Definition tamga_curl_perform (user_data : option TamgaCurlState) (request : TamgaHttpRequest) (response : TamgaHttpResponse)
  : B (easy net) (bool * TamgaHttpResponse) :=
  match user_data with
  | None => b_ret (false, response)
  | Some state =>
      if negb (curl_handle state) then b_ret (false, response)
      else
        let body := tamga_buf_init in
        reset ;;b
        run! headers := header_list (req_headers request) [] in
        match headers with
        | None => b_ret (false, response_failed response TAMGA_TRANSPORT_FAIL_OUT_OF_MEMORY)
        | Some headers =>
            set_request_options request headers ;;b
            run! checked := set_checked_options in
            if negb checked then b_ret (false, response)
            else
              set_method_options request ;;b
              run! (result, body, response) := perform_transfer body response in
              if negb (result =? CURLE_OK) then b_ret (false, response)
              else
                run! status := getinfo_response_code in
                let response := response_with_status response (int_of (default 0 status)) in
                run! (detached, _) := b_lift (tamga_buf_detach_terminated body) in
                let response := response_with_body response detached in
                match detached with
                | None => b_ret (false, response_failed response TAMGA_TRANSPORT_FAIL_OUT_OF_MEMORY)
                | Some _ => b_ret (true, response)
                end
        end
  end.

Definition tamga_curl_destroy (user_data : option TamgaCurlState) (w : st * easy net) : st * easy net :=
  match user_data with
  | None => w
  | Some state =>
      if curl_handle state
      then (w.1, mk_easy (easy_options w.2) (curl_easy_cleanup (easy_net w.2)) (easy_transfers w.2))
      else w
  end.

Definition sizeof_TamgaCurlState : Z := 8.
Definition sizeof_transport : Z := 24.

(** [curl_easy_init] returns a fresh handle, with no option set. *)
Definition tamga_http_transport_create_curl : B (easy net) (option (TamgaHttpTransport (easy net))) :=
  run! allocated := b_lift (tamga_calloc 1 sizeof_TamgaCurlState) in
  if negb allocated then b_ret None
  else
    run! handle := b_call (fun e => let '(ok, n) := curl_easy_init (easy_net e) in (ok, mk_easy [] n (easy_transfers e))) in
    if negb handle then b_ret None
    else
      let state := mk_curl_state handle in
      run! allocated := b_lift (tamga_calloc 1 sizeof_transport) in
      if negb allocated then
        b_call (fun e => (tt, mk_easy (easy_options e) (curl_easy_cleanup (easy_net e)) (easy_transfers e))) ;;b
        b_ret None
      else
        b_ret (Some (mk_transport (tamga_curl_perform (Some state)) (Some (tamga_curl_destroy (Some state))))).
End Perform.
