(* ===== verification/CurlSpec.v ===== *)
(** * What the libcurl transport asks for and what it answers

    The options of every transfer it starts, the header lines it keeps, and the
    response it makes of a transfer. What that means for a client on this
    transport is in [Backends]. *)

From Stdlib Require Import String.
From S2P Require Import Prelude World Buf BufBuild Transport Backend Curl.
From stdpp Require Import list sets.
#[local] Open Scope Z_scope.

(** ** Header lines *)

Definition blank (c : Z) : Prop := c = 32 \/ c = 9.
Definition line_end (c : Z) : Prop := c = 13 \/ c = 10 \/ c = 32 \/ c = 9.

(** [name: value], the value without the blanks and line ends around it, both
    within the sizes the transport reserves for them. *)
Definition field_line (line name value : bytes) : Prop :=
  exists blanks tail, line = name ++ [58] ++ blanks ++ value ++ tail /\
    name <> [] /\ ~ In 58 name /\ zlen name < 128 /\ zlen value < 1024 /\
    Forall blank blanks /\ Forall line_end tail /\
    (forall c r, value = c :: r -> ~ blank c) /\ (forall r c, value = r ++ [c] -> ~ line_end c).

Lemma is_blank_spec c : is_blank c = true <-> blank c.
Proof. unfold is_blank, blank. rewrite orb_true_iff. lia. Qed.

Lemma is_line_end_spec c : is_line_end c = true <-> line_end c.
Proof. unfold is_line_end, line_end. rewrite !orb_true_iff. lia. Qed.

Lemma skip_blanks_split l : exists b, l = b ++ skip_blanks l /\ Forall blank b /\ forall c r, skip_blanks l = c :: r -> ~ blank c.
Proof.
  induction l as [|c l (b & Hl & Hb & Hc)]; [by exists []|]. cbn [skip_blanks]. destruct (is_blank c) eqn:E.
  - exists (c :: b). split_and!; [cbn; by f_equal|constructor; [by apply is_blank_spec|done]|done].
  - exists []. split_and!; [done|done|]. intros ? ? [= <- _] H%is_blank_spec. congruence.
Qed.

Lemma skip_blanks_app b l : Forall blank b -> (forall c r, l = c :: r -> ~ blank c) -> skip_blanks (b ++ l) = l.
Proof.
  intros Hb Hl. induction Hb as [|c b Hc%is_blank_spec Hb IH]; cbn [app skip_blanks]; [|by rewrite Hc].
  destruct l as [|c r]; [done|]. cbn. destruct (is_blank c) eqn:E; [|done]. apply is_blank_spec in E. by destruct (Hl c r).
Qed.

Lemma drop_line_end_split l : exists t, l = t ++ drop_line_end l /\ Forall line_end t /\ forall c r, drop_line_end l = c :: r -> ~ line_end c.
Proof.
  induction l as [|c l (b & Hl & Hb & Hc)]; [by exists []|]. cbn [drop_line_end]. destruct (is_line_end c) eqn:E.
  - exists (c :: b). split_and!; [cbn; by f_equal|constructor; [by apply is_line_end_spec|done]|done].
  - exists []. split_and!; [done|done|]. intros ? ? [= <- _] H%is_line_end_spec. congruence.
Qed.

Lemma drop_line_end_app t l : Forall line_end t -> (forall c r, l = c :: r -> ~ line_end c) -> drop_line_end (t ++ l) = l.
Proof.
  intros Hb Hl. induction Hb as [|c b Hc%is_line_end_spec Hb IH]; cbn [app drop_line_end]; [|by rewrite Hc].
  destruct l as [|c r]; [done|]. cbn. destruct (is_line_end c) eqn:E; [|done]. apply is_line_end_spec in E. by destruct (Hl c r).
Qed.

Lemma trim_line_end_split l : exists t, l = trim_line_end l ++ t /\ Forall line_end t /\ forall r c, trim_line_end l = r ++ [c] -> ~ line_end c.
Proof.
  unfold trim_line_end. destruct (drop_line_end_split (rev l)) as (t & Hl & Ht & Hc). exists (rev t). split_and!.
  - rewrite <- rev_app_distr, <- Hl. by rewrite rev_involutive.
  - by apply Forall_rev.
  - intros r c Hr. apply (Hc c (rev r)). apply (f_equal (@rev Z)) in Hr. by rewrite rev_involutive, rev_app_distr in Hr.
Qed.

Lemma trim_line_end_app l t : Forall line_end t -> (forall r c, l = r ++ [c] -> ~ line_end c) -> trim_line_end (l ++ t) = l.
Proof.
  intros Ht Hl. unfold trim_line_end. rewrite rev_app_distr, drop_line_end_app; [by rewrite rev_involutive|by apply Forall_rev|].
  intros c r Hr. apply (Hl (rev r) c). by rewrite <- (rev_involutive l), Hr.
Qed.

Lemma memchr_app c a b : ~ In c a -> memchr c (a ++ c :: b) = Some (length a).
Proof. intros H. apply memchr_Some. by exists a, b. Qed.

Lemma curl_header_field_iff line name value : curl_header_field line = Some (name, value) <-> field_line line name value.
Proof.
  unfold curl_header_field. split.
  - destruct (memchr 58 line) as [colon|] eqn:E; [|done]. apply memchr_Some in E as (nm & rest & -> & <- & Hno).
    destruct ((length nm =? 0)%nat || _) eqn:E1; [done|]. apply orb_false_iff in E1 as [E1%Nat.eqb_neq E2%Nat.leb_gt].
    rewrite take_app_length. replace (nm ++ 58 :: rest) with ((nm ++ [58]) ++ rest) by (by rewrite <- app_assoc).
    rewrite drop_app_length' by (rewrite length_app; cbn [length]; lia).
    destruct (skip_blanks_split rest) as (b & Hb & Hblank & Hhead). set (v := skip_blanks _) in *.
    destruct (trim_line_end_split v) as (t & Ht & Htail & Hlast). destruct (1024 <=? _)%nat eqn:E3; [done|]. apply Nat.leb_gt in E3.
    intros [= <- <-]. exists b, t. split_and!; [|by intros ->|done|lia|lia|done|done| |done].
    + rewrite <- Ht, <- Hb. by rewrite <- app_assoc.
    + intros c r Hr. eapply (Hhead c (r ++ t)). by rewrite Ht, Hr.
  - intros (b & t & -> & Hne & Hno & Hn & Hv & Hb & Ht & Hhead & Hlast). cbn [app].
    rewrite memchr_app by done. destruct name as [|c name]; [done|]. set (nm := c :: name) in *.
    rewrite (proj2 (Nat.eqb_neq (length nm) 0)) by done. rewrite (proj2 (Nat.leb_gt 128 (length nm))) by lia. cbn [orb].
    replace (nm ++ 58 :: b ++ value ++ t) with ((nm ++ [58]) ++ b ++ value ++ t) by (by rewrite <- !app_assoc).
    rewrite drop_app_length' by (rewrite length_app; cbn [length]; lia).
    assert (trim_line_end (skip_blanks (b ++ value ++ t)) = value) as ->.
    { destruct value as [|c' value].
      - cbn [app]. destruct (skip_blanks_split (b ++ t)) as (b' & Hsplit & _). set (v := skip_blanks (b ++ t)) in *.
        assert (Forall line_end v) as Hv'.
        { assert (Forall line_end (b ++ t)) as H.
          { apply Forall_app. split; [|done]. eapply Forall_impl; [exact Hb|]. intros ? [-> | ->]; unfold line_end; lia. }
          rewrite Hsplit in H. apply Forall_app in H. apply H. }
        apply (trim_line_end_app []); [done|]. by intros [].
      - rewrite skip_blanks_app; [|done|].
        + by apply trim_line_end_app.
        + intros c2 r [= -> _]. by eapply Hhead. }
    rewrite (proj2 (Nat.leb_gt 1024 _)) by lia. do 2 f_equal. rewrite <- app_assoc. cbn [app]. by rewrite take_app_length.
Qed.

(** What the lines of an answer are kept as; a line that is not a field is
    passed over, and what is stored is a C string. *)
Inductive fields_of : list bytes -> list (bytes * bytes) -> Prop :=
| fields_nil : fields_of [] []
| fields_skip line lines fields :
    (forall name value, ~ field_line line name value) -> fields_of lines fields -> fields_of (line :: lines) fields
| fields_cons line lines fields name value :
    field_line line name value -> fields_of lines fields -> fields_of (line :: lines) ((c_view name, c_view value) :: fields).

Lemma fields_of_snoc lines fields line :
  fields_of lines fields ->
  fields_of (lines ++ [line]) (fields ++ match curl_header_field line with Some (n, v) => [(c_view n, c_view v)] | None => [] end).
Proof.
  intros H. induction H as [|l lines fields Hl H IH|l lines fields n v Hl H IH]; cbn [app].
  - destruct (curl_header_field line) as [[n v]|] eqn:E.
    + apply curl_header_field_iff in E. apply fields_cons; [done|constructor].
    + apply fields_skip; [|constructor]. intros n v Hf%curl_header_field_iff. congruence.
  - by apply fields_skip.
  - by apply fields_cons.
Qed.

(** ** Transfers *)

(** libcurl's documented treatment of a callback's count: the bytes it passes
    are [size * count] of them, and a count other than theirs ends the transfer
    with an error. *)
Definition refuses {net} (continue : Z -> transfer net) (n : Z) : Prop :=
  forall m, m <> n -> exists result after, continue m = Done result after /\ result <> CURLE_OK.

Fixpoint honours {net} (t : transfer net) : Prop :=
  match t with
  | Done _ _ => True
  | HeaderLine data size count continue | BodyChunk data size count continue =>
      0 <= size /\ 0 <= count /\ size * count = zlen data /\ zlen data < 2 ^ 63 /\
      refuses continue (zlen data) /\ honours (continue (zlen data))
  end.

(** What libcurl would hand over if every call were accepted: the header lines,
    the body, the result and the state it leaves. *)
Fixpoint accepted {net} (t : transfer net) : list bytes * bytes * Z * net :=
  match t with
  | Done result after => ([], [], result, after)
  | HeaderLine data _ _ continue => let '(lines, body, result, after) := accepted (continue (zlen data)) in (data :: lines, body, result, after)
  | BodyChunk data _ _ continue => let '(lines, body, result, after) := accepted (continue (zlen data)) in (lines, data ++ body, result, after)
  end.

Section Transfers.
Context {malloc : Malloc} {net : Type}.

Abbreviation MAX := TAMGA_MAX_REASONABLE_LEN.

Lemma checked_total size count (data : bytes) :
  0 <= size -> 0 <= count -> size * count = zlen data -> zlen data < 2 ^ 63 -> tamga_checked_mul size count = Some (zlen data).
Proof. intros Hs Hc Ht Hd. apply checked_mul_Some; [done|done|]. unfold SIZE_MAX. lia. Qed.

(** What the response holds of the answer so far. *)
Definition gathered (lines : list bytes) (r : TamgaHttpResponse) : Prop :=
  exists fields, fields_of lines fields /\ holds_fields r fields.

Lemma field_short line n v : curl_header_field line = Some (n, v) -> short_field (c_view n, c_view v).
Proof.
  intros (b & t & _ & _ & _ & Hn & Hv & _)%curl_header_field_iff.
  assert (forall l : bytes, zlen (c_view l) <= zlen l) as Hle.
  { intros l. induction l as [|c l IH]; cbn [c_view]; [done|]. destruct (c =? 0); cbn [length]; lia. }
  split; cbn [fst snd]; pose proof (Hle n); pose proof (Hle v); lia.
Qed.

Lemma write_header_post lines data size count r :
  0 <= size -> 0 <= count -> size * count = zlen data -> zlen data < 2 ^ 63 -> gathered lines r ->
  post (tamga_curl_write_header data size count r) (fun '(n, r') => n = zlen data /\ gathered (lines ++ [data]) r' /\ same_answer r r').
Proof.
  intros Hs Hc Ht Hd (fields & Hf & Hr). pose proof (fields_of_snoc _ _ data Hf) as Hf'. unfold tamga_curl_write_header.
  rewrite (checked_total _ _ data) by done. destruct (curl_header_field data) as [[name value]|] eqn:E.
  - eapply post_bind; [apply (add_header_holds _ fields name value); [done|by eapply field_short]|].
    intros [ok r'] [Hr' Hsame]. apply post_ret. split_and!; [done| |done]. by eexists.
  - apply post_ret. split_and!; [done| |done]. rewrite app_nil_r in Hf'. by exists fields.
Qed.

(** The sink has taken [l] and goes on. *)
Definition sunk (buf : TamgaBuf) (l : bytes) : Prop :=
  buf_has MAX buf l /\ buf_failed buf = false /\ zlen l <= MAX.

Lemma write_body_post data size count buf l r :
  0 <= size -> 0 <= count -> size * count = zlen data -> zlen data < 2 ^ 63 -> sunk buf l ->
  post (tamga_curl_write_body data size count buf r) (fun '(n, buf', r') =>
    (n = zlen data /\ sunk buf' (l ++ data) /\ r' = r) \/
    (n <> zlen data /\ ((MAX < zlen (l ++ data) /\ r' = response_failed r TAMGA_TRANSPORT_FAIL_OVERSIZED) \/
                      (~ enough MAX /\ r' = response_failed r TAMGA_TRANSPORT_FAIL_OUT_OF_MEMORY)))).
Proof.
  intros Hs Hc Ht Hd (Hbuf & Hf & Hl). unfold tamga_curl_write_body. rewrite (checked_total _ _ data) by done.
  pose proof Hbuf as (Hwf & Hbytes & _). rewrite (wf_len _ Hwf), (Hbytes Hf).
  assert (u64 (zlen l + zlen data) = zlen (l ++ data)) as ->.
  { unfold u64. rewrite length_app, Z.mod_small; unfold MAX in *; lia. }
  destruct (Z.gtb_spec (zlen (l ++ data)) MAX) as [Hbig|Hfit].
  { apply post_ret. right. split; [|by left]. rewrite length_app in Hbig. lia. }
  destruct data as [|c data].
  { unfold tamga_buf_append. rewrite Hf. apply (post_bind _ _ (fun b => b = buf)); [by apply post_ret|]. intros ? ->. unfold tamga_buf_ok. rewrite Hf.
    apply post_ret. left. rewrite app_nil_r. by split_and!. }
  eapply post_bind; [by apply buf_has_append|]. intros buf' Hbuf'. unfold tamga_buf_ok. destruct (buf_failed buf') eqn:Ef; cbn [negb]; apply post_ret.
  - right. split.
    + cbn [length]. lia.
    + right. split; [|done]. intros He. destruct Hbuf' as (_ & _ & Hok). by rewrite Hok in Ef.
  - left. split_and!; done.
Qed.

(** What a transfer leaves: everything it delivers, or a reason why not. *)
Definition transferred (t : transfer net) (lines : list bytes) (l : bytes) (r : TamgaHttpResponse)
    (out : Z * net * TamgaBuf * TamgaHttpResponse) : Prop :=
  let '(result, after, buf, r') := out in
  let '(lines', body, result', after') := accepted t in
  (result = result' /\ after = after' /\ sunk buf (l ++ body) /\ gathered (lines ++ lines') r' /\ same_answer r r') \/
  (result <> CURLE_OK /\ ((MAX < zlen (l ++ body) /\ http_failure r' = TAMGA_TRANSPORT_FAIL_OVERSIZED) \/
                          (~ enough MAX /\ http_failure r' = TAMGA_TRANSPORT_FAIL_OUT_OF_MEMORY))).

Lemma run_transfer_post (t : transfer net) buf l lines r :
  honours t -> sunk buf l -> gathered lines r -> post (run_transfer t buf r) (transferred t lines l r).
Proof.
  revert buf l lines r. induction t as [result after|data size count k IH|data size count k IH]; intros buf l lines r Ht Hb Hr; cbn [run_transfer].
  - apply post_ret. left. rewrite !app_nil_r. by split_and!.
  - destruct Ht as (Hs & Hc & Hsc & Hd & _ & Hk). eapply post_bind; [by apply write_header_post|]. intros [n r'] (-> & Hr' & Hsame).
    eapply post_mono; [by eapply IH|]. intros [[[result after] buf'] r'']. cbn [transferred accepted].
    destruct (accepted (k (zlen data))) as [[[lines' body] result'] after']. intros [(? & ? & ? & ? & ?)|H]; [left|by right].
    split_and!; try done; [|by etrans]. by rewrite <- app_assoc in *.
  - destruct Ht as (Hs & Hc & Hsc & Hd & Hrefuse & Hk). eapply post_bind; [by apply (write_body_post _ _ _ _ l)|].
    intros [[n buf'] r'] [(-> & Hb' & ->)|(Hn & Hwhy)].
    + eapply post_mono; [by eapply IH|]. intros [[[result after] buf''] r'']. cbn [transferred accepted].
      destruct (accepted (k (zlen data))) as [[[lines' body] result'] after']. by rewrite <- app_assoc.
    + destruct (Hrefuse n Hn) as (result & after & Hk' & Hne). rewrite Hk'. cbn [run_transfer]. apply post_ret. cbn [transferred accepted].
      destruct (accepted (k (zlen data))) as [[[lines' body] result'] after']. right. split; [done|].
      destruct Hwhy as [[Hbig ->]|[He ->]]; [left|by right]. split; [|done]. rewrite !length_app in *. lia.
Qed.
End Transfers.

(** ** The options of a transfer *)

Section Options.
Context {malloc : Malloc} {net : Type} {curl : LibCurl net}.

Definition header_text (h : bytes * bytes) : bytes := c_view h.1 ++ bstr ": " ++ c_view h.2.

(** The four options without which nothing may be sent: the peer's certificate
    and its host name are verified, a redirect is not followed, and only HTTP
    and HTTPS are spoken. *)
Definition checked_options : list CURLoption :=
  [CURLOPT_SSL_VERIFYPEER 1; CURLOPT_SSL_VERIFYHOST 2; CURLOPT_FOLLOWLOCATION 0;
   if curl_at_least_7_85 then CURLOPT_PROTOCOLS_STR (bstr "http,https") else CURLOPT_PROTOCOLS 3].

Definition method_options (request : TamgaHttpRequest) : list CURLoption :=
  if beq (c_view (req_method request)) (bstr "GET") then [CURLOPT_HTTPGET 1]
  else CURLOPT_CUSTOMREQUEST (c_view (req_method request)) ::
    match req_body request with
    | Some body => [CURLOPT_POSTFIELDS body; CURLOPT_POSTFIELDSIZE (long_of (req_body_len request))]
    | None => [CURLOPT_POSTFIELDSIZE 0; CURLOPT_POSTFIELDS []]
    end.

(** Every option a transfer for [request] may have, in the order it is set. *)
Definition request_options (request : TamgaHttpRequest) : list CURLoption :=
  [CURLOPT_URL (c_view (req_url request)); CURLOPT_HTTPHEADER (map header_text (req_headers request));
   CURLOPT_WRITEFUNCTION write_body_callback; CURLOPT_WRITEDATA_sink;
   CURLOPT_HEADERFUNCTION write_header_callback; CURLOPT_HEADERDATA_response;
   CURLOPT_TIMEOUT_MS (long_of (req_timeout_ms request)); CURLOPT_USERAGENT (bstr "tamga-c/1.3.5"); CURLOPT_NOSIGNAL 1] ++
  checked_options ++ method_options request.

(** libcurl has memory for the list of headers and knows every option. *)
Definition accepting : Prop :=
  (forall options o n, (curl_easy_setopt options o n).1 = CURLE_OK) /\
  (forall headers line n, (curl_slist_append headers line n).1 = true).

(** The handle has some of the options [wanted], all of them if libcurl accepts
    them, and in any case all of [must]; no transfer has been started since [e]. *)
Definition handle_at (e : easy net) (wanted must : list CURLoption) (w : st * easy net) : Prop :=
  easy_transfers w.2 = easy_transfers e /\ easy_options w.2 `sublist_of` wanted /\ must ⊆ easy_options w.2 /\
  (accepting -> easy_options w.2 = wanted).

Lemma setopt_at e wanted must o w :
  handle_at e wanted must w ->
  b_post (setopt o) w (fun code w' => handle_at e (wanted ++ [o]) (if code =? CURLE_OK then must ++ [o] else must) w' /\
    (accepting -> code = CURLE_OK)).
Proof.
  intros (Ht & Hs & Hm & Ha). apply b_post_call. intros code e' E. destruct (curl_easy_setopt _ _ _) as [code' n] eqn:Ec. simplify_eq.
  assert (accepting -> code = CURLE_OK) as Hcode by (intros [Hacc _]; by rewrite <- (Hacc (easy_options w.2) o (easy_net w.2)), Ec).
  split; [|done]. split_and!; cbn [snd easy_transfers easy_options]; [done|..].
  - destruct (code =? CURLE_OK); [by apply sublist_app|]. etrans; [done|]. by apply sublist_inserts_r.
  - destruct (code =? CURLE_OK); [|done]. set_solver.
  - intros Hacc. rewrite (Hcode Hacc), (Ha Hacc). done.
Qed.

(** A setting whose result is discarded. *)
Lemma setopt_then {A} e wanted must o (m : B (easy net) A) w (Q : A -> st * easy net -> Prop) :
  handle_at e wanted must w -> (forall w', handle_at e (wanted ++ [o]) must w' -> b_post m w' Q) -> b_post (setopt o ;;b m) w Q.
Proof.
  intros Hw HQ. apply b_post_bind. eapply b_post_mono; [by apply setopt_at|]. intros code w' [(Ht & Hs & Hm & Ha) _]. apply HQ. split_and!; [done|done| |done].
  destruct (code =? CURLE_OK); [|done]. set_solver.
Qed.

(** A setting whose result is checked. *)
Lemma setopt_checked e wanted must o (m : B (easy net) bool) w (Q : bool -> st * easy net -> Prop) :
  handle_at e wanted must w -> (forall w', handle_at e (wanted ++ [o]) (must ++ [o]) w' -> b_post m w' Q) ->
  (forall w', handle_at e (wanted ++ [o]) must w' -> ~ accepting -> Q false w') ->
  b_post (run! code := setopt o in if negb (code =? CURLE_OK) then b_ret false else m) w Q.
Proof.
  intros Hw HQ Hfail. apply b_post_bind. eapply b_post_mono; [by apply setopt_at|]. intros code w' [H Hacc].
  destruct (Z.eqb_spec code CURLE_OK); cbn [negb]; [exact (HQ _ H)|]. apply (Hfail _ H). intros ?. auto.
Qed.

Lemma header_line_post name value :
  post (header_line name value) (fun r => r = Some (header_text (name, value)) \/
    (r = None /\ ~ (enough TAMGA_MAX_REASONABLE_LEN /\ zlen (header_text (name, value)) <= TAMGA_MAX_REASONABLE_LEN))).
Proof.
  unfold header_line. eapply post_bind; [apply (buf_has_append TAMGA_MAX_REASONABLE_LEN), buf_has_init|]. intros b1 H1.
  eapply post_bind; [exact (buf_has_append _ _ _ _ H1)|]. intros b2 H2.
  eapply post_bind; [exact (buf_has_append _ _ _ _ H2)|]. intros b3 H3.
  eapply post_bind; [apply (buf_has_detach _ _ _ H3)|].
  - assert (~ In 0 (c_view (bstr ": "))) as Hl by auto with tamga. cbn [app] in *.
    rewrite !in_app_iff. pose proof (c_view_no_nul name). pose proof (c_view_no_nul value). tauto.
  - intros [r b] H. apply post_ret. unfold header_text. cbn [fst snd]. by rewrite <- app_assoc in H.
Qed.

(** The header lines of the request can be built. *)
Definition request_fits (request : TamgaHttpRequest) : Prop :=
  enough TAMGA_MAX_REASONABLE_LEN /\ Forall (fun h => zlen (header_text h) <= TAMGA_MAX_REASONABLE_LEN) (req_headers request).

Lemma header_list_post e wanted must pending headers w :
  handle_at e wanted must w ->
  b_post (header_list pending headers) w (fun r w' => handle_at e wanted must w' /\
    (r = Some (headers ++ map header_text pending) \/
     (r = None /\ ~ (accepting /\ enough TAMGA_MAX_REASONABLE_LEN /\ Forall (fun h => zlen (header_text h) <= TAMGA_MAX_REASONABLE_LEN) pending)))).
Proof.
  revert headers w. induction pending as [|[name value] pending IH]; intros headers w Hw; cbn [header_list map].
  - apply b_post_ret. split; [done|]. rewrite app_nil_r. by left.
  - apply b_post_bind. eapply b_post_lift; [apply header_line_post|]. intros joined s [-> |[-> Hno]].
    2:{ apply b_post_ret. split; [done|]. right. split; [done|]. intros (_ & He & Hall). apply Forall_cons in Hall as [? _]. by destruct Hno. }
    apply b_post_bind. apply b_post_call. intros ok e' E. cbn [fst snd] in *.
    destruct (curl_slist_append _ _ _) as [ok' n] eqn:Ea. simplify_eq. destruct ok.
    + eapply b_post_mono; [by apply IH|]. intros r w' [H1 H2]. split; [done|]. rewrite <- app_assoc in H2. cbn [app] in H2.
      destruct H2 as [?|[? Hno]]; [by left|right]. split; [done|]. intros (? & ? & Hall). apply Forall_cons in Hall as [_ ?]. by destruct Hno.
    + apply b_post_ret. split; [done|]. right. split; [done|]. intros ([_ Hacc] & _). pose proof (Hacc headers (header_text (name, value)) (easy_net w.2)) as H.
      by rewrite Ea in H.
Qed.

(** What is on the handle when the transfer is about to start. *)
Definition prepared (e : easy net) (request : TamgaHttpRequest) : st * easy net -> Prop :=
  handle_at e (request_options request) checked_options.

Lemma set_request_post e request w :
  handle_at e [] [] w ->
  b_post (set_request_options request (map header_text (req_headers request))) w
    (fun _ => handle_at e (take 9 (request_options request)) []).
Proof. intros Hw. unfold set_request_options. do 9 (eapply setopt_then; [eassumption|clear w Hw; intros w Hw]). exact Hw. Qed.

Lemma set_checked_post e wanted w :
  handle_at e wanted [] w ->
  b_post set_checked_options w (fun ok w' => easy_transfers w'.2 = easy_transfers e /\
    if ok : bool then handle_at e (wanted ++ checked_options) checked_options w' else ~ accepting).
Proof.
  intros Hw. unfold set_checked_options. do 3 (eapply setopt_checked; [eassumption|clear w Hw; intros w Hw|by intros w' [? _] ?]).
  unfold tamga_curl_restrict_protocols, checked_options. destruct curl_at_least_7_85; apply b_post_bind;
    (eapply b_post_mono; [by apply setopt_at|]); intros code w' [(Ht & Hs & Hm & Ha) Hacc]; apply b_post_ret; (split; [done|]);
    (destruct (Z.eqb_spec code CURLE_OK); [|by intros ?; auto]); split_and!; rewrite <- ?app_assoc in *; done.
Qed.

Lemma set_method_post e request wanted must w :
  handle_at e wanted must w ->
  b_post (set_method_options request) w (fun _ => handle_at e (wanted ++ method_options request) must).
Proof.
  intros Hw. unfold set_method_options, method_options. destruct (beq _ _).
  - eapply setopt_then; [done|]. clear w Hw. intros w Hw. exact Hw.
  - replace (wanted ++ _ :: _) with ((wanted ++ [CURLOPT_CUSTOMREQUEST (c_view (req_method request))]) ++
      match req_body request with
      | Some body => [CURLOPT_POSTFIELDS body; CURLOPT_POSTFIELDSIZE (long_of (req_body_len request))]
      | None => [CURLOPT_POSTFIELDSIZE 0; CURLOPT_POSTFIELDS []]
      end) by (by rewrite <- app_assoc).
    eapply setopt_then; [done|]. clear w Hw. intros w Hw. destruct (req_body request);
      do 2 (eapply setopt_then; [eassumption|clear w Hw; intros w Hw]); rewrite <- !app_assoc in *; exact Hw.
Qed.

(** The transport's answer to a transfer [t] that ran from an empty response. *)
Definition curl_answered (t : transfer net) (ok : bool) (r : TamgaHttpResponse) : Prop :=
  let '(lines, body, result, after) := accepted t in
  exists fields, fields_of lines fields /\
  (ok = true -> result = CURLE_OK /\ zlen body <= TAMGA_MAX_REASONABLE_LEN /\
     http_status r = int_of (default 0 (curl_easy_getinfo after).1) /\ http_body r = Some body /\
     http_headers r `sublist_of` fields) /\
  (enough TAMGA_MAX_REASONABLE_LEN ->
     (ok = true <-> result = CURLE_OK /\ zlen body <= TAMGA_MAX_REASONABLE_LEN) /\
     (ok = true -> http_headers r = take 512 fields) /\
     http_failure r = if zlen body >? TAMGA_MAX_REASONABLE_LEN then TAMGA_TRANSPORT_FAIL_OVERSIZED else TAMGA_TRANSPORT_FAIL_NETWORK).

(** Nothing was sent: there is no handle, libcurl refused, or there was no
    memory for the header lines. *)
Definition not_started (state : option TamgaCurlState) (request : TamgaHttpRequest) (e : easy net) (ok : bool) (r : TamgaHttpResponse)
    (e' : easy net) : Prop :=
  ok = false /\ easy_transfers e' = easy_transfers e /\ ~ (state = Some (mk_curl_state true) /\ accepting /\ request_fits request) /\
  (r = tamga_http_response_init \/ r = response_failed tamga_http_response_init TAMGA_TRANSPORT_FAIL_OUT_OF_MEMORY).

(** One transfer was started, with the options of the request (all those that
    libcurl takes, the four checked ones among them), and answered. *)
Definition started (request : TamgaHttpRequest) (e : easy net) (ok : bool) (r : TamgaHttpResponse) (e' : easy net) : Prop :=
  exists options n, easy_transfers e' = easy_transfers e ++ [(options, n)] /\
    options `sublist_of` request_options request /\ checked_options ⊆ options /\ (accepting -> options = request_options request) /\
    (honours (curl_easy_perform options n) -> curl_answered (curl_easy_perform options n) ok r).

Lemma fields_of_exists lines : exists fields, fields_of lines fields.
Proof.
  induction lines as [|line lines [fields IH]]; [by exists []; constructor|].
  destruct (curl_header_field line) as [[n v]|] eqn:E.
  - eexists. apply fields_cons; [by apply curl_header_field_iff|done].
  - exists fields. apply fields_skip; [|done]. intros n v H%curl_header_field_iff. congruence.
Qed.

(** A transfer that did not end well. *)
Lemma answered_failed t result after buf r :
  transferred t [] [] tamga_http_response_init (result, after, buf, r) -> result <> CURLE_OK -> curl_answered t false r.
Proof.
  unfold transferred, curl_answered. destruct (accepted t) as [[[lines body] result'] after']. cbn [app]. intros H Hne.
  destruct H as [(<- & <- & (_ & _ & Hl) & (fields & Hf & _) & (_ & _ & Hfail))|(_ & Hwhy)].
  - exists fields. split_and!; [done|done|]. intros _. split_and!; [|done|].
    + split; [done|]. by intros [].
    + rewrite Hfail. by destruct (Z.gtb_spec (zlen body) TAMGA_MAX_REASONABLE_LEN); [lia|].
  - destruct (fields_of_exists lines) as [fields Hf]. exists fields. split_and!; [done|done|]. intros He.
    destruct Hwhy as [[Hbig ->]|[? _]]; [|done]. split_and!; [|done|].
    + split; [done|]. intros [_ ?]. lia.
    + by destruct (Z.gtb_spec (zlen body) TAMGA_MAX_REASONABLE_LEN); [|lia].
Qed.

(** One that did: the status is read and the body detached. *)
Lemma answered_ok t after buf r status detached :
  transferred t [] [] tamga_http_response_init (CURLE_OK, after, buf, r) -> status = (curl_easy_getinfo after).1 ->
  (forall total l, buf_has total buf l -> detached = Some l \/ (detached = None /\ ~ (enough total /\ zlen l <= total))) ->
  let r' := response_with_body (response_with_status r (int_of (default 0 status))) detached in
  match detached with
  | None => curl_answered t false (response_failed r' TAMGA_TRANSPORT_FAIL_OUT_OF_MEMORY)
  | Some _ => curl_answered t true r'
  end.
Proof.
  unfold transferred, curl_answered. destruct (accepted t) as [[[lines body] result'] after']. cbn [app]. intros H -> Hd.
  destruct H as [(<- & <- & (Hbuf & _ & Hl) & (fields & Hf & Hwf & Hsub & Hall) & (_ & _ & Hfail))|(? & _)]; [|done].
  assert (enough TAMGA_MAX_REASONABLE_LEN -> enough header_memory) as Hmem.
  { intros He. eapply enough_mono; [exact He|]. unfold header_memory, TAMGA_MAX_REASONABLE_LEN. lia. }
  destruct (Hd _ _ Hbuf) as [-> |[-> Hno]]; exists fields; (split; [done|]).
  - split; [by intros _|]. intros He. split_and!; [done|by intros _; apply Hall, Hmem|]. cbn. rewrite Hfail.
    by destruct (Z.gtb_spec (zlen body) TAMGA_MAX_REASONABLE_LEN); [lia|].
  - split; [done|]. intros He. by destruct Hno.
Qed.

Lemma curl_finish_post t body response result w :
  (honours t -> transferred t [] [] tamga_http_response_init (result, easy_net w.2, body, response)) ->
  b_post (if negb (result =? CURLE_OK) then b_ret (false, response)
          else
            run! status := getinfo_response_code in
            let response := response_with_status response (int_of (default 0 status)) in
            run! (detached, _) := b_lift (tamga_buf_detach_terminated body) in
            let response := response_with_body response detached in
            match detached with
            | None => b_ret (false, response_failed response TAMGA_TRANSPORT_FAIL_OUT_OF_MEMORY)
            | Some _ => b_ret (true, response)
            end) w (fun '(ok, r) w' => easy_transfers w'.2 = easy_transfers w.2 /\ (honours t -> curl_answered t ok r)).
Proof.
  intros Ht. destruct (Z.eqb_spec result CURLE_OK) as [->|Hne]; cbn [negb].
  2:{ apply b_post_ret. split; [done|]. intros Hh. by eapply answered_failed; [apply Ht|]. }
  apply b_post_bind, b_post_call. intros status e1 E1. destruct (curl_easy_getinfo _) as [st1 n1] eqn:Eg. injection E1 as -> <-. cbn [fst snd].
  apply b_post_bind. eapply (b_post_lift _ _ (fun '(r, _) => forall total l, buf_has total body l -> r = Some l \/ (r = None /\ ~ (enough total /\ zlen l <= total)))).
  { intros s. destruct (tamga_buf_detach_terminated body s) as [[r b'] s'] eqn:E. intros total l Hb. by apply (post_run _ _ _ _ _ (buf_has_detach_terminated _ _ _ Hb) E). }
  intros [detached b'] s Hd. cbn [fst snd].
  assert (honours t -> _) as H by (intros Hh; exact (answered_ok t _ _ _ status detached (Ht Hh) ltac:(by rewrite Eg) Hd)).
  destruct detached; apply b_post_ret; by split.
Qed.

Lemma curl_perform_post state request w :
  b_post (tamga_curl_perform state request tamga_http_response_init) w (fun '(ok, r) w' =>
    not_started state request w.2 ok r w'.2 \/ started request w.2 ok r w'.2).
Proof.
  unfold tamga_curl_perform. destruct state as [[[|]]|]; cbn [curl_handle negb];
    [|apply b_post_ret; left; (split_and!; [done|done|by intros (? & _)|by left])..].
  apply b_post_bind, b_post_call. intros [] e0 [= <-]. cbn [fst snd].
  apply b_post_bind. eapply b_post_mono; [by apply (header_list_post w.2 [] [])|].
  intros headers w1 [Hw1 [-> |[-> Hno]]].
  2:{ apply b_post_ret. left. split_and!; [done|apply Hw1|by intros (_ & ? & []); destruct Hno|by right]. }
  cbn [app]. apply b_post_bind. eapply b_post_mono; [by apply set_request_post|]. intros [] w2 Hw2.
  apply b_post_bind. eapply b_post_mono; [by apply set_checked_post|]. intros [|] w3 [Ht3 Hw3]; cbn [negb].
  2:{ apply b_post_ret. left. split_and!; [done|done|by intros (_ & ? & _)|by left]. }
  apply b_post_bind. eapply b_post_mono; [exact (set_method_post _ request _ _ _ Hw3)|]. intros [] [s4 e4] (Ht & Hsub & Hm & Hacc).
  cbn [snd] in *. rewrite <- app_assoc in Hsub, Hacc.
  apply b_post_bind. unfold b_post at 1, perform_transfer. set (t := curl_easy_perform (easy_options e4) (easy_net e4)).
  destruct (run_transfer t tamga_buf_init tamga_http_response_init s4) as [[[[result n] body] r] s5] eqn:E. cbn [fst snd].
  eapply b_post_mono; [apply (curl_finish_post t)|].
  - intros Hh'. eapply (post_run _ _ _ _ _ (run_transfer_post t tamga_buf_init [] [] tamga_http_response_init Hh' _ _) E).
    Unshelve.
    + split_and!; [apply buf_has_init|done|done].
    + exists []. split; [constructor|apply holds_fields_init].
  - intros [ok r'] w' [Hw' Ha]. right. exists (easy_options e4), (easy_net e4). split_and!; [by rewrite Hw', <- Ht|done..].
Qed.
End Options.

(** (C14) The libcurl transport on every request, for every allocator and every
    libcurl that aborts a transfer when a callback does not take all it is given.
    A request is not sent only if there is no handle, libcurl refuses an option
    or a header line, or there is no memory for the lines. Otherwise one transfer
    is started: its options are those of the request and nothing else, and always
    verify the peer and its host name, do not follow redirects and admit only
    HTTP and HTTPS. The answer has the status, the whole body and, in order, the
    fields of the header lines, at most 512 of them; with memory it is a success
    exactly when libcurl succeeds and the body is within the limit, and a body
    over the limit is reported as such and not as a network failure. *)
Theorem curl_perform_exact {malloc : Malloc} {net} {curl : LibCurl net} state request w :
  (forall options n, honours (curl_easy_perform options n)) ->
  let '((ok, r), (_, e)) := tamga_curl_perform state request tamga_http_response_init w in
  not_started state request w.2 ok r e \/
  exists options n, easy_transfers e = easy_transfers w.2 ++ [(options, n)] /\
    options `sublist_of` request_options request /\ checked_options ⊆ options /\ (accepting -> options = request_options request) /\
    curl_answered (curl_easy_perform options n) ok r.
Proof.
  intros Hh. pose proof (curl_perform_post state request w) as H. unfold b_post in H.
  destruct (tamga_curl_perform _ _ _ _) as [[ok r] [s e]]. cbn [fst snd] in H. destruct H as [H|(options & n & H1 & H2 & H3 & H4 & H5)]; [by left|].
  right. exists options, n. by split_and!; try apply H5.
Qed.

(** ** A libcurl that answers every request alike *)

Section Canned.

(** Passes [chunks] in order, and stops with CURLE_WRITE_ERROR when one is not
    taken. *)
Fixpoint deliver (chunks : list (bool * bytes)) : transfer unit :=
  match chunks with
  | [] => Done CURLE_OK tt
  | (true, data) :: rest => HeaderLine data 1 (zlen data) (fun n => if n =? zlen data then deliver rest else Done 23 tt)
  | (false, data) :: rest => BodyChunk data 1 (zlen data) (fun n => if n =? zlen data then deliver rest else Done 23 tt)
  end.

Definition canned (chunks : list (bool * bytes)) : LibCurl unit := {|
  curl_at_least_7_85 := true;
  curl_easy_init := fun n => (true, n);
  curl_easy_cleanup := fun n => n;
  curl_slist_append := fun _ _ n => (true, n);
  curl_easy_setopt := fun _ _ n => (CURLE_OK, n);
  curl_easy_perform := fun _ _ => deliver chunks;
  curl_easy_getinfo := fun n => (Some 200, n);
|}.

Lemma deliver_honours chunks : Forall (fun c => zlen c.2 < 2 ^ 63) chunks -> honours (deliver chunks).
Proof.
  intros H. induction H as [|[[|] data] rest Hd Hr IH]; [done|..]; cbn [deliver honours snd] in *; rewrite Z.eqb_refl;
    (split_and!; [lia|lia|lia|done| |done]); intros m Hm; rewrite (proj2 (Z.eqb_neq _ _)) by done; by exists 23, tt.
Qed.
End Canned.

Definition hello : list (bool * bytes) :=
  [(true, bstr "HTTP/1.1 200 OK" ++ [13; 10]); (true, bstr "Retry-After:  2 " ++ [13; 10]); (true, [13; 10]); (false, bstr "{"); (false, bstr "}")].

Definition hello_request : TamgaHttpRequest :=
  mk_request (bstr "GET") (bstr "https://api.tamga.sh/v1/ping") [(bstr "Accept", bstr "application/json")] None 0 45000.

Definition hello_run : (bool * TamgaHttpResponse) * (st * easy unit) :=
  tamga_curl_perform (malloc := full_memory) (curl := canned hello) (Some (mk_curl_state true)) hello_request tamga_http_response_init
    (mk_st 0 None, mk_easy [] tt []).

Lemma curl_perform_exact_witness :
  hello_run.1 = (true, mk_http 200 (Some (bstr "{}")) [(bstr "Retry-After", bstr "2")] 8 TAMGA_TRANSPORT_FAIL_NETWORK) /\
  let '((ok, r), (_, e)) := hello_run in
  not_started (malloc := full_memory) (curl := canned hello) (Some (mk_curl_state true)) hello_request (mk_easy [] tt []) ok r e \/
  exists options n, easy_transfers e = [] ++ [(options, n)] /\
    options `sublist_of` request_options (curl := canned hello) hello_request /\ checked_options (curl := canned hello) ⊆ options /\
    (accepting (curl := canned hello) -> options = request_options (curl := canned hello) hello_request) /\
    curl_answered (malloc := full_memory) (curl := canned hello) (deliver hello) ok r.
Proof.
  split; [vm_compute; reflexivity|].
  apply (curl_perform_exact (malloc := full_memory) (curl := canned hello) (Some (mk_curl_state true)) hello_request (mk_st 0 None, mk_easy [] tt [])).
  intros options n. apply deliver_honours. repeat (constructor; [vm_compute; reflexivity|]). constructor.
Defined.
