(* ===== verification/WinHttp.v ===== *)
(** * The WinHTTP transport: [src/src/http/transport_winhttp.c]

    WinHTTP and the two conversions between UTF-8 and UTF-16 are parts of
    Windows and parameters here ([WinHttp]). A wide string is the list of its
    16-bit units before the terminator. [win_sent] records every call of
    [WinHttpSendRequest]: the connection and the request handle it was made on,
    and what was passed to it.

    [goto done] is the return of the rest of the function: the handles that were
    opened are closed on the way out, the request before the connection. *)

From Stdlib Require Import String.
From S2P Require Import Prelude World Buf Transport Backend.
From stdpp Require Import list.
#[local] Open Scope Z_scope.

(** ** Windows *)

Abbreviation wide := (list Z) (only parsing).

Record url_components := mk_url {
  url_host : wide;
  url_path : wide;
  url_port : Z;
  url_scheme : Z;
}.

Definition INTERNET_SCHEME_HTTPS : Z := 2.
Definition WINHTTP_FLAG_SECURE : Z := 0x00800000.
Definition WINHTTP_OPTION_REDIRECT_POLICY_NEVER : Z := 0.

(** Settings of a request handle. *)
Inductive win_option :=
| WINHTTP_OPTION_REDIRECT_POLICY (policy : Z)
| win_timeouts (resolve connect send receive : Z).

Inductive win_handle := win_session | win_connection | win_request.

Class WinHttp (net : Type) := {
  (** [MultiByteToWideChar(CP_UTF8, 0, text, -1, buffer, room)]: the value
      returned and the wide string the buffer holds *)
  MultiByteToWideChar : bytes -> Z -> Z * wide;
  WideCharToMultiByte : wide -> Z -> Z * bytes;
  (** with buffers of so many units for the host and the path *)
  WinHttpCrackUrl : wide -> Z -> Z -> option url_components;
  WinHttpOpen : wide -> net -> bool * net;
  WinHttpCloseHandle : win_handle -> net -> net;
  WinHttpConnect : wide -> Z -> net -> bool * net;
  WinHttpOpenRequest : wide -> wide -> Z -> net -> bool * net;
  WinHttpSetOption : win_option -> net -> bool * net;
  WinHttpSendRequest : wide -> option bytes -> Z -> Z -> net -> bool * net;
  WinHttpReceiveResponse : net -> bool * net;
  (** [WINHTTP_QUERY_STATUS_CODE | WINHTTP_QUERY_FLAG_NUMBER] *)
  WinHttpQueryStatus : net -> option Z * net;
  (** [WINHTTP_QUERY_RAW_HEADERS_CRLF]: the size it asks for, and the text that
      is written into a buffer of that many bytes *)
  WinHttpQueryRawSize : net -> Z * net;
  WinHttpQueryRaw : Z -> net -> option wide * net;
  WinHttpQueryDataAvailable : net -> option Z * net;
  WinHttpReadData : Z -> net -> option bytes * net;
}.

(** A call of [WinHttpSendRequest]. *)
Record win_send := mk_send {
  send_host : wide;
  send_port : Z;
  send_method : wide;
  send_path : wide;
  send_flags : Z;
  send_options : list win_option;
  send_headers : wide;
  send_body : option bytes;
  send_body_len : Z;
}.

Record windows (net : Type) := mk_windows {
  win_net : net;
  win_options : list win_option;  (** of the open request handle *)
  win_sent : list win_send;
}.
Arguments mk_windows {net} _ _ _.
Arguments win_net {net} _.
Arguments win_options {net} _.
Arguments win_sent {net} _.

(** ** Header blocks *)

(** [strstr(line, CRLF)]: the text before the first line end, and after it. *)
Fixpoint split_crlf (l : bytes) : bytes * option bytes :=
  match l with
  | [] => ([], None)
  | c :: r =>
      match r with
      | d :: r' => if (c =? 13) && (d =? 10) then ([], Some r') else let '(line, rest) := split_crlf r in (c :: line, rest)
      | [] => ([c], None)
      end
  end.

(** The name and the value of one line, as the two buffers hold them. *)
Definition winhttp_header_field (line : bytes) : option (bytes * bytes) :=
  match memchr 58 line with
  | None => None
  | Some colon =>
      if (colon =? 0)%nat then None
      else
        let name := take colon line in
        let value := skip_blanks (drop (colon + 1) line) in
        if (length name <? 128)%nat && (length value <? 1024)%nat then Some (name, value) else None
  end.

Section Headers.
Context {malloc : Malloc}.

(** A line takes at least its line end, so the length of the text is a bound
    on the number of lines. *)
Fixpoint parse_lines (fuel : nat) (line : bytes) (response : TamgaHttpResponse) : M TamgaHttpResponse :=
  match fuel, line with
  | S fuel', _ :: _ =>
      let '(text, rest) := split_crlf line in
      let! response :=
        match winhttp_header_field text with
        | None => ret response
        | Some (name, value) =>
            let! (_, response) := tamga_http_response_add_header response (Some name) (Some value) in ret response
        end in
      match rest with
      | None => ret response
      | Some rest => parse_lines fuel' rest response
      end
  | _, _ => ret response
  end.

Definition tamga_winhttp_parse_headers (raw : bytes) (response : TamgaHttpResponse) : M TamgaHttpResponse :=
  parse_lines (S (length raw)) (c_view raw) response.
End Headers.

(** ** Performing a request *)

Section Perform.
Context {malloc : Malloc} {net : Type} {win : WinHttp net}.

Definition sizeof_wchar : Z := 2.

Definition tamga_widen (utf8 : option bytes) : M (option wide) :=
  match utf8 with
  | None => ret None
  | Some utf8 =>
      let needed := (MultiByteToWideChar (c_view utf8) 0).1 in
      if needed <=? 0 then ret None
      else
        let! ok := tamga_malloc (u64 (needed * sizeof_wchar)) in
        if negb ok then ret None
        else
          let '(written, text) := MultiByteToWideChar (c_view utf8) needed in
          ret (if written <=? 0 then None else Some text)
  end.

Definition tamga_narrow (text : option wide) : M (option bytes) :=
  match text with
  | None => ret None
  | Some text =>
      let needed := (WideCharToMultiByte text 0).1 in
      if needed <=? 0 then ret None
      else
        let! ok := tamga_malloc needed in
        if negb ok then ret None
        else
          let '(written, utf8) := WideCharToMultiByte text needed in
          ret (if written <=? 0 then None else Some utf8)
  end.

(** Calls of WinHTTP. *)
Definition win_call {A} (f : net -> A * net) : B (windows net) A :=
  b_call (fun w => let '(a, n) := f (win_net w) in (a, mk_windows n (win_options w) (win_sent w))).

Definition close (h : win_handle) : B (windows net) unit := win_call (fun n => (tt, WinHttpCloseHandle h n)).

(** A fresh request handle has no option set. *)
Definition open_request (method path : wide) (flags : Z) : B (windows net) bool :=
  b_call (fun w => let '(ok, n) := WinHttpOpenRequest method path flags (win_net w) in (ok, mk_windows n [] (win_sent w))).

Definition set_option (o : win_option) : B (windows net) bool :=
  b_call (fun w =>
    let '(ok, n) := WinHttpSetOption o (win_net w) in
    (ok, mk_windows n (if ok then win_options w ++ [o] else win_options w) (win_sent w))).

Definition send_request (parts : url_components) (method : wide) (flags : Z) (headers : wide) (body : option bytes) (len : Z)
  : B (windows net) bool :=
  b_call (fun w =>
    let record := mk_send (url_host parts) (url_port parts) method (url_path parts) flags (win_options w) headers body len in
    let '(ok, n) := WinHttpSendRequest headers body len len (win_net w) in
    (ok, mk_windows n (win_options w) (win_sent w ++ [record]))).

(** The loop over [request->headers]. *)
Fixpoint append_headers (pending : list (bytes * bytes)) (buf : TamgaBuf) : M TamgaBuf :=
  match pending with
  | [] => ret buf
  | (name, value) :: pending' =>
      let! buf := tamga_buf_append_str buf (Some name) in
      let! buf := tamga_buf_append_str buf (Some (bstr ": ")) in
      let! buf := tamga_buf_append_str buf (Some value) in
      let! buf := tamga_buf_append_str buf (Some [13; 10]) in
      append_headers pending' buf
  end.

(** The block of request headers, widened; [None] is a want of memory. *)
Definition wide_headers (request : TamgaHttpRequest) : M (option wide) :=
  let! header_buf := append_headers (req_headers request) tamga_buf_init in
  if negb (tamga_buf_ok header_buf) then ret None
  else
    let! (joined, _) := tamga_buf_detach_string header_buf in
    match joined with
    | None => ret None
    | Some joined => tamga_widen (Some joined)
    end.

(** The raw header block of the answer, where it can be had. *)
Definition read_headers (response : TamgaHttpResponse) : B (windows net) TamgaHttpResponse :=
  run! raw_size := win_call WinHttpQueryRawSize in
  if (raw_size >? 0) && (raw_size <? 64 * 1024) then
    run! ok := b_lift (tamga_malloc raw_size) in
    if negb ok then b_ret response
    else
      run! raw := win_call (WinHttpQueryRaw raw_size) in
      match raw with
      | None => b_ret response
      | Some raw =>
          run! narrow := b_lift (tamga_narrow (Some raw)) in
          match narrow with
          | None => b_ret response
          | Some narrow => b_lift (tamga_winhttp_parse_headers narrow response)
          end
      end
  else b_ret response.

Definition sizeof_chunk : Z := 8192.

(** One iteration of the read loop. Leaving it with [true] is [break], with
    [false] [goto done]. *)
Definition read_step (state : TamgaBuf * TamgaHttpResponse)
  : B (windows net) (TamgaBuf * TamgaHttpResponse + bool * TamgaBuf * TamgaHttpResponse) :=
  let '(body, response) := state in
  run! available := win_call WinHttpQueryDataAvailable in
  match available with
  | None => b_ret (inr (false, body, response))
  | Some available =>
      if available =? 0 then b_ret (inr (true, body, response))
      else
        let available := if available >? sizeof_chunk then sizeof_chunk else available in
        run! chunk := win_call (WinHttpReadData available) in
        match chunk with
        | None => b_ret (inr (false, body, response))
        | Some chunk =>
            let read := zlen chunk in
            if read =? 0 then b_ret (inr (true, body, response))
            else if u64 (buf_len body + read) >? TAMGA_MAX_REASONABLE_LEN
            then b_ret (inr (false, body, response_failed response TAMGA_TRANSPORT_FAIL_OVERSIZED))
            else
              run! body := b_lift (tamga_buf_append body (Some chunk)) in
              if negb (tamga_buf_ok body)
              then b_ret (inr (false, body, response_failed response TAMGA_TRANSPORT_FAIL_OUT_OF_MEMORY))
              else b_ret (inl (body, response))
        end
  end.

(** An iteration that goes on has read at least one byte, and no more than
    [TAMGA_MAX_REASONABLE_LEN] bytes are read ([read_loop_post]). *)
Definition read_bound : positive := 16777217.

Definition read_body (response : TamgaHttpResponse)
  : B (windows net) (TamgaBuf * TamgaHttpResponse + bool * TamgaBuf * TamgaHttpResponse) :=
  iterate read_step read_bound (tamga_buf_init, response).

(** From [WinHttpSendRequest] on, with the request handle open. *)
Definition exchange (parts : url_components) (method : wide) (flags : Z) (headers : wide) (request : TamgaHttpRequest)
    (response : TamgaHttpResponse) : B (windows net) (bool * TamgaHttpResponse) :=
  run! ok := send_request parts method flags headers (req_body request) (u32 (req_body_len request)) in
  if negb ok then b_ret (false, response)
  else
    run! ok := win_call WinHttpReceiveResponse in
    if negb ok then b_ret (false, response)
    else
      run! status := win_call WinHttpQueryStatus in
      match status with
      | None => b_ret (false, response)
      | Some status =>
          let response := response_with_status response (int_of status) in
          run! response := read_headers response in
          run! outcome := read_body response in
          match outcome with
          | inl (_, response) | inr (false, _, response) => b_ret (false, response)
          | inr (true, body, response) =>
              run! (detached, _) := b_lift (tamga_buf_detach_terminated body) in
              let response := response_with_body response detached in
              match detached with
              | None => b_ret (false, response_failed response TAMGA_TRANSPORT_FAIL_OUT_OF_MEMORY)
              | Some _ => b_ret (true, response)
              end
          end
      end.

(** With the request handle open: its options and its headers. *)
Definition on_request (parts : url_components) (method : wide) (flags : Z) (request : TamgaHttpRequest) (response : TamgaHttpResponse)
  : B (windows net) (bool * TamgaHttpResponse) :=
  run! ok := set_option (WINHTTP_OPTION_REDIRECT_POLICY WINHTTP_OPTION_REDIRECT_POLICY_NEVER) in
  if negb ok then b_ret (false, response)
  else
    let timeout := int_of (req_timeout_ms request) in
    set_option (win_timeouts timeout timeout timeout timeout) ;;b
    run! headers := b_lift (wide_headers request) in
    match headers with
    | None => b_ret (false, response_failed response TAMGA_TRANSPORT_FAIL_OUT_OF_MEMORY)
    | Some headers => exchange parts method flags headers request response
    end.

(** [state->session != NULL] *)
Record TamgaWinHttpState := mk_winhttp_state { winhttp_session : bool }.

Definition tamga_winhttp_perform (user_data : option TamgaWinHttpState) (request : TamgaHttpRequest) (response : TamgaHttpResponse)
  : B (windows net) (bool * TamgaHttpResponse) :=
  match user_data with
  | None => b_ret (false, response)
  | Some state =>
      if negb (winhttp_session state) then b_ret (false, response)
      else
        run! url := b_lift (tamga_widen (Some (req_url request))) in
        run! method := b_lift (tamga_widen (Some (req_method request))) in
        match url, method with
        | Some url, Some method =>
            match WinHttpCrackUrl url 256 4096 with
            | None => b_ret (false, response)
            | Some parts =>
                run! connected := win_call (WinHttpConnect (url_host parts) (url_port parts)) in
                if negb connected then b_ret (false, response)
                else
                  let flags := if url_scheme parts =? INTERNET_SCHEME_HTTPS then WINHTTP_FLAG_SECURE else 0 in
                  run! opened := open_request method (url_path parts) flags in
                  run! result :=
                    if negb opened then b_ret (false, response)
                    else
                      run! result := on_request parts method flags request response in
                      close win_request ;;b b_ret result in
                  close win_connection ;;b b_ret result
            end
        | _, _ => b_ret (false, response_failed response TAMGA_TRANSPORT_FAIL_OUT_OF_MEMORY)
        end
  end.

Definition tamga_winhttp_destroy (user_data : option TamgaWinHttpState) (w : st * windows net) : st * windows net :=
  match user_data with
  | None => w
  | Some state => if winhttp_session state then (close win_session w).2 else w
  end.

Definition sizeof_TamgaWinHttpState : Z := 8.
Definition sizeof_win_transport : Z := 24.

Definition tamga_http_transport_create_winhttp : B (windows net) (option (TamgaHttpTransport (windows net))) :=
  run! allocated := b_lift (tamga_calloc 1 sizeof_TamgaWinHttpState) in
  if negb allocated then b_ret None
  else
    run! session := win_call (WinHttpOpen (bstr "tamga-c/" ++ TAMGA_VERSION_STRING)) in
    if negb session then b_ret None
    else
      let state := mk_winhttp_state session in
      run! allocated := b_lift (tamga_calloc 1 sizeof_win_transport) in
      if negb allocated then close win_session ;;b b_ret None
      else b_ret (Some (mk_transport (tamga_winhttp_perform (Some state)) (Some (tamga_winhttp_destroy (Some state))))).
End Perform.
