(* ===== verification/WinHttpSpec.v ===== *)
(** * What the WinHTTP transport asks for and what it answers

    The read loop, which always ends; what is sent, and on a handle with which
    settings; what the answer is made of. Both backends split the same header
    lines into the same fields, those that end in blanks apart. *)

From Stdlib Require Import String.
From S2P Require Import Prelude World Buf BufBuild Transport Backend Curl CurlSpec WinHttp.
From stdpp Require Import list sets.
#[local] Open Scope Z_scope.

(** ** Header blocks *)

Definition crlf : bytes := [13; 10].



Definition header_block (lines : list bytes) : bytes := concat (map (fun l => l ++ crlf) lines).






Section Blocks.
Context {malloc : Malloc}.





End Blocks.

(** ** Reading the body *)

Section Reading.
Context {malloc : Malloc} {net : Type} {win : WinHttp net}.

(** What is asked for when [available] bytes are announced. *)
Definition asked (available : Z) : Z := Z.min available 8192.

(** From [n], reading delivers the chunks one after the other and is in [n']. *)
Inductive got (n : net) : list bytes -> net -> Prop :=
| got_nil : got n [] n
| got_more chunks n1 available n2 chunk n3 :
    got n chunks n1 -> WinHttpQueryDataAvailable n1 = (Some available, n2) -> available <> 0 ->
    WinHttpReadData (asked available) n2 = (Some chunk, n3) -> chunk <> [] -> got n (chunks ++ [chunk]) n3.

(** The next read finds the end, fails, or brings [chunk]. *)
Definition at_end (n : net) : Prop :=
  (WinHttpQueryDataAvailable n).1 = Some 0 \/
  exists available n1, WinHttpQueryDataAvailable n = (Some available, n1) /\ available <> 0 /\ (WinHttpReadData (asked available) n1).1 = Some [].

Definition breaks (n : net) : Prop :=
  (WinHttpQueryDataAvailable n).1 = None \/
  exists available n1, WinHttpQueryDataAvailable n = (Some available, n1) /\ available <> 0 /\ (WinHttpReadData (asked available) n1).1 = None.

Definition brings (n : net) (chunk : bytes) : Prop :=
  exists available n1, WinHttpQueryDataAvailable n = (Some available, n1) /\ available <> 0 /\ (WinHttpReadData (asked available) n1).1 = Some chunk.

(** How reading ends after [chunks], in [n]. *)
Definition read_ended (chunks : list bytes) (n : net) (r : TamgaHttpResponse) (out : bool * TamgaBuf * TamgaHttpResponse) : Prop :=
  let '(ok, body, r') := out in
  (ok = true /\ at_end n /\ sunk body (concat chunks) /\ r' = r) \/
  (ok = false /\ breaks n /\ r' = r) \/
  (ok = false /\ (exists chunk, brings n chunk /\ TAMGA_MAX_REASONABLE_LEN < zlen (concat chunks ++ chunk)) /\
     r' = response_failed r TAMGA_TRANSPORT_FAIL_OVERSIZED) \/
  (ok = false /\ ~ enough TAMGA_MAX_REASONABLE_LEN /\ r' = response_failed r TAMGA_TRANSPORT_FAIL_OUT_OF_MEMORY).

(** WinHTTP reads no more than it is asked for. *)
Definition reads_within : Prop := forall k n chunk n', WinHttpReadData k n = (Some chunk, n') -> zlen chunk <= k.

(** [i] bytes have been read since [n] and are in the buffer; nothing else has
    happened since [w0]. *)
Definition reading (n : net) (r : TamgaHttpResponse) (w0 : windows net) (i : Z) (state : TamgaBuf * TamgaHttpResponse) (w : st * windows net) : Prop :=
  exists chunks, got n chunks (win_net w.2) /\ sunk state.1 (concat chunks) /\ i = zlen (concat chunks) /\ state.2 = r /\
    win_sent w.2 = win_sent w0.

Definition read_post (n : net) (r : TamgaHttpResponse) (w0 : windows net) (out : bool * TamgaBuf * TamgaHttpResponse) (w : st * windows net) : Prop :=
  win_sent w.2 = win_sent w0 /\ exists chunks n', got n chunks n' /\ zlen (concat chunks) <= TAMGA_MAX_REASONABLE_LEN /\ read_ended chunks n' r out.

Lemma read_step_post n r w0 i state w :
  reads_within -> reading n r w0 i state w ->
  b_post (read_step state) w (fun out w' => match out with
    | inl state' => exists j, i < j <= TAMGA_MAX_REASONABLE_LEN /\ reading n r w0 j state' w'
    | inr out => read_post n r w0 out w'
    end).
Proof.
  intros Hread (chunks & Hgot & Hsunk & -> & Hr & Hsent). destruct state as [body r0], w as [s w]. cbn [fst snd] in *. subst r0. unfold read_step.
  pose proof Hsunk as (_ & _ & Hmax).
  assert (forall out w', win_sent w' = win_sent w -> read_ended chunks (win_net w) r out -> read_post n r w0 out (s, w')) as Hend.
  { intros out w' Hw' H. split; [cbn; congruence|]. exists chunks, (win_net w). by split_and!. }
  apply b_post_bind, b_post_call. intros available w1 E1. cbn [fst snd] in *.
  destruct (WinHttpQueryDataAvailable (win_net w)) as [available' n1] eqn:Ea. injection E1 as <- <-. cbn [fst snd].
  destruct available' as [available|]; [|apply b_post_ret, Hend; [done|]; right; left; split_and!; [done| |done]; left; by rewrite Ea].
  destruct (Z.eqb_spec available 0) as [->|Hne]; [apply b_post_ret, Hend; [done|]; left; split_and!; [done| |done|done]; left; by rewrite Ea|].
  assert ((if available >? sizeof_chunk then sizeof_chunk else available) = asked available) as ->.
  { unfold asked, sizeof_chunk. destruct (Z.gtb_spec available 8192); lia. }
  apply b_post_bind, b_post_call. intros chunk w2 E2. cbn [fst snd win_net win_options win_sent] in *.
  destruct (WinHttpReadData (asked available) n1) as [chunk' n2] eqn:Er. injection E2 as <- <-. cbn [fst snd].
  destruct chunk' as [chunk|].
  2:{ apply b_post_ret, Hend; [done|]. right; left. split_and!; [done| |done]. right. exists available, n1. by rewrite Er. }
  destruct (Z.eqb_spec (zlen chunk) 0) as [H0|H0].
  { apply b_post_ret, Hend; [done|]. left. split_and!; [done| |done|done]. right. exists available, n1. rewrite Er. by destruct chunk. }
  assert (brings (win_net w) chunk) as Hbrings by (exists available, n1; by rewrite Er).
  pose proof (Hread _ _ _ _ Er) as Hlen. assert (asked available <= 8192) as Hasked by (unfold asked; lia).
  pose proof Hsunk as (Hbuf & Hf & _). pose proof Hbuf as (Hwf & Hbytes & _). rewrite (wf_len _ Hwf), (Hbytes Hf).
  assert (u64 (zlen (concat chunks) + zlen chunk) = zlen (concat chunks ++ chunk)) as ->.
  { unfold u64. rewrite length_app, Z.mod_small; unfold TAMGA_MAX_REASONABLE_LEN in *; lia. }
  destruct (Z.gtb_spec (zlen (concat chunks ++ chunk)) TAMGA_MAX_REASONABLE_LEN) as [Hbig|Hfit].
  { apply b_post_ret, Hend; [done|]. right; right; left. split_and!; [done|by exists chunk|done]. }
  apply b_post_bind. eapply b_post_lift; [by apply buf_has_append|]. intros body' s' Hbuf'. cbv beta in Hbuf'. unfold tamga_buf_ok.
  destruct (buf_failed body') eqn:Ef; cbn [negb]; apply b_post_ret; cbn [fst snd].
  - split; [done|]. exists chunks, (win_net w). split_and!; [done|done|]. right; right; right. split_and!; [done| |done].
    intros He. destruct Hbuf' as (_ & _ & Hok). by rewrite Hok in Ef.
  - exists (zlen (concat chunks ++ chunk)). split; [rewrite length_app in *; lia|].
    exists (chunks ++ [chunk]). rewrite concat_app. cbn [concat]. rewrite app_nil_r. split_and!; try done.
    eapply got_more; [exact Hgot|exact Ea|exact Hne|exact Er|]. by intros ->.
Qed.

(** The loop leaves before its bound. *)
Lemma read_body_post r w :
  reads_within ->
  b_post (read_body r) w (fun out w' => exists x, out = inr x /\ read_post (win_net w.2) r w.2 x w').
Proof.
  intros Hread. unfold read_body. eapply b_post_mono.
  - apply (iterate_post read_step (reading (win_net w.2) r w.2) (read_post (win_net w.2) r w.2) TAMGA_MAX_REASONABLE_LEN) with (i := 0).
    + intros i state w1 Hw1. exact (read_step_post _ _ _ _ _ _ Hread Hw1).
    + exists []. split_and!; [constructor|split_and!; [apply buf_has_init|done|done]|done|done|done].
  - intros [state|x] w' H; [|by exists x]. exfalso. destruct H as (j & Hj & _).
    unfold read_bound, TAMGA_MAX_REASONABLE_LEN in Hj. lia.
Qed.
End Reading.

(** ** A request *)

Section Performing.
Context {malloc : Malloc} {net : Type} {win : WinHttp net}.

(** What Windows makes of a text, and that there is memory for it. *)
Definition widened (text : bytes) (u : list Z) : Prop :=
  let needed := (MultiByteToWideChar (c_view text) 0).1 in
  0 < needed /\ 0 < (MultiByteToWideChar (c_view text) needed).1 /\ (MultiByteToWideChar (c_view text) needed).2 = u.

Definition widens (text : bytes) : Prop :=
  (exists u, widened text u) /\ (MultiByteToWideChar (c_view text) 0).1 < 2 ^ 31 /\ enough (MultiByteToWideChar (c_view text) 0).1.

Lemma widen_post text :
  post (tamga_widen (Some text)) (fun r => (exists u, r = Some u /\ widened text u) \/ (r = None /\ ~ widens text)).
Proof.
  unfold tamga_widen, widens, widened. set (needed := (MultiByteToWideChar (c_view text) 0).1).
  destruct (Z.leb_spec needed 0); [apply post_ret; right; split; [done|]; intros ((u & ? & _) & _); lia|].
  eapply (post_bind _ _ (fun ok => needed < 2 ^ 31 -> enough needed -> ok = true)).
  { intros s Hn He. unfold tamga_malloc. eapply enough_malloc; [exact He|]. unfold u64, sizeof_wchar. rewrite Z.mod_small by lia.
    destruct (Z.eqb_spec (needed * 2) 0); lia. }
  intros [|] Hok; cbn [negb]; [|apply post_ret; right; split; [done|]; intros (_ & Hn & He); by specialize (Hok Hn He)].
  destruct (MultiByteToWideChar (c_view text) needed) as [written u] eqn:E. apply post_ret. cbn [fst snd].
  destruct (Z.leb_spec written 0); [right; split; [done|]; intros ((u' & _ & ? & _) & _); lia|]. left. exists u. by split_and!.
Qed.

(** The block of header lines of a request. *)
Definition request_block (headers : list (bytes * bytes)) : bytes := concat (map (fun h => header_text h ++ crlf) headers).

Lemma append_headers_post total pending b l :
  buf_has total b l -> post (append_headers pending b) (fun b' => buf_has total b' (l ++ request_block pending)).
Proof.
  revert b l. induction pending as [|[name value] pending IH]; intros b l Hb; cbn [append_headers].
  - apply post_ret. unfold request_block. cbn [map concat]. by rewrite app_nil_r.
  - eapply post_bind; [exact (buf_has_append _ _ _ _ Hb)|]. intros b1 H1. eapply post_bind; [exact (buf_has_append _ _ _ _ H1)|]. intros b2 H2.
    eapply post_bind; [exact (buf_has_append _ _ _ _ H2)|]. intros b3 H3. eapply post_bind; [exact (buf_has_append _ _ _ _ H3)|]. intros b4 H4.
    eapply post_mono; [exact (IH _ _ H4)|]. intros b'. unfold request_block, header_text. cbn [map concat fst snd].
    change (c_view [13; 10]) with crlf. change (c_view (bstr ": ")) with (bstr ": "). by rewrite <- !app_assoc.
Qed.

Lemma request_block_no_nul headers : ~ In 0 (request_block headers).
Proof.
  unfold request_block. induction headers as [|[n v] headers IH]; [by intros []|]. cbn [map concat]. unfold header_text. cbn [fst snd].
  rewrite !in_app_iff. pose proof (c_view_no_nul n). pose proof (c_view_no_nul v).
  assert (~ In 0 (bstr ": ")) by (vm_compute; intuition congruence). assert (~ In 0 crlf) by (vm_compute; intuition congruence). tauto.
Qed.

Definition block_fits (request : TamgaHttpRequest) : Prop :=
  enough (zlen (request_block (req_headers request))) /\ widens (request_block (req_headers request)).

Lemma wide_headers_post request :
  post (wide_headers request) (fun r =>
    (exists u, r = Some u /\ widened (request_block (req_headers request)) u) \/ (r = None /\ ~ block_fits request)).
Proof.
  unfold wide_headers. set (block := request_block (req_headers request)).
  eapply post_bind; [apply (append_headers_post (zlen block)), buf_has_init|]. intros b Hb. cbn [app] in Hb. fold block in Hb. unfold tamga_buf_ok.
  destruct (buf_failed b) eqn:Ef; cbn [negb].
  { apply post_ret. right. split; [done|]. intros [He _]. destruct Hb as (_ & _ & Hok). by rewrite Hok in Ef. }
  eapply post_bind; [apply (buf_has_detach _ _ _ Hb), request_block_no_nul|]. intros [r b'] [-> |[-> Hno]].
  - eapply post_mono; [apply widen_post|]. intros r [?|[-> Hno]]; [by left|]. right. split; [done|]. by intros [_ ?].
  - apply post_ret. right. split; [done|]. intros [He _]. by destruct Hno.
Qed.

(** The calls on the way to a request handle that is ready to send. *)
Definition tls_flags (parts : url_components) : Z := if url_scheme parts =? 2 then 0x00800000 else 0.

Definition connecting (parts : url_components) (n : net) : bool * net := WinHttpConnect (url_host parts) (url_port parts) n.

Definition opening (parts : url_components) (method : list Z) (n : net) : bool * net :=
  WinHttpOpenRequest method (url_path parts) (tls_flags parts) (connecting parts n).2.

Definition confining (parts : url_components) (method : list Z) (n : net) : bool * net :=
  WinHttpSetOption (WINHTTP_OPTION_REDIRECT_POLICY 0) (opening parts method n).2.

Definition ready (parts : url_components) (method : list Z) (request : TamgaHttpRequest) (n : net) : net :=
  let t := int_of (req_timeout_ms request) in (WinHttpSetOption (win_timeouts t t t t) (confining parts method n).2).2.

(** The URL of a request and its method, as Windows reads them. *)
Definition names (request : TamgaHttpRequest) (parts : url_components) (method : list Z) : Prop :=
  widened (req_method request) method /\ exists u, widened (req_url request) u /\ WinHttpCrackUrl u 256 4096 = Some parts.

(** Why a request is not sent. *)
Inductive unsent (state : option TamgaWinHttpState) (request : TamgaHttpRequest) (n : net) : Prop :=
| unsent_session : state <> Some (mk_winhttp_state true) -> unsent state request n
| unsent_text : ~ (widens (req_url request) /\ widens (req_method request)) -> unsent state request n
| unsent_url u : widened (req_url request) u -> WinHttpCrackUrl u 256 4096 = None -> unsent state request n
| unsent_call parts method : names request parts method ->
    (connecting parts n).1 = false \/ (opening parts method n).1 = false \/ (confining parts method n).1 = false -> unsent state request n
| unsent_headers : ~ block_fits request -> unsent state request n.

(** The call of [WinHttpSendRequest] for a request: to the host, port and path of
    its URL, over TLS exactly if the URL says so, on a handle that does not
    follow redirects. *)
Definition send_for (request : TamgaHttpRequest) (parts : url_components) (send : win_send) : Prop :=
  send_host send = url_host parts /\ send_port send = url_port parts /\ send_path send = url_path parts /\
  names request parts (send_method send) /\ widened (request_block (req_headers request)) (send_headers send) /\
  send_flags send = tls_flags parts /\
  WINHTTP_OPTION_REDIRECT_POLICY 0 ∈ send_options send /\
  (forall policy, WINHTTP_OPTION_REDIRECT_POLICY policy ∈ send_options send -> policy = 0) /\
  send_body send = req_body request /\ send_body_len send = u32 (req_body_len request).

(** The calls that ask for the header block leave [n'] behind. *)
Definition headers_read (n n' : net) : Prop :=
  let '(size, n1) := WinHttpQueryRawSize n in n' = n1 \/ n' = (WinHttpQueryRaw size n1).2.

(** What the answer is after the status [code] was read in [n]. *)
Definition win_answered (code : Z) (n : net) (ok : bool) (r : TamgaHttpResponse) : Prop :=
  exists n1 chunks n2, headers_read n n1 /\ got n1 chunks n2 /\ http_status r = int_of code /\
  ((ok = true /\ at_end n2 /\ http_body r = Some (concat chunks) /\ zlen (concat chunks) <= TAMGA_MAX_REASONABLE_LEN) \/
   (ok = false /\ breaks n2 /\ http_failure r = TAMGA_TRANSPORT_FAIL_NETWORK) \/
   (ok = false /\ (exists chunk, brings n2 chunk /\ TAMGA_MAX_REASONABLE_LEN < zlen (concat chunks ++ chunk)) /\
      http_failure r = TAMGA_TRANSPORT_FAIL_OVERSIZED) \/
   (ok = false /\ ~ enough TAMGA_MAX_REASONABLE_LEN /\ http_failure r = TAMGA_TRANSPORT_FAIL_OUT_OF_MEMORY)).

(** What comes of sending: each of the three calls may fail. *)
Definition win_exchanged (send : win_send) (n : net) (ok : bool) (r : TamgaHttpResponse) : Prop :=
  let '(sent, n1) := WinHttpSendRequest (send_headers send) (send_body send) (send_body_len send) (send_body_len send) n in
  let '(received, n2) := WinHttpReceiveResponse n1 in
  let '(status, n3) := WinHttpQueryStatus n2 in
  match sent && received, status with
  | true, Some code => win_answered code n3 ok r
  | _, _ => ok = false /\ r = tamga_http_response_init
  end.

Lemma win_call_post {A} (f : net -> A * net) w (Q : A -> st * windows net -> Prop) :
  (forall a n, f (win_net w.2) = (a, n) -> Q a (w.1, mk_windows n (win_options w.2) (win_sent w.2))) -> b_post (win_call f) w Q.
Proof. intros HQ. apply b_post_call. intros a w' E. destruct (f (win_net w.2)) as [a' n] eqn:Ef. injection E as -> <-. by apply HQ. Qed.

Lemma add_header_same r name value : post (tamga_http_response_add_header r name value) (fun '(_, r') => same_answer r r').
Proof.
  unfold tamga_http_response_add_header. destruct name as [name|]; [|by apply post_ret]. destruct value as [value|]; [|by apply post_ret].
  eapply (post_bind _ _ (fun '(_, r') => same_answer r r')).
  - unfold grow_headers. repeat case_match; try (by apply post_ret); (eapply (post_bind _ _ (fun _ => True)); [by intros s|]); intros [|] _; by apply post_ret.
  - intros [[|] r'] Hr; cbn [negb]; [|by apply post_ret]. eapply (post_bind _ _ (fun _ => True)); [by intros s|]. intros n _.
    eapply (post_bind _ _ (fun _ => True)); [by intros s|]. intros v _. destruct n, v; by apply post_ret.
Qed.

Lemma parse_lines_same fuel l r : post (parse_lines fuel l r) (same_answer r).
Proof.
  revert l r. induction fuel as [|fuel IH]; intros l r; cbn [parse_lines]; [by apply post_ret|]. destruct l as [|c l]; [by apply post_ret|].
  destruct (split_crlf (c :: l)) as [text rest]. eapply (post_bind _ _ (same_answer r)).
  - destruct (winhttp_header_field text) as [[name value]|]; [|by apply post_ret]. eapply post_bind; [apply add_header_same|]. intros [ok r'] H. by apply post_ret.
  - intros r' Hr. destruct rest as [rest|]; [|by apply post_ret]. eapply post_mono; [apply IH|]. intros r'' Hr'. by etrans.
Qed.

(** The header block is asked for and parsed; only headers are added. *)
Lemma read_headers_post r w :
  b_post (read_headers r) w (fun r' w' => same_answer r r' /\ win_sent w'.2 = win_sent w.2 /\ headers_read (win_net w.2) (win_net w'.2)).
Proof.
  unfold read_headers, headers_read. apply b_post_bind, win_call_post. intros size n1 E1. rewrite E1.
  assert (forall s n, n = n1 \/ n = (WinHttpQueryRaw size n1).2 -> b_post (b_ret r) (s, mk_windows n (win_options w.2) (win_sent w.2))
    (fun r' w' => same_answer r r' /\ win_sent w'.2 = win_sent w.2 /\ (win_net w'.2 = n1 \/ win_net w'.2 = (WinHttpQueryRaw size n1).2))) as Hquit.
  { intros s n Hn. by apply b_post_ret. }
  destruct (_ && _); [|apply Hquit; by left].
  apply b_post_bind. eapply (b_post_lift _ _ (fun _ => True)); [by intros s|]. intros [|] s _; cbn [negb fst snd]; [|apply Hquit; by left].
  apply b_post_bind, win_call_post. cbn [fst snd win_net win_options win_sent]. intros raw n2 E2. destruct raw as [raw|]; [|apply Hquit; right; by rewrite E2].
  apply b_post_bind. eapply (b_post_lift _ _ (fun _ => True)); [by intros s1|]. intros [text|] s1 _; cbn [fst snd]; [|apply Hquit; right; by rewrite E2].
  eapply b_post_lift; [apply parse_lines_same|]. intros r' s2 Hr. cbn [fst snd win_net win_sent]. split_and!; [done|done|]. right. by rewrite E2.
Qed.

Lemma exchange_post parts method flags headers request w :
  reads_within ->
  let send := mk_send (url_host parts) (url_port parts) method (url_path parts) flags (win_options w.2) headers (req_body request)
                (u32 (req_body_len request)) in
  b_post (exchange parts method flags headers request tamga_http_response_init) w (fun '(ok, r) w' =>
    win_sent w'.2 = win_sent w.2 ++ [send] /\ win_exchanged send (win_net w.2) ok r).
Proof.
  intros Hread send. unfold exchange, win_exchanged. apply b_post_bind, b_post_call. intros sent w1 E1.
  cbn [send_headers send_body send_body_len send]. destruct (WinHttpSendRequest _ _ _ _ _) as [sent' n1]. injection E1 as -> <-. cbn [fst snd].
  destruct sent; cbn [negb andb].
  2:{ apply b_post_ret. split; [done|]. destruct (WinHttpReceiveResponse n1) as [? n2]. by destruct (WinHttpQueryStatus n2). }
  apply b_post_bind, win_call_post. intros received n2 E2. cbn [fst snd win_net win_options win_sent] in *. rewrite E2.
  destruct received; cbn [negb].
  2:{ apply b_post_ret. split; [done|]. by destruct (WinHttpQueryStatus n2). }
  apply b_post_bind, win_call_post. intros status n3 E3. cbn [fst snd win_net win_options win_sent] in *. rewrite E3.
  destruct status as [code|]; [|by apply b_post_ret].
  apply b_post_bind. eapply b_post_mono; [apply read_headers_post|]. intros r1 w4 ((Hst & Hbody & Hfail) & Hsent & Hn). cbn [snd win_net win_sent] in *.
  apply b_post_bind. eapply b_post_mono; [by apply read_body_post|]. intros out w5 (x & -> & Hsent5 & chunks & n5 & Hgot & Hlen & Hend).
  destruct x as [[ok body] r2]. cbn in Hst, Hfail.
  assert (win_sent w5.2 = win_sent w.2 ++ [send]) as Hsent' by (by rewrite Hsent5, Hsent).
  assert (forall ok' r', http_status r' = int_of code -> _ -> win_answered code n3 ok' r') as Hdone
    by (intros ok' r' Hs H; exact (ex_intro _ (win_net w4.2) (ex_intro _ chunks (ex_intro _ n5 (conj Hn (conj Hgot (conj Hs H))))))).
  destruct Hend as [(-> & Hend & Hsunk & ->)|[(-> & Hbr & ->)|[(-> & Hov & ->)|(-> & He & ->)]]].
  - apply b_post_bind. destruct Hsunk as (Hb & _ & _). eapply b_post_lift; [apply (buf_has_detach_terminated _ _ _ Hb)|].
    intros [d b'] s [-> |[-> Hno]]; apply b_post_ret; (split; [done|]); apply Hdone; try done; [by left|].
    right; right; right. split_and!; [done| |done]. intros He. by destruct Hno.
  - apply b_post_ret. split; [done|]. apply Hdone; [done|]. right; left. by split_and!.
  - apply b_post_ret. split; [done|]. apply Hdone; [done|]. right; right; left. by split_and!.
  - apply b_post_ret. split; [done|]. apply Hdone; [done|]. right; right; right. by split_and!.
Qed.

(** The request handle is open. *)
Lemma on_request_post state parts method request n w :
  reads_within -> names request parts method -> win_net w.2 = (opening parts method n).2 -> win_options w.2 = [] ->
  b_post (on_request parts method (tls_flags parts) request tamga_http_response_init) w (fun '(ok, r) w' =>
    (ok = false /\ win_sent w'.2 = win_sent w.2 /\ unsent state request n) \/
    exists send, win_sent w'.2 = win_sent w.2 ++ [send] /\ send_for request parts send /\ send_method send = method /\
      win_exchanged send (ready parts method request n) ok r).
Proof.
  intros Hread Hnames Hn Hopts. unfold on_request. apply b_post_bind, b_post_call. intros ok1 w1 E1. rewrite Hn, Hopts in E1. cbn [app] in E1.
  change (WinHttpSetOption _ (opening parts method n).2) with (confining parts method n) in E1.
  destruct (confining parts method n) as [ok1' n1] eqn:Ec. injection E1 as -> <-. destruct ok1; cbn [negb].
  2:{ apply b_post_ret. left. split_and!; [done|done|]. eapply unsent_call; [exact Hnames|]. rewrite Ec. by right; right. }
  apply b_post_bind, b_post_call. intros ok2 w2 E2. cbn [fst snd win_net win_options win_sent] in *.
  assert (exists n2 opts, n2 = ready parts method request n /\ w2 = mk_windows n2 opts (win_sent w.2) /\ WINHTTP_OPTION_REDIRECT_POLICY 0 ∈ opts /\
    forall policy, WINHTTP_OPTION_REDIRECT_POLICY policy ∈ opts -> policy = 0) as (n2 & opts & -> & -> & Hin & Honly).
  { destruct (WinHttpSetOption (win_timeouts _ _ _ _) n1) as [ok3 n2] eqn:Et. injection E2 as -> <-. exists n2. eexists. split_and!; [|reflexivity|..].
    - unfold ready. rewrite Ec. cbn [snd]. by rewrite Et.
    - destruct ok2; set_solver.
    - intros policy. destruct ok2; unfold WINHTTP_OPTION_REDIRECT_POLICY_NEVER; set_solver. }
  apply b_post_bind. eapply b_post_lift; [apply wide_headers_post|]. cbn [fst snd]. intros headers s [(u & -> & Hu)|[-> Hno]].
  - eapply b_post_mono; [by apply exchange_post|]. cbn [fst snd win_net win_options win_sent]. intros [ok r] w' [Hs Hx]. right. eexists. split_and!; [exact Hs|..|exact Hx]; [|done].
    unfold send_for. cbn. by split_and!.
  - apply b_post_ret. left. split_and!; [done|done|by apply unsent_headers].
Qed.

Lemma winhttp_perform_post state request w :
  reads_within ->
  b_post (tamga_winhttp_perform state request tamga_http_response_init) w (fun '(ok, r) w' =>
    (ok = false /\ win_sent w'.2 = win_sent w.2 /\ unsent state request (win_net w.2)) \/
    exists parts send, win_sent w'.2 = win_sent w.2 ++ [send] /\ send_for request parts send /\
      win_exchanged send (ready parts (send_method send) request (win_net w.2)) ok r).
Proof.
  intros Hread. unfold tamga_winhttp_perform. destruct state as [[[|]]|]; cbn [winhttp_session negb];
    [|apply b_post_ret; left; (split_and!; [done|done|by apply unsent_session])..].
  apply b_post_bind. eapply b_post_lift; [apply widen_post|]. intros url s1 Hurl.
  apply b_post_bind. eapply b_post_lift; [apply widen_post|]. intros method s2 Hmethod. cbn [fst snd].
  destruct Hurl as [(u & -> & Hu)|[-> Hno]].
  2:{ apply b_post_ret. left. split_and!; [done|done|]. apply unsent_text. by intros []. }
  destruct Hmethod as [(m & -> & Hm)|[-> Hno]].
  2:{ apply b_post_ret. left. split_and!; [done|done|]. apply unsent_text. by intros []. }
  destruct (WinHttpCrackUrl u 256 4096) as [parts|] eqn:Ecrack.
  2:{ apply b_post_ret. left. split_and!; [done|done|]. by eapply unsent_url. }
  assert (names request parts m) as Hnames by (split; [done|]; by exists u).
  apply b_post_bind, win_call_post. intros ok1 n1 E1. cbn [fst snd win_net win_options win_sent] in *. destruct ok1; cbn [negb].
  2:{ apply b_post_ret. left. split_and!; [done|done|]. eapply unsent_call; [exact Hnames|]. left. unfold connecting. by rewrite E1. }
  apply b_post_bind, b_post_call. cbn [fst snd win_net win_options win_sent]. intros ok2 w2 E2.
  assert (WinHttpOpenRequest m (url_path parts) (if url_scheme parts =? INTERNET_SCHEME_HTTPS then WINHTTP_FLAG_SECURE else 0) n1 =
    opening parts m (win_net w.2)) as Hop by (unfold opening, connecting; by rewrite E1).
  rewrite Hop in E2. destruct (opening parts m (win_net w.2)) as [ok2' n2] eqn:Eo. injection E2 as -> <-.
  apply b_post_bind. eapply (b_post_mono _ _ (fun '(ok, r) w' => (ok = false /\ win_sent w'.2 = win_sent w.2 /\ unsent (Some (mk_winhttp_state true)) request (win_net w.2)) \/
    exists send, win_sent w'.2 = win_sent w.2 ++ [send] /\ send_for request parts send /\ send_method send = m /\
      win_exchanged send (ready parts m request (win_net w.2)) ok r)).
  - destruct ok2; cbn [negb].
    2:{ apply b_post_ret. left. split_and!; [done|done|]. eapply unsent_call; [exact Hnames|]. rewrite Eo. by right; left. }
    apply b_post_bind. eapply b_post_mono; [apply (on_request_post (Some (mk_winhttp_state true)) parts m request (win_net w.2)); [done|done|by rewrite Eo|done]|].
    intros [ok r] w3 H. apply b_post_bind, win_call_post. intros [] n4 _. apply b_post_ret. exact H.
  - intros [ok r] w3 H. apply b_post_bind, win_call_post. intros [] n4 _. apply b_post_ret. cbn [fst snd win_sent].
    destruct H as [H|(send & H1 & H2 & <- & H3)]; [by left|]. right. by exists parts, send.
Qed.
End Performing.

(** ** Theorems *)


(** (C19) The WinHTTP transport on every request, for every allocator and every
    WinHTTP that reads no more than it is asked for. A request is not sent only
    for one of the reasons of [unsent]. Otherwise one request is sent: to the
    host, port and path of its URL, over TLS exactly when the URL says https,
    with its method, header lines and body, on a handle that does not follow
    redirects. The answer has the status and exactly the bytes that reading
    brings until the end; it is a failure when reading fails, when the body
    would exceed the limit (reported as such) or for want of memory. *)
Theorem winhttp_perform_exact {malloc : Malloc} {net} {win : WinHttp net} state request w :
  reads_within ->
  let '((ok, r), (_, w')) := tamga_winhttp_perform state request tamga_http_response_init w in
  (ok = false /\ win_sent w' = win_sent w.2 /\ unsent state request (win_net w.2)) \/
  exists parts send, win_sent w' = win_sent w.2 ++ [send] /\ send_for request parts send /\
    win_exchanged send (ready parts (send_method send) request (win_net w.2)) ok r.
Proof.
  intros Hread. pose proof (winhttp_perform_post state request w Hread) as H. unfold b_post in H.
  by destruct (tamga_winhttp_perform _ _ _ _) as [[ok r] [s w']].
Qed.

(** (C31) The read loop of the WinHTTP transport has no bound of its own, and
    always ends: whatever the server sends, it leaves after at most 16 Mi + 1
    iterations, with no more than 16 MiB read. *)
Theorem winhttp_read_terminates {malloc : Malloc} {net} {win : WinHttp net} r w :
  reads_within ->
  exists ok body r' w', read_body r w = (inr (ok, body, r'), w') /\ (ok = true -> buf_len body <= TAMGA_MAX_REASONABLE_LEN).
Proof.
  intros Hread. pose proof (read_body_post r w Hread) as H. unfold b_post in H. destruct (read_body r w) as [out w'].
  destruct H as ([[ok body] r'] & H1 & _ & chunks & n & _ & Hl & Hend). cbn [fst snd] in *. subst out. exists ok, body, r', w'. split; [done|]. intros ->.
  destruct Hend as [(_ & _ & ((Hwf & Hb & _) & Hf & _) & _)|[(? & _)|[(? & _)|(? & _)]]]; [|done..]. by rewrite (wf_len _ Hwf), (Hb Hf).
Qed.

(** ** A Windows for evaluation

    The server's answer is the list of chunks still to be read; texts are ASCII,
    so widening keeps them as they are. *)

Definition pipe : WinHttp (list bytes) := {|
  MultiByteToWideChar := fun text room => (zlen text + 1, text);
  WideCharToMultiByte := fun text room => (zlen text + 1, text);
  WinHttpCrackUrl := fun _ _ _ => Some (mk_url (bstr "api.tamga.sh") (bstr "/v1/ping") 443 2);
  WinHttpOpen := fun _ n => (true, n);
  WinHttpCloseHandle := fun _ n => n;
  WinHttpConnect := fun _ _ n => (true, n);
  WinHttpOpenRequest := fun _ _ _ n => (true, n);
  WinHttpSetOption := fun _ n => (true, n);
  WinHttpSendRequest := fun _ _ _ _ n => (true, n);
  WinHttpReceiveResponse := fun n => (true, n);
  WinHttpQueryStatus := fun n => (Some 200, n);
  WinHttpQueryRawSize := fun n => (60, n);
  WinHttpQueryRaw := fun _ n => (Some (header_block [bstr "HTTP/1.1 200 OK"; bstr "Retry-After: 2"]), n);
  WinHttpQueryDataAvailable := fun n => (Some (match n with [] => 0 | c :: _ => zlen c end), n);
  WinHttpReadData := fun k n => if k <? 0 then (None, n) else match n with [] => (Some [], []) | c :: n' => (Some (take (Z.to_nat k) c), n') end;
|}.

Lemma pipe_reads_within : reads_within (win := pipe).
Proof.
  intros k n chunk n' E. cbn in E. destruct (Z.ltb_spec k 0); [done|]. destruct n as [|c n]; injection E as <- _; [cbn; lia|]. rewrite length_take. lia.
Qed.

Definition pipe_run : (bool * TamgaHttpResponse) * (st * windows (list bytes)) :=
  tamga_winhttp_perform (malloc := full_memory) (win := pipe) (Some (mk_winhttp_state true)) hello_request tamga_http_response_init
    (mk_st 0 None, mk_windows [bstr "{"; bstr "}"] [] []).

Lemma winhttp_perform_exact_witness :
  pipe_run.1 = (true, mk_http 200 (Some (bstr "{}")) [(bstr "Retry-After", bstr "2")] 8 TAMGA_TRANSPORT_FAIL_NETWORK) /\
  let '((ok, r), (_, w')) := pipe_run in
  (ok = false /\ win_sent w' = [] /\ unsent (malloc := full_memory) (win := pipe) (Some (mk_winhttp_state true)) hello_request [bstr "{"; bstr "}"]) \/
  exists parts send, win_sent w' = [] ++ [send] /\ send_for (win := pipe) hello_request parts send /\
    win_exchanged (malloc := full_memory) (win := pipe) send
      (ready (win := pipe) parts (send_method send) hello_request [bstr "{"; bstr "}"]) ok r.
Proof.
  split; [vm_compute; reflexivity|].
  apply (winhttp_perform_exact (malloc := full_memory) (win := pipe) (Some (mk_winhttp_state true)) hello_request
    (mk_st 0 None, mk_windows [bstr "{"; bstr "}"] [] [])). exact pipe_reads_within.
Defined.

Lemma winhttp_read_terminates_witness :
  exists ok body r' w', read_body (malloc := full_memory) (win := pipe) tamga_http_response_init (mk_st 0 None, mk_windows [bstr "{"; bstr "}"] [] []) =
    (inr (ok, body, r'), w') /\ (ok = true -> buf_len body <= TAMGA_MAX_REASONABLE_LEN).
Proof. apply (winhttp_read_terminates (malloc := full_memory) (win := pipe)). exact pipe_reads_within. Defined.

