(* ===== verification/Response.v ===== *)
(** * Reading a response: [src/src/http/client.c], lines 168 to 852

    A response is what the client hands back for any HTTP answer: the accessors
    read its headers and the JSON tree of its body. A null response is [None];
    optional out-parameters are components of the result. *)

From Stdlib Require Import String.
From S2P Require Import Prelude World Json Validation Transport.
From stdpp Require Import list.
#[local] Open Scope Z_scope.

Record TamgaResponse := mk_response {
  response_status : Z;
  response_body : option bytes;
  response_json : option json;
  response_headers : list (bytes * bytes);
  api_error_code : option bytes;
}.

Definition tamga_response_status (response : option TamgaResponse) : Z :=
  match response with None => 0 | Some r => response_status r end.

(** The body, and the length stored in [*out_len]. *)
Definition tamga_response_json (response : option TamgaResponse) : option (option bytes * Z) :=
  match response with
  | None => None
  | Some r => Some (response_body r, match response_body r with Some b => zlen b | None => 0 end)
  end.

(** The comparison loop of [tamga_response_header]: whether it ran to the end
    of one name without a difference, and what is left of both. *)
Fixpoint header_scan (candidate name : bytes) : bool * bytes * bytes :=
  match candidate, name with
  | a :: candidate', b :: name' =>
      if negb (ascii_lower a =? ascii_lower b) then (false, candidate, name) else header_scan candidate' name'
  | _, _ => (true, candidate, name)
  end.

Fixpoint response_header_loop (headers : list (bytes * bytes)) (name : bytes) : option bytes :=
  match headers with
  | [] => None
  | (candidate, value) :: headers' =>
      let '(equal, candidate_rest, name_rest) := header_scan (c_view candidate) name in
      if equal && (length candidate_rest =? 0)%nat && (length name_rest =? 0)%nat then Some value
      else response_header_loop headers' name
  end.

Definition tamga_response_header (response : option TamgaResponse) (name : option bytes) : option bytes :=
  match response, name with
  | Some r, Some name => response_header_loop (response_headers r) (c_view name)
  | _, _ => None
  end.

Definition tamga_response_error_code (response : option TamgaResponse) : option bytes :=
  match response with None => None | Some r => api_error_code r end.

(** [response == NULL || response->json == NULL] *)
Definition tree_of (response : option TamgaResponse) : option json := response ≫= response_json.

Definition tamga_response_meta_field (response : option TamgaResponse) (field : string) : option json :=
  match tree_of response with
  | None => None
  | Some tree =>
      let meta := match tamga_json_object_get (Some tree) (Some (bstr "meta")) with
                  | None => Some tree
                  | Some m => Some m
                  end in
      tamga_json_object_get meta (Some (bstr field))
  end.

Definition tamga_response_validation_is_valid (response : option TamgaResponse) : bool :=
  tamga_json_bool_or (tamga_response_meta_field response "valid") false.

Definition tamga_response_validation_code (response : option TamgaResponse) : option bytes :=
  tamga_json_as_string (tamga_response_meta_field response "code").

Definition tamga_response_validation_code_enum (response : option TamgaResponse) : TamgaValidationCode :=
  tamga_validation_code_parse (tamga_response_validation_code response).

Definition tamga_response_validation_detail (response : option TamgaResponse) : option bytes :=
  tamga_json_as_string (tamga_response_meta_field response "detail").

Definition tamga_response_next_cursor (response : option TamgaResponse) (limit : Z) : M (option bytes) :=
  tamga_error_clear ;;!
  ret (match tree_of response with
       | None => None
       | Some tree =>
           if limit =? 0 then None
           else
             match tamga_json_object_get (Some tree) (Some (bstr "data")) with
             | None => None
             | Some data =>
                 if negb (bool_decide (tamga_json_type (Some data) = TAMGA_JSON_ARRAY)) then None
                 else
                   let count := tamga_json_array_len (Some data) in
                   if (count =? 0) || negb (count =? limit) then None
                   else
                     let last := tamga_json_array_at (Some data) (count - 1) in
                     if bool_decide (last = None) || negb (bool_decide (tamga_json_type last = TAMGA_JSON_OBJECT)) then None
                     else tamga_json_as_string (tamga_json_object_get last (Some (bstr "id")))
             end
       end).

(** The four fields of a page, read in the order of the table. *)
Definition tamga_response_page (response : option TamgaResponse) : M (option (Z * Z * Z * Z)) :=
  tamga_error_clear ;;!
  ret (match tree_of response with
       | None => None
       | Some tree =>
           let meta := tamga_json_object_get (Some tree) (Some (bstr "meta")) in
           let page := tamga_json_object_get meta (Some (bstr "page")) in
           if bool_decide (page = None) || negb (bool_decide (tamga_json_type page = TAMGA_JSON_OBJECT)) then None
           else
             let field key := tamga_json_as_int (tamga_json_object_get page (Some (bstr key))) in
             number ← field "number"%string; size ← field "size"%string;
             total ← field "total"%string; total_pages ← field "totalPages"%string;
             Some (number, size, total, total_pages)
       end).

Definition TAMGA_DEFAULT_HEARTBEAT_WINDOW_SECONDS : Z := 600.

Definition tamga_response_heartbeat_window_secs (response : option TamgaResponse) : M (option Z) :=
  tamga_error_clear ;;!
  ret (match tree_of response with
       | None => None
       | Some tree =>
           let attributes := tamga_json_object_get (tamga_json_object_get (Some tree) (Some (bstr "data"))) (Some (bstr "attributes")) in
           let duration := tamga_json_object_get attributes (Some (bstr "heartbeat_duration")) in
           match duration with
           | None => None
           | Some _ =>
               if tamga_json_is_null duration then Some TAMGA_DEFAULT_HEARTBEAT_WINDOW_SECONDS
               else
                 match tamga_json_as_int duration with
                 | None => None
                 | Some seconds => if seconds <=? 0 then None else Some seconds
                 end
           end
       end).

(** ** Resources of one type *)

(** The body of [tamga_response_entitlement] and [tamga_response_artifact],
    which differ in the type they ask for. *)
Definition resource_of_type (type : string) (response : option TamgaResponse) (index : Z) : option json :=
  match tree_of response with
  | None => None
  | Some tree =>
      match tamga_json_object_get (Some tree) (Some (bstr "data")) with
      | None => None
      | Some data =>
          let resource :=
            if bool_decide (tamga_json_type (Some data) = TAMGA_JSON_ARRAY) then
              if index >=? tamga_json_array_len (Some data) then None else tamga_json_array_at (Some data) index
            else if bool_decide (tamga_json_type (Some data) = TAMGA_JSON_OBJECT) && (index =? 0) then Some data
            else None in
          if bool_decide (resource = None) || negb (bool_decide (tamga_json_type resource = TAMGA_JSON_OBJECT)) then None
          else
            match tamga_json_as_string (tamga_json_object_get resource (Some (bstr "type"))) with
            | None => None
            | Some t => if beq (c_view t) (bstr type) then resource else None
            end
      end
  end.

(** The body of the two counting functions. *)
Definition count_of_type (type : string) (response : option TamgaResponse) : M Z :=
  tamga_error_clear ;;!
  ret (match tree_of response with
       | None => 0
       | Some tree =>
           match tamga_json_object_get (Some tree) (Some (bstr "data")) with
           | None => 0
           | Some data =>
               if bool_decide (tamga_json_type (Some data) = TAMGA_JSON_ARRAY) then tamga_json_array_len (Some data)
               else if bool_decide (resource_of_type type response 0 = None) then 0 else 1
           end
       end).

Definition attribute (resource : option json) (name : string) : option json :=
  tamga_json_object_get (tamga_json_object_get resource (Some (bstr "attributes"))) (Some (bstr name)).

Definition tamga_response_entitlement : option TamgaResponse -> Z -> option json := resource_of_type "entitlements".
Definition tamga_response_entitlement_count : option TamgaResponse -> M Z := count_of_type "entitlements".

Definition tamga_response_entitlement_kind_at (response : option TamgaResponse) (index : Z) : M (option bytes) :=
  tamga_error_clear ;;!
  ret (match tamga_response_entitlement response index with
       | None => None
       | Some resource => tamga_json_as_string (attribute (Some resource) "kind")
       end).

Definition tamga_response_entitlement_max_value_at (response : option TamgaResponse) (index : Z) : M (option Z) :=
  tamga_error_clear ;;!
  ret (match tamga_response_entitlement response index with
       | None => None
       | Some resource =>
           let max_value := attribute (Some resource) "max_value" in
           if bool_decide (max_value = None) || tamga_json_is_null max_value then None else tamga_json_as_int max_value
       end).

Definition tamga_response_entitlement_current_value_at (response : option TamgaResponse) (index : Z) : M (option Z) :=
  tamga_error_clear ;;!
  ret (match tamga_response_entitlement response index with
       | None => None
       | Some resource =>
           let current_value := attribute (Some resource) "current_value" in
           if bool_decide (current_value = None) then None else tamga_json_as_int current_value
       end).

(** ** Signing keys *)

Definition tamga_response_signing_keys (response : option TamgaResponse) : option json :=
  match tree_of response with
  | None => None
  | Some tree =>
      match tamga_json_object_get (Some tree) (Some (bstr "data")) with
      | None => None
      | Some data => if bool_decide (tamga_json_type (Some data) = TAMGA_JSON_ARRAY) then Some data else None
      end
  end.

Definition tamga_response_signing_key_count (response : option TamgaResponse) : M Z :=
  tamga_error_clear ;;! ret (tamga_json_array_len (tamga_response_signing_keys response)).

Record signing_key_row := mk_signing_key_row {
  row_key_id : bytes;
  row_algorithm : bytes;
  row_public_key : bytes;
  row_status : bytes;
  row_created : bytes;
  row_retired : option bytes;
}.

Definition tamga_response_signing_key_at (response : option TamgaResponse) (index : Z) : M (option signing_key_row) :=
  tamga_error_clear ;;!
  ret (match tamga_response_signing_keys response with
       | None => None
       | Some data =>
           if index >=? tamga_json_array_len (Some data) then None
           else
             let resource := tamga_json_array_at (Some data) index in
             if bool_decide (resource = None) || negb (bool_decide (tamga_json_type resource = TAMGA_JSON_OBJECT)) then None
             else
               let text name := tamga_json_as_string (attribute resource name) in
               key_id ← tamga_json_as_string (tamga_json_object_get resource (Some (bstr "id")));
               algorithm ← text "algorithm"%string; public_key ← text "publicKey"%string;
               status ← text "status"%string; created ← text "created"%string;
               Some (mk_signing_key_row key_id algorithm public_key status created (text "retired"%string))
       end).

(** ** Artifacts *)

Definition tamga_response_artifact : option TamgaResponse -> Z -> option json := resource_of_type "artifacts".
Definition tamga_response_artifact_count : option TamgaResponse -> M Z := count_of_type "artifacts".

Record artifact_row := mk_artifact_row {
  artifact_id : bytes;
  artifact_filename : bytes;
  artifact_filetype : option bytes;
  artifact_platform : option bytes;
  artifact_arch : option bytes;
  artifact_status : bytes;
}.

Definition tamga_response_artifact_at (response : option TamgaResponse) (index : Z) : M (option artifact_row) :=
  tamga_error_clear ;;!
  ret (match tamga_response_artifact response index with
       | None => None
       | Some resource =>
           let text name := tamga_json_as_string (attribute (Some resource) name) in
           id ← tamga_json_as_string (tamga_json_object_get (Some resource) (Some (bstr "id")));
           filename ← text "filename"%string; status ← text "status"%string;
           Some (mk_artifact_row id filename (text "filetype"%string) (text "platform"%string) (text "arch"%string) status)
       end).

Record artifact_integrity := mk_artifact_integrity {
  artifact_checksum : option bytes;
  artifact_signature : option bytes;
  artifact_created : bytes;
  artifact_updated : bytes;
}.

Definition tamga_response_artifact_integrity_at (response : option TamgaResponse) (index : Z) : M (option artifact_integrity) :=
  tamga_error_clear ;;!
  ret (match tamga_response_artifact response index with
       | None => None
       | Some resource =>
           let text name := tamga_json_as_string (attribute (Some resource) name) in
           created ← text "created"%string; updated ← text "updated"%string;
           Some (mk_artifact_integrity (text "checksum"%string) (text "signature"%string) created updated)
       end).

Definition tamga_response_artifact_filesize_at (response : option TamgaResponse) (index : Z) : M (option Z) :=
  tamga_error_clear ;;!
  ret (match tamga_response_artifact response index with
       | None => None
       | Some resource =>
           let filesize := attribute (Some resource) "filesize" in
           if bool_decide (filesize = None) || tamga_json_is_null filesize then None else tamga_json_as_int filesize
       end).

Definition tamga_response_artifact_download_url (response : option TamgaResponse) : M (option bytes) :=
  tamga_error_clear ;;!
  ret (match tamga_response_artifact response 0 with
       | None => None
       | Some resource => tamga_json_as_string (attribute (Some resource) "redirectUrl")
       end).

(** ** Header lookup *)

Lemma header_scan_iff a b :
  (let '(equal, ra, rb) := header_scan a b in equal && (length ra =? 0)%nat && (length rb =? 0)%nat) = name_equal_loop a b.
Proof.
  revert b. induction a as [|ca a IH]; intros [|cb b]; cbn [header_scan name_equal_loop]; [done..|].
  destruct (ascii_lower ca =? ascii_lower cb); cbn [negb]; [apply IH|done].
Qed.

Lemma find_header_cons n v headers name :
  find_header ((n, v) :: headers) name = if decide (same_name n name) then Some v else find_header headers name.
Proof. unfold find_header. rewrite filter_cons. cbn [fst]. by case_decide. Qed.

Lemma http_header_find headers name : http_header_loop headers name = find_header headers name.
Proof.
  induction headers as [|[n v] headers IH]; [done|]. rewrite find_header_cons. cbn [http_header_loop].
  destruct (tamga_header_name_equal n name) eqn:E.
  - apply header_name_equal_iff in E. by rewrite decide_True.
  - rewrite decide_False; [done|]. rewrite <- header_name_equal_iff. congruence.
Qed.

Lemma response_header_find headers name : response_header_loop headers (c_view name) = find_header headers name.
Proof.
  rewrite <- http_header_find. induction headers as [|[n v] headers IH]; [done|]. cbn [response_header_loop http_header_loop].
  pose proof (header_scan_iff (c_view n) (c_view name)) as H. destruct (header_scan _ _) as [[e ra] rb].
  unfold tamga_header_name_equal. rewrite H, IH. done.
Qed.

(** Both lookups, the one on the transport's answer and the one on the
    response the caller holds, return the value of the first header whose name
    is the given one up to the case of ASCII letters. *)
Theorem header_lookup_exact status body capacity failure headers tree code name :
  tamga_http_response_header (mk_http status body headers capacity failure) (Some name) = find_header headers name /\
  tamga_response_header (Some (mk_response status body tree headers code)) (Some name) = find_header headers name.
Proof. split; [apply http_header_find|apply response_header_find]. Qed.

(** ** Rows *)

(** A row that can be read lies below the count. *)
Lemma resource_in_count type response index resource s :
  0 <= index -> resource_of_type type response index = Some resource -> 0 <= index < (count_of_type type response s).1.
Proof.
  unfold count_of_type, bind. cbn [tamga_error_clear put_error ret fst]. intros Hi H. pose proof H as H0. unfold resource_of_type in H.
  destruct (tree_of response) as [tree|] eqn:Et; [|done].
  destruct (tamga_json_object_get (Some tree) (Some (bstr "data"))) as [data|] eqn:Ed; [|done].
  destruct (bool_decide (tamga_json_type (Some data) = TAMGA_JSON_ARRAY)) eqn:Ea.
  - destruct (Z.geb_spec index (tamga_json_array_len (Some data))); [|lia]. by rewrite bool_decide_true in H.
  - destruct (bool_decide (tamga_json_type (Some data) = TAMGA_JSON_OBJECT) && (index =? 0)) eqn:Eo.
    + apply andb_true_iff in Eo as [_ ->%Z.eqb_eq]. rewrite bool_decide_false; [lia|]. congruence.
    + by rewrite bool_decide_true in H.
Qed.
