(* ===== verification/Client.v ===== *)
(** * The API client: [src/src/http/client.c]

    Request construction, authentication, the retry loop, the error model,
    configuration and the bridge to a transport the application supplies. The
    client is passed by value; a setter returns the client it leaves behind.
    The process id, the clock it sleeps by and the built-in transport are the
    environment's ([Platform], which [Backends] implements for each backend).

    [out_response] is never null here: the response stored through it is part
    of the result, and the half of the first guard of
    [tamga_client_send_scoped] that refuses a null one is not represented. *)

From Stdlib Require Import String.
From S2P Require Import Prelude World Buf Base64 Float Json JsonParse Transport Response.
From stdpp Require Import list.
#[local] Open Scope Z_scope.

(** ** Headers and versions *)

Definition is_digit (c : Z) : bool := (48 <=? c) && (c <=? 57).
Definition is_lower (c : Z) : bool := (97 <=? c) && (c <=? 122).
Definition is_upper (c : Z) : bool := (65 <=? c) && (c <=? 90).

Definition version_char (c : Z) : bool := is_digit c || is_lower c || is_upper c || (c =? 46) || (c =? 45).

Definition tamga_header_value_is_safe (value : option bytes) : bool :=
  match value with
  | None => false
  | Some value => forallb (fun c => negb ((c =? 13) || (c =? 10))) (c_view value)
  end.

Definition retryable_suffixes : list bytes :=
  [bstr "/actions/validate"; bstr "/actions/validate-key"; bstr "/actions/check-in"; bstr "/actions/check-out";
   bstr "/actions/ping"; bstr "/actions/ping-heartbeat"; bstr "/actions/reset-heartbeat"].

(** [strcmp(&path[path_len - suffix_len], suffix) == 0] where it is in range. *)
Definition ends_with (path suffix : bytes) : bool :=
  (length suffix <=? length path)%nat && beq (drop (length path - length suffix) path) suffix.

Definition tamga_request_is_retryable (method path : option bytes) : bool :=
  match method, path with
  | Some method, Some path =>
      if beq (c_view method) (bstr "GET") then true
      else if negb (beq (c_view method) (bstr "POST")) then false
      else existsb (ends_with (c_view path)) retryable_suffixes
  | _, _ => false
  end.

(** ** Retry delays *)

Definition retry_jitter_ms (process_id attempt : Z) : Z :=
  let seed := u64 (u64 process_id * 2654435761) in
  let seed := u64 (seed + u64 (u32 attempt * 40503)) in
  seed mod 1000.

Definition retry_delay_ms (process_id attempt retry_after_seconds : Z) : Z :=
  if retry_after_seconds >? 0 then
    let retry_after_seconds := if retry_after_seconds >? 60 then 60 else retry_after_seconds in
    u32 (retry_after_seconds * 1000)
  else
    let base := u32 (Z.shiftl 1 (if attempt >? 5 then 5 else attempt)) in
    u32 (u32 (base * 1000) + retry_jitter_ms process_id attempt).

(** [strtoll(text, NULL, 10)]: leading white space, an optional sign, digits. *)
Definition is_space (c : Z) : bool := (c =? 32) || ((9 <=? c) && (c <=? 13)).

Fixpoint skip_space (l : bytes) : bytes :=
  match l with
  | c :: l' => if is_space c then skip_space l' else l
  | [] => []
  end.

Definition strtoll_value (text : bytes) : Z :=
  let l := skip_space (c_view text) in
  let '(neg, l) := match l with
                   | c :: r => if c =? 45 then (true, r) else if c =? 43 then (false, r) else (false, l)
                   | [] => (false, [])
                   end in
  let '(v, _, _) := read_digits l 0 0 in
  let z := if neg : bool then - v else v in
  if z <? INT64_MIN then INT64_MIN else if z >? INT64_MAX then INT64_MAX else z.

(** ** The client *)

(** [auth_kind_other] is a value outside the enumeration. *)
Inductive TamgaAuthKind :=
| TAMGA_AUTH_BEARER | TAMGA_AUTH_LICENSE | TAMGA_AUTH_BASIC_EMAIL_PASSWORD | TAMGA_AUTH_BASIC_TOKEN
| TAMGA_AUTH_BASIC_LICENSE | TAMGA_AUTH_QUERY_TOKEN | auth_kind_other (value : Z).

Inductive TamgaPathScope := TAMGA_PATH_ACCOUNT | TAMGA_PATH_ORIGIN.

Definition TAMGA_DEFAULT_API_VERSION : bytes := bstr "1.8".
Definition TAMGA_DEFAULT_TIMEOUT_MS : Z := 45000.
Definition TAMGA_DEFAULT_MAX_RETRIES : Z := 3.
Definition TAMGA_MAX_REQUEST_HEADERS : nat := 5.

Record TamgaClient (net : Type) := mk_client {
  account_id : bytes;
  host : bytes;
  api_version : bytes;
  origin : bytes;
  base_url : bytes;
  timeout_ms : Z;
  max_retries : Z;
  auth_kind : TamgaAuthKind;
  auth_primary : option bytes;
  auth_secondary : option bytes;
  auth_configured : bool;
  transport : option (TamgaHttpTransport net);
  transport_is_default : bool;
}.
Arguments mk_client {net}.
Arguments account_id {net}. Arguments host {net}. Arguments api_version {net}. Arguments origin {net}.
Arguments base_url {net}. Arguments timeout_ms {net}. Arguments max_retries {net}. Arguments auth_kind {net}.
Arguments auth_primary {net}. Arguments auth_secondary {net}. Arguments auth_configured {net}.
Arguments transport {net}. Arguments transport_is_default {net}.

Class Platform (net : Type) := {
  tamga_process_id : Z;
  tamga_http_transport_create_default : st * net -> option (TamgaHttpTransport net) * (st * net);
  tamga_http_have_default_transport : bool;
}.

Definition tamga_retry_jitter_ms `{Platform net} (attempt : Z) : Z := retry_jitter_ms tamga_process_id attempt.
Definition tamga_retry_delay_ms `{Platform net} (attempt retry_after_seconds : Z) : Z :=
  retry_delay_ms tamga_process_id attempt retry_after_seconds.

Definition tamga_has_builtin_transport `{Platform net} : bool := tamga_http_have_default_transport.

Section Construction.
Context {malloc : Malloc} {net : Type}.

(** The buffer calls [init]; appends; [detach_string]; [free]. *)
Definition detach_text (buf : TamgaBuf) : M (option bytes) :=
  let! (result, _) := tamga_buf_detach_string buf in ret result.

Fixpoint sanitize_loop (version : bytes) (kept : Z) (buf : TamgaBuf) : M TamgaBuf :=
  match version with
  | [] => ret buf
  | c :: version' =>
      if kept <? 32 then
        if version_char c then
          let! buf := tamga_buf_append_byte buf c in sanitize_loop version' (kept + 1) buf
        else sanitize_loop version' kept buf
      else ret buf
  end.

Definition tamga_sanitize_api_version (version : option bytes) : M (option bytes) :=
  match version with
  | None => ret None
  | Some version =>
      let! buf := sanitize_loop (c_view version) 0 tamga_buf_init in
      detach_text buf
  end.

Definition unreserved (c : Z) : bool :=
  is_upper c || is_lower c || is_digit c || (c =? 45) || (c =? 95) || (c =? 46) || (c =? 126).

Definition hex_upper : bytes := bstr "0123456789ABCDEF".

Fixpoint url_encode_loop (value : bytes) (buf : TamgaBuf) : M TamgaBuf :=
  match value with
  | [] => ret buf
  | c :: value' =>
      if unreserved c then
        let! buf := tamga_buf_append_byte buf c in url_encode_loop value' buf
      else
        let! buf := tamga_buf_append_byte buf 37 in
        let! buf := tamga_buf_append_byte buf (nth (Z.to_nat (Z.land (Z.shiftr c 4) 15)) hex_upper 0) in
        let! buf := tamga_buf_append_byte buf (nth (Z.to_nat (Z.land c 15)) hex_upper 0) in
        url_encode_loop value' buf
  end.

Definition tamga_url_encode (value : option bytes) : M (option bytes) :=
  match value with
  | None => ret None
  | Some value =>
      let! buf := url_encode_loop (c_view value) tamga_buf_init in
      detach_text buf
  end.

(** "[prefix]" followed by the primary credential. *)
Definition auth_value_prefixed (prefix : string) (client : TamgaClient net) : M (option bytes) :=
  let! buf := tamga_buf_append_str tamga_buf_init (Some (bstr prefix)) in
  let! buf := tamga_buf_append_str buf (auth_primary client) in
  detach_text buf.

Definition basic_pair (client : TamgaClient net) : M (option bytes) :=
  let buf := tamga_buf_init in
  let! buf :=
    match auth_kind client with
    | TAMGA_AUTH_BASIC_EMAIL_PASSWORD =>
        let! buf := tamga_buf_append_str buf (auth_primary client) in
        let! buf := tamga_buf_append_byte buf 58 in
        tamga_buf_append_str buf (auth_secondary client)
    | TAMGA_AUTH_BASIC_TOKEN =>
        let! buf := tamga_buf_append_str buf (auth_primary client) in
        tamga_buf_append_byte buf 58
    | _ =>
        let! buf := tamga_buf_append_str buf (Some (bstr "license:")) in
        tamga_buf_append_str buf (auth_primary client)
    end in
  detach_text buf.

Definition auth_value_basic (client : TamgaClient net) : M (option bytes) :=
  let! credentials := basic_pair client in
  match credentials with
  | None => ret None
  | Some credentials =>
      let! encoded := tamga_base64_encode_alloc (Some (c_view credentials)) in
      match encoded with
      | None => ret None
      | Some encoded =>
          let! buf := tamga_buf_append_str tamga_buf_init (Some (bstr "Basic ")) in
          let! buf := tamga_buf_append_str buf (Some encoded) in
          detach_text buf
      end
  end.

(** [None]: the function returns false. [Some None]: no header is needed. *)
Definition tamga_client_auth_header (client : TamgaClient net) : M (option (option (bytes * bytes))) :=
  let finish (value : M (option bytes)) :=
    let! value := value in
    match value with
    | None => ret None
    | Some value =>
        let! name := tamga_strdup (Some (bstr "Authorization")) in
        ret (match name with None => None | Some name => Some (Some (name, value)) end)
    end in
  match auth_kind client with
  | TAMGA_AUTH_BEARER => finish (auth_value_prefixed "Bearer " client)
  | TAMGA_AUTH_LICENSE => finish (auth_value_prefixed "License " client)
  | TAMGA_AUTH_BASIC_EMAIL_PASSWORD | TAMGA_AUTH_BASIC_TOKEN | TAMGA_AUTH_BASIC_LICENSE => finish (auth_value_basic client)
  | TAMGA_AUTH_QUERY_TOKEN => ret (Some None)
  | auth_kind_other _ => ret None
  end.

Definition tamga_client_build_url (client : TamgaClient net) (scope : TamgaPathScope) (path : bytes) (query : option bytes)
  : M (option bytes) :=
  let! buf := tamga_buf_append_str tamga_buf_init
                (Some (match scope with TAMGA_PATH_ORIGIN => origin client | TAMGA_PATH_ACCOUNT => base_url client end)) in
  let! buf := tamga_buf_append_str buf (Some path) in
  let has_query := match query with Some q => negb (length (c_view q) =? 0)%nat | None => false end in
  let! buf :=
    if has_query then
      let! buf := tamga_buf_append_byte buf 63 in tamga_buf_append_str buf query
    else ret buf in
  match auth_kind client with
  | TAMGA_AUTH_QUERY_TOKEN =>
      if auth_configured client then
        let! encoded := tamga_url_encode (auth_primary client) in
        match encoded with
        | None => ret None
        | Some encoded =>
            let! buf := tamga_buf_append_byte buf (if has_query then 38 else 63) in
            let! buf := tamga_buf_append_str buf (Some (bstr "token=")) in
            let! buf := tamga_buf_append_str buf (Some encoded) in
            detach_text buf
        end
      else detach_text buf
  | _ => detach_text buf
  end.

(** ** Answers *)

Definition sizeof_TamgaResponse : Z := 56.

Definition tamga_response_from_http (http : TamgaHttpResponse) : M (option TamgaResponse) :=
  let! ok := tamga_calloc 1 sizeof_TamgaResponse in
  if negb ok then ret None
  else
    let response tree := mk_response (http_status http) (http_body http) tree (http_headers http) None in
    match http_body http with
    | Some body =>
        if zlen body >? 0 then
          let! parsed := tamga_json_parse (Some body) in
          match parsed with
          | inl tree => ret (Some (response (Some tree)))
          | inr e => if tamga_json_error_is_out_of_memory (Some e) then ret None else ret (Some (response None))
          end
        else ret (Some (response None))
    | None => ret (Some (response None))
    end.
End Construction.

(** The tests of [tamga_map_api_error] on the server's code, in order. *)
Definition API_ERRORS : list (bytes * TamgaErrorCode) :=
  [(bstr "CHECK_IN_NOT_REQUIRED", TAMGA_ERR_CHECK_IN_NOT_REQUIRED);
   (bstr "LICENSE_NOT_ENCRYPTED", TAMGA_ERR_LICENSE_NOT_ENCRYPTED);
   (bstr "LICENSE_KEY_MISSING", TAMGA_ERR_LICENSE_KEY_MISSING);
   (bstr "TTL_INVALID", TAMGA_ERR_TTL_INVALID);
   (bstr "PRESIGN_TTL_INVALID", TAMGA_ERR_TTL_INVALID);
   (bstr "SCHEME_NOT_SUPPORTED", TAMGA_ERR_SCHEME_NOT_SUPPORTED);
   (bstr "FINGERPRINT_TAKEN", TAMGA_ERR_FINGERPRINT_TAKEN);
   (bstr "DATASET_INVALID", TAMGA_ERR_DATASET_INVALID);
   (bstr "PID_TAKEN", TAMGA_ERR_PID_TAKEN);
   (bstr "MACHINE_LIMIT_EXCEEDED", TAMGA_ERR_MACHINE_LIMIT_EXCEEDED);
   (bstr "CORE_LIMIT_EXCEEDED", TAMGA_ERR_CORE_LIMIT_EXCEEDED);
   (bstr "MEMORY_LIMIT_EXCEEDED", TAMGA_ERR_MEMORY_LIMIT_EXCEEDED);
   (bstr "DISK_LIMIT_EXCEEDED", TAMGA_ERR_DISK_LIMIT_EXCEEDED);
   (bstr "TOO_MANY_PROCESSES", TAMGA_ERR_TOO_MANY_PROCESSES);
   (bstr "METER_LIMIT_EXCEEDED", TAMGA_ERR_METER_LIMIT_EXCEEDED);
   (bstr "LICENSE_SUSPENDED", TAMGA_ERR_LICENSE_SUSPENDED);
   (bstr "LICENSE_EXPIRED", TAMGA_ERR_LICENSE_EXPIRED);
   (bstr "LICENSE_NOT_ALLOWED", TAMGA_ERR_LICENSE_NOT_ALLOWED);
   (bstr "SIGNING_KEY_MISSING", TAMGA_ERR_SIGNING_KEY_MISSING);
   (bstr "SECRET_KEY_MISSING", TAMGA_ERR_SECRET_KEY_MISSING)].

Fixpoint api_error_of (entries : list (bytes * TamgaErrorCode)) (code : bytes) : option TamgaErrorCode :=
  match entries with
  | [] => None
  | (name, e) :: entries' => if beq code name then Some e else api_error_of entries' code
  end.

(** The switch on the status. *)
Definition status_error (status : Z) : TamgaErrorCode :=
  if status =? 401 then TAMGA_ERR_UNAUTHORIZED
  else if status =? 403 then TAMGA_ERR_FORBIDDEN
  else if status =? 404 then TAMGA_ERR_NOT_FOUND
  else if (status =? 500) || (status =? 502) || (status =? 503) || (status =? 504) then TAMGA_ERR_SERVER
  else TAMGA_ERR_API.

Definition tamga_map_api_error `{Malloc} (response : TamgaResponse) : M (TamgaErrorCode * TamgaResponse) :=
  let code :=
    match response_json response with
    | None => None
    | Some tree =>
        let errors := tamga_json_object_get (Some tree) (Some (bstr "errors")) in
        let first := tamga_json_array_at errors 0 in
        tamga_json_as_string (tamga_json_object_get first (Some (bstr "code")))
    end in
  let! response :=
    match code with
    | None => ret response
    | Some _ =>
        let! copy := tamga_strdup code in
        ret (mk_response (response_status response) (response_body response) (response_json response) (response_headers response) copy)
    end in
  let status := response_status response in
  ret (if status =? 429 then TAMGA_ERR_RATE_LIMITED
       else match code with
            | Some c => default (status_error status) (api_error_of API_ERRORS (c_view c))
            | None => status_error status
            end, response).

(** ** Sending *)

Section Send.
Context {malloc : Malloc} {net : Type} {platform : Platform net}.

(** What [perform] failed with. *)
Definition transport_error (reason : TamgaTransportFailure) : M TamgaErrorCode :=
  match reason with
  | TAMGA_TRANSPORT_FAIL_OVERSIZED =>
      fail TAMGA_ERR_TRANSPORT "the server's response exceeded the maximum size this library will accept"
  | TAMGA_TRANSPORT_FAIL_OUT_OF_MEMORY => fail TAMGA_ERR_OUT_OF_MEMORY "could not hold the server's response"
  | TAMGA_TRANSPORT_FAIL_NETWORK => fail TAMGA_ERR_TRANSPORT "the request could not be completed"
  end.

(** The end of an iteration that is not repeated: a response for the caller. *)
Definition answer (http : TamgaHttpResponse) : M (TamgaErrorCode * option TamgaResponse) :=
  let! response := tamga_response_from_http http in
  match response with
  | None =>
      let! status := fail TAMGA_ERR_OUT_OF_MEMORY "could not read the response" in ret (status, None)
  | Some response =>
      if (200 <=? response_status response) && (response_status response <? 300) then ret (TAMGA_OK, Some response)
      else
        let! (status, response) := tamga_map_api_error response in
        let text := bstr "the server returned HTTP " ++ fmt_dec (response_status response) ++
                    match api_error_code response with Some code => bstr " " ++ c_view code | None => [] end in
        let! _ := tamga_error_set status (FmtText text) in
        ret (status, Some response)
  end.

(** The [for (;;)] loop. Every iteration that goes round again counts one
    attempt below [max_retries], so [max_retries + 1] iterations are enough. *)
Fixpoint send_loop (fuel : nat) (t : TamgaHttpTransport net) (request : TamgaHttpRequest) (method path : bytes)
    (retries attempt : Z) : IO net (TamgaErrorCode * option TamgaResponse) :=
  match fuel with
  | O => io_ret (TAMGA_ERR_UNKNOWN, None)
  | S f =>
      do! (ok, http) := io_perform t request tamga_http_response_init in
      if negb ok then
        do! status := lift (transport_error (http_failure http)) in io_ret (status, None)
      else if (http_status http =? 429) && (attempt <? retries) && tamga_request_is_retryable (Some method) (Some path) then
        let seconds := match tamga_http_response_header http (Some (bstr "Retry-After")) with
                       | Some retry_after => strtoll_value retry_after
                       | None => 0
                       end in
        do! _ := io_sleep (tamga_retry_delay_ms attempt seconds) in
        send_loop f t request method path retries (u32 (attempt + 1))
      else lift (answer http)
  end.

(** The header array, in the order it is filled. *)
Definition request_headers (auth : option (bytes * bytes)) (version : bytes) (body otp : option bytes) (json_api_body : bool)
  : list (bytes * bytes) :=
  match auth with Some h => [h] | None => [] end ++
  [(bstr "Tamga-Version", version);
   (bstr "Accept", bstr "application/vnd.api+json, application/json")] ++
  match body with
  | Some _ => [(bstr "Content-Type", if json_api_body then bstr "application/vnd.api+json" else bstr "application/json")]
  | None => []
  end ++
  match otp with Some otp => [(bstr "Tamga-OTP", otp)] | None => [] end.

Definition tamga_client_send_scoped (client : option (TamgaClient net)) (scope : TamgaPathScope) (method path : bytes)
    (query body otp : option bytes) (json_api_body : bool) : IO net (TamgaErrorCode * option TamgaResponse) :=
  let fails (m : M TamgaErrorCode) : IO net (TamgaErrorCode * option TamgaResponse) :=
    do! status := lift m in io_ret (status, None) in
  match client with
  | None => fails (fail TAMGA_ERR_NULL_ARGUMENT "a required argument was null")
  | Some client =>
      match transport client with
      | None =>
          fails (fail TAMGA_ERR_NO_TRANSPORT "this build has no HTTP transport; register one with tamga_client_set_transport()")
      | Some t =>
          if negb (auth_configured client) then
            fails (fail TAMGA_ERR_NULL_ARGUMENT "no credentials configured; call tamga_client_set_auth() before making a request")
          else if bool_decide (is_Some otp) && negb (tamga_header_value_is_safe otp) then
            fails (fail TAMGA_ERR_NULL_ARGUMENT "the OTP contains a line break and cannot be sent as a header")
          else
            do! auth := lift (tamga_client_auth_header client) in
            match auth with
            | None => fails (fail TAMGA_ERR_OUT_OF_MEMORY "could not build the auth header")
            | Some auth =>
                do! url := lift (tamga_client_build_url client scope path query) in
                do! version := lift (tamga_sanitize_api_version (Some (api_version client))) in
                match url, version with
                | Some url, Some version =>
                    let request :=
                      mk_request method url (request_headers auth version body otp json_api_body) body
                        (match body with Some b => zlen (c_view b) | None => 0 end) (timeout_ms client) in
                    send_loop (S (Z.to_nat (max_retries client))) t request method path (max_retries client) 0
                | _, _ => fails (fail TAMGA_ERR_OUT_OF_MEMORY "could not build the request")
                end
            end
      end
  end.

Definition tamga_client_send (client : option (TamgaClient net)) (method path : bytes) (query body otp : option bytes)
    (json_api_body : bool) : IO net (TamgaErrorCode * option TamgaResponse) :=
  tamga_client_send_scoped client TAMGA_PATH_ACCOUNT method path query body otp json_api_body.
End Send.

(** ** Lifecycle and configuration *)

Section Lifecycle.
Context {malloc : Malloc} {net : Type} {platform : Platform net}.

Fixpoint skip_spaces (l : bytes) : bytes :=
  match l with
  | c :: l' => if c =? 32 then skip_spaces l' else l
  | [] => []
  end.

(** The second loop of [tamga_client_compose_origin]: [trimmed[len - 1]] is the
    head of the reversed text. *)
Fixpoint trim_tail (reversed : bytes) : bytes :=
  match reversed with
  | c :: r => if (c =? 47) || (c =? 32) then trim_tail r else reversed
  | [] => []
  end.

(** [strncmp(text, prefix, strlen(prefix)) == 0] *)
Definition has_prefix (prefix text : bytes) : bool := beq (take (length prefix) text) prefix.

Definition tamga_client_compose_origin (host : bytes) : M (option bytes) :=
  let trimmed := skip_spaces (c_view host) in
  let kept := rev (trim_tail (rev trimmed)) in
  let len := zlen kept in
  let buf := tamga_buf_init in
  let! buf :=
    if negb (((len >? 7) && has_prefix (bstr "http://") trimmed) || ((len >? 8) && has_prefix (bstr "https://") trimmed))
    then tamga_buf_append_str buf (Some (bstr "https://"))
    else ret buf in
  let! buf := tamga_buf_append buf (Some kept) in
  detach_text buf.

Definition tamga_client_compose_base_url (origin account_id : bytes) : M (option bytes) :=
  let! buf := tamga_buf_append_str tamga_buf_init (Some origin) in
  let! buf := tamga_buf_append_str buf (Some (bstr "/v1/accounts/")) in
  let! buf := tamga_buf_append_str buf (Some account_id) in
  detach_text buf.

Definition sizeof_TamgaClient : Z := 96.

(** One run of the built-in constructor. *)
Definition io_create_default : IO net (option (TamgaHttpTransport net)) :=
  fun w =>
    let '(t, (s, n)) := tamga_http_transport_create_default (io_st w, io_net w) in
    (t, mk_io s n (io_trace w)).

Definition tamga_client_new (account_id host : option bytes) : IO net (TamgaErrorCode + TamgaClient net) :=
  let fails (m : M TamgaErrorCode) : IO net (TamgaErrorCode + TamgaClient net) :=
    do! status := lift m in io_ret (inl status) in
  do! _ := lift tamga_error_clear in
  match account_id, host with
  | Some account_id, Some host =>
      if (length (c_view account_id) =? 0)%nat || (length (c_view host) =? 0)%nat then
        fails (fail TAMGA_ERR_NULL_ARGUMENT "account_id and host must not be empty")
      else
        do! ok := lift (tamga_calloc 1 sizeof_TamgaClient) in
        if negb ok then fails (fail TAMGA_ERR_OUT_OF_MEMORY "could not allocate the client")
        else
          do! account_copy := lift (tamga_strdup (Some account_id)) in
          do! host_copy := lift (tamga_strdup (Some host)) in
          do! version := lift (tamga_strdup (Some TAMGA_DEFAULT_API_VERSION)) in
          do! org := lift (tamga_client_compose_origin host) in
          do! base := lift (match org with Some o => tamga_client_compose_base_url o account_id | None => ret None end) in
          match account_copy, host_copy, version, org, base with
          | Some account_copy, Some host_copy, Some version, Some org, Some base =>
              do! t := io_create_default in
              io_ret (inr (mk_client account_copy host_copy version org base TAMGA_DEFAULT_TIMEOUT_MS TAMGA_DEFAULT_MAX_RETRIES
                             TAMGA_AUTH_BEARER None None false t (bool_decide (is_Some t))))
          | _, _, _, _, _ => fails (fail TAMGA_ERR_OUT_OF_MEMORY "could not allocate the client")
          end
  | _, _ => fails (fail TAMGA_ERR_NULL_ARGUMENT "account_id, host and out_client are all required")
  end.

Definition tamga_client_free (client : option (TamgaClient net)) : IO net unit :=
  match client with
  | None => io_ret tt
  | Some client => tamga_http_transport_destroy (transport client)
  end.

Definition with_auth (client : TamgaClient net) (kind : TamgaAuthKind) (primary secondary : option bytes) : TamgaClient net :=
  mk_client (account_id client) (host client) (api_version client) (origin client) (base_url client) (timeout_ms client)
    (max_retries client) kind primary secondary true (transport client) (transport_is_default client).

Definition with_version (client : TamgaClient net) (version : bytes) : TamgaClient net :=
  mk_client (account_id client) (host client) version (origin client) (base_url client) (timeout_ms client)
    (max_retries client) (auth_kind client) (auth_primary client) (auth_secondary client) (auth_configured client)
    (transport client) (transport_is_default client).

Definition with_limits (client : TamgaClient net) (timeout retries : Z) : TamgaClient net :=
  mk_client (account_id client) (host client) (api_version client) (origin client) (base_url client) timeout retries
    (auth_kind client) (auth_primary client) (auth_secondary client) (auth_configured client)
    (transport client) (transport_is_default client).

Definition with_transport (client : TamgaClient net) (t : option (TamgaHttpTransport net)) : TamgaClient net :=
  mk_client (account_id client) (host client) (api_version client) (origin client) (base_url client) (timeout_ms client)
    (max_retries client) (auth_kind client) (auth_primary client) (auth_secondary client) (auth_configured client) t false.

(** The switch of [tamga_client_set_auth]: what it refuses the kind with. *)
Definition auth_kind_refused (kind : TamgaAuthKind) (secondary : option bytes) : option (M TamgaErrorCode) :=
  match kind with
  | TAMGA_AUTH_BEARER | TAMGA_AUTH_LICENSE | TAMGA_AUTH_BASIC_TOKEN | TAMGA_AUTH_BASIC_LICENSE | TAMGA_AUTH_QUERY_TOKEN => None
  | TAMGA_AUTH_BASIC_EMAIL_PASSWORD =>
      match secondary with
      | None => Some (fail TAMGA_ERR_NULL_ARGUMENT "the email form requires a password")
      | Some _ => None
      end
  | auth_kind_other _ => Some (fail TAMGA_ERR_UNSUPPORTED_SCHEME "unknown auth kind")
  end.

Definition tamga_client_set_auth (client : option (TamgaClient net)) (kind : TamgaAuthKind) (primary secondary : option bytes)
  : M (TamgaErrorCode * option (TamgaClient net)) :=
  let fails (m : M TamgaErrorCode) := let! status := m in ret (status, client) in
  tamga_error_clear ;;!
  match client, primary with
  | Some c, Some p =>
      match auth_kind_refused kind secondary with
      | Some m => fails m
      | None =>
          if negb (tamga_header_value_is_safe (Some p)) || (bool_decide (is_Some secondary) && negb (tamga_header_value_is_safe secondary))
          then fails (fail TAMGA_ERR_NULL_ARGUMENT "the credential contains a line break")
          else
            let! primary_copy := tamga_strdup (Some p) in
            match primary_copy with
            | None => fails (fail TAMGA_ERR_OUT_OF_MEMORY "could not store the credential")
            | Some primary_copy =>
                match secondary with
                | None => ret (TAMGA_OK, Some (with_auth c kind (Some primary_copy) None))
                | Some q =>
                    let! secondary_copy := tamga_strdup (Some q) in
                    match secondary_copy with
                    | None => fails (fail TAMGA_ERR_OUT_OF_MEMORY "could not store the credential")
                    | Some secondary_copy => ret (TAMGA_OK, Some (with_auth c kind (Some primary_copy) (Some secondary_copy)))
                    end
                end
            end
      end
  | _, _ => fails (fail TAMGA_ERR_NULL_ARGUMENT "client and primary are required")
  end.

Definition tamga_client_set_api_version (client : option (TamgaClient net)) (version : option bytes)
  : M (TamgaErrorCode * option (TamgaClient net)) :=
  let fails (m : M TamgaErrorCode) := let! status := m in ret (status, client) in
  tamga_error_clear ;;!
  match client, version with
  | Some c, Some v =>
      let! copy := tamga_strdup (Some v) in
      match copy with
      | None => fails (fail TAMGA_ERR_OUT_OF_MEMORY "could not store the version")
      | Some copy => ret (TAMGA_OK, Some (with_version c copy))
      end
  | _, _ => fails (fail TAMGA_ERR_NULL_ARGUMENT "client and version are required")
  end.

Definition tamga_client_set_timeout_ms (client : option (TamgaClient net)) (timeout : Z)
  : M (TamgaErrorCode * option (TamgaClient net)) :=
  let fails (m : M TamgaErrorCode) := let! status := m in ret (status, client) in
  tamga_error_clear ;;!
  match client with
  | None => fails (fail TAMGA_ERR_NULL_ARGUMENT "client is required")
  | Some c =>
      if timeout =? 0 then fails (fail TAMGA_ERR_LENGTH_INVALID "the timeout must be positive")
      else ret (TAMGA_OK, Some (with_limits c timeout (max_retries c)))
  end.

Definition tamga_client_set_max_retries (client : option (TamgaClient net)) (retries : Z)
  : M (TamgaErrorCode * option (TamgaClient net)) :=
  let fails (m : M TamgaErrorCode) := let! status := m in ret (status, client) in
  tamga_error_clear ;;!
  match client with
  | None => fails (fail TAMGA_ERR_NULL_ARGUMENT "client is required")
  | Some c =>
      if retries >? 16 then
        fails (fail TAMGA_ERR_LENGTH_INVALID "an unreasonable retry count would let one call block for hours")
      else ret (TAMGA_OK, Some (with_limits c (timeout_ms c) retries))
  end.

(** ** A transport the application supplies *)

(** [TamgaHttpFn] applied to its [user_data]. The result handle it is given is
    the response, which it changes through the three functions below. *)
Definition TamgaHttpFn : Type :=
  bytes -> bytes -> list bytes -> list bytes -> Z -> option bytes -> Z -> Z -> TamgaHttpResponse ->
  st * net -> (bool * TamgaHttpResponse) * (st * net).

Definition tamga_http_result_set_status (result : TamgaHttpResponse) (status : Z) : TamgaHttpResponse :=
  mk_http status (http_body result) (http_headers result) (header_capacity result) (http_failure result).

Definition with_failure (result : TamgaHttpResponse) (reason : TamgaTransportFailure) : TamgaHttpResponse :=
  mk_http (http_status result) (http_body result) (http_headers result) (header_capacity result) reason.

Definition tamga_http_result_set_body (result : TamgaHttpResponse) (body : option bytes) : M (bool * TamgaHttpResponse) :=
  match body with
  | None => ret (false, result)
  | Some b =>
      if zlen b >? TAMGA_MAX_REASONABLE_LEN then ret (false, with_failure result TAMGA_TRANSPORT_FAIL_OVERSIZED)
      else
        let! copy := tamga_memdup_terminated (Some b) in
        match copy with
        | None => ret (false, with_failure result TAMGA_TRANSPORT_FAIL_OUT_OF_MEMORY)
        | Some copy =>
            ret (true, mk_http (http_status result) (Some copy) (http_headers result) (header_capacity result) (http_failure result))
        end
  end.

Definition tamga_http_result_add_header (result : TamgaHttpResponse) (name value : option bytes) : M (bool * TamgaHttpResponse) :=
  let! (ok, result) := tamga_http_response_add_header result name value in
  if negb ok then ret (false, with_failure result TAMGA_TRANSPORT_FAIL_OUT_OF_MEMORY) else ret (true, result).

Definition tamga_custom_perform (perform : TamgaHttpFn) (request : TamgaHttpRequest) (response : TamgaHttpResponse)
    (w : st * net) : (bool * TamgaHttpResponse) * (st * net) :=
  let count := zlen (req_headers request) in
  if count >? 8 then ((false, response), w)
  else
    perform (req_method request) (req_url request) (map fst (req_headers request)) (map snd (req_headers request)) count
      (req_body request) (req_body_len request) (req_timeout_ms request) response w.

Definition tamga_custom_destroy (destroy : option (st * net -> st * net)) (w : st * net) : st * net :=
  match destroy with None => w | Some d => d w end.

Definition sizeof_TamgaCustomTransport : Z := 24.
Definition sizeof_TamgaHttpTransport : Z := 24.

Definition tamga_client_set_transport (client : option (TamgaClient net)) (perform : option TamgaHttpFn)
    (destroy : option (st * net -> st * net)) : IO net (TamgaErrorCode * option (TamgaClient net)) :=
  let fails (m : M TamgaErrorCode) : IO net (TamgaErrorCode * option (TamgaClient net)) :=
    do! status := lift m in io_ret (status, client) in
  do! _ := lift tamga_error_clear in
  match client, perform with
  | Some c, Some perform =>
      do! ok := lift (tamga_calloc 1 sizeof_TamgaCustomTransport) in
      if negb ok then fails (fail TAMGA_ERR_OUT_OF_MEMORY "could not allocate the transport")
      else
        do! ok := lift (tamga_calloc 1 sizeof_TamgaHttpTransport) in
        if negb ok then fails (fail TAMGA_ERR_OUT_OF_MEMORY "could not allocate the transport")
        else
          let t := mk_transport (tamga_custom_perform perform) (Some (tamga_custom_destroy destroy)) in
          do! _ := tamga_http_transport_destroy (transport c) in
          io_ret (TAMGA_OK, Some (with_transport c (Some t)))
  | _, _ => fails (fail TAMGA_ERR_NULL_ARGUMENT "client and perform are required")
  end.
End Lifecycle.
