(* ===== verification/ClientText.v ===== *)
(** * The texts the client builds

    What the buffers of [Client] hold when they are detached: the sanitised
    version, percent-encoded values, the credential, the URL and the origin.
    Over an arbitrary allocator each function returns its text or nothing, and
    nothing only for want of memory. *)

From Stdlib Require Import String.
From S2P Require Import Prelude World Buf BufBuild Base64 Transport Response Client.
From stdpp Require Import list.
#[local] Open Scope Z_scope.

(** ** Specifications *)

Definition sanitized (version : bytes) : bytes := take 32 (List.filter version_char (c_view version)).

Definition url_char (c : Z) : bytes :=
  if unreserved c then [c]
  else [37; nth (Z.to_nat (Z.land (Z.shiftr c 4) 15)) hex_upper 0; nth (Z.to_nat (Z.land c 15)) hex_upper 0].

Definition url_text (value : bytes) : bytes := concat (map url_char (c_view value)).

Definition opt_text (text : option bytes) : bytes := c_view (default [] text).

Section Spec.
Context {net : Type}.

Definition credentials_text (client : TamgaClient net) : bytes :=
  match auth_kind client with
  | TAMGA_AUTH_BASIC_EMAIL_PASSWORD => opt_text (auth_primary client) ++ [58] ++ opt_text (auth_secondary client)
  | TAMGA_AUTH_BASIC_TOKEN => opt_text (auth_primary client) ++ [58]
  | _ => bstr "license:" ++ opt_text (auth_primary client)
  end.

(** The value of the Authorization header; [None] for a credential that travels
    in the URL. *)
Definition auth_text (client : TamgaClient net) : option bytes :=
  match auth_kind client with
  | TAMGA_AUTH_BEARER => Some (bstr "Bearer " ++ opt_text (auth_primary client))
  | TAMGA_AUTH_LICENSE => Some (bstr "License " ++ opt_text (auth_primary client))
  | TAMGA_AUTH_BASIC_EMAIL_PASSWORD | TAMGA_AUTH_BASIC_TOKEN | TAMGA_AUTH_BASIC_LICENSE =>
      Some (bstr "Basic " ++ tamga_base64_encode (Some (credentials_text client)))
  | TAMGA_AUTH_QUERY_TOKEN | auth_kind_other _ => None
  end.

Definition query_text (query : option bytes) : bytes :=
  match opt_text query with [] => [] | q => 63 :: q end.

Definition token_text (client : TamgaClient net) (query : option bytes) : bytes :=
  match auth_kind client with
  | TAMGA_AUTH_QUERY_TOKEN =>
      if auth_configured client
      then (match opt_text query with [] => 63 | _ => 38 end) :: bstr "token=" ++ url_text (default [] (auth_primary client))
      else []
  | _ => []
  end.

Definition request_url (client : TamgaClient net) (scope : TamgaPathScope) (path : bytes) (query : option bytes) : bytes :=
  c_view (match scope with TAMGA_PATH_ORIGIN => origin client | TAMGA_PATH_ACCOUNT => base_url client end) ++
  c_view path ++ query_text query ++ token_text client query.
End Spec.

(** ** Characters *)

Lemma version_char_nonzero c : version_char c = true -> c <> 0.
Proof. unfold version_char, is_digit, is_lower, is_upper. intros H ->. discriminate H. Qed.

Lemma hex_upper_nonzero n : is_byte n -> nth (Z.to_nat (Z.land n 15)) hex_upper 0 <> 0 /\ unreserved (nth (Z.to_nat (Z.land n 15)) hex_upper 0) = true.
Proof.
  intros H. apply (below_forallb 256 (fun n => negb (nth (Z.to_nat (Z.land n 15)) hex_upper 0 =? 0) && unreserved (nth (Z.to_nat (Z.land n 15)) hex_upper 0))) in H.
  - apply andb_prop in H as [H1%negb_true_iff%Z.eqb_neq H2]. done.
  - reflexivity.
Qed.

Lemma filter_nonzero l : ~ In 0 (List.filter version_char l).
Proof. intros [_ H]%List.filter_In. by apply version_char_nonzero in H. Qed.

Lemma sanitized_no_nul v : ~ In 0 (sanitized v).
Proof. intros H%list_elem_of_In%elem_of_take. destruct H as (i & Hi & _). apply (filter_nonzero (c_view v)), list_elem_of_In, list_elem_of_lookup. eauto. Qed.

Lemma shiftr_4_byte c : is_byte c -> is_byte (Z.shiftr c 4).
Proof. intros H. unfold is_byte in *. rewrite Z.shiftr_div_pow2 by lia. change (2 ^ 4) with 16. split; [apply Z.div_pos; lia|apply Z.div_lt_upper_bound; lia]. Qed.

Lemma url_char_chars c x : is_byte c -> In x (url_char c) -> x = 37 \/ unreserved x = true.
Proof.
  intros Hc. unfold url_char. destruct (unreserved c) eqn:E.
  - intros [<-|[]]. by right.
  - intros [<-|[<-|[<-|[]]]]; [by left|right..].
    + apply hex_upper_nonzero. by apply shiftr_4_byte.
    + by apply hex_upper_nonzero.
Qed.

(** Everything in an encoded value is unreserved or the percent sign. *)
Lemma url_text_chars value : bytes_ok value -> Forall (fun x => x = 37 \/ unreserved x = true) (url_text value).
Proof.
  intros Hv%c_view_bytes. unfold url_text. apply Forall_concat, Forall_fmap. eapply Forall_impl; [exact Hv|].
  intros c Hc. apply Forall_forall. intros x Hx%list_elem_of_In. by apply (url_char_chars c).
Qed.

Lemma unreserved_nonzero c : unreserved c = true -> c <> 0.
Proof. intros H ->. discriminate H. Qed.

Lemma url_text_no_nul value : bytes_ok value -> ~ In 0 (url_text value).
Proof.
  intros Hv H%list_elem_of_In. pose proof (proj1 (Forall_forall _ _) (url_text_chars value Hv) 0 H) as [?|?]; [done|].
  by apply (unreserved_nonzero 0).
Qed.

(** Neither NUL, CR nor LF. *)
Definition header_char (c : Z) : Prop := c <> 0 /\ c <> 13 /\ c <> 10.

Lemma b64_char_header triple shift : header_char (b64_char triple shift).
Proof.
  unfold b64_char. assert (0 <= Z.land (Z.shiftr triple shift) 63 < 64) as Hr.
  { change 63 with (2 ^ 6 - 1). rewrite land_mask by lia. apply Z.mod_pos_bound. lia. }
  apply (below_forallb 64 (fun v => let c := at_ TAMGA_B64_ALPHABET v in negb (c =? 0) && negb (c =? 13) && negb (c =? 10))) in Hr; [|reflexivity].
  cbv zeta in Hr. rewrite !andb_true_iff, !negb_true_iff, !Z.eqb_neq in Hr. unfold header_char. tauto.
Qed.

Lemma list_ind3 {A} (P : list A -> Prop) :
  P [] -> (forall a, P [a]) -> (forall a b, P [a; b]) -> (forall a b c l, P l -> P (a :: b :: c :: l)) -> forall l, P l.
Proof. intros H0 H1 H2 H3. fix IH 1. intros [|a [|b [|c l]]]; [done|apply H1|apply H2|apply H3, IH]. Qed.

Lemma b64_encode_header l : Forall header_char (tamga_base64_encode (Some l)).
Proof.
  assert (Forall header_char (b64_encode_loop l)) as H.
  { induction l as [|a|a b|a b c l IH] using list_ind3; cbn [b64_encode_loop]; repeat constructor;
      (apply b64_char_header || (unfold header_char; lia) || done). }
  destruct l; [constructor|exact H].
Qed.

Lemma b64_encode_length l : zlen (tamga_base64_encode (Some l)) = (zlen l + 2) / 3 * 4.
Proof.
  assert (zlen (b64_encode_loop l) = (zlen l + 2) / 3 * 4) as H.
  { induction l as [|a|a b|a b c l IH] using list_ind3; cbn [b64_encode_loop length]; [reflexivity..|].
    rewrite !Nat2Z.inj_succ, IH. replace (Z.succ (Z.succ (Z.succ (zlen l))) + 2) with (zlen l + 2 + 1 * 3) by lia. rewrite Z.div_add by lia. lia. }
  destruct l; [reflexivity|exact H].
Qed.

Lemma header_no_nul l : Forall header_char l -> ~ In 0 l.
Proof. intros H Hi%list_elem_of_In. by destruct (proj1 (Forall_forall _ _) H 0 Hi). Qed.

(** ** Buffers *)

Section Append.
Context {malloc : Malloc}.

Definition plenty : Prop := MallocUpTo SIZE_MAX.

Definition text_or_oom (text : bytes) (r : option bytes) : Prop :=
  r = Some text \/ (r = None /\ ~ (plenty /\ zlen text <= 2 ^ 60)).

Definition buf_text : TamgaBuf -> bytes -> Prop := buf_has (2 ^ 60).

Lemma enough_plenty n : plenty -> n <= 2 ^ 60 -> enough n.
Proof. intros Hp Hn. exists SIZE_MAX. split_and!; [exact Hp|done|done|]. unfold SIZE_MAX. lia. Qed.

Lemma append_text b l p : buf_text b l -> post (tamga_buf_append b (Some p)) (fun b' => buf_text b' (l ++ p)).
Proof. apply buf_has_append. Qed.

Lemma append_byte_text b l c : buf_text b l -> post (tamga_buf_append_byte b c) (fun b' => buf_text b' (l ++ [c])).
Proof. apply buf_has_append. Qed.

Lemma append_str_text b l p : buf_text b l -> post (tamga_buf_append_str b (Some p)) (fun b' => buf_text b' (l ++ c_view p)).
Proof. apply buf_has_append. Qed.

Lemma append_fmt_text b l p : buf_text b l -> post (tamga_buf_append_fmt b (Some p)) (fun b' => buf_text b' (l ++ p)).
Proof. apply buf_has_append_fmt. Qed.

End Append.

(** What a buffer holds after the next append. *)
Ltac text_step b H :=
  eapply post_bind;
  [ lazymatch goal with
    | |- post (tamga_buf_append_fmt _ _) _ => apply append_fmt_text
    | |- post (tamga_buf_append_byte _ _) _ => apply append_byte_text
    | |- post (tamga_buf_append_str _ _) _ => apply append_str_text
    | |- post (tamga_buf_append _ _) _ => apply append_text
    end; eassumption
  | cbv beta; intros b H ].

Section Text.
Context {malloc : Malloc} {net : Type}.

Lemma detach_text_ok b l : buf_text b l -> ~ In 0 l -> post (detach_text b) (text_or_oom l).
Proof.
  intros Hb Hl. unfold detach_text. eapply post_bind; [by apply buf_has_detach|]. intros [r b'] Hr. apply post_ret.
  destruct Hr as [->|[-> Hn]]; [by left|right]. split; [done|]. intros [Hp Hs]. apply Hn. split; [|done]. by apply enough_plenty.
Qed.

(** A buffer whose failure is remembered yields nothing. *)
Lemma detach_failed b : buf_failed b = true -> post (detach_text b) (fun r => r = None).
Proof.
  intros Hf. unfold detach_text, tamga_buf_detach_string, tamga_buf_detach_impl. rewrite Hf. by intros s.
Qed.

Lemma init_text : buf_text tamga_buf_init [].
Proof. apply buf_has_init. Qed.

Lemma sanitize_loop_text v kept b l :
  0 <= kept <= 32 -> buf_text b l ->
  post (sanitize_loop v kept b) (fun b' => buf_text b' (l ++ take (Z.to_nat (32 - kept)) (List.filter version_char v))).
Proof.
  revert kept b l. induction v as [|c v IH]; intros kept b l Hk Hb; cbn [sanitize_loop List.filter].
  { rewrite take_nil, app_nil_r. by apply post_ret. }
  destruct (Z.ltb_spec kept 32) as [Hlt|Hge].
  - destruct (version_char c); [|by apply IH]. eapply post_bind; [by apply append_byte_text|]. intros b' Hb'.
    replace (Z.to_nat (32 - kept)) with (S (Z.to_nat (32 - (kept + 1)))) by lia. cbn [take].
    eapply post_mono; [apply IH; [lia|exact Hb']|]. intros b2 H2. by rewrite <- app_assoc in H2.
  - replace (Z.to_nat (32 - kept)) with 0%nat by lia. cbn [take]. rewrite app_nil_r. by apply post_ret.
Qed.

Lemma sanitize_post v : post (tamga_sanitize_api_version (Some v)) (text_or_oom (sanitized v)).
Proof.
  unfold tamga_sanitize_api_version. eapply post_bind; [apply (sanitize_loop_text _ 0 _ []); [lia|apply init_text]|].
  intros b Hb. apply detach_text_ok; [exact Hb|apply sanitized_no_nul].
Qed.

Lemma url_encode_loop_text v b l : buf_text b l -> post (url_encode_loop v b) (fun b' => buf_text b' (l ++ concat (map url_char v))).
Proof.
  revert b l. induction v as [|c v IH]; intros b l Hb; cbn [url_encode_loop map concat]; [rewrite app_nil_r; by apply post_ret|].
  unfold url_char at 1. rewrite app_assoc. destruct (unreserved c).
  - eapply post_bind; [by apply append_byte_text|]. intros b' Hb'. by apply IH.
  - text_step b1 H1. text_step b2 H2. text_step b3 H3. rewrite <- !app_assoc in H3. by apply IH.
Qed.

Lemma url_encode_post v : bytes_ok v -> post (tamga_url_encode (Some v)) (text_or_oom (url_text v)).
Proof.
  intros Hv. unfold tamga_url_encode. eapply post_bind; [apply (url_encode_loop_text _ _ []), init_text|].
  intros b Hb. apply detach_text_ok; [exact Hb|by apply url_text_no_nul].
Qed.

(** ** The credential *)

(** The credential is complete for its kind. *)
Definition auth_complete (client : TamgaClient net) : Prop :=
  is_Some (auth_primary client) /\
  match auth_kind client with
  | TAMGA_AUTH_BASIC_EMAIL_PASSWORD => is_Some (auth_secondary client)
  | auth_kind_other _ => False
  | _ => True
  end.

Lemma literal_no_nul prefix l : forallb (fun c => negb (c =? 0)) prefix = true -> ~ In 0 l -> ~ In 0 (prefix ++ l).
Proof. intros Hp Hl [H|H]%in_app_or; [|done]. apply (proj1 (forallb_forall _ _) Hp) in H. done. Qed.

Lemma text_or_oom_mono l l' : zlen l <= zlen l' -> text_or_oom l None -> text_or_oom l' None.
Proof. intros Hle [?|[_ H]]; [done|]. right. split; [done|]. intros [? ?]. apply H. split; [done|lia]. Qed.

Lemma auth_prefixed_post prefix (client : TamgaClient net) :
  is_Some (auth_primary client) -> forallb (fun c => negb (c =? 0)) (bstr prefix) = true -> c_view (bstr prefix) = bstr prefix ->
  post (auth_value_prefixed prefix client) (text_or_oom (bstr prefix ++ opt_text (auth_primary client))).
Proof.
  intros [p Hp] Hz Hv. unfold auth_value_prefixed, opt_text. rewrite Hp. cbn [default from_option id].
  pose proof init_text as H0. text_step b1 H1. text_step b2 H2. rewrite Hv in H2. cbn [app] in H2.
  apply detach_text_ok; [exact H2|]. apply literal_no_nul; [exact Hz|apply c_view_no_nul].
Qed.

Lemma basic_pair_post (client : TamgaClient net) : auth_complete client -> post (basic_pair client) (text_or_oom (credentials_text client)).
Proof.
  intros [[p Hp] Hk]. unfold basic_pair, credentials_text, opt_text. rewrite Hp. cbn [default from_option id].
  eapply (post_bind _ _ (fun b => buf_text b (credentials_text client))).
  - unfold credentials_text, opt_text. rewrite Hp. cbn [default from_option id]. pose proof init_text as H0.
    destruct (auth_kind client); cycle 2.
    { destruct Hk as [q Hq]. rewrite Hq. cbn [default from_option id]. text_step b1 H1. text_step b2 H2.
      rewrite (app_assoc (c_view p) [58]). apply append_str_text. exact H2. }
    { text_step b1 H1. apply append_byte_text. exact H1. }
    all: text_step b1 H1; apply append_str_text; exact H1.
  - intros b Hb. unfold credentials_text, opt_text in Hb. rewrite Hp in Hb. cbn [default from_option id] in Hb. apply detach_text_ok; [exact Hb|].
    pose proof (c_view_no_nul p) as Hz. pose proof (c_view_no_nul (default [] (auth_secondary client))) as Hz2.
    destruct (auth_kind client); try (apply literal_no_nul; [reflexivity|exact Hz]).
    + intros [?|[?|?]%in_app_or]%in_app_or; [done|by destruct H as [?|[]]|done].
    + intros [?|[?|[]]]%in_app_or; done.
Qed.

Lemma encode_alloc_post l :
  post (tamga_base64_encode_alloc (Some l)) (text_or_oom (tamga_base64_encode (Some l))).
Proof.
  unfold tamga_base64_encode_alloc, tamga_base64_encoded_len. pose proof (b64_encode_length l) as Hlen.
  pose proof (Z.div_mod (zlen l + 2) 3 ltac:(lia)). pose proof (Z.mod_pos_bound (zlen l + 2) 3 ltac:(lia)).
  destruct (_ ≫= _) as [total|] eqn:Et.
  - apply bind_Some in Et as (enc & Hg & Ht). apply bind_Some in Hg as (g & Hg & He). apply checked_add_Some in Hg as [-> ?].
    apply checked_mul_Some in He as [-> ?]; [|lia..]. apply checked_add_Some in Ht as [-> ?].
    intros s. unfold bind, tamga_malloc, c_malloc, ret. cbn [fst]. destruct (malloc_ok _ _) eqn:Em; [by left|]. right. split; [done|].
    intros [Hp Hs]. rewrite (Hp _ _) in Em; [done|]. dif; lia.
  - apply post_ret. right. split; [done|]. intros [_ Hs]. rewrite Hlen in Hs.
    assert (tamga_checked_add (zlen l) 2 = Some (zlen l + 2)) as E1 by (apply checked_add_Some; unfold SIZE_MAX; lia).
    assert (tamga_checked_mul ((zlen l + 2) / 3) 4 = Some ((zlen l + 2) / 3 * 4)) as E2 by (apply checked_mul_Some; [lia|lia|]; unfold SIZE_MAX; lia).
    assert (tamga_checked_add ((zlen l + 2) / 3 * 4) 1 = Some ((zlen l + 2) / 3 * 4 + 1)) as E3 by (apply checked_add_Some; unfold SIZE_MAX; lia).
    rewrite E1 in Et. cbn [mbind option_bind] in Et. rewrite E2 in Et. cbn [mbind option_bind] in Et. by rewrite E3 in Et.
Qed.

(** The Authorization header, or none for a credential in the URL. *)
Definition auth_header (client : TamgaClient net) : option (bytes * bytes) := (fun v => (bstr "Authorization", v)) <$> auth_text client.

Lemma auth_basic_post (client : TamgaClient net) :
  auth_complete client -> post (auth_value_basic client) (text_or_oom (bstr "Basic " ++ tamga_base64_encode (Some (credentials_text client)))).
Proof.
  intros Hc. unfold auth_value_basic. set (text := bstr "Basic " ++ _). eapply post_bind; [by apply basic_pair_post|].
  assert (zlen (tamga_base64_encode (Some (credentials_text client))) <= zlen text) as Hle by (unfold text; rewrite length_app; lia).
  assert (zlen (credentials_text client) <= zlen text) as Hle2.
  { rewrite b64_encode_length in Hle. pose proof (Z.div_mod (zlen (credentials_text client) + 2) 3 ltac:(lia)).
    pose proof (Z.mod_pos_bound (zlen (credentials_text client) + 2) 3 ltac:(lia)). lia. }
  intros [l|] Hl; [|apply post_ret; by apply (text_or_oom_mono (credentials_text client))]. destruct Hl as [[= ->]|[? _]]; [|done].
  assert (c_view (credentials_text client) = credentials_text client) as Hv.
  { apply c_view_id. unfold credentials_text. pose proof (c_view_no_nul (default [] (auth_primary client))).
    pose proof (c_view_no_nul (default [] (auth_secondary client))).
    destruct (auth_kind client); try (apply literal_no_nul; [reflexivity|done]).
    - intros [?|[?|?]%in_app_or]%in_app_or; [done|by destruct H1 as [?|[]]|done].
    - intros [?|[?|[]]]%in_app_or; done. }
  rewrite Hv. eapply post_bind; [apply encode_alloc_post|]. intros [e|] He; [|apply post_ret; by apply (text_or_oom_mono (tamga_base64_encode (Some (credentials_text client))))].
  destruct He as [->%(inj Some)|[? _]]; [|done]. pose proof init_text as H0. text_step b1 H1. text_step b2 H2.
  pose proof (b64_encode_header (credentials_text client)) as Hh. rewrite (c_view_id (tamga_base64_encode _)) in H2 by (by apply header_no_nul).
  apply detach_text_ok; [exact H2|]. apply literal_no_nul; [reflexivity|by apply header_no_nul].
Qed.

Lemma auth_header_post (client : TamgaClient net) :
  auth_complete client ->
  post (tamga_client_auth_header client) (fun r => r = Some (auth_header client) \/
    (r = None /\ ~ (plenty /\ zlen (default [] (auth_text client)) <= 2 ^ 60))).
Proof.
  intros Hc. pose proof Hc as [Hp Hk]. unfold tamga_client_auth_header, auth_header, auth_text.
  assert (forall (m : M (option bytes)) text, post m (text_or_oom text) ->
    post (let! value := m in match value with
      | None => ret None
      | Some value => let! name := tamga_strdup (Some (bstr "Authorization")) in
          ret (match name with None => None | Some name => Some (Some (name, value)) end)
      end) (fun r => r = Some (Some (bstr "Authorization", text)) \/ (r = None /\ ~ (plenty /\ zlen text <= 2 ^ 60)))) as Hfin.
  { intros m text Hm. eapply post_bind; [exact Hm|]. intros [v|] [[= ->]|[? Hn]]; try done; [|apply post_ret; by right].
    eapply post_bind; [apply strndup_post|]. intros [n|] Hn; apply post_ret.
    - destruct Hn as [-> _]. by left.
    - right. split; [done|]. intros [Hpl _]. apply Hn. split; [apply enough_plenty; [done|vm_compute; done]|]. split; [|vm_compute; done].
      apply c_view_no_nul. }
  destruct (auth_kind client); try done; cbn [fmap option_fmap option_map default from_option id].
  - apply Hfin. by apply auth_prefixed_post.
  - apply Hfin. by apply auth_prefixed_post.
  - apply Hfin. by apply auth_basic_post.
  - apply Hfin. by apply auth_basic_post.
  - apply Hfin. by apply auth_basic_post.
  - apply post_ret. by left.
Qed.

(** ** URLs *)

Lemma app_no_nul (l1 l2 : bytes) : ~ In 0 l1 -> ~ In 0 l2 -> ~ In 0 (l1 ++ l2).
Proof. intros H1 H2 [?|?]%in_app_or; done. Qed.

Lemma query_no_nul query : ~ In 0 (query_text query).
Proof.
  unfold query_text, opt_text. pose proof (c_view_no_nul (default [] query)) as H. destruct (c_view (default [] query)) as [|c q]; [done|].
  intros [?|?]; done.
Qed.

Lemma build_url_post (client : TamgaClient net) scope path query :
  is_Some (auth_primary client) -> bytes_ok (default [] (auth_primary client)) ->
  post (tamga_client_build_url client scope path query) (text_or_oom (request_url client scope path query)).
Proof.
  intros [p Hp] Hok. unfold tamga_client_build_url, request_url, token_text. rewrite Hp in *. cbn [default from_option id] in *.
  set (root := match scope with TAMGA_PATH_ORIGIN => origin client | TAMGA_PATH_ACCOUNT => base_url client end).
  pose proof init_text as H0. text_step b1 H1. text_step b2 H2. cbn [app] in H2.
  pose proof (app_no_nul _ _ (c_view_no_nul root) (app_no_nul _ _ (c_view_no_nul path) (query_no_nul query))) as Hz.
  eapply (post_bind _ _ (fun b => buf_text b (c_view root ++ c_view path ++ query_text query))).
  { unfold query_text, opt_text. destruct query as [q|]; cbn [default from_option id]; [|rewrite app_nil_r; by apply post_ret].
    destruct (c_view q) as [|c q'] eqn:Eq; cbn [length Nat.eqb negb]; [rewrite app_nil_r; by apply post_ret|].
    text_step b3 H3. eapply post_mono; [apply append_str_text; exact H3|]. rewrite Eq. cbv beta. intros b H. by rewrite <- !app_assoc in H. }
  intros b3 H3. assert (post (detach_text b3) (text_or_oom (c_view root ++ c_view path ++ query_text query ++ []))) as Hplain.
  { rewrite app_nil_r. by apply detach_text_ok. }
  assert (match query with Some q => negb (length (c_view q) =? 0)%nat | None => false end = match opt_text query with [] => false | _ => true end) as ->.
  { unfold opt_text. destruct query as [q|]; [|done]. cbn. by destruct (c_view q). }
  destruct (auth_kind client); try exact Hplain. destruct (auth_configured client); [|exact Hplain].
  eapply post_bind; [by apply url_encode_post|]. intros [e|] He.
  2:{ apply post_ret. apply (text_or_oom_mono (url_text p)); [|done]. rewrite !length_app. cbn [length app]. rewrite ?length_app. lia. }
  destruct He as [->%(inj Some)|[? _]]; [|done]. rewrite (app_assoc (c_view path)), (app_assoc (c_view root)).
  text_step b4 H4. text_step b5 H5. text_step b6 H6. rewrite (c_view_id (url_text p)) in H6 by (by apply url_text_no_nul).
  apply detach_text_ok.
  - rewrite <- !app_assoc in H6. rewrite <- !app_assoc. by destruct (opt_text query).
  - apply app_no_nul; [done|]. intros [E|[?|?]%in_app_or].
    + by destruct (opt_text query).
    + revert H. apply (literal_no_nul (bstr "token=") []); [reflexivity|]. intros [].
    + by apply url_text_no_nul in H.
Qed.

(** The host without surrounding blanks and trailing slashes, with its scheme. *)
Definition origin_text (host : bytes) : bytes :=
  let trimmed := skip_spaces (c_view host) in
  let kept := rev (trim_tail (rev trimmed)) in
  (if ((zlen kept >? 7) && has_prefix (bstr "http://") trimmed) || ((zlen kept >? 8) && has_prefix (bstr "https://") trimmed)
   then [] else bstr "https://") ++ kept.

Definition base_text (org account : bytes) : bytes := c_view org ++ bstr "/v1/accounts/" ++ c_view account.

Lemma skip_spaces_in l c : In c (skip_spaces l) -> In c l.
Proof. induction l as [|x l IH]; [done|]. cbn [skip_spaces]. dif; [right; by apply IH|done]. Qed.

Lemma trim_tail_in l c : In c (trim_tail l) -> In c l.
Proof. induction l as [|x l IH]; [done|]. cbn [trim_tail]. destruct (_ || _); [right; by apply IH|done]. Qed.

Lemma origin_no_nul host : ~ In 0 (origin_text host).
Proof.
  unfold origin_text. apply app_no_nul; [destruct (_ || _); [by intros []|]; apply (literal_no_nul (bstr "https://") []); [reflexivity|by intros []]|].
  intros H%in_rev%trim_tail_in%in_rev%skip_spaces_in. by apply c_view_no_nul in H.
Qed.

Lemma compose_origin_post host : post (tamga_client_compose_origin host) (text_or_oom (origin_text host)).
Proof.
  unfold tamga_client_compose_origin. set (trimmed := skip_spaces (c_view host)). set (kept := rev (trim_tail (rev trimmed))).
  set (known := ((zlen kept >? 7) && has_prefix (bstr "http://") trimmed) || ((zlen kept >? 8) && has_prefix (bstr "https://") trimmed)).
  pose proof init_text as H0. eapply (post_bind _ _ (fun b => buf_text b (if known then [] else bstr "https://"))).
  { destruct known; cbn [negb]; [by apply post_ret|]. eapply post_mono; [apply append_str_text; exact H0|]. done. }
  intros b1 H1. text_step b2 H2. apply detach_text_ok; [exact H2|]. apply origin_no_nul.
Qed.

Lemma compose_base_post org account : post (tamga_client_compose_base_url org account) (text_or_oom (base_text org account)).
Proof.
  unfold tamga_client_compose_base_url. pose proof init_text as H0. text_step b1 H1. text_step b2 H2. text_step b3 H3.
  apply detach_text_ok; [by rewrite <- !app_assoc in H3|].
  apply app_no_nul; [apply c_view_no_nul|]. apply literal_no_nul; [reflexivity|apply c_view_no_nul].
Qed.
End Text.

(** ** Percent-encoding is invertible *)

Definition hex_value (c : Z) : option Z :=
  if is_digit c then Some (c - 48) else if (65 <=? c) && (c <=? 70) then Some (c - 55) else None.

Fixpoint percent_decode (l : bytes) : option bytes :=
  match l with
  | [] => Some []
  | c :: r =>
      if c =? 37 then
        match r with
        | a :: b :: r' => hi ← hex_value a; lo ← hex_value b; cons (hi * 16 + lo) <$> percent_decode r'
        | _ => None
        end
      else cons c <$> percent_decode r
  end.

Lemma url_char_decode c r : is_byte c -> percent_decode (url_char c ++ r) = cons c <$> percent_decode r.
Proof.
  intros Hc. unfold url_char. destruct (unreserved c) eqn:Eu.
  - cbn [app percent_decode]. destruct (Z.eqb_spec c 37) as [->|]; [discriminate Eu|done].
  - cbn [app percent_decode]. rewrite Z.eqb_refl.
    apply (below_forallb 256 (fun c => bool_decide (
      hex_value (nth (Z.to_nat (Z.land (Z.shiftr c 4) 15)) hex_upper 0) = Some (c / 16) /\
      hex_value (nth (Z.to_nat (Z.land c 15)) hex_upper 0) = Some (c mod 16)))) in Hc; [|vm_compute; reflexivity].
    apply bool_decide_eq_true in Hc as [-> ->]. cbn [mbind option_bind]. replace (c / 16 * 16 + c mod 16) with c; [done|].
    pose proof (Z.div_mod c 16 ltac:(lia)). lia.
Qed.

(** Percent-encoding keeps the value: for any allocator, what
    [tamga_url_encode] returns consists of unreserved characters and percent
    signs, so it cannot introduce a separator into a query, and decoding it
    gives back every byte of the string. *)
Theorem url_encode_roundtrip `{Malloc} value s text s' :
  bytes_ok value -> tamga_url_encode (Some value) s = (Some text, s') ->
  percent_decode text = Some (c_view value) /\ Forall (fun x => x = 37 \/ unreserved x = true) text.
Proof.
  intros Hok E. pose proof (post_run _ _ _ _ _ (url_encode_post value Hok) E) as [->%(inj Some)|[? _]]; [|done].
  split; [|by apply url_text_chars]. unfold url_text. clear E. induction (c_view_bytes _ Hok) as [|c l Hc Hl IH]; [done|].
  cbn [map concat]. by rewrite url_char_decode, IH.
Qed.

Lemma url_encode_roundtrip_witness :
  percent_decode (bstr "a%26b%3D%C3%A9") = Some [97; 38; 98; 61; 195; 169] /\ Forall (fun x => x = 37 \/ unreserved x = true) (bstr "a%26b%3D%C3%A9").
Proof.
  apply (url_encode_roundtrip (H := full_memory) [97; 38; 98; 61; 195; 169] (mk_st 0 None) (bstr "a%26b%3D%C3%A9") (mk_st 1 None)).
  - repeat (constructor; [split; vm_compute; congruence|]). constructor.
  - vm_compute. reflexivity.
Defined.
