(* ===== verification/ClientSpec.v ===== *)
(** * What the client sends and what it answers

    The retry loop as a small-step machine, its invariant and its termination;
    [tamga_client_send_scoped] as a run of that machine on one fixed request;
    the error model; and the invariant of a client built through the public
    functions. *)

From Stdlib Require Import String.
From S2P Require Import Prelude World Buf BufBuild Base64 Json JsonParse JsonString JsonNumber JsonGrammar Status Transport Response Client ClientText.
From stdpp Require Import list relations.
#[local] Open Scope Z_scope.

(** ** Runs in the world *)

Section Io.
Context {net : Type}.

(** The result of [m] from [w] and the world it leaves satisfy [Q]. *)
Definition io_post {A} (m : IO net A) (w : io net) (Q : A -> io net -> Prop) : Prop := Q (m w).1 (m w).2.

Lemma io_post_ret {A} (a : A) w (Q : A -> io net -> Prop) : Q a w -> io_post (io_ret a) w Q.
Proof. done. Qed.

Lemma io_post_bind {A B} (m : IO net A) (f : A -> IO net B) w Q :
  io_post m w (fun a w' => io_post (f a) w' Q) -> io_post (io_bind m f) w Q.
Proof. unfold io_post, io_bind. by destruct (m w). Qed.

Lemma io_post_mono {A} (m : IO net A) w (P Q : A -> io net -> Prop) : io_post m w P -> (forall a w', P a w' -> Q a w') -> io_post m w Q.
Proof. intros H HPQ. by apply HPQ. Qed.

Lemma io_post_lift {A} (m : M A) w (P : A -> Prop) (Q : A -> io net -> Prop) :
  post m P -> (forall a s, m (io_st w) = (a, s) -> P a -> Q a (mk_io s (io_net w) (io_trace w))) -> io_post (lift m) w Q.
Proof. intros Hm HQ. specialize (Hm (io_st w)). unfold io_post, lift. destruct (m (io_st w)) as [a s] eqn:E. by apply HQ. Qed.
End Io.

(** ** The retry machine *)

Section Machine.
Context {malloc : Malloc} {net : Type} {platform : Platform net}.
Variables (t : TamgaHttpTransport net) (request : TamgaHttpRequest) (retryable : bool) (retries : Z).

Inductive phase :=
| Sending (attempt : Z)
| Waiting (attempt milliseconds : Z)
| Finished (ok : bool) (http : TamgaHttpResponse).

(** What the machine is doing, the environment, and what it has done so far. *)
Definition config : Type := phase * (st * net) * list event.

(** The seconds a rate-limited answer asks to wait. *)
Definition retry_after (http : TamgaHttpResponse) : Z :=
  match find_header (http_headers http) (bstr "Retry-After") with Some v => strtoll_value v | None => 0 end.

(** An answer that is worth another attempt. *)
Definition try_again (attempt : Z) (http : TamgaHttpResponse) : Prop :=
  http_status http = 429 /\ attempt < retries /\ retryable = true.

Inductive step : config -> config -> Prop :=
| step_failed a e e' http tr :
    transport_perform t request tamga_http_response_init e = ((false, http), e') ->
    step (Sending a, e, tr) (Finished false http, e', tr ++ [Performed request])
| step_limited a e e' http tr :
    transport_perform t request tamga_http_response_init e = ((true, http), e') -> try_again a http ->
    step (Sending a, e, tr) (Waiting a (tamga_retry_delay_ms a (retry_after http)), e', tr ++ [Performed request])
| step_answered a e e' http tr :
    transport_perform t request tamga_http_response_init e = ((true, http), e') -> ~ try_again a http ->
    step (Sending a, e, tr) (Finished true http, e', tr ++ [Performed request])
| step_woken a ms e tr :
    step (Waiting a ms, e, tr) (Sending (a + 1), e, tr ++ [Slept ms]).

(** The events of a call that waited [delays]: the same request every time. *)
Definition send_events (delays : list Z) : list event :=
  Performed request :: concat (map (fun d => [Slept d; Performed request]) delays).

(** What the transport said, attempt after attempt, to the same request, from one
    environment to another. *)
Inductive conversation (e : st * net) : list (bool * TamgaHttpResponse) -> st * net -> Prop :=
| said_nothing : conversation e [] e
| said_more said e1 ok http e2 :
    conversation e said e1 -> transport_perform t request tamga_http_response_init e1 = ((ok, http), e2) ->
    conversation e (said ++ [(ok, http)]) e2.

(** The wait before another attempt: what the server asked for, a minute at most,
    or else a doubling number of seconds up to 32 and less than one more. *)
Definition wait_for (attempt seconds milliseconds : Z) : Prop :=
  (0 < seconds /\ milliseconds = 1000 * Z.min seconds 60) \/
  (seconds <= 0 /\ 1000 * 2 ^ Z.min attempt 5 <= milliseconds < 1000 * 2 ^ Z.min attempt 5 + 1000).

(** One rate-limited answer before each wait, and the wait it calls for. *)
Definition rate_limited (limited : list TamgaHttpResponse) (delays : list Z) : Prop :=
  length limited = length delays /\
  forall i http d, limited !! i = Some http -> delays !! i = Some d ->
    http_status http = 429 /\ wait_for (Z.of_nat i) (retry_after http) d.

(** The configurations reachable from the environment [e0]. *)
Definition machine_ok (e0 : st * net) (c : config) : Prop :=
  let '(p, e, tr) := c in
  exists delays, Forall (fun d => 1000 <= d <= 60000) delays /\ (delays <> [] -> retryable = true) /\ zlen delays <= retries /\
  match p with
  | Sending a => a = zlen delays /\ tr ++ [Performed request] = send_events delays /\
      exists limited, rate_limited limited delays /\ conversation e0 (map (pair true) limited) e
  | Waiting a ms => a = zlen delays /\ a < retries /\ retryable = true /\ 1000 <= ms <= 60000 /\ tr = send_events delays /\
      exists limited, rate_limited limited (delays ++ [ms]) /\ conversation e0 (map (pair true) limited) e
  | Finished ok http => tr = send_events delays /\ (ok = true -> ~ try_again (zlen delays) http) /\
      exists limited, rate_limited limited delays /\ conversation e0 (map (pair true) limited ++ [(ok, http)]) e
  end.

Lemma delay_wait pid a seconds : 0 <= a -> wait_for a seconds (retry_delay_ms pid a seconds).
Proof.
  intros Ha. unfold wait_for, retry_delay_ms, retry_jitter_ms. destruct (Z.gtb_spec seconds 0) as [H0|H0]; [left|right]; (split; [lia|]).
  - unfold u32. rewrite Z.mod_small; destruct (Z.gtb_spec seconds 60); lia.
  - replace (if a >? 5 then 5 else a) with (Z.min a 5) by (destruct (Z.gtb_spec a 5); lia).
    pose proof (Z.mod_pos_bound (u64 (u64 (u64 pid * 2654435761) + u64 (u32 a * 40503))) 1000 ltac:(lia)) as Hj.
    set (j := _ mod 1000) in *. set (b := Z.min a 5). rewrite Z.shiftl_1_l. assert (1 <= 2 ^ b <= 32) as Hp.
    { split; [change 1 with (2 ^ 0)|change 32 with (2 ^ 5)]; apply Z.pow_le_mono_r; lia. }
    unfold u32. rewrite (Z.mod_small (2 ^ b)) by lia. rewrite (Z.mod_small (2 ^ b * 1000)) by lia. rewrite Z.mod_small; lia.
Qed.

Lemma delay_bounds pid a seconds : 0 <= a -> 1000 <= retry_delay_ms pid a seconds <= 60000.
Proof.
  intros Ha. destruct (delay_wait pid a seconds Ha) as [[H ->]|[H Hd]]; [lia|].
  assert (2 ^ 0 <= 2 ^ Z.min a 5 <= 2 ^ 5) by (split; apply Z.pow_le_mono_r; lia). lia.
Qed.

Lemma rate_limited_snoc limited delays http d :
  rate_limited limited delays -> http_status http = 429 -> wait_for (zlen delays) (retry_after http) d ->
  rate_limited (limited ++ [http]) (delays ++ [d]).
Proof.
  intros [Hlen Hall] Hst Hw. split; [rewrite !length_app; cbn [length]; lia|]. intros i h x Hh Hx.
  apply lookup_app_Some in Hh as [Hh|[Hge Hh]], Hx as [Hx|[Hge' Hx]].
  - by eapply Hall.
  - apply lookup_lt_Some in Hh. lia.
  - apply lookup_lt_Some in Hx. lia.
  - apply list_lookup_singleton_Some in Hh as [Hi <-], Hx as [_ <-]. split; [done|]. by replace i with (length delays) by lia.
Qed.

Lemma send_events_snoc delays d : send_events (delays ++ [d]) = send_events delays ++ [Slept d; Performed request].
Proof. unfold send_events. rewrite map_app, concat_app. cbn [map concat]. by rewrite app_nil_r. Qed.

Lemma step_ok e0 c c' : machine_ok e0 c -> step c c' -> machine_ok e0 c'.
Proof.
  intros Hc Hs. destruct Hs as [a e e' http tr Hp|a e e' http tr Hp Hr|a e e' http tr Hp Hr|a ms e tr];
    destruct Hc as (delays & Hd & Hre & Hl & Hph).
  - destruct Hph as (-> & -> & limited & Hlim & Hconv). exists delays. split_and!; try done. exists limited. split; [done|]. by econstructor.
  - destruct Hph as (-> & -> & limited & Hlim & Hconv). pose proof Hr as (Hst & ? & ?). exists delays.
    split_and!; try done; try (apply delay_bounds; lia). exists (limited ++ [http]). split; [apply rate_limited_snoc; [done..|apply delay_wait; lia]|].
    rewrite map_app. by econstructor.
  - destruct Hph as (-> & -> & limited & Hlim & Hconv). exists delays. split_and!; try done. exists limited. split; [done|]. by econstructor.
  - destruct Hph as (-> & Hlt & Hrt & Hms & -> & Htalk). exists (delays ++ [ms]). rewrite length_app. cbn [length].
    split_and!; [by apply Forall_app_2; [|constructor]|done|lia|lia| |done]. rewrite send_events_snoc. by rewrite <- app_assoc.
Qed.

Lemma reachable_ok e c : 0 <= retries -> rtc step (Sending 0, e, []) c -> machine_ok e c.
Proof.
  intros H0 Hr. eapply (rtc_ind_r (machine_ok e)); [|intros y z _ Hs Hy; by eapply step_ok|exact Hr].
  exists []. split_and!; try done. exists []. split; [done|constructor].
Qed.

(** ** Termination *)

Definition fuel_of (p : phase) : nat :=
  match p with
  | Sending a => Z.to_nat (2 * Z.max 0 (retries - a) + 1)
  | Waiting a _ => Z.to_nat (2 * Z.max 0 (retries - a - 1) + 2)
  | Finished _ _ => 0
  end.

Lemma step_fuel c c' : step c c' -> (fuel_of c'.1.1 < fuel_of c.1.1)%nat.
Proof. intros []; cbn [fst fuel_of]; try lia. destruct H0 as (_ & ? & _). lia. Qed.

Lemma step_sn c : sn step c.
Proof.
  remember (fuel_of c.1.1) as n eqn:E. revert c E. induction (lt_wf n) as [n _ IH]. intros c ->. constructor. intros c' Hs.
  apply (IH (fuel_of c'.1.1)); [by apply step_fuel|done].
Qed.

Lemma try_again_dec a http : Decision (try_again a http).
Proof. unfold try_again. apply _. Defined.

Lemma step_progress c : (forall ok http, c.1.1 <> Finished ok http) -> exists c', step c c'.
Proof.
  destruct c as [[[a|a ms|ok http] e] tr]; cbn [fst]; intros H.
  - destruct (transport_perform t request tamga_http_response_init e) as [[[|] http] e'] eqn:E.
    + destruct (try_again_dec a http); eexists; [by eapply step_limited|by eapply step_answered].
    + eexists. by eapply step_failed.
  - eexists. apply step_woken.
  - by destruct (H ok http).
Qed.

(** ** The loop runs the machine *)

Lemma step_frame pre c c' : step c c' -> step (c.1.1, c.1.2, pre ++ c.2) (c'.1.1, c'.1.2, pre ++ c'.2).
Proof. intros []; cbn [fst snd]; rewrite app_assoc; by econstructor. Qed.

Lemma run_frame pre p e tr p' e' tr' : rtc step (p, e, tr) (p', e', tr') -> rtc step (p, e, pre ++ tr) (p', e', pre ++ tr').
Proof.
  intros H. remember (p, e, tr) as c eqn:Ec. remember (p', e', tr') as c' eqn:Ec'. revert p e tr Ec.
  induction H as [c|c c1 c2 Hs Hr IH]; intros p e tr ->; [by simplify_eq; apply rtc_refl|].
  destruct c1 as [[p1 e1] tr1]. eapply rtc_l; [apply (step_frame pre) in Hs; exact Hs|]. by apply IH.
Qed.

(** What the caller gets once the machine has finished. *)
Definition finish (ok : bool) (http : TamgaHttpResponse) : M (TamgaErrorCode * option TamgaResponse) :=
  if ok then answer http else let! status := transport_error (http_failure http) in ret (status, None).

(** [w'] and [r] come out of a finished run that starts at [w]. *)
Definition ran (a : Z) (w : io net) (r : TamgaErrorCode * option TamgaResponse) (w' : io net) : Prop :=
  exists ok http s n tr, rtc step (Sending a, (io_st w, io_net w), []) (Finished ok http, (s, n), tr) /\
    io_trace w' = io_trace w ++ tr /\ io_net w' = n /\ finish ok http s = (r, io_st w').
End Machine.

Section Refinement.
Context {malloc : Malloc} {net : Type} {platform : Platform net}.

Lemma send_loop_ran t request method path retries fuel a w :
  0 <= a <= retries -> retries < 2 ^ 32 -> retries - a < Z.of_nat fuel ->
  io_post (send_loop fuel t request method path retries a) w
    (ran t request (tamga_request_is_retryable (Some method) (Some path)) retries a w).
Proof.
  revert a w. induction fuel as [|f IH]; intros a w Ha Hr Hf; [lia|]. cbn [send_loop]. apply io_post_bind. unfold io_post at 1, io_perform.
  destruct (transport_perform t request tamga_http_response_init (io_st w, io_net w)) as [[ok http] [s n]] eqn:Ep. cbn [fst snd].
  destruct ok; cbn [negb].
  - destruct (_ && _) eqn:E.
    + apply andb_true_iff in E as [E Hre]. apply andb_true_iff in E as [E1%Z.eqb_eq E2%Z.ltb_lt].
      apply io_post_bind. unfold io_post at 1, io_sleep. cbn [fst snd io_st io_net io_trace].
      replace (u32 (a + 1)) with (a + 1) by (unfold u32; rewrite Z.mod_small; lia).
      set (d := tamga_retry_delay_ms a _). eapply io_post_mono; [apply IH; lia|].
      intros r w' (ok & h & s' & n' & tr & Hrun & Ht & Hn & Hfin). cbn [io_st io_net io_trace] in *.
      exists ok, h, s', n', ([Performed request; Slept d] ++ tr). split_and!; [|by rewrite Ht, <- !app_assoc|done|done].
      eapply rtc_l; [eapply step_limited; [exact Ep|by split_and!]|]. eapply rtc_l; [apply step_woken|].
      replace (tamga_retry_delay_ms a (retry_after http)) with d.
      2:{ unfold d. f_equal. unfold retry_after. cbn [tamga_http_response_header]. by rewrite http_header_find. }
      apply (run_frame _ _ _ _ [Performed request; Slept d]) in Hrun. exact Hrun.
    + unfold io_post, lift. cbn [io_st io_net io_trace]. destruct (answer http s) as [r s'] eqn:Ea. cbn [fst snd].
      exists true, http, s, n, [Performed request]. cbn [io_st io_net io_trace]. split_and!; [|done|done|done].
      apply rtc_once, step_answered; [exact Ep|]. intros (H1 & H2 & H3). rewrite H3 in E. apply andb_false_iff in E as [E|E]; [|done].
      apply andb_false_iff in E as [E|E]; lia.
  - apply io_post_bind. unfold io_post at 1, lift. cbn [io_st io_net io_trace].
    destruct (transport_error (http_failure http) s) as [code s'] eqn:Ea. cbn [fst snd]. apply io_post_ret.
    exists false, http, s, n, [Performed request]. cbn [io_st io_net io_trace]. split_and!; [|done|done|].
    + apply rtc_once, step_failed. exact Ep.
    + unfold finish, bind. by rewrite Ea.
Qed.
End Refinement.

(** ** The invariant of a client *)

Section Invariant.
Context {malloc : Malloc} {net : Type} {platform : Platform net}.

(** A credential that can be a header value: complete for its kind, of bytes
    other than NUL, CR and LF. *)
Definition auth_wf (client : TamgaClient net) : Prop :=
  auth_complete client /\
  Forall (fun c => is_byte c /\ header_char c) (default [] (auth_primary client)) /\
  Forall (fun c => is_byte c /\ header_char c) (default [] (auth_secondary client)).

Record client_wf (client : TamgaClient net) : Prop := {
  wf_origin : origin client = origin_text (host client);
  wf_base_url : base_url client = base_text (origin client) (account_id client);
  wf_timeout : 0 < timeout_ms client;
  wf_retries : 0 <= max_retries client <= 16;
  wf_auth : auth_configured client = true -> auth_wf client;
}.

(** One call of a configuration function. *)
Inductive client_op :=
| SetAuth (kind : TamgaAuthKind) (primary secondary : option bytes)
| SetApiVersion (version : option bytes)
| SetTimeout (timeout : Z)
| SetMaxRetries (retries : Z)
| SetTransport (perform : option (TamgaHttpFn (net := net))) (destroy : option (st * net -> st * net)).

Definition run_op (op : client_op) (client : TamgaClient net) : IO net (TamgaErrorCode * option (TamgaClient net)) :=
  match op with
  | SetAuth kind primary secondary => lift (tamga_client_set_auth (Some client) kind primary secondary)
  | SetApiVersion version => lift (tamga_client_set_api_version (Some client) version)
  | SetTimeout timeout => lift (tamga_client_set_timeout_ms (Some client) timeout)
  | SetMaxRetries retries => lift (tamga_client_set_max_retries (Some client) retries)
  | SetTransport perform destroy => tamga_client_set_transport (Some client) perform destroy
  end.

(** The arguments are values of their C types. *)
Definition op_ok (op : client_op) : Prop :=
  match op with
  | SetAuth _ primary secondary => bytes_ok (default [] primary) /\ bytes_ok (default [] secondary)
  | SetTimeout n | SetMaxRetries n => 0 <= n < 2 ^ 32
  | _ => True
  end.

(** The clients an application can hold. *)
Inductive made : TamgaClient net -> Prop :=
| made_new account host w c w' : tamga_client_new account host w = (inr c, w') -> made c
| made_op c op w code c' w' : made c -> op_ok op -> run_op op c w = ((code, Some c'), w') -> made c'.

Lemma header_value_safe v :
  bytes_ok v -> tamga_header_value_is_safe (Some v) = true -> Forall (fun c => is_byte c /\ header_char c) (c_view v).
Proof.
  intros Hok%c_view_bytes H. cbn in H. apply Forall_forall. intros c Hc. pose proof (proj1 (Forall_forall _ _) Hok c Hc) as Hb.
  split; [done|]. apply list_elem_of_In in Hc. pose proof (proj1 (forallb_forall _ _) H c Hc) as Hs. rewrite negb_true_iff, orb_false_iff in Hs.
  unfold header_char. split; [|lia]. intros ->. by apply c_view_no_nul in Hc.
Qed.

(** Whatever happens, the caller is left with a client, and it is well formed. *)
Definition keeps (P : TamgaClient net -> Prop) (r : TamgaErrorCode * option (TamgaClient net)) : Prop := exists c, r.2 = Some c /\ P c.

Lemma keeps_fail P c code text : P c -> post (let! status := tamga_error_set code text in ret (status, Some c)) (keeps P).
Proof. intros Hc. eapply (post_bind _ _ (fun _ => True)); [by intros s|]. intros status _. apply post_ret. by exists c. Qed.

Lemma set_auth_keeps c kind primary secondary :
  client_wf c -> op_ok (SetAuth kind primary secondary) -> post (tamga_client_set_auth (Some c) kind primary secondary) (keeps client_wf).
Proof.
  intros Hc [Hp Hs]. unfold tamga_client_set_auth. eapply (post_bind _ _ (fun _ => True)); [by intros s|]. intros _ _.
  destruct primary as [p|]; [|by apply keeps_fail].
  destruct (auth_kind_refused kind secondary) as [m|] eqn:Er.
  { unfold auth_kind_refused in Er. repeat case_match; simplify_eq; by apply keeps_fail. }
  destruct (_ || _) eqn:Esafe; [by apply keeps_fail|]. apply orb_false_iff in Esafe as [E1%negb_false_iff E2].
  pose proof (header_value_safe p Hp E1) as Hsafe. eapply post_bind; [apply strndup_post|]. intros [p'|] Hp'; [|by apply keeps_fail].
  destruct Hp' as [-> _]. assert (forall q, Forall (fun x => is_byte x /\ header_char x) (default [] q) ->
    (is_Some secondary -> is_Some q) -> client_wf (with_auth c kind (Some (c_view p)) q)) as Hwf.
  { intros q Hq Hqs. destruct Hc. split; try done. intros _. split_and!; [|done|done]. split; [by eexists|]. cbn [auth_kind auth_secondary with_auth].
    destruct kind; try done. destruct secondary as [q0|]; [|done]. by apply Hqs. }
  destruct secondary as [q|].
  - cbn [bool_decide] in E2. rewrite bool_decide_true in E2 by (by eexists). apply negb_false_iff in E2.
    pose proof (header_value_safe q Hs E2) as Hsafe2. eapply post_bind; [apply strndup_post|]. intros [q'|] Hq'; [|by apply keeps_fail].
    destruct Hq' as [-> _]. apply post_ret. eexists. split; [done|]. apply Hwf; [done|]. by eexists.
  - apply post_ret. eexists. split; [done|]. apply Hwf; [done|]. by intros [].
Qed.

Lemma op_keeps op c w : client_wf c -> op_ok op -> io_post (run_op op c) w (fun r _ => keeps client_wf r).
Proof.
  intros Hc Hop. destruct op as [kind p q|v|n|n|perform destroy]; cbn [run_op].
  - eapply io_post_lift; [by apply set_auth_keeps|done].
  - eapply io_post_lift; [|by intros a s _ Ha; exact Ha]. unfold tamga_client_set_api_version.
    eapply (post_bind _ _ (fun _ => True)); [by intros s|]. intros _ _. destruct v as [v|]; [|by apply keeps_fail].
    eapply post_bind; [apply strndup_post|]. intros [v'|] _; [|by apply keeps_fail]. apply post_ret. eexists. split; [done|]. by destruct Hc.
  - eapply io_post_lift; [|by intros a s _ Ha; exact Ha]. unfold tamga_client_set_timeout_ms. cbn [op_ok] in Hop.
    eapply (post_bind _ _ (fun _ => True)); [by intros s|]. intros _ _. destruct (Z.eqb_spec n 0); [by apply keeps_fail|].
    apply post_ret. eexists. split; [done|]. destruct Hc. split; try done. cbn [timeout_ms with_limits]. lia.
  - eapply io_post_lift; [|by intros a s _ Ha; exact Ha]. unfold tamga_client_set_max_retries. cbn [op_ok] in Hop.
    eapply (post_bind _ _ (fun _ => True)); [by intros s|]. intros _ _. destruct (Z.gtb_spec n 16); [by apply keeps_fail|].
    apply post_ret. eexists. split; [done|]. destruct Hc. split; try done. cbn [max_retries with_limits]. lia.
  - unfold tamga_client_set_transport. assert (forall w' code text, io_post (do! status := lift (net := net) (tamga_error_set code text) in io_ret (status, Some c)) w'
      (fun r _ => keeps client_wf r)) as Hfail.
    { intros w' code text. apply io_post_bind. eapply (io_post_lift _ _ (fun _ => True)); [by intros s|]. intros. apply io_post_ret. by exists c. }
    apply io_post_bind. eapply (io_post_lift _ _ (fun _ => True)); [by intros s|]. intros _ s1 _ _. destruct perform as [perform|]; [|apply Hfail].
    apply io_post_bind. eapply (io_post_lift _ _ (fun _ => True)); [by intros s|]. intros [|] s2 _ _; cbn [negb]; [|apply Hfail].
    apply io_post_bind. eapply (io_post_lift _ _ (fun _ => True)); [by intros s|]. intros [|] s3 _ _; cbn [negb]; [|apply Hfail].
    apply io_post_bind. unfold io_post at 1. destruct (tamga_http_transport_destroy _ _) as [[] w']. cbn [fst snd]. apply io_post_ret.
    eexists. split; [done|]. by destruct Hc.
Qed.

Lemma c_view_idem l : c_view (c_view l) = c_view l.
Proof. apply c_view_id, c_view_no_nul. Qed.

Lemma new_wf account hst w :
  io_post (tamga_client_new account hst) w (fun r _ => match r with inl code => code <> TAMGA_OK | inr c => client_wf c end).
Proof.
  unfold tamga_client_new.
  assert (forall w' code text, code <> TAMGA_OK -> io_post (do! status := lift (net := net) (tamga_error_set code text) in io_ret (inl status)) w'
      (fun r _ => match r with inl code => code <> TAMGA_OK | inr c => client_wf c end)) as Hfail.
  { intros w' code text Hne. apply io_post_bind. eapply (io_post_lift _ _ (fun c => c = code)); [intros s; apply error_set_code|].
    intros a s _ ->. by apply io_post_ret. }
  apply io_post_bind. eapply (io_post_lift _ _ (fun _ => True)); [by intros s|]. intros _ s1 _ _.
  destruct account as [account|]; [|by apply Hfail]. destruct hst as [hst|]; [|by apply Hfail].
  destruct (_ || _); [by apply Hfail|].
  apply io_post_bind. eapply (io_post_lift _ _ (fun _ => True)); [by intros s|]. intros [|] s2 _ _; cbn [negb]; [|by apply Hfail].
  apply io_post_bind. eapply io_post_lift; [apply strndup_post|]. intros a s3 _ Ha.
  apply io_post_bind. eapply io_post_lift; [apply strndup_post|]. intros h s4 _ Hh.
  apply io_post_bind. eapply io_post_lift; [apply strndup_post|]. intros v s5 _ Hv.
  apply io_post_bind. eapply io_post_lift; [apply compose_origin_post|]. intros o s6 _ Ho.
  apply io_post_bind. eapply (io_post_lift _ _ (fun r => forall b, r = Some b -> exists o', o = Some o' /\ b = base_text o' account)).
  { destruct o as [o|]; [|by apply post_ret]. eapply post_mono; [apply compose_base_post|].
    intros r [->|[-> _]] b; [|done]. intros [= <-]. by exists o. }
  intros b s7 _ Hb. destruct a as [a|], h as [h|], v as [v|], o as [o|], b as [b|]; try by apply Hfail.
  destruct Ha as [-> _], Hh as [-> _], Hv as [-> _]. destruct (Hb b eq_refl) as (o' & [= <-] & ->). destruct Ho as [->%(inj Some)|[? _]]; [|done].
  apply io_post_bind. unfold io_post at 1, io_create_default. destruct (tamga_http_transport_create_default _) as [t [s8 n8]]. cbn [fst snd]. apply io_post_ret.
  split; cbn [origin host base_url account_id timeout_ms max_retries auth_configured].
  - unfold origin_text. by rewrite c_view_idem.
  - unfold base_text. by rewrite c_view_idem.
  - done.
  - done.
  - done.
Qed.

Lemma made_wf c : made c -> client_wf c.
Proof.
  intros Hm. induction Hm as [account hst w c w' Hn|c op w code c' w' _ IH Hop Hr].
  - pose proof (new_wf account hst w) as H. unfold io_post in H. by rewrite Hn in H.
  - pose proof (op_keeps op c w IH Hop) as H. unfold io_post in H. rewrite Hr in H. by destruct H as (? & [= <-] & ?).
Qed.
End Invariant.

(** ** Sending *)

Section Sending.
Context {malloc : Malloc} {net : Type} {platform : Platform net}.

(** The request of a call: the same one is handed to the transport on every
    attempt. *)
Definition request_of (client : TamgaClient net) (scope : TamgaPathScope) (method path : bytes) (query body otp : option bytes)
    (json_api_body : bool) : TamgaHttpRequest :=
  mk_request method (request_url client scope path query)
    (request_headers (auth_header client) (sanitized (api_version client)) body otp json_api_body)
    body (match body with Some b => zlen (c_view b) | None => 0 end) (timeout_ms client).

(** What is refused before anything is built. *)
Definition send_refused (client : TamgaClient net) (otp : option bytes) : option TamgaErrorCode :=
  match transport client with
  | None => Some TAMGA_ERR_NO_TRANSPORT
  | Some _ =>
      if negb (auth_configured client) then Some TAMGA_ERR_NULL_ARGUMENT
      else match otp with
           | Some _ => if tamga_header_value_is_safe otp then None else Some TAMGA_ERR_NULL_ARGUMENT
           | None => None
           end
  end.

(** The texts of the call fit the address space with room to spare. *)
Definition send_small (client : TamgaClient net) (scope : TamgaPathScope) (path : bytes) (query : option bytes) : Prop :=
  zlen (request_url client scope path query) <= 2 ^ 60 /\ zlen (default [] (auth_text client)) <= 2 ^ 60.

(** Nothing was sent. *)
Definition silent (code : TamgaErrorCode) (w : io net) (r : TamgaErrorCode * option TamgaResponse) (w' : io net) : Prop :=
  r = (code, None) /\ io_trace w' = io_trace w /\ io_net w' = io_net w.

Lemma silent_fail w w0 code text :
  io_net w = io_net w0 -> io_trace w = io_trace w0 ->
  io_post (do! status := lift (net := net) (tamga_error_set code text) in io_ret (status, @None TamgaResponse)) w (silent code w0).
Proof.
  intros Hn Ht. apply io_post_bind. eapply (io_post_lift _ _ (fun c => c = code)); [intros s; apply error_set_code|].
  intros a s _ ->. by apply io_post_ret.
Qed.

Lemma credential_bytes (client : TamgaClient net) : auth_wf client -> bytes_ok (default [] (auth_primary client)).
Proof. intros (_ & H & _). eapply Forall_impl; [exact H|]. by intros c [? _]. Qed.

(** What a call comes to. *)
Definition sent (client : TamgaClient net) (scope : TamgaPathScope) (method path : bytes) (query body otp : option bytes) (json_api_body : bool)
    (w : io net) (r : TamgaErrorCode * option TamgaResponse) (w' : io net) : Prop :=
  match send_refused client otp, transport client with
  | Some code, _ => silent code w r w'
  | None, Some t =>
      (silent TAMGA_ERR_OUT_OF_MEMORY w r w' /\ ~ (plenty /\ send_small client scope path query)) \/
      exists s, ran t (request_of client scope method path query body otp json_api_body)
        (tamga_request_is_retryable (Some method) (Some path)) (max_retries client) 0 (mk_io s (io_net w) (io_trace w)) r w'
  | None, None => False
  end.

Lemma send_sent client scope method path query body otp json_api_body w :
  client_wf client ->
  io_post (tamga_client_send_scoped (Some client) scope method path query body otp json_api_body) w
    (sent client scope method path query body otp json_api_body w).
Proof.
  intros Hc. unfold tamga_client_send_scoped, sent, send_refused.
  destruct (transport client) as [t|] eqn:Et; [|by apply silent_fail].
  destruct (auth_configured client) eqn:Ea; cbn [negb]; [|by apply silent_fail].
  pose proof (wf_auth _ Hc Ea) as Hauth. pose proof (credential_bytes _ Hauth) as Hbytes. destruct Hauth as (Hcomplete & _).
  destruct (bool_decide (is_Some otp) && negb (tamga_header_value_is_safe otp)) eqn:Eo.
  { apply andb_true_iff in Eo as [E1%bool_decide_eq_true E2%negb_true_iff]. destruct E1 as [o ->]. rewrite E2. by apply silent_fail. }
  assert (match otp with Some _ => if tamga_header_value_is_safe otp then None else Some TAMGA_ERR_NULL_ARGUMENT | None => None end = None) as ->.
  { destruct otp as [o|]; [|done]. rewrite bool_decide_true in Eo by (by eexists). cbn [andb] in Eo. apply negb_false_iff in Eo. by rewrite Eo. }
  apply io_post_bind. eapply io_post_lift; [by apply auth_header_post|]. intros auth s1 _ Hauth.
  destruct Hauth as [->|[-> Hno]].
  2:{ eapply io_post_mono; [by apply silent_fail|]. intros r w' Hs. left. split; [exact Hs|]. unfold send_small. tauto. }
  apply io_post_bind. eapply io_post_lift; [by apply build_url_post; [apply Hcomplete|]|]. intros url s2 _ Hurl. cbn [io_st io_net io_trace].
  apply io_post_bind. eapply io_post_lift; [apply sanitize_post|]. intros version s3 _ Hversion. cbn [io_st io_net io_trace].
  destruct Hurl as [->|[-> Hno]].
  2:{ eapply io_post_mono; [by apply silent_fail|]. intros r w' Hs. left. split; [exact Hs|]. unfold send_small. tauto. }
  destruct Hversion as [->|[-> Hno]].
  2:{ eapply io_post_mono; [by apply silent_fail|]. intros r w' Hs. left. split; [exact Hs|]. intros [Hp _]. apply Hno. split; [done|].
      unfold sanitized. rewrite length_take. lia. }
  pose proof (wf_retries _ Hc). eapply io_post_mono; [apply send_loop_ran; lia|]. intros r w' Hr. right. exists s3. exact Hr.
Qed.
End Sending.

(** ** The error model *)

Section Answers.
Context {malloc : Malloc}.

(** The errors a server reports by name: each goes under its own name in
    [TamgaErrorCode], and the presign lifetime under that of a lifetime. *)
Definition server_reported : list TamgaErrorCode :=
  [TAMGA_ERR_CHECK_IN_NOT_REQUIRED; TAMGA_ERR_LICENSE_NOT_ENCRYPTED; TAMGA_ERR_LICENSE_KEY_MISSING; TAMGA_ERR_TTL_INVALID;
   TAMGA_ERR_SCHEME_NOT_SUPPORTED; TAMGA_ERR_FINGERPRINT_TAKEN; TAMGA_ERR_DATASET_INVALID; TAMGA_ERR_PID_TAKEN;
   TAMGA_ERR_MACHINE_LIMIT_EXCEEDED; TAMGA_ERR_CORE_LIMIT_EXCEEDED; TAMGA_ERR_MEMORY_LIMIT_EXCEEDED;
   TAMGA_ERR_DISK_LIMIT_EXCEEDED; TAMGA_ERR_TOO_MANY_PROCESSES; TAMGA_ERR_METER_LIMIT_EXCEEDED; TAMGA_ERR_LICENSE_SUSPENDED;
   TAMGA_ERR_LICENSE_EXPIRED; TAMGA_ERR_LICENSE_NOT_ALLOWED; TAMGA_ERR_SIGNING_KEY_MISSING; TAMGA_ERR_SECRET_KEY_MISSING].

Inductive server_error : bytes -> TamgaErrorCode -> Prop :=
| named_error name e : e ∈ server_reported -> tamga_error_name e = bstr "TAMGA_ERR_" ++ name -> server_error name e
| presign_error : server_error (bstr "PRESIGN_TTL_INVALID") TAMGA_ERR_TTL_INVALID.

(** What a status alone stands for. *)
Inductive status_means : Z -> TamgaErrorCode -> Prop :=
| means_unauthorized : status_means 401 TAMGA_ERR_UNAUTHORIZED
| means_forbidden : status_means 403 TAMGA_ERR_FORBIDDEN
| means_not_found : status_means 404 TAMGA_ERR_NOT_FOUND
| means_server status : status ∈ [500; 502; 503; 504] -> status_means status TAMGA_ERR_SERVER
| means_other status : status ∉ [401; 403; 404; 500; 502; 503; 504] -> status_means status TAMGA_ERR_API.

(** The document is [{"errors": [{"code": c, ...}, ...], ...}]; [c] as a C
    string. *)
Definition reports (tree : option json) (c : bytes) : Prop :=
  exists ms fields rest text, tree = Some (JObject ms) /\ (bstr "errors", JArray (JObject fields :: rest)) ∈ ms /\
    (bstr "code", JString text) ∈ fields /\ c = c_view text.

(** The code an answer comes to: a success, a rate limit before everything else,
    the error the document names, or what the status stands for. *)
Definition success (status : Z) : Prop := 200 <= status < 300.

Inductive error_of (status : Z) (tree : option json) : TamgaErrorCode -> Prop :=
| is_success : success status -> error_of status tree TAMGA_OK
| is_limited : status = 429 -> error_of status tree TAMGA_ERR_RATE_LIMITED
| is_named c e : ~ success status -> status <> 429 -> reports tree c -> server_error c e -> error_of status tree e
| is_status e : ~ success status -> status <> 429 -> (forall c e', reports tree c -> ~ server_error c e') ->
    status_means status e -> error_of status tree e.

(** ** The tables of the code meet it *)

Lemma server_error_iff name e : server_error name e <-> api_error_of API_ERRORS name = Some e.
Proof.
  split.
  - intros [n e' Hin Hn|]; [|vm_compute; reflexivity]. apply (f_equal (drop 10)) in Hn. change (drop 10 (bstr "TAMGA_ERR_" ++ n)) with (drop 0 n) in Hn.
    rewrite drop_0 in Hn. subst n. unfold server_reported in Hin.
    repeat (apply elem_of_cons in Hin as [->|Hin]; [vm_compute; reflexivity|]). by apply elem_of_nil in Hin.
  - unfold API_ERRORS. cbn [api_error_of]. intros H.
    repeat match type of H with
    | (if beq ?a ?b then _ else _) = _ => destruct (beq a b) eqn:E; [apply beq_eq in E; subst a; injection H as <-;
        first [apply presign_error | apply named_error; [unfold server_reported; set_solver|vm_compute; reflexivity]]|clear E]
    end. done.
Qed.

Lemma status_means_iff status e : status_means status e <-> e = status_error status.
Proof.
  unfold status_error. split.
  - intros [| | |st Hin|st Hno]; try done.
    + repeat (apply elem_of_cons in Hin as [->|Hin]; [done|]). by apply elem_of_nil in Hin.
    + rewrite !not_elem_of_cons in Hno. destruct Hno as (? & ? & ? & ? & ? & ? & ? & _).
      rewrite (proj2 (Z.eqb_neq st 401)), (proj2 (Z.eqb_neq st 403)), (proj2 (Z.eqb_neq st 404)) by done.
      by rewrite (proj2 (Z.eqb_neq st 500)), (proj2 (Z.eqb_neq st 502)), (proj2 (Z.eqb_neq st 503)), (proj2 (Z.eqb_neq st 504)) by done.
  - intros ->. destruct (Z.eqb_spec status 401) as [->|]; [constructor|]. destruct (Z.eqb_spec status 403) as [->|]; [constructor|].
    destruct (Z.eqb_spec status 404) as [->|]; [constructor|].
    destruct (Z.eqb_spec status 500) as [->|]; [constructor; set_solver|]. destruct (Z.eqb_spec status 502) as [->|]; [constructor; set_solver|].
    destruct (Z.eqb_spec status 503) as [->|]; [constructor; set_solver|]. destruct (Z.eqb_spec status 504) as [->|]; [constructor; set_solver|].
    constructor. rewrite !not_elem_of_cons. repeat (split; [done|]). apply not_elem_of_nil.
Qed.

(** How the code reads the document. *)
Definition server_code (tree : option json) : option bytes :=
  tamga_json_as_string (tamga_json_object_get (tamga_json_array_at (tamga_json_object_get tree (Some (bstr "errors"))) 0) (Some (bstr "code"))).

Definition mapped_code (status : Z) (tree : option json) : TamgaErrorCode :=
  if status =? 429 then TAMGA_ERR_RATE_LIMITED
  else match server_code tree with
       | Some c => default (status_error status) (api_error_of API_ERRORS (c_view c))
       | None => status_error status
       end.

Lemma find_member_iff ms k v : NoDup ms.*1 -> find_member ms k = Some v <-> (k, v) ∈ ms.
Proof.
  induction ms as [|[k1 v1] ms IH]; intros Hnd; [cbn; set_solver|]. apply NoDup_cons in Hnd as [Hk Hnd]. cbn [find_member]. rewrite key_match.
  case_bool_decide as E; [subst k1|rewrite (IH Hnd)]; rewrite elem_of_cons.
  - split; [intros [= ->]; by left|]. intros [[= ->]|Hin]; [done|]. destruct Hk. by apply (list_elem_of_fmap_2 fst) in Hin.
  - split; [by right|]. intros [[= -> _]|?]; done.
Qed.

Lemma reports_iff tree c :
  (forall j, tree = Some j -> json_wf j) -> reports tree c <-> c_view <$> server_code tree = Some c.
Proof.
  intros Hwf. unfold reports, server_code. split.
  - intros (ms & fields & rest & text & -> & Herr & Hcode & ->). specialize (Hwf _ eq_refl). inversion_clear Hwf as [| | | | | |? Hnd _ Hvs].
    cbn [tamga_json_object_get]. change (c_view (bstr "errors")) with (bstr "errors"). rewrite (proj2 (find_member_iff ms _ _ Hnd) Herr).
    apply (list_elem_of_fmap_2 snd) in Herr. apply (proj1 (Forall_forall _ _) Hvs) in Herr. cbn [snd] in Herr.
    inversion_clear Herr as [| | | | |? Hitems|]. apply Forall_cons in Hitems as [Hf _]. inversion_clear Hf as [| | | | | |? Hnd' _ _].
    cbn [tamga_json_array_at]. replace (0 >=? zlen (JObject fields :: rest)) with false by (cbn [length]; lia).
    change ((JObject fields :: rest) !! Z.to_nat 0) with (Some (JObject fields)). cbn [tamga_json_object_get].
    change (c_view (bstr "code")) with (bstr "code"). by rewrite (proj2 (find_member_iff fields _ _ Hnd') Hcode).
  - destruct tree as [j|]; [|done]. specialize (Hwf j eq_refl). destruct j as [| | | | | |ms]; try done.
    cbn [tamga_json_object_get]. change (c_view (bstr "errors")) with (bstr "errors"). inversion_clear Hwf as [| | | | | |? Hnd _ Hvs].
    destruct (find_member ms (bstr "errors")) as [v|] eqn:Ev; [|done]. apply (find_member_iff ms _ _ Hnd) in Ev. destruct v as [| | | | |items|]; try done.
    cbn [tamga_json_array_at]. destruct items as [|first rest]; [done|].
    replace (0 >=? zlen (first :: rest)) with false by (cbn [length]; lia).
    change ((first :: rest) !! Z.to_nat 0) with (Some first). destruct first as [| | | | | |fields]; try done.
    pose proof Ev as Hin. apply (list_elem_of_fmap_2 snd) in Hin. apply (proj1 (Forall_forall _ _) Hvs) in Hin. cbn [snd] in Hin.
    inversion_clear Hin as [| | | | |? Hitems|]. apply Forall_cons in Hitems as [Hf _]. inversion_clear Hf as [| | | | | |? Hnd' _ _].
    cbn [tamga_json_object_get]. change (c_view (bstr "code")) with (bstr "code").
    destruct (find_member fields (bstr "code")) as [v|] eqn:Ec; [|done]. apply (find_member_iff fields _ _ Hnd') in Ec.
    destruct v as [| | | |text| |]; try done. cbn. intros [= <-]. by exists ms, fields, rest, text.
Qed.

Lemma mapped_code_iff status tree e :
  (forall j, tree = Some j -> json_wf j) -> ~ success status -> error_of status tree e <-> e = mapped_code status tree.
Proof.
  intros Hwf Hst. pose proof (fun c => reports_iff tree c Hwf) as Hrep. unfold mapped_code.
  destruct (Z.eqb_spec status 429) as [->|Hne].
  { split; [by intros []|]. intros ->. by apply is_limited. }
  split.
  - intros [?|?|c e' _ _ Hc%Hrep He%server_error_iff|e' _ _ Hno Hm%status_means_iff]; [done|done| |].
    + destruct (server_code tree) as [d|]; [|done]. injection Hc as <-. by rewrite He.
    + subst e'. destruct (server_code tree) as [d|] eqn:Ed; [|done]. destruct (api_error_of API_ERRORS (c_view d)) as [x|] eqn:Ex; [|done].
      apply server_error_iff in Ex. by destruct (Hno (c_view d) x); [apply Hrep|].
  - intros ->. destruct (server_code tree) as [d|] eqn:Ed.
    2:{ apply is_status; [done..| |by apply status_means_iff]. intros c e' Hc%Hrep. done. }
    destruct (api_error_of API_ERRORS (c_view d)) as [x|] eqn:Ex; cbn [default from_option id].
    + apply (is_named _ _ (c_view d)); [done|done|by apply Hrep|by apply server_error_iff].
    + apply is_status; [done..| |by apply status_means_iff]. intros c e' Hc%Hrep He%server_error_iff. injection Hc as <-. congruence.
Qed.

Lemma success_iff status tree e : success status -> error_of status tree e <-> e = TAMGA_OK.
Proof. intros Hs. split; [|intros ->; by apply is_success]. intros []; try done. subst. unfold success in Hs. lia. Qed.

(** The response of an answer: its parts, and the tree of its body if it has
    one. *)
Definition response_of (http : TamgaHttpResponse) (r : TamgaResponse) : Prop :=
  response_status r = http_status http /\ response_body r = http_body http /\ response_headers r = http_headers http /\
  (forall j, response_json r = Some j -> jtext j (default [] (http_body http))) /\
  (plenty -> forall j, jtext j (default [] (http_body http)) -> response_json r = Some j).

Lemma plenty_ample : plenty -> ample.
Proof. intros H. exists SIZE_MAX. split; [exact H|]. by unfold json_memory, SIZE_MAX. Qed.

Lemma empty_not_jtext j : ~ jtext j [].
Proof.
  intros H. pose proof (document_complete (malloc := full_memory) (limit := SIZE_MAX) ltac:(done) [] j H (mk_st 0 None)) as Hp. discriminate Hp.
Qed.

(** With memory a refusal of the parser means there is no tree. *)
Lemma json_complete_plenty body :
  bytes_ok body ->
  post (tamga_json_parse (Some body)) (fun r => match r with
    | inl _ => True
    | inr e => plenty -> e <> TAMGA_JSON_ERROR_OUT_OF_MEMORY /\ forall j, ~ jtext j body
    end).
Proof.
  intros Hok. apply post_intro. intros s [j|e] s' E; [done|]. intros Hp.
  assert (json_memory <= SIZE_MAX <= SIZE_MAX) as Hm by (by unfold json_memory, SIZE_MAX). unfold plenty in Hp. split.
  - intros ->. by apply (post_run _ _ _ _ _ (parse_honest Hm body Hok) E).
  - intros j Hj. by apply (post_run _ _ _ _ _ (document_complete Hm body j Hj)) in E.
Qed.

Lemma from_http_post http :
  bytes_ok (default [] (http_body http)) ->
  post (tamga_response_from_http http) (fun r => match r with
    | None => ~ plenty
    | Some r => response_of http r /\ api_error_code r = None
    end).
Proof.
  intros Hok. unfold tamga_response_from_http. eapply (post_bind _ _ (fun b => plenty -> b = true)).
  { intros s Hp. unfold tamga_calloc. cbn. by apply Hp. }
  intros [|] Hc; cbn [negb]; [|apply post_ret; intros Hp; by specialize (Hc Hp)].
  assert (forall text, http_body http = text -> (forall j, ~ jtext j (default [] text)) ->
    response_of http (mk_response (http_status http) text None (http_headers http) None)) as Hnone.
  { intros text E Hn. unfold response_of. cbn. rewrite E. split_and!; [done..|]. intros _ j Hj. by apply Hn in Hj. }
  destruct (http_body http) as [body|] eqn:Eb; cbn [default from_option id] in *.
  2:{ apply post_ret. split; [|done]. apply Hnone; [done|]. intros j. apply empty_not_jtext. }
  destruct (Z.gtb_spec (zlen body) 0) as [Hlen|Hlen].
  2:{ apply post_ret. split; [|done]. destruct body; [|cbn [length] in Hlen; lia]. apply Hnone; [done|]. intros j. apply empty_not_jtext. }
  eapply post_bind; [apply post_and; [by apply document_sound|apply (json_complete_plenty body Hok)]|].
  intros [tree|e] [Hs Hcomp].
  - apply post_ret. split; [|done]. unfold response_of. cbn. rewrite Eb. cbn. split_and!; [done..| |].
    + by intros j [= <-].
    + intros _ j Hj. f_equal. by apply (jtext_unique body).
  - destruct e; cbn [tamga_json_error_is_out_of_memory]; apply post_ret; [intros Hp; by destruct (Hcomp Hp)|].
    split; [|done]. unfold response_of. cbn. rewrite Eb. cbn. split_and!; [done..|]. intros Hp j Hj. destruct (Hcomp Hp) as [_ Hno]. by destruct (Hno j).
Qed.

(** The strings of a document are no longer than its text. *)
Inductive strings_within (n : Z) : json -> Prop :=
| within_leaf j : (forall s, j <> JString s) -> (forall l, j <> JArray l) -> (forall ms, j <> JObject ms) -> strings_within n j
| within_string s : zlen s <= n -> strings_within n (JString s)
| within_array items : Forall (strings_within n) items -> strings_within n (JArray items)
| within_object ms : Forall (strings_within n) ms.*2 -> strings_within n (JObject ms).

Lemma build_members_values (P : json -> Prop) ms : Forall P ms.*2 -> Forall P (build_members ms).*2.
Proof.
  induction ms as [|[k v] ms IH] using rev_ind; intros H; [constructor|]. rewrite fmap_app in H. apply Forall_app in H as [H1 H2].
  apply Forall_cons in H2 as [Hv _]. cbn [snd] in Hv. rewrite build_members_app. specialize (IH H1). unfold obj_set.
  destruct (replace_member (build_members ms) k v) as [ms'|] eqn:E; cbn [default from_option id].
  - apply replace_member_Some in E as (_ & _ & Hall). eapply Forall_impl; [exact Hall|]. intros x [->|Hx]; [done|].
    by apply (proj1 (Forall_forall _ _) IH).
  - rewrite fmap_app. apply Forall_app. split; [done|]. by constructor.
Qed.

Lemma grammar_strings N :
  (forall n j t, jval n j t -> zlen t <= N -> strings_within N j) /\
  (forall n items t, jitems n items t -> zlen t <= N -> Forall (strings_within N) items) /\
  (forall n ms t, jmembers n ms t -> zlen t <= N -> Forall (strings_within N) ms.*2).
Proof.
  apply jval_mutind; intros; try (by apply within_leaf).
  - apply within_leaf; unfold num_json; intros ?; by destruct (_ && _).
  - apply within_string. pose proof (jstr_bytes d t ltac:(done)). len_norm. lia.
  - apply within_array. constructor.
  - apply within_array. len_norm. match goal with H : _ -> _ |- _ => apply H end. lia.
  - apply within_object. constructor.
  - apply within_object, build_members_values. len_norm. match goal with H : _ -> _ |- _ => apply H end. lia.
  - len_norm. constructor; [|constructor]. match goal with H : _ -> _ |- _ => apply H end. lia.
  - len_norm. constructor; match goal with H : _ -> _ |- _ => apply H end; lia.
  - len_norm. constructor; [|constructor]. cbn [snd]. match goal with H : _ -> _ |- _ => apply H end. lia.
  - len_norm. rewrite fmap_cons. constructor; [cbn [snd]; match goal with H : _ -> strings_within _ _ |- _ => apply H end; lia|].
    match goal with H : _ -> Forall _ _ |- _ => apply H end. lia.
Qed.

Lemma reports_short j text c : jtext j text -> reports (Some j) c -> zlen c <= TAMGA_MAX_REASONABLE_LEN.
Proof.
  intros (Hlen & w1 & t & w2 & -> & _ & _ & Hj) (ms & fields & rest & s & [= ->] & Herr & Hcode & ->). rewrite !length_app in Hlen.
  pose proof (proj1 (grammar_strings TAMGA_MAX_REASONABLE_LEN) _ _ _ Hj ltac:(lia)) as H.
  inversion H as [? _ _ Hno| | |? Hms]; [by destruct (Hno ms)|subst].
  apply (list_elem_of_fmap_2 snd) in Herr. apply (proj1 (Forall_forall _ _) Hms) in Herr. cbn [snd] in Herr.
  inversion Herr as [? _ Hno _| |? Hitems|]; [by destruct (Hno (JObject fields :: rest))|subst]. apply Forall_cons in Hitems as [Hf _].
  inversion Hf as [? _ _ Hno| | |? Hfs]; [by destruct (Hno fields)|subst].
  apply (list_elem_of_fmap_2 snd) in Hcode. apply (proj1 (Forall_forall _ _) Hfs) in Hcode. cbn [snd] in Hcode.
  inversion Hcode as [? Hno _ _|? Hs| |]; [by destruct (Hno s)|subst]. pose proof (c_view_length s). lia.
Qed.

(** An answer from the server is out of memory, or a response with the code its
    status and document come to, and with the code the document reports when it
    is an error. *)
Definition answered (http : TamgaHttpResponse) (r : TamgaErrorCode * option TamgaResponse) : Prop :=
  (r = (TAMGA_ERR_OUT_OF_MEMORY, None) /\ ~ plenty) \/
  exists response, r.2 = Some response /\ response_of http response /\
    (forall e, error_of (http_status http) (response_json response) e <-> e = r.1) /\
    (forall c, api_error_code response = Some c -> ~ success (http_status http) /\ reports (response_json response) c) /\
    (plenty -> ~ success (http_status http) -> forall c, reports (response_json response) c -> api_error_code response = Some c).

Lemma status_error_not_ok status : status_error status <> TAMGA_OK.
Proof. unfold status_error. by repeat case_match. Qed.

Lemma server_error_not_ok name e : server_error name e -> e <> TAMGA_OK.
Proof.
  intros [n e' Hin _|]; [|done]. unfold server_reported in Hin.
  repeat (apply elem_of_cons in Hin as [->|Hin]; [done|]). by apply elem_of_nil in Hin.
Qed.

Lemma error_of_ok status tree e : error_of status tree e -> e = TAMGA_OK <-> success status.
Proof.
  intros [Hs| ->|c e' Hs _ _ He%server_error_not_ok|e' Hs _ _ ->%status_means_iff].
  - tauto.
  - split; [done|]. unfold success. lia.
  - tauto.
  - pose proof (status_error_not_ok status). tauto.
Qed.

Lemma answer_accepted http r : plenty -> answered http r -> r.1 = TAMGA_OK <-> success (http_status http).
Proof.
  intros Hp [[_ Hn]|(response & _ & _ & He & _)]; [done|]. apply (error_of_ok _ (response_json response)). by apply He.
Qed.

(** With memory, copying a code of the document succeeds. *)
Lemma code_copy c :
  post (tamga_strdup (Some c)) (fun r =>
    (forall t, r = Some t -> t = c_view c) /\ (plenty -> zlen (c_view c) <= TAMGA_MAX_REASONABLE_LEN -> r = Some (c_view c))).
Proof.
  eapply post_mono; [apply strndup_post|]. intros [t|] H; split; try done.
  - intros t' [= <-]. apply H.
  - intros _ _. f_equal. apply H.
  - intros Hp Hl. destruct H. split_and!; [apply enough_plenty; [done|unfold TAMGA_MAX_REASONABLE_LEN in *; lia]|apply c_view_no_nul|done].
Qed.

Lemma map_api_error_post response body :
  ~ success (response_status response) -> api_error_code response = None ->
  (forall j, response_json response = Some j -> jtext j body) ->
  post (tamga_map_api_error response) (fun '(code, r) =>
    (forall e, error_of (response_status response) (response_json response) e <-> e = code) /\
    response_status r = response_status response /\ response_body r = response_body response /\
    response_json r = response_json response /\ response_headers r = response_headers response /\
    (forall c, api_error_code r = Some c -> reports (response_json response) c) /\
    (plenty -> forall c, reports (response_json response) c -> api_error_code r = Some c)).
Proof.
  intros Hst Hnone Hj. set (tree := response_json response) in *.
  assert (forall j, tree = Some j -> json_wf j) as Hwf by (intros j H%Hj; by eapply jtext_wf).
  pose proof (fun c => reports_iff tree c Hwf) as Hrep. unfold tamga_map_api_error. fold tree.
  assert (match tree with
    | Some tree => tamga_json_as_string (tamga_json_object_get (tamga_json_array_at (tamga_json_object_get (Some tree) (Some (bstr "errors"))) 0) (Some (bstr "code")))
    | None => None
    end = server_code tree) as -> by (by destruct tree).
  eapply (post_bind _ _ (fun r => response_status r = response_status response /\ response_body r = response_body response /\
    response_json r = response_json response /\ response_headers r = response_headers response /\
    (forall c, api_error_code r = Some c -> reports tree c) /\ (plenty -> forall c, reports tree c -> api_error_code r = Some c))).
  { destruct (server_code tree) as [c|] eqn:Ec.
    2:{ apply post_ret. split_and!; [done..| |]; [rewrite Hnone; done|]. intros _ c Hc%Hrep. done. }
    eapply post_bind; [apply code_copy|]. intros copy [H1 H2]. apply post_ret. cbn [response_status response_body response_json response_headers api_error_code].
    assert (reports tree (c_view c)) as Hc by (by apply Hrep). split_and!; [done..| |].
    - intros c' ->. by rewrite (H1 c').
    - intros Hp c' Hc'. apply Hrep in Hc' as [= <-]. apply H2; [done|]. destruct tree as [j|] eqn:Et; [|by destruct Hc as (? & ? & ? & ? & ? & _)].
      by eapply (reports_short j body); [apply Hj|]. }
  intros r (E1 & E2 & E3 & E4 & E5 & E6). apply post_ret. split_and!; try done. intros e. rewrite mapped_code_iff by done. by rewrite E1.
Qed.

Lemma answer_post http : bytes_ok (default [] (http_body http)) -> post (answer http) (answered http).
Proof.
  intros Hok. unfold answer. eapply post_bind; [by apply from_http_post|]. intros [r|] Hr.
  2:{ eapply (post_bind _ _ (fun c => c = TAMGA_ERR_OUT_OF_MEMORY)); [intros s; apply error_set_code|]. intros ? ->. apply post_ret. by left. }
  destruct Hr as [Hr Hcode]. pose proof Hr as (E1 & E2 & E3 & Hs & Hc). destruct (_ && _) eqn:E.
  - assert (success (http_status http)) as Hsucc by (unfold success; lia). apply post_ret. right. exists r. cbn [fst snd].
    split_and!; [done|done|intros e; by apply success_iff|by rewrite Hcode|done].
  - assert (~ success (response_status r)) as Hst by (unfold success; lia).
    eapply post_bind; [by apply (map_api_error_post r (default [] (http_body http)))|]. intros [code r'] (He & F1 & F2 & F3 & F4 & F5 & F6).
    eapply (post_bind _ _ (fun _ => True)); [by intros s|]. intros _ _. apply post_ret. right. exists r'. rewrite F3. unfold response_of. rewrite F1, F2, F3, F4.
    cbn [fst snd]. rewrite <- E1. split_and!; try done; [intros c Hcc; split; [done|by apply F5]|]. intros Hp _. by apply F6.
Qed.
End Answers.

(** ** Requests that are safe to repeat *)

(** A read, or one of the seven actions that only rewrite state. *)
Definition repeatable (method path : bytes) : Prop :=
  c_view method = bstr "GET" \/
  (c_view method = bstr "POST" /\ exists before action, c_view path = before ++ bstr "/actions/" ++ bstr action /\
     action ∈ ["validate"; "validate-key"; "check-in"; "check-out"; "ping"; "ping-heartbeat"; "reset-heartbeat"]%string).

Lemma ends_with_iff path suffix : ends_with path suffix = true <-> exists before, path = before ++ suffix.
Proof.
  unfold ends_with. rewrite andb_true_iff, Nat.leb_le, beq_eq. split.
  - intros [Hl E]. exists (take (length path - length suffix) path). rewrite <- E at 2. by rewrite take_drop.
  - intros [before ->]. rewrite length_app. split; [lia|]. by rewrite drop_app_length' by lia.
Qed.

Lemma retryable_iff method path : tamga_request_is_retryable (Some method) (Some path) = true <-> repeatable method path.
Proof.
  unfold tamga_request_is_retryable, repeatable. destruct (beq (c_view method) (bstr "GET")) eqn:Eg.
  { apply beq_eq in Eg. tauto. }
  apply beq_neq in Eg. destruct (beq (c_view method) (bstr "POST")) eqn:Ep; cbn [negb].
  2:{ apply beq_neq in Ep. split; [done|tauto]. }
  apply beq_eq in Ep. rewrite existsb_exists. split.
  - intros (suffix & Hin & Hend). apply ends_with_iff in Hend as [before Hpath]. right. split; [done|]. exists before. rewrite Hpath.
    destruct Hin as [<-|[<-|[<-|[<-|[<-|[<-|[<-|[]]]]]]]]; eexists; (split; [reflexivity|]); set_solver.
  - intros [?|(_ & before & action & Hpath & Hin)]; [done|]. exists (bstr "/actions/" ++ bstr action). split.
    + repeat (apply elem_of_cons in Hin as [->|Hin]; [vm_compute; tauto|]). by apply elem_of_nil in Hin.
    + apply ends_with_iff. by exists before.
Qed.

(** ** Header safety *)

(** At most five headers, and none whose name or value could end its line. *)
Definition request_safe (request : TamgaHttpRequest) : Prop :=
  (length (req_headers request) <= TAMGA_MAX_REQUEST_HEADERS)%nat /\
  Forall (fun h => Forall header_char (c_view (fst h)) /\ Forall header_char (c_view (snd h))) (req_headers request).

Definition header_charb (c : Z) : bool := negb (c =? 0) && negb (c =? 13) && negb (c =? 10).

Lemma literal_header l : forallb header_charb l = true -> Forall header_char l.
Proof.
  intros H. apply Forall_forall. intros c Hc%list_elem_of_In. apply (proj1 (forallb_forall _ _) H) in Hc. unfold header_charb in Hc.
  rewrite !andb_true_iff, !negb_true_iff, !Z.eqb_neq in Hc. unfold header_char. tauto.
Qed.

Lemma c_view_header l : Forall header_char l -> Forall header_char (c_view l).
Proof. intros H. induction H as [|c l Hc Hl IH]; [constructor|]. cbn [c_view]. destruct (c =? 0); [constructor|by constructor]. Qed.

Lemma sanitized_header v : Forall header_char (sanitized v).
Proof.
  unfold sanitized. apply Forall_take, Forall_forall. intros c Hc%list_elem_of_In. apply List.filter_In in Hc as [_ Hc].
  unfold version_char, is_digit, is_lower, is_upper in Hc. unfold header_char. lia.
Qed.

Section Safety.
Context {malloc : Malloc} {net : Type} {platform : Platform net}.

Lemma credential_header (client : TamgaClient net) :
  auth_wf client -> Forall header_char (opt_text (auth_primary client)).
Proof. intros (_ & H & _). apply c_view_header. eapply Forall_impl; [exact H|]. by intros c [_ ?]. Qed.

Lemma auth_text_header (client : TamgaClient net) v : auth_wf client -> auth_text client = Some v -> Forall header_char v.
Proof.
  intros Hw. pose proof (credential_header client Hw) as Hp. unfold auth_text. intros E.
  assert (exists prefix tail, v = prefix ++ tail /\ forallb header_charb prefix = true /\ Forall header_char tail) as (prefix & tail & -> & H1 & H2).
  { destruct (auth_kind client); simplify_eq; do 2 eexists; (split; [reflexivity|]); (split; [reflexivity|]); (exact Hp || apply b64_encode_header). }
  apply Forall_app_2; [by apply literal_header|done].
Qed.

Lemma request_of_safe (client : TamgaClient net) scope method path query body otp json_api_body :
  auth_wf client -> (otp = None \/ tamga_header_value_is_safe otp = true) ->
  request_safe (request_of client scope method path query body otp json_api_body).
Proof.
  intros Hw Hotp. unfold request_safe, request_of, request_headers, auth_header, TAMGA_MAX_REQUEST_HEADERS. cbn [req_headers]. split.
  - destruct (auth_text client), body, otp; cbn; lia.
  - repeat (apply Forall_app; split).
    + destruct (auth_text client) as [v|] eqn:E; [|constructor]. cbn. apply Forall_singleton. cbn [fst snd]. split.
      * by apply literal_header.
      * apply c_view_header. by eapply auth_text_header.
    + constructor; [|constructor; [|constructor]]; cbn [fst snd]; (split; [by apply literal_header|]).
      * apply c_view_header, sanitized_header.
      * by apply literal_header.
    + destruct body; [|constructor]. apply Forall_singleton. cbn [fst snd]. split; [by apply literal_header|]. by destruct json_api_body; apply literal_header.
    + destruct otp as [o|]; [|constructor]. apply Forall_singleton. cbn [fst snd]. split; [by apply literal_header|].
      destruct Hotp as [?|Hs]; [done|]. cbn in Hs. apply Forall_forall. intros c Hc%list_elem_of_In. pose proof (proj1 (forallb_forall _ _) Hs c Hc) as H.
      rewrite negb_true_iff, orb_false_iff in H. unfold header_char. split; [|lia]. intros ->. by apply c_view_no_nul in Hc.
Qed.
End Safety.

(** ** Theorems *)

Section Theorems.
Context {malloc : Malloc} {net : Type} {platform : Platform net}.

(** (C29) Every client that [tamga_client_new] and the configuration functions
    can produce, in any order and whether or not each call succeeds, satisfies
    the client invariant: the URLs derive from the host and the account, the
    timeout is positive, at most 16 retries are made, and a configured
    credential is complete for its kind and free of NUL, CR and LF. *)
Theorem client_invariant (c : TamgaClient net) : made c -> client_wf c.
Proof. apply made_wf. Qed.

(** (C12) Sending refines the retry machine. A call on any client is refused
    before anything is sent (no transport, no credential, an OTP with a line
    break, or for want of memory), or it is a run of the machine on the one
    request built from the client and the arguments, from its initial to a
    finished configuration, and what the caller gets is what the last answer of
    the transport means. *)
Theorem client_send_refines (c : TamgaClient net) scope method path query body otp json_api_body w :
  made c ->
  let '(r, w') := tamga_client_send_scoped (Some c) scope method path query body otp json_api_body w in
  sent c scope method path query body otp json_api_body w r w'.
Proof.
  intros Hc%made_wf. pose proof (send_sent c scope method path query body otp json_api_body w Hc) as H. unfold io_post in H.
  by destruct (tamga_client_send_scoped _ _ _ _ _ _ _ _ _).
Qed.

(** (C11) What a call can put on the wire, whatever the transport answers. Either
    nothing is sent, or the transport is asked again and again with one and the
    same request, which has at most five headers, none with a NUL, CR or LF in
    its name or value. Every answer before the last was a success of the
    transport with status 429, and was followed by the wait it calls for, between
    1 and 60 seconds; there are at most [max_retries] (16 at most) of them, and
    none for a request that is not safe to repeat. The last answer is not
    followed by another attempt: if it is a 429 to a request that is safe to
    repeat, the budget is used up. *)
Theorem client_send_safe (c : TamgaClient net) scope method path query body otp json_api_body w :
  made c ->
  let request := request_of c scope method path query body otp json_api_body in
  let '(_, w') := tamga_client_send_scoped (Some c) scope method path query body otp json_api_body w in
  (io_trace w' = io_trace w /\ io_net w' = io_net w) \/
  exists t s delays limited ok http s', transport c = Some t /\
    conversation t request (s, io_net w) (map (pair true) limited ++ [(ok, http)]) (s', io_net w') /\
    rate_limited limited delays /\
    io_trace w' = io_trace w ++ send_events request delays /\ request_safe request /\
    zlen delays <= max_retries c <= 16 /\ Forall (fun d => 1000 <= d <= 60000) delays /\
    (delays <> [] -> repeatable method path) /\
    (ok = true -> http_status http = 429 -> repeatable method path -> zlen delays = max_retries c).
Proof.
  intros Hc%made_wf. pose proof (send_sent c scope method path query body otp json_api_body w Hc) as H. unfold io_post in H. cbv zeta.
  destruct (tamga_client_send_scoped _ _ _ _ _ _ _ _ _) as [r w']. cbn [fst snd] in H. unfold sent in H. pose proof (wf_retries _ Hc).
  destruct (send_refused c otp) as [code|] eqn:Er; [left; split; apply H|]. destruct (transport c) as [t|] eqn:Et; [|done].
  destruct H as [[H _]|(s & ok & http & s' & n & tr & Hrun & Htr & Hn & _)]; [left; split; apply H|]. right. cbn [io_trace io_net io_st] in *.
  apply reachable_ok in Hrun as (delays & Hd & Hre & Hl & -> & Hlast & limited & Hlim & Hconv); [|lia].
  rewrite retryable_iff in Hre. exists t, s, delays, limited, ok, http, s'. rewrite Hn. split_and!; try done; [|lia|].
  - unfold send_refused in Er. rewrite Et in Er. destruct (auth_configured c) eqn:Ea; [|done]. cbn [negb] in Er. apply request_of_safe; [by apply wf_auth|].
    destruct otp as [o|]; [|by left]. right. by destruct (tamga_header_value_is_safe (Some o)).
  - intros Hok Hst Hrep%retryable_iff. specialize (Hlast Hok). unfold try_again in Hlast.
    destruct (Z.lt_ge_cases (zlen delays) (max_retries c)); [|lia]. by destruct Hlast.
Qed.

(** The retry machine always stops: every run is finite, whatever the
    transport answers, and a configuration from which there is no step is a
    finished one. *)
Theorem retry_terminates (t : TamgaHttpTransport net) request retryable retries (c : config) :
  sn (step t request retryable retries) c /\
  forall c', rtc (step t request retryable retries) c c' -> (forall c'', ~ step t request retryable retries c' c'') ->
    exists ok http, c'.1.1 = Finished ok http.
Proof.
  split; [apply step_sn|]. intros c' _ Hstuck. destruct (c'.1.1) as [a|a ms|ok http] eqn:E; [..|by exists ok, http];
    (destruct (step_progress t request retryable retries c') as [c'' Hs]; [intros ? ?; congruence|by destruct (Hstuck c'')]).
Qed.
End Theorems.

(** (C30) The error model. An answer from the transport comes back with the
    status, the body, the headers and, with memory, exactly the tree its body
    denotes. The code returned is exactly the one the status and the document
    come to: TAMGA_OK for a status of 200 to 299; TAMGA_ERR_RATE_LIMITED for 429,
    before everything else; otherwise the error the first entry of the document
    names, when it is one of the twenty names of the service, each under the code
    of that name; otherwise what the status stands for, with 401, 403, 404 and
    the server errors kept apart. The server's own code is kept with an error
    response: it is never anything else than the code of the document, and with
    memory it is always there when the document has one. *)
Theorem answer_exact `{Malloc} http s :
  bytes_ok (default [] (http_body http)) ->
  answered http (answer http s).1 /\
  (plenty -> (answer http s).1.1 = TAMGA_OK <-> 200 <= http_status http < 300).
Proof.
  intros Hok. pose proof (answer_post http Hok s) as Ha. split; [exact Ha|]. intros Hp. by apply answer_accepted.
Qed.

(** ** Witnesses

    A scripted server: the environment is the list of answers it will give. *)

#[local] Existing Instance full_memory.

Definition script : Type := list (bool * TamgaHttpResponse).

Definition scripted (request : TamgaHttpRequest) (response : TamgaHttpResponse) (w : st * script)
  : (bool * TamgaHttpResponse) * (st * script) :=
  match snd w with
  | [] => ((false, response), w)
  | r :: rest => (r, (fst w, rest))
  end.

#[local] Instance demo_platform : Platform script := {|
  tamga_process_id := 4242;
  tamga_http_transport_create_default := fun w => (Some (mk_transport scripted None), w);
  tamga_http_have_default_transport := true;
|}.

Definition demo_world (answers : script) : io script := mk_io (mk_st 0 None) answers [].

(** A client for one account with a licence key. *)
Definition demo_new : (TamgaErrorCode + TamgaClient script) * io script :=
  tamga_client_new (Some (bstr "acme")) (Some (bstr " api.tamga.sh/ ")) (demo_world []).

Definition demo_client : TamgaClient script :=
  with_auth (mk_client (bstr "acme") (bstr " api.tamga.sh/ ") (bstr "1.8") (bstr "https://api.tamga.sh")
    (bstr "https://api.tamga.sh/v1/accounts/acme") 45000 3 TAMGA_AUTH_BEARER None None false (Some (mk_transport scripted None)) true)
    TAMGA_AUTH_LICENSE (Some (bstr "key/1")) None.

Lemma demo_made : made demo_client.
Proof.
  destruct demo_new as [[code|c] w'] eqn:E; [vm_compute in E; discriminate E|]. pose proof E as E0. unfold demo_new in E0.
  pose proof (made_new _ _ _ _ _ E0) as Hc.
  eapply (made_op c (SetAuth TAMGA_AUTH_LICENSE (Some (bstr "key/1")) None) (demo_world [])); [exact Hc| |].
  - split; [|constructor]. repeat (constructor; [unfold is_byte; vm_compute; split; congruence|]). constructor.
  - vm_compute in E. injection E as <- _. vm_compute. reflexivity.
Qed.

Definition throttled : TamgaHttpResponse := mk_http 429 None [(bstr "retry-after", bstr "2")] 8 TAMGA_TRANSPORT_FAIL_NETWORK.
Definition valid : TamgaHttpResponse := mk_http 200 (Some [123; 34; 118; 34; 58; 49; 125]) [] 0 TAMGA_TRANSPORT_FAIL_NETWORK.

Lemma client_invariant_witness : client_wf demo_client.
Proof. apply client_invariant. exact demo_made. Defined.

(** One rate-limited answer, then a good one. *)
Definition demo_send : (TamgaErrorCode * option TamgaResponse) * io script :=
  tamga_client_send_scoped (Some demo_client) TAMGA_PATH_ACCOUNT (bstr "GET") (bstr "/licenses") None None None false
    (demo_world [(true, throttled); (true, valid)]).

Lemma client_send_refines_witness :
  demo_send.1.1 = TAMGA_OK /\
  let '(r, w') := demo_send in
  sent demo_client TAMGA_PATH_ACCOUNT (bstr "GET") (bstr "/licenses") None None None false (demo_world [(true, throttled); (true, valid)]) r w'.
Proof. split; [vm_compute; reflexivity|]. apply client_send_refines. exact demo_made. Defined.

Lemma client_send_safe_witness :
  io_trace demo_send.2 = send_events (request_of demo_client TAMGA_PATH_ACCOUNT (bstr "GET") (bstr "/licenses") None None None false) [2000] /\
  let request := request_of demo_client TAMGA_PATH_ACCOUNT (bstr "GET") (bstr "/licenses") None None None false in
  let '(_, w') := demo_send in
  (io_trace w' = [] /\ io_net w' = [(true, throttled); (true, valid)]) \/
  exists t s delays limited ok http s', transport demo_client = Some t /\
    conversation t request (s, [(true, throttled); (true, valid)]) (map (pair true) limited ++ [(ok, http)]) (s', io_net w') /\
    rate_limited limited delays /\
    io_trace w' = [] ++ send_events request delays /\ request_safe request /\
    zlen delays <= max_retries demo_client <= 16 /\ Forall (fun d => 1000 <= d <= 60000) delays /\
    (delays <> [] -> repeatable (bstr "GET") (bstr "/licenses")) /\
    (ok = true -> http_status http = 429 -> repeatable (bstr "GET") (bstr "/licenses") -> zlen delays = max_retries demo_client).
Proof. split; [vm_compute; reflexivity|]. apply (client_send_safe demo_client). exact demo_made. Defined.

(** An error document under a status that has a meaning of its own. *)
Definition expired : TamgaHttpResponse :=
  let quote (text : string) := [34] ++ bstr text ++ [34] in
  mk_http 403 (Some (bstr "{" ++ quote "errors"%string ++ bstr ":[{" ++ quote "code"%string ++ bstr ":" ++ quote "LICENSE_EXPIRED"%string ++ bstr "}]}"))
    [] 0 TAMGA_TRANSPORT_FAIL_NETWORK.

Lemma answer_exact_witness :
  (answer expired (mk_st 0 None)).1.1 = TAMGA_ERR_LICENSE_EXPIRED /\
  (answered expired (answer expired (mk_st 0 None)).1 /\
   (plenty -> (answer expired (mk_st 0 None)).1.1 = TAMGA_OK <-> 200 <= 403 < 300)) /\
  answered valid (answer valid (mk_st 0 None)).1 /\ (plenty -> (answer valid (mk_st 0 None)).1.1 = TAMGA_OK <-> 200 <= 200 < 300).
Proof.
  split; [vm_compute; reflexivity|]. split; [apply (answer_exact expired)|apply (answer_exact valid)];
    (repeat (constructor; [split; vm_compute; congruence|]); constructor).
Defined.
