(* ===== verification/Backends.v ===== *)
(** * The client on its built-in transports

    The end of [src/src/http/transport.c], where the build chooses the built-in
    transport, as instances of [Platform]; and what libcurl can be asked to do by
    a client that uses it. *)

From Stdlib Require Import String.
From S2P Require Import Prelude World Buf Transport Backend Curl CurlSpec WinHttp Response Client ClientText ClientSpec.
From stdpp Require Import list sets relations.
#[local] Open Scope Z_scope.

(** ** [tamga_http_transport_create_default] and [tamga_http_have_default_transport]

    One instance for each branch of the [#if]; the process id is the system's. *)

Definition curl_platform `{Malloc, LibCurl net} (process_id : Z) : Platform (easy net) := {|
  tamga_process_id := process_id;
  tamga_http_transport_create_default := tamga_http_transport_create_curl;
  tamga_http_have_default_transport := true;
|}.

Definition winhttp_platform `{Malloc, WinHttp net} (process_id : Z) : Platform (windows net) := {|
  tamga_process_id := process_id;
  tamga_http_transport_create_default := tamga_http_transport_create_winhttp;
  tamga_http_have_default_transport := true;
|}.

Definition bare_platform {net} (process_id : Z) : Platform net := {|
  tamga_process_id := process_id;
  tamga_http_transport_create_default := fun w => (None, w);
  tamga_http_have_default_transport := false;
|}.

(** ** Which transport a client uses *)

Section Default.
Context {malloc : Malloc} {net : Type} {platform : Platform net}.

(** Configuring a client keeps its transport or replaces it by a custom one. *)
Definition transport_kept (c c' : TamgaClient net) : Prop :=
  transport_is_default c' = true -> transport_is_default c = true /\ transport c' = transport c.

Ltac keeps_tac :=
  repeat first
    [ by apply keeps_fail
    | apply post_ret; eexists; split; [reflexivity|done]
    | eapply (post_bind _ _ (fun _ => True)); [by intros ?|intros ? _]
    | case_match ].

Lemma op_transport_kept op c w : io_post (run_op op c) w (fun r _ => keeps (transport_kept c) r).
Proof.
  assert (transport_kept c c) as Hc by done.
  destruct op as [kind p q|v|n|n|perform destroy]; cbn [run_op];
    try (eapply io_post_lift; [|by intros a s _ Ha; exact Ha]).
  - unfold tamga_client_set_auth, auth_kind_refused. keeps_tac. all: by simplify_eq; apply keeps_fail.
  - unfold tamga_client_set_api_version. keeps_tac.
  - unfold tamga_client_set_timeout_ms. keeps_tac.
  - unfold tamga_client_set_max_retries. keeps_tac.
  - unfold tamga_client_set_transport.
    assert (forall w' code text, io_post (do! status := lift (net := net) (tamga_error_set code text) in io_ret (status, Some c)) w'
      (fun r _ => keeps (transport_kept c) r)) as Hfail.
    { intros w' code text. apply io_post_bind. eapply (io_post_lift _ _ (fun _ => True)); [by intros s|]. intros. apply io_post_ret. by exists c. }
    apply io_post_bind. eapply (io_post_lift _ _ (fun _ => True)); [by intros s|]. intros _ s1 _ _. destruct perform as [perform|]; [|apply Hfail].
    apply io_post_bind. eapply (io_post_lift _ _ (fun _ => True)); [by intros s|]. intros [|] s2 _ _; cbn [negb]; [|apply Hfail].
    apply io_post_bind. eapply (io_post_lift _ _ (fun _ => True)); [by intros s|]. intros [|] s3 _ _; cbn [negb]; [|apply Hfail].
    apply io_post_bind. unfold io_post at 1. destruct (tamga_http_transport_destroy _ _) as [[] w']. cbn [fst snd]. apply io_post_ret.
    eexists. split; [done|]. done.
Qed.

(** A client that has not been given a transport uses one the platform made. *)
Lemma made_default (c : TamgaClient net) :
  made c -> transport_is_default c = true -> exists w t w', tamga_http_transport_create_default w = (Some t, w') /\ transport c = Some t.
Proof.
  intros Hm. induction Hm as [account hst w c w' Hn|c op w code c' w' _ IH Hop Hr]; intros Hd.
  - assert (io_post (tamga_client_new account hst) w (fun r _ => match r with inl _ => True | inr c => transport_is_default c = true ->
      exists w t w', tamga_http_transport_create_default w = (Some t, w') /\ transport c = Some t end)) as H.
    2:{ unfold io_post in H. rewrite Hn in H. by apply H. }
    clear. unfold tamga_client_new.
    repeat first
      [ apply io_post_ret; done
      | case_match
      | apply io_post_bind; unfold io_post at 1, io_create_default; destruct (tamga_http_transport_create_default _) as [t [s8 n8]] eqn:E;
        apply io_post_ret; cbn; intros [t' ->]%bool_decide_eq_true; by eexists _, _, _
      | apply io_post_bind; eapply (io_post_lift _ _ (fun _ => True)); [by intros ?|intros ? ? _ _] ].
  - pose proof (op_transport_kept op c w) as H. unfold io_post in H. rewrite Hr in H. destruct H as (? & [= <-] & Hk). destruct (Hk Hd) as [Hd' ->]. by apply IH.
Qed.
End Default.

(** ** URLs *)

(** The URL names HTTP or HTTPS. *)
Definition web_url (url : bytes) : Prop := exists rest, url = bstr "http://" ++ rest \/ url = bstr "https://" ++ rest.

Lemma web_url_app url l : web_url url -> web_url (url ++ l).
Proof. intros (rest & [-> | ->]); exists (rest ++ l); [left|right]; by rewrite <- app_assoc. Qed.

Lemma trim_tail_suffix l : exists t, l = t ++ trim_tail l.
Proof.
  induction l as [|c l [t IH]]; [by exists []|]. cbn [trim_tail]. destruct (_ || _); [|by exists []]. exists (c :: t). cbn. by f_equal.
Qed.

Lemma prefix_of_kept prefix kept t : (length prefix <= length kept)%nat -> has_prefix prefix (kept ++ t) = true -> exists rest, kept = prefix ++ rest.
Proof.
  intros Hl H. unfold has_prefix in H. apply beq_eq in H. rewrite take_app_le in H by done.
  exists (drop (length prefix) kept). rewrite <- H at 1. by rewrite take_drop.
Qed.

Lemma origin_web_url host : web_url (origin_text host).
Proof.
  unfold origin_text. set (trimmed := skip_spaces (c_view host)). destruct (trim_tail_suffix (rev trimmed)) as [t Ht].
  set (kept := rev (trim_tail (rev trimmed))) in *. assert (trimmed = kept ++ rev t) as Htrim.
  { unfold kept. rewrite <- rev_app_distr, <- Ht. by rewrite rev_involutive. }
  destruct (_ || _) eqn:E; [|by exists kept; right]. cbn [app]. rewrite Htrim in E. apply orb_true_iff in E as [E|E]; apply andb_true_iff in E as [Hl Hp].
  - destruct (prefix_of_kept (bstr "http://") kept (rev t)) as [rest ->]; [cbn; lia|done|]. exists rest. by left.
  - destruct (prefix_of_kept (bstr "https://") kept (rev t)) as [rest ->]; [cbn; lia|done|]. exists rest. by right.
Qed.

Lemma c_view_app l1 l2 : ~ In 0 l1 -> c_view (l1 ++ l2) = l1 ++ c_view l2.
Proof.
  induction l1 as [|c l IH]; cbn [In app c_view]; [done|]. intros H. rewrite (proj2 (Z.eqb_neq c 0)) by tauto. f_equal. apply IH. tauto.
Qed.

Lemma request_web_url {malloc : Malloc} {net} (client : TamgaClient net) scope path query :
  client_wf client -> web_url (c_view (request_url client scope path query)).
Proof.
  intros Hc. unfold request_url. rewrite c_view_app by auto with tamga. apply web_url_app.
  rewrite (wf_base_url _ Hc), (wf_origin _ Hc). pose proof (c_view_id _ (origin_no_nul (host client))) as Hid.
  destruct scope.
  - unfold base_text. rewrite c_view_app by auto with tamga. rewrite Hid. apply web_url_app, origin_web_url.
  - rewrite Hid. apply origin_web_url.
Qed.

(** ** libcurl on behalf of a client *)

Section OverCurl.
Context {malloc : Malloc} {net : Type} {curl : LibCurl net}.

(** A transfer that may be made for [request]: its options are those of the
    request, the checked ones among them; every header line is one line; the URL
    is one of the web. *)
Definition transfer_for (request : TamgaHttpRequest) (transfer : list CURLoption * net) : Prop :=
  transfer.1 `sublist_of` request_options request /\ checked_options ⊆ transfer.1 /\
  (forall lines, CURLOPT_HTTPHEADER lines ∈ transfer.1 -> (length lines <= 5)%nat /\ Forall (Forall header_char) lines) /\
  (forall url, CURLOPT_URL url ∈ transfer.1 -> web_url url).

Lemma header_text_safe h : Forall header_char (c_view h.1) -> Forall header_char (c_view h.2) -> Forall header_char (header_text h).
Proof. intros H1 H2. unfold header_text. repeat (apply Forall_app; split); [done|by apply literal_header|done]. Qed.

(** The options of a request with safe headers. *)
Lemma options_safe request options n :
  request_safe request -> web_url (c_view (req_url request)) ->
  options `sublist_of` request_options request -> checked_options ⊆ options -> transfer_for request (options, n).
Proof.
  intros [Hlen Hsafe] Hurl Hsub Hchecked. pose proof (sublist_subseteq _ _ Hsub) as Hin. split_and!; [done|done|..]; cbn [fst].
  - intros lines Hl%Hin. assert (lines = map header_text (req_headers request)) as ->.
    { unfold request_options, method_options, checked_options in Hl. destruct curl_at_least_7_85, (beq _ _), (req_body request); set_solver. }
    rewrite length_map. split; [done|]. apply Forall_map. eapply Forall_impl; [exact Hsafe|]. intros h []. by apply header_text_safe.
  - intros url Hu%Hin. assert (url = c_view (req_url request)) as ->; [|done].
    unfold request_options, method_options, checked_options in Hu. destruct curl_at_least_7_85, (beq _ _), (req_body request); set_solver.
Qed.

(** The requests handed to the transport in a trace. *)
Definition performs (tr : list event) : nat := length (List.filter (fun e => match e with Performed _ => true | Slept _ => false end) tr).

Lemma performs_app tr1 tr2 : performs (tr1 ++ tr2) = (performs tr1 + performs tr2)%nat.
Proof. unfold performs. by rewrite List.filter_app, length_app. Qed.

Lemma performs_send request delays : performs (send_events request delays) = S (length delays).
Proof. unfold send_events. cbn. f_equal. induction delays as [|d delays IH]; [done|]. cbn. by f_equal. Qed.

(** Between two configurations of the retry machine on this transport: only
    transfers for the request, no more than it was handed. *)
Definition grew (request : TamgaHttpRequest) (e e' : st * easy net) (tr tr' : list event) : Prop :=
  exists l k, easy_transfers e'.2 = easy_transfers e.2 ++ l /\ Forall (transfer_for request) l /\
    performs tr' = (performs tr + k)%nat /\ (length l <= k)%nat.

Lemma grew_trans request e1 e2 e3 tr1 tr2 tr3 : grew request e1 e2 tr1 tr2 -> grew request e2 e3 tr2 tr3 -> grew request e1 e3 tr1 tr3.
Proof.
  intros (l1 & k1 & H1 & F1 & P1 & L1) (l2 & k2 & H2 & F2 & P2 & L2). exists (l1 ++ l2), (k1 + k2)%nat.
  rewrite length_app. split_and!; [by rewrite H2, H1, <- app_assoc|by apply Forall_app|lia|lia].
Qed.

Lemma perform_grew state request destroy e ok r e' tr :
  request_safe request -> web_url (c_view (req_url request)) ->
  transport_perform (mk_transport (tamga_curl_perform state) destroy) request tamga_http_response_init e = ((ok, r), e') ->
  grew request e e' tr (tr ++ [Performed request]).
Proof.
  intros Hsafe Hurl E. cbn [transport_perform] in E. pose proof (curl_perform_post state request e) as H. unfold b_post in H. rewrite E in H. cbn [fst snd] in H.
  destruct H as [(_ & Ht & _)|(options & n & Ht & Hs & Hc & _)].
  - exists [], 1%nat. rewrite app_nil_r, performs_app. by split_and!; [|constructor|..|cbn; lia].
  - exists [(options, n)], 1%nat. rewrite performs_app. split_and!; [done| |done|done]. constructor; [|constructor]. by apply options_safe.
Qed.

Lemma run_grew (platform : Platform (easy net)) state destroy request retryable retries p e tr p' e' tr' :
  request_safe request -> web_url (c_view (req_url request)) ->
  rtc (step (mk_transport (tamga_curl_perform state) destroy) request retryable retries) (p, e, tr) (p', e', tr') -> grew request e e' tr tr'.
Proof.
  intros Hsafe Hurl H. remember (p, e, tr) as c eqn:Ec. remember (p', e', tr') as c' eqn:Ec'. revert p e tr Ec.
  induction H as [c|c c1 c2 Hs Hr IH]; intros p e tr ->.
  - simplify_eq. exists [], 0%nat. rewrite app_nil_r. split_and!; [done|constructor|lia|cbn; lia].
  - destruct c1 as [[p1 e1] tr1]. eapply grew_trans; [|by eapply IH].
    inversion Hs; subst; [by eapply perform_grew..|]. exists [], 0%nat. rewrite app_nil_r, performs_app. split_and!; [done|constructor|done|done].
Qed.

Lemma create_curl_transport w t w' :
  tamga_http_transport_create_curl w = (Some t, w') -> exists state destroy, t = mk_transport (tamga_curl_perform state) destroy.
Proof.
  intros E. assert (b_post tamga_http_transport_create_curl w (fun r _ => forall t, r = Some t -> exists state destroy, t = mk_transport (tamga_curl_perform state) destroy)) as H.
  - unfold tamga_http_transport_create_curl.
    repeat first
      [ apply b_post_ret; done
      | apply b_post_ret; intros ? [= <-]; by eexists _, _
      | case_match
      | apply b_post_bind; eapply (b_post_lift _ _ (fun _ => True)); [by intros ?|intros ? ? _]
      | apply b_post_bind, b_post_call; intros ? ? _ ].
  - unfold b_post in H. rewrite E in H. by apply H.
Qed.
End OverCurl.

(** (C13) A client on the libcurl transport, whatever libcurl, the server and the
    allocator do. A call makes libcurl start at most [max_retries] + 1 transfers
    (17 at most), each for the one request of the call: with peer and host
    verification, without redirects, over HTTP or HTTPS only, to a URL of the
    web, with at most five header lines and no NUL, CR or LF in any of them. *)
Theorem client_over_curl {malloc : Malloc} {net} {curl : LibCurl net} process_id (c : TamgaClient (easy net)) scope method path query body otp json_api_body w :
  made (platform := curl_platform process_id) c -> transport_is_default c = true ->
  let request := request_of c scope method path query body otp json_api_body in
  let '(_, w') := tamga_client_send_scoped (platform := curl_platform process_id) (Some c) scope method path query body otp json_api_body w in
  exists transfers, easy_transfers (io_net w') = easy_transfers (io_net w) ++ transfers /\
    Forall (transfer_for request) transfers /\ zlen transfers <= max_retries c + 1 <= 17.
Proof.
  intros Hm Hd request. pose proof (made_wf c Hm) as Hc. destruct (made_default c Hm Hd) as (w0 & t & w1 & (state & destroy & ->)%create_curl_transport & Ht).
  pose proof (send_sent (platform := curl_platform process_id) c scope method path query body otp json_api_body w Hc) as H. unfold io_post in H.
  destruct (tamga_client_send_scoped _ _ _ _ _ _ _ _ _) as [r w']. cbn [fst snd] in H. unfold sent in H. pose proof (wf_retries _ Hc).
  assert (forall code, silent code w r w' -> exists transfers, easy_transfers (io_net w') = easy_transfers (io_net w) ++ transfers /\
    Forall (transfer_for request) transfers /\ zlen transfers <= max_retries c + 1 <= 17) as Hsilent.
  { intros code (_ & _ & ->). exists []. rewrite app_nil_r. split_and!; [done|constructor|cbn; lia|lia]. }
  destruct (send_refused c otp) as [code|] eqn:Er; [by eapply Hsilent|]. rewrite Ht in H.
  destruct H as [[H' _]|(s & ok & http & s' & n & tr & Hrun & Htr & Hn & _)]; [by eapply Hsilent|]. cbn [io_st io_net] in *.
  assert (request_safe request) as Hsafe.
  { unfold send_refused in Er. rewrite Ht in Er. destruct (auth_configured c) eqn:Ea; [|done]. cbn [negb] in Er. apply request_of_safe; [by apply wf_auth|].
    destruct otp as [o|]; [|by left]. right. by destruct (tamga_header_value_is_safe (Some o)). }
  assert (web_url (c_view (req_url request))) as Hurl by exact (request_web_url c scope path query Hc).
  destruct (run_grew (curl_platform process_id) _ _ request _ _ _ _ _ _ _ _ Hsafe Hurl Hrun) as (l & k & Hl & Hfor & Hk & Hle).
  apply reachable_ok in Hrun as (delays & _ & _ & Hdelays & Htr' & _); [|lia]. rewrite Htr', performs_send in Hk. cbn [performs List.filter length] in Hk.
  exists l. rewrite Hn. split_and!; [done|done|lia|lia].
Qed.

(** ** Witness: a client on the libcurl of [CurlSpec] *)

#[local] Existing Instance full_memory.
#[local] Instance hello_curl : LibCurl unit := canned hello.
#[local] Instance hello_platform : Platform (easy unit) := curl_platform 4242.

Definition hello_world : io (easy unit) := mk_io (mk_st 0 None) (mk_easy [] tt []) [].

Definition hello_transport : TamgaHttpTransport (easy unit) :=
  mk_transport (tamga_curl_perform (Some (mk_curl_state true))) (Some (tamga_curl_destroy (Some (mk_curl_state true)))).

Definition hello_base : TamgaClient (easy unit) :=
  mk_client (bstr "acme") (bstr "api.tamga.sh") (bstr "1.8") (bstr "https://api.tamga.sh") (bstr "https://api.tamga.sh/v1/accounts/acme")
    45000 3 TAMGA_AUTH_BEARER None None false (Some hello_transport) true.

Definition hello_client : TamgaClient (easy unit) := with_auth hello_base TAMGA_AUTH_LICENSE (Some (bstr "key/1")) None.

Lemma hello_made : made hello_client.
Proof.
  assert (made hello_base) as Hbase.
  { eapply (made_new (Some (bstr "acme")) (Some (bstr "api.tamga.sh")) hello_world). reflexivity. }
  eapply (made_op hello_base (SetAuth TAMGA_AUTH_LICENSE (Some (bstr "key/1")) None) hello_world); [exact Hbase| |reflexivity].
  split; [|constructor]. repeat (constructor; [unfold is_byte; vm_compute; split; congruence|]). constructor.
Qed.

Definition hello_send : (TamgaErrorCode * option TamgaResponse) * io (easy unit) :=
  tamga_client_send_scoped (Some hello_client) TAMGA_PATH_ACCOUNT (bstr "GET") (bstr "/licenses") None None None false hello_world.

Lemma client_over_curl_witness :
  hello_send.1.1 = TAMGA_OK /\ length (easy_transfers (io_net hello_send.2)) = 1%nat /\
  let request := request_of hello_client TAMGA_PATH_ACCOUNT (bstr "GET") (bstr "/licenses") None None None false in
  let '(_, w') := hello_send in
  exists transfers, easy_transfers (io_net w') = [] ++ transfers /\
    Forall (transfer_for request) transfers /\ zlen transfers <= max_retries hello_client + 1 <= 17.
Proof.
  split; [vm_compute; reflexivity|]. split; [vm_compute; reflexivity|]. apply (client_over_curl 4242 hello_client); [exact hello_made|reflexivity].
Defined.
