(* ===== verification/ClientLive.v ===== *)
(** * A rate-limited call succeeds once the service lets it

    The liveness of the retry loop: what the caller gets when the service stops
    answering 429 within the budget of retries. *)

From Stdlib Require Import String.
From S2P Require Import Prelude World Transport Response Client ClientText ClientSpec Backends.
From stdpp Require Import list relations.
#[local] Open Scope Z_scope.

(** From [e], the transport answers [request] with 429 the first [k] times and
    then with [http]. *)
Inductive limited_until {net} (t : TamgaHttpTransport net) (request : TamgaHttpRequest) (http : TamgaHttpResponse) : st * net -> nat -> Prop :=
| limit_over e e' :
    transport_perform t request tamga_http_response_init e = ((true, http), e') -> http_status http <> 429 ->
    limited_until t request http e 0
| limit_holds e e' answer k :
    transport_perform t request tamga_http_response_init e = ((true, answer), e') -> http_status answer = 429 ->
    limited_until t request http e' k -> limited_until t request http e (S k).

Section Live.
Context {malloc : Malloc} {net : Type} {platform : Platform net}.

(** A finished run has waited the limit out. *)
Lemma run_limited t request http retries e k :
  limited_until t request http e k ->
  forall a tr ok h e' tr', 0 <= a -> a + Z.of_nat k <= retries ->
  rtc (step t request true retries) (Sending a, e, tr) (Finished ok h, e', tr') ->
  ok = true /\ h = http /\ performs tr' = (performs tr + S k)%nat.
Proof.
  intros H. induction H as [e e1 Hp Hs|e e1 answer k Hp Hs Hl IH]; intros a tr ok h e' tr' Ha Hk Hrun;
    inversion Hrun as [|? c1 ? Hstep Hrest]; subst; inversion Hstep as [? ? ? h' ? Hp'|? ? ? h' ? Hp' Hr|? ? ? h' ? Hp' Hr|]; subst;
    rewrite Hp in Hp'; simplify_eq.
  - by destruct Hr as [? _].
  - inversion Hrest as [|? ? ? Hbad]; subst; [|inversion Hbad]. rewrite performs_app. by split_and!.
  - inversion Hrest as [|? c2 ? Hwake Hmore]; subst. inversion Hwake; subst.
    apply IH in Hmore as (-> & -> & Hperf); [|lia|lia]. rewrite !performs_app in Hperf. cbn in Hperf. split_and!; [done|done|lia].
  - destruct Hr. split_and!; [done|lia|done].
Qed.

(** (C18) A call that may be repeated outlasts a rate limit. If the service
    answers 429 to its first [k] attempts, [k] at most [max_retries], and then
    anything else, the caller gets that answer after exactly [k] waits and
    [k] + 1 requests, and TAMGA_OK if its status is one of success. *)
Theorem client_send_live (c : TamgaClient net) t scope method path query body otp json_api_body http k w :
  made c -> transport c = Some t -> send_refused c otp = None -> plenty -> send_small c scope path query ->
  tamga_request_is_retryable (Some method) (Some path) = true ->
  bytes_ok (default [] (http_body http)) -> Z.of_nat k <= max_retries c ->
  (forall s, limited_until t (request_of c scope method path query body otp json_api_body) http (s, io_net w) k) ->
  let '(r, w') := tamga_client_send_scoped (Some c) scope method path query body otp json_api_body w in
  answered http r /\ (200 <= http_status http < 300 -> r.1 = TAMGA_OK) /\
  exists delays, length delays = k /\ io_trace w' = io_trace w ++ send_events (request_of c scope method path query body otp json_api_body) delays.
Proof.
  intros Hm Ht Hre Hp Hsmall Hretry Hbytes Hk Hlim. pose proof (made_wf c Hm) as Hc. pose proof (wf_retries _ Hc).
  pose proof (send_sent c scope method path query body otp json_api_body w Hc) as H1. unfold io_post in H1.
  destruct (tamga_client_send_scoped _ _ _ _ _ _ _ _ _) as [r w']. cbn [fst snd] in H1. unfold sent in H1. rewrite Hre, Ht, Hretry in H1.
  destruct H1 as [[_ Hno]|(s & ok & h & s' & n & tr & Hrun & Htr & _ & Hfin)]; [by destruct Hno|]. cbn [io_st io_net io_trace] in *.
  assert (ok = true /\ h = http /\ performs tr = (performs [] + S k)%nat) as (-> & -> & Hperf).
  { eapply run_limited in Hrun; [exact Hrun|exact (Hlim s)|lia|lia]. }
  apply reachable_ok in Hrun as (delays & _ & _ & _ & -> & _); [|lia]. rewrite performs_send in Hperf. cbn [performs List.filter length] in Hperf. unfold finish in Hfin.
  pose proof (answer_post http Hbytes s') as Ha. rewrite Hfin in Ha. cbn [fst] in Ha.
  split_and!; [done| |exists delays; split; [lia|done]].
  intros Hok. by apply (answer_accepted http r Hp Ha).
Qed.
End Live.

(** Two rate-limited answers, then a good one, with three retries. *)
#[local] Existing Instance full_memory.
#[local] Existing Instance demo_platform.

Lemma client_send_live_witness :
  let answers := [(true, throttled); (true, throttled); (true, valid)] in
  let request := request_of demo_client TAMGA_PATH_ACCOUNT (bstr "GET") (bstr "/licenses") None None None false in
  let '(r, w') := tamga_client_send_scoped (Some demo_client) TAMGA_PATH_ACCOUNT (bstr "GET") (bstr "/licenses") None None None false (demo_world answers) in
  answered valid r /\ (200 <= http_status valid < 300 -> r.1 = TAMGA_OK) /\
  exists delays, length delays = 2%nat /\ io_trace w' = [] ++ send_events request delays.
Proof.
  intros answers request.
  apply (client_send_live demo_client (mk_transport scripted None) TAMGA_PATH_ACCOUNT (bstr "GET") (bstr "/licenses") None None None false valid 2 (demo_world answers)).
  - exact demo_made.
  - reflexivity.
  - reflexivity.
  - intros n size _. reflexivity.
  - split; vm_compute; congruence.
  - reflexivity.
  - repeat (constructor; [split; vm_compute; congruence|]). constructor.
  - vm_compute; congruence.
  - intros s. eapply limit_holds; [reflexivity|reflexivity|]. eapply limit_holds; [reflexivity|reflexivity|].
    eapply limit_over; [reflexivity|]. vm_compute. congruence.
Defined.
