(* ===== verification/Endpoints.v ===== *)
(** * The endpoints: [src/src/http/endpoints.c]

    One definition per function of the file, in its order. A reply is the error
    code and the response stored through [out_response], [None] where nothing
    was stored. Identifiers, JSON texts and the client may be null;
    [out_response] may not, and what the functions do with a null one is not
    represented: most refuse it, the activations drop the response, and the
    adoption of an existing machine refuses it in the validation at the end.

    A request body is a JSON tree whose inner objects are attached to the root
    while they are still empty and filled through their own pointers
    afterwards: [set_below] is [tamga_json_object_set] on the node a path
    leads to, seen from the root that owns it. *)

From Stdlib Require Import String.
From S2P Require Import Prelude World Buf Hex Json JsonParse JsonWrite Validation MachineFile Transport Response Client.
From stdpp Require Import list.
#[local] Open Scope Z_scope.

Definition reply : Type := TamgaErrorCode * option TamgaResponse.

(** The error texts with a "%s" for what the argument is called. *)
Definition named (what tail : string) : fmt := FmtText (bstr what ++ bstr tail).

Definition tamga_require_uuid (value : option bytes) (what : string) : M TamgaErrorCode :=
  match value with
  | None => tamga_error_set TAMGA_ERR_NULL_ARGUMENT (named what " is required")
  | Some v =>
      match tamga_uuid_normalize (Some (c_view v)) with
      | None => tamga_error_set TAMGA_ERR_NULL_ARGUMENT (named what " must be a UUID")
      | Some _ => ret TAMGA_OK
      end
  end.

(** An identifier in canonical form. *)
Definition uuid_of (id : option bytes) : option bytes := i ← id; tamga_uuid_normalize (Some (c_view i)).

(** The same for an optional identifier: [None] if one is given and malformed. *)
Definition opt_uuid (id : option bytes) : option (option bytes) :=
  match id with None => Some None | Some _ => Some <$> uuid_of id end.

Section Parts.
Context {malloc : Malloc}.

Definition tamga_path (prefix : string) (id : option bytes) (suffix : option string) : M (option bytes) :=
  let finish (buf : TamgaBuf) : M (option bytes) :=
    let! buf := match suffix with Some s => tamga_buf_append_str buf (Some (bstr s)) | None => ret buf end in
    detach_text buf in
  let! buf := tamga_buf_append_str tamga_buf_init (Some (bstr prefix)) in
  match id with
  | None => finish buf
  | Some i =>
      match tamga_uuid_normalize (Some (c_view i)) with
      | None => ret None
      | Some canonical => let! buf := tamga_buf_append_str buf (Some canonical) in finish buf
      end
  end.

(** The parsed object, if a text was given. *)
Definition tamga_parse_optional_object (text : option bytes) (what : string) : M (TamgaErrorCode * option json) :=
  match text with
  | None => ret (TAMGA_OK, None)
  | Some t =>
      let! parsed := tamga_json_parse (Some (c_view t)) in
      match parsed with
      | inr e =>
          let! status :=
            if tamga_json_error_is_out_of_memory (Some e)
            then tamga_error_set TAMGA_ERR_OUT_OF_MEMORY (FmtText (bstr "could not parse " ++ bstr what))
            else tamga_error_set TAMGA_ERR_INVALID_JSON
                   (FmtText (bstr what ++ bstr " is not valid JSON: " ++ match e with json_message m => m | _ => [] end)) in
          ret (status, None)
      | inl tree =>
          if bool_decide (tamga_json_type (Some tree) = TAMGA_JSON_OBJECT) then ret (TAMGA_OK, Some tree)
          else
            let! status := tamga_error_set TAMGA_ERR_INVALID_JSON (named what " must be a JSON object") in
            ret (status, None)
      end
  end.

(** The query under construction: whether every addition so far worked, the
    buffer, and whether it is still empty. *)
Definition query : Type := bool * TamgaBuf * bool.

Definition tamga_query_add (buf : TamgaBuf) (first : bool) (name : string) (value : bytes) : M query :=
  let! encoded := tamga_url_encode (Some value) in
  match encoded with
  | None => ret (false, buf, first)
  | Some encoded =>
      let! buf := if first then ret buf else tamga_buf_append_byte buf 38 in
      let! buf := tamga_buf_append_str buf (Some (bstr name)) in
      let! buf := tamga_buf_append_byte buf 61 in
      let! buf := tamga_buf_append_str buf (Some encoded) in
      ret (true, buf, false)
  end.

(** One more parameter, if nothing has failed and the caller gave one. *)
Definition query_add_opt (q : query) (name : string) (value : option bytes) : M query :=
  let '(built, buf, first) := q in
  match built, value with
  | true, Some v => tamga_query_add buf first name v
  | _, _ => ret q
  end.

(** The buffer is detached in either case. *)
Definition finish_query (q : query) : M (option bytes) :=
  let '(built, buf, _) := q in
  let! text := detach_text buf in
  ret (if built : bool then text else None).

(** ** Trees *)

(** [tamga_json_object_set(node, key, item)], [node] being the object that
    [path] leads to from [root]; the result is the root with that node changed. *)
Fixpoint set_below (path : list string) (root : option json) (key : string) (item : option json) : M (option json) :=
  match path with
  | [] => tamga_json_object_set root (Some (bstr key)) item
  | p :: path' =>
      match root with
      | Some (JObject members) =>
          let! child := set_below path' (find_member members (bstr p)) key item in
          ret (match child with
               | None => None
               | Some c => (fun ms => JObject ms) <$> replace_member members (bstr p) c
               end)
      | _ => ret None
      end
  end.

Definition new_text (l : bytes) : M (option json) := tamga_json_new_string (Some (c_view l)).

(** The loops over the optional attributes: the recognised members of
    [options], cloned into the node at [path]. *)
Fixpoint copy_fields (fields : list string) (options : json) (path : list string) (root : json) : M (option json) :=
  match fields with
  | [] => ret (Some root)
  | field :: fields' =>
      match tamga_json_object_get (Some options) (Some (bstr field)) with
      | None => copy_fields fields' options path root
      | Some value =>
          let! copy := tamga_json_clone value in
          match copy with
          | None => ret None
          | Some copy =>
              let! root := set_below path (Some root) field (Some copy) in
              match root with
              | None => ret None
              | Some root => copy_fields fields' options path root
              end
          end
      end
  end.

Definition copy_optional_fields (fields : list string) (options : option json) (path : list string) (root : json) : M (option json) :=
  match options with
  | None => ret (Some root)
  | Some options => copy_fields fields options path root
  end.
End Parts.

(** A step of a construction whose failure abandons it. *)
Definition obind {A B} (m : M (option A)) (f : A -> M (option B)) : M (option B) :=
  let! r := m in match r with None => ret None | Some a => f a end.

Notation "'try!' x ':=' m 'in' k" := (obind m (fun x => k))
  (at level 10, x pattern, m at level 100, k at level 200) : tamga_scope.

Section Bodies.
Context {malloc : Malloc}.

(** [{"key": license_key}] *)
Definition validate_key_tree (license_key : bytes) : M (option json) :=
  let! body := tamga_json_new_object in
  match body with
  | None => ret None
  | Some body =>
      let! key := new_text license_key in
      tamga_json_object_set (Some body) (Some (bstr "key")) key
  end.

(** [{"meta": {"skip_touch": ..., "scope": ...}}] *)
Definition validate_tree (scope : option json) (skip_touch : bool) : M (option json) :=
  let! root := tamga_json_new_object in
  let! meta := tamga_json_new_object in
  match root, meta with
  | Some root, Some meta =>
      try! root := tamga_json_object_set (Some root) (Some (bstr "meta")) (Some meta) in
      let! flag := tamga_json_new_bool skip_touch in
      try! root := set_below ["meta"%string] (Some root) "skip_touch" flag in
      match scope with
      | None => ret (Some root)
      | Some scope => set_below ["meta"%string] (Some root) "scope" (Some scope)
      end
  | _, _ => ret None
  end.

(** [{"meta": {"encrypt": ..., "ttl": ...}}] *)
Definition checkout_tree (encrypt : bool) (ttl_seconds : Z) : M (option json) :=
  let! root := tamga_json_new_object in
  let! meta := tamga_json_new_object in
  match root, meta with
  | Some root, Some meta =>
      try! root := tamga_json_object_set (Some root) (Some (bstr "meta")) (Some meta) in
      let! flag := tamga_json_new_bool encrypt in
      try! root := set_below ["meta"%string] (Some root) "encrypt" flag in
      let! ttl := if ttl_seconds >? 0 then tamga_json_new_int ttl_seconds else tamga_json_new_null in
      set_below ["meta"%string] (Some root) "ttl" ttl
  | _, _ => ret None
  end.

Definition tamga_checkout_body (encrypt : bool) (ttl_seconds : Z) : M (option bytes) :=
  try! root := checkout_tree encrypt ttl_seconds in
  tamga_json_write (Some root).

Definition tamga_checkout_query (encrypt : bool) (ttl_seconds : Z) : M (option bytes) :=
  let! buf := tamga_buf_append_str tamga_buf_init (Some (if encrypt then bstr "encrypt=true" else bstr "encrypt=false")) in
  let! buf := if ttl_seconds >? 0 then tamga_buf_append_fmt buf (Some (bstr "&ttl=" ++ fmt_dec ttl_seconds)) else ret buf in
  detach_text buf.

Definition machine_fields : list string :=
  ["name"%string; "ip"%string; "hostname"%string; "platform"%string; "cores"%string; "memory"%string; "disk"%string; "metadata"%string].

(** The document of a machine creation. *)
Definition create_machine_tree (fingerprint canonical : bytes) (options : option json) : M (option json) :=
  let! root := tamga_json_new_object in
  let! data := tamga_json_new_object in
  let! attributes := tamga_json_new_object in
  let! relationships := tamga_json_new_object in
  let! license := tamga_json_new_object in
  let! license_data := tamga_json_new_object in
  match root, data, attributes, relationships, license, license_data with
  | Some root, Some data, Some attributes, Some relationships, Some license, Some license_data =>
      try! root := tamga_json_object_set (Some root) (Some (bstr "data")) (Some data) in
      let! type := tamga_json_new_string (Some (bstr "machines")) in
      try! root := set_below ["data"%string] (Some root) "type" type in
      try! root := set_below ["data"%string] (Some root) "attributes" (Some attributes) in
      try! root := set_below ["data"%string] (Some root) "relationships" (Some relationships) in
      try! root := set_below ["data"%string; "relationships"%string] (Some root) "license" (Some license) in
      try! root := set_below ["data"%string; "relationships"%string; "license"%string] (Some root) "data" (Some license_data) in
      let! fp := new_text fingerprint in
      try! root := set_below ["data"%string; "attributes"%string] (Some root) "fingerprint" fp in
      try! root := copy_optional_fields machine_fields options ["data"%string; "attributes"%string] root in
      let! type := tamga_json_new_string (Some (bstr "licenses")) in
      try! root := set_below ["data"%string; "relationships"%string; "license"%string; "data"%string] (Some root) "type" type in
      let! id := tamga_json_new_string (Some canonical) in
      set_below ["data"%string; "relationships"%string; "license"%string; "data"%string] (Some root) "id" id
  | _, _, _, _, _, _ => ret None
  end.

(** The document of a machine update. *)
Definition update_machine_tree (attributes_in : option json) : M (option json) :=
  let! root := tamga_json_new_object in
  let! data := tamga_json_new_object in
  let! attributes := tamga_json_new_object in
  match root, data, attributes with
  | Some root, Some data, Some attributes =>
      try! root := tamga_json_object_set (Some root) (Some (bstr "data")) (Some data) in
      let! type := tamga_json_new_string (Some (bstr "machines")) in
      try! root := set_below ["data"%string] (Some root) "type" type in
      try! root := set_below ["data"%string] (Some root) "attributes" (Some attributes) in
      copy_optional_fields machine_fields attributes_in ["data"%string; "attributes"%string] root
  | _, _, _ => ret None
  end.

(** [{"meta": {"dataset": ...}}]; [dataset] may be the null pointer of a failed
    allocation. *)
Definition proof_tree_body (dataset : option json) : M (option json) :=
  let! root := tamga_json_new_object in
  let! meta := tamga_json_new_object in
  match root, meta, dataset with
  | Some root, Some meta, Some dataset =>
      try! root := tamga_json_object_set (Some root) (Some (bstr "meta")) (Some meta) in
      set_below ["meta"%string] (Some root) "dataset" (Some dataset)
  | _, _, _ => ret None
  end.

(** The flat body of a component: [machine_id], [fingerprint], [name] and
    [metadata]. *)
Definition component_tree (canonical fingerprint name : bytes) (metadata : option json) : M (option json) :=
  let! root := tamga_json_new_object in
  match root, metadata with
  | Some root, Some metadata =>
      let! id := tamga_json_new_string (Some canonical) in
      try! root := tamga_json_object_set (Some root) (Some (bstr "machine_id")) id in
      let! fp := new_text fingerprint in
      try! root := tamga_json_object_set (Some root) (Some (bstr "fingerprint")) fp in
      let! nm := new_text name in
      try! root := tamga_json_object_set (Some root) (Some (bstr "name")) nm in
      tamga_json_object_set (Some root) (Some (bstr "metadata")) (Some metadata)
  | _, _ => ret None
  end.

Definition process_tree (canonical pid : bytes) (metadata : option json) : M (option json) :=
  let! root := tamga_json_new_object in
  match root, metadata with
  | Some root, Some metadata =>
      let! id := tamga_json_new_string (Some canonical) in
      try! root := tamga_json_object_set (Some root) (Some (bstr "machine_id")) id in
      let! p := new_text pid in
      try! root := tamga_json_object_set (Some root) (Some (bstr "pid")) p in
      tamga_json_object_set (Some root) (Some (bstr "metadata")) (Some metadata)
  | _, _ => ret None
  end.
End Bodies.

Section Endpoints.
Context {malloc : Malloc} {net : Type} {platform : Platform net}.

Definition refuse (m : M TamgaErrorCode) : IO net reply := do! status := lift m in io_ret (status, None).

Definition no_memory : IO net reply := refuse (fail TAMGA_ERR_OUT_OF_MEMORY "could not build the request").

Definition null_client : IO net reply := refuse (fail TAMGA_ERR_NULL_ARGUMENT "client and out_response are required").

(** [if (status != TAMGA_OK) return status;] *)
Definition require (m : M TamgaErrorCode) (k : IO net reply) : IO net reply :=
  do! status := lift m in
  if decide (status = TAMGA_OK) then k else io_ret (status, None).

Definition with_object (text : option bytes) (what : string) (k : option json -> IO net reply) : IO net reply :=
  do! (status, object) := lift (tamga_parse_optional_object text what) in
  if decide (status = TAMGA_OK) then k object else io_ret (status, None).

(** The steps after the tree of a body: its text, and where it goes. *)
Definition send_tree (client : TamgaClient net) (method path : bytes) (tree : M (option json)) (otp : option bytes) : IO net reply :=
  do! root := lift tree in
  match root with
  | None => no_memory
  | Some root =>
      do! text := lift (tamga_json_write (Some root)) in
      match text with
      | None => no_memory
      | Some text => tamga_client_send (Some client) method path None (Some text) otp true
      end
  end.

(** The same, the path being built after the text. *)
Definition send_tree_at (client : TamgaClient net) (method : bytes) (path : M (option bytes)) (tree : M (option json)) (otp : option bytes)
  : IO net reply :=
  do! root := lift tree in
  match root with
  | None => no_memory
  | Some root =>
      do! text := lift (tamga_json_write (Some root)) in
      do! path := lift path in
      match text, path with
      | Some text, Some path => tamga_client_send (Some client) method path None (Some text) otp true
      | _, _ => no_memory
      end
  end.

(** One identifier in the path and nothing else to build. *)
Definition send_by_id (client : option (TamgaClient net)) (method : string) (prefix : string) (id : option bytes) (what : string)
    (suffix : option string) (otp : option bytes) (json_api_body : bool) : IO net reply :=
  do! _ := lift tamga_error_clear in
  match client with
  | None => null_client
  | Some c =>
      require (tamga_require_uuid id what) (
        do! path := lift (tamga_path prefix id suffix) in
        match path with
        | None => no_memory
        | Some path => tamga_client_send (Some c) (bstr method) path None None otp json_api_body
        end)
  end.

Definition tamga_get_resource (client : option (TamgaClient net)) (prefix : string) (id : option bytes) (what : string)
    (suffix : option string) : IO net reply :=
  send_by_id client "GET" prefix id what suffix None false.

(** ** Licence validation *)

Definition tamga_client_validate_by_key (client : option (TamgaClient net)) (license_key otp : option bytes) : IO net reply :=
  do! _ := lift tamga_error_clear in
  match client, license_key with
  | Some c, Some key => send_tree c (bstr "POST") (bstr "/licenses/actions/validate-key") (validate_key_tree key) otp
  | _, _ => refuse (fail TAMGA_ERR_NULL_ARGUMENT "client, license_key and out_response are required")
  end.

Definition tamga_client_validate_by_id (client : option (TamgaClient net)) (license_id scope_json : option bytes) (skip_touch : bool)
    (otp : option bytes) : IO net reply :=
  do! _ := lift tamga_error_clear in
  match client with
  | None => null_client
  | Some c =>
      require (tamga_require_uuid license_id "license_id") (
        with_object scope_json "scope_json" (fun scope =>
          send_tree_at c (bstr "POST") (tamga_path "/licenses/" license_id (Some "/actions/validate"%string)) (validate_tree scope skip_touch) otp))
  end.

Definition tamga_client_quick_validate (client : option (TamgaClient net)) (license_id otp : option bytes) : IO net reply :=
  send_by_id client "GET" "/licenses/" license_id "license_id" (Some "/actions/validate"%string) otp false.

Definition tamga_client_check_in (client : option (TamgaClient net)) (license_id : option bytes) : IO net reply :=
  send_by_id client "POST" "/licenses/" license_id "license_id" (Some "/actions/check-in"%string) None true.

(** ** Licence and policy reads *)

Definition tamga_client_get_license (client : option (TamgaClient net)) (license_id : option bytes) : IO net reply :=
  tamga_get_resource client "/licenses/" license_id "license_id" None.

Definition tamga_client_get_license_policy (client : option (TamgaClient net)) (license_id : option bytes) : IO net reply :=
  tamga_get_resource client "/licenses/" license_id "license_id" (Some "/policy"%string).

Definition tamga_client_get_policy (client : option (TamgaClient net)) (policy_id : option bytes) : IO net reply :=
  tamga_get_resource client "/policies/" policy_id "policy_id" None.

(** ** Checkout *)

Definition tamga_checkout (client : option (TamgaClient net)) (prefix : string) (id : option bytes) (what : string) (encrypt : bool)
    (ttl_seconds : Z) (raw : bool) : IO net reply :=
  do! _ := lift tamga_error_clear in
  match client with
  | None => null_client
  | Some c =>
      require (tamga_require_uuid id what) (
        if (ttl_seconds >? 0) && negb (tamga_machine_file_ttl_is_valid ttl_seconds)
        then refuse (fail TAMGA_ERR_TTL_INVALID "ttl must be between 1 second and 365 days")
        else
          do! path := lift (tamga_path prefix id (Some "/actions/check-out"%string)) in
          match path with
          | None => no_memory
          | Some path =>
              if raw then
                do! query := lift (tamga_checkout_query encrypt ttl_seconds) in
                match query with
                | None => no_memory
                | Some query => tamga_client_send (Some c) (bstr "GET") path (Some query) None None false
                end
              else
                do! body := lift (tamga_checkout_body encrypt ttl_seconds) in
                match body with
                | None => no_memory
                | Some body => tamga_client_send (Some c) (bstr "POST") path None (Some body) None true
                end
          end)
  end.

Definition tamga_client_check_out_license (client : option (TamgaClient net)) (license_id : option bytes) (encrypt : bool) (ttl_seconds : Z) :=
  tamga_checkout client "/licenses/" license_id "license_id" encrypt ttl_seconds true.
Definition tamga_client_check_out_license_json (client : option (TamgaClient net)) (license_id : option bytes) (encrypt : bool) (ttl_seconds : Z) :=
  tamga_checkout client "/licenses/" license_id "license_id" encrypt ttl_seconds false.
Definition tamga_client_check_out_machine (client : option (TamgaClient net)) (machine_id : option bytes) (encrypt : bool) (ttl_seconds : Z) :=
  tamga_checkout client "/machines/" machine_id "machine_id" encrypt ttl_seconds true.
Definition tamga_client_check_out_machine_json (client : option (TamgaClient net)) (machine_id : option bytes) (encrypt : bool) (ttl_seconds : Z) :=
  tamga_checkout client "/machines/" machine_id "machine_id" encrypt ttl_seconds false.

(** ** Machines *)

Definition tamga_client_create_machine (client : option (TamgaClient net)) (license_id fingerprint options_json : option bytes) : IO net reply :=
  do! _ := lift tamga_error_clear in
  match client, fingerprint with
  | Some c, Some fp =>
      require (tamga_require_uuid license_id "license_id") (
        with_object options_json "options_json" (fun options =>
          match uuid_of license_id with
          | None => refuse (fail TAMGA_ERR_NULL_ARGUMENT "license_id must be a UUID")
          | Some canonical => send_tree c (bstr "POST") (bstr "/machines") (create_machine_tree fp canonical options) None
          end))
  | _, _ => refuse (fail TAMGA_ERR_NULL_ARGUMENT "client, fingerprint and out_response are required")
  end.

Definition tamga_client_delete_machine (client : option (TamgaClient net)) (machine_id : option bytes) : IO net reply :=
  send_by_id client "DELETE" "/machines/" machine_id "machine_id" None None false.

Definition tamga_client_get_machine (client : option (TamgaClient net)) (machine_id : option bytes) : IO net reply :=
  tamga_get_resource client "/machines/" machine_id "machine_id" None.

Definition tamga_client_update_machine (client : option (TamgaClient net)) (machine_id attributes_json : option bytes) : IO net reply :=
  do! _ := lift tamga_error_clear in
  match client, attributes_json with
  | Some c, Some _ =>
      require (tamga_require_uuid machine_id "machine_id") (
        with_object attributes_json "attributes_json" (fun attributes_in =>
          send_tree_at c (bstr "PATCH") (tamga_path "/machines/" machine_id None) (update_machine_tree attributes_in) None))
  | _, _ => refuse (fail TAMGA_ERR_NULL_ARGUMENT "client, attributes_json and out_response are required")
  end.

(** What happens when the creation itself fails. *)
Definition tamga_activate_create_failed (status : TamgaErrorCode) (created : option TamgaResponse) : IO net reply :=
  let is_create_time_limit :=
    bool_decide (is_Some created) && negb (bool_decide (tamga_validation_code_from_error status = TAMGA_VALIDATION_UNKNOWN)) in
  let response := if is_create_time_limit then created else None in
  if decide (status = TAMGA_OK) then
    do! code := lift (fail TAMGA_ERR_UNKNOWN "the machine was created but the server returned no resource") in
    io_ret (code, response)
  else io_ret (status, response).

(** The identifier of the machine a creation answered with. *)
Definition created_machine_id (created : TamgaResponse) : option bytes :=
  match response_json created with
  | None => None
  | Some tree =>
      tamga_json_as_string (tamga_json_object_get (tamga_json_object_get (Some tree) (Some (bstr "data"))) (Some (bstr "id")))
  end.

Definition tamga_activate_after_create (client : option (TamgaClient net)) (license_id scope_json : option bytes)
    (auto_delete_on_overage : bool) (created : TamgaResponse) : IO net reply :=
  do! (status, validated) := tamga_client_validate_by_id client license_id scope_json false None in
  do! _ :=
    if auto_delete_on_overage && bool_decide (status = TAMGA_OK) && bool_decide (is_Some validated) &&
       tamga_validation_code_is_overage (tamga_response_validation_code_enum validated)
    then
      do! _ :=
        match created_machine_id created with
        | Some machine_id => do! _ := tamga_client_delete_machine client (Some machine_id) in io_ret tt
        | None => io_ret tt
        end in
      lift tamga_error_clear
    else io_ret tt in
  io_ret (status, validated).

Definition tamga_client_activate_machine (client : option (TamgaClient net)) (license_id fingerprint options_json scope_json : option bytes)
    (auto_delete_on_overage : bool) : IO net reply :=
  do! _ := lift tamga_error_clear in
  do! (status, created) := tamga_client_create_machine client license_id fingerprint options_json in
  match created with
  | Some r =>
      if decide (status = TAMGA_OK)
      then tamga_activate_after_create client license_id scope_json auto_delete_on_overage r
      else tamga_activate_create_failed status created
  | None => tamga_activate_create_failed status created
  end.

(** ** The machine collection *)

Definition TAMGA_MACHINE_PAGE_SIZE : Z := 100.
Definition TAMGA_MACHINE_LOOKUP_MAX_PAGES : Z := 10.

(** The query of a machine listing; [None] where nothing can be sent. *)
Definition list_machines_query (canonical search : option bytes) (page_number page_size : Z) : M (option bytes) :=
  let! (buf, first) :=
    if page_number >? 0 then
      let! buf := tamga_buf_append_fmt tamga_buf_init (Some (bstr "page%5Bnumber%5D=" ++ fmt_dec page_number)) in ret (buf, false)
    else ret (tamga_buf_init, true) in
  let! (buf, first) :=
    if page_size >? 0 then
      let! buf := if first : bool then ret buf else tamga_buf_append_byte buf 38 in
      let! buf := tamga_buf_append_fmt buf (Some (bstr "page%5Bsize%5D=" ++ fmt_dec page_size)) in ret (buf, false)
    else ret (buf, first) in
  let! q := query_add_opt (true, buf, first) "filter%5Blicense%5D" canonical in
  let! q := query_add_opt q "filter%5Bq%5D" search in
  finish_query q.

Definition tamga_client_list_machines (client : option (TamgaClient net)) (license_id search : option bytes) (page_number page_size : Z)
  : IO net reply :=
  do! _ := lift tamga_error_clear in
  match client with
  | None => null_client
  | Some c =>
      require (match license_id with Some _ => tamga_require_uuid license_id "license_id" | None => ret TAMGA_OK end) (
        match opt_uuid license_id with
        | None => refuse (fail TAMGA_ERR_NULL_ARGUMENT "license_id must be a UUID")
        | Some canonical =>
            do! query := lift (list_machines_query canonical search page_number page_size) in
            match query with
            | None => no_memory
            | Some query => tamga_client_send (Some c) (bstr "GET") (bstr "/machines") (Some query) None None false
            end
        end)
  end.

(** The loop over one page, and the copy of the identifier it finds. *)
Fixpoint exact_match (machines : list json) (fingerprint : bytes) : option bytes :=
  match machines with
  | [] => None
  | machine :: machines' =>
      match tamga_json_as_string (attribute (Some machine) "fingerprint") with
      | Some value =>
          if beq (c_view value) (c_view fingerprint) then
            match tamga_json_as_string (tamga_json_object_get (Some machine) (Some (bstr "id"))) with
            | Some id => Some id
            | None => exact_match machines' fingerprint
            end
          else exact_match machines' fingerprint
      | None => exact_match machines' fingerprint
      end
  end.

Definition page_rows (response : TamgaResponse) : list json :=
  match tamga_json_object_get (response_json response) (Some (bstr "data")) with
  | Some (JArray items) => items
  | _ => []
  end.

Definition tamga_machine_page_exact_match (response : TamgaResponse) (fingerprint : bytes) : M (TamgaErrorCode * option bytes) :=
  match exact_match (page_rows response) fingerprint with
  | None => ret (TAMGA_OK, None)
  | Some id =>
      let! copy := tamga_strdup (Some id) in
      ret (match copy with Some _ => TAMGA_OK | None => TAMGA_ERR_OUT_OF_MEMORY end, copy)
  end.

(** The loop over the pages: [fuel] pages are left, [page] is the next one. *)
Fixpoint find_loop (fuel : nat) (client : TamgaClient net) (license_id : option bytes) (fingerprint : bytes) (page : Z)
  : IO net (TamgaErrorCode * option bytes) :=
  match fuel with
  | O => io_ret (TAMGA_OK, None)
  | S f =>
      do! (status, response) := tamga_client_list_machines (Some client) license_id (Some fingerprint) page TAMGA_MACHINE_PAGE_SIZE in
      match response with
      | Some r =>
          if decide (status = TAMGA_OK) then
            do! (status, found) := lift (tamga_machine_page_exact_match r fingerprint) in
            do! meta := lift (tamga_response_page (Some r)) in
            if decide (status = TAMGA_OK) then
              match found with
              | Some id => io_ret (TAMGA_OK, Some id)
              | None =>
                  match meta with
                  | None => io_ret (TAMGA_OK, None)
                  | Some (_, _, _, total_pages) =>
                      if page >=? total_pages then io_ret (TAMGA_OK, None) else find_loop f client license_id fingerprint (page + 1)
                  end
              end
            else do! status := lift (fail status "could not read the machine listing") in io_ret (status, None)
          else io_ret (status, None)
      | None =>
          if decide (status = TAMGA_OK) then
            do! status := lift (fail TAMGA_ERR_UNKNOWN "the machine listing returned no response") in io_ret (status, None)
          else io_ret (status, None)
      end
  end.

Definition tamga_client_find_machine_by_fingerprint (client : option (TamgaClient net)) (license_id fingerprint : option bytes)
  : IO net (TamgaErrorCode * option bytes) :=
  do! _ := lift tamga_error_clear in
  match client, fingerprint with
  | Some c, Some fp =>
      do! status := lift (tamga_require_uuid license_id "license_id") in
      if decide (status = TAMGA_OK) then find_loop (Z.to_nat TAMGA_MACHINE_LOOKUP_MAX_PAGES) c license_id fp 1
      else io_ret (status, None)
  | _, _ =>
      do! status := lift (fail TAMGA_ERR_NULL_ARGUMENT "client, fingerprint and out_machine_id are required") in io_ret (status, None)
  end.

(** The machine a conflict names: the code of the copy, and the copy. *)
Definition tamga_conflict_machine_id (created : option TamgaResponse) : M (TamgaErrorCode * option bytes) :=
  match tree_of created with
  | None => ret (TAMGA_OK, None)
  | Some tree =>
      let first := tamga_json_array_at (tamga_json_object_get (Some tree) (Some (bstr "errors"))) 0 in
      let meta := tamga_json_object_get first (Some (bstr "meta")) in
      match tamga_json_as_string (tamga_json_object_get meta (Some (bstr "machineId"))) with
      | None => ret (TAMGA_OK, None)
      | Some machine_id =>
          let! copy := tamga_strdup (Some machine_id) in
          ret (match copy with Some _ => TAMGA_OK | None => TAMGA_ERR_OUT_OF_MEMORY end, copy)
      end
  end.

Definition tamga_client_activate_machine_idempotent (client : option (TamgaClient net))
    (license_id fingerprint options_json scope_json : option bytes) (auto_delete_on_overage : bool) : IO net reply :=
  do! _ := lift tamga_error_clear in
  do! (status, created) := tamga_client_create_machine client license_id fingerprint options_json in
  match status, created with
  | TAMGA_OK, Some r => tamga_activate_after_create client license_id scope_json auto_delete_on_overage r
  | TAMGA_ERR_FINGERPRINT_TAKEN, _ =>
      do! (lookup, existing) := lift (tamga_conflict_machine_id created) in
      if decide (lookup = TAMGA_OK) then
        match existing with
        | Some _ => tamga_client_validate_by_id client license_id scope_json false None
        | None =>
            do! (lookup, existing) := tamga_client_find_machine_by_fingerprint client license_id fingerprint in
            if decide (lookup = TAMGA_ERR_OUT_OF_MEMORY) then io_ret (lookup, None)
            else if decide (lookup = TAMGA_OK) then
              match existing with
              | None =>
                  refuse (fail TAMGA_ERR_FINGERPRINT_TAKEN
                            "the fingerprint is already activated on a different licence under the policy's uniqueness scope")
              | Some _ => tamga_client_validate_by_id client license_id scope_json false None
              end
            else
              refuse (tamga_error_set TAMGA_ERR_FINGERPRINT_TAKEN
                        (FmtText (bstr "the fingerprint is already activated, and the existing machine could not be looked up (" ++
                                  tamga_error_name lookup ++ bstr ")")))
        end
      else refuse (fail lookup "could not read the conflict response")
  | _, _ => tamga_activate_create_failed status created
  end.

Definition tamga_machine_action (client : option (TamgaClient net)) (machine_id : option bytes) (action : string) : IO net reply :=
  send_by_id client "POST" "/machines/" machine_id "machine_id" (Some action) None true.

Definition tamga_client_ping_heartbeat (client : option (TamgaClient net)) (machine_id : option bytes) : IO net reply :=
  tamga_machine_action client machine_id "/actions/ping-heartbeat".

Definition tamga_client_reset_heartbeat (client : option (TamgaClient net)) (machine_id : option bytes) : IO net reply :=
  tamga_machine_action client machine_id "/actions/reset-heartbeat".

(** [if (object == NULL) object = tamga_json_new_object();] *)
Definition or_new_object (object : option json) : M (option json) :=
  match object with None => tamga_json_new_object | Some o => ret (Some o) end.

Definition tamga_client_generate_offline_proof (client : option (TamgaClient net)) (machine_id dataset_json : option bytes) : IO net reply :=
  do! _ := lift tamga_error_clear in
  match client with
  | None => null_client
  | Some c =>
      require (tamga_require_uuid machine_id "machine_id") (
        with_object dataset_json "dataset_json" (fun dataset =>
          do! dataset := lift (or_new_object dataset) in
          send_tree_at c (bstr "POST") (tamga_path "/machines/" machine_id (Some "/actions/generate-offline-proof"%string))
            (proof_tree_body dataset) None))
  end.

(** ** Components and processes *)

Definition tamga_client_create_component (client : option (TamgaClient net)) (machine_id fingerprint name metadata_json : option bytes)
  : IO net reply :=
  do! _ := lift tamga_error_clear in
  match client, fingerprint, name with
  | Some c, Some fp, Some nm =>
      require (tamga_require_uuid machine_id "machine_id") (
        with_object metadata_json "metadata_json" (fun metadata =>
          do! metadata := lift (or_new_object metadata) in
          match uuid_of machine_id with
          | None => refuse (fail TAMGA_ERR_NULL_ARGUMENT "machine_id must be a UUID")
          | Some canonical => send_tree c (bstr "POST") (bstr "/components") (component_tree canonical fp nm metadata) None
          end))
  | _, _, _ => refuse (fail TAMGA_ERR_NULL_ARGUMENT "client, fingerprint, name and out_response are required")
  end.

(** The query of a keyset-paginated listing. *)
Definition list_query (limit : Z) (after : option bytes) : M (option bytes) :=
  let! buf := if limit >? 0 then tamga_buf_append_fmt tamga_buf_init (Some (bstr "limit=" ++ fmt_dec limit)) else ret tamga_buf_init in
  let! buf :=
    match after with
    | None => ret buf
    | Some canonical =>
        let! buf := if limit >? 0 then tamga_buf_append_byte buf 38 else ret buf in
        let! buf := tamga_buf_append_str buf (Some (bstr "page%5Bafter%5D=")) in
        tamga_buf_append_str buf (Some canonical)
    end in
  detach_text buf.

Definition tamga_list (client : option (TamgaClient net)) (prefix : string) (id : option bytes) (what suffix : string) (limit : Z)
    (after : option bytes) : IO net reply :=
  do! _ := lift tamga_error_clear in
  match client with
  | None => null_client
  | Some c =>
      require (tamga_require_uuid id what) (
        require (match after with Some _ => tamga_require_uuid after "after" | None => ret TAMGA_OK end) (
          match opt_uuid after with
          | None => refuse (fail TAMGA_ERR_NULL_ARGUMENT "after must be a UUID")
          | Some canonical =>
              do! query := lift (list_query limit canonical) in
              match query with
              | None => no_memory
              | Some query =>
                  do! path := lift (tamga_path prefix id (Some suffix)) in
                  match path with
                  | None => no_memory
                  | Some path => tamga_client_send (Some c) (bstr "GET") path (Some query) None None false
                  end
              end
          end))
  end.

Definition tamga_client_list_components (client : option (TamgaClient net)) (machine_id : option bytes) (limit : Z) (after : option bytes) :=
  tamga_list client "/machines/" machine_id "machine_id" "/components" limit after.

Definition tamga_client_list_machine_processes (client : option (TamgaClient net)) (machine_id : option bytes) (limit : Z) (after : option bytes) :=
  tamga_list client "/machines/" machine_id "machine_id" "/processes" limit after.

Definition tamga_client_create_process (client : option (TamgaClient net)) (machine_id pid metadata_json : option bytes) : IO net reply :=
  do! _ := lift tamga_error_clear in
  match client, pid with
  | Some c, Some p =>
      require (tamga_require_uuid machine_id "machine_id") (
        with_object metadata_json "metadata_json" (fun metadata =>
          do! metadata := lift (or_new_object metadata) in
          match uuid_of machine_id with
          | None => refuse (fail TAMGA_ERR_NULL_ARGUMENT "machine_id must be a UUID")
          | Some canonical => send_tree c (bstr "POST") (bstr "/processes") (process_tree canonical p metadata) None
          end))
  | _, _ => refuse (fail TAMGA_ERR_NULL_ARGUMENT "client, pid and out_response are required")
  end.

Definition tamga_client_ping_process (client : option (TamgaClient net)) (process_id : option bytes) : IO net reply :=
  send_by_id client "POST" "/processes/" process_id "process_id" (Some "/actions/ping"%string) None true.

Definition tamga_client_delete_process (client : option (TamgaClient net)) (process_id : option bytes) : IO net reply :=
  send_by_id client "DELETE" "/processes/" process_id "process_id" None None false.

(** ** Entitlements *)

Definition tamga_client_list_entitlements (client : option (TamgaClient net)) (license_id : option bytes) (limit : Z) (after : option bytes) :=
  tamga_list client "/licenses/" license_id "license_id" "/entitlements" limit after.

(** The path of one entitlement of a licence. *)
Definition entitlement_buf (license entitlement : bytes) : M TamgaBuf :=
  let! buf := tamga_buf_append_str tamga_buf_init (Some (bstr "/licenses/")) in
  let! buf := tamga_buf_append_str buf (Some license) in
  let! buf := tamga_buf_append_str buf (Some (bstr "/entitlements/")) in
  tamga_buf_append_str buf (Some entitlement).

Definition tamga_client_get_entitlement (client : option (TamgaClient net)) (license_id entitlement_id : option bytes) : IO net reply :=
  do! _ := lift tamga_error_clear in
  match client with
  | None => null_client
  | Some c =>
      require (tamga_require_uuid license_id "license_id") (
        require (tamga_require_uuid entitlement_id "entitlement_id") (
          match uuid_of license_id with
          | None => refuse (fail TAMGA_ERR_NULL_ARGUMENT "license_id must be a UUID")
          | Some license =>
              match uuid_of entitlement_id with
              | None => refuse (fail TAMGA_ERR_NULL_ARGUMENT "entitlement_id must be a UUID")
              | Some entitlement =>
                  do! path := lift (let! buf := entitlement_buf license entitlement in detach_text buf) in
                  match path with
                  | None => no_memory
                  | Some path => tamga_client_send (Some c) (bstr "GET") path None None None false
                  end
              end
          end))
  end.

Definition tamga_client_has_entitlement (client : option (TamgaClient net)) (license_id code : option bytes) (limit : Z)
  : IO net (TamgaErrorCode * bool) :=
  do! _ := lift tamga_error_clear in
  match client, code with
  | Some c, Some code =>
      do! (status, response) := tamga_client_list_entitlements client license_id (if limit >? 0 then limit else 100) None in
      match response with
      | Some r =>
          if decide (status = TAMGA_OK) then
            io_ret (TAMGA_OK,
              existsb (fun entitlement =>
                match tamga_json_as_string (attribute (Some entitlement) "code") with
                | Some value => beq (c_view value) (c_view code)
                | None => false
                end) (page_rows r))
          else io_ret (status, false)
      | None =>
          if decide (status = TAMGA_OK) then
            do! status := lift (fail TAMGA_ERR_UNKNOWN "the entitlement listing returned no response") in io_ret (status, false)
          else io_ret (status, false)
      end
  | _, _ =>
      do! status := lift (fail TAMGA_ERR_NULL_ARGUMENT "client, code and out_has are required") in io_ret (status, false)
  end.

Definition tamga_entitlement_action_path (license_id entitlement_id : option bytes) (action : string) : M (option bytes) :=
  match uuid_of license_id, uuid_of entitlement_id with
  | Some license, Some entitlement =>
      let! buf := entitlement_buf license entitlement in
      let! buf := tamga_buf_append_str buf (Some (bstr "/actions/")) in
      let! buf := tamga_buf_append_str buf (Some (bstr action)) in
      detach_text buf
  | _, _ => ret None
  end.

(** [{field_name: amount}] *)
Definition usage_tree (field_name : string) (amount : Z) : M (option json) :=
  let! root := tamga_json_new_object in
  match root with
  | None => ret None
  | Some root =>
      let! n := tamga_json_new_int amount in
      tamga_json_object_set (Some root) (Some (bstr field_name)) n
  end.

Definition tamga_entitlement_usage_action (client : option (TamgaClient net)) (license_id entitlement_id : option bytes)
    (action_suffix field_name : string) (amount : Z) : IO net reply :=
  do! _ := lift tamga_error_clear in
  match client with
  | None => null_client
  | Some c =>
      require (tamga_require_uuid license_id "license_id") (
        require (tamga_require_uuid entitlement_id "entitlement_id") (
          do! path := lift (tamga_entitlement_action_path license_id entitlement_id action_suffix) in
          match path with
          | None => refuse (fail TAMGA_ERR_NULL_ARGUMENT "license_id and entitlement_id must be UUIDs")
          | Some path =>
              if amount >? 0 then send_tree c (bstr "POST") path (usage_tree field_name amount) None
              else tamga_client_send (Some c) (bstr "POST") path None None None true
          end))
  end.

Definition tamga_client_increment_entitlement_usage (client : option (TamgaClient net)) (license_id entitlement_id : option bytes) (amount : Z) :=
  tamga_entitlement_usage_action client license_id entitlement_id "increment" "increment" amount.

Definition tamga_client_decrement_entitlement_usage (client : option (TamgaClient net)) (license_id entitlement_id : option bytes) (amount : Z) :=
  tamga_entitlement_usage_action client license_id entitlement_id "decrement" "decrement" amount.

Definition tamga_client_reset_entitlement_usage (client : option (TamgaClient net)) (license_id entitlement_id : option bytes) : IO net reply :=
  do! _ := lift tamga_error_clear in
  match client with
  | None => null_client
  | Some c =>
      require (tamga_require_uuid license_id "license_id") (
        require (tamga_require_uuid entitlement_id "entitlement_id") (
          do! path := lift (tamga_entitlement_action_path license_id entitlement_id "reset") in
          match path with
          | None => refuse (fail TAMGA_ERR_NULL_ARGUMENT "license_id and entitlement_id must be UUIDs")
          | Some path => tamga_client_send (Some c) (bstr "POST") path None None None true
          end))
  end.

(** ** Signing keys, releases, artifacts, health *)

Definition tamga_client_list_signing_keys (client : option (TamgaClient net)) : IO net reply :=
  do! _ := lift tamga_error_clear in
  match client with
  | None => null_client
  | Some c => tamga_client_send (Some c) (bstr "GET") (bstr "/signing-keys") None None None false
  end.

Definition upgrade_query (canonical platform filetype version : bytes) (channel constraint : option bytes) : M (option bytes) :=
  let! q := tamga_query_add tamga_buf_init true "product" canonical in
  let! q := query_add_opt q "platform" (Some platform) in
  let! q := query_add_opt q "filetype" (Some filetype) in
  let! q := query_add_opt q "version" (Some version) in
  let! q := query_add_opt q "channel" channel in
  let! q := query_add_opt q "constraint" constraint in
  finish_query q.

Definition tamga_client_check_upgrade (client : option (TamgaClient net)) (product_id platform filetype version channel constraint : option bytes)
  : IO net reply :=
  do! _ := lift tamga_error_clear in
  match client, platform, filetype, version with
  | Some c, Some pl, Some ft, Some ve =>
      require (tamga_require_uuid product_id "product_id") (
        match uuid_of product_id with
        | None => refuse (fail TAMGA_ERR_NULL_ARGUMENT "product_id must be a UUID")
        | Some canonical =>
            do! query := lift (upgrade_query canonical pl ft ve channel constraint) in
            match query with
            | None => no_memory
            | Some query => tamga_client_send (Some c) (bstr "GET") (bstr "/releases/actions/upgrade") (Some query) None None false
            end
        end)
  | _, _, _, _ => refuse (fail TAMGA_ERR_NULL_ARGUMENT "client, platform, filetype, version and out_response are required")
  end.

Definition tamga_client_list_release_artifacts (client : option (TamgaClient net)) (release_id : option bytes) (limit : Z) (after : option bytes) :=
  tamga_list client "/releases/" release_id "release_id" "/artifacts" limit after.

Definition tamga_client_get_artifact (client : option (TamgaClient net)) (artifact_id : option bytes) : IO net reply :=
  tamga_get_resource client "/artifacts/" artifact_id "artifact_id" None.

Definition TAMGA_PRESIGN_TTL_MIN_SECONDS : Z := 60.
Definition TAMGA_PRESIGN_TTL_MAX_SECONDS : Z := 604800.

Definition download_query (ttl_seconds : Z) : M (option bytes) :=
  let! buf := tamga_buf_append_str tamga_buf_init (Some (bstr "redirect=false")) in
  let! buf := if negb (ttl_seconds =? 0) then tamga_buf_append_fmt buf (Some (bstr "&ttl=" ++ fmt_dec ttl_seconds)) else ret buf in
  detach_text buf.

Definition tamga_client_get_artifact_download_url (client : option (TamgaClient net)) (artifact_id : option bytes) (ttl_seconds : Z) : IO net reply :=
  do! _ := lift tamga_error_clear in
  match client with
  | None => null_client
  | Some c =>
      require (tamga_require_uuid artifact_id "artifact_id") (
        if negb (ttl_seconds =? 0) && ((ttl_seconds <? TAMGA_PRESIGN_TTL_MIN_SECONDS) || (ttl_seconds >? TAMGA_PRESIGN_TTL_MAX_SECONDS))
        then refuse (tamga_error_set TAMGA_ERR_TTL_INVALID
                       (FmtText (bstr "ttl must be between " ++ fmt_dec TAMGA_PRESIGN_TTL_MIN_SECONDS ++ bstr " seconds and " ++
                                 fmt_dec TAMGA_PRESIGN_TTL_MAX_SECONDS ++ bstr " seconds (1 week)")))
        else
          do! path := lift (tamga_path "/artifacts/" artifact_id (Some "/actions/download"%string)) in
          match path with
          | None => no_memory
          | Some path =>
              do! query := lift (download_query ttl_seconds) in
              match query with
              | None => no_memory
              | Some query => tamga_client_send (Some c) (bstr "GET") path (Some query) None None false
              end
          end)
  end.

Definition tamga_client_health (client : option (TamgaClient net)) : IO net reply :=
  do! _ := lift tamga_error_clear in
  match client with
  | None => null_client
  | Some c => tamga_client_send_scoped (Some c) TAMGA_PATH_ORIGIN (bstr "GET") (bstr "/v1/health") None None None false
  end.
End Endpoints.
