(* ===== verification/EndpointBody.v ===== *)
(** * The documents, paths and queries the endpoints send

    What the trees and texts of [Endpoints] are once they are built: over an arbitrary
    allocator each construction yields the specified document or nothing, and
    nothing only for want of memory. *)

From Stdlib Require Import String.
From S2P Require Import Prelude World Buf BufBuild Hex Json JsonParse JsonGrammar JsonWrite JsonPrint JsonDouble JsonRoundtrip JsonSmall Status JsonBuild Cert Response Client ClientText ClientSpec Endpoints.
From stdpp Require Import list.
#[local] Open Scope Z_scope.

(** ** Filling an object in place *)

(** A new member of an object: [None] where the key is not new or not a key
    this file uses. *)
Definition add (ms : list (bytes * json)) (key : string) (item : json) : option (list (bytes * json)) :=
  if forallb (fun m => negb (beq m.1 (bstr key))) ms && (length ms <=? 64)%nat && (length (bstr key) <=? 64)%nat &&
     forallb (fun c => negb (c =? 0)) (bstr key)
  then Some (ms ++ [(bstr key, item)]) else None.

(** The same below [path]. *)
Fixpoint put (path : list string) (root : json) (key : string) (item : json) : option json :=
  match root with
  | JObject ms =>
      match path with
      | [] => (fun ms => JObject ms) <$> add ms key item
      | p :: path' =>
          child ← find_member ms (bstr p);
          child ← put path' child key item;
          (fun ms => JObject ms) <$> replace_member ms (bstr p) child
      end
  | _ => None
  end.

Section Fill.
Context {malloc : Malloc}.

Lemma add_got P ms key item ms' :
  add ms key item = Some ms' -> post (tamga_json_object_set (Some (JObject ms)) (Some (bstr key)) (Some item)) (got P (JObject ms')).
Proof.
  unfold add. destruct (_ && _) eqn:E; [|done]. rewrite !andb_true_iff, !Nat.leb_le in E. destruct E as [[[Hf Hl] Hk] Hz]. intros [= <-].
  apply object_set_got; [|lia|lia|].
  - intros Hi. by apply (proj1 (forallb_forall _ _) Hz) in Hi.
  - rewrite list_elem_of_fmap. intros (m & Hm & Hi%list_elem_of_In). apply (proj1 (forallb_forall _ _) Hf) in Hi.
    apply negb_true_iff in Hi. rewrite Hm in Hi. by rewrite beq_refl in Hi.
Qed.

Lemma set_below_got P path root key item root' :
  put path root key item = Some root' -> post (set_below path (Some root) key (Some item)) (got P root').
Proof.
  revert root root'. induction path as [|p path IH]; intros root root'; destruct root; cbn [put set_below]; try done.
  - intros (ms' & Hadd & ->)%fmap_Some. by apply add_got.
  - intros (child & -> & (child' & Hput & (ms' & Hrep & ->)%fmap_Some)%bind_Some)%bind_Some.
    eapply got_bind; [by apply IH| |].
    + apply post_ret. left. by rewrite Hrep.
    + intros Hn. apply post_ret. by right.
Qed.

Lemma set_below_null path root key : post (set_below path root key None) (fun r => r = None).
Proof.
  revert root. induction path as [|p path IH]; intros root; cbn [set_below].
  - destruct root as [[]|]; by apply post_ret.
  - destruct root as [[]|]; try by apply post_ret. eapply post_bind; [apply IH|]. intros ? ->. by apply post_ret.
Qed.

Lemma try_got {A B} P (m : M (option A)) (a : A) (f : A -> M (option B)) (b : B) :
  post m (got P a) -> post (f a) (got P b) -> post (obind m f) (got P b).
Proof. intros Hm Hf. eapply got_bind; [exact Hm|exact Hf|]. intros Hn. apply post_ret. by right. Qed.

(** A new node goes below the root. *)
Lemma leaf_got {B} P path key (m : M (option json)) item root root' (k : json -> M (option B)) (b : B) :
  post m (got P item) -> put path root key item = Some root' -> post (k root') (got P b) ->
  post (let! x := m in try! r := set_below path (Some root) key x in k r) (got P b).
Proof.
  intros Hm Hp Hk. eapply got_bind; [exact Hm| |].
  - eapply try_got; [by apply set_below_got|exact Hk].
  - intros Hn. unfold obind. eapply post_bind; [apply set_below_null|]. intros ? ->. apply post_ret. by right.
Qed.

Lemma field_got {B} P key (m : M (option json)) item ms ms' (k : json -> M (option B)) (b : B) :
  post m (got P item) -> add ms key item = Some ms' -> post (k (JObject ms')) (got P b) ->
  post (let! x := m in try! r := tamga_json_object_set (Some (JObject ms)) (Some (bstr key)) x in k r) (got P b).
Proof. intros Hm Ha. refine (leaf_got P [] key m item (JObject ms) (JObject ms') k b Hm _). cbn [put]. by rewrite Ha. Qed.

Lemma last_leaf_got P path key (m : M (option json)) item root root' :
  post m (got P item) -> put path root key item = Some root' ->
  post (let! x := m in set_below path (Some root) key x) (got P root').
Proof.
  intros Hm Hp. eapply got_bind; [exact Hm|by apply set_below_got|].
  intros Hn. eapply post_mono; [apply set_below_null|]. intros ? ->. by right.
Qed.

Lemma new_got P node : post (tamga_json_new node) (got P node).
Proof. apply got_intro; [apply new_post|]. intros limit Hm Hl _. apply new_ok. unfold json_memory in *. lia. Qed.

Lemma new_text_got (P : Prop) l : (P -> zlen (c_view l) <= TAMGA_MAX_REASONABLE_LEN) -> post (new_text l) (got P (JString (c_view l))).
Proof. apply new_string_got. Qed.

(** ** Copied attributes *)

(** The recognised members of [options]. *)
Definition picked (fields : list string) (options : json) : list (bytes * json) :=
  omap (fun f => (fun v => (bstr f, v)) <$> tamga_json_object_get (Some options) (Some (bstr f))) fields.

(** [ms] has room for [fields], one after the other. *)
Fixpoint room (fields : list string) (keys : list bytes) : bool :=
  match fields with
  | [] => true
  | f :: fields' =>
      forallb (fun k => negb (beq k (bstr f))) keys && (length keys <=? 64)%nat && (length (bstr f) <=? 64)%nat &&
      forallb (fun c => negb (c =? 0)) (bstr f) && room fields' keys && room fields' (keys ++ [bstr f])
  end.

Lemma room_add f fields ms item : room (f :: fields) ms.*1 = true -> add ms f item = Some (ms ++ [(bstr f, item)]).
Proof.
  cbn [room]. rewrite !andb_true_iff. intros [[[[[H1 H2] H3] H4] _] _]. unfold add. rewrite length_fmap in H2. rewrite H2, H3, H4.
  replace (forallb _ ms) with true; [done|]. symmetry. apply forallb_forall. intros m Hm%list_elem_of_In.
  apply (proj1 (forallb_forall _ _) H1), list_elem_of_In, list_elem_of_fmap. by exists m.
Qed.

(** [doc] is a document with an open object at [path]. *)
Definition hole (path : list string) (doc : list (bytes * json) -> json) : Prop :=
  forall ms key item, put path (doc ms) key item = doc <$> add ms key item.

Lemma hole_here : hole [] (fun ms => JObject ms).
Proof. done. Qed.

Lemma hole_below p path doc before after :
  find_member before (bstr p) = None -> hole path doc ->
  hole (p :: path) (fun ms => JObject (before ++ (bstr p, doc ms) :: after)).
Proof.
  intros Hb Hdoc ms key item. cbn [put].
  assert (forall v w, find_member (before ++ (bstr p, v) :: after) (bstr p) = Some v /\
    replace_member (before ++ (bstr p, v) :: after) (bstr p) w = Some (before ++ (bstr p, w) :: after)) as H.
  { intros v w. induction before as [|[k x] before IH]; cbn [app find_member replace_member] in *.
    - by rewrite Z.eqb_refl, beq_refl.
    - destruct (_ && _); [done|]. destruct (IH Hb) as [-> ->]. done. }
  rewrite (proj1 (H (doc ms) (doc ms))). cbn [mbind option_bind]. rewrite Hdoc. destruct (add ms key item) as [ms'|]; [|done].
  cbn [fmap option_fmap option_map mbind option_bind]. by rewrite (proj2 (H (doc ms) (doc ms'))).
Qed.

Lemma copy_fields_got P path doc options fields ms :
  json_wf options -> json_small TAMGA_MAX_REASONABLE_LEN options -> hole path doc -> room fields ms.*1 = true ->
  post (copy_fields fields options path (doc ms)) (got P (doc (ms ++ picked fields options))).
Proof.
  intros Hwf Hsm Hdoc. revert ms. induction fields as [|f fields IH]; intros ms Hroom; cbn [copy_fields].
  { apply post_ret. left. cbn. by rewrite app_nil_r. }
  unfold picked. cbn [omap list_omap]. fold (picked fields options).
  pose proof (room_add f fields ms) as Hadd. cbn [room] in Hroom.
  destruct (tamga_json_object_get (Some options) (Some (bstr f))) as [v|] eqn:Ev; cbn [fmap option_fmap option_map].
  2:{ rewrite !andb_true_iff in Hroom. apply IH. tauto. }
  assert (exists k, member options k = Some v) as [k Hk].
  { by exists (bstr f). }
  assert (post (tamga_json_clone v) (got P v)) as Hclone.
  { eapply post_mono; [apply clone_ample_post; [by eapply member_wf|by eapply member_small]|].
    intros r [->|[-> Hn]]; [by left|right]. tauto. }
  eapply got_bind; [exact Hclone| |intros Hn; apply post_ret; by right].
  eapply got_bind; [apply set_below_got; by rewrite Hdoc, Hadd| |intros Hn; apply post_ret; by right].
  rewrite (cons_middle _ ms (picked fields options)), app_assoc. apply IH. rewrite !andb_true_iff in Hroom. rewrite fmap_app. tauto.
Qed.

Lemma copy_optional_got P path doc options fields ms :
  (forall o, options = Some o -> json_wf o /\ json_small TAMGA_MAX_REASONABLE_LEN o) -> hole path doc -> room fields ms.*1 = true ->
  post (copy_optional_fields fields options path (doc ms))
    (got P (doc (ms ++ from_option (picked fields) [] options))).
Proof.
  intros Ho Hdoc Hroom. destruct options as [o|]; cbn [copy_optional_fields from_option].
  - destruct (Ho o eq_refl). by apply copy_fields_got.
  - apply post_ret. left. by rewrite app_nil_r.
Qed.
End Fill.

(** ** The documents *)

Definition text (l : bytes) : json := JString (c_view l).

Definition validate_key_doc (license_key : bytes) : json := JObject [(bstr "key", text license_key)].

Definition validate_doc (scope : option json) (skip_touch : bool) : json :=
  JObject [(bstr "meta", JObject ((bstr "skip_touch", JBool skip_touch) :: from_option (fun s => [(bstr "scope", s)]) [] scope))].

Definition checkout_doc (encrypt : bool) (ttl_seconds : Z) : json :=
  JObject [(bstr "meta", JObject [(bstr "encrypt", JBool encrypt); (bstr "ttl", if ttl_seconds >? 0 then JInt ttl_seconds else JNull)])].

Definition create_machine_doc (fingerprint canonical : bytes) (options : option json) : json :=
  JObject [(bstr "data", JObject
    [(bstr "type", JString (bstr "machines"));
     (bstr "attributes", JObject ((bstr "fingerprint", text fingerprint) :: from_option (picked machine_fields) [] options));
     (bstr "relationships", JObject
       [(bstr "license", JObject
         [(bstr "data", JObject [(bstr "type", JString (bstr "licenses")); (bstr "id", JString canonical)])])])])].

Definition update_machine_doc (attributes : option json) : json :=
  JObject [(bstr "data", JObject
    [(bstr "type", JString (bstr "machines")); (bstr "attributes", JObject (from_option (picked machine_fields) [] attributes))])].

Definition proof_doc (dataset : json) : json := JObject [(bstr "meta", JObject [(bstr "dataset", dataset)])].

Definition component_doc (canonical fingerprint name : bytes) (metadata : json) : json :=
  JObject [(bstr "machine_id", JString canonical); (bstr "fingerprint", text fingerprint); (bstr "name", text name); (bstr "metadata", metadata)].

Definition process_doc (canonical pid : bytes) (metadata : json) : json :=
  JObject [(bstr "machine_id", JString canonical); (bstr "pid", text pid); (bstr "metadata", metadata)].

Definition usage_doc (field_name : string) (amount : Z) : json := JObject [(bstr field_name, JInt amount)].

Section Documents.
Context {malloc : Malloc}.
Variable P : Prop.
Abbreviation fits l := (zlen (c_view l) <= TAMGA_MAX_REASONABLE_LEN).

(** An empty object that the construction starts from. *)
#[local] Ltac start := apply (got_bind P _ (JObject [])); [apply new_object_got| |intros ?].
#[local] Ltac abandon := repeat first [ apply post_ret; by right
  | eapply (got_bind P _ (JObject [])); [apply new_object_got| |intros _] ].
#[local] Ltac attach path key :=
  eapply (try_got P); [first [eapply (add_got P _ key); reflexivity | eapply (set_below_got P path _ key); reflexivity]|].

Lemma validate_key_tree_got license_key :
  (P -> fits license_key) -> post (validate_key_tree license_key) (got P (validate_key_doc license_key)).
Proof.
  intros Hl. unfold validate_key_tree. start; [|abandon]. apply (last_leaf_got P [] "key" _ (text license_key)); [by apply new_text_got|reflexivity].
Qed.

Lemma validate_tree_got scope skip_touch : post (validate_tree scope skip_touch) (got P (validate_doc scope skip_touch)).
Proof.
  unfold validate_tree. start; [|abandon]. start; [|abandon]. attach (@nil string) "meta"%string.
  eapply (leaf_got P ["meta"%string] "skip_touch"); [apply new_got|reflexivity|].
  destruct scope as [scope|]; [|apply post_ret; by left]. by apply set_below_got.
Qed.

Lemma checkout_tree_got encrypt ttl_seconds : post (checkout_tree encrypt ttl_seconds) (got P (checkout_doc encrypt ttl_seconds)).
Proof.
  unfold checkout_tree, checkout_doc. start; [|abandon]. start; [|abandon]. attach (@nil string) "meta"%string.
  eapply (leaf_got P ["meta"%string] "encrypt"); [apply new_got|reflexivity|].
  destruct (ttl_seconds >? 0); (eapply (last_leaf_got P ["meta"%string] "ttl"); [apply new_got|reflexivity]).
Qed.

Lemma proof_tree_got dataset : post (proof_tree_body (Some dataset)) (got P (proof_doc dataset)).
Proof.
  unfold proof_tree_body. start; [|abandon]. start; [|abandon]. attach (@nil string) "meta"%string. by apply set_below_got.
Qed.

Lemma component_tree_got canonical fingerprint name metadata :
  zlen canonical <= TAMGA_MAX_REASONABLE_LEN -> (P -> fits fingerprint) -> (P -> fits name) ->
  post (component_tree canonical fingerprint name (Some metadata)) (got P (component_doc canonical fingerprint name metadata)).
Proof.
  intros Hc Hf Hn. unfold component_tree. start; [|abandon].
  eapply (field_got P "machine_id"); [by apply new_string_got|reflexivity|].
  eapply (field_got P "fingerprint"); [by apply new_text_got|reflexivity|].
  eapply (field_got P "name"); [by apply new_text_got|reflexivity|]. by apply (add_got P _ "metadata").
Qed.

Lemma process_tree_got canonical pid metadata :
  zlen canonical <= TAMGA_MAX_REASONABLE_LEN -> (P -> fits pid) ->
  post (process_tree canonical pid (Some metadata)) (got P (process_doc canonical pid metadata)).
Proof.
  intros Hc Hp. unfold process_tree. start; [|abandon].
  eapply (field_got P "machine_id"); [by apply new_string_got|reflexivity|].
  eapply (field_got P "pid"); [by apply new_text_got|reflexivity|]. by apply (add_got P _ "metadata").
Qed.

Lemma update_machine_tree_got attributes :
  (forall o, attributes = Some o -> json_wf o /\ json_small TAMGA_MAX_REASONABLE_LEN o) ->
  post (update_machine_tree attributes) (got P (update_machine_doc attributes)).
Proof.
  intros Ho. unfold update_machine_tree. start; [|abandon]. start; [|abandon]. start; [|abandon]. attach (@nil string) "data"%string.
  eapply (leaf_got P ["data"%string] "type"); [by apply new_string_got|reflexivity|]. attach ["data"%string] "attributes"%string.
  apply (copy_optional_got P _ (fun ms => JObject [(bstr "data", JObject [(bstr "type", JString (bstr "machines")); (bstr "attributes", JObject ms)])]) _ _ []);
    [done| |reflexivity].
  apply (hole_below "data" _ (fun ms => JObject [_; (bstr "attributes", JObject ms)]) [] []); [done|].
  apply (hole_below "attributes" [] (fun ms => JObject ms) [_] []); [done|apply hole_here].
Qed.

Lemma create_machine_tree_got fingerprint canonical options :
  (forall o, options = Some o -> json_wf o /\ json_small TAMGA_MAX_REASONABLE_LEN o) ->
  zlen canonical <= TAMGA_MAX_REASONABLE_LEN -> (P -> fits fingerprint) ->
  post (create_machine_tree fingerprint canonical options) (got P (create_machine_doc fingerprint canonical options)).
Proof.
  intros Ho Hc Hf. unfold create_machine_tree. do 6 (start; [|abandon]). attach (@nil string) "data"%string.
  eapply (leaf_got P ["data"%string] "type"); [by apply new_string_got|reflexivity|]. attach ["data"%string] "attributes"%string.
  attach ["data"%string] "relationships"%string. attach ["data"%string; "relationships"%string] "license"%string.
  attach ["data"%string; "relationships"%string; "license"%string] "data"%string.
  eapply (leaf_got P ["data"%string; "attributes"%string] "fingerprint"); [by apply new_text_got|reflexivity|].
  eapply (try_got P).
  { apply (copy_optional_got P _ (fun ms => JObject [(bstr "data", JObject [(bstr "type", JString (bstr "machines")); (bstr "attributes", JObject ms);
      (bstr "relationships", JObject [(bstr "license", JObject [(bstr "data", JObject [])])])])]) _ _ [(bstr "fingerprint", text fingerprint)]);
      [done| |reflexivity].
    apply (hole_below "data" _ (fun ms => JObject [_; (bstr "attributes", JObject ms); _]) [] []); [done|].
    apply (hole_below "attributes" [] (fun ms => JObject ms) [_] [_]); [done|apply hole_here]. }
  eapply (leaf_got P ["data"%string; "relationships"%string; "license"%string; "data"%string] "type"); [by apply new_string_got|reflexivity|].
  eapply (last_leaf_got P ["data"%string; "relationships"%string; "license"%string; "data"%string] "id"); [by apply new_string_got|reflexivity].
Qed.
End Documents.

(** ** Their strings are byte strings *)

Lemma bstr_bytes s : bytes_ok (bstr s).
Proof.
  induction s as [|a s IH]; cbn [bstr]; [constructor|]. constructor; [|exact IH]. unfold byte_of_ascii, is_byte.
  pose proof (Ascii.N_ascii_bounded a). lia.
Qed.

Lemma object_bytes ms : Forall (fun m => bytes_ok m.1 /\ json_bytes m.2) ms -> json_bytes (JObject ms).
Proof. apply jb_object. Qed.

Lemma field_bytes key item ms :
  json_bytes item -> Forall (fun m => bytes_ok m.1 /\ json_bytes m.2) ms ->
  Forall (fun m => bytes_ok m.1 /\ json_bytes m.2) ((bstr key, item) :: ms).
Proof. intros Hi Hms. constructor; [|exact Hms]. split; [apply bstr_bytes|exact Hi]. Qed.

Lemma text_bytes l : bytes_ok l -> json_bytes (text l).
Proof. intros H. apply jb_leaf. by apply c_view_bytes. Qed.

Lemma string_bytes l : bytes_ok l -> json_bytes (JString l).
Proof. intros H. by apply jb_leaf. Qed.

Lemma picked_bytes fields options : json_bytes options -> Forall (fun m => bytes_ok m.1 /\ json_bytes m.2) (picked fields options).
Proof.
  intros Ho. induction fields as [|f fields IH]; [constructor|]. unfold picked. cbn [omap list_omap]. fold (picked fields options).
  destruct (tamga_json_object_get (Some options) (Some (bstr f))) as [v|] eqn:E; cbn [fmap option_fmap option_map]; [|exact IH].
  apply field_bytes; [|exact IH]. destruct options; try done. cbn [tamga_json_object_get] in E.
  inversion_clear Ho as [? Hf| |? Hms]; [done|]. clear IH. induction Hms as [|[k x] ms [_ Hx] _ IH]; cbn [find_member] in E; [done|].
  destruct (_ && _); [by simplify_eq|by apply IH].
Qed.

Lemma optional_bytes fields options :
  (forall o, options = Some o -> json_bytes o) -> Forall (fun m => bytes_ok m.1 /\ json_bytes m.2) (from_option (picked fields) [] options).
Proof. intros H. destruct options as [o|]; [|constructor]. by apply picked_bytes, H. Qed.

Create HintDb doc_bytes discriminated.
#[export] Hint Resolve object_bytes field_bytes text_bytes string_bytes optional_bytes bstr_bytes : doc_bytes.
#[export] Hint Constructors Forall : doc_bytes.
#[export] Hint Extern 1 (json_bytes (JBool _)) => apply jb_leaf; exact I : doc_bytes.
#[export] Hint Extern 1 (json_bytes (JInt _)) => apply jb_leaf; exact I : doc_bytes.
#[export] Hint Extern 1 (json_bytes JNull) => apply jb_leaf; exact I : doc_bytes.

(** ** Texts *)

(** Query parameters, separated. *)
Fixpoint amp_join (items : list bytes) : bytes :=
  match items with
  | [] => []
  | x :: items' => match items' with [] => x | _ => x ++ 38 :: amp_join items' end
  end.

Definition parameter (name : string) (value : bytes) : bytes := bstr name ++ 61 :: url_text value.

Definition path_of (prefix : string) (canonical : bytes) (suffix : option string) : bytes :=
  bstr prefix ++ canonical ++ from_option bstr [] suffix.

Lemma amp_join_snoc items x : items <> [] -> amp_join (items ++ [x]) = amp_join items ++ 38 :: x.
Proof.
  induction items as [|y items IH]; [done|]. intros _. destruct items as [|z items]; [done|]. cbn [app amp_join] in *.
  rewrite IH by done. by rewrite <- app_assoc.
Qed.

Lemma amp_join_no_nul items : Forall (fun l => ~ In 0 l) items -> ~ In 0 (amp_join items).
Proof.
  induction 1 as [|x items Hx _ IH]; [by intros []|]. cbn [amp_join]. destruct items; [done|]. apply app_no_nul; [done|]. by intros [?|?].
Qed.

Definition plain (s : string) : bool := forallb (fun c => negb (c =? 0)) (bstr s).

Lemma plain_no_nul s : plain s = true -> ~ In 0 (bstr s).
Proof. intros H Hi. by apply (proj1 (forallb_forall _ _) H) in Hi. Qed.

Lemma plain_view s : plain s = true -> c_view (bstr s) = bstr s.
Proof. intros H. by apply c_view_id, plain_no_nul. Qed.

Lemma fmt_dec_no_nul z : ~ In 0 (fmt_dec z).
Proof. rewrite fmt_dec_num. apply num_text_no_nul, int_num_ok. Qed.

Lemma parameter_no_nul name value : plain name = true -> bytes_ok value -> ~ In 0 (parameter name value).
Proof. intros Hn Hv. apply app_no_nul; [by apply plain_no_nul|]. intros [?|?]; [done|]. by apply url_text_no_nul in Hv. Qed.

Lemma url_text_length value : zlen (url_text value) <= 3 * zlen (c_view value).
Proof.
  unfold url_text. induction (c_view value) as [|c l IH]; [done|]. cbn [map concat length]. rewrite length_app.
  assert (length (url_char c) <= 3)%nat by (unfold url_char; destruct (unreserved c); cbn [length]; lia). lia.
Qed.

Section Texts.
Context {malloc : Malloc}.
Variable P : Prop.

(** The value comes out, or memory was short although the call fits. *)
Definition fetched {A} (a : A) (r : option A) : Prop := r = Some a \/ (r = None /\ ~ (plenty /\ P)).

Lemma got_fetched {A} (Q : Prop) (a : A) r : (P -> Q) -> got Q a r -> fetched a r.
Proof. intros HPQ [->|[-> Hn]]; [by left|right]. split; [done|]. intros [Hp HP]. apply Hn. split; [by apply plenty_ample|by apply HPQ]. Qed.

Lemma text_fetched l r : (P -> zlen l <= 2 ^ 60) -> text_or_oom l r -> fetched l r.
Proof. intros HP [->|[-> Hn]]; [by left|right]. split; [done|]. intros [? ?]. apply Hn. auto. Qed.

Lemma path_fetched prefix id canonical suffix :
  uuid_of id = Some canonical -> plain prefix = true -> (forall s, suffix = Some s -> plain s = true) ->
  zlen (bstr prefix) + zlen (from_option bstr [] suffix) <= 1000 ->
  post (tamga_path prefix id suffix) (fetched (path_of prefix canonical suffix)).
Proof.
  intros Hid Hp Hs Hlen. destruct id as [i|]; [|done]. change (tamga_uuid_normalize (Some (c_view i)) = Some canonical) in Hid. unfold tamga_path.
  pose proof (uuid_normalize_chars _ _ Hid) as [_ Hl]. pose proof (uuid_normalize_no_nul _ _ Hid) as Hz.
  pose proof init_text as H0. text_step b1 H1. rewrite Hid. text_step b2 H2. cbn [app] in H2. rewrite plain_view, (c_view_id canonical), <- ?app_assoc in H2 by done.
  eapply post_mono; [|intros r; apply (text_fetched (path_of prefix canonical suffix)); intros _; unfold path_of; rewrite !length_app; lia].
  eapply (post_bind _ _ (fun b => buf_text b (path_of prefix canonical suffix))).
  - unfold path_of. destruct suffix as [s|]; cbn [from_option]; [|rewrite app_nil_r; by apply post_ret].
    eapply post_mono; [apply append_str_text; exact H2|]. cbv beta. intros b Hb. by rewrite plain_view, <- app_assoc in Hb by auto.
  - intros b Hb. apply detach_text_ok; [exact Hb|]. unfold path_of. apply app_no_nul; [by apply plain_no_nul|].
    apply app_no_nul; [done|]. destruct suffix as [s|]; [by apply plain_no_nul, Hs|by intros []].
Qed.

(** ** Queries *)

Definition query_has (items : list bytes) (q : query) : Prop :=
  let '(built, buf, first) := q in
  if built : bool then buf_text buf (amp_join items) /\ first = bool_decide (items = []) else ~ (plenty /\ P).

Lemma query_start : query_has [] (true, tamga_buf_init, true).
Proof. split; [apply init_text|done]. Qed.

(** The separator before the next parameter. *)
Lemma separator_text buf items :
  buf_text buf (amp_join items) ->
  post (if bool_decide (items = []) then ret buf else tamga_buf_append_byte buf 38)
    (fun b => forall x c, (buf_text c (match items with [] => x | _ => amp_join items ++ 38 :: x end) <-> buf_text c (amp_join (items ++ [x]))) /\
      buf_text b (match items with [] => [] | _ => amp_join items ++ [38] end)).
Proof.
  intros Hb. destruct items as [|y items].
  - apply post_ret. by intros x c.
  - rewrite bool_decide_false by done. eapply post_mono; [apply append_byte_text; exact Hb|]. cbv beta. intros b H x c.
    split; [|exact H]. by rewrite amp_join_snoc.
Qed.

Lemma query_add_post items buf first name value :
  query_has items (true, buf, first) -> plain name = true -> bytes_ok value -> (P -> zlen (c_view value) <= TAMGA_MAX_REASONABLE_LEN) ->
  post (tamga_query_add buf first name value) (query_has (items ++ [parameter name value])).
Proof.
  intros [Hb ->] Hn Hv Hl. unfold tamga_query_add. eapply post_bind; [by apply url_encode_post|]. intros enc He.
  pose proof (url_text_length value) as Hlen. unfold TAMGA_MAX_REASONABLE_LEN in Hl. destruct He as [->|[-> Hno]].
  2:{ apply post_ret. cbn [query_has]. intros [Hp HP]. apply Hno. split; [done|]. specialize (Hl HP). lia. }
  eapply post_bind; [apply separator_text; exact Hb|]. intros b1 H1.
  destruct (H1 (parameter name value) b1) as [_ Hb1]. text_step b2 H2. text_step b3 H3. text_step b4 H4. apply post_ret. split.
  - destruct (H1 (parameter name value) b4) as [<- _]. rewrite plain_view, (c_view_id (url_text value)) in H4 by (done || by apply url_text_no_nul).
    destruct items; rewrite <- ?app_assoc in H4; exact H4.
  - symmetry. apply bool_decide_eq_false. by destruct items.
Qed.

Lemma query_opt_post items q name value :
  query_has items q -> plain name = true -> (forall v, value = Some v -> bytes_ok v /\ (P -> zlen (c_view v) <= TAMGA_MAX_REASONABLE_LEN)) ->
  post (query_add_opt q name value) (query_has (items ++ from_option (fun v => [parameter name v]) [] value)).
Proof.
  intros Hq Hn Hv. destruct q as [[built buf] first]. unfold query_add_opt. destruct value as [v|]; cbn [from_option].
  - destruct built; [|by apply post_ret]. destruct (Hv v eq_refl). by apply query_add_post.
  - rewrite app_nil_r. destruct built; by apply post_ret.
Qed.

(** A parameter that needs no encoding. *)
Lemma query_literal_post items buf first (l : bytes) :
  query_has items (true, buf, first) ->
  post (let! buf := if first then ret buf else tamga_buf_append_byte buf 38 in
        let! buf := tamga_buf_append_fmt buf (Some l) in ret (buf, false))
    (fun '(buf, first) => query_has (items ++ [l]) (true, buf, first)).
Proof.
  intros [Hb ->]. eapply post_bind; [apply separator_text; exact Hb|]. intros b1 H1. destruct (H1 l b1) as [_ Hb1]. text_step b2 H2. apply post_ret. split.
  - destruct (H1 l b2) as [<- _]. destruct items; rewrite <- ?app_assoc in H2; exact H2.
  - symmetry. apply bool_decide_eq_false. by destruct items.
Qed.

Lemma finish_query_post items q :
  query_has items q -> Forall (fun l => ~ In 0 l) items -> (P -> zlen (amp_join items) <= 2 ^ 60) ->
  post (finish_query q) (fetched (amp_join items)).
Proof.
  intros Hq Hz Hl. destruct q as [[[|] buf] first]; unfold finish_query.
  - destruct Hq as [Hb _]. eapply post_bind; [apply detach_text_ok; [exact Hb|by apply amp_join_no_nul]|]. intros r Hr. apply post_ret. by apply text_fetched.
  - eapply (post_bind _ _ (fun _ => True)); [by intros s|]. intros r _. apply post_ret. by right.
Qed.
End Texts.
