(* ===== verification/EndpointSpec.v ===== *)
(** * What each endpoint asks of the server

    Every single-request endpoint against a table of the API: the error code it
    is refused with, or the one call it makes (method, path, query, document,
    headers), as a function of the arguments. *)

From Stdlib Require Import String.
From S2P Require Import Prelude World Buf Hex Json JsonParse JsonGrammar JsonWrite JsonPrint JsonDouble JsonRoundtrip JsonSmall Status JsonBuild Cert Validation MachineFile Transport Response Client ClientText ClientSpec Endpoints EndpointBody.
From stdpp Require Import list.
#[local] Open Scope Z_scope.

(** ** The table *)

Record api_call := mk_call {
  call_scope : TamgaPathScope;
  call_method : string;
  call_path : bytes;
  call_query : option bytes;
  call_body : option json;
  call_otp : option bytes;
  call_json_api : bool;
}.

Definition sbind {A B} (m : TamgaErrorCode + A) (f : A -> TamgaErrorCode + B) : TamgaErrorCode + B :=
  match m with inl code => inl code | inr a => f a end.

Notation "'need!' x ':=' m 'in' k" := (sbind m (fun x => k))
  (at level 10, x pattern, m at level 100, k at level 200) : tamga_scope.

Definition present {A} (o : option A) : TamgaErrorCode + A :=
  match o with Some a => inr a | None => inl TAMGA_ERR_NULL_ARGUMENT end.

(** The object a text denotes, if one is given. *)
Definition object_of (text : option bytes) : TamgaErrorCode + option json :=
  match text with
  | None => inr None
  | Some t => match json_of (c_view t) with Some (JObject ms) => inr (Some (JObject ms)) | _ => inl TAMGA_ERR_INVALID_JSON end
  end.

Definition get (path : bytes) (query : option bytes) : TamgaErrorCode + api_call :=
  inr (mk_call TAMGA_PATH_ACCOUNT "GET" path query None None false).
Definition post_body (method : string) (path : bytes) (body : option json) (otp : option bytes) : TamgaErrorCode + api_call :=
  inr (mk_call TAMGA_PATH_ACCOUNT method path None body otp true).

Definition by_id (method prefix : string) (id : option bytes) (suffix : option string) (otp : option bytes) (json_api : bool)
  : TamgaErrorCode + api_call :=
  need! i := present (uuid_of id) in
  inr (mk_call TAMGA_PATH_ACCOUNT method (path_of prefix i suffix) None None otp json_api).

Definition page_items (limit : Z) (after : option bytes) : list bytes :=
  (if limit >? 0 then [bstr "limit=" ++ fmt_dec limit] else []) ++ from_option (fun a => [bstr "page%5Bafter%5D=" ++ a]) [] after.

Definition keyset (prefix : string) (id : option bytes) (suffix : string) (limit : Z) (after : option bytes) : TamgaErrorCode + api_call :=
  need! i := present (uuid_of id) in
  need! a := present (opt_uuid after) in
  get (path_of prefix i (Some suffix)) (Some (amp_join (page_items limit a))).

Definition checkout_items (encrypt : bool) (ttl : Z) : list bytes :=
  (if encrypt then bstr "encrypt=true" else bstr "encrypt=false") :: (if ttl >? 0 then [bstr "ttl=" ++ fmt_dec ttl] else []).

Definition checkout_call (prefix : string) (id : option bytes) (encrypt : bool) (ttl : Z) (raw : bool) : TamgaErrorCode + api_call :=
  need! i := present (uuid_of id) in
  if (ttl >? 0) && negb (tamga_machine_file_ttl_is_valid ttl) then inl TAMGA_ERR_TTL_INVALID
  else
    let path := path_of prefix i (Some "/actions/check-out"%string) in
    if raw then get path (Some (amp_join (checkout_items encrypt ttl)))
    else post_body "POST" path (Some (checkout_doc encrypt ttl)) None.

Definition entitlement_path (l e : bytes) (action : option string) : bytes :=
  bstr "/licenses/" ++ l ++ bstr "/entitlements/" ++ e ++ from_option (fun a => bstr "/actions/" ++ bstr a) [] action.

(** The endpoints that make one request, with their arguments. *)
Inductive endpoint :=
| ValidateByKey (license_key otp : option bytes)
| ValidateById (license_id scope_json : option bytes) (skip_touch : bool) (otp : option bytes)
| QuickValidate (license_id otp : option bytes)
| CheckIn (license_id : option bytes)
| GetLicense (license_id : option bytes)
| GetLicensePolicy (license_id : option bytes)
| GetPolicy (policy_id : option bytes)
| CheckOutLicense (license_id : option bytes) (encrypt : bool) (ttl : Z)
| CheckOutLicenseJson (license_id : option bytes) (encrypt : bool) (ttl : Z)
| CheckOutMachine (machine_id : option bytes) (encrypt : bool) (ttl : Z)
| CheckOutMachineJson (machine_id : option bytes) (encrypt : bool) (ttl : Z)
| CreateMachine (license_id fingerprint options_json : option bytes)
| DeleteMachine (machine_id : option bytes)
| GetMachine (machine_id : option bytes)
| UpdateMachine (machine_id attributes_json : option bytes)
| ListMachines (license_id search : option bytes) (page_number page_size : Z)
| PingHeartbeat (machine_id : option bytes)
| ResetHeartbeat (machine_id : option bytes)
| GenerateOfflineProof (machine_id dataset_json : option bytes)
| CreateComponent (machine_id fingerprint name metadata_json : option bytes)
| ListComponents (machine_id : option bytes) (limit : Z) (after : option bytes)
| ListProcesses (machine_id : option bytes) (limit : Z) (after : option bytes)
| CreateProcess (machine_id pid metadata_json : option bytes)
| PingProcess (process_id : option bytes)
| DeleteProcess (process_id : option bytes)
| ListEntitlements (license_id : option bytes) (limit : Z) (after : option bytes)
| GetEntitlement (license_id entitlement_id : option bytes)
| IncrementUsage (license_id entitlement_id : option bytes) (amount : Z)
| DecrementUsage (license_id entitlement_id : option bytes) (amount : Z)
| ResetUsage (license_id entitlement_id : option bytes)
| ListSigningKeys
| CheckUpgrade (product_id platform filetype version channel constraint : option bytes)
| ListReleaseArtifacts (release_id : option bytes) (limit : Z) (after : option bytes)
| GetArtifact (artifact_id : option bytes)
| GetArtifactDownloadUrl (artifact_id : option bytes) (ttl : Z)
| Health.

Definition usage_call (license_id entitlement_id : option bytes) (action : string) (amount : Z) : TamgaErrorCode + api_call :=
  need! l := present (uuid_of license_id) in
  need! e := present (uuid_of entitlement_id) in
  post_body "POST" (entitlement_path l e (Some action)) (if amount >? 0 then Some (usage_doc action amount) else None) None.

Definition list_items (license : option bytes) (search : option bytes) (page_number page_size : Z) : list bytes :=
  (if page_number >? 0 then [bstr "page%5Bnumber%5D=" ++ fmt_dec page_number] else []) ++
  (if page_size >? 0 then [bstr "page%5Bsize%5D=" ++ fmt_dec page_size] else []) ++
  from_option (fun l => [parameter "filter%5Blicense%5D" l]) [] license ++
  from_option (fun s => [parameter "filter%5Bq%5D" s]) [] search.

Definition upgrade_items (product platform filetype version : bytes) (channel constraint : option bytes) : list bytes :=
  [parameter "product" product; parameter "platform" platform; parameter "filetype" filetype; parameter "version" version] ++
  from_option (fun v => [parameter "channel" v]) [] channel ++ from_option (fun v => [parameter "constraint" v]) [] constraint.

Definition download_items (ttl : Z) : list bytes :=
  bstr "redirect=false" :: (if negb (ttl =? 0) then [bstr "ttl=" ++ fmt_dec ttl] else []).

Definition endpoint_call (e : endpoint) : TamgaErrorCode + api_call :=
  match e with
  | ValidateByKey key otp =>
      need! k := present key in post_body "POST" (bstr "/licenses/actions/validate-key") (Some (validate_key_doc k)) otp
  | ValidateById id scope skip_touch otp =>
      need! i := present (uuid_of id) in
      need! s := object_of scope in
      post_body "POST" (path_of "/licenses/" i (Some "/actions/validate"%string)) (Some (validate_doc s skip_touch)) otp
  | QuickValidate id otp => by_id "GET" "/licenses/" id (Some "/actions/validate"%string) otp false
  | CheckIn id => by_id "POST" "/licenses/" id (Some "/actions/check-in"%string) None true
  | GetLicense id => by_id "GET" "/licenses/" id None None false
  | GetLicensePolicy id => by_id "GET" "/licenses/" id (Some "/policy"%string) None false
  | GetPolicy id => by_id "GET" "/policies/" id None None false
  | CheckOutLicense id encrypt ttl => checkout_call "/licenses/" id encrypt ttl true
  | CheckOutLicenseJson id encrypt ttl => checkout_call "/licenses/" id encrypt ttl false
  | CheckOutMachine id encrypt ttl => checkout_call "/machines/" id encrypt ttl true
  | CheckOutMachineJson id encrypt ttl => checkout_call "/machines/" id encrypt ttl false
  | CreateMachine id fingerprint options =>
      need! f := present fingerprint in
      need! i := present (uuid_of id) in
      need! o := object_of options in
      post_body "POST" (bstr "/machines") (Some (create_machine_doc f i o)) None
  | DeleteMachine id => by_id "DELETE" "/machines/" id None None false
  | GetMachine id => by_id "GET" "/machines/" id None None false
  | UpdateMachine id attributes =>
      need! _ := present attributes in
      need! i := present (uuid_of id) in
      need! a := object_of attributes in
      post_body "PATCH" (path_of "/machines/" i None) (Some (update_machine_doc a)) None
  | ListMachines license search page_number page_size =>
      need! l := present (opt_uuid license) in
      get (bstr "/machines") (Some (amp_join (list_items l search page_number page_size)))
  | PingHeartbeat id => by_id "POST" "/machines/" id (Some "/actions/ping-heartbeat"%string) None true
  | ResetHeartbeat id => by_id "POST" "/machines/" id (Some "/actions/reset-heartbeat"%string) None true
  | GenerateOfflineProof id dataset =>
      need! i := present (uuid_of id) in
      need! d := object_of dataset in
      post_body "POST" (path_of "/machines/" i (Some "/actions/generate-offline-proof"%string)) (Some (proof_doc (default (JObject []) d))) None
  | CreateComponent id fingerprint name metadata =>
      need! f := present fingerprint in
      need! n := present name in
      need! i := present (uuid_of id) in
      need! m := object_of metadata in
      post_body "POST" (bstr "/components") (Some (component_doc i f n (default (JObject []) m))) None
  | ListComponents id limit after => keyset "/machines/" id "/components" limit after
  | ListProcesses id limit after => keyset "/machines/" id "/processes" limit after
  | CreateProcess id pid metadata =>
      need! p := present pid in
      need! i := present (uuid_of id) in
      need! m := object_of metadata in
      post_body "POST" (bstr "/processes") (Some (process_doc i p (default (JObject []) m))) None
  | PingProcess id => by_id "POST" "/processes/" id (Some "/actions/ping"%string) None true
  | DeleteProcess id => by_id "DELETE" "/processes/" id None None false
  | ListEntitlements id limit after => keyset "/licenses/" id "/entitlements" limit after
  | GetEntitlement license entitlement =>
      need! l := present (uuid_of license) in
      need! e := present (uuid_of entitlement) in
      get (entitlement_path l e None) None
  | IncrementUsage license entitlement amount => usage_call license entitlement "increment" amount
  | DecrementUsage license entitlement amount => usage_call license entitlement "decrement" amount
  | ResetUsage license entitlement => usage_call license entitlement "reset" 0
  | ListSigningKeys => get (bstr "/signing-keys") None
  | CheckUpgrade product platform filetype version channel constraint =>
      need! pl := present platform in
      need! ft := present filetype in
      need! ve := present version in
      need! p := present (uuid_of product) in
      get (bstr "/releases/actions/upgrade") (Some (amp_join (upgrade_items p pl ft ve channel constraint)))
  | ListReleaseArtifacts id limit after => keyset "/releases/" id "/artifacts" limit after
  | GetArtifact id => by_id "GET" "/artifacts/" id None None false
  | GetArtifactDownloadUrl id ttl =>
      need! i := present (uuid_of id) in
      if negb (ttl =? 0) && ((ttl <? TAMGA_PRESIGN_TTL_MIN_SECONDS) || (ttl >? TAMGA_PRESIGN_TTL_MAX_SECONDS)) then inl TAMGA_ERR_TTL_INVALID
      else get (path_of "/artifacts/" i (Some "/actions/download"%string))
             (Some (amp_join (download_items ttl)))
  | Health => inr (mk_call TAMGA_PATH_ORIGIN "GET" (bstr "/v1/health") None None None false)
  end.

(** The texts among the arguments. *)
Definition arguments (e : endpoint) : list (option bytes) :=
    match e with
    | ValidateByKey a b | QuickValidate a b | GetEntitlement a b | ResetUsage a b | GenerateOfflineProof a b | UpdateMachine a b => [a; b]
    | ValidateById a b _ c => [a; b; c]
    | CheckIn a | GetLicense a | GetLicensePolicy a | GetPolicy a | DeleteMachine a | GetMachine a | PingHeartbeat a | ResetHeartbeat a
    | PingProcess a | DeleteProcess a | GetArtifact a | GetArtifactDownloadUrl a _ => [a]
    | CheckOutLicense a _ _ | CheckOutLicenseJson a _ _ | CheckOutMachine a _ _ | CheckOutMachineJson a _ _ => [a]
    | CreateMachine a b c | CreateProcess a b c => [a; b; c]
    | ListMachines a b _ _ => [a; b]
    | CreateComponent a b c d => [a; b; c; d]
    | ListComponents a _ b | ListProcesses a _ b | ListEntitlements a _ b | ListReleaseArtifacts a _ b => [a; b]
    | IncrementUsage a b _ | DecrementUsage a b _ => [a; b]
    | CheckUpgrade a b c d e f => [a; b; c; d; e; f]
    | ListSigningKeys | Health => []
    end.

Definition texts (e : endpoint) : list bytes := omap id (arguments e).

(** The call is within the limits of the library: no text over 16 MiB, no
    document whose text is, and a query that fits the address space. *)
Definition call_fits (e : endpoint) : Prop :=
  Forall (fun t => zlen (c_view t) <= TAMGA_MAX_REASONABLE_LEN) (texts e) /\
  match endpoint_call e with
  | inl _ => True
  | inr call =>
      zlen (default [] (call_query call)) <= 2 ^ 60 /\
      zlen (from_option (print false) [] (call_body call)) <= TAMGA_MAX_REASONABLE_LEN
  end.

(** ** Outcomes *)

Section Outcome.
Context {malloc : Malloc} {net : Type} {platform : Platform net}.

Definition run_endpoint (e : endpoint) (client : option (TamgaClient net)) : IO net reply :=
  match e with
  | ValidateByKey key otp => tamga_client_validate_by_key client key otp
  | ValidateById id scope skip_touch otp => tamga_client_validate_by_id client id scope skip_touch otp
  | QuickValidate id otp => tamga_client_quick_validate client id otp
  | CheckIn id => tamga_client_check_in client id
  | GetLicense id => tamga_client_get_license client id
  | GetLicensePolicy id => tamga_client_get_license_policy client id
  | GetPolicy id => tamga_client_get_policy client id
  | CheckOutLicense id encrypt ttl => tamga_client_check_out_license client id encrypt ttl
  | CheckOutLicenseJson id encrypt ttl => tamga_client_check_out_license_json client id encrypt ttl
  | CheckOutMachine id encrypt ttl => tamga_client_check_out_machine client id encrypt ttl
  | CheckOutMachineJson id encrypt ttl => tamga_client_check_out_machine_json client id encrypt ttl
  | CreateMachine id fingerprint options => tamga_client_create_machine client id fingerprint options
  | DeleteMachine id => tamga_client_delete_machine client id
  | GetMachine id => tamga_client_get_machine client id
  | UpdateMachine id attributes => tamga_client_update_machine client id attributes
  | ListMachines license search page_number page_size => tamga_client_list_machines client license search page_number page_size
  | PingHeartbeat id => tamga_client_ping_heartbeat client id
  | ResetHeartbeat id => tamga_client_reset_heartbeat client id
  | GenerateOfflineProof id dataset => tamga_client_generate_offline_proof client id dataset
  | CreateComponent id fingerprint name metadata => tamga_client_create_component client id fingerprint name metadata
  | ListComponents id limit after => tamga_client_list_components client id limit after
  | ListProcesses id limit after => tamga_client_list_machine_processes client id limit after
  | CreateProcess id pid metadata => tamga_client_create_process client id pid metadata
  | PingProcess id => tamga_client_ping_process client id
  | DeleteProcess id => tamga_client_delete_process client id
  | ListEntitlements id limit after => tamga_client_list_entitlements client id limit after
  | GetEntitlement license entitlement => tamga_client_get_entitlement client license entitlement
  | IncrementUsage license entitlement amount => tamga_client_increment_entitlement_usage client license entitlement amount
  | DecrementUsage license entitlement amount => tamga_client_decrement_entitlement_usage client license entitlement amount
  | ResetUsage license entitlement => tamga_client_reset_entitlement_usage client license entitlement
  | ListSigningKeys => tamga_client_list_signing_keys client
  | CheckUpgrade product platform filetype version channel constraint =>
      tamga_client_check_upgrade client product platform filetype version channel constraint
  | ListReleaseArtifacts id limit after => tamga_client_list_release_artifacts client id limit after
  | GetArtifact id => tamga_client_get_artifact client id
  | GetArtifactDownloadUrl id ttl => tamga_client_get_artifact_download_url client id ttl
  | Health => tamga_client_health client
  end.

Variables (c : TamgaClient net) (w0 : io net) (P : Prop).
Hypothesis Hc : client_wf c.

(** Nothing has been sent yet. *)
Definition quiet (w : io net) : Prop := io_net w = io_net w0 /\ io_trace w = io_trace w0.

(** The call is made. *)
Definition call_sent (call : api_call) (r : reply) (w' : io net) : Prop :=
  sent c (call_scope call) (bstr (call_method call)) (call_path call) (call_query call) (print false <$> call_body call) (call_otp call)
    (call_json_api call) w0 r w'.

(** What the table says happens, or memory was short for a call within the
    limits and nothing was sent. *)
Definition outcome (spec : TamgaErrorCode + api_call) (r : reply) (w' : io net) : Prop :=
  match spec with
  | inl code => r = (code, None) /\ quiet w'
  | inr call => call_sent call r w'
  end \/
  (quiet w' /\ r.2 = None /\ r.1 <> TAMGA_OK /\ ~ (plenty /\ P)).

Lemma lift_quiet {A B} (m : M A) (k : A -> IO net B) (Q : A -> Prop) w (R : B -> io net -> Prop) :
  quiet w -> post m Q -> (forall a w', Q a -> quiet w' -> io_post (k a) w' R) -> io_post (io_bind (lift m) k) w R.
Proof. intros [H1 H2] Hm Hk. apply io_post_bind. eapply io_post_lift; [exact Hm|]. intros a s _ Ha. apply Hk; [exact Ha|]. by split. Qed.

Lemma clear_outcome (k : IO net reply) w R : quiet w -> (forall w', quiet w' -> io_post k w' R) -> io_post (do! _ := lift tamga_error_clear in k) w R.
Proof. intros Hw Hk. eapply (lift_quiet _ _ (fun _ => True)); [exact Hw|by intros s|]. intros _ w' _. apply Hk. Qed.

Lemma code_outcome (m : M TamgaErrorCode) code w :
  quiet w -> post m (fun r => r = code) -> io_post (refuse m) w (outcome (inl code)).
Proof. intros Hw Hm. eapply lift_quiet; [exact Hw|exact Hm|]. intros ? w' -> Hw'. apply io_post_ret. by left. Qed.

Lemma refuse_outcome code text w : quiet w -> io_post (refuse (tamga_error_set code text)) w (outcome (inl code)).
Proof. intros Hw. apply code_outcome; [exact Hw|]. intros s. apply error_set_code. Qed.

Lemma short_outcome code text spec w :
  quiet w -> code <> TAMGA_OK -> ~ (plenty /\ P) -> io_post (refuse (tamga_error_set code text)) w (outcome spec).
Proof.
  intros Hw Hne Hn. eapply (lift_quiet _ _ (fun r => r = code)); [exact Hw|intros s; apply error_set_code|].
  intros ? w' -> Hw'. apply io_post_ret. by right.
Qed.

Lemma send_outcome scope method path query body otp json_api w :
  quiet w ->
  io_post (tamga_client_send_scoped (Some c) scope (bstr method) path query (print false <$> body) otp json_api) w
    (outcome (inr (mk_call scope method path query body otp json_api))).
Proof.
  intros [H1 H2]. eapply io_post_mono; [by apply send_sent|]. intros r w' Hs. left. unfold call_sent. cbn [call_scope call_method call_path call_query call_body call_otp call_json_api].
  unfold sent, silent in *. rewrite H1, H2 in Hs. exact Hs.
Qed.

(** A text or a tree that is fetched for the request. *)
Lemma fetch_outcome {A} (m : M (option A)) (a : A) (k : A -> IO net reply) spec w :
  quiet w -> post m (fetched P a) -> (forall w', quiet w' -> io_post (k a) w' (outcome spec)) ->
  io_post (do! x := lift m in match x with None => no_memory | Some x => k x end) w (outcome spec).
Proof.
  intros Hw Hm Hk. eapply lift_quiet; [exact Hw|exact Hm|]. intros x w' [->|[-> Hn]] Hw'; [by apply Hk|]. by apply short_outcome.
Qed.

Lemma require_outcome id what (k : IO net reply) spec w :
  quiet w -> (forall i w', uuid_of id = Some i -> quiet w' -> io_post k w' (outcome (spec i))) ->
  io_post (require (tamga_require_uuid id what) k) w (outcome (need! i := present (uuid_of id) in spec i)).
Proof.
  intros Hw Hk. unfold require.
  assert (post (tamga_require_uuid id what) (fun r => r = match uuid_of id with Some _ => TAMGA_OK | None => TAMGA_ERR_NULL_ARGUMENT end)) as Hm.
  { unfold tamga_require_uuid, uuid_of. destruct id as [i|]; [|intros s; apply error_set_code]. cbn [mbind option_bind].
    destruct (tamga_uuid_normalize (Some (c_view i))); [by apply post_ret|intros s; apply error_set_code]. }
  eapply lift_quiet; [exact Hw|exact Hm|]. intros ? w' -> Hw'. destruct (uuid_of id) as [i|] eqn:E; cbn [present sbind].
  - rewrite decide_True by done. by apply Hk.
  - rewrite decide_False by done. apply io_post_ret. by left.
Qed.

(** What an object read from the caller's text can be used for. *)
Definition object_ok (o : option json) : Prop :=
  forall j, o = Some j -> json_wf j /\ json_small TAMGA_MAX_REASONABLE_LEN j /\ json_bytes j.

Lemma object_outcome text what (k : option json -> IO net reply) spec w :
  quiet w -> bytes_ok (default [] text) ->
  (forall o w', object_of text = inr o -> object_ok o -> quiet w' -> io_post (k o) w' (outcome (spec o))) ->
  io_post (with_object text what k) w (outcome (need! o := object_of text in spec o)).
Proof.
  intros Hw Hok Hk. unfold with_object.
  assert (post (tamga_parse_optional_object text what) (fun '(status, o) =>
    (status = TAMGA_OK /\ object_of text = inr o /\ object_ok o) \/
    (status <> TAMGA_OK /\ object_of text = inl status) \/ (status <> TAMGA_OK /\ ~ plenty))) as Hm.
  { unfold tamga_parse_optional_object, object_of, object_ok. destruct text as [t|]; [|apply post_ret; by left].
    cbn in Hok. apply c_view_bytes in Hok. eapply post_bind; [by apply parse_post|]. intros [j|e] He.
    - destruct (json_of_small _ _ Hok He) as [Hs Hwf]. rewrite He. apply json_of_iff in He; [|done]. apply jtext_bytes in He.
      case_bool_decide as Hty.
      + apply post_ret. left. destruct j; try discriminate Hty. split_and!; [done|done|]. by intros j [= <-].
      + eapply (post_bind _ _ (fun r => r = TAMGA_ERR_INVALID_JSON)); [intros s; apply error_set_code|]. intros ? ->. apply post_ret. right. left.
        split; [done|]. by destruct j.
    - destruct (tamga_json_error_is_out_of_memory (Some e)) eqn:Ee.
      + eapply (post_bind _ _ (fun r => r = TAMGA_ERR_OUT_OF_MEMORY)); [intros s; apply error_set_code|]. intros ? ->. apply post_ret. right. right.
        split; [done|]. intros Hp%plenty_ample. destruct (He Hp). done.
      + eapply (post_bind _ _ (fun r => r = TAMGA_ERR_INVALID_JSON)); [intros s; apply error_set_code|]. intros ? ->. apply post_ret. right.
        destruct (json_of (c_view t)) as [j|] eqn:Ej; [right|left; done]. split; [done|]. intros Hp%plenty_ample. by destruct (He Hp). }
  eapply lift_quiet; [exact Hw|exact Hm|]. intros [status o] w' [(-> & Ho & Hoo)|[[Hne Ho]|[Hne Hn]]] Hw'.
  - rewrite decide_True by done. rewrite Ho. cbn [sbind]. by apply Hk.
  - rewrite decide_False by done. rewrite Ho. apply io_post_ret. by left.
  - rewrite decide_False by done. apply io_post_ret. right. split_and!; [done|done|done|]. tauto.
Qed.

(** A document, its text, and the request that carries it. *)
Lemma tree_outcome method path tree doc otp w :
  quiet w -> post tree (got P doc) -> json_bytes doc -> (P -> zlen (print false doc) <= TAMGA_MAX_REASONABLE_LEN) ->
  io_post (send_tree c (bstr method) path tree otp) w (outcome (post_body method path (Some doc) otp)).
Proof.
  intros Hw Ht Hb Hl. apply (fetch_outcome _ doc); [exact Hw|eapply post_mono; [exact Ht|intros r; by apply got_fetched]|].
  intros w1 H1. apply (fetch_outcome _ (print false doc)); [exact H1|eapply post_mono; [by apply write_got|intros r; by apply got_fetched]|].
  intros w2 H2. by apply (send_outcome _ _ _ _ (Some doc)).
Qed.

Lemma tree_at_outcome method (m : M (option bytes)) path tree doc otp w :
  quiet w -> post tree (got P doc) -> post m (fetched P path) -> json_bytes doc -> (P -> zlen (print false doc) <= TAMGA_MAX_REASONABLE_LEN) ->
  io_post (send_tree_at c (bstr method) m tree otp) w (outcome (post_body method path (Some doc) otp)).
Proof.
  intros Hw Ht Hm Hb Hl. apply (fetch_outcome _ doc); [exact Hw|eapply post_mono; [exact Ht|intros r; by apply got_fetched]|]. intros w1 H1.
  eapply lift_quiet; [exact H1|eapply post_mono; [by apply write_got|intros r; apply (got_fetched P); exact Hl]|]. intros text w2 Htext H2.
  eapply lift_quiet; [exact H2|exact Hm|]. intros p w3 Hp H3. destruct Htext as [->|[-> Hn]]; [|by apply short_outcome].
  destruct Hp as [->|[-> Hn]]; [|by apply short_outcome]. by apply (send_outcome _ _ _ _ (Some doc)).
Qed.
(** ** Queries *)

Lemma opt_uuid_chars id canonical i : opt_uuid id = Some canonical -> canonical = Some i -> uuid_of id = Some i.
Proof. unfold opt_uuid. destruct id; [|by intros [= <-]]. by intros (j & Hj & ->)%fmap_Some [= <-]. Qed.

Lemma uuid_of_facts id i : uuid_of id = Some i -> ~ In 0 i /\ bytes_ok i /\ zlen i <= TAMGA_MAX_REASONABLE_LEN /\ c_view i = i.
Proof.
  intros (v & -> & H)%bind_Some. pose proof (uuid_normalize_no_nul _ _ H) as Hz. split_and!; [done|by eapply uuid_normalize_bytes| |by apply c_view_id].
  apply uuid_normalize_chars in H as [_ ->]. by unfold TAMGA_MAX_REASONABLE_LEN.
Qed.

Lemma number_no_nul name z : plain name = true -> ~ In 0 (bstr name ++ fmt_dec z).
Proof. intros H. apply app_no_nul; [by apply plain_no_nul|apply fmt_dec_no_nul]. Qed.

(** A text in a buffer, once it is detached. *)
Lemma detach_fetched b l : buf_text b l -> ~ In 0 l -> (P -> zlen l <= 2 ^ 60) -> post (detach_text b) (fetched P l).
Proof. intros Hb Hz Hl. eapply post_mono; [by apply detach_text_ok|]. intros r. by apply text_fetched. Qed.

Lemma list_query_post limit id after :
  opt_uuid id = Some after -> (P -> zlen (amp_join (page_items limit after)) <= 2 ^ 60) ->
  post (list_query limit after) (fetched P (amp_join (page_items limit after))).
Proof.
  intros Ha Hl. unfold list_query. assert (Forall (fun l => ~ In 0 l) (page_items limit after)) as Hz.
  { unfold page_items. apply Forall_app. split; [destruct (limit >? 0); [constructor; [by apply number_no_nul|constructor]|constructor]|].
    destruct after as [a|]; [|constructor]. pose proof (opt_uuid_chars _ _ a Ha eq_refl) as [Hz _]%uuid_of_facts.
    constructor; [|constructor]. by apply app_no_nul; [apply plain_no_nul|]. }
  eapply (post_bind _ _ (fun b => buf_text b (amp_join (if limit >? 0 then [bstr "limit=" ++ fmt_dec limit] else [])))).
  { destruct (limit >? 0); [|apply post_ret; apply init_text]. eapply post_mono; [apply append_fmt_text, init_text|]. done. }
  intros b1 H1. eapply (post_bind _ _ (fun b => buf_text b (amp_join (page_items limit after)))).
  - unfold page_items. destruct after as [a|]; cbn [from_option]; [|rewrite app_nil_r; by apply post_ret].
    pose proof (opt_uuid_chars _ _ a Ha eq_refl) as (_ & _ & _ & Hv)%uuid_of_facts. destruct (limit >? 0); cbn [app amp_join] in *.
    + text_step b2 H2. text_step b3 H3. eapply post_mono; [apply append_str_text; exact H3|]. cbv beta. intros b H. rewrite Hv, <- !app_assoc in H.
      rewrite <- !app_assoc. exact H.
    + eapply (post_bind _ _ (fun b => buf_text b [])); [by apply post_ret|]. intros b2 H2. text_step b3 H3.
      eapply post_mono; [apply append_str_text; exact H3|]. cbv beta. intros b H. rewrite Hv in H. exact H.
  - intros b Hb. apply detach_fetched; [exact Hb|by apply amp_join_no_nul|exact Hl].
Qed.

(** One literal parameter and a number. *)
Lemma literal_query_post (head : string) (cond : bool) name z :
  plain head = true -> plain name = true ->
  let items := bstr head :: (if cond then [bstr name ++ fmt_dec z] else []) in
  (P -> zlen (amp_join items) <= 2 ^ 60) ->
  post (let! buf := tamga_buf_append_str tamga_buf_init (Some (bstr head)) in
        let! buf := if cond then tamga_buf_append_fmt buf (Some (38 :: bstr name ++ fmt_dec z)) else ret buf in
        detach_text buf) (fetched P (amp_join items)).
Proof.
  intros Hh Hn items Hl. pose proof init_text as H0. text_step b1 H1. rewrite plain_view in H1 by done. cbn [app] in H1.
  eapply (post_bind _ _ (fun b => buf_text b (amp_join items))).
  - destruct cond; [|by apply post_ret]. eapply post_mono; [apply append_fmt_text; exact H1|]. done.
  - intros b Hb. apply detach_fetched; [exact Hb| |exact Hl]. apply amp_join_no_nul. constructor; [by apply plain_no_nul|].
    destruct cond; [constructor; [by apply number_no_nul|constructor]|constructor].
Qed.

(** A value the caller gave. *)
Definition text_ok (v : bytes) : Prop := bytes_ok v /\ (P -> zlen (c_view v) <= TAMGA_MAX_REASONABLE_LEN).

Lemma parameter_items_no_nul name value :
  plain name = true -> (forall v, value = Some v -> text_ok v) -> Forall (fun l => ~ In 0 l) (from_option (fun v => [parameter name v]) [] value).
Proof. intros Hn Hv. destruct value as [v|]; [|constructor]. constructor; [|constructor]. apply parameter_no_nul; [done|by apply Hv]. Qed.

Lemma upgrade_query_post product pl filetype version channel constraint :
  text_ok product -> text_ok pl -> text_ok filetype -> text_ok version ->
  (forall v, channel = Some v -> text_ok v) -> (forall v, constraint = Some v -> text_ok v) ->
  (P -> zlen (amp_join (upgrade_items product pl filetype version channel constraint)) <= 2 ^ 60) ->
  post (upgrade_query product pl filetype version channel constraint)
    (fetched P (amp_join (upgrade_items product pl filetype version channel constraint))).
Proof.
  intros H1 H2 H3 H4 H5 H6 Hl. unfold upgrade_query.
  assert (forall v x, text_ok v -> Some v = Some x -> text_ok x) as Hsome by (intros v x Hv [= <-]; done).
  eapply post_bind; [apply (query_add_post P []); [apply query_start|done|apply H1..]|]. intros q1 Q1.
  eapply post_bind; [eapply query_opt_post; [exact Q1|done|exact (fun v => Hsome _ v H2)]|]. intros q2 Q2.
  eapply post_bind; [eapply query_opt_post; [exact Q2|done|exact (fun v => Hsome _ v H3)]|]. intros q3 Q3.
  eapply post_bind; [eapply query_opt_post; [exact Q3|done|exact (fun v => Hsome _ v H4)]|]. intros q4 Q4.
  eapply post_bind; [eapply query_opt_post; [exact Q4|done|exact H5]|]. intros q5 Q5.
  eapply post_bind; [eapply query_opt_post; [exact Q5|done|exact H6]|]. intros q6 Q6.
  eapply finish_query_post; [|  |exact Hl].
  - unfold upgrade_items. cbn [from_option app] in *. by rewrite <- ?app_assoc in *.
  - unfold upgrade_items. repeat (apply Forall_cons; split; [apply parameter_no_nul; [done|by apply H1 || by apply H2 || by apply H3 || by apply H4]|]).
    apply Forall_app; split; by apply parameter_items_no_nul.
Qed.

Lemma list_machines_query_post id license search page_number page_size :
  opt_uuid id = Some license -> (forall v, search = Some v -> text_ok v) ->
  (P -> zlen (amp_join (list_items license search page_number page_size)) <= 2 ^ 60) ->
  post (list_machines_query license search page_number page_size) (fetched P (amp_join (list_items license search page_number page_size))).
Proof.
  intros Hid Hs Hl. assert (forall v, license = Some v -> text_ok v) as Hlic.
  { intros v ->. pose proof (opt_uuid_chars _ _ v Hid eq_refl) as (_ & ? & ? & Hv)%uuid_of_facts. split; [done|]. by rewrite Hv. }
  unfold list_machines_query. set (n1 := if page_number >? 0 then [bstr "page%5Bnumber%5D=" ++ fmt_dec page_number] else []).
  set (n2 := if page_size >? 0 then [bstr "page%5Bsize%5D=" ++ fmt_dec page_size] else []).
  eapply (post_bind _ _ (fun '(buf, first) => query_has P n1 (true, buf, first))).
  { unfold n1. destruct (page_number >? 0); [apply (query_literal_post P [] tamga_buf_init true); apply query_start|apply post_ret, query_start]. }
  intros [b1 f1] H1. eapply (post_bind _ _ (fun '(buf, first) => query_has P (n1 ++ n2) (true, buf, first))).
  { unfold n2. destruct (page_size >? 0); [by apply query_literal_post|]. rewrite app_nil_r. by apply post_ret. }
  intros [b2 f2] H2. eapply post_bind; [eapply query_opt_post; [exact H2|done|exact Hlic]|]. intros q3 H3.
  eapply post_bind; [eapply query_opt_post; [exact H3|done|exact Hs]|]. intros q4 H4.
  eapply finish_query_post; [|  |exact Hl]; unfold list_items; fold n1 n2.
  - by rewrite <- ?app_assoc in *.
  - repeat (apply Forall_app; split); try (by apply parameter_items_no_nul).
    + unfold n1. destruct (page_number >? 0); [constructor; [by apply number_no_nul|constructor]|constructor].
    + unfold n2. destruct (page_size >? 0); [constructor; [by apply number_no_nul|constructor]|constructor].
Qed.
(** ** One lemma per shape of endpoint *)

(** What the limits say of a call that is made. *)
Definition call_within (spec : TamgaErrorCode + api_call) : Prop :=
  match spec with
  | inl _ => True
  | inr call =>
      zlen (default [] (call_query call)) <= 2 ^ 60 /\
      zlen (from_option (print false) [] (call_body call)) <= TAMGA_MAX_REASONABLE_LEN
  end.

Lemma by_id_outcome method prefix id what suffix otp json_api w :
  quiet w -> plain prefix = true -> (forall s, suffix = Some s -> plain s = true) ->
  zlen (bstr prefix) + zlen (from_option bstr [] suffix) <= 1000 ->
  io_post (send_by_id (Some c) method prefix id what suffix otp json_api) w (outcome (by_id method prefix id suffix otp json_api)).
Proof.
  intros Hw Hp Hs Hlen. apply clear_outcome; [exact Hw|]. intros w1 H1. apply require_outcome; [exact H1|]. intros i w2 Hi H2.
  apply (fetch_outcome _ (path_of prefix i suffix)); [exact H2|by apply path_fetched|]. intros w3 H3. by apply (send_outcome _ _ _ _ None).
Qed.

(** An optional identifier that is checked first. *)
Lemma optional_outcome id what (k : IO net reply) (k' : option bytes -> IO net reply) text spec w :
  quiet w -> (k = match opt_uuid id with None => refuse (fail TAMGA_ERR_NULL_ARGUMENT text) | Some i => k' i end) ->
  (forall i w', opt_uuid id = Some i -> quiet w' -> io_post (k' i) w' (outcome (spec i))) ->
  io_post (require (match id with Some _ => tamga_require_uuid id what | None => ret TAMGA_OK end) k) w
    (outcome (need! i := present (opt_uuid id) in spec i)).
Proof.
  intros Hw -> Hk. destruct id as [i|].
  - cbn [opt_uuid]. pose proof (require_outcome (Some i) what (match opt_uuid (Some i) with None => refuse (fail TAMGA_ERR_NULL_ARGUMENT text) | Some j => k' j end)
      (fun j => spec (Some j)) w Hw) as H. cbn [opt_uuid] in *. destruct (uuid_of (Some i)) as [j|]; cbn [fmap option_fmap option_map present sbind] in *; apply H.
    + intros ? w' [= <-]. by apply Hk.
    + done.
  - unfold require. eapply (lift_quiet _ _ (fun r => r = TAMGA_OK)); [exact Hw|by apply post_ret|]. intros ? w' -> Hw'.
    rewrite decide_True by done. by apply Hk.
Qed.

Lemma keyset_outcome prefix id what suffix limit after w :
  quiet w -> plain prefix = true -> plain suffix = true -> zlen (bstr prefix) + zlen (bstr suffix) <= 1000 ->
  (P -> call_within (keyset prefix id suffix limit after)) ->
  io_post (tamga_list (Some c) prefix id what suffix limit after) w (outcome (keyset prefix id suffix limit after)).
Proof.
  intros Hw Hp Hs Hlen HP. apply clear_outcome; [exact Hw|]. intros w1 H1. unfold keyset in *. apply require_outcome; [exact H1|]. intros i w2 Hi H2.
  rewrite Hi in HP. cbn [present sbind] in HP. eapply optional_outcome; [exact H2|reflexivity|]. intros a w3 Ha H3. rewrite Ha in HP. cbn [present sbind] in HP.
  eapply fetch_outcome; [exact H3|eapply list_query_post; [exact Ha|intros HPP; apply HP, HPP]|]. intros w4 H4.
  eapply fetch_outcome; [exact H4|apply path_fetched; [exact Hi|done|by intros ? [= <-]|exact Hlen]|]. intros w5 H5. by apply (send_outcome _ _ _ _ None).
Qed.

Lemma checkout_outcome prefix id what encrypt ttl raw w :
  quiet w -> plain prefix = true -> zlen (bstr prefix) <= 500 -> (P -> call_within (checkout_call prefix id encrypt ttl raw)) ->
  io_post (tamga_checkout (Some c) prefix id what encrypt ttl raw) w (outcome (checkout_call prefix id encrypt ttl raw)).
Proof.
  intros Hw Hp Hlen HP. apply clear_outcome; [exact Hw|]. intros w1 H1. unfold checkout_call in *. apply require_outcome; [exact H1|]. intros i w2 Hi H2.
  rewrite Hi in HP. cbn [present sbind] in HP. destruct (_ && _); [by apply refuse_outcome|].
  eapply fetch_outcome; [exact H2|apply path_fetched; [exact Hi|done|by intros ? [= <-]|cbn [from_option]; vm_compute (zlen (bstr "/actions/check-out")); lia]|].
  intros w3 H3. destruct raw.
  - eapply fetch_outcome; [exact H3| |intros w4 H4; by apply (send_outcome _ _ _ _ None)].
    unfold tamga_checkout_query, checkout_items in *. destruct encrypt; apply literal_query_post; (reflexivity || (intros HPP; apply HP, HPP)).
  - eapply (fetch_outcome _ (print false (checkout_doc encrypt ttl))); [exact H3| |intros w4 H4; by apply (send_outcome _ _ _ _ (Some _))].
    unfold tamga_checkout_body. eapply post_bind; [apply (checkout_tree_got P)|]. intros root Hroot. apply (got_fetched P P) in Hroot; [|done].
    destruct Hroot as [->|[-> Hn]]; [|apply post_ret; by right]. eapply post_mono; [apply write_got|intros r; apply got_fetched; intros HPP; apply HP, HPP].
    unfold checkout_doc. destruct (ttl >? 0); eauto 12 with doc_bytes.
Qed.
(** ** Entitlements *)

Lemma entitlement_buf_post license entitlement l e :
  uuid_of license = Some l -> uuid_of entitlement = Some e ->
  post (entitlement_buf l e) (fun b => buf_text b (entitlement_path l e None)).
Proof.
  intros (_ & _ & _ & Hl)%uuid_of_facts (_ & _ & _ & He)%uuid_of_facts. unfold entitlement_buf, entitlement_path. cbn [from_option]. rewrite app_nil_r.
  pose proof init_text as H0. text_step b1 H1. text_step b2 H2. text_step b3 H3. eapply post_mono; [apply append_str_text; exact H3|]. cbv beta.
  intros b Hb. rewrite Hl, He, <- !app_assoc in Hb. exact Hb.
Qed.

Lemma entitlement_path_ok license entitlement l e action :
  uuid_of license = Some l -> uuid_of entitlement = Some e -> (forall a, action = Some a -> plain a = true /\ zlen (bstr a) <= 1000) ->
  ~ In 0 (entitlement_path l e action) /\ zlen (entitlement_path l e action) <= 2 ^ 60.
Proof.
  intros (Hl & _ & Hl' & _)%uuid_of_facts (He & _ & He' & _)%uuid_of_facts Ha. unfold entitlement_path, TAMGA_MAX_REASONABLE_LEN in *. split.
  - do 4 (apply app_no_nul; [first [assumption | by apply (plain_no_nul "/licenses/") | by apply (plain_no_nul "/entitlements/")]|]). destruct action as [a|]; [|by intros []]. destruct (Ha a eq_refl).
    apply app_no_nul; by apply plain_no_nul.
  - rewrite !length_app. change (length (bstr "/licenses/")) with 10%nat. change (length (bstr "/entitlements/")) with 14%nat.
    assert (zlen (from_option (fun a => bstr "/actions/" ++ bstr a) [] action) <= 2000); [|lia].
    destruct action as [a|]; [|done]. destruct (Ha a eq_refl). cbn [from_option]. rewrite length_app. change (length (bstr "/actions/")) with 9%nat. lia.
Qed.

Lemma action_path_post license entitlement l e action :
  uuid_of license = Some l -> uuid_of entitlement = Some e -> plain action = true -> zlen (bstr action) <= 1000 ->
  post (tamga_entitlement_action_path license entitlement action) (fetched P (entitlement_path l e (Some action))).
Proof.
  intros Hl He Ha Hlen. unfold tamga_entitlement_action_path. rewrite Hl, He.
  eapply post_bind; [by eapply entitlement_buf_post|]. cbv beta. intros b1 H1. text_step b2 H2. text_step b3 H3.
  destruct (entitlement_path_ok license entitlement l e (Some action) Hl He) as [Hz Hsz]; [by intros ? [= <-]|].
  apply detach_fetched; [|exact Hz|done]. rewrite (plain_view action Ha) in H3. unfold entitlement_path in *. cbn [from_option] in *.
  rewrite app_nil_r, <- !app_assoc in H3. exact H3.
Qed.

(** Both identifiers, then the path of the action. *)
Lemma action_outcome license entitlement action (k : bytes -> IO net reply) spec w :
  quiet w -> plain action = true -> zlen (bstr action) <= 1000 ->
  (forall l e w', uuid_of license = Some l -> uuid_of entitlement = Some e -> quiet w' ->
    io_post (k (entitlement_path l e (Some action))) w' (outcome (spec l e))) ->
  io_post (require (tamga_require_uuid license "license_id") (
    require (tamga_require_uuid entitlement "entitlement_id") (
      do! path := lift (tamga_entitlement_action_path license entitlement action) in
      match path with
      | None => refuse (fail TAMGA_ERR_NULL_ARGUMENT "license_id and entitlement_id must be UUIDs")
      | Some path => k path
      end))) w
    (outcome (need! l := present (uuid_of license) in need! e := present (uuid_of entitlement) in spec l e)).
Proof.
  intros Hw Ha Hlen Hk. apply require_outcome; [exact Hw|]. intros l w1 Hl H1. apply require_outcome; [exact H1|]. intros e w2 He H2.
  eapply lift_quiet; [exact H2|by apply (action_path_post license entitlement l e)|]. intros p w3 [->|[-> Hn]] H3; [by apply Hk|by apply short_outcome].
Qed.

Lemma usage_outcome license entitlement action amount w :
  quiet w -> plain action = true -> zlen (bstr action) <= 64 -> (P -> call_within (usage_call license entitlement action amount)) ->
  io_post (tamga_entitlement_usage_action (Some c) license entitlement action action amount) w (outcome (usage_call license entitlement action amount)).
Proof.
  intros Hw Ha Hlen HP. apply clear_outcome; [exact Hw|]. intros w1 H1. unfold usage_call in *. apply action_outcome; [exact H1|done|lia|].
  intros l e w2 Hl He H2. rewrite Hl, He in HP. cbn [present sbind] in HP. destruct (amount >? 0); [|by apply (send_outcome _ _ _ _ None)].
  apply tree_outcome; [exact H2| |unfold usage_doc; eauto 12 with doc_bytes|intros HPP; apply HP, HPP].
  unfold usage_tree. apply (got_bind P _ (JObject [])); [apply new_object_got| |intros ?; apply post_ret; by right].
  apply (last_leaf_got P [] action _ (JInt amount)); [apply new_got|]. cbn [put]. unfold add. cbn [forallb length andb].
  unfold plain in Ha. rewrite Ha. replace (length (bstr action) <=? 64)%nat with true by (symmetry; apply Nat.leb_le; lia). done.
Qed.

Lemma reset_outcome license entitlement w :
  quiet w -> io_post (tamga_client_reset_entitlement_usage (Some c) license entitlement) w (outcome (usage_call license entitlement "reset" 0)).
Proof.
  intros Hw. apply clear_outcome; [exact Hw|]. intros w1 H1. apply action_outcome; [exact H1|done|by vm_compute|].
  intros l e w2 Hl He H2. by apply (send_outcome _ _ _ _ None).
Qed.

Lemma get_entitlement_outcome license entitlement w :
  quiet w ->
  io_post (tamga_client_get_entitlement (Some c) license entitlement) w (outcome (endpoint_call (GetEntitlement license entitlement))).
Proof.
  intros Hw. apply clear_outcome; [exact Hw|]. intros w1 H1. apply require_outcome; [exact H1|]. intros l w2 Hl H2.
  apply require_outcome; [exact H2|]. intros e w3 He H3. rewrite Hl, He.
  destruct (entitlement_path_ok license entitlement l e None Hl He) as [Hz Hsz]; [done|].
  eapply fetch_outcome; [exact H3| |intros w4 H4; by apply (send_outcome _ _ _ _ None)].
  eapply post_bind; [by eapply entitlement_buf_post|]. intros b Hb. by apply detach_fetched.
Qed.

(** ** Documents *)

Lemma validate_by_key_outcome key otp w :
  quiet w -> (forall k, key = Some k -> text_ok k) -> (P -> call_within (endpoint_call (ValidateByKey key otp))) ->
  io_post (tamga_client_validate_by_key (Some c) key otp) w (outcome (endpoint_call (ValidateByKey key otp))).
Proof.
  intros Hw Hk HP. apply clear_outcome; [exact Hw|]. intros w1 H1. destruct key as [k|]; [|by apply refuse_outcome].
  destruct (Hk k eq_refl). apply tree_outcome; [exact H1|by apply validate_key_tree_got|unfold validate_key_doc; eauto 12 with doc_bytes|].
  intros HPP. apply HP, HPP.
Qed.

Lemma object_bytes_of o j : object_ok o -> o = Some j -> json_bytes j.
Proof. intros Ho Hj. by apply Ho. Qed.

Lemma validate_by_id_outcome id scope skip_touch otp w :
  quiet w -> bytes_ok (default [] scope) -> (P -> call_within (endpoint_call (ValidateById id scope skip_touch otp))) ->
  io_post (tamga_client_validate_by_id (Some c) id scope skip_touch otp) w (outcome (endpoint_call (ValidateById id scope skip_touch otp))).
Proof.
  intros Hw Hs HP. cbn [endpoint_call] in *. apply clear_outcome; [exact Hw|]. intros w1 H1. apply require_outcome; [exact H1|]. intros i w2 Hi H2.
  rewrite Hi in HP. cbn [present sbind] in HP. apply object_outcome; [exact H2|exact Hs|]. intros o w3 Ho Hok H3. rewrite Ho in HP. cbn [sbind] in HP.
  apply tree_at_outcome; [exact H3|apply validate_tree_got|apply path_fetched; [exact Hi|done|by intros ? [= <-]|by vm_compute]| |intros HPP; apply HP, HPP].
  unfold validate_doc. pose proof (object_bytes_of o). destruct o as [o|]; cbn [from_option]; eauto 12 with doc_bytes.
Qed.

Lemma create_machine_outcome id fingerprint options w :
  quiet w -> (forall f, fingerprint = Some f -> text_ok f) -> bytes_ok (default [] options) ->
  (P -> call_within (endpoint_call (CreateMachine id fingerprint options))) ->
  io_post (tamga_client_create_machine (Some c) id fingerprint options) w (outcome (endpoint_call (CreateMachine id fingerprint options))).
Proof.
  intros Hw Hf Hs HP. cbn [endpoint_call] in *. apply clear_outcome; [exact Hw|]. intros w1 H1. destruct fingerprint as [f|]; [|by apply refuse_outcome].
  cbn [present sbind] in *. destruct (Hf f eq_refl) as [Hfb Hfl]. apply require_outcome; [exact H1|]. intros i w2 Hi H2.
  pose proof (uuid_of_facts _ _ Hi) as (_ & Hib & Hil & _).
  rewrite Hi in HP. cbn [present sbind] in HP. apply object_outcome; [exact H2|exact Hs|]. intros o w3 Ho Hok H3. rewrite Ho in HP. cbn [sbind] in HP. rewrite Hi.
  apply tree_outcome; [exact H3|apply create_machine_tree_got; [|done..]; intros j Hj; by destruct (Hok j Hj) as (? & ? & _)| |intros HPP; apply HP, HPP].
  unfold create_machine_doc. pose proof (object_bytes_of o). eauto 30 with doc_bytes.
Qed.

Lemma update_machine_outcome id attributes w :
  quiet w -> bytes_ok (default [] attributes) -> (P -> call_within (endpoint_call (UpdateMachine id attributes))) ->
  io_post (tamga_client_update_machine (Some c) id attributes) w (outcome (endpoint_call (UpdateMachine id attributes))).
Proof.
  intros Hw Hs HP. cbn [endpoint_call] in *. apply clear_outcome; [exact Hw|]. intros w1 H1. destruct attributes as [a|]; [|by apply refuse_outcome].
  cbn [present sbind] in *. apply require_outcome; [exact H1|]. intros i w2 Hi H2.
  rewrite Hi in HP. cbn [present sbind] in HP. apply object_outcome; [exact H2|exact Hs|]. intros o w3 Ho Hok H3. rewrite Ho in HP. cbn [sbind] in HP.
  apply tree_at_outcome; [exact H3|apply update_machine_tree_got; intros j Hj; by destruct (Hok j Hj) as (? & ? & _)
    |apply path_fetched; [exact Hi|done|done|by vm_compute]| |intros HPP; apply HP, HPP].
  unfold update_machine_doc. pose proof (object_bytes_of o). eauto 30 with doc_bytes.
Qed.
(** An object the caller may leave out: a new one, or nothing for want of memory. *)
Lemma default_object_outcome (o : option json) (k : option json -> IO net reply) spec w :
  quiet w -> (forall w', quiet w' -> io_post (k (Some (default (JObject []) o))) w' (outcome spec)) ->
  (forall w', quiet w' -> ~ (plenty /\ P) -> io_post (k None) w' (outcome spec)) ->
  io_post (do! d := lift (or_new_object o) in k d) w (outcome spec).
Proof.
  intros Hw Hk Hnone. eapply (lift_quiet _ _ (fetched P (default (JObject []) o))); [exact Hw| |].
  - destruct o as [o|]; cbn [or_new_object default from_option id]; [apply post_ret; by left|].
    eapply post_mono; [apply (new_object_got P)|]. intros r. by apply got_fetched.
  - intros d w' [->|[-> Hn]] Hw'; [by apply Hk|by apply Hnone].
Qed.

Lemma default_bytes o : object_ok o -> json_bytes (default (JObject []) o).
Proof. intros Ho. destruct o as [o|]; [by apply (object_bytes_of (Some o))|]. apply jb_object. constructor. Qed.

(** A body that cannot be built because its last part is missing. *)
Lemma no_tree_outcome (send : IO net reply) (tree : M (option json)) k spec w :
  quiet w -> send = (do! x := lift tree in match x with None => no_memory | Some x => k x end) ->
  post tree (fun r => r = None) -> ~ (plenty /\ P) -> io_post send w (outcome spec).
Proof. intros Hw -> Ht Hn. eapply lift_quiet; [exact Hw|exact Ht|]. intros ? w' -> Hw'. by apply short_outcome. Qed.

Lemma no_tree_post {A B} (m : M A) (k : A -> M (option B)) : (forall a, post (k a) (fun r => r = None)) -> post (bind m k) (fun r => r = None).
Proof. intros Hk. eapply (post_bind _ _ (fun _ => True)); [by intros s|]. auto. Qed.

#[local] Ltac missing := repeat (apply no_tree_post; intros ?); repeat case_match; simplify_eq; by apply post_ret.

Lemma proof_outcome id dataset w :
  quiet w -> bytes_ok (default [] dataset) -> (P -> call_within (endpoint_call (GenerateOfflineProof id dataset))) ->
  io_post (tamga_client_generate_offline_proof (Some c) id dataset) w (outcome (endpoint_call (GenerateOfflineProof id dataset))).
Proof.
  intros Hw Hs HP. cbn [endpoint_call] in *. apply clear_outcome; [exact Hw|]. intros w1 H1. apply require_outcome; [exact H1|]. intros i w2 Hi H2.
  rewrite Hi in HP. cbn [present sbind] in HP. apply object_outcome; [exact H2|exact Hs|]. intros o w3 Ho Hok H3. rewrite Ho in HP. cbn [sbind] in HP.
  apply default_object_outcome; [exact H3| |].
  - intros w4 H4. apply tree_at_outcome; [exact H4|apply proof_tree_got|apply path_fetched; [exact Hi|done|by intros ? [= <-]|by vm_compute]| |intros HPP; apply HP, HPP].
    unfold proof_doc. pose proof (default_bytes o Hok). eauto 12 with doc_bytes.
  - intros w4 H4 Hn. eapply no_tree_outcome; [exact H4|reflexivity| |exact Hn]. unfold proof_tree_body. missing.
Qed.

Lemma component_outcome id fingerprint name metadata w :
  quiet w -> (forall v, fingerprint = Some v -> text_ok v) -> (forall v, name = Some v -> text_ok v) -> bytes_ok (default [] metadata) ->
  (P -> call_within (endpoint_call (CreateComponent id fingerprint name metadata))) ->
  io_post (tamga_client_create_component (Some c) id fingerprint name metadata) w (outcome (endpoint_call (CreateComponent id fingerprint name metadata))).
Proof.
  intros Hw Hf Hnm Hs HP. cbn [endpoint_call] in *. apply clear_outcome; [exact Hw|]. intros w1 H1.
  destruct fingerprint as [f|]; [|by apply refuse_outcome]. destruct name as [n|]; [|by apply refuse_outcome]. cbn [present sbind] in *.
  destruct (Hf f eq_refl) as [Hfb Hfl], (Hnm n eq_refl) as [Hnb Hnl]. apply require_outcome; [exact H1|]. intros i w2 Hi H2.
  pose proof (uuid_of_facts _ _ Hi) as (_ & Hib & Hil & _). rewrite Hi in HP. cbn [present sbind] in HP.
  apply object_outcome; [exact H2|exact Hs|]. intros o w3 Ho Hok H3. rewrite Ho in HP. cbn [sbind] in HP. apply default_object_outcome; [exact H3| |]; rewrite Hi.
  - intros w4 H4. apply tree_outcome; [exact H4|by apply component_tree_got| |intros HPP; apply HP, HPP].
    unfold component_doc. pose proof (default_bytes o Hok). eauto 20 with doc_bytes.
  - intros w4 H4 Hn. eapply no_tree_outcome; [exact H4|reflexivity| |exact Hn]. unfold component_tree. missing.
Qed.

Lemma process_outcome id pid metadata w :
  quiet w -> (forall v, pid = Some v -> text_ok v) -> bytes_ok (default [] metadata) ->
  (P -> call_within (endpoint_call (CreateProcess id pid metadata))) ->
  io_post (tamga_client_create_process (Some c) id pid metadata) w (outcome (endpoint_call (CreateProcess id pid metadata))).
Proof.
  intros Hw Hf Hs HP. cbn [endpoint_call] in *. apply clear_outcome; [exact Hw|]. intros w1 H1.
  destruct pid as [p|]; [|by apply refuse_outcome]. cbn [present sbind] in *.
  destruct (Hf p eq_refl) as [Hfb Hfl]. apply require_outcome; [exact H1|]. intros i w2 Hi H2.
  pose proof (uuid_of_facts _ _ Hi) as (_ & Hib & Hil & _). rewrite Hi in HP. cbn [present sbind] in HP.
  apply object_outcome; [exact H2|exact Hs|]. intros o w3 Ho Hok H3. rewrite Ho in HP. cbn [sbind] in HP. apply default_object_outcome; [exact H3| |]; rewrite Hi.
  - intros w4 H4. apply tree_outcome; [exact H4|by apply process_tree_got| |intros HPP; apply HP, HPP].
    unfold process_doc. pose proof (default_bytes o Hok). eauto 20 with doc_bytes.
  - intros w4 H4 Hn. eapply no_tree_outcome; [exact H4|reflexivity| |exact Hn]. unfold process_tree. missing.
Qed.

(** ** Listings and releases *)

Lemma list_machines_outcome id search page_number page_size w :
  quiet w -> (forall v, search = Some v -> text_ok v) -> (P -> call_within (endpoint_call (ListMachines id search page_number page_size))) ->
  io_post (tamga_client_list_machines (Some c) id search page_number page_size) w
    (outcome (endpoint_call (ListMachines id search page_number page_size))).
Proof.
  intros Hw Hs HP. cbn [endpoint_call] in *. apply clear_outcome; [exact Hw|]. intros w1 H1. eapply optional_outcome; [exact H1|reflexivity|].
  intros l w2 Hl H2. rewrite Hl in HP. cbn [present sbind] in HP.
  eapply fetch_outcome; [exact H2|eapply list_machines_query_post; [exact Hl|exact Hs|intros HPP; apply HP, HPP]|]. intros w3 H3.
  by apply (send_outcome _ _ _ _ None).
Qed.

Lemma upgrade_outcome product pl filetype version channel constraint w :
  quiet w -> (forall v, pl = Some v -> text_ok v) -> (forall v, filetype = Some v -> text_ok v) -> (forall v, version = Some v -> text_ok v) ->
  (forall v, channel = Some v -> text_ok v) -> (forall v, constraint = Some v -> text_ok v) ->
  (P -> call_within (endpoint_call (CheckUpgrade product pl filetype version channel constraint))) ->
  io_post (tamga_client_check_upgrade (Some c) product pl filetype version channel constraint) w
    (outcome (endpoint_call (CheckUpgrade product pl filetype version channel constraint))).
Proof.
  intros Hw Hp Hf Hv Hch Hco HP. cbn [endpoint_call] in *. apply clear_outcome; [exact Hw|]. intros w1 H1.
  destruct pl as [p|]; [|by apply refuse_outcome]. destruct filetype as [f|]; [|by apply refuse_outcome]. destruct version as [v|]; [|by apply refuse_outcome].
  cbn [present sbind] in *. apply require_outcome; [exact H1|]. intros i w2 Hi H2. pose proof (uuid_of_facts _ _ Hi) as (_ & Hib & Hil & Hiv).
  rewrite Hi in HP |- *. cbn [present sbind] in HP. assert (text_ok i) by (split; [done|by rewrite Hiv]).
  eapply fetch_outcome; [exact H2|apply upgrade_query_post; auto; intros HPP; apply HP, HPP|]. intros w3 H3. by apply (send_outcome _ _ _ _ None).
Qed.

Lemma download_outcome id ttl w :
  quiet w -> (P -> call_within (endpoint_call (GetArtifactDownloadUrl id ttl))) ->
  io_post (tamga_client_get_artifact_download_url (Some c) id ttl) w (outcome (endpoint_call (GetArtifactDownloadUrl id ttl))).
Proof.
  intros Hw HP. cbn [endpoint_call] in *. apply clear_outcome; [exact Hw|]. intros w1 H1. apply require_outcome; [exact H1|]. intros i w2 Hi H2.
  rewrite Hi in HP. cbn [present sbind] in HP. destruct (_ && _); [by apply refuse_outcome|].
  eapply fetch_outcome; [exact H2|apply path_fetched; [exact Hi|done|by intros ? [= <-]|by vm_compute]|]. intros w3 H3.
  eapply fetch_outcome; [exact H3| |intros w4 H4; by apply (send_outcome _ _ _ _ None)].
  unfold download_query, download_items in *. apply (literal_query_post "redirect=false" (negb (ttl =? 0)) "ttl=" ttl); [done|done|]. intros HPP. apply HP, HPP.
Qed.
End Outcome.

(** ** The theorem *)

Section Exact.
Context {malloc : Malloc} {net : Type} {platform : Platform net}.

Lemma endpoint_outcome (c : TamgaClient net) (e : endpoint) w :
  client_wf c -> Forall bytes_ok (texts e) -> io_post (run_endpoint e (Some c)) w (outcome c w (call_fits e) (endpoint_call e)).
Proof.
  intros Hc Hok. set (P := call_fits e).
  assert (P -> call_within (endpoint_call e)) as HP by (intros [_ H]; exact H).
  assert (forall a v, In a (arguments e) -> a = Some v -> text_ok P v) as Htext.
  { intros a v Ha%list_elem_of_In ->. assert (v ∈ texts e) as Hv by (apply list_elem_of_omap; by exists (Some v)).
    rewrite Forall_forall in Hok. split; [by apply Hok|]. intros [H _]. rewrite Forall_forall in H. by apply H. }
  assert (forall a, In a (arguments e) -> bytes_ok (default [] a)) as Hbytes.
  { intros [v|] Ha; [by apply (Htext (Some v))|constructor]. }
  assert (quiet w w) as Hq by done.
  clearbody P. clear Hok. destruct e; cbn [run_endpoint arguments] in *;
    first [ apply by_id_outcome; [done..|by (intros ? [= <-] || done)|by vm_compute]
          | apply keyset_outcome; [done..|by vm_compute|done]
          | apply checkout_outcome; [done..|by vm_compute|done]
          | apply usage_outcome; [done..|by vm_compute|done]
          | by apply reset_outcome | by apply get_entitlement_outcome | by apply download_outcome
          | idtac ].
  - apply validate_by_key_outcome; [done..| |done]. intros k. apply Htext. by left.
  - apply validate_by_id_outcome; [done..| |done]. apply Hbytes. right. by left.
  - apply create_machine_outcome; [done..| | |done]; [intros f; apply Htext; right; by left|apply Hbytes; right; right; by left].
  - apply update_machine_outcome; [done..| |done]. apply Hbytes. right. by left.
  - apply list_machines_outcome; [done..| |done]. intros v. apply Htext. right. by left.
  - apply proof_outcome; [done..| |done]. apply Hbytes. right. by left.
  - apply component_outcome; [done..| | | |done]; [intros v; apply Htext; right; by left|intros v; apply Htext; do 2 right; by left|apply Hbytes; do 3 right; by left].
  - apply process_outcome; [done..| | |done]; [intros v; apply Htext; right; by left|apply Hbytes; do 2 right; by left].
  - apply (clear_outcome w); [exact Hq|]. intros w1 H1. by apply (send_outcome c w P Hc _ _ _ _ None).
  - apply upgrade_outcome; [done..| | | | | |done]; intros v; apply Htext; simpl; tauto.
  - apply (clear_outcome w); [exact Hq|]. intros w1 H1. by apply (send_outcome c w P Hc _ _ _ _ None).
Qed.
(** (C15) Every endpoint does what the table says. For a client built through
    the public functions, any arguments and any allocator: the endpoint is
    refused with the code of the table and sends nothing, or it makes exactly
    the one call of the table, with the caller's identifiers in canonical form,
    the caller's values percent-encoded and only the recognised attributes; or
    memory was short although the call is within the library's limits, and then
    nothing is sent and the result is an error without a response. *)
Theorem endpoint_exact (c : TamgaClient net) (e : endpoint) w :
  made c -> Forall bytes_ok (texts e) ->
  let '(r, w') := run_endpoint e (Some c) w in outcome c w (call_fits e) (endpoint_call e) r w'.
Proof.
  intros Hc%made_wf Hok. pose proof (endpoint_outcome c e w Hc Hok) as H. unfold io_post in H. by destruct (run_endpoint e (Some c) w).
Qed.
End Exact.

(** ** Witness *)

(** A search for machines of one licence, the identifier in upper case. *)
Definition demo_search : endpoint :=
  ListMachines (Some (bstr "0198F3A0-52C1-7E6B-9D44-1B2C3D4E5F60")) (Some (bstr "a&b")) 1 100.

Lemma endpoint_exact_witness :
  endpoint_call demo_search =
    inr (mk_call TAMGA_PATH_ACCOUNT "GET" (bstr "/machines")
           (Some (bstr "page%5Bnumber%5D=1&page%5Bsize%5D=100&filter%5Blicense%5D=0198f3a0-52c1-7e6b-9d44-1b2c3d4e5f60&filter%5Bq%5D=a%26b"))
           None None false) /\
  let '(r, w') := run_endpoint (malloc := full_memory) (platform := demo_platform) demo_search (Some demo_client) (demo_world [(true, valid)]) in
  outcome (malloc := full_memory) (platform := demo_platform) demo_client (demo_world [(true, valid)]) (call_fits demo_search) (endpoint_call demo_search) r w'.
Proof.
  split; [vm_compute; reflexivity|]. apply (endpoint_exact (malloc := full_memory) (platform := demo_platform) demo_client demo_search); [exact demo_made|].
  constructor; [apply bstr_bytes|]. constructor; [apply bstr_bytes|]. constructor.
Defined.
