(* ===== verification/Activation.v ===== *)
(** * Activating a machine

    The flows of several requests in [Endpoints]: what an activation can put on
    the wire, which machine it may delete, and what the lookup by fingerprint
    finds. *)

From Stdlib Require Import String.
From S2P Require Import Prelude World Buf BufBuild Hex Json JsonParse JsonPrint Status JsonBuild Validation Transport Response Client ClientText ClientSpec Endpoints EndpointBody EndpointSpec.
From stdpp Require Import list relations.
#[local] Open Scope Z_scope.

Section Traces.
Context {malloc : Malloc} {net : Type} {platform : Platform net}.

(** Between [w] and [w'] only requests that satisfy [req] were performed. *)
Definition only (req : TamgaHttpRequest -> Prop) (w w' : io net) : Prop :=
  exists tr, io_trace w' = io_trace w ++ tr /\ Forall (fun ev => match ev with Performed r => req r | Slept _ => True end) tr.

Lemma only_refl req w w' : io_trace w' = io_trace w -> only req w w'.
Proof. intros H. exists []. by rewrite app_nil_r. Qed.

Lemma only_trans req w1 w2 w3 : only req w1 w2 -> only req w2 w3 -> only req w1 w3.
Proof. intros (t1 & E1 & H1) (t2 & E2 & H2). exists (t1 ++ t2). rewrite E2, E1, app_assoc. split; [done|]. by apply Forall_app. Qed.

Lemma only_mono (p q : TamgaHttpRequest -> Prop) w w' : (forall r, p r -> q r) -> only p w w' -> only q w w'.
Proof. intros Hpq (tr & E & H). exists tr. split; [exact E|]. eapply Forall_impl; [exact H|]. intros []; auto. Qed.

(** The request of a call. *)
Definition call_request (c : TamgaClient net) (call : api_call) : TamgaHttpRequest :=
  request_of c (call_scope call) (bstr (call_method call)) (call_path call) (call_query call) (print false <$> call_body call) (call_otp call)
    (call_json_api call).

Definition performed (tr : list event) : Z := zlen (List.filter (fun ev => match ev with Performed _ => true | Slept _ => false end) tr).

(** The same with a bound on their number. *)
Definition requests (n : Z) (req : TamgaHttpRequest -> Prop) (w w' : io net) : Prop :=
  exists tr, io_trace w' = io_trace w ++ tr /\ Forall (fun ev => match ev with Performed r => req r | Slept _ => True end) tr /\ performed tr <= n.

Lemma requests_none n req w w' : 0 <= n -> io_trace w' = io_trace w -> requests n req w w'.
Proof. intros Hn H. exists []. rewrite app_nil_r. by split_and!. Qed.

Lemma requests_only n req w w' : requests n req w w' -> only req w w'.
Proof. intros (tr & E & H & _). by exists tr. Qed.

Lemma requests_trans n m req w1 w2 w3 : requests n req w1 w2 -> requests m req w2 w3 -> requests (n + m) req w1 w3.
Proof.
  intros (t1 & E1 & H1 & N1) (t2 & E2 & H2 & N2). exists (t1 ++ t2). rewrite E2, E1, app_assoc. split_and!; [done|by apply Forall_app|].
  unfold performed in *. rewrite List.filter_app, length_app. lia.
Qed.

Lemma requests_mono n m (p q : TamgaHttpRequest -> Prop) w w' : n <= m -> (forall r, p r -> q r) -> requests n p w w' -> requests m q w w'.
Proof. intros Hnm Hpq (tr & E & H & N). exists tr. split_and!; [exact E| |lia]. eapply Forall_impl; [exact H|]. intros []; auto. Qed.

Lemma sent_requests (c : TamgaClient net) call r w w' :
  client_wf c -> call_sent c w call r w' -> requests (max_retries c + 1) (fun req => req = call_request c call) w w'.
Proof.
  intros Hc. pose proof (wf_retries _ Hc) as Hr. unfold call_sent, sent.
  destruct (send_refused c (call_otp call)); [intros (_ & H & _); apply requests_none; [lia|done]|].
  destruct (transport c) as [t|]; [|done]. intros [[(_ & H & _) _]|(s & ok & http & s' & n & tr & Hrun & Htr & _)]; [apply requests_none; [lia|done]|].
  cbn [io_st io_net io_trace] in *. apply reachable_ok in Hrun as (delays & _ & _ & Hlen & Htr' & _); [|lia].
  exists tr. split; [exact Htr|]. rewrite Htr'. unfold send_events. split.
  - constructor; [done|]. apply Forall_concat, Forall_fmap, Forall_forall. intros d _. by repeat constructor.
  - unfold performed. cbn [List.filter length]. assert (forall q, length (List.filter (fun ev => match ev with Performed _ => true | Slept _ => false end)
      (concat (map (fun d => [Slept d; Performed q]) delays))) = length delays) as Hcount; [|rewrite Hcount; lia].
    intros q. clear. induction delays as [|d l IH]; [done|]. cbn [map concat app List.filter length]. by rewrite IH.
Qed.

Lemma endpoint_requests (c : TamgaClient net) e w :
  client_wf c -> Forall bytes_ok (texts e) ->
  io_post (run_endpoint e (Some c)) w (fun r w' =>
    requests (max_retries c + 1) (fun req => exists call, endpoint_call e = inr call /\ req = call_request c call) w w').
Proof.
  intros Hc Hok. pose proof (wf_retries _ Hc) as Hr. eapply io_post_mono; [by apply endpoint_outcome|].
  intros r w' [H|((_ & H) & _)]; [|apply requests_none; [lia|done]].
  destruct (endpoint_call e) as [code|call]; [destruct H as (_ & _ & H); apply requests_none; [lia|done]|].
  eapply requests_mono; [| |by eapply sent_requests]; [lia|]. intros req ->. by exists call.
Qed.

(** ** Steps that delete nothing *)

Definition keeps_all (req : TamgaHttpRequest) : Prop := req_method req <> bstr "DELETE".

Lemma seq_only {A B} (m : IO net A) (k : A -> IO net B) (Q : B -> TamgaHttpRequest -> Prop) w :
  (forall b req, keeps_all req -> Q b req) ->
  io_post m w (fun a w1 => only keeps_all w w1 /\ io_post (k a) w1 (fun b w2 => only (Q b) w1 w2)) ->
  io_post (io_bind m k) w (fun b w2 => only (Q b) w w2).
Proof.
  intros HQ Hm. apply io_post_bind. eapply io_post_mono; [exact Hm|]. intros a w1 [H1 Hk]. eapply io_post_mono; [exact Hk|]. intros b w2 H2.
  eapply only_trans; [|exact H2]. eapply only_mono; [|exact H1]. auto.
Qed.

Lemma lift_only {A B} (m : M A) (k : A -> IO net B) (Q : B -> TamgaHttpRequest -> Prop) w :
  (forall a w1, io_trace w1 = io_trace w -> io_post (k a) w1 (fun b w2 => only (Q b) w1 w2)) ->
  io_post (io_bind (lift m) k) w (fun b w2 => only (Q b) w w2).
Proof.
  intros Hk. apply io_post_bind. eapply (io_post_lift _ _ (fun _ => True)); [by intros s|]. intros a s _ _.
  eapply io_post_mono; [by apply Hk|]. done.
Qed.

Lemma ret_only {B} (b : B) (Q : B -> TamgaHttpRequest -> Prop) w : io_post (io_ret b) w (fun b w2 => only (Q b) w w2).
Proof. apply io_post_ret. by apply only_refl. Qed.

(** An endpoint whose method is not DELETE. *)
Lemma endpoint_keeps (c : TamgaClient net) e method w :
  client_wf c -> Forall bytes_ok (texts e) -> (forall call, endpoint_call e = inr call -> call_method call = method) -> bstr method <> bstr "DELETE" ->
  io_post (run_endpoint e (Some c)) w (fun _ w' => only keeps_all w w').
Proof.
  intros Hc Hok Hm Hne. eapply io_post_mono; [by apply endpoint_requests|]. intros r w' H%requests_only. revert H. apply only_mono. intros req (call & Hcall & ->).
  unfold keeps_all, call_request. cbn [req_method request_of]. by rewrite (Hm call Hcall).
Qed.

#[local] Ltac method_of := intros call; cbn [endpoint_call]; unfold sbind, present, object_of, post_body, get; repeat case_match; intros; simplify_eq; reflexivity.

Definition args_ok (args : list (option bytes)) : Prop := Forall bytes_ok (omap id args).

Lemma validate_keeps (c : TamgaClient net) license scope w :
  client_wf c -> args_ok [license; scope] ->
  io_post (tamga_client_validate_by_id (Some c) license scope false None) w (fun _ w' => only keeps_all w w').
Proof. intros Hc Hok. apply (endpoint_keeps c (ValidateById license scope false None) "POST"); [done|by destruct license, scope|method_of|done]. Qed.

Lemma create_keeps (c : TamgaClient net) license fingerprint options w :
  client_wf c -> args_ok [license; fingerprint; options] ->
  io_post (tamga_client_create_machine (Some c) license fingerprint options) w (fun _ w' => only keeps_all w w').
Proof. intros Hc Hok. apply (endpoint_keeps c (CreateMachine license fingerprint options) "POST"); [done|done|method_of|done]. Qed.

(** ** The lookup *)

(** A listing row with exactly this fingerprint, and its identifier. *)
Definition exact_row (response : TamgaResponse) (fingerprint id : bytes) : Prop :=
  exists row value raw, In row (page_rows response) /\
    tamga_json_as_string (attribute (Some row) "fingerprint") = Some value /\ c_view value = c_view fingerprint /\
    tamga_json_as_string (tamga_json_object_get (Some row) (Some (bstr "id"))) = Some raw /\ id = c_view raw.

Lemma exact_match_row rows fingerprint raw :
  exact_match rows fingerprint = Some raw ->
  exists row value, In row rows /\ tamga_json_as_string (attribute (Some row) "fingerprint") = Some value /\ c_view value = c_view fingerprint /\
    tamga_json_as_string (tamga_json_object_get (Some row) (Some (bstr "id"))) = Some raw.
Proof.
  induction rows as [|m rows IH]; [done|]. cbn [exact_match].
  assert (exact_match rows fingerprint = Some raw -> exists row value, In row (m :: rows) /\ tamga_json_as_string (attribute (Some row) "fingerprint") = Some value /\
    c_view value = c_view fingerprint /\ tamga_json_as_string (tamga_json_object_get (Some row) (Some (bstr "id"))) = Some raw) as Hrest.
  { intros (row & value & Hin & ?)%IH. exists row, value. split; [by right|done]. }
  destruct (tamga_json_as_string (attribute (Some m) "fingerprint")) as [value|] eqn:Ev; [|exact Hrest].
  destruct (beq (c_view value) (c_view fingerprint)) eqn:Eb; [|exact Hrest]. apply beq_eq in Eb.
  destruct (tamga_json_as_string (tamga_json_object_get (Some m) (Some (bstr "id")))) as [id|] eqn:Ei; [|exact Hrest].
  intros [= <-]. exists m, value. split_and!; [by left|done..].
Qed.

(** What the walk over the pages from [page] on comes to: the requests it makes
    and the machine it finds. *)
Definition walked (c : TamgaClient net) (license : option bytes) (fingerprint : bytes) (page : Z) (pages : nat) (w : io net)
    (r : TamgaErrorCode * option bytes) (w' : io net) : Prop :=
  requests (Z.of_nat pages * (max_retries c + 1))
    (fun req => exists p call, page <= p < page + Z.of_nat pages /\
       endpoint_call (ListMachines license (Some fingerprint) p TAMGA_MACHINE_PAGE_SIZE) = inr call /\ req = call_request c call) w w' /\
  forall id, r.2 = Some id ->
    r.1 = TAMGA_OK /\
    exists p response w1 w2, page <= p < page + Z.of_nat pages /\
      tamga_client_list_machines (Some c) license (Some fingerprint) p TAMGA_MACHINE_PAGE_SIZE w1 = ((TAMGA_OK, Some response), w2) /\
      exact_row response fingerprint id.

(** The walk ends with this page. *)
Lemma walked_stop c license fingerprint page pages w w1 w' r :
  requests (max_retries c + 1) (fun req => exists call,
    endpoint_call (ListMachines license (Some fingerprint) page TAMGA_MACHINE_PAGE_SIZE) = inr call /\ req = call_request c call) w w1 ->
  0 <= max_retries c -> io_trace w' = io_trace w1 ->
  (forall id, r.2 = Some id -> r.1 = TAMGA_OK /\ exists response w0 w2,
    tamga_client_list_machines (Some c) license (Some fingerprint) page TAMGA_MACHINE_PAGE_SIZE w0 = ((TAMGA_OK, Some response), w2) /\ exact_row response fingerprint id) ->
  walked c license fingerprint page (S pages) w r w'.
Proof.
  intros Hr H0 Ht Hid. split.
  - destruct Hr as (tr & E & H & N). exists tr. rewrite Ht. split_and!; [exact E| |nia]. eapply Forall_impl; [exact H|].
    intros [q|]; [|done]. intros (call & ? & ?). exists page, call. split_and!; [lia|lia|done|done].
  - intros id Hid'. destruct (Hid id Hid') as (? & response & w0 & w2 & ? & ?). split; [done|]. exists page, response, w0, w2. split_and!; [lia|lia|done|done].
Qed.

Lemma find_loop_walked (c : TamgaClient net) license fingerprint pages page w :
  client_wf c -> args_ok [license; Some fingerprint] ->
  io_post (find_loop pages c license fingerprint page) w (walked c license fingerprint page pages w).
Proof.
  intros Hc Hok. pose proof (wf_retries _ Hc) as Hr. revert page w. induction pages as [|n IH]; intros page w; cbn [find_loop].
  { apply io_post_ret. split; [by apply requests_none|done]. }
  apply io_post_bind. pose proof (endpoint_requests c (ListMachines license (Some fingerprint) page TAMGA_MACHINE_PAGE_SIZE) w Hc Hok) as Hreq.
  unfold io_post in Hreq |- * at 1. cbn [run_endpoint] in Hreq.
  destruct (tamga_client_list_machines (Some c) license (Some fingerprint) page TAMGA_MACHINE_PAGE_SIZE w) as [[status response] w1] eqn:E. cbn [fst snd] in *.
  assert (forall r w', io_trace w' = io_trace w1 -> r.2 = None -> walked c license fingerprint page (S n) w r w') as Hstop.
  { intros r w' Ht Hn. eapply walked_stop; [exact Hreq|lia|exact Ht|]. intros id Hid. congruence. }
  destruct response as [resp|]; destruct (decide (status = TAMGA_OK)) as [->|]; try (by apply io_post_ret, Hstop).
  2:{ apply io_post_bind. eapply (io_post_lift _ _ (fun _ => True)); [by intros s|]. intros. by apply io_post_ret, Hstop. }
  apply io_post_bind. eapply (io_post_lift _ _ (fun '(st, found) => forall id, found = Some id -> st = TAMGA_OK /\ exact_row resp fingerprint id)).
  { unfold tamga_machine_page_exact_match. destruct (exact_match (page_rows resp) fingerprint) as [raw|] eqn:Em; [|by apply post_ret].
    eapply post_bind; [apply strndup_post|]. intros [copy|] Hcopy; apply post_ret; [|done]. destruct Hcopy as [-> _]. intros id [= <-]. split; [done|].
    apply exact_match_row in Em as (row & value & ? & ? & ? & ?). exists row, value, raw. by split_and!. }
  intros [st found] s1 _ Hfound. apply io_post_bind. eapply (io_post_lift _ _ (fun _ => True)); [by intros s|]. intros meta s2 _ _.
  destruct (decide (st = TAMGA_OK)) as [->|].
  2:{ apply io_post_bind. eapply (io_post_lift _ _ (fun _ => True)); [by intros s|]. intros. by apply io_post_ret, Hstop. }
  destruct found as [id|].
  { apply io_post_ret. eapply walked_stop; [exact Hreq|lia|done|]. intros id' [= <-]. split; [done|]. exists resp, w, w1. split; [exact E|by apply Hfound]. }
  destruct meta as [[[[? ?] ?] total]|]; [|by apply io_post_ret, Hstop]. destruct (page >=? total); [by apply io_post_ret, Hstop|].
  eapply io_post_mono; [apply IH|]. intros r w' [Hrest Hid]. split.
  - replace (Z.of_nat (S n) * (max_retries c + 1)) with (max_retries c + 1 + Z.of_nat n * (max_retries c + 1)) by lia.
    eapply requests_trans; [|eapply requests_mono; [reflexivity| |exact Hrest]].
    + eapply (requests_mono _ _ _ _ w w1); [reflexivity| |exact Hreq]. intros q (call & ? & ?). exists page, call. split_and!; [lia|lia|done|done].
    + intros q (p & call & ? & ? & ?). exists p, call. split_and!; [lia|lia|done|done].
  - intros id Hid'. destruct (Hid id Hid') as (? & p & resp' & w3 & w4 & ? & ? & ?). split; [done|]. exists p, resp', w3, w4. split_and!; [lia|lia|done|done].
Qed.

Lemma find_walked (c : TamgaClient net) license fingerprint w :
  client_wf c -> args_ok [license; Some fingerprint] ->
  io_post (tamga_client_find_machine_by_fingerprint (Some c) license (Some fingerprint)) w (walked c license fingerprint 1 10 w).
Proof.
  intros Hc Hok. pose proof (wf_retries _ Hc) as Hr. unfold tamga_client_find_machine_by_fingerprint.
  apply io_post_bind. eapply (io_post_lift _ _ (fun _ => True)); [by intros s|]. intros _ s1 _ _.
  apply io_post_bind. eapply (io_post_lift _ _ (fun _ => True)); [by intros s|]. intros st s2 _ _.
  destruct (decide (st = TAMGA_OK)); [|apply io_post_ret; split; [apply requests_none; [lia|done]|done]].
  eapply io_post_mono; [by apply find_loop_walked|]. done.
Qed.

Lemma find_keeps (c : TamgaClient net) license fingerprint w :
  client_wf c -> args_ok [license; fingerprint] ->
  io_post (tamga_client_find_machine_by_fingerprint (Some c) license fingerprint) w (fun _ w' => only keeps_all w w').
Proof.
  intros Hc Hok. destruct fingerprint as [fp|].
  - eapply io_post_mono; [by apply find_walked|]. intros r w' [H%requests_only _]. eapply only_mono; [|exact H].
    intros req (p & call & _ & Hcall & ->). unfold keeps_all, call_request. cbn [req_method request_of].
    replace (call_method call) with "GET"%string; [done|]. symmetry. revert call Hcall. method_of.
  - unfold tamga_client_find_machine_by_fingerprint. do 2 (apply (lift_only _ _ (fun _ => keeps_all)); intros ? ? _). apply (ret_only _ (fun _ => keeps_all)).
Qed.

(** ** Deleting *)

(** The deletion of the machine that [created] names. *)
Definition deletes (c : TamgaClient net) (created : TamgaResponse) (req : TamgaHttpRequest) : Prop :=
  exists machine_id canonical, created_machine_id created = Some machine_id /\ uuid_of (Some machine_id) = Some canonical /\
    req = request_of c TAMGA_PATH_ACCOUNT (bstr "DELETE") (path_of "/machines/" canonical None) None None None false.

Definition overage_reply (r : reply) : Prop :=
  exists v, r = (TAMGA_OK, Some v) /\ tamga_validation_code_is_overage (tamga_response_validation_code_enum (Some v)) = true.

Lemma delete_only (c : TamgaClient net) created machine_id w :
  client_wf c -> created_machine_id created = Some machine_id ->
  io_post (tamga_client_delete_machine (Some c) (Some machine_id)) w (fun _ w' => only (deletes c created) w w').
Proof.
  intros Hc Hid. eapply io_post_mono; [apply (by_id_outcome c w True Hc); [done|done|done|by vm_compute]|].
  intros r w' [H|((_ & H) & _)]; [|by apply only_refl]. unfold by_id in H.
  destruct (uuid_of (Some machine_id)) as [i|] eqn:Ei; cbn [present sbind] in H; [|destruct H as (_ & _ & H); by apply only_refl].
  apply sent_requests, requests_only in H; [|done]. eapply only_mono; [|exact H]. intros req ->. by exists machine_id, i.
Qed.

Lemma after_create_only (c : TamgaClient net) license scope auto created w :
  client_wf c -> args_ok [license; scope] ->
  io_post (tamga_activate_after_create (Some c) license scope auto created) w (fun r w' =>
    only (fun req => req_method req = bstr "DELETE" -> auto = true /\ deletes c created req /\ overage_reply r) w w').
Proof.
  intros Hc Hok. unfold tamga_activate_after_create.
  apply (seq_only _ _ (fun r req => req_method req = bstr "DELETE" -> auto = true /\ deletes c created req /\ overage_reply r)); [done|].
  eapply io_post_mono; [by apply validate_keeps|]. intros [status validated] w1 H1. split; [exact H1|]. apply io_post_bind.
  destruct (auto && _ && _ && _) eqn:E; [|by apply io_post_ret, io_post_ret, only_refl].
  rewrite !andb_true_iff, !bool_decide_eq_true in E. destruct E as [[[Hauto Hst] [v Hv]] Hover].
  apply io_post_bind. eapply (io_post_mono _ _ (fun _ w2 => only (deletes c created) w1 w2)).
  - destruct (created_machine_id created) as [m|] eqn:Em; [|by apply io_post_ret, only_refl]. apply io_post_bind.
    eapply io_post_mono; [by apply delete_only|]. intros u w2 H2. by apply io_post_ret.
  - intros u w2 H2. eapply (io_post_lift _ _ (fun _ => True)); [by intros s|]. intros _ s _ _. apply io_post_ret.
    eapply only_mono; [|exact H2]. intros req Hreq _. split_and!; [done|done|]. subst. by exists v.
Qed.

Lemma create_failed_only status created (Q : reply -> TamgaHttpRequest -> Prop) w :
  io_post (tamga_activate_create_failed status created) w (fun r w' => only (Q r) w w').
Proof.
  unfold tamga_activate_create_failed. destruct (decide (status = TAMGA_OK)); [|apply ret_only]. apply lift_only. intros. apply ret_only.
Qed.

(** ** Activation *)

Definition activate (idempotent : bool) (c : TamgaClient net) (license fingerprint options scope : option bytes) (auto : bool) : IO net reply :=
  if idempotent then tamga_client_activate_machine_idempotent (Some c) license fingerprint options scope auto
  else tamga_client_activate_machine (Some c) license fingerprint options scope auto.

(** A deletion an activation is allowed: of the machine its own creation
    answered with, after a validation that found the licence over its limits. *)
Definition allowed (c : TamgaClient net) (license fingerprint options : option bytes) (auto : bool) (w : io net) (r : reply) (req : TamgaHttpRequest) : Prop :=
  req_method req = bstr "DELETE" ->
  auto = true /\ overage_reply r /\
  exists created w2, tamga_client_create_machine (Some c) license fingerprint options w = ((TAMGA_OK, Some created), w2) /\ deletes c created req.

Lemma keeps_allowed c license fingerprint options auto w r req : keeps_all req -> allowed c license fingerprint options auto w r req.
Proof. by intros H ?. Qed.

Section Flow.
Variables (c : TamgaClient net) (license fingerprint options scope : option bytes) (auto : bool) (w : io net).
Hypothesis Hc : client_wf c.
Hypothesis Hok : args_ok [license; fingerprint; options; scope].
Abbreviation Q := (allowed c license fingerprint options auto w).

Lemma pick_args args : (forall a, In a args -> In a [license; fingerprint; options; scope]) -> args_ok args.
Proof.
  intros H. unfold args_ok in *. rewrite Forall_forall in *. intros v (a & Ha%list_elem_of_In & Hv)%list_elem_of_omap. apply Hok, list_elem_of_omap.
  exists a. split; [|exact Hv]. by apply list_elem_of_In, H.
Qed.

Lemma created_flow created w2 :
  tamga_client_create_machine (Some c) license fingerprint options w = ((TAMGA_OK, Some created), w2) ->
  io_post (tamga_activate_after_create (Some c) license scope auto created) w2 (fun r w' => only (Q r) w2 w').
Proof.
  intros E. eapply io_post_mono; [apply after_create_only; [done|apply pick_args; simpl; tauto]|]. intros r w'. apply only_mono.
  intros req H Hd. destruct (H Hd) as (? & ? & ?). split_and!; [done|done|]. by exists created, w2.
Qed.

Lemma adopted_flow w2 : io_post (tamga_client_validate_by_id (Some c) license scope false None) w2 (fun r w' => only (Q r) w2 w').
Proof.
  eapply io_post_mono; [apply validate_keeps; [done|apply pick_args; simpl; tauto]|]. intros r w'. apply only_mono. intros req. apply keeps_allowed.
Qed.

(** What follows the creation. *)
Lemma conflict_flow created w2 :
  io_post
    (do! (lookup, existing) := lift (tamga_conflict_machine_id created) in
      if decide (lookup = TAMGA_OK) then
        match existing with
        | Some _ => tamga_client_validate_by_id (Some c) license scope false None
        | None =>
            do! (lookup, existing) := tamga_client_find_machine_by_fingerprint (Some c) license fingerprint in
            if decide (lookup = TAMGA_ERR_OUT_OF_MEMORY) then io_ret (lookup, None)
            else if decide (lookup = TAMGA_OK) then
              match existing with
              | None =>
                  refuse (fail TAMGA_ERR_FINGERPRINT_TAKEN
                            "the fingerprint is already activated on a different licence under the policy's uniqueness scope")
              | Some _ => tamga_client_validate_by_id (Some c) license scope false None
              end
            else
              refuse (tamga_error_set TAMGA_ERR_FINGERPRINT_TAKEN
                        (FmtText (bstr "the fingerprint is already activated, and the existing machine could not be looked up (" ++
                                  tamga_error_name lookup ++ bstr ")")))
        end
      else refuse (fail lookup "could not read the conflict response")) w2 (fun r w' => only (Q r) w2 w').
Proof.
  apply lift_only. intros [lookup existing] w3 _. destruct (decide _); [|apply lift_only; intros; apply ret_only].
  destruct existing; [apply adopted_flow|]. apply seq_only; [intros; by apply keeps_allowed|].
  eapply io_post_mono; [apply find_keeps; [done|apply pick_args; simpl; tauto]|]. intros [lk ex] w4 H4. split; [exact H4|].
  destruct (decide _); [apply ret_only|]. destruct (decide _); [|apply lift_only; intros; apply ret_only].
  destruct ex; [apply adopted_flow|apply lift_only; intros; apply ret_only].
Qed.
End Flow.

Lemma activate_only idempotent c license fingerprint options scope auto w :
  client_wf c -> args_ok [license; fingerprint; options; scope] ->
  io_post (activate idempotent c license fingerprint options scope auto) w (fun r w' =>
    only (allowed c license fingerprint options auto (lift tamga_error_clear w).2 r) w w').
Proof.
  intros Hc Hok. set (w1 := (lift tamga_error_clear w).2).
  assert (forall k : TamgaErrorCode * option TamgaResponse -> IO net reply,
    (forall status created w2, tamga_client_create_machine (Some c) license fingerprint options w1 = ((status, created), w2) ->
      io_post (k (status, created)) w2 (fun r w' => only (allowed c license fingerprint options auto w1 r) w2 w')) ->
    io_post (do! _ := lift tamga_error_clear in do! x := tamga_client_create_machine (Some c) license fingerprint options in k x) w
      (fun r w' => only (allowed c license fingerprint options auto w1 r) w w')) as Hstart.
  { intros k Hk. apply io_post_bind. unfold io_post at 1. fold w1.
    apply (io_post_mono _ _ (fun r w' => only (allowed c license fingerprint options auto w1 r) w1 w')); [|done]. apply seq_only; [intros; by apply keeps_allowed|].
    pose proof (create_keeps c license fingerprint options w1 Hc ltac:(eapply pick_args; [exact Hok|simpl; tauto])) as Hcr. unfold io_post in Hcr |- *.
    destruct (tamga_client_create_machine (Some c) license fingerprint options w1) as [[status created] w2] eqn:E. split; [exact Hcr|]. by apply Hk. }
  unfold activate, tamga_client_activate_machine, tamga_client_activate_machine_idempotent. destruct idempotent; apply Hstart; intros status created w2 E.
  - destruct status; try apply create_failed_only; [destruct created as [r|]; [by eapply created_flow|apply create_failed_only]|by apply conflict_flow].
  - destruct created as [r|]; [|apply create_failed_only]. destruct (decide (status = TAMGA_OK)) as [->|]; [by eapply created_flow|apply create_failed_only].
Qed.

(** (C16) An activation, plain or idempotent, deletes at most the machine it has
    just created: whatever the server and the allocator do, the only DELETE it
    performs is of the machine that the creation of this very call returned,
    the caller asked for it, and the validation the caller gets back found the
    licence over one of its limits. A machine that was already there and is
    adopted by the idempotent form is never deleted. *)
Theorem activation_deletes_own (c : TamgaClient net) idempotent license fingerprint options scope auto w :
  made c -> Forall bytes_ok (omap id [license; fingerprint; options; scope]) ->
  let '(r, w') := activate idempotent c license fingerprint options scope auto w in
  only (allowed c license fingerprint options auto (lift tamga_error_clear w).2 r) w w'.
Proof.
  intros Hc%made_wf Hok. pose proof (activate_only idempotent c license fingerprint options scope auto w Hc Hok) as H. unfold io_post in H.
  by destruct (activate idempotent c license fingerprint options scope auto w).
Qed.

(** (C32) The lookup by fingerprint ends after at most ten pages: it performs
    only listing requests for pages 1 to 10, at most [10 * (max_retries + 1)] of
    them whatever page count the server claims, and a machine it returns is a
    row of one of those listings whose fingerprint is exactly the one asked for,
    not merely a match of the server's substring search. *)
Theorem lookup_exact (c : TamgaClient net) license fingerprint w :
  made c -> Forall bytes_ok (omap id [license; Some fingerprint]) ->
  let '(r, w') := tamga_client_find_machine_by_fingerprint (Some c) license (Some fingerprint) w in
  walked c license fingerprint 1 10 w r w'.
Proof.
  intros Hc%made_wf Hok. pose proof (find_walked c license fingerprint w Hc Hok) as H. unfold io_post in H.
  by destruct (tamga_client_find_machine_by_fingerprint _ _ _ w).
Qed.
End Traces.

(** ** Witnesses *)

#[local] Existing Instance full_memory.
#[local] Existing Instance demo_platform.

(** A document written with apostrophes for quotation marks. *)
Definition doc_text (s : string) : bytes := map (fun c => if c =? 39 then 34 else c) (bstr s).

Definition answer_of (status : Z) (body : string) : bool * TamgaHttpResponse :=
  (true, mk_http status (Some (doc_text body)) [] 0 TAMGA_TRANSPORT_FAIL_NETWORK).

Definition demo_license : option bytes := Some (bstr "0198f3a0-52c1-7e6b-9d44-1b2c3d4e5f60").

(** A server that creates the machine, finds the licence over its limit, and
    deletes the machine again. *)
Definition over_limit : io script :=
  demo_world [answer_of 201 "{'data':{'id':'0198f3a0-0000-7000-8000-000000000001','type':'machines'}}";
              answer_of 200 "{'meta':{'valid':false,'code':'TOO_MANY_MACHINES'}}"; answer_of 204 ""].

Lemma activation_deletes_own_witness :
  map (fun ev => match ev with Performed r => req_method r | Slept _ => [] end)
    (io_trace (activate false demo_client demo_license (Some (bstr "fp")) None None true over_limit).2) = [bstr "POST"; bstr "POST"; bstr "DELETE"] /\
  let '(r, w') := activate false demo_client demo_license (Some (bstr "fp")) None None true over_limit in
  only (allowed demo_client demo_license (Some (bstr "fp")) None true (lift tamga_error_clear over_limit).2 r) over_limit w'.
Proof.
  split; [vm_compute; reflexivity|]. apply (activation_deletes_own demo_client false demo_license (Some (bstr "fp")) None None true over_limit).
  - exact demo_made.
  - constructor; [apply bstr_bytes|]. constructor; [apply bstr_bytes|]. constructor.
Defined.

(** A listing with a near miss before the machine. *)
Definition two_rows : io script :=
  demo_world [answer_of 200 "{'data':[{'id':'a','attributes':{'fingerprint':'fp-1'}},{'id':'b','attributes':{'fingerprint':'fp'}}]}"].

Lemma lookup_exact_witness :
  (tamga_client_find_machine_by_fingerprint (Some demo_client) demo_license (Some (bstr "fp")) two_rows).1 = (TAMGA_OK, Some (bstr "b")) /\
  let '(r, w') := tamga_client_find_machine_by_fingerprint (Some demo_client) demo_license (Some (bstr "fp")) two_rows in
  walked demo_client demo_license (bstr "fp") 1 10 two_rows r w'.
Proof.
  split; [vm_compute; reflexivity|]. apply (lookup_exact demo_client demo_license (bstr "fp") two_rows).
  - exact demo_made.
  - constructor; [apply bstr_bytes|]. constructor; [apply bstr_bytes|]. constructor.
Defined.
